(* ===== verification/_CoqProject ===== *)
-Q . S2P
Prelude.v
Machine.v
Memory.v
Kstring.v
State.v
Spinlock.v
Kalloc.v
Vm.v
VmTables.v
VmMap.v
VmSpace.v
VmCopy.v
VmFree.v
VmSpec.v
Sched.v
Wakeups.v
Runs.v
Sleeping.v
Ring.v
Uart.v
Printf.v
UartSpec.v
Proc.v
ProcSpec.v
AllocSpec.v
Console.v
ConsoleSpec.v
PrintSpec.v
Sleeplock.v
Block.v
Bio.v
Cache.v
CacheOps.v
CacheLogic.v
CacheSpec.v
Log.v
LogSpec.v
LogCrash.v
LogOps.v
Fs.v
Itable.v
FsLogic.v
FsAlloc.v
FsFile.v
FsIo.v
FsSpec.v
Dir.v
NameSpec.v
DirSpec.v
Mkfs.v
MkfsSpec.v
Pipe.v
PipeSpec.v
File.v
Life.v
ForkSpec.v
WaitSpec.v
Exec.v
Sysfile.v
Syscall.v
SyscallSpec.v
Virtio.v
VirtioSpec.v
VirtioSync.v
Trap.v
User.v
Umalloc.v
UmallocSpec.v
Ulib.v
Uprintf.v
Grep.v
Sh.v
ShSpec.v
ShGrammar.v
Programs.v
ProgSpec.v
Tests.v
Grind.v
