(* ===== verification/Prelude.v ===== *)
(** * A verification development for the xv6 kernel and its user programs

    The program is the teaching kernel xv6 for RISC-V with the two system calls
    of the system call lab, [trace] and [sysinfo]: the kernel (src/kernel), the
    user programs (src/user) and the builder of the disk image (src/mkfs).

    ** How the code is translated

    C integers are [Z]; where the source computes in a fixed width the
    truncation is written out ([u8], [u16], [u32], [u64], [s16], [s32]).
    Kernel code is a function from the kernel's state (the record [kernel] of
    State.v: every global variable, the harts, the device registers, the disk
    and physical memory) to an [outcome]: it returns ([Ret]), panics ([Panic]),
    never returns ([Hang]), or gives up the processor in [sched] ([Switch],
    with the rest of the code as a function of the state in which the thread is
    resumed).  [bind] and the [let!] notation sequence such code.  A pointer to
    an element of a global array is its index; a pointer to a page is its
    physical address, and page tables, trapframes, the free list and user
    memory lie in one byte-addressed memory (Memory.v).  User programs run in
    a monad of their own (User.v) over an operating system that is a class,
    [UserOS].

    ** Parts of the program and where they are

    - Prelude, Machine, Memory: integers, outcomes, loops, tactics and hints;
      kernel/param.h, memlayout.h and riscv.h; loads and stores.
    - Kstring: kernel/string.c.  State: the structures of kernel/*.h.
    - Spinlock (with [Harts], several harts on one lock): kernel/spinlock.c.
      Sleeplock: kernel/sleeplock.c.
    - Kalloc: kernel/kalloc.c.  Vm: kernel/vm.c, with its theory in VmTables,
      VmMap, VmSpace, VmCopy, VmFree and VmSpec.
    - Sched (sched, sleep, wakeup, kill, scheduler), Proc (the process table
      and its memory), Life (userinit, fork, exit, wait): kernel/proc.c, with
      Wakeups, Runs, Sleeping, ProcSpec, AllocSpec, ForkSpec and WaitSpec.
    - Ring: the rings of bytes that the next four have in common.  Uart and
      UartSpec: kernel/uart.c; Printf and PrintSpec: kernel/printf.c; Console
      and ConsoleSpec: kernel/console.c; Pipe and PipeSpec: kernel/pipe.c.
    - Virtio, VirtioSpec and VirtioSync: kernel/virtio_disk.c.
    - Block, Bio, Cache, CacheOps, CacheLogic, CacheSpec: kernel/bio.c.  Log,
      LogSpec, LogCrash, LogOps: kernel/log.c.
    - Fs (blocks and inodes), Itable, FsLogic, FsAlloc, FsFile, FsIo, FsSpec,
      Dir (directories and paths), NameSpec, DirSpec: kernel/fs.c.
    - File: kernel/file.c.  Exec: kernel/exec.c.  Sysfile: kernel/sysfile.c and
      sysproc.c.  Syscall and SyscallSpec: kernel/syscall.c.  Trap:
      kernel/trap.c, plic.c and main.c.
    - Mkfs and MkfsSpec: mkfs/mkfs.c.
    - User, Ulib, Uprintf, Umalloc, UmallocSpec: the interface of user programs
      and user/ulib.c, printf.c, umalloc.c.  Grep: the matcher of user/grep.c.
      Sh, ShSpec, ShGrammar: user/sh.c.  Programs, ProgSpec: echo, cat, wc,
      grep, kill, ln, ls, mkdir, rm, init, trace and zombie.  Tests, Grind:
      sysinfotest, forktest, stressfs and grind.

    Parts meet in interfaces: [KernelLayout] and [LayoutOk] (addresses the
    linker chooses), [BlockDriver] (the call the file system makes to
    a disk driver; [virtio_driver] is the kernel's, [sync_driver] one that
    transfers a block at once), [VirtioDevice] (what the driver asks of the device),
    [UserOS] with [FileIO] and [Sbrk] (what user programs ask of the kernel),
    and the record [host] (what mkfs asks of the build machine).

    ** What is proved

    - Locks and scheduling: at most one hart is inside a spin lock in every
      interleaving, where each access to the lock word and to its owner is a
      step of its own; no interleaving of [sleep], [wakeup] and the scheduler
      loses a wakeup; what [sleep] and a turn of the scheduler leave behind.
    - Memory: page tables as maps from virtual pages to entries; each routine
      of vm.c refines an operation on them, fails without losing a page and
      never touches pages of others; [copyout] and [copyinstr] agree with
      byte-by-byte references; [growproc] on every size.
    - Processes: [fork] makes a copy of the caller or gives everything back;
      [wait] reaps a child and frees exactly its pages, or sleeps; the system
      call dispatcher with tracing; [sysinfo].
    - Devices: the life of a disk request through descriptors, rings and the
      interrupt, and that it has the effect of a transfer; the console refines
      a line editor; a pipe is a queue, and what one process writes, sleeping
      whenever the pipe is full, reaches the readers in order; printed numbers
      read back.
    - File system: a transaction reaches the disk as a whole or not at all, for
      a crash at any write of commit and any number of crashes in recovery;
      [balloc]; [writei] changes exactly the bytes asked for, and [readi] reads
      them back; [dirlookup] and [dirlink] on directories as finite maps; the
      image mkfs writes satisfies the invariants these theorems start from.
    - User programs: the heap invariant of [malloc] and [free], and the sizes
      for which [malloc] goes wrong; the shell's
      parser ends on every line, accepts exactly the grammar, returns
      well-formed trees and reads back what is printed; the pattern matcher
      decides the language of the pattern, and grep prints the matching lines.

    ** Bounds and fuel

    A C loop without a structural bound is [loop], which runs up to 2^64 turns
    and then is [Hang]; every theorem that says code returns bounds the number
    of turns below that.  The recursive descent of the shell gets 16 units of
    fuel for each character of the line and for its NUL ([parse_fuel]);
    [ShSpec.parsecmd_total] shows that they never run out.  [printint] has the
    32 turns that a 32-bit number can need at most.

    ** What the theorems assume

    Theorems on sequential kernel code are about a thread that holds no lock
    and whose locks are free ([thread_ok]); what other threads do while it
    sleeps is arbitrary, within the state promised to a resumed thread
    ([resumed]).  A block write to the disk is atomic.  Theorems on pipes
    assume of the states in which a sleeper is resumed that the pipe and the
    memory of the process are in order.

    The theorems on the buffer cache, the log, files and directories (the files
    Cache to CacheSpec, Log to LogOps and Fs to DirSpec) run with [sync_driver]
    of Block.v, a driver that transfers the block at once and does not switch
    threads; it is a contract and translates no code.  The kernel's
    [virtio_disk_rw] always sleeps.  [VirtioSync.virtio_rw_sync] relates the
    two: with no other request outstanding, and while others leave the disk and
    the buffers alone, the driver, a device that serves the request and the
    interrupt handler leave the disk, the order of writes and the buffers as
    the contract says.  What other threads do during the sleep is not part of
    the theorems on the file system.

    Theorems on files run in a transaction whose buffers nobody else uses, with
    room in the log for each block they touch.  The theorem on mkfs assumes
    that the build machine can seek in and write the image.

    ** Not modelled

    - entry.S, swtch.S, trampoline.S, kernelvec.S, initcode.S, usys.pl and
      start.c: assembly, and C that only writes machine-mode registers.  The
      switch of threads is the outcome [Switch]; trampoline and trapframe are
      pages of the address space.  Of the register accessors of riscv.h those
      with an effect on the modelled state are there.
    - user/usertests.c: checks of the kernel from outside, most of them about
      timing, crashes or exhaustion of the whole system; no other part relies
      on it.
    - kernel/ramdisk.c is not part of the build (and no longer compiles);
      defs.h, types.h, date.h, the linker script, the Makefile and the grading
      scripts only declare or build.
    - Reference counts of files and inodes have no width, and the data of a
      pipe is kept in a table by the address of its page, apart from the bytes
      of the page.
    - Memory as weaker than sequentially consistent, and the contents of the
      devices beyond what the drivers see of them. *)

From Stdlib Require Export ZArith Lia.
From Stdlib Require Import FunctionalExtensionality.
From stdpp Require Export base numbers gmap strings list.

Open Scope Z_scope.

(** ** Machine integers

    The C integer types are kept as [Z]; every place where the source computes
    in a fixed width writes the truncation out with one of these. *)

Definition u8 (x : Z) : Z := x `mod` 2 ^ 8.
Definition u16 (x : Z) : Z := x `mod` 2 ^ 16.
Definition u32 (x : Z) : Z := x `mod` 2 ^ 32.
Definition u64 (x : Z) : Z := x `mod` 2 ^ 64.

(** Conversion to a signed [int]. *)
Definition s32 (x : Z) : Z :=
  if u32 x <? 2 ^ 31 then u32 x else u32 x - 2 ^ 32.

(** Conversion to a signed [short]. *)
Definition s16 (x : Z) : Z :=
  if u16 x <? 2 ^ 15 then u16 x else u16 x - 2 ^ 16.

Lemma u8_small x : 0 ≤ x < 2 ^ 8 → u8 x = x.
Proof. apply Z.mod_small. Qed.
Lemma u16_small x : 0 ≤ x < 2 ^ 16 → u16 x = x.
Proof. apply Z.mod_small. Qed.
Lemma u32_small x : 0 ≤ x < 2 ^ 32 → u32 x = x.
Proof. apply Z.mod_small. Qed.
Lemma u64_small x : 0 ≤ x < 2 ^ 64 → u64 x = x.
Proof. apply Z.mod_small. Qed.
Lemma u32_range x : 0 ≤ u32 x < 2 ^ 32.
Proof. by apply Z.mod_pos_bound. Qed.
Lemma u64_range x : 0 ≤ u64 x < 2 ^ 64.
Proof. by apply Z.mod_pos_bound. Qed.

Lemma s32_small x : - 2 ^ 31 ≤ x < 2 ^ 31 → s32 x = x.
Proof.
  intros Hx. unfold s32, u32.
  destruct (Z.ltb_spec (x `mod` 2 ^ 32) (2 ^ 31)); Z.to_euclidean_division_equations; lia.
Qed.

Lemma s16_small x : - 2 ^ 15 ≤ x < 2 ^ 15 → s16 x = x.
Proof.
  intros Hx. unfold s16, u16.
  destruct (Z.ltb_spec (x `mod` 2 ^ 16) (2 ^ 15)); Z.to_euclidean_division_equations; lia.
Qed.

(** ** Outcomes of kernel code

    A C function run by one kernel thread from a state of type [S] ends in one
    of four ways: it returns; it calls [panic]; it never comes back (it spins
    on a lock that nobody will release, or loops for ever); or it reaches
    [swtch], which hands the processor to the scheduler.  In the last case the
    outcome holds the state in which the thread left and the rest of its
    computation, which the scheduler later runs from whatever state it finds. *)

Inductive outcome (S A : Type) : Type :=
| Ret (a : A) (s : S)
| Panic (msg : string)
| Hang
| Switch (s : S) (k : S → outcome S A).

Arguments Ret {S A} a s.
Arguments Panic {S A} msg.
Arguments Hang {S A}.
Arguments Switch {S A} s k.

Definition M (S A : Type) : Type := S → outcome S A.

Fixpoint obind {S A B : Type} (o : outcome S A) (f : A → M S B) : outcome S B :=
  match o with
  | Ret a s => f a s
  | Panic msg => Panic msg
  | Hang => Hang
  | Switch s k => Switch s (λ s', obind (k s') f)
  end.

Definition ret {S A : Type} (a : A) : M S A := λ s, Ret a s.
Definition bind {S A B : Type} (c : M S A) (f : A → M S B) : M S B :=
  λ s, obind (c s) f.
Definition panic {S A : Type} (msg : string) : M S A := λ _, Panic msg.
(** An access outside an array, to which C gives no meaning. *)
Definition undefined {S A : Type} : M S A := panic "undefined behaviour".
Definition hang {S A : Type} : M S A := λ _, Hang.
Definition gets {S A : Type} (f : S → A) : M S A := λ s, Ret (f s) s.
Definition modify {S : Type} (f : S → S) : M S unit := λ s, Ret tt (f s).

Declare Scope kernel_scope.
Delimit Scope kernel_scope with kernel.
Notation "'let!' x ':=' c 'in' k" := (bind c (λ x, k))
  (at level 10, x binder, c at level 100, k at level 200,
   format "'[v' 'let!'  x  ':='  c  'in' '/' k ']'") : kernel_scope.
Notation "c ';;;' k" := (bind c (λ _, k))
  (at level 100, k at level 200, right associativity,
   format "'[v' c ';;;' '/' k ']'") : kernel_scope.
Open Scope kernel_scope.

(** [if (c) stmt;] with nothing in the other branch. *)
Definition when {S : Type} (b : bool) (c : M S unit) : M S unit :=
  if b then c else ret tt.

(** A [for] loop over the slots of a fixed-size array. *)
Fixpoint for_each {S A : Type} (l : list A) (body : A → M S unit) : M S unit :=
  match l with
  | [] => ret tt
  | x :: l' => body x ;;; for_each l' body
  end.

(** The same with a body that may leave the loop early, with a value. *)
Fixpoint for_find {S A B : Type} (l : list A) (body : A → M S (option B))
    : M S (option B) :=
  match l with
  | [] => ret None
  | x :: l' =>
      let! r := body x in
      match r with
      | Some b => ret (Some b)
      | None => for_find l' body
      end
  end.

(** ** Unbounded loops

    [loop step a] runs [step] from the loop variables [a] until it answers
    [inr]; [inl] carries the variables of the next iteration.  [iter2 n] makes
    up to [2^n] iterations, so [loop] gives up (with [Hang]) only after [2^64]
    of them. *)

Fixpoint iter2 {S A B : Type} (n : nat) (step : A → M S (A + B)) (a : A)
    : M S (A + B) :=
  match n with
  | O => step a
  | Datatypes.S n' =>
      let! r := iter2 n' step a in
      match r with
      | inl a' => iter2 n' step a'
      | inr b => ret (inr b)
      end
  end.

Definition loop {S A B : Type} (step : A → M S (A + B)) (a : A) : M S B :=
  let! r := iter2 64 step a in
  match r with
  | inl _ => hang
  | inr b => ret b
  end.

(** [for(i = i0; i < bound; i++) body], where [bound] is read again before each
    turn. *)
Definition for_up {S : Type} (i0 : Z) (bound : M S Z) (body : Z → M S unit) : M S unit :=
  loop (λ i, let! n := bound in
             if i <? n then body i ;;; ret (inl (i + 1)) else ret (inr tt)) i0.

(** The unary unrolling used to reason about [loop]. *)
Fixpoint run_n {S A B : Type} (n : nat) (step : A → M S (A + B)) (a : A)
    : M S (A + B) :=
  match n with
  | O => ret (inl a)
  | Datatypes.S n' =>
      let! r := step a in
      match r with
      | inl a' => run_n n' step a'
      | inr b => ret (inr b)
      end
  end.

(** ** Laws of the monad *)

Section monad_laws.
Context {S : Type}.

Lemma bind_Ret {A B} (c : M S A) (f : A → M S B) s a s' :
  c s = Ret a s' → bind c f s = f a s'.
Proof. intros H. unfold bind. by rewrite H. Qed.

Lemma bind_Panic {A B} (c : M S A) (f : A → M S B) s msg :
  c s = Panic msg → bind c f s = Panic msg.
Proof. intros H. unfold bind. by rewrite H. Qed.

Lemma bind_Switch {A B} (c : M S A) (f : A → M S B) s s' k :
  c s = Switch s' k → bind c f s = Switch s' (λ s'', obind (k s'') f).
Proof. intros H. unfold bind. by rewrite H. Qed.

Lemma obind_assoc {A B C} (o : outcome S A) (f : A → M S B) (g : B → M S C) :
  obind (obind o f) g = obind o (λ a, bind (f a) g).
Proof.
  induction o as [a s|msg| |s k IH]; simpl; try done.
  f_equal. extensionality s'. apply IH.
Qed.

Lemma bind_assoc {A B C} (c : M S A) (f : A → M S B) (g : B → M S C) :
  bind (bind c f) g = bind c (λ a, bind (f a) g).
Proof. extensionality s. apply obind_assoc. Qed.

Lemma bind_ret_l {A B} (a : A) (f : A → M S B) : bind (ret a) f = f a.
Proof. done. Qed.

Lemma obind_ret {A} (o : outcome S A) : obind o ret = o.
Proof.
  induction o as [a s|msg| |s k IH]; simpl; try done.
  f_equal. extensionality s'. apply IH.
Qed.

(** A computation that returns did so by running its first part to a return. *)
Lemma bind_Ret_inv {A B} (c : M S A) (f : A → M S B) s b s' :
  bind c f s = Ret b s' → ∃ a s1, c s = Ret a s1 ∧ f a s1 = Ret b s'.
Proof. unfold bind. destruct (c s); simpl; naive_solver. Qed.

Lemma for_each_app {A} (l1 l2 : list A) (body : A → M S unit) s s' :
  for_each l1 body s = Ret tt s' →
  for_each (l1 ++ l2) body s = for_each l2 body s'.
Proof.
  revert s. induction l1 as [|x l1 IH]; intros s H; simpl in *.
  - by injection H as ->.
  - apply bind_Ret_inv in H as ([] & s1 & H1 & H2).
    rewrite (bind_Ret _ _ _ _ _ H1). by apply IH.
Qed.

Lemma for_find_app {A B} (l1 l2 : list A) (body : A → M S (option B)) s s' :
  for_find l1 body s = Ret None s' →
  for_find (l1 ++ l2) body s = for_find l2 body s'.
Proof.
  revert s. induction l1 as [|x l1 IH]; intros s H; simpl in *.
  - by injection H as ->.
  - apply bind_Ret_inv in H as (r & s1 & H1 & H2).
    rewrite (bind_Ret _ _ _ _ _ H1). destruct r; [done|]. by apply IH.
Qed.

(** ** Loops and their unrolling *)

Section loops.
Context {A B : Type} (step : A → M S (A + B)).

Definition continue (n : nat) (r : A + B) : M S (A + B) :=
  match r with
  | inl a' => run_n n step a'
  | inr b => ret (inr b)
  end.

Lemma run_n_S n a : run_n (Datatypes.S n) step a = bind (step a) (continue n).
Proof. done. Qed.

(** One iteration of a loop that goes on. *)
Lemma run_n_next n a s a' s' :
  step a s = Ret (inl a') s' → run_n (Datatypes.S n) step a s = run_n n step a' s'.
Proof. intros H. by rewrite run_n_S, (bind_Ret _ _ _ _ _ H). Qed.

(** The last iteration. *)
Lemma run_n_stop n a s b s' :
  step a s = Ret (inr b) s' → run_n (Datatypes.S n) step a s = Ret (inr b) s'.
Proof. intros H. by rewrite run_n_S, (bind_Ret _ _ _ _ _ H). Qed.

Lemma run_n_add n m a :
  run_n (n + m) step a = bind (run_n n step a) (continue m).
Proof.
  revert a. induction n as [|n IH]; intros a; simpl; [done|].
  rewrite bind_assoc. f_equal. extensionality r. destruct r; [apply IH|done].
Qed.

Lemma iter2_run_n n a : iter2 n step a = run_n (2 ^ n) step a.
Proof.
  revert a. induction n as [|n IH]; intros a.
  - simpl. extensionality s. unfold bind.
    rewrite <- (obind_ret (step a s)) at 1. f_equal.
    extensionality r. by destruct r.
  - replace (2 ^ Datatypes.S n)%nat with (2 ^ n + 2 ^ n)%nat by (simpl; lia).
    rewrite run_n_add. cbn [iter2]. rewrite IH. f_equal.
    extensionality r. destruct r; [by rewrite IH|done].
Qed.

(** What a loop does after its last iteration. *)
Definition finish (r : A + B) : M S B :=
  match r with
  | inl _ => hang
  | inr b => ret b
  end.

Lemma loop_run_n a : loop step a = bind (run_n (2 ^ 64) step a) finish.
Proof. unfold loop. rewrite iter2_run_n. f_equal. Qed.

Lemma pow_nat_64 k : Z.of_nat k ≤ 2 ^ 64 → (k ≤ 2 ^ 64)%nat.
Proof. intros H. apply Nat2Z.inj_le. rewrite Nat2Z.inj_pow. apply H. Qed.

Lemma loop_Ret k a s b s' :
  Z.of_nat k ≤ 2 ^ 64 →
  run_n k step a s = Ret (inr b) s' → loop step a s = Ret b s'.
Proof.
  intros Hk%pow_nat_64 H. rewrite loop_run_n.
  apply Nat.le_exists_sub in Hk as (j & -> & _). rewrite Nat.add_comm, run_n_add.
  rewrite bind_assoc. by rewrite (bind_Ret _ _ _ _ _ H).
Qed.

Lemma loop_Panic k a s msg :
  Z.of_nat k ≤ 2 ^ 64 →
  run_n k step a s = Panic msg → loop step a s = Panic msg.
Proof.
  intros Hk%pow_nat_64 H. rewrite loop_run_n.
  apply Nat.le_exists_sub in Hk as (j & -> & _). rewrite Nat.add_comm, run_n_add.
  rewrite bind_assoc. by rewrite (bind_Panic _ _ _ _ H).
Qed.

End loops.

(** A loop that makes [k] turns, and what it does in the next one. *)
Lemma run_n_inv {A B : Type} (I : nat → S → Prop) (step : A → M S (A + B)) (f : nat → A) k s :
  I O s → (∀ j s, (j < k)%nat → I j s → ∃ s', step (f j) s = Ret (inl (f (Datatypes.S j))) s' ∧ I (Datatypes.S j) s') →
  ∃ s', run_n k step (f O) s = Ret (inl (f k)) s' ∧ I k s'.
Proof.
  revert f I s. induction k as [|k IH]; intros f I s H0 Hs; [by exists s|].
  destruct (Hs O s) as (s1 & E1 & I1); [lia|done|].
  destruct (IH (λ j, f (Datatypes.S j)) (λ j, I (Datatypes.S j)) s1 I1) as (s' & E & Hk).
  - intros j s2 Hj HI. apply (Hs (Datatypes.S j)); [lia|done].
  - exists s'. split; [|done]. by rewrite (run_n_next _ _ _ _ _ _ E1).
Qed.

Lemma loop_at {A B : Type} (step : A → M S (A + B)) k a s a' s1 b s2 :
  Z.of_nat k < 2 ^ 64 → run_n k step a s = Ret (inl a') s1 → step a' s1 = Ret (inr b) s2 → loop step a s = Ret b s2.
Proof.
  intros Hk E1 E2. apply (loop_Ret step (k + 1)); [lia|]. rewrite run_n_add, (bind_Ret _ _ _ _ _ E1).
  by apply run_n_stop.
Qed.

Lemma loop_at_panic {A B : Type} (step : A → M S (A + B)) k a s a' s1 msg :
  Z.of_nat k < 2 ^ 64 → run_n k step a s = Ret (inl a') s1 → step a' s1 = Panic msg → loop step a s = Panic msg.
Proof.
  intros Hk E1 E2. apply (loop_Panic step (k + 1)); [lia|]. rewrite run_n_add, (bind_Ret _ _ _ _ _ E1).
  cbn [continue run_n]. by rewrite (bind_Panic _ _ _ _ E2).
Qed.

(** A counting loop whose body keeps an invariant indexed by the counter ends
    with the invariant at the bound. *)
Lemma for_up_inv (I : Z → S → Prop) (bound : M S Z) body i n s :
  i ≤ n → n - i < 2 ^ 64 →
  (∀ j s, i ≤ j ≤ n → I j s → bound s = Ret n s) →
  (∀ j s, i ≤ j < n → I j s → ∃ s', body j s = Ret tt s' ∧ I (j + 1) s') →
  I i s → ∃ s', for_up i bound body s = Ret tt s' ∧ I n s'.
Proof.
  intros Hin Hlt Hb Hstep HI. unfold for_up.
  set (step := λ i, let! n := bound in _).
  assert (∀ (k : nat) j s, n - j = Z.of_nat k → i ≤ j → I j s →
            ∃ s', run_n (Datatypes.S k) step j s = Ret (inr tt) s' ∧ I n s') as Hrun.
  { induction k as [|k IH]; intros j s1 Hk Hj Hs1.
    - assert (j = n) as -> by lia. exists s1. split; [|done].
      apply run_n_stop. unfold step. rewrite (bind_Ret _ _ _ _ _ (Hb n s1 ltac:(lia) Hs1)).
      by rewrite Z.ltb_irrefl.
    - destruct (Hstep j s1) as (s2 & E2 & I2); [lia|done|].
      destruct (IH (j + 1) s2) as (s3 & E3 & I3); [lia|lia|done|].
      exists s3. split; [|done]. rewrite (run_n_next _ _ _ _ (j + 1) s2); [done|].
      unfold step. rewrite (bind_Ret _ _ _ _ _ (Hb j s1 ltac:(lia) Hs1)).
      destruct (Z.ltb_spec j n); [|lia]. by rewrite (bind_Ret _ _ _ _ _ E2). }
  destruct (Hrun (Z.to_nat (n - i)) i s) as (s' & E & HI'); [lia|lia|done|].
  exists s'. split; [|done]. apply (loop_Ret _ (Datatypes.S (Z.to_nat (n - i)))); [lia|done].
Qed.

End monad_laws.

Global Opaque loop.

(** ** Lists *)

Lemma Forall_elem {A} (P : A → Prop) l x : Forall P l → x ∈ l → P x.
Proof. intros H Hx. rewrite list.Forall_forall in H. by apply H. Qed.

Lemma alter_at {A} (f : A → A) k (l : list A) x : l !! k = Some x → alter f k l = <[k := f x]> l.
Proof.
  intros Hx. apply list_eq. intros j. destruct (decide (j = k)) as [->|Hj].
  - rewrite list_lookup_alter_eq, Hx, list_lookup_insert_eq by (by eapply lookup_lt_Some). done.
  - by rewrite list_lookup_alter_ne, list_lookup_insert_ne.
Qed.

(** ** Bytes *)

Definition is_byte (c : Z) : Prop := 0 ≤ c < 256.

Lemma is_byte_u8 x : is_byte (u8 x).
Proof. by apply Z.mod_pos_bound. Qed.

(** ** Automation

    [words] removes truncations of numbers that fit, [run H] takes a step of a
    computation with the equation [H] for its first part, and the hints
    [bytes] show that lists hold bytes. *)

#[export] Hint Rewrite u8_small u16_small u32_small u64_small s16_small s32_small using lia : words.
Ltac words := autorewrite with words.

Tactic Notation "run" uconstr(H) := rewrite (bind_Ret _ _ _ _ _ H).
Tactic Notation "run" uconstr(H1) "," uconstr(H2) := run H1; run H2.
Tactic Notation "run" uconstr(H1) "," uconstr(H2) "," uconstr(H3) := run H1; run H2; run H3.

Create HintDb bytes.
#[export] Hint Resolve is_byte_u8 Forall_nil_2 Forall_cons_2 Forall_app_2 Forall_take Forall_drop Forall_replicate : bytes.
