(* ===== verification/Machine.v ===== *)
(** * Machine-level constants and macros

    The sizes of kernel/param.h and kernel/fs.h, the address-space constants of
    kernel/memlayout.h, and the page and page-table-entry macros of
    kernel/riscv.h, with the arithmetic facts the other files rely on. *)

From S2P Require Import Prelude.

(** ** kernel/param.h *)
Definition NPROC : nat := 64.
Definition NCPU : nat := 8.
Definition NOFILE : nat := 16.
Definition NFILE : nat := 100.
Definition NINODE : nat := 50.
Definition NDEV : Z := 10.
Definition ROOTDEV : Z := 1.
Definition MAXARG : nat := 32.
Definition MAXOPBLOCKS : Z := 10.
Definition LOGSIZE : Z := MAXOPBLOCKS * 3.
Definition NBUF : nat := 30.
Definition FSSIZE : Z := 1000.
Definition MAXPATH : Z := 128.

(** ** kernel/riscv.h: pages and page-table entries *)
Definition PGSIZE : Z := 4096.
Definition PGSHIFT : Z := 12.

Definition PGROUNDUP (sz : Z) : Z :=
  Z.land (u64 (sz + PGSIZE - 1)) (u64 (Z.lnot (PGSIZE - 1))).
Definition PGROUNDDOWN (a : Z) : Z :=
  Z.land a (u64 (Z.lnot (PGSIZE - 1))).

Definition PTE_V : Z := Z.shiftl 1 0.
Definition PTE_R : Z := Z.shiftl 1 1.
Definition PTE_W : Z := Z.shiftl 1 2.
Definition PTE_X : Z := Z.shiftl 1 3.
Definition PTE_U : Z := Z.shiftl 1 4.

Definition PA2PTE (pa : Z) : Z := u64 (Z.shiftl (Z.shiftr pa 12) 10).
Definition PTE2PA (pte : Z) : Z := u64 (Z.shiftl (Z.shiftr pte 10) 12).
Definition PTE_FLAGS (pte : Z) : Z := Z.land pte 0x3FF.

Definition PXMASK : Z := 0x1FF.
Definition PXSHIFT (level : Z) : Z := PGSHIFT + 9 * level.
Definition PX (level va : Z) : Z := Z.land (Z.shiftr va (PXSHIFT level)) PXMASK.

Definition MAXVA : Z := Z.shiftl 1 (9 + 9 + 9 + 12 - 1).

(** ** kernel/memlayout.h *)
Definition UART0 : Z := 0x10000000.
Definition VIRTIO0 : Z := 0x10001000.
Definition PLIC : Z := 0x0c000000.
Definition KERNBASE : Z := 0x80000000.
Definition PHYSTOP : Z := KERNBASE + 128 * 1024 * 1024.
Definition TRAMPOLINE : Z := MAXVA - PGSIZE.
Definition KSTACK (p : Z) : Z := TRAMPOLINE - (p + 1) * 2 * PGSIZE.
Definition TRAPFRAME : Z := TRAMPOLINE - PGSIZE.

(** The page size and the physical and virtual bounds as literals, for [lia]. *)
Lemma PGSIZE_val : PGSIZE = 4096. Proof. done. Qed.
Lemma MAXVA_val : MAXVA = 2 ^ 38. Proof. done. Qed.
Lemma KERNBASE_val : KERNBASE = 2147483648. Proof. done. Qed.
Lemma PHYSTOP_val : PHYSTOP = 2281701376. Proof. done. Qed.
Lemma TRAMPOLINE_val : TRAMPOLINE = 2 ^ 38 - 4096. Proof. done. Qed.
Lemma TRAPFRAME_val : TRAPFRAME = 2 ^ 38 - 8192. Proof. done. Qed.

Ltac mach_unfold :=
  rewrite ?PGSIZE_val, ?MAXVA_val, ?KERNBASE_val, ?PHYSTOP_val,
    ?TRAMPOLINE_val, ?TRAPFRAME_val in *.

(** Linear arithmetic with the constants above, divisions included. *)
Ltac mlia := mach_unfold; Z.to_euclidean_division_equations; lia.

(** ** Rounding *)

Lemma land_page_mask a :
  0 ≤ a < 2 ^ 64 → Z.land a (u64 (Z.lnot (PGSIZE - 1))) = PGSIZE * (a / PGSIZE).
Proof.
  intros Ha. change (u64 (Z.lnot (PGSIZE - 1))) with (Z.shiftl (Z.ones 52) 12).
  change PGSIZE with (2 ^ 12). rewrite Z.mul_comm, <- Z.shiftr_div_pow2,
    <- Z.shiftl_mul_pow2 by lia.
  apply Z.bits_inj'. intros n Hn.
  rewrite Z.land_spec, !Z.shiftl_spec by lia.
  destruct (decide (n < 12)).
  - rewrite (Z.testbit_neg_r (Z.ones 52)), (Z.testbit_neg_r (Z.shiftr a 12)) by lia.
    apply andb_false_r.
  - rewrite Z.shiftr_spec by lia. replace (n - 12 + 12) with n by lia.
    destruct (decide (n < 64)).
    + rewrite Z.ones_spec_low by lia. apply andb_true_r.
    + replace (Z.testbit a n) with false; [done|].
      symmetry. destruct (decide (a = 0)) as [->|]; [apply Z.bits_0|].
      apply Z.bits_above_log2; [lia|].
      apply Z.log2_lt_pow2; [lia|]. apply Z.lt_le_trans with (2 ^ 64); [lia|].
      apply Z.pow_le_mono_r; lia.
Qed.

Lemma PGROUNDDOWN_eq a :
  0 ≤ a < 2 ^ 64 → PGROUNDDOWN a = PGSIZE * (a / PGSIZE).
Proof. apply land_page_mask. Qed.

Lemma PGROUNDUP_eq sz :
  0 ≤ sz ≤ 2 ^ 64 - PGSIZE →
  PGROUNDUP sz = PGSIZE * ((sz + (PGSIZE - 1)) / PGSIZE).
Proof.
  intros H. unfold PGROUNDUP.
  replace (u64 (sz + PGSIZE - 1)) with (sz + (PGSIZE - 1)).
  - apply land_page_mask. mlia.
  - unfold u64. rewrite Z.mod_small; mlia.
Qed.

(** ** Page-table entries *)

Lemma PA2PTE_eq pa : 0 ≤ pa < 2 ^ 56 → PA2PTE pa = Z.shiftl (pa / PGSIZE) 10.
Proof.
  intros H. unfold PA2PTE, u64. rewrite Z.shiftr_div_pow2, Z.mod_small; [done| |lia].
  rewrite Z.shiftl_mul_pow2 by lia.
  change (2 ^ 12) with 4096. change (2 ^ 10) with 1024. mlia.
Qed.

Lemma shiftr_flags f : 0 ≤ f < 2 ^ 10 → Z.shiftr f 10 = 0.
Proof. intros H. rewrite Z.shiftr_div_pow2 by lia. apply Z.div_small. lia. Qed.

Lemma PTE2PA_mk pa f :
  0 ≤ pa < 2 ^ 56 → pa `mod` PGSIZE = 0 → 0 ≤ f < 2 ^ 10 →
  PTE2PA (Z.lor (PA2PTE pa) f) = pa.
Proof.
  intros Hpa Hal Hf. unfold PTE2PA. rewrite PA2PTE_eq by done.
  rewrite Z.shiftr_lor, (shiftr_flags f), Z.lor_0_r by done.
  rewrite Z.shiftr_shiftl_l, Z.shiftl_0_r by lia.
  rewrite Z.shiftl_mul_pow2 by lia. change (2 ^ 12) with PGSIZE.
  replace (pa / PGSIZE * PGSIZE) with pa by mlia.
  unfold u64. apply Z.mod_small. lia.
Qed.

Lemma PTE_FLAGS_mk pa f :
  0 ≤ pa < 2 ^ 56 → 0 ≤ f < 2 ^ 10 → PTE_FLAGS (Z.lor (PA2PTE pa) f) = f.
Proof.
  intros Hpa Hf. unfold PTE_FLAGS. change 0x3FF with (Z.ones 10).
  rewrite PA2PTE_eq by done.
  rewrite Z.land_lor_distr_l, !Z.land_ones, (Z.mod_small f) by lia.
  rewrite Z.shiftl_mul_pow2, Z.mod_mul by lia. apply Z.lor_0_l.
Qed.

(** A single-bit test only sees the flags of an entry. *)
Lemma land_FLAGS pte f :
  Z.land f 0x3FF = f → Z.land pte f = Z.land (PTE_FLAGS pte) f.
Proof.
  intros H. unfold PTE_FLAGS. rewrite <- Z.land_assoc. f_equal.
  by rewrite Z.land_comm.
Qed.

Lemma PA2PTE_range pa : 0 ≤ PA2PTE pa < 2 ^ 64.
Proof. apply Z.mod_pos_bound. lia. Qed.

Lemma lor_range a b n : 0 ≤ n → 0 ≤ a < 2 ^ n → 0 ≤ b < 2 ^ n → 0 ≤ Z.lor a b < 2 ^ n.
Proof.
  intros Hn Ha Hb. split; [apply Z.lor_nonneg; lia|].
  destruct (decide (Z.lor a b = 0)) as [->|Hne]; [lia|].
  apply Z.log2_lt_pow2; [pose proof (proj2 (Z.lor_nonneg a b)); lia|].
  rewrite Z.log2_lor by lia.
  destruct (decide (n = 0)) as [->|].
  - exfalso. apply Hne. replace a with 0 by lia. by replace b with 0 by lia.
  - apply Z.max_lub_lt.
    + destruct (decide (a = 0)) as [->|]; [simpl; lia|]. apply Z.log2_lt_pow2; lia.
    + destruct (decide (b = 0)) as [->|]; [simpl; lia|]. apply Z.log2_lt_pow2; lia.
Qed.

(** ** Page-table indices *)

Lemma PX_eq level va : 0 ≤ level → PX level va = (va / 2 ^ PXSHIFT level) `mod` 512.
Proof.
  intros H. unfold PX. change PXMASK with (Z.ones 9).
  rewrite Z.land_ones, Z.shiftr_div_pow2; [done| |lia]. unfold PXSHIFT, PGSHIFT. lia.
Qed.

Lemma PX_range level va : 0 ≤ PX level va < 512.
Proof.
  unfold PX. change PXMASK with (Z.ones 9). rewrite Z.land_ones by lia.
  apply Z.mod_pos_bound. lia.
Qed.

(** The three indices of a virtual address determine its page number. *)
Lemma PX_vpn va :
  0 ≤ va < MAXVA →
  va / PGSIZE = PX 2 va * 2 ^ 18 + PX 1 va * 2 ^ 9 + PX 0 va.
Proof.
  intros H. rewrite !PX_eq by lia. unfold PXSHIFT, PGSHIFT.
  change (2 ^ (12 + 9 * 2)) with 1073741824. change (2 ^ (12 + 9 * 1)) with 2097152.
  change (2 ^ (12 + 9 * 0)) with 4096. change (2 ^ 18) with 262144. change (2 ^ 9) with 512.
  mlia.
Qed.

Lemma PX_inj va1 va2 :
  0 ≤ va1 < MAXVA → 0 ≤ va2 < MAXVA →
  PX 2 va1 = PX 2 va2 → PX 1 va1 = PX 1 va2 → PX 0 va1 = PX 0 va2 →
  va1 / PGSIZE = va2 / PGSIZE.
Proof. intros H1 H2 E2 E1 E0. rewrite !PX_vpn by done. congruence. Qed.

Lemma PX_page level va1 va2 :
  0 ≤ level → va1 / PGSIZE = va2 / PGSIZE → PX level va1 = PX level va2.
Proof.
  intros Hl H. rewrite !PX_eq by done. unfold PXSHIFT, PGSHIFT.
  rewrite !Z.pow_add_r by lia. rewrite <- !Z.div_div by lia.
  change (2 ^ 12) with PGSIZE. by rewrite H.
Qed.

(** ** Addresses fixed by the linker script

    kernel/kernel.ld gives the end of the kernel image, the end of its text, the
    address of the trampoline page and those of the code the kernel takes the
    address of. *)
Class KernelLayout : Type := {
  kend : Z;
  etext : Z;
  trampoline : Z;
  forkret_addr : Z;
  usertrap_addr : Z;
  kernelvec_addr : Z;
  uservec_addr : Z;
  userret_addr : Z
}.

Class LayoutOk `{KernelLayout} : Prop := {
  etext_range : KERNBASE < etext ≤ kend;
  etext_aligned : etext `mod` PGSIZE = 0;
  kend_range : kend ≤ PHYSTOP;
  trampoline_range : KERNBASE ≤ trampoline < etext;
  trampoline_aligned : trampoline `mod` PGSIZE = 0
}.
