(* ===== verification/Memory.v ===== *)
(** * Byte-addressed memory

    The memory the kernel's pointers refer to: a finite map from addresses to
    bytes, with the loads and stores of bytes and of little-endian words that
    the C code performs through [char *], [uint *] and [uint64 *] pointers. *)

From S2P Require Import Prelude Machine.

Abbreviation mem := (gmap Z Z).

Definition ld (m : mem) (a : Z) : Z := u8 (default 0 (m !! a)).
Definition st (m : mem) (a v : Z) : mem := <[a := u8 v]> m.

(** Little-endian words of [n] bytes. *)
Fixpoint ldn (n : nat) (m : mem) (a : Z) : Z :=
  match n with
  | O => 0
  | S n' => ld m a + 256 * ldn n' m (a + 1)
  end.

Fixpoint stn (n : nat) (m : mem) (a v : Z) : mem :=
  match n with
  | O => m
  | S n' => stn n' (st m a v) (a + 1) (v / 256)
  end.

Definition ld32 : mem → Z → Z := ldn 4.
Definition st32 : mem → Z → Z → mem := stn 4.
Definition ld64 : mem → Z → Z := ldn 8.
Definition st64 : mem → Z → Z → mem := stn 8.

(** The bytes of an area, as a list. *)
Definition ldbytes (m : mem) (a : Z) (n : nat) : list Z :=
  (λ i : nat, ld m (a + Z.of_nat i)) <$> seq 0 n.

(** The bytes of a kernel buffer, written one after the other from [a]. *)
Fixpoint stbytes (m : mem) (a : Z) (l : list Z) : mem :=
  match l with
  | [] => m
  | b :: l' => stbytes (st m a b) (a + 1) l'
  end.

(** The characters of a string literal. *)
Fixpoint bytes_of (s : string) : list Z :=
  match s with
  | EmptyString => []
  | String a s' => Z.of_N (Ascii.N_of_ascii a) :: bytes_of s'
  end.

(** ** Bytes *)

Lemma u8_range x : 0 ≤ u8 x < 256.
Proof. apply Z.mod_pos_bound. lia. Qed.

Lemma u8_u8 x : u8 (u8 x) = u8 x.
Proof. apply u8_small, u8_range. Qed.

Lemma ld_range m a : 0 ≤ ld m a < 256.
Proof. apply u8_range. Qed.

Lemma ld_st m a v x : ld (st m a v) x = if decide (a = x) then u8 v else ld m x.
Proof.
  unfold ld, st. rewrite lookup_insert. case_decide; [apply u8_u8|done].
Qed.

Lemma ld_st_eq m a v : ld (st m a v) a = u8 v.
Proof. rewrite ld_st. by case_decide. Qed.

Lemma ld_st_ne m a v x : a ≠ x → ld (st m a v) x = ld m x.
Proof. intros H. rewrite ld_st. by case_decide. Qed.

Lemma u8_ld m a : u8 (ld m a) = ld m a.
Proof. apply u8_small, ld_range. Qed.

Lemma ld_empty a : ld ∅ a = 0.
Proof. unfold ld. by rewrite lookup_empty. Qed.

(** ** Words *)

Lemma ldn_range n m a : 0 ≤ ldn n m a < 256 ^ Z.of_nat n.
Proof.
  revert a. induction n as [|n IH]; intros a; [simpl; lia|].
  rewrite Nat2Z.inj_succ, Z.pow_succ_r by lia. cbn [ldn].
  pose proof (ld_range m a). pose proof (IH (a + 1)). nia.
Qed.

Lemma ldn_ext n m m' a :
  (∀ x, a ≤ x < a + Z.of_nat n → ld m' x = ld m x) → ldn n m' a = ldn n m a.
Proof.
  revert a. induction n as [|n IH]; intros a H; [done|]. cbn [ldn].
  rewrite H, IH by (intros; try apply H; lia). done.
Qed.

Lemma ld_stn_ne n m a v x :
  x < a ∨ a + Z.of_nat n ≤ x → ld (stn n m a v) x = ld m x.
Proof.
  revert m a v. induction n as [|n IH]; intros m a v H; [done|]. cbn [stn].
  rewrite IH by lia. apply ld_st_ne. lia.
Qed.

Lemma ldn_stn n m a v : ldn n (stn n m a v) a = v `mod` 256 ^ Z.of_nat n.
Proof.
  revert m a v. induction n as [|n IH]; intros m a v.
  - simpl. by rewrite Z.mod_1_r.
  - rewrite Nat2Z.inj_succ, Z.pow_succ_r by lia. cbn [ldn stn].
    rewrite ld_stn_ne by lia. rewrite ld_st_eq, IH.
    unfold u8. change (2 ^ 8) with 256. rewrite Z.rem_mul_r by lia. done.
Qed.

Lemma ldn_stn_ne n k m a v x :
  x + Z.of_nat n ≤ a ∨ a + Z.of_nat k ≤ x → ldn n (stn k m a v) x = ldn n m x.
Proof. intros H. apply ldn_ext. intros y Hy. apply ld_stn_ne. lia. Qed.

Lemma ldn_zero n m a :
  (∀ x, a ≤ x < a + Z.of_nat n → ld m x = 0) → ldn n m a = 0.
Proof.
  revert a. induction n as [|n IH]; intros a H; [done|]. cbn [ldn].
  rewrite H, IH by (intros; try apply H; lia). done.
Qed.

Lemma ld64_range m a : 0 ≤ ld64 m a < 2 ^ 64.
Proof. apply (ldn_range 8). Qed.

Lemma ld64_st64 m a v : ld64 (st64 m a v) a = u64 v.
Proof. apply (ldn_stn 8). Qed.

Lemma ld64_st64_small m a v : 0 ≤ v < 2 ^ 64 → ld64 (st64 m a v) a = v.
Proof. intros H. rewrite ld64_st64. by apply Z.mod_small. Qed.

Lemma ld64_st64_ne m a v x :
  x + 8 ≤ a ∨ a + 8 ≤ x → ld64 (st64 m a v) x = ld64 m x.
Proof. apply (ldn_stn_ne 8 8). Qed.

Lemma ld_st64_ne m a v x : x < a ∨ a + 8 ≤ x → ld (st64 m a v) x = ld m x.
Proof. apply (ld_stn_ne 8). Qed.

Lemma ld64_ext m m' a :
  (∀ x, a ≤ x < a + 8 → ld m' x = ld m x) → ld64 m' a = ld64 m a.
Proof. apply (ldn_ext 8). Qed.

Lemma ld64_zero m a : (∀ x, a ≤ x < a + 8 → ld m x = 0) → ld64 m a = 0.
Proof. apply (ldn_zero 8). Qed.

Lemma ld64_empty a : ld64 ∅ a = 0.
Proof. apply ld64_zero. intros. apply ld_empty. Qed.

(** ** Areas *)

Lemma length_ldbytes m a n : length (ldbytes m a n) = n.
Proof. unfold ldbytes. by rewrite length_fmap, length_seq. Qed.

Lemma lookup_ldbytes m a n i :
  (i < n)%nat → ldbytes m a n !! i = Some (ld m (a + Z.of_nat i)).
Proof.
  intros H. unfold ldbytes. rewrite list_lookup_fmap, lookup_seq_lt by done.
  done.
Qed.

Lemma ldbytes_S m a n : ldbytes m a (S n) = ld m a :: ldbytes m (a + 1) n.
Proof.
  unfold ldbytes. cbn [seq fmap list_fmap]. f_equal; [by rewrite Z.add_0_r|].
  rewrite <- fmap_S_seq, <- list_fmap_compose. apply list_fmap_ext.
  intros i x _. cbn. f_equal. lia.
Qed.

Lemma ldbytes_ext m m' a a' n :
  (∀ i, 0 ≤ i < Z.of_nat n → ld m' (a' + i) = ld m (a + i)) →
  ldbytes m' a' n = ldbytes m a n.
Proof.
  intros H. unfold ldbytes. apply list_fmap_ext. intros k x Hk.
  apply lookup_seq in Hk. apply H. lia.
Qed.

Global Opaque ld st.
Global Opaque ld64 st64 ld32 st32.
