(* ===== verification/Kstring.v ===== *)
(** * kernel/string.c

    The memory and string routines of the kernel, on byte memory.  [char] is
    unsigned on RISC-V, so a [char] and a [uchar] read the same byte. *)

From S2P Require Import Prelude Machine Memory.

(** [for(i = 0; i < n; i++) cdst[i] = c;] with [k] iterations left. *)
Fixpoint memset_loop (k : nat) (m : mem) (cdst c i : Z) : mem :=
  match k with
  | O => m
  | S k' => memset_loop k' (st m (cdst + i) c) cdst c (i + 1)
  end.

Definition memset (m : mem) (dst c n : Z) : mem :=
  memset_loop (Z.to_nat n) m dst c 0.

(** [while(n-- > 0){ if( *s1 != *s2) return *s1 - *s2; s1++, s2++; }] *)
Fixpoint memcmp_loop (n : nat) (m : mem) (s1 s2 : Z) : Z :=
  match n with
  | O => 0
  | S n' =>
      if negb (ld m s1 =? ld m s2) then ld m s1 - ld m s2
      else memcmp_loop n' m (s1 + 1) (s2 + 1)
  end.

Definition memcmp (m : mem) (v1 v2 n : Z) : Z := memcmp_loop (Z.to_nat n) m v1 v2.

(** [while(n-- > 0) *d++ = *s++;] *)
Fixpoint copy_forward (n : nat) (m : mem) (d s : Z) : mem :=
  match n with
  | O => m
  | S n' => copy_forward n' (st m d (ld m s)) (d + 1) (s + 1)
  end.

(** [while(n-- > 0) *--d = *--s;] *)
Fixpoint copy_backward (n : nat) (m : mem) (d s : Z) : mem :=
  match n with
  | O => m
  | S n' => copy_backward n' (st m (d - 1) (ld m (s - 1))) (d - 1) (s - 1)
  end.

Definition memmove (m : mem) (dst src n : Z) : mem :=
  if n =? 0 then m
  else if (src <? dst) && (src + n >? dst)
  then copy_backward (Z.to_nat n) m (dst + n) (src + n)
  else copy_forward (Z.to_nat n) m dst src.

Definition memcpy (m : mem) (dst src n : Z) : mem := memmove m dst src n.

(** [while(n > 0 && *p && *p == *q) n--, p++, q++;] and what follows it. *)
Fixpoint strncmp_loop (n : nat) (m : mem) (p q : Z) : Z :=
  match n with
  | O => 0
  | S n' =>
      if negb (ld m p =? 0) && (ld m p =? ld m q)
      then strncmp_loop n' m (p + 1) (q + 1)
      else ld m p - ld m q
  end.

Definition strncmp (m : mem) (p q n : Z) : Z := strncmp_loop (Z.to_nat n) m p q.

(** [while(n-- > 0) *s++ = 0;] *)
Fixpoint strncpy_pad (n : nat) (m : mem) (s : Z) : mem :=
  match n with
  | O => m
  | S n' => strncpy_pad n' (st m s 0) (s + 1)
  end.

(** [while(n-- > 0 && ( *s++ = *t++ ) != 0);] followed by the padding loop. *)
Fixpoint strncpy_loop (n : nat) (m : mem) (s t : Z) : mem :=
  match n with
  | O => m
  | S n' =>
      let c := ld m t in
      let m' := st m s c in
      if c =? 0 then strncpy_pad n' m' (s + 1)
      else strncpy_loop n' m' (s + 1) (t + 1)
  end.

Definition strncpy (m : mem) (s t n : Z) : mem := strncpy_loop (Z.to_nat n) m s t.

(** [while(--n > 0 && ( *s++ = *t++ ) != 0); *s = 0;] where [k] is [n - 1]. *)
Fixpoint safestrcpy_loop (k : nat) (m : mem) (s t : Z) : mem :=
  match k with
  | O => st m s 0
  | S k' =>
      let c := ld m t in
      let m' := st m s c in
      if c =? 0 then st m' (s + 1) 0
      else safestrcpy_loop k' m' (s + 1) (t + 1)
  end.

Definition safestrcpy (m : mem) (s t n : Z) : mem :=
  if n <=? 0 then m else safestrcpy_loop (Z.to_nat (n - 1)) m s t.

(** [for(n = 0; s[n]; n++);]: it does not return when no NUL follows [s]. *)
Definition strlen {S : Type} (m : mem) (s : Z) : M S Z :=
  loop (λ n, ret (if ld m (s + n) =? 0 then inr n else inl (n + 1))) 0.

(** ** The routines on arrays outside physical memory

    The kernel also calls them on arrays of its own data (a process name, a
    directory entry).  Such an array is the list of its bytes; the routine runs
    on a memory that holds the two arrays apart from each other. *)

Definition BUF2 : Z := 2 ^ 20.

Definition two_bufs (a b : list Z) : mem := stbytes (stbytes ∅ 0 a) BUF2 b.

Definition bytes_strncmp (p q : list Z) (n : Z) : Z := strncmp (two_bufs p q) 0 BUF2 n.

Definition bytes_strncpy (s t : list Z) (n : Z) : list Z :=
  ldbytes (strncpy (two_bufs s t) 0 BUF2 n) 0 (length s).

Definition bytes_safestrcpy (s t : list Z) (n : Z) : list Z :=
  ldbytes (safestrcpy (two_bufs s t) 0 BUF2 n) 0 (length s).

(** The string in an array: its characters up to a NUL, if there is one. *)
Fixpoint until_nul (l : list Z) : list Z :=
  match l with
  | [] => []
  | c :: l' => if c =? 0 then [] else c :: until_nul l'
  end.

Lemma until_nul_id s : 0 ∉ s → until_nul s = s.
Proof.
  induction s as [|c s IH]; intros Hz; [done|]. apply not_elem_of_cons in Hz as [Hc Hz]. cbn.
  rewrite (proj2 (Z.eqb_neq c 0)) by congruence. by rewrite IH.
Qed.

(** ** memset *)

Lemma ld_memset_loop k m d c i x :
  ld (memset_loop k m d c i) x =
    if decide (d + i ≤ x < d + i + Z.of_nat k) then u8 c else ld m x.
Proof.
  revert m i. induction k as [|k IH]; intros m i; cbn [memset_loop].
  - case_decide; [lia|done].
  - rewrite IH, ld_st. repeat case_decide; try lia; done.
Qed.

Lemma ld_memset m d c n x :
  ld (memset m d c n) x = if decide (d ≤ x < d + n) then u8 c else ld m x.
Proof.
  unfold memset. rewrite ld_memset_loop.
  repeat case_decide; try lia; done.
Qed.

(** ** memmove: a simultaneous copy, whatever the overlap *)

Lemma ld_copy_forward n m d s x :
  ¬ (s < d < s + Z.of_nat n) →
  ld (copy_forward n m d s) x =
    if decide (d ≤ x < d + Z.of_nat n) then ld m (s + (x - d)) else ld m x.
Proof.
  revert m d s. induction n as [|n IH]; intros m d s H; cbn [copy_forward].
  - case_decide; [lia|done].
  - rewrite IH by lia. rewrite !ld_st, u8_ld.
    repeat case_decide; try lia; try done; f_equal; lia.
Qed.

Lemma ld_copy_backward n m d s x :
  ¬ (d < s < d + Z.of_nat n) →
  ld (copy_backward n m (d + Z.of_nat n) (s + Z.of_nat n)) x =
    if decide (d ≤ x < d + Z.of_nat n) then ld m (s + (x - d)) else ld m x.
Proof.
  revert m. induction n as [|n IH]; intros m H; cbn [copy_backward].
  - case_decide; [lia|done].
  - replace (d + Z.of_nat (S n) - 1) with (d + Z.of_nat n) by lia.
    replace (s + Z.of_nat (S n) - 1) with (s + Z.of_nat n) by lia.
    rewrite IH by lia. rewrite !ld_st, u8_ld.
    repeat case_decide; try lia; try done; f_equal; lia.
Qed.

Lemma ld_memmove m d s n x :
  ld (memmove m d s n) x =
    if decide (d ≤ x < d + n) then ld m (s + (x - d)) else ld m x.
Proof.
  unfold memmove. destruct (Z.eqb_spec n 0) as [->|Hn].
  { case_decide; [lia|done]. }
  destruct (decide (n < 0)).
  { rewrite Z2Nat.nonpos by lia. case_decide; [lia|]. by destruct (_ && _). }
  destruct ((s <? d) && (s + n >? d)) eqn:E.
  - apply andb_true_iff in E as [E1%Z.ltb_lt E2%Z.gtb_lt].
    replace (d + n) with (d + Z.of_nat (Z.to_nat n)) by lia.
    replace (s + n) with (s + Z.of_nat (Z.to_nat n)) by lia.
    apply ld_copy_backward. lia.
  - apply andb_false_iff in E.
    rewrite ld_copy_forward.
    + by rewrite Z2Nat.id by lia.
    + destruct E as [E%Z.ltb_ge|E]; [lia|]. rewrite Z.gtb_ltb, Z.ltb_ge in E. lia.
Qed.

Lemma ldbytes_memmove m d s n :
  ldbytes (memmove m d s (Z.of_nat n)) d n = ldbytes m s n.
Proof.
  apply ldbytes_ext. intros i Hi. rewrite ld_memmove.
  case_decide; [f_equal|]; lia.
Qed.

(** ** Strings

    [cprefix n m p] is the string a bounded reader sees at [p]: the bytes up to
    the first NUL, at most [n] of them. *)

Fixpoint cprefix (n : nat) (m : mem) (p : Z) : list Z :=
  match n with
  | O => []
  | S n' => if ld m p =? 0 then [] else ld m p :: cprefix n' m (p + 1)
  end.

(** [l] is stored at [a] as a NUL-terminated string. *)
Definition cstr (m : mem) (a : Z) (l : list Z) : Prop :=
  (∀ (i : nat) c, l !! i = Some c → ld m (a + Z.of_nat i) = c ∧ c ≠ 0) ∧
  ld m (a + Z.of_nat (length l)) = 0.

Lemma length_cprefix n m p : (length (cprefix n m p) ≤ n)%nat.
Proof.
  revert p. induction n as [|n IH]; intros p; simpl; [lia|].
  destruct (_ =? _); simpl; [lia|]. specialize (IH (p + 1)). lia.
Qed.

Lemma lookup_cprefix n m p i c :
  cprefix n m p !! i = Some c → ld m (p + Z.of_nat i) = c ∧ c ≠ 0.
Proof.
  revert p i. induction n as [|n IH]; intros p i H; [done|].
  cbn [cprefix] in H. destruct (Z.eqb_spec (ld m p) 0); [done|].
  destruct i as [|i].
  - simplify_eq/=. by rewrite Z.add_0_r.
  - apply IH in H as [H1 H2]. split; [|done]. rewrite <- H1. f_equal. lia.
Qed.

Lemma cprefix_end n m p :
  (length (cprefix n m p) < n)%nat →
  ld m (p + Z.of_nat (length (cprefix n m p))) = 0.
Proof.
  revert p. induction n as [|n IH]; intros p H; [simpl in H; lia|].
  cbn [cprefix] in *. destruct (Z.eqb_spec (ld m p) 0) as [E|E].
  - simpl. by rewrite Z.add_0_r.
  - simpl in *. rewrite <- (IH (p + 1)) by lia. f_equal. lia.
Qed.

Lemma cprefix_ext n m m' p :
  (∀ x, p ≤ x < p + Z.of_nat n → ld m' x = ld m x) →
  cprefix n m' p = cprefix n m p.
Proof.
  revert p. induction n as [|n IH]; intros p H; [done|]. cbn [cprefix].
  rewrite H by lia. rewrite IH by (intros; apply H; lia). done.
Qed.

Lemma memcmp_loop_zero n m a b :
  memcmp_loop n m a b = 0 ↔ ∀ i, 0 ≤ i < Z.of_nat n → ld m (a + i) = ld m (b + i).
Proof.
  revert a b. induction n as [|n IH]; intros a b; cbn [memcmp_loop].
  { split; [lia|done]. }
  destruct (Z.eqb_spec (ld m a) (ld m b)) as [E|E]; simpl.
  - rewrite IH. split; intros H i Hi.
    + destruct (decide (i = 0)) as [->|]; [by rewrite !Z.add_0_r|].
      specialize (H (i - 1)). rewrite <- !Z.add_assoc in H.
      replace (1 + (i - 1)) with i in H by lia. apply H. lia.
    + rewrite <- !Z.add_assoc. apply H. lia.
  - split; [lia|]. intros H. specialize (H 0). rewrite !Z.add_0_r in H. lia.
Qed.

Lemma strncmp_loop_zero n m p q :
  strncmp_loop n m p q = 0 ↔ cprefix n m p = cprefix n m q.
Proof.
  revert p q. induction n as [|n IH]; intros p q; [done|].
  cbn [strncmp_loop cprefix].
  destruct (Z.eqb_spec (ld m p) 0) as [Ep|Ep]; simpl.
  - destruct (Z.eqb_spec (ld m q) 0); split; intros; try done; lia.
  - destruct (Z.eqb_spec (ld m p) (ld m q)) as [E|E].
    + rewrite IH, E. destruct (Z.eqb_spec (ld m q) 0); [lia|].
      split; [by intros ->|]. by intros [= ->].
    + split; [lia|]. intros H. destruct (ld m q =? 0); [done|]. by injection H.
Qed.

Lemma ld_strncpy_pad n m s x :
  ld (strncpy_pad n m s) x =
    if decide (s ≤ x < s + Z.of_nat n) then 0 else ld m x.
Proof.
  revert m s. induction n as [|n IH]; intros m s; cbn [strncpy_pad].
  - case_decide; [lia|done].
  - rewrite IH, ld_st. repeat case_decide; try lia; done.
Qed.

Lemma ld_strncpy_loop n m s t x :
  (t + Z.of_nat n ≤ s ∨ s + Z.of_nat n ≤ t) →
  ld (strncpy_loop n m s t) x =
    if decide (s ≤ x < s + Z.of_nat n)
    then nth (Z.to_nat (x - s)) (cprefix n m t) 0 else ld m x.
Proof.
  revert m s t. induction n as [|n IH]; intros m s t H; cbn [strncpy_loop cprefix].
  { case_decide; [lia|done]. }
  destruct (Z.eqb_spec (ld m t) 0) as [E|E].
  - rewrite ld_strncpy_pad, ld_st. rewrite E.
    repeat case_decide; try lia; try done; by destruct (Z.to_nat (x - s)).
  - rewrite IH by lia. rewrite ld_st, u8_ld.
    rewrite (cprefix_ext n m) by (intros; apply ld_st_ne; lia).
    destruct (decide (s = x)) as [<-|].
    + repeat case_decide; try lia. by replace (Z.to_nat (s - s)) with O by lia.
    + repeat case_decide; try lia; try done.
      by replace (Z.to_nat (x - s)) with (S (Z.to_nat (x - (s + 1)))) by lia.
Qed.

Lemma safestrcpy_loop_frame k m s t x :
  x < s ∨ s + Z.of_nat k < x → ld (safestrcpy_loop k m s t) x = ld m x.
Proof.
  revert m s t. induction k as [|k IH]; intros m s t H; cbn [safestrcpy_loop].
  - apply ld_st_ne. lia.
  - destruct (_ =? _); rewrite ?IH by lia; rewrite !ld_st_ne by lia; done.
Qed.

Lemma safestrcpy_loop_cstr k m s t :
  (t + Z.of_nat k < s ∨ s + Z.of_nat k < t) →
  cstr (safestrcpy_loop k m s t) s (cprefix k m t).
Proof.
  revert m s t. induction k as [|k IH]; intros m s t H; cbn [safestrcpy_loop cprefix].
  { split; [done|]. by rewrite Z.add_0_r, ld_st_eq. }
  destruct (Z.eqb_spec (ld m t) 0) as [E|E].
  - split; [done|]. rewrite Z.add_0_r, ld_st_ne, ld_st_eq, u8_ld by lia. done.
  - destruct (IH (st m s (ld m t)) (s + 1) (t + 1)) as [I1 I2]; [lia|].
    rewrite (cprefix_ext k m) in I1, I2 by (intros; apply ld_st_ne; lia).
    split.
    + intros [|i] c Hc.
      * simplify_eq/=. rewrite Z.add_0_r, safestrcpy_loop_frame by lia.
        by rewrite ld_st_eq, u8_ld.
      * apply I1 in Hc. by replace (s + Z.of_nat (S i)) with (s + 1 + Z.of_nat i) by lia.
    + rewrite <- I2. f_equal. simpl. lia.
Qed.

Lemma strlen_run {S} m a l (s : S) (i : nat) :
  cstr m a l → (i ≤ length l)%nat →
  run_n (Datatypes.S (length l - i))
    (λ n, ret (if ld m (a + n) =? 0 then inr n else inl (n + 1)))
    (Z.of_nat i) s = Ret (inr (Z.of_nat (length l))) s.
Proof.
  intros [H1 H2] Hi. remember (length l - i)%nat as k eqn:Hk. revert i Hi Hk.
  induction k as [|k IH]; intros i Hi Hk.
  - assert (i = length l) as -> by lia. cbn. by rewrite H2.
  - destruct (lookup_lt_is_Some_2 l i) as [c Hc]; [lia|].
    destruct (H1 _ _ Hc) as [Hld Hne].
    cbn [run_n]. unfold bind at 1. cbn. rewrite Hld.
    destruct (Z.eqb_spec c 0); [done|].
    replace (Z.of_nat i + 1) with (Z.of_nat (Datatypes.S i)) by lia.
    apply IH; lia.
Qed.

Global Opaque memset memmove.
