(* ===== verification/State.v ===== *)
(** * The kernel's data

    The structures of kernel/proc.h, kernel/file.h, kernel/buf.h,
    kernel/spinlock.h, kernel/sleeplock.h, kernel/fs.h, kernel/pipe.c,
    kernel/log.c, kernel/console.c and kernel/uart.c, and the record of the kernel's global variables.  A pointer to an element of a
    global array ([proc], [ftable.file], [bcache.buf], [itable.inode]) is the
    element's index; a pointer to a page is its address. *)

From S2P Require Import Prelude Machine Memory.

(** [enum procstate] of kernel/proc.h. *)
Inductive procstate : Type := UNUSED | USED | SLEEPING | RUNNABLE | RUNNING | ZOMBIE.

#[export] Instance procstate_eq_dec : EqDecision procstate.
Proof. solve_decision. Defined.

(** The type tag of [struct file] (kernel/file.h). *)
Inductive fdtype : Type := FD_NONE | FD_PIPE | FD_INODE | FD_DEVICE.

#[export] Instance fdtype_eq_dec : EqDecision fdtype.
Proof. solve_decision. Defined.

(** The sleep-locks: one in each buffer and each in-memory inode. *)
Inductive slid : Type := SlBuf (i : nat) | SlInode (i : nat).

#[export] Instance slid_eq_dec : EqDecision slid.
Proof. solve_decision. Defined.

(** The addresses processes sleep on. *)
Inductive chan : Type :=
| ChProc (i : nat)          (* a struct proc, in wait() *)
| ChLog                     (* &log *)
| ChSleep (k : slid)        (* a struct sleeplock *)
| ChBuf (i : nat)           (* &bcache.buf[i] *)
| ChPipeRead (pi : Z)       (* &pi->nread *)
| ChPipeWrite (pi : Z)      (* &pi->nwrite *)
| ChTicks                   (* &ticks *)
| ChCons                    (* &cons.r *)
| ChUart                    (* &uart_tx_r *)
| ChDisk.                   (* &disk.free[0] *)

#[export] Instance chan_eq_dec : EqDecision chan.
Proof. solve_decision. Defined.

(** The spinlocks of the kernel, by what they protect. *)
Inductive lockid : Type :=
| LkKmem | LkPid | LkWait | LkFtable | LkBcache | LkLog | LkTicks | LkCons | LkUart
| LkItable | LkPr | LkVdisk
| LkProc (i : nat)
| LkSleep (k : slid)        (* the spinlock inside a sleep-lock *)
| LkPipe (pi : Z).

#[export] Instance lockid_eq_dec : EqDecision lockid.
Proof. solve_decision. Defined.

Definition lockid_code (l : lockid) : Z * Z :=
  match l with
  | LkKmem => (0, 0) | LkPid => (0, 1) | LkWait => (0, 2) | LkFtable => (0, 3)
  | LkBcache => (0, 4) | LkLog => (0, 5) | LkTicks => (0, 6) | LkCons => (0, 7)
  | LkUart => (0, 8) | LkItable => (0, 9) | LkPr => (0, 10) | LkVdisk => (0, 11)
  | LkProc i => (1, Z.of_nat i) | LkSleep (SlBuf i) => (2, Z.of_nat i)
  | LkPipe pi => (3, pi) | LkSleep (SlInode i) => (4, Z.of_nat i)
  end.

Definition lockid_decode (c : Z * Z) : option lockid :=
  match c with
  | (0, 0) => Some LkKmem | (0, 1) => Some LkPid | (0, 2) => Some LkWait
  | (0, 3) => Some LkFtable | (0, 4) => Some LkBcache | (0, 5) => Some LkLog
  | (0, 6) => Some LkTicks | (0, 7) => Some LkCons | (0, 8) => Some LkUart
  | (0, 9) => Some LkItable | (0, 10) => Some LkPr | (0, 11) => Some LkVdisk
  | (1, i) => Some (LkProc (Z.to_nat i)) | (2, i) => Some (LkSleep (SlBuf (Z.to_nat i)))
  | (3, pi) => Some (LkPipe pi) | (4, i) => Some (LkSleep (SlInode (Z.to_nat i)))
  | _ => None
  end.

#[export] Instance lockid_countable : Countable lockid.
Proof.
  refine (inj_countable lockid_code lockid_decode _).
  intros [| | | | | | | | | | | | |[]|]; simpl; rewrite ?Nat2Z.id; done.
Defined.

(** The functions a device switch entry can hold (kernel/console.c). *)
Inductive devfn : Type := ConsoleDev.

(** What the address of a descriptor points to: the request header
    [disk.ops[i]], the data of a buffer or the status byte [disk.info[i].status]. *)
Inductive daddr : Type := DNull | DOps (i : Z) | DData (b : nat) | DStatus (i : Z).

(** Mutual-exclusion lock (kernel/spinlock.h). *)
Record spinlock : Type := mk_spinlock {
  lk_locked : bool;
  lk_name : string;
  lk_cpu : option nat
}.

Definition set_lk_locked (v : bool) (x : spinlock) : spinlock := mk_spinlock v (lk_name
  x) (lk_cpu x).
Definition set_lk_name (v : string) (x : spinlock) : spinlock := mk_spinlock (lk_locked
  x) v (lk_cpu x).
Definition set_lk_cpu (v : option nat) (x : spinlock) : spinlock := mk_spinlock
  (lk_locked x) (lk_name x) v.

#[export] Instance spinlock_inhabited : Inhabited spinlock := populate (mk_spinlock
  false ""%string None).

(** Per-CPU state (kernel/proc.h), with the interrupt-enable bit of the hart (sstatus.SIE). *)
Record cpu : Type := mk_cpu {
  c_proc : option nat;
  c_noff : Z;
  c_intena : bool;
  c_sie : bool
}.

Definition set_c_proc (v : option nat) (x : cpu) : cpu := mk_cpu v (c_noff x) (c_intena
  x) (c_sie x).
Definition set_c_noff (v : Z) (x : cpu) : cpu := mk_cpu (c_proc x) v (c_intena x) (c_sie
  x).
Definition set_c_intena (v : bool) (x : cpu) : cpu := mk_cpu (c_proc x) (c_noff x) v
  (c_sie x).
Definition set_c_sie (v : bool) (x : cpu) : cpu := mk_cpu (c_proc x) (c_noff x)
  (c_intena x) v.

#[export] Instance cpu_inhabited : Inhabited cpu := populate (mk_cpu None 0 false
  false).

(** Registers saved by [swtch] (kernel/proc.h); [ctx_s] are s0 to s11. *)
Record context : Type := mk_context {
  ctx_ra : Z;
  ctx_sp : Z;
  ctx_s : list Z
}.

Definition set_ctx_ra (v : Z) (x : context) : context := mk_context v (ctx_sp x) (ctx_s
  x).
Definition set_ctx_sp (v : Z) (x : context) : context := mk_context (ctx_ra x) v (ctx_s
  x).
Definition set_ctx_s (v : list Z) (x : context) : context := mk_context (ctx_ra x)
  (ctx_sp x) v.

#[export] Instance context_inhabited : Inhabited context := populate (mk_context 0 0
  []).

(** Long-term lock (kernel/sleeplock.h); the spinlock inside it is named by a [lockid]. *)
Record sleeplock : Type := mk_sleeplock {
  sl_locked : bool;
  sl_name : string;
  sl_pid : Z
}.

Definition set_sl_locked (v : bool) (x : sleeplock) : sleeplock := mk_sleeplock v
  (sl_name x) (sl_pid x).
Definition set_sl_name (v : string) (x : sleeplock) : sleeplock := mk_sleeplock
  (sl_locked x) v (sl_pid x).
Definition set_sl_pid (v : Z) (x : sleeplock) : sleeplock := mk_sleeplock (sl_locked x)
  (sl_name x) v.

#[export] Instance sleeplock_inhabited : Inhabited sleeplock := populate (mk_sleeplock
  false ""%string 0).

(** Per-process state (kernel/proc.h). *)
Record proc : Type := mk_proc {
  p_state : procstate;
  p_chan : option chan;
  p_killed : Z;
  p_xstate : Z;
  p_pid : Z;
  p_parent : option nat;
  p_kstack : Z;
  p_sz : Z;
  p_pagetable : Z;
  p_trapframe : Z;
  p_context : context;
  p_ofile : list (option nat);
  p_cwd : option nat;
  p_name : list Z;
  p_trace_mask : Z
}.

Definition set_p_state (v : procstate) (x : proc) : proc := mk_proc v (p_chan x)
  (p_killed x) (p_xstate x) (p_pid x) (p_parent x) (p_kstack x) (p_sz x) (p_pagetable x)
  (p_trapframe x) (p_context x) (p_ofile x) (p_cwd x) (p_name x) (p_trace_mask x).
Definition set_p_chan (v : option chan) (x : proc) : proc := mk_proc (p_state x) v
  (p_killed x) (p_xstate x) (p_pid x) (p_parent x) (p_kstack x) (p_sz x) (p_pagetable x)
  (p_trapframe x) (p_context x) (p_ofile x) (p_cwd x) (p_name x) (p_trace_mask x).
Definition set_p_killed (v : Z) (x : proc) : proc := mk_proc (p_state x) (p_chan x) v
  (p_xstate x) (p_pid x) (p_parent x) (p_kstack x) (p_sz x) (p_pagetable x) (p_trapframe
  x) (p_context x) (p_ofile x) (p_cwd x) (p_name x) (p_trace_mask x).
Definition set_p_xstate (v : Z) (x : proc) : proc := mk_proc (p_state x) (p_chan x)
  (p_killed x) v (p_pid x) (p_parent x) (p_kstack x) (p_sz x) (p_pagetable x)
  (p_trapframe x) (p_context x) (p_ofile x) (p_cwd x) (p_name x) (p_trace_mask x).
Definition set_p_pid (v : Z) (x : proc) : proc := mk_proc (p_state x) (p_chan x)
  (p_killed x) (p_xstate x) v (p_parent x) (p_kstack x) (p_sz x) (p_pagetable x)
  (p_trapframe x) (p_context x) (p_ofile x) (p_cwd x) (p_name x) (p_trace_mask x).
Definition set_p_parent (v : option nat) (x : proc) : proc := mk_proc (p_state x)
  (p_chan x) (p_killed x) (p_xstate x) (p_pid x) v (p_kstack x) (p_sz x) (p_pagetable x)
  (p_trapframe x) (p_context x) (p_ofile x) (p_cwd x) (p_name x) (p_trace_mask x).
Definition set_p_kstack (v : Z) (x : proc) : proc := mk_proc (p_state x) (p_chan x)
  (p_killed x) (p_xstate x) (p_pid x) (p_parent x) v (p_sz x) (p_pagetable x)
  (p_trapframe x) (p_context x) (p_ofile x) (p_cwd x) (p_name x) (p_trace_mask x).
Definition set_p_sz (v : Z) (x : proc) : proc := mk_proc (p_state x) (p_chan x)
  (p_killed x) (p_xstate x) (p_pid x) (p_parent x) (p_kstack x) v (p_pagetable x)
  (p_trapframe x) (p_context x) (p_ofile x) (p_cwd x) (p_name x) (p_trace_mask x).
Definition set_p_pagetable (v : Z) (x : proc) : proc := mk_proc (p_state x) (p_chan x)
  (p_killed x) (p_xstate x) (p_pid x) (p_parent x) (p_kstack x) (p_sz x) v (p_trapframe
  x) (p_context x) (p_ofile x) (p_cwd x) (p_name x) (p_trace_mask x).
Definition set_p_trapframe (v : Z) (x : proc) : proc := mk_proc (p_state x) (p_chan x)
  (p_killed x) (p_xstate x) (p_pid x) (p_parent x) (p_kstack x) (p_sz x) (p_pagetable x)
  v (p_context x) (p_ofile x) (p_cwd x) (p_name x) (p_trace_mask x).
Definition set_p_context (v : context) (x : proc) : proc := mk_proc (p_state x) (p_chan
  x) (p_killed x) (p_xstate x) (p_pid x) (p_parent x) (p_kstack x) (p_sz x) (p_pagetable
  x) (p_trapframe x) v (p_ofile x) (p_cwd x) (p_name x) (p_trace_mask x).
Definition set_p_ofile (v : list (option nat)) (x : proc) : proc := mk_proc (p_state x)
  (p_chan x) (p_killed x) (p_xstate x) (p_pid x) (p_parent x) (p_kstack x) (p_sz x)
  (p_pagetable x) (p_trapframe x) (p_context x) v (p_cwd x) (p_name x) (p_trace_mask x).
Definition set_p_cwd (v : option nat) (x : proc) : proc := mk_proc (p_state x) (p_chan
  x) (p_killed x) (p_xstate x) (p_pid x) (p_parent x) (p_kstack x) (p_sz x) (p_pagetable
  x) (p_trapframe x) (p_context x) (p_ofile x) v (p_name x) (p_trace_mask x).
Definition set_p_name (v : list Z) (x : proc) : proc := mk_proc (p_state x) (p_chan x)
  (p_killed x) (p_xstate x) (p_pid x) (p_parent x) (p_kstack x) (p_sz x) (p_pagetable x)
  (p_trapframe x) (p_context x) (p_ofile x) (p_cwd x) v (p_trace_mask x).
Definition set_p_trace_mask (v : Z) (x : proc) : proc := mk_proc (p_state x) (p_chan x)
  (p_killed x) (p_xstate x) (p_pid x) (p_parent x) (p_kstack x) (p_sz x) (p_pagetable x)
  (p_trapframe x) (p_context x) (p_ofile x) (p_cwd x) (p_name x) v.

#[export] Instance proc_inhabited : Inhabited proc := populate (mk_proc UNUSED None 0 0
  0 None 0 0 0 0 inhabitant [] None [] 0).

(** Open file (kernel/file.h). *)
Record file : Type := mk_file {
  f_type : fdtype;
  f_ref : Z;
  f_readable : bool;
  f_writable : bool;
  f_pipe : Z;
  f_ip : option nat;
  f_off : Z;
  f_major : Z
}.

Definition set_f_type (v : fdtype) (x : file) : file := mk_file v (f_ref x) (f_readable
  x) (f_writable x) (f_pipe x) (f_ip x) (f_off x) (f_major x).
Definition set_f_ref (v : Z) (x : file) : file := mk_file (f_type x) v (f_readable x)
  (f_writable x) (f_pipe x) (f_ip x) (f_off x) (f_major x).
Definition set_f_readable (v : bool) (x : file) : file := mk_file (f_type x) (f_ref x) v
  (f_writable x) (f_pipe x) (f_ip x) (f_off x) (f_major x).
Definition set_f_writable (v : bool) (x : file) : file := mk_file (f_type x) (f_ref x)
  (f_readable x) v (f_pipe x) (f_ip x) (f_off x) (f_major x).
Definition set_f_pipe (v : Z) (x : file) : file := mk_file (f_type x) (f_ref x)
  (f_readable x) (f_writable x) v (f_ip x) (f_off x) (f_major x).
Definition set_f_ip (v : option nat) (x : file) : file := mk_file (f_type x) (f_ref x)
  (f_readable x) (f_writable x) (f_pipe x) v (f_off x) (f_major x).
Definition set_f_off (v : Z) (x : file) : file := mk_file (f_type x) (f_ref x)
  (f_readable x) (f_writable x) (f_pipe x) (f_ip x) v (f_major x).
Definition set_f_major (v : Z) (x : file) : file := mk_file (f_type x) (f_ref x)
  (f_readable x) (f_writable x) (f_pipe x) (f_ip x) (f_off x) v.

#[export] Instance file_inhabited : Inhabited file := populate (mk_file FD_NONE 0 false
  false 0 None 0 0).

(** Pipe (kernel/pipe.c), kept by the address of its page. *)
Record pipe : Type := mk_pipe {
  pi_data : list Z;
  pi_nread : Z;
  pi_nwrite : Z;
  pi_readopen : bool;
  pi_writeopen : bool
}.

Definition set_pi_data (v : list Z) (x : pipe) : pipe := mk_pipe v (pi_nread x)
  (pi_nwrite x) (pi_readopen x) (pi_writeopen x).
Definition set_pi_nread (v : Z) (x : pipe) : pipe := mk_pipe (pi_data x) v (pi_nwrite x)
  (pi_readopen x) (pi_writeopen x).
Definition set_pi_nwrite (v : Z) (x : pipe) : pipe := mk_pipe (pi_data x) (pi_nread x) v
  (pi_readopen x) (pi_writeopen x).
Definition set_pi_readopen (v : bool) (x : pipe) : pipe := mk_pipe (pi_data x) (pi_nread
  x) (pi_nwrite x) v (pi_writeopen x).
Definition set_pi_writeopen (v : bool) (x : pipe) : pipe := mk_pipe (pi_data x)
  (pi_nread x) (pi_nwrite x) (pi_readopen x) v.

#[export] Instance pipe_inhabited : Inhabited pipe := populate (mk_pipe [] 0 0 false
  false).

(** Disk-block buffer (kernel/buf.h); [b_prev] and [b_next] are slots of [bufs]. *)
Record buf : Type := mk_buf {
  b_valid : bool;
  b_disk : bool;
  b_dev : Z;
  b_blockno : Z;
  b_lock : sleeplock;
  b_refcnt : Z;
  b_prev : nat;
  b_next : nat;
  b_data : list Z
}.

Definition set_b_valid (v : bool) (x : buf) : buf := mk_buf v (b_disk x) (b_dev x)
  (b_blockno x) (b_lock x) (b_refcnt x) (b_prev x) (b_next x) (b_data x).
Definition set_b_disk (v : bool) (x : buf) : buf := mk_buf (b_valid x) v (b_dev x)
  (b_blockno x) (b_lock x) (b_refcnt x) (b_prev x) (b_next x) (b_data x).
Definition set_b_dev (v : Z) (x : buf) : buf := mk_buf (b_valid x) (b_disk x) v
  (b_blockno x) (b_lock x) (b_refcnt x) (b_prev x) (b_next x) (b_data x).
Definition set_b_blockno (v : Z) (x : buf) : buf := mk_buf (b_valid x) (b_disk x) (b_dev
  x) v (b_lock x) (b_refcnt x) (b_prev x) (b_next x) (b_data x).
Definition set_b_lock (v : sleeplock) (x : buf) : buf := mk_buf (b_valid x) (b_disk x)
  (b_dev x) (b_blockno x) v (b_refcnt x) (b_prev x) (b_next x) (b_data x).
Definition set_b_refcnt (v : Z) (x : buf) : buf := mk_buf (b_valid x) (b_disk x) (b_dev
  x) (b_blockno x) (b_lock x) v (b_prev x) (b_next x) (b_data x).
Definition set_b_prev (v : nat) (x : buf) : buf := mk_buf (b_valid x) (b_disk x) (b_dev
  x) (b_blockno x) (b_lock x) (b_refcnt x) v (b_next x) (b_data x).
Definition set_b_next (v : nat) (x : buf) : buf := mk_buf (b_valid x) (b_disk x) (b_dev
  x) (b_blockno x) (b_lock x) (b_refcnt x) (b_prev x) v (b_data x).
Definition set_b_data (v : list Z) (x : buf) : buf := mk_buf (b_valid x) (b_disk x)
  (b_dev x) (b_blockno x) (b_lock x) (b_refcnt x) (b_prev x) (b_next x) v.

#[export] Instance buf_inhabited : Inhabited buf := populate (mk_buf false false 0 0
  inhabitant 0 O O []).

(** The log (kernel/log.c) with its header. *)
Record log : Type := mk_log {
  log_start : Z;
  log_size : Z;
  log_outstanding : Z;
  log_committing : bool;
  log_dev : Z;
  lh_n : Z;
  lh_block : list Z
}.

Definition set_log_start (v : Z) (x : log) : log := mk_log v (log_size x)
  (log_outstanding x) (log_committing x) (log_dev x) (lh_n x) (lh_block x).
Definition set_log_size (v : Z) (x : log) : log := mk_log (log_start x) v
  (log_outstanding x) (log_committing x) (log_dev x) (lh_n x) (lh_block x).
Definition set_log_outstanding (v : Z) (x : log) : log := mk_log (log_start x) (log_size
  x) v (log_committing x) (log_dev x) (lh_n x) (lh_block x).
Definition set_log_committing (v : bool) (x : log) : log := mk_log (log_start x)
  (log_size x) (log_outstanding x) v (log_dev x) (lh_n x) (lh_block x).
Definition set_log_dev (v : Z) (x : log) : log := mk_log (log_start x) (log_size x)
  (log_outstanding x) (log_committing x) v (lh_n x) (lh_block x).
Definition set_lh_n (v : Z) (x : log) : log := mk_log (log_start x) (log_size x)
  (log_outstanding x) (log_committing x) (log_dev x) v (lh_block x).
Definition set_lh_block (v : list Z) (x : log) : log := mk_log (log_start x) (log_size
  x) (log_outstanding x) (log_committing x) (log_dev x) (lh_n x) v.

#[export] Instance log_inhabited : Inhabited log := populate (mk_log 0 0 0 false 0 0
  []).

(** In-memory inode (kernel/file.h). *)
Record inode : Type := mk_inode {
  i_dev : Z;
  i_inum : Z;
  i_ref : Z;
  i_lock : sleeplock;
  i_valid : bool;
  i_type : Z;
  i_major : Z;
  i_minor : Z;
  i_nlink : Z;
  i_size : Z;
  i_addrs : list Z
}.

Definition set_i_dev (v : Z) (x : inode) : inode := mk_inode v (i_inum x) (i_ref x)
  (i_lock x) (i_valid x) (i_type x) (i_major x) (i_minor x) (i_nlink x) (i_size x)
  (i_addrs x).
Definition set_i_inum (v : Z) (x : inode) : inode := mk_inode (i_dev x) v (i_ref x)
  (i_lock x) (i_valid x) (i_type x) (i_major x) (i_minor x) (i_nlink x) (i_size x)
  (i_addrs x).
Definition set_i_ref (v : Z) (x : inode) : inode := mk_inode (i_dev x) (i_inum x) v
  (i_lock x) (i_valid x) (i_type x) (i_major x) (i_minor x) (i_nlink x) (i_size x)
  (i_addrs x).
Definition set_i_lock (v : sleeplock) (x : inode) : inode := mk_inode (i_dev x) (i_inum
  x) (i_ref x) v (i_valid x) (i_type x) (i_major x) (i_minor x) (i_nlink x) (i_size x)
  (i_addrs x).
Definition set_i_valid (v : bool) (x : inode) : inode := mk_inode (i_dev x) (i_inum x)
  (i_ref x) (i_lock x) v (i_type x) (i_major x) (i_minor x) (i_nlink x) (i_size x)
  (i_addrs x).
Definition set_i_type (v : Z) (x : inode) : inode := mk_inode (i_dev x) (i_inum x)
  (i_ref x) (i_lock x) (i_valid x) v (i_major x) (i_minor x) (i_nlink x) (i_size x)
  (i_addrs x).
Definition set_i_major (v : Z) (x : inode) : inode := mk_inode (i_dev x) (i_inum x)
  (i_ref x) (i_lock x) (i_valid x) (i_type x) v (i_minor x) (i_nlink x) (i_size x)
  (i_addrs x).
Definition set_i_minor (v : Z) (x : inode) : inode := mk_inode (i_dev x) (i_inum x)
  (i_ref x) (i_lock x) (i_valid x) (i_type x) (i_major x) v (i_nlink x) (i_size x)
  (i_addrs x).
Definition set_i_nlink (v : Z) (x : inode) : inode := mk_inode (i_dev x) (i_inum x)
  (i_ref x) (i_lock x) (i_valid x) (i_type x) (i_major x) (i_minor x) v (i_size x)
  (i_addrs x).
Definition set_i_size (v : Z) (x : inode) : inode := mk_inode (i_dev x) (i_inum x)
  (i_ref x) (i_lock x) (i_valid x) (i_type x) (i_major x) (i_minor x) (i_nlink x) v
  (i_addrs x).
Definition set_i_addrs (v : list Z) (x : inode) : inode := mk_inode (i_dev x) (i_inum x)
  (i_ref x) (i_lock x) (i_valid x) (i_type x) (i_major x) (i_minor x) (i_nlink x)
  (i_size x) v.

#[export] Instance inode_inhabited : Inhabited inode := populate (mk_inode 0 0 0
  inhabitant false 0 0 0 0 0 []).

(** The super block (kernel/fs.h). *)
Record superblock : Type := mk_superblock {
  sb_magic : Z;
  sb_size : Z;
  sb_nblocks : Z;
  sb_ninodes : Z;
  sb_nlog : Z;
  sb_logstart : Z;
  sb_inodestart : Z;
  sb_bmapstart : Z
}.

Definition set_sb_magic (v : Z) (x : superblock) : superblock := mk_superblock v
  (sb_size x) (sb_nblocks x) (sb_ninodes x) (sb_nlog x) (sb_logstart x) (sb_inodestart
  x) (sb_bmapstart x).
Definition set_sb_size (v : Z) (x : superblock) : superblock := mk_superblock (sb_magic
  x) v (sb_nblocks x) (sb_ninodes x) (sb_nlog x) (sb_logstart x) (sb_inodestart x)
  (sb_bmapstart x).
Definition set_sb_nblocks (v : Z) (x : superblock) : superblock := mk_superblock
  (sb_magic x) (sb_size x) v (sb_ninodes x) (sb_nlog x) (sb_logstart x) (sb_inodestart
  x) (sb_bmapstart x).
Definition set_sb_ninodes (v : Z) (x : superblock) : superblock := mk_superblock
  (sb_magic x) (sb_size x) (sb_nblocks x) v (sb_nlog x) (sb_logstart x) (sb_inodestart
  x) (sb_bmapstart x).
Definition set_sb_nlog (v : Z) (x : superblock) : superblock := mk_superblock (sb_magic
  x) (sb_size x) (sb_nblocks x) (sb_ninodes x) v (sb_logstart x) (sb_inodestart x)
  (sb_bmapstart x).
Definition set_sb_logstart (v : Z) (x : superblock) : superblock := mk_superblock
  (sb_magic x) (sb_size x) (sb_nblocks x) (sb_ninodes x) (sb_nlog x) v (sb_inodestart x)
  (sb_bmapstart x).
Definition set_sb_inodestart (v : Z) (x : superblock) : superblock := mk_superblock
  (sb_magic x) (sb_size x) (sb_nblocks x) (sb_ninodes x) (sb_nlog x) (sb_logstart x) v
  (sb_bmapstart x).
Definition set_sb_bmapstart (v : Z) (x : superblock) : superblock := mk_superblock
  (sb_magic x) (sb_size x) (sb_nblocks x) (sb_ninodes x) (sb_nlog x) (sb_logstart x)
  (sb_inodestart x) v.

#[export] Instance superblock_inhabited : Inhabited superblock := populate
  (mk_superblock 0 0 0 0 0 0 0 0).

(** The console input buffer (kernel/console.c). *)
Record console : Type := mk_console {
  cons_buf : list Z;
  cons_r : Z;
  cons_w : Z;
  cons_e : Z
}.

Definition set_cons_buf (v : list Z) (x : console) : console := mk_console v (cons_r x)
  (cons_w x) (cons_e x).
Definition set_cons_r (v : Z) (x : console) : console := mk_console (cons_buf x) v
  (cons_w x) (cons_e x).
Definition set_cons_w (v : Z) (x : console) : console := mk_console (cons_buf x) (cons_r
  x) v (cons_e x).
Definition set_cons_e (v : Z) (x : console) : console := mk_console (cons_buf x) (cons_r
  x) (cons_w x) v.

#[export] Instance console_inhabited : Inhabited console := populate (mk_console [] 0 0
  0).

(** The transmit buffer of kernel/uart.c, and the device: [thr] is what was written to the transmit register, [rhr] the input waiting in the receive register, and [lsr_tx] the next readings of LSR_TX_IDLE (idle when there are none left). *)
Record uart : Type := mk_uart {
  tx_buf : list Z;
  tx_w : Z;
  tx_r : Z;
  thr : list Z;
  rhr : list Z;
  lsr_tx : list bool
}.

Definition set_tx_buf (v : list Z) (x : uart) : uart := mk_uart v (tx_w x) (tx_r x) (thr
  x) (rhr x) (lsr_tx x).
Definition set_tx_w (v : Z) (x : uart) : uart := mk_uart (tx_buf x) v (tx_r x) (thr x)
  (rhr x) (lsr_tx x).
Definition set_tx_r (v : Z) (x : uart) : uart := mk_uart (tx_buf x) (tx_w x) v (thr x)
  (rhr x) (lsr_tx x).
Definition set_thr (v : list Z) (x : uart) : uart := mk_uart (tx_buf x) (tx_w x) (tx_r
  x) v (rhr x) (lsr_tx x).
Definition set_rhr (v : list Z) (x : uart) : uart := mk_uart (tx_buf x) (tx_w x) (tx_r
  x) (thr x) v (lsr_tx x).
Definition set_lsr_tx (v : list bool) (x : uart) : uart := mk_uart (tx_buf x) (tx_w x)
  (tx_r x) (thr x) (rhr x) v.

#[export] Instance uart_inhabited : Inhabited uart := populate (mk_uart [] 0 0 [] []
  []).

(** A DMA descriptor (kernel/virtio.h). *)
Record virtq_desc : Type := mk_virtq_desc {
  d_addr : daddr;
  d_len : Z;
  d_flags : Z;
  d_next : Z
}.

Definition set_d_addr (v : daddr) (x : virtq_desc) : virtq_desc := mk_virtq_desc v
  (d_len x) (d_flags x) (d_next x).
Definition set_d_len (v : Z) (x : virtq_desc) : virtq_desc := mk_virtq_desc (d_addr x) v
  (d_flags x) (d_next x).
Definition set_d_flags (v : Z) (x : virtq_desc) : virtq_desc := mk_virtq_desc (d_addr x)
  (d_len x) v (d_next x).
Definition set_d_next (v : Z) (x : virtq_desc) : virtq_desc := mk_virtq_desc (d_addr x)
  (d_len x) (d_flags x) v.

#[export] Instance virtq_desc_inhabited : Inhabited virtq_desc := populate
  (mk_virtq_desc DNull 0 0 0).

(** The first descriptor of a disk request (kernel/virtio.h). *)
Record virtio_blk_req : Type := mk_virtio_blk_req {
  req_type : Z;
  req_reserved : Z;
  req_sector : Z
}.

Definition set_req_type (v : Z) (x : virtio_blk_req) : virtio_blk_req :=
  mk_virtio_blk_req v (req_reserved x) (req_sector x).
Definition set_req_reserved (v : Z) (x : virtio_blk_req) : virtio_blk_req :=
  mk_virtio_blk_req (req_type x) v (req_sector x).
Definition set_req_sector (v : Z) (x : virtio_blk_req) : virtio_blk_req :=
  mk_virtio_blk_req (req_type x) (req_reserved x) v.

#[export] Instance virtio_blk_req_inhabited : Inhabited virtio_blk_req := populate
  (mk_virtio_blk_req 0 0 0).

(** [struct disk] of kernel/virtio_disk.c: the descriptors and rings shared with the device ([avail_idx], [avail_ring], [dev_used_idx], [dev_used_ring]) and the bookkeeping of the driver. *)
Record vdisk : Type := mk_vdisk {
  vd_desc : list virtq_desc;
  avail_idx : Z;
  avail_ring : list Z;
  dev_used_idx : Z;
  dev_used_ring : list Z;
  vd_free : list bool;
  vd_used_idx : Z;
  info_b : list (option nat);
  info_status : list Z;
  vd_ops : list virtio_blk_req
}.

Definition set_vd_desc (v : list virtq_desc) (x : vdisk) : vdisk := mk_vdisk v
  (avail_idx x) (avail_ring x) (dev_used_idx x) (dev_used_ring x) (vd_free x)
  (vd_used_idx x) (info_b x) (info_status x) (vd_ops x).
Definition set_avail_idx (v : Z) (x : vdisk) : vdisk := mk_vdisk (vd_desc x) v
  (avail_ring x) (dev_used_idx x) (dev_used_ring x) (vd_free x) (vd_used_idx x) (info_b
  x) (info_status x) (vd_ops x).
Definition set_avail_ring (v : list Z) (x : vdisk) : vdisk := mk_vdisk (vd_desc x)
  (avail_idx x) v (dev_used_idx x) (dev_used_ring x) (vd_free x) (vd_used_idx x) (info_b
  x) (info_status x) (vd_ops x).
Definition set_dev_used_idx (v : Z) (x : vdisk) : vdisk := mk_vdisk (vd_desc x)
  (avail_idx x) (avail_ring x) v (dev_used_ring x) (vd_free x) (vd_used_idx x) (info_b
  x) (info_status x) (vd_ops x).
Definition set_dev_used_ring (v : list Z) (x : vdisk) : vdisk := mk_vdisk (vd_desc x)
  (avail_idx x) (avail_ring x) (dev_used_idx x) v (vd_free x) (vd_used_idx x) (info_b x)
  (info_status x) (vd_ops x).
Definition set_vd_free (v : list bool) (x : vdisk) : vdisk := mk_vdisk (vd_desc x)
  (avail_idx x) (avail_ring x) (dev_used_idx x) (dev_used_ring x) v (vd_used_idx x)
  (info_b x) (info_status x) (vd_ops x).
Definition set_vd_used_idx (v : Z) (x : vdisk) : vdisk := mk_vdisk (vd_desc x)
  (avail_idx x) (avail_ring x) (dev_used_idx x) (dev_used_ring x) (vd_free x) v (info_b
  x) (info_status x) (vd_ops x).
Definition set_info_b (v : list (option nat)) (x : vdisk) : vdisk := mk_vdisk (vd_desc
  x) (avail_idx x) (avail_ring x) (dev_used_idx x) (dev_used_ring x) (vd_free x)
  (vd_used_idx x) v (info_status x) (vd_ops x).
Definition set_info_status (v : list Z) (x : vdisk) : vdisk := mk_vdisk (vd_desc x)
  (avail_idx x) (avail_ring x) (dev_used_idx x) (dev_used_ring x) (vd_free x)
  (vd_used_idx x) (info_b x) v (vd_ops x).
Definition set_vd_ops (v : list virtio_blk_req) (x : vdisk) : vdisk := mk_vdisk (vd_desc
  x) (avail_idx x) (avail_ring x) (dev_used_idx x) (dev_used_ring x) (vd_free x)
  (vd_used_idx x) (info_b x) (info_status x) v.

#[export] Instance vdisk_inhabited : Inhabited vdisk := populate (mk_vdisk [] 0 [] 0 []
  [] 0 [] [] []).

(** The supervisor registers the trap code uses, of the running hart. *)
Record csrs : Type := mk_csrs {
  satp : Z;
  stvec : Z;
  sepc : Z;
  spp : bool;
  spie : bool;
  scause : Z;
  stval : Z;
  sip : Z
}.

Definition set_satp (v : Z) (x : csrs) : csrs := mk_csrs v (stvec x) (sepc x) (spp x)
  (spie x) (scause x) (stval x) (sip x).
Definition set_stvec (v : Z) (x : csrs) : csrs := mk_csrs (satp x) v (sepc x) (spp x)
  (spie x) (scause x) (stval x) (sip x).
Definition set_sepc (v : Z) (x : csrs) : csrs := mk_csrs (satp x) (stvec x) v (spp x)
  (spie x) (scause x) (stval x) (sip x).
Definition set_spp (v : bool) (x : csrs) : csrs := mk_csrs (satp x) (stvec x) (sepc x) v
  (spie x) (scause x) (stval x) (sip x).
Definition set_spie (v : bool) (x : csrs) : csrs := mk_csrs (satp x) (stvec x) (sepc x)
  (spp x) v (scause x) (stval x) (sip x).
Definition set_scause (v : Z) (x : csrs) : csrs := mk_csrs (satp x) (stvec x) (sepc x)
  (spp x) (spie x) v (stval x) (sip x).
Definition set_stval (v : Z) (x : csrs) : csrs := mk_csrs (satp x) (stvec x) (sepc x)
  (spp x) (spie x) (scause x) v (sip x).
Definition set_sip (v : Z) (x : csrs) : csrs := mk_csrs (satp x) (stvec x) (sepc x) (spp
  x) (spie x) (scause x) (stval x) v.

#[export] Instance csrs_inhabited : Inhabited csrs := populate (mk_csrs 0 0 0 false
  false 0 0 0).

(** The state of the kernel: the registers of the running hart, the locks, physical memory and the global variables of each source file. *)
Record kernel : Type := mk_kernel {
  tp : nat;
  cpus : list cpu;
  locks : gmap lockid spinlock;
  physmem : mem;
  freelist : Z;
  kernel_pagetable : Z;
  procs : list proc;
  nextpid : Z;
  initproc : option nat;
  forkret_first : bool;
  files : list file;
  pipes : gmap Z pipe;
  bufs : list buf;
  klog : log;
  inodes : list inode;
  sb : superblock;
  ticks : Z;
  cons : console;
  uart0 : uart;
  pr_locking : bool;
  panicked : bool;
  devsw_read : list (option devfn);
  devsw_write : list (option devfn);
  vdisk0 : vdisk;
  disk : gmap Z (list Z);
  disk_writes : list (Z * list Z);
  csr : csrs;
  mmio_writes : list (Z * Z);
  plic_claims : list Z
}.

Definition set_tp (v : nat) (x : kernel) : kernel := mk_kernel v (cpus x) (locks x)
  (physmem x) (freelist x) (kernel_pagetable x) (procs x) (nextpid x) (initproc x)
  (forkret_first x) (files x) (pipes x) (bufs x) (klog x) (inodes x) (sb x) (ticks x)
  (cons x) (uart0 x) (pr_locking x) (panicked x) (devsw_read x) (devsw_write x) (vdisk0
  x) (disk x) (disk_writes x) (csr x) (mmio_writes x) (plic_claims x).
Definition set_cpus (v : list cpu) (x : kernel) : kernel := mk_kernel (tp x) v (locks x)
  (physmem x) (freelist x) (kernel_pagetable x) (procs x) (nextpid x) (initproc x)
  (forkret_first x) (files x) (pipes x) (bufs x) (klog x) (inodes x) (sb x) (ticks x)
  (cons x) (uart0 x) (pr_locking x) (panicked x) (devsw_read x) (devsw_write x) (vdisk0
  x) (disk x) (disk_writes x) (csr x) (mmio_writes x) (plic_claims x).
Definition set_locks (v : gmap lockid spinlock) (x : kernel) : kernel := mk_kernel (tp
  x) (cpus x) v (physmem x) (freelist x) (kernel_pagetable x) (procs x) (nextpid x)
  (initproc x) (forkret_first x) (files x) (pipes x) (bufs x) (klog x) (inodes x) (sb x)
  (ticks x) (cons x) (uart0 x) (pr_locking x) (panicked x) (devsw_read x) (devsw_write
  x) (vdisk0 x) (disk x) (disk_writes x) (csr x) (mmio_writes x) (plic_claims x).
Definition set_physmem (v : mem) (x : kernel) : kernel := mk_kernel (tp x) (cpus x)
  (locks x) v (freelist x) (kernel_pagetable x) (procs x) (nextpid x) (initproc x)
  (forkret_first x) (files x) (pipes x) (bufs x) (klog x) (inodes x) (sb x) (ticks x)
  (cons x) (uart0 x) (pr_locking x) (panicked x) (devsw_read x) (devsw_write x) (vdisk0
  x) (disk x) (disk_writes x) (csr x) (mmio_writes x) (plic_claims x).
Definition set_freelist (v : Z) (x : kernel) : kernel := mk_kernel (tp x) (cpus x)
  (locks x) (physmem x) v (kernel_pagetable x) (procs x) (nextpid x) (initproc x)
  (forkret_first x) (files x) (pipes x) (bufs x) (klog x) (inodes x) (sb x) (ticks x)
  (cons x) (uart0 x) (pr_locking x) (panicked x) (devsw_read x) (devsw_write x) (vdisk0
  x) (disk x) (disk_writes x) (csr x) (mmio_writes x) (plic_claims x).
Definition set_kernel_pagetable (v : Z) (x : kernel) : kernel := mk_kernel (tp x) (cpus
  x) (locks x) (physmem x) (freelist x) v (procs x) (nextpid x) (initproc x)
  (forkret_first x) (files x) (pipes x) (bufs x) (klog x) (inodes x) (sb x) (ticks x)
  (cons x) (uart0 x) (pr_locking x) (panicked x) (devsw_read x) (devsw_write x) (vdisk0
  x) (disk x) (disk_writes x) (csr x) (mmio_writes x) (plic_claims x).
Definition set_procs (v : list proc) (x : kernel) : kernel := mk_kernel (tp x) (cpus x)
  (locks x) (physmem x) (freelist x) (kernel_pagetable x) v (nextpid x) (initproc x)
  (forkret_first x) (files x) (pipes x) (bufs x) (klog x) (inodes x) (sb x) (ticks x)
  (cons x) (uart0 x) (pr_locking x) (panicked x) (devsw_read x) (devsw_write x) (vdisk0
  x) (disk x) (disk_writes x) (csr x) (mmio_writes x) (plic_claims x).
Definition set_nextpid (v : Z) (x : kernel) : kernel := mk_kernel (tp x) (cpus x) (locks
  x) (physmem x) (freelist x) (kernel_pagetable x) (procs x) v (initproc x)
  (forkret_first x) (files x) (pipes x) (bufs x) (klog x) (inodes x) (sb x) (ticks x)
  (cons x) (uart0 x) (pr_locking x) (panicked x) (devsw_read x) (devsw_write x) (vdisk0
  x) (disk x) (disk_writes x) (csr x) (mmio_writes x) (plic_claims x).
Definition set_initproc (v : option nat) (x : kernel) : kernel := mk_kernel (tp x) (cpus
  x) (locks x) (physmem x) (freelist x) (kernel_pagetable x) (procs x) (nextpid x) v
  (forkret_first x) (files x) (pipes x) (bufs x) (klog x) (inodes x) (sb x) (ticks x)
  (cons x) (uart0 x) (pr_locking x) (panicked x) (devsw_read x) (devsw_write x) (vdisk0
  x) (disk x) (disk_writes x) (csr x) (mmio_writes x) (plic_claims x).
Definition set_forkret_first (v : bool) (x : kernel) : kernel := mk_kernel (tp x) (cpus
  x) (locks x) (physmem x) (freelist x) (kernel_pagetable x) (procs x) (nextpid x)
  (initproc x) v (files x) (pipes x) (bufs x) (klog x) (inodes x) (sb x) (ticks x) (cons
  x) (uart0 x) (pr_locking x) (panicked x) (devsw_read x) (devsw_write x) (vdisk0 x)
  (disk x) (disk_writes x) (csr x) (mmio_writes x) (plic_claims x).
Definition set_files (v : list file) (x : kernel) : kernel := mk_kernel (tp x) (cpus x)
  (locks x) (physmem x) (freelist x) (kernel_pagetable x) (procs x) (nextpid x)
  (initproc x) (forkret_first x) v (pipes x) (bufs x) (klog x) (inodes x) (sb x) (ticks
  x) (cons x) (uart0 x) (pr_locking x) (panicked x) (devsw_read x) (devsw_write x)
  (vdisk0 x) (disk x) (disk_writes x) (csr x) (mmio_writes x) (plic_claims x).
Definition set_pipes (v : gmap Z pipe) (x : kernel) : kernel := mk_kernel (tp x) (cpus
  x) (locks x) (physmem x) (freelist x) (kernel_pagetable x) (procs x) (nextpid x)
  (initproc x) (forkret_first x) (files x) v (bufs x) (klog x) (inodes x) (sb x) (ticks
  x) (cons x) (uart0 x) (pr_locking x) (panicked x) (devsw_read x) (devsw_write x)
  (vdisk0 x) (disk x) (disk_writes x) (csr x) (mmio_writes x) (plic_claims x).
Definition set_bufs (v : list buf) (x : kernel) : kernel := mk_kernel (tp x) (cpus x)
  (locks x) (physmem x) (freelist x) (kernel_pagetable x) (procs x) (nextpid x)
  (initproc x) (forkret_first x) (files x) (pipes x) v (klog x) (inodes x) (sb x) (ticks
  x) (cons x) (uart0 x) (pr_locking x) (panicked x) (devsw_read x) (devsw_write x)
  (vdisk0 x) (disk x) (disk_writes x) (csr x) (mmio_writes x) (plic_claims x).
Definition set_klog (v : log) (x : kernel) : kernel := mk_kernel (tp x) (cpus x) (locks
  x) (physmem x) (freelist x) (kernel_pagetable x) (procs x) (nextpid x) (initproc x)
  (forkret_first x) (files x) (pipes x) (bufs x) v (inodes x) (sb x) (ticks x) (cons x)
  (uart0 x) (pr_locking x) (panicked x) (devsw_read x) (devsw_write x) (vdisk0 x) (disk
  x) (disk_writes x) (csr x) (mmio_writes x) (plic_claims x).
Definition set_inodes (v : list inode) (x : kernel) : kernel := mk_kernel (tp x) (cpus
  x) (locks x) (physmem x) (freelist x) (kernel_pagetable x) (procs x) (nextpid x)
  (initproc x) (forkret_first x) (files x) (pipes x) (bufs x) (klog x) v (sb x) (ticks
  x) (cons x) (uart0 x) (pr_locking x) (panicked x) (devsw_read x) (devsw_write x)
  (vdisk0 x) (disk x) (disk_writes x) (csr x) (mmio_writes x) (plic_claims x).
Definition set_sb (v : superblock) (x : kernel) : kernel := mk_kernel (tp x) (cpus x)
  (locks x) (physmem x) (freelist x) (kernel_pagetable x) (procs x) (nextpid x)
  (initproc x) (forkret_first x) (files x) (pipes x) (bufs x) (klog x) (inodes x) v
  (ticks x) (cons x) (uart0 x) (pr_locking x) (panicked x) (devsw_read x) (devsw_write
  x) (vdisk0 x) (disk x) (disk_writes x) (csr x) (mmio_writes x) (plic_claims x).
Definition set_ticks (v : Z) (x : kernel) : kernel := mk_kernel (tp x) (cpus x) (locks
  x) (physmem x) (freelist x) (kernel_pagetable x) (procs x) (nextpid x) (initproc x)
  (forkret_first x) (files x) (pipes x) (bufs x) (klog x) (inodes x) (sb x) v (cons x)
  (uart0 x) (pr_locking x) (panicked x) (devsw_read x) (devsw_write x) (vdisk0 x) (disk
  x) (disk_writes x) (csr x) (mmio_writes x) (plic_claims x).
Definition set_cons (v : console) (x : kernel) : kernel := mk_kernel (tp x) (cpus x)
  (locks x) (physmem x) (freelist x) (kernel_pagetable x) (procs x) (nextpid x)
  (initproc x) (forkret_first x) (files x) (pipes x) (bufs x) (klog x) (inodes x) (sb x)
  (ticks x) v (uart0 x) (pr_locking x) (panicked x) (devsw_read x) (devsw_write x)
  (vdisk0 x) (disk x) (disk_writes x) (csr x) (mmio_writes x) (plic_claims x).
Definition set_uart0 (v : uart) (x : kernel) : kernel := mk_kernel (tp x) (cpus x)
  (locks x) (physmem x) (freelist x) (kernel_pagetable x) (procs x) (nextpid x)
  (initproc x) (forkret_first x) (files x) (pipes x) (bufs x) (klog x) (inodes x) (sb x)
  (ticks x) (cons x) v (pr_locking x) (panicked x) (devsw_read x) (devsw_write x)
  (vdisk0 x) (disk x) (disk_writes x) (csr x) (mmio_writes x) (plic_claims x).
Definition set_pr_locking (v : bool) (x : kernel) : kernel := mk_kernel (tp x) (cpus x)
  (locks x) (physmem x) (freelist x) (kernel_pagetable x) (procs x) (nextpid x)
  (initproc x) (forkret_first x) (files x) (pipes x) (bufs x) (klog x) (inodes x) (sb x)
  (ticks x) (cons x) (uart0 x) v (panicked x) (devsw_read x) (devsw_write x) (vdisk0 x)
  (disk x) (disk_writes x) (csr x) (mmio_writes x) (plic_claims x).
Definition set_panicked (v : bool) (x : kernel) : kernel := mk_kernel (tp x) (cpus x)
  (locks x) (physmem x) (freelist x) (kernel_pagetable x) (procs x) (nextpid x)
  (initproc x) (forkret_first x) (files x) (pipes x) (bufs x) (klog x) (inodes x) (sb x)
  (ticks x) (cons x) (uart0 x) (pr_locking x) v (devsw_read x) (devsw_write x) (vdisk0
  x) (disk x) (disk_writes x) (csr x) (mmio_writes x) (plic_claims x).
Definition set_devsw_read (v : list (option devfn)) (x : kernel) : kernel := mk_kernel
  (tp x) (cpus x) (locks x) (physmem x) (freelist x) (kernel_pagetable x) (procs x)
  (nextpid x) (initproc x) (forkret_first x) (files x) (pipes x) (bufs x) (klog x)
  (inodes x) (sb x) (ticks x) (cons x) (uart0 x) (pr_locking x) (panicked x) v
  (devsw_write x) (vdisk0 x) (disk x) (disk_writes x) (csr x) (mmio_writes x)
  (plic_claims x).
Definition set_devsw_write (v : list (option devfn)) (x : kernel) : kernel := mk_kernel
  (tp x) (cpus x) (locks x) (physmem x) (freelist x) (kernel_pagetable x) (procs x)
  (nextpid x) (initproc x) (forkret_first x) (files x) (pipes x) (bufs x) (klog x)
  (inodes x) (sb x) (ticks x) (cons x) (uart0 x) (pr_locking x) (panicked x) (devsw_read
  x) v (vdisk0 x) (disk x) (disk_writes x) (csr x) (mmio_writes x) (plic_claims x).
Definition set_vdisk0 (v : vdisk) (x : kernel) : kernel := mk_kernel (tp x) (cpus x)
  (locks x) (physmem x) (freelist x) (kernel_pagetable x) (procs x) (nextpid x)
  (initproc x) (forkret_first x) (files x) (pipes x) (bufs x) (klog x) (inodes x) (sb x)
  (ticks x) (cons x) (uart0 x) (pr_locking x) (panicked x) (devsw_read x) (devsw_write
  x) v (disk x) (disk_writes x) (csr x) (mmio_writes x) (plic_claims x).
Definition set_disk (v : gmap Z (list Z)) (x : kernel) : kernel := mk_kernel (tp x)
  (cpus x) (locks x) (physmem x) (freelist x) (kernel_pagetable x) (procs x) (nextpid x)
  (initproc x) (forkret_first x) (files x) (pipes x) (bufs x) (klog x) (inodes x) (sb x)
  (ticks x) (cons x) (uart0 x) (pr_locking x) (panicked x) (devsw_read x) (devsw_write
  x) (vdisk0 x) v (disk_writes x) (csr x) (mmio_writes x) (plic_claims x).
Definition set_disk_writes (v : list (Z * list Z)) (x : kernel) : kernel := mk_kernel
  (tp x) (cpus x) (locks x) (physmem x) (freelist x) (kernel_pagetable x) (procs x)
  (nextpid x) (initproc x) (forkret_first x) (files x) (pipes x) (bufs x) (klog x)
  (inodes x) (sb x) (ticks x) (cons x) (uart0 x) (pr_locking x) (panicked x) (devsw_read
  x) (devsw_write x) (vdisk0 x) (disk x) v (csr x) (mmio_writes x) (plic_claims x).
Definition set_csr (v : csrs) (x : kernel) : kernel := mk_kernel (tp x) (cpus x) (locks
  x) (physmem x) (freelist x) (kernel_pagetable x) (procs x) (nextpid x) (initproc x)
  (forkret_first x) (files x) (pipes x) (bufs x) (klog x) (inodes x) (sb x) (ticks x)
  (cons x) (uart0 x) (pr_locking x) (panicked x) (devsw_read x) (devsw_write x) (vdisk0
  x) (disk x) (disk_writes x) v (mmio_writes x) (plic_claims x).
Definition set_mmio_writes (v : list (Z * Z)) (x : kernel) : kernel := mk_kernel (tp x)
  (cpus x) (locks x) (physmem x) (freelist x) (kernel_pagetable x) (procs x) (nextpid x)
  (initproc x) (forkret_first x) (files x) (pipes x) (bufs x) (klog x) (inodes x) (sb x)
  (ticks x) (cons x) (uart0 x) (pr_locking x) (panicked x) (devsw_read x) (devsw_write
  x) (vdisk0 x) (disk x) (disk_writes x) (csr x) v (plic_claims x).
Definition set_plic_claims (v : list Z) (x : kernel) : kernel := mk_kernel (tp x) (cpus
  x) (locks x) (physmem x) (freelist x) (kernel_pagetable x) (procs x) (nextpid x)
  (initproc x) (forkret_first x) (files x) (pipes x) (bufs x) (klog x) (inodes x) (sb x)
  (ticks x) (cons x) (uart0 x) (pr_locking x) (panicked x) (devsw_read x) (devsw_write
  x) (vdisk0 x) (disk x) (disk_writes x) (csr x) (mmio_writes x) v.

#[export] Instance kernel_inhabited : Inhabited kernel := populate (mk_kernel O [] ∅ ∅ 0
  0 [] 0 None false [] ∅ [] inhabitant [] inhabitant 0 inhabitant inhabitant false false
  [] [] inhabitant ∅ [] inhabitant [] []).

(** Code run by a kernel thread. *)
Definition K (A : Type) : Type := M kernel A.

(** [mycpu()], as the element of [cpus] for the running hart. *)
Definition mycpu (s : kernel) : cpu := cpus s !!! tp s.

Definition upd_cpu (f : cpu → cpu) (s : kernel) : kernel :=
  set_cpus (<[tp s := f (mycpu s)]> (cpus s)) s.

Definition upd_proc (i : nat) (f : proc → proc) (s : kernel) : kernel :=
  set_procs (alter f i (procs s)) s.

Definition getproc (i : nat) (s : kernel) : proc := procs s !!! i.

(** Loads and stores through kernel pointers. *)
Definition upd_mem (f : mem → mem) (s : kernel) : kernel := set_physmem (f (physmem s)) s.
Definition load64 (a : Z) : K Z := gets (λ s, ld64 (physmem s) a).
Definition store64 (a v : Z) : K unit := modify (upd_mem (λ m, st64 m a v)).

(** Kernel code that only works on physical memory and the page allocator
    leaves the state [with_mem s m fl]. *)
Definition with_mem (s : kernel) (m : mem) (fl : Z) : kernel :=
  set_freelist fl (set_physmem m s).

Lemma physmem_with_mem s m fl : physmem (with_mem s m fl) = m.
Proof. done. Qed.

Lemma freelist_with_mem s m fl : freelist (with_mem s m fl) = fl.
Proof. done. Qed.

Lemma with_mem_with_mem s m fl m' fl' :
  with_mem (with_mem s m fl) m' fl' = with_mem s m' fl'.
Proof. done. Qed.

Lemma with_mem_id s : with_mem s (physmem s) (freelist s) = s.
Proof. by destruct s. Qed.

Lemma upd_mem_with_mem f s m fl : upd_mem f (with_mem s m fl) = with_mem s (f m) fl.
Proof. done. Qed.

Lemma upd_mem_eq f s : upd_mem f s = with_mem s (f (physmem s)) (freelist s).
Proof. by destruct s. Qed.

(** The kernel's memory image when [main] starts: zeroed globals, [nextpid] 1,
    every lock free, and hart 0 running with interrupts off. *)
Definition all_locks : list lockid :=
  [LkKmem; LkPid; LkWait; LkFtable; LkBcache; LkLog; LkTicks; LkCons; LkUart; LkItable; LkPr; LkVdisk]
  ++ (LkProc <$> seq 0 NPROC) ++ ((λ i, LkSleep (SlBuf i)) <$> seq 0 NBUF)
  ++ ((λ i, LkSleep (SlInode i)) <$> seq 0 NINODE).

Definition boot : kernel :=
  {| tp := 0; cpus := replicate NCPU inhabitant;
     locks := list_to_map ((λ l, (l, mk_spinlock false "" None)) <$> all_locks);
     physmem := ∅; freelist := 0; kernel_pagetable := 0;
     procs := replicate NPROC (set_p_ofile (replicate NOFILE None)
                                 (set_p_name (replicate 16 0) inhabitant));
     nextpid := 1; initproc := None; forkret_first := true;
     files := replicate NFILE inhabitant; pipes := ∅;
     bufs := replicate (NBUF + 1) (set_b_data (replicate 1024 0) inhabitant);
     klog := set_lh_block (replicate 30 0) inhabitant;
     inodes := replicate NINODE (set_i_addrs (replicate 13 0) inhabitant);
     sb := inhabitant; ticks := 0;
     cons := set_cons_buf (replicate 128 0) inhabitant;
     uart0 := set_tx_buf (replicate 32 0) inhabitant;
     pr_locking := false; panicked := false;
     devsw_read := replicate (Z.to_nat NDEV) None; devsw_write := replicate (Z.to_nat NDEV) None;
     vdisk0 := mk_vdisk (replicate 8 inhabitant) 0 (replicate 8 0) 0 (replicate 8 0)
                 (replicate 8 false) 0 (replicate 8 None) (replicate 8 0) (replicate 8 inhabitant);
     disk := ∅; disk_writes := []; csr := inhabitant; mmio_writes := [];
     plic_claims := [] |}.

(** Computes the fields of an updated kernel state. *)
Ltac kred :=
  cbn [tp cpus locks physmem freelist kernel_pagetable procs nextpid initproc
    forkret_first files pipes bufs klog inodes sb ticks cons uart0 pr_locking panicked
    devsw_read devsw_write vdisk0 disk disk_writes csr mmio_writes plic_claims set_tp
    set_cpus set_locks set_physmem set_freelist set_kernel_pagetable set_procs
    set_nextpid set_initproc set_forkret_first set_files set_pipes set_bufs set_klog
    set_inodes set_sb set_ticks set_cons set_uart0 set_pr_locking set_panicked
    set_devsw_read set_devsw_write set_vdisk0 set_disk set_disk_writes set_csr
    set_mmio_writes set_plic_claims upd_mem upd_proc upd_cpu].
