(* ===== verification/Spinlock.v ===== *)
(** * kernel/spinlock.c

    Spin locks and the interrupt-disabling discipline around them.  The first
    part translates the functions as one hart executes them; the second runs
    [acquire] and [release] of several harts against one lock, one memory
    access at a time, and shows mutual exclusion. *)

From S2P Require Import Prelude Machine Memory State.

(** ** Interrupts (kernel/riscv.h) *)

Definition intr_get : K bool := gets (λ s, c_sie (mycpu s)).
Definition intr_on : K unit := modify (upd_cpu (set_c_sie true)).
Definition intr_off : K unit := modify (upd_cpu (set_c_sie false)).

(** ** push_off and pop_off *)

Definition push_off : K unit :=
  let! old := intr_get in
  intr_off ;;;
  let! n := gets (λ s, c_noff (mycpu s)) in
  when (n =? 0) (modify (upd_cpu (set_c_intena old))) ;;;
  modify (upd_cpu (λ c, set_c_noff (c_noff c + 1) c)).

Definition pop_off : K unit :=
  let! on := intr_get in
  if on then panic "pop_off - interruptible" else
  let! n := gets (λ s, c_noff (mycpu s)) in
  if n <? 1 then panic "pop_off" else
  modify (upd_cpu (λ c, set_c_noff (c_noff c - 1) c)) ;;;
  let! c := gets mycpu in
  when ((c_noff c =? 0) && c_intena c) intr_on.

(** ** The lock operations *)

Definition getlock (l : lockid) (s : kernel) : spinlock := locks s !!! l.

Definition upd_lock (l : lockid) (f : spinlock → spinlock) (s : kernel) : kernel :=
  set_locks (<[l := f (getlock l s)]> (locks s)) s.

Definition initlock (l : lockid) (name : string) : K unit :=
  modify (upd_lock l (λ lk, set_lk_cpu None (set_lk_locked false (set_lk_name name lk)))).

Definition holding (l : lockid) : K bool :=
  gets (λ s, lk_locked (getlock l s) && bool_decide (lk_cpu (getlock l s) = Some (tp s))).

(** [while(__sync_lock_test_and_set(&lk->locked, 1) != 0);]: the exchange
    returns the old value, so a lock found taken keeps this hart spinning. *)
Definition test_and_set (l : lockid) : K unit :=
  let! old := gets (λ s, lk_locked (getlock l s)) in
  modify (upd_lock l (set_lk_locked true)) ;;;
  if old then hang else ret tt.

Definition acquire (l : lockid) : K unit :=
  push_off ;;;
  let! h := holding l in
  if h then panic "acquire" else
  test_and_set l ;;;
  let! id := gets tp in
  modify (upd_lock l (set_lk_cpu (Some id))).

Definition release (l : lockid) : K unit :=
  let! h := holding l in
  if negb h then panic "release" else
  modify (upd_lock l (set_lk_cpu None)) ;;;
  modify (upd_lock l (set_lk_locked false)) ;;;
  pop_off.

(** ** Well-formed harts and free locks *)

(** The hart's interrupt bookkeeping: [noff] counts the nested [push_off]s;
    inside one, interrupts are off; outside, [intena] holds the current
    setting, which the first [push_off] makes true ([push_off_pop_off]). *)
Definition hart_ok (s : kernel) : Prop :=
  (tp s < length (cpus s))%nat ∧ 0 ≤ c_noff (mycpu s) ∧
  (0 < c_noff (mycpu s) → c_sie (mycpu s) = false) ∧
  (c_noff (mycpu s) = 0 → c_intena (mycpu s) = c_sie (mycpu s)).

Definition lock_free (s : kernel) (l : lockid) : Prop :=
  ∃ name, locks s !! l = Some (mk_spinlock false name None).

Definition lock_mine (s : kernel) (l : lockid) : Prop :=
  ∃ name, locks s !! l = Some (mk_spinlock true name (Some (tp s))).

(** The states after a successful [acquire] and [release]. *)
Definition enter (l : lockid) (s : kernel) : kernel :=
  upd_lock l (λ lk, mk_spinlock true (lk_name lk) (Some (tp s)))
    (upd_cpu (λ c, mk_cpu (c_proc c) (c_noff c + 1) (c_intena c) false) s).

Definition leave (l : lockid) (s : kernel) : kernel :=
  upd_lock l (λ lk, mk_spinlock false (lk_name lk) None)
    (upd_cpu (λ c, mk_cpu (c_proc c) (c_noff c - 1) (c_intena c)
                     (if c_noff c =? 1 then c_intena c else false)) s).

Lemma getlock_Some s l lk : locks s !! l = Some lk → getlock l s = lk.
Proof. intros H. unfold getlock. by apply lookup_total_correct. Qed.

Lemma mycpu_upd_cpu f s :
  (tp s < length (cpus s))%nat → mycpu (upd_cpu f s) = f (mycpu s).
Proof. intros H. unfold mycpu. simpl. by apply list_lookup_total_insert_eq. Qed.

Lemma upd_cpu_upd_cpu f g s :
  (tp s < length (cpus s))%nat →
  upd_cpu f (upd_cpu g s) = upd_cpu (λ c, f (g c)) s.
Proof.
  intros H. unfold upd_cpu at 1. rewrite mycpu_upd_cpu by done.
  unfold upd_cpu. cbn. by rewrite list_insert_insert_eq.
Qed.

Lemma upd_lock_upd_lock l f g s :
  upd_lock l f (upd_lock l g s) = upd_lock l (λ lk, f (g lk)) s.
Proof.
  unfold upd_lock at 1, getlock. cbn. rewrite lookup_total_insert_eq.
  unfold upd_lock. cbn. by rewrite insert_insert_eq.
Qed.

Ltac cpu_len := cbn; rewrite ?length_insert; done.

Lemma push_off_eq s :
  hart_ok s →
  push_off s = Ret tt (upd_cpu (λ c, mk_cpu (c_proc c) (c_noff c + 1) (c_intena c) false) s).
Proof.
  intros (Hlen & _ & _ & Hq). unfold push_off, intr_get, intr_off, when, bind, gets, modify.
  cbn [obind]. rewrite mycpu_upd_cpu by done. cbn [c_noff set_c_sie].
  destruct (Z.eqb_spec (c_noff (mycpu s)) 0) as [E|E]; cbn [ret obind].
  - rewrite !upd_cpu_upd_cpu by cpu_len. unfold upd_cpu.
    rewrite <- (Hq E). by destruct (mycpu s).
  - rewrite !upd_cpu_upd_cpu by cpu_len. unfold upd_cpu. by destruct (mycpu s).
Qed.

Lemma pop_off_eq s :
  (tp s < length (cpus s))%nat → c_sie (mycpu s) = false → 1 ≤ c_noff (mycpu s) →
  pop_off s = Ret tt (upd_cpu (λ c, mk_cpu (c_proc c) (c_noff c - 1) (c_intena c)
                                 (if c_noff c =? 1 then c_intena c else false)) s).
Proof.
  intros Hlen Hsie Hn. unfold pop_off, intr_get, intr_on, when, bind, gets, modify.
  cbn [obind]. rewrite Hsie. cbn [obind].
  destruct (Z.ltb_spec (c_noff (mycpu s)) 1); [lia|]. cbn [obind].
  rewrite mycpu_upd_cpu by done. cbn [c_noff c_intena set_c_noff].
  replace (c_noff (mycpu s) - 1 =? 0) with (c_noff (mycpu s) =? 1)
    by (destruct (Z.eqb_spec (c_noff (mycpu s)) 1), (Z.eqb_spec (c_noff (mycpu s) - 1) 0); lia).
  destruct ((c_noff (mycpu s) =? 1) && c_intena (mycpu s)) eqn:E; cbn [ret].
  - rewrite upd_cpu_upd_cpu by done. apply andb_true_iff in E as [E1 E2].
    unfold upd_cpu. destruct (mycpu s) as [p n i e]; cbn in *. by rewrite E1, E2.
  - unfold upd_cpu. destruct (mycpu s) as [p n i e]; cbn in *. subst.
    destruct (_ =? _), i; done.
Qed.

Lemma acquire_ok s l :
  hart_ok s → lock_free s l → acquire l s = Ret tt (enter l s).
Proof.
  intros Hh [name Hl]. unfold acquire, bind. rewrite push_off_eq by done. cbn [obind].
  unfold holding, test_and_set, bind, gets, modify. cbn [obind].
  assert (getlock l (upd_cpu (λ c, mk_cpu (c_proc c) (c_noff c + 1) (c_intena c) false) s)
          = mk_spinlock false name None) as Hg by by apply getlock_Some.
  rewrite Hg. cbn [lk_locked lk_cpu andb obind ret].
  rewrite Hg. cbn [lk_locked obind ret].
  rewrite upd_lock_upd_lock. unfold enter, upd_lock. rewrite Hg. done.
Qed.

Lemma release_ok s l :
  (tp s < length (cpus s))%nat → c_sie (mycpu s) = false → 1 ≤ c_noff (mycpu s) →
  lock_mine s l → release l s = Ret tt (leave l s).
Proof.
  intros Hlen Hsie Hn [name Hl]. apply getlock_Some in Hl.
  unfold release, holding, bind, gets, modify. cbn [obind].
  rewrite Hl. cbn [lk_locked lk_cpu]. rewrite bool_decide_eq_true_2 by done.
  cbn [andb negb obind]. rewrite upd_lock_upd_lock, pop_off_eq by done.
  unfold leave, upd_cpu, upd_lock, getlock in *. cbn in *. by rewrite Hl.
Qed.

(** Leaving a critical section restores the hart and the lock exactly. *)
Lemma release_enter s s1 l :
  hart_ok s → lock_free s l →
  tp s1 = tp s → cpus s1 = cpus (enter l s) → locks s1 = locks (enter l s) →
  release l s1 = Ret tt (set_cpus (cpus s) (set_locks (locks s) s1)).
Proof.
  intros (Hlen & H0 & Hoff & Hq) [name Hl] Etp Ecpu Elk.
  assert (mycpu s1 = mk_cpu (c_proc (mycpu s)) (c_noff (mycpu s) + 1)
            (c_intena (mycpu s)) false) as Hc.
  { unfold mycpu at 1. rewrite Etp, Ecpu. cbn.
    by rewrite list_lookup_total_insert_eq. }
  rewrite release_ok.
  - f_equal. unfold leave, upd_lock, upd_cpu. rewrite Hc. cbn.
    unfold getlock. cbn. rewrite Etp, Ecpu, Elk. cbn.
    rewrite lookup_total_insert_eq, insert_insert_eq, list_insert_insert_eq. cbn.
    unfold getlock. cbn. erewrite lookup_total_correct by done. cbn.
    replace (c_noff (mycpu s) + 1 =? 1) with (c_noff (mycpu s) =? 0)
      by (destruct (Z.eqb_spec (c_noff (mycpu s)) 0), (Z.eqb_spec (c_noff (mycpu s) + 1) 1); lia).
    rewrite Z.add_simpl_r.
    replace (mk_cpu _ _ _ _) with (mycpu s).
    + rewrite (insert_id (locks s)) by done.
      rewrite list_insert_id; [done|]. by apply list_lookup_lookup_total_lt.
    + destruct (mycpu s) as [p n i e] eqn:E; cbn in *.
      destruct (Z.eqb_spec n 0) as [->|]; [by rewrite Hq|].
      rewrite Hoff by lia. done.
  - rewrite Etp, Ecpu. cbn. by rewrite length_insert.
  - by rewrite Hc.
  - rewrite Hc. cbn. lia.
  - exists name. rewrite Elk, Etp. cbn. rewrite lookup_insert_eq.
    by rewrite (getlock_Some _ _ (mk_spinlock false name None)).
Qed.

Lemma hart_ok_enter s l : hart_ok s → hart_ok (enter l s).
Proof.
  intros (Hlen & H0 & _ & _). unfold hart_ok, enter.
  change (mycpu (upd_lock _ _ ?x)) with (mycpu x).
  rewrite mycpu_upd_cpu by done. cbn. rewrite length_insert. split_and!; [done|lia|done|lia].
Qed.

Lemma lock_free_enter s l l' : l ≠ l' → lock_free s l' → lock_free (enter l s) l'.
Proof. intros Hne [n H]. exists n. cbn. by rewrite lookup_insert_ne. Qed.

(** A matched [push_off]/[pop_off] pair gives back the interrupt setting it
    found, and leaves the hart in the state [hart_ok] describes. *)
Lemma push_off_pop_off s :
  (tp s < length (cpus s))%nat → 0 ≤ c_noff (mycpu s) →
  (0 < c_noff (mycpu s) → c_sie (mycpu s) = false) →
  ∃ s', (push_off ;;; pop_off) s = Ret tt s' ∧ hart_ok s' ∧
        c_sie (mycpu s') = c_sie (mycpu s) ∧ c_noff (mycpu s') = c_noff (mycpu s).
Proof.
  intros Hlen Hn Hoff. unfold push_off, intr_get, intr_off, when, bind, gets, modify.
  cbn [obind]. rewrite mycpu_upd_cpu by done. cbn [c_noff set_c_sie].
  destruct (Z.eqb_spec (c_noff (mycpu s)) 0) as [E|E]; cbn [ret obind];
    rewrite !upd_cpu_upd_cpu by cpu_len;
    rewrite pop_off_eq by first [cpu_len | rewrite mycpu_upd_cpu by done; cbn; first [done|lia]];
    rewrite upd_cpu_upd_cpu by cpu_len;
    (eexists; split; [done|]);
    unfold hart_ok; rewrite mycpu_upd_cpu by done; cbn; rewrite length_insert.
  - rewrite E. cbn. split_and!; try done; lia.
  - replace (c_noff (mycpu s) + 1 =? 1) with false by (symmetry; apply Z.eqb_neq; lia).
    split_and!; try done; try lia. rewrite Hoff by lia. done.
Qed.

Lemma hart_ok_boot : hart_ok boot.
Proof. unfold hart_ok. cbn. split_and!; [lia|lia|done|done]. Qed.

(** Every global lock is free at boot. *)
Lemma lock_free_boot l : l ∈ all_locks → lock_free boot l.
Proof.
  intros Hl. exists ""%string. unfold boot. kred. apply elem_of_list_to_map_1.
  - rewrite <- list_fmap_compose. unfold compose. cbn [fst].
    rewrite list_fmap_id. apply (bool_decide_unpack _). by vm_compute.
  - apply list_elem_of_fmap. by exists l.
Qed.

Lemma hart_ok_with_mem s m fl : hart_ok (with_mem s m fl) ↔ hart_ok s.
Proof. done. Qed.

Lemma lock_free_with_mem s m fl l : lock_free (with_mem s m fl) l ↔ lock_free s l.
Proof. done. Qed.

(** Side conditions on the hart and the locks of an updated state. *)
Ltac kfield := unfold enter, upd_lock, upd_cpu; kred; reflexivity.

(** ** Several harts and one lock

    The accesses of [acquire] and [release] to the lock, one at a time: the
    two reads of [holding], of [lk->locked] and then of [lk->cpu], the atomic
    exchange, and the stores to [lk->cpu] and [lk->locked].  Each hart loops through acquire, critical section and
    release. *)
Module Harts.

Inductive pc : Type :=
| Idle          (* before acquire() *)
| Testing       (* holding() in acquire() has found lk->locked set *)
| Spinning      (* at the exchange *)
| Won           (* the exchange returned 0; lk->cpu not yet set *)
| Critical      (* acquire() has returned *)
| Confirming    (* holding() in release() has found lk->locked set *)
| Releasing     (* release() has passed its check *)
| Cleared       (* lk->cpu is 0; lk->locked still 1 *)
| Panicked.

Record config : Type := mk_config {
  locked : bool;
  owner : option nat;
  pcs : nat → pc
}.

Definition goto (h : nat) (p : pc) (f : nat → pc) : nat → pc :=
  λ h', if decide (h = h') then p else f h'.

(** The value of [holding], when both reads see the same state. *)
Definition holds (c : config) (h : nat) : bool :=
  locked c && bool_decide (owner c = Some h).

Inductive step : config → config → Prop :=
| step_acquire_check c h :
    pcs c h = Idle →
    step c (mk_config (locked c) (owner c)
              (goto h (if locked c then Testing else Spinning) (pcs c)))
| step_acquire_cpu c h :
    pcs c h = Testing →
    step c (mk_config (locked c) (owner c)
              (goto h (if bool_decide (owner c = Some h) then Panicked else Spinning) (pcs c)))
| step_exchange c h :
    pcs c h = Spinning →
    step c (mk_config true (owner c)
              (goto h (if locked c then Spinning else Won) (pcs c)))
| step_set_cpu c h :
    pcs c h = Won →
    step c (mk_config (locked c) (Some h) (goto h Critical (pcs c)))
| step_release_check c h :
    pcs c h = Critical →
    step c (mk_config (locked c) (owner c)
              (goto h (if locked c then Confirming else Panicked) (pcs c)))
| step_release_cpu c h :
    pcs c h = Confirming →
    step c (mk_config (locked c) (owner c)
              (goto h (if bool_decide (owner c = Some h) then Releasing else Panicked) (pcs c)))
| step_clear_cpu c h :
    pcs c h = Releasing →
    step c (mk_config (locked c) None (goto h Cleared (pcs c)))
| step_unlock c h :
    pcs c h = Cleared →
    step c (mk_config false (owner c) (goto h Idle (pcs c))).

(** After [initlock], with every hart outside. *)
Definition init : config := mk_config false None (λ _, Idle).

Definition reachable : config → Prop := rtc step init.

(** The harts that have won the exchange and not yet stored 0 back. *)
Definition inside (p : pc) : bool :=
  match p with Won | Critical | Confirming | Releasing | Cleared => true | _ => false end.

Definition owns (p : pc) : bool :=
  match p with Critical | Confirming | Releasing => true | _ => false end.

(** [w] is the hart inside, if any: it alone is past the exchange, the lock
    word says whether there is one, and [owner] names it while it owns the lock. *)
Record inv (c : config) (w : option nat) : Prop := mk_inv {
  inv_inside : ∀ h, inside (pcs c h) = true ↔ w = Some h;
  inv_locked : locked c = true ↔ is_Some w;
  inv_owner : ∀ h, owner c = Some h ↔ owns (pcs c h) = true;
  inv_panic : ∀ h, pcs c h ≠ Panicked
}.

Lemma goto_eq h p f : goto h p f h = p.
Proof. unfold goto. by case_decide. Qed.

Lemma goto_ne h h' p f : h ≠ h' → goto h p f h' = f h'.
Proof. intros H. unfold goto. by case_decide. Qed.

Lemma inv_holds c w h : inv c w → holds c h = true ↔ owns (pcs c h) = true.
Proof.
  intros I. unfold holds. rewrite andb_true_iff, bool_decide_eq_true.
  rewrite (inv_owner c w I). split; [tauto|]. intros H. split; [|done].
  apply (inv_locked c w I). exists h. apply (inv_inside c w I). by destruct (pcs c h).
Qed.

(** A step of [h] to [p] keeps the invariant when [p] fits the new [w] and the
    other harts see no change. *)
Lemma inv_goto c w h p lk ow w' :
  inv c w →
  (inside p = true ↔ w' = Some h) → (lk = true ↔ is_Some w') →
  (ow = Some h ↔ owns p = true) → p ≠ Panicked →
  (∀ h', h ≠ h' → (w' = Some h' ↔ w = Some h')) →
  (∀ h', h ≠ h' → (ow = Some h' ↔ owner c = Some h')) →
  inv (mk_config lk ow (goto h p (pcs c))) w'.
Proof.
  intros I H1 H2 H3 H4 Hw Ho. split; cbn [locked owner pcs]; try done;
    intros h'; destruct (decide (h = h')) as [<-|Hne];
    rewrite ?goto_eq, ?goto_ne by done; try done.
  - rewrite Hw by done. apply (inv_inside c w I).
  - rewrite Ho by done. apply (inv_owner c w I).
  - apply (inv_panic c w I).
Qed.

Ltac destruct_ex := repeat match goal with H : ∃ _, _ |- _ => destruct H end.

(** The side conditions of [inv_goto] once [h] is known to be inside or not. *)
Ltac goto_side Hi Ho Hw :=
  clear -Hi Ho Hw; cbn; unfold is_Some in *; intuition (destruct_ex; try congruence; eauto).

Lemma step_inv c w c' : inv c w → step c c' → ∃ w', inv c' w'.
Proof.
  intros I Hs. pose proof I as [Ii Il Io Ip].
  inversion Hs as [? h Hp|? h Hp|? h Hp|? h Hp|? h Hp|? h Hp|? h Hp|? h Hp]; subst; clear Hs;
    pose proof (Ii h) as Hi; pose proof (Io h) as Ho; rewrite Hp in Hi, Ho; cbn in Hi, Ho;
    pose proof Il as Hw.
  - exists w. destruct (locked c); (apply (inv_goto c w); [done|goto_side Hi Ho Hw..]).
  - rewrite bool_decide_eq_false_2 by (intros E%Ho; done).
    exists w. apply (inv_goto c w); [done|goto_side Hi Ho Hw..].
  - destruct (locked c) eqn:El.
    + exists w. apply (inv_goto c w); [done|goto_side Hi Ho Hw..].
    + assert (w = None) as ->.
      { destruct w; [|done]. assert (false = true); [|done]. apply Hw. eauto. }
      exists (Some h). apply (inv_goto c None); [done|goto_side Hi Ho Hw..].
  - assert (w = Some h) as -> by intuition. exists (Some h).
    apply (inv_goto c (Some h)); [done|goto_side Hi Ho Hw..|].
    intros h' Hne. split; [congruence|]. intros H%Io. exfalso.
    assert (Some h = Some h') by (apply Ii; by destruct (pcs c h')). congruence.
  - assert (locked c = true) as El by (apply Il; exists h; by apply Hi).
    rewrite El in *. exists w. apply (inv_goto c w); [done|goto_side Hi Ho Hw..].
  - rewrite bool_decide_eq_true_2 by by apply Ho.
    exists w. apply (inv_goto c w); [done|goto_side Hi Ho Hw..].
  - exists w. assert (owner c = Some h) as Hc by intuition.
    rewrite Hc in Ho. apply (inv_goto c w); [done|goto_side Hi Ho Hw..|].
    intros h' Hne. rewrite Hc. split; congruence.
  - assert (w = Some h) as -> by intuition. exists None.
    apply (inv_goto c (Some h)); [done|goto_side Hi Ho Hw..].
Qed.

Lemma init_inv : inv init None.
Proof. split; cbn; naive_solver. Qed.

Lemma reachable_inv c : reachable c → ∃ w, inv c w.
Proof.
  unfold reachable. intros H.
  refine (rtc_ind_r (λ c, ∃ w, inv c w) init _ _ c H).
  - exists None. apply init_inv.
  - intros y z _ Hs [w Hw]. by eapply step_inv.
Qed.

(** C12: at most one hart at a time is between the return of
    [acquire] and the end of [release]; while it is there, the lock word is set
    and [holding] answers true for that hart and false for every other; and no
    hart that alternates [acquire] and [release] ever reaches a panic. *)
Theorem mutual_exclusion c :
  reachable c →
  (∀ h h', inside (pcs c h) = true → inside (pcs c h') = true → h = h') ∧
  (∀ h, pcs c h = Critical → locked c = true ∧ ∀ h', holds c h' = true ↔ h' = h) ∧
  (∀ h, pcs c h ≠ Panicked).
Proof.
  intros [w I]%reachable_inv. pose proof I as [Ii Il Io Ip]. split_and!.
  - intros h h' H%Ii H'%Ii. congruence.
  - intros h H. assert (w = Some h) as -> by (apply Ii; by rewrite H).
    split; [by apply Il|]. intros h'. rewrite (inv_holds c (Some h)) by done. split.
    + intros Ho. assert (Some h = Some h') by (apply Ii; by destruct (pcs c h')). congruence.
    + intros ->. by rewrite H.
  - apply Ip.
Qed.

Lemma mutual_exclusion_witness :
  ∃ c, pcs c 1%nat = Critical ∧ pcs c 2%nat = Spinning ∧
       ∀ h h', inside (pcs c h) = true → inside (pcs c h') = true → h = h'.
Proof.
  eexists. split_and!; cycle 2.
  - apply mutual_exclusion. unfold reachable.
    eapply rtc_l; [apply (step_acquire_check init 1); reflexivity|].
    eapply rtc_l; [apply (step_acquire_check _ 2); reflexivity|].
    eapply rtc_l; [apply (step_exchange _ 1); reflexivity|].
    eapply rtc_l; [apply (step_exchange _ 2); reflexivity|].
    eapply rtc_l; [apply (step_set_cpu _ 1); reflexivity|].
    apply rtc_refl.
  - reflexivity.
  - reflexivity.
Defined.

End Harts.
