(* ===== verification/Kalloc.v ===== *)
(** * kernel/kalloc.c

    The physical page allocator: a list of free pages threaded through the
    first word of each page. *)

From S2P Require Import Prelude Machine Memory Kstring State Spinlock.

Section kalloc.
Context `{KernelLayout}.

Definition kmemset (a c n : Z) : K unit := modify (upd_mem (λ m, memset m a c n)).

Definition kfree (pa : Z) : K unit :=
  if negb (pa `mod` PGSIZE =? 0) || (pa <? kend) || (pa >=? PHYSTOP)
  then panic "kfree" else
  kmemset pa 1 PGSIZE ;;;
  acquire LkKmem ;;;
  let! next := gets freelist in
  store64 pa next ;;;
  modify (set_freelist pa) ;;;
  release LkKmem.

Definition kalloc : K Z :=
  acquire LkKmem ;;;
  let! r := gets freelist in
  (if negb (r =? 0) then let! next := load64 r in modify (set_freelist next)
   else ret tt) ;;;
  release LkKmem ;;;
  when (negb (r =? 0)) (kmemset r 5 PGSIZE) ;;;
  ret r.

(** [for(; p + PGSIZE <= pa_end; p += PGSIZE) kfree(p);] *)
Definition freerange (pa_start pa_end : Z) : K unit :=
  loop (λ p, if p + PGSIZE <=? pa_end
             then kfree p ;;; ret (inl (p + PGSIZE))
             else ret (inr tt)) (PGROUNDUP pa_start).

Definition kinit : K unit :=
  initlock LkKmem "kmem" ;;;
  freerange kend PHYSTOP.

(** [for(r = kmem.freelist; r; r = r->next) count++;] then [count * PGSIZE]. *)
Definition kfreemem : K Z :=
  acquire LkKmem ;;;
  let! fl := gets freelist in
  let! count := loop (λ '(r, count),
                   if negb (r =? 0)
                   then let! next := load64 r in ret (inl (next, count + 1))
                   else ret (inr count)) (fl, 0) in
  release LkKmem ;;;
  ret (s32 (count * PGSIZE)).

(** ** The free list *)

Definition valid_page (p : Z) : Prop := p `mod` PGSIZE = 0 ∧ kend ≤ p < PHYSTOP.

(** The list of pages reached from [hd] through the first word of each. *)
Fixpoint chain (m : mem) (hd : Z) (l : list Z) : Prop :=
  match l with
  | [] => hd = 0
  | p :: l' => hd = p ∧ chain m (ld64 m p) l'
  end.

(** [l] is the free list that starts at [hd]: distinct allocatable pages. *)
Definition free_list (m : mem) (hd : Z) (l : list Z) : Prop :=
  chain m hd l ∧ NoDup l ∧ Forall valid_page l.

Definition free_pages (s : kernel) (l : list Z) : Prop :=
  free_list (physmem s) (freelist s) l.

Lemma chain_ext m m' hd l :
  (∀ p x, p ∈ l → p ≤ x < p + 8 → ld m' x = ld m x) → chain m hd l → chain m' hd l.
Proof.
  revert hd. induction l as [|p l IH]; intros hd Hext Hc; [done|].
  destruct Hc as [-> Hc]. split; [done|].
  rewrite (ld64_ext m). { apply IH; [|done]. intros. eapply Hext; [by right|done]. }
  intros x Hx. apply (Hext p); [by left|done].
Qed.

Lemma page_disjoint p q x y :
  p `mod` PGSIZE = 0 → q `mod` PGSIZE = 0 → p ≠ q →
  p ≤ x < p + PGSIZE → q ≤ y < q + PGSIZE → x ≠ y.
Proof. intros. mlia. Qed.

Lemma page_disjoint_range p q x :
  p `mod` PGSIZE = 0 → q `mod` PGSIZE = 0 → p ≠ q →
  q ≤ x < q + PGSIZE → x < p ∨ p + PGSIZE ≤ x.
Proof. intros. mlia. Qed.

(** Memory after [kfree pa] and after a [kalloc] that takes [fl]. *)
Definition kfree_mem (m : mem) (fl pa : Z) : mem := st64 (memset m pa 1 PGSIZE) pa fl.
Definition kalloc_mem (m : mem) (fl : Z) : mem := memset m fl 5 PGSIZE.

Lemma kfree_eq s pa :
  hart_ok s → lock_free s LkKmem → valid_page pa →
  kfree pa s = Ret tt (with_mem s (kfree_mem (physmem s) (freelist s) pa) pa).
Proof.
  intros Hh Hl [Hal [Hlo Hhi]]. unfold kfree.
  rewrite Hal. destruct (Z.ltb_spec pa kend); [lia|].
  destruct (Z.geb_spec pa PHYSTOP); [lia|]. cbn [Z.eqb negb orb].
  set (s1 := upd_mem (λ m, memset m pa 1 PGSIZE) s).
  rewrite (bind_Ret _ _ _ tt s1) by done.
  rewrite (bind_Ret _ _ _ tt (enter LkKmem s1)) by by apply acquire_ok.
  unfold gets, store64, modify, bind. cbn [obind].
  rewrite (release_enter s1) by first [assumption|kfield]. reflexivity.
Qed.

Lemma kfree_bad s pa :
  ¬ valid_page pa → kfree pa s = Panic "kfree".
Proof.
  intros Hv. unfold kfree.
  destruct (Z.eqb_spec (pa `mod` PGSIZE) 0), (Z.ltb_spec pa kend),
    (Z.geb_spec pa PHYSTOP); try done.
  exfalso. apply Hv. split; [done|lia].
Qed.

Lemma kalloc_eq s :
  hart_ok s → lock_free s LkKmem → freelist s ≠ 0 →
  kalloc s = Ret (freelist s)
    (with_mem s (kalloc_mem (physmem s) (freelist s)) (ld64 (physmem s) (freelist s))).
Proof.
  intros Hh Hl Hne. unfold kalloc.
  rewrite (bind_Ret _ _ _ tt (enter LkKmem s)) by by apply acquire_ok.
  unfold gets, load64, modify, when, bind. cbn [obind].
  change (freelist (enter LkKmem s)) with (freelist s).
  destruct (Z.eqb_spec (freelist s) 0); [done|]. cbn [negb obind gets].
  rewrite (release_enter s) by done. done.
Qed.

Lemma kalloc_none s :
  hart_ok s → lock_free s LkKmem → freelist s = 0 → kalloc s = Ret 0 s.
Proof.
  intros Hh Hl Hz. unfold kalloc.
  rewrite (bind_Ret _ _ _ tt (enter LkKmem s)) by by apply acquire_ok.
  unfold gets, when, bind. cbn [obind].
  change (freelist (enter LkKmem s)) with (freelist s). rewrite Hz. cbn [Z.eqb negb obind ret].
  rewrite (release_enter s) by done. cbn [obind ret]. by destruct s.
Qed.

Context `{!LayoutOk}.

Lemma valid_page_range p : valid_page p → 0 < p ∧ p + PGSIZE ≤ PHYSTOP.
Proof.
  intros [Hal Hr]. pose proof etext_range. split; mlia.
Qed.

Lemma free_list_head m fl l : free_list m fl l → 0 ≤ fl < 2 ^ 64.
Proof.
  intros (Hc & _ & Hv). destruct l as [|p l]; cbn in Hc; [lia|].
  destruct Hc as [-> _]. apply Forall_cons in Hv as [Hv _].
  apply valid_page_range in Hv. mlia.
Qed.

Lemma free_list_cons m fl p l :
  free_list m fl (p :: l) → fl = p ∧ p ≠ 0 ∧ valid_page p ∧ p ∉ l.
Proof.
  intros ([-> _] & Hd & Hv). apply Forall_cons in Hv as [Hv _].
  apply NoDup_cons in Hd as [Hn _]. pose proof (valid_page_range _ Hv).
  split_and!; [done|lia|done|done].
Qed.

Lemma free_list_valid m fl l p : free_list m fl l → p ∈ l → valid_page p.
Proof. intros (_ & _ & Hv) Hp. by eapply Forall_elem. Qed.

(** Memory changes outside the free pages keep the free list. *)
Lemma free_list_ext m m' fl l :
  (∀ q x, q ∈ l → q ≤ x < q + PGSIZE → ld m' x = ld m x) →
  free_list m fl l → free_list m' fl l.
Proof.
  intros Hext (Hc & Hd & Hv). split_and!; [|done|done].
  apply chain_ext with m; [|done]. intros q x Hq Hx.
  apply (Hext q); [done|mlia].
Qed.

(** Memory outside the page is untouched. *)
Lemma ld_kfree_mem m fl pa x :
  ¬ (pa ≤ x < pa + PGSIZE) → ld (kfree_mem m fl pa) x = ld m x.
Proof.
  intros Hx. unfold kfree_mem. rewrite ld_st64_ne, ld_memset by mlia.
  case_decide; [lia|done].
Qed.

Lemma ld_kalloc_mem m fl x :
  ld (kalloc_mem m fl) x = if decide (fl ≤ x < fl + PGSIZE) then 5 else ld m x.
Proof. unfold kalloc_mem. rewrite ld_memset. by case_decide. Qed.

Lemma kfree_free_list m fl l pa :
  free_list m fl l → valid_page pa → pa ∉ l → free_list (kfree_mem m fl pa) pa (pa :: l).
Proof.
  intros Hf Hpa Hn. pose proof (free_list_head _ _ _ Hf) as Hhd.
  pose proof Hf as (Hc & Hd & Hv). split_and!.
  - split; [done|]. unfold kfree_mem at 2. rewrite ld64_st64_small by done.
    apply chain_ext with m; [|done]. intros q x Hq Hx.
    destruct (free_list_valid _ _ _ _ Hf Hq) as [Hqa _]. apply ld_kfree_mem.
    assert (x < pa ∨ pa + PGSIZE ≤ x); [|lia].
    apply (page_disjoint_range pa q); try done; [apply Hpa|by intros ->|mlia].
  - by constructor.
  - by constructor.
Qed.

Lemma kalloc_free_list m p l :
  free_list m p (p :: l) → free_list (kalloc_mem m p) (ld64 m p) l.
Proof.
  intros Hf. destruct (free_list_cons _ _ _ _ Hf) as (_ & _ & [Hpa _] & Hn).
  destruct Hf as ([_ Hc] & Hd & Hv). apply NoDup_cons in Hd as [_ Hd].
  apply Forall_cons in Hv as [_ Hv]. split_and!; [|done|done].
  apply chain_ext with m; [|done]. intros q x Hq Hx.
  assert (valid_page q) as [Hqa _] by (by eapply Forall_elem).
  rewrite ld_kalloc_mem. case_decide; [|done]. exfalso.
  apply (page_disjoint p q x x); try done; [by intros ->|mlia].
Qed.

(** There are at most as many free pages as pages of RAM above [KERNBASE]. *)
Lemma free_pages_length s l :
  free_pages s l → Z.of_nat (length l) * PGSIZE ≤ PHYSTOP - KERNBASE.
Proof.
  intros (_ & Hd & Hv). pose proof etext_range.
  set (ram := (λ i : Z, i * PGSIZE) <$>
            seqZ (KERNBASE / PGSIZE) ((PHYSTOP - KERNBASE) / PGSIZE)).
  assert (length l ≤ length ram)%nat as Hlen.
  { apply submseteq_length, NoDup_submseteq; [done|]. intros p Hp.
    assert (valid_page p) as [Ha Hr] by (by eapply Forall_elem).
    apply list_elem_of_fmap. exists (p / PGSIZE). rewrite elem_of_seqZ. mlia. }
  subst ram. rewrite length_fmap, length_seqZ in Hlen.
  apply inj_le in Hlen. rewrite Z2Nat.id in Hlen by mlia. mlia.
Qed.

(** ** freerange and kinit *)

(** The [k] pages from [p] up. *)
Definition page_range (p : Z) (k : nat) : list Z :=
  (λ i : nat, p + Z.of_nat i * PGSIZE) <$> seq 0 k.

Lemma page_range_S p k : page_range p (S k) = p :: page_range (p + PGSIZE) k.
Proof.
  unfold page_range. cbn [seq fmap list_fmap]. f_equal; [lia|].
  rewrite <- fmap_S_seq, <- list_fmap_compose. apply list_fmap_ext.
  intros i x _. cbn. lia.
Qed.

Lemma elem_of_page_range p k x :
  x ∈ page_range p k ↔ ∃ i, 0 ≤ i < Z.of_nat k ∧ x = p + i * PGSIZE.
Proof.
  unfold page_range. rewrite list_elem_of_fmap. split.
  - intros (i & -> & Hi%elem_of_seq). exists (Z.of_nat i). split; [lia|done].
  - intros (i & Hi & ->). exists (Z.to_nat i). split; [by rewrite Z2Nat.id by lia|].
    apply elem_of_seq. lia.
Qed.

Lemma page_range_valid p k :
  p `mod` PGSIZE = 0 → kend ≤ p → p + Z.of_nat k * PGSIZE ≤ PHYSTOP →
  Forall valid_page (page_range p k).
Proof.
  intros Hal Hlo Hhi. apply list.Forall_forall. intros x (i & Hi & ->)%elem_of_page_range.
  split; [rewrite Z.mod_add by mlia; done|]. mlia.
Qed.

Definition freerange_step (pa_end p : Z) : K (Z + unit) :=
  if p + PGSIZE <=? pa_end then kfree p ;;; ret (inl (p + PGSIZE)) else ret (inr tt).

Lemma freerange_run s l p k pa_end :
  hart_ok s → lock_free s LkKmem → free_pages s l →
  p `mod` PGSIZE = 0 → kend ≤ p → pa_end ≤ PHYSTOP →
  p + Z.of_nat k * PGSIZE ≤ pa_end < p + (Z.of_nat k + 1) * PGSIZE →
  (∀ x, x ∈ page_range p k → x ∉ l) →
  ∃ m' fl', run_n (S k) (freerange_step pa_end) p s = Ret (inr tt) (with_mem s m' fl') ∧
            free_list m' fl' (reverse (page_range p k) ++ l).
Proof.
  revert s l p. induction k as [|k IH]; intros s l p Hh Hl Hf Hal Hlo Hps Hend Hdis;
    cbn [run_n]; unfold freerange_step at 1.
  - destruct (Z.leb_spec (p + PGSIZE) pa_end); [mlia|].
    exists (physmem s), (freelist s). by rewrite with_mem_id.
  - destruct (Z.leb_spec (p + PGSIZE) pa_end); [|mlia].
    assert (valid_page p) as Hv by (split; [done|mlia]).
    set (s1 := with_mem s (kfree_mem (physmem s) (freelist s) p) p).
    rewrite (bind_Ret _ _ s (inl (p + PGSIZE)) s1).
    2:{ by run (kfree_eq s p Hh Hl Hv). }
    destruct (IH s1 (p :: l) (p + PGSIZE)) as (m' & fl' & Hr & Hf'); try done.
    + apply kfree_free_list; [done|done|]. apply Hdis. rewrite page_range_S. by left.
    + mlia.
    + mlia.
    + mlia.
    + intros x Hx. apply not_elem_of_cons. split.
      * apply elem_of_page_range in Hx as (i & Hi & ->). mlia.
      * apply Hdis. rewrite page_range_S. by right.
    + exists m', fl'. split.
      * etransitivity; [exact Hr|]. unfold s1. by rewrite with_mem_with_mem.
      * rewrite page_range_S, reverse_cons. by rewrite <- app_assoc.
Qed.

Lemma freerange_spec s l pa_start pa_end k :
  hart_ok s → lock_free s LkKmem → free_pages s l → kend ≤ pa_start ≤ PHYSTOP →
  pa_end ≤ PHYSTOP →
  PGROUNDUP pa_start + Z.of_nat k * PGSIZE ≤ pa_end
    < PGROUNDUP pa_start + (Z.of_nat k + 1) * PGSIZE →
  (∀ x, x ∈ page_range (PGROUNDUP pa_start) k → x ∉ l) →
  ∃ m' fl', freerange pa_start pa_end s = Ret tt (with_mem s m' fl') ∧
            free_list m' fl' (reverse (page_range (PGROUNDUP pa_start) k) ++ l).
Proof.
  intros Hh Hl Hf Hst Hps Hk Hdis. pose proof etext_range.
  assert (PGROUNDUP pa_start = PGSIZE * ((pa_start + (PGSIZE - 1)) / PGSIZE)) as Hup
    by (apply PGROUNDUP_eq; mlia).
  destruct (freerange_run s l (PGROUNDUP pa_start) k pa_end) as (m' & fl' & Hr & Hf');
    try done; [mlia|mlia|].
  exists m', fl'. split; [|done]. apply (loop_Ret _ (S k)); [mlia|exact Hr].
Qed.

(** The number of whole pages between the kernel image and [PHYSTOP]. *)
Definition npages : nat := Z.to_nat ((PHYSTOP - PGROUNDUP kend) / PGSIZE).

(** from the zeroed state in which [main] starts, [kinit] returns
    with a free list that holds every page-aligned page between the end of the
    kernel image and [PHYSTOP], each exactly once, and changes nothing but the
    list and the memory of those pages. *)
Theorem kinit_spec s :
  hart_ok s → lock_free s LkKmem → freelist s = 0 →
  ∃ m' fl' lk l,
    kinit s = Ret tt (with_mem (set_locks lk s) m' fl') ∧
    free_list m' fl' l ∧ (∀ p, p ∈ l ↔ valid_page p).
Proof.
  intros Hh [name Hl] Hz. pose proof etext_range. pose proof kend_range.
  assert (PGROUNDUP kend = PGSIZE * ((kend + (PGSIZE - 1)) / PGSIZE)) as Hup
    by (apply PGROUNDUP_eq; mlia).
  unfold kinit. edestruct (initlock LkKmem "kmem" s) as [[] s1| | |] eqn:E1; try done.
  injection E1 as E1. rewrite (bind_Ret _ _ _ tt s1) by (rewrite <- E1; done).
  destruct (freerange_spec s1 [] kend PHYSTOP npages) as (m' & fl' & Hr & Hf); try done.
  - by rewrite <- E1.
  - exists "kmem"%string. rewrite <- E1. kred. unfold upd_lock. kred. by rewrite lookup_insert_eq.
  - split_and!; [by rewrite <- E1|constructor|constructor].
  - unfold npages. rewrite Z2Nat.id by mlia. mlia.
  - set_solver.
  - exists m', fl', (locks s1), (reverse (page_range (PGROUNDUP kend) npages) ++ []).
    split_and!; [|done|].
    + etransitivity; [exact Hr|]. by rewrite <- E1.
    + intros p. rewrite app_nil_r, elem_of_reverse, elem_of_page_range. unfold npages. split.
      * intros (i & Hi & ->). rewrite Z2Nat.id in Hi by mlia. split; mlia.
      * intros [Ha Hr']. exists ((p - PGROUNDUP kend) / PGSIZE).
        rewrite Z2Nat.id by mlia. mlia.
Qed.

(** [kalloc] on a free list [l] takes its first page: the page
    was allocatable and is no longer in the list, so it cannot be handed out
    again before it is freed; its 4096 bytes hold the fill value 5 and no other
    byte of memory changes.  With no free page it returns 0 and changes nothing. *)
Theorem kalloc_spec s l :
  hart_ok s → lock_free s LkKmem → free_pages s l →
  match l with
  | [] => kalloc s = Ret 0 s
  | p :: l' =>
      ∃ m' fl', kalloc s = Ret p (with_mem s m' fl') ∧
        free_list m' fl' l' ∧ p ∉ l' ∧ valid_page p ∧
        (∀ x, ld m' x = if decide (p ≤ x < p + PGSIZE) then 5 else ld (physmem s) x)
  end.
Proof.
  intros Hh Hl Hf. destruct l as [|p l'].
  - apply kalloc_none; [done|done|]. apply Hf.
  - destruct (free_list_cons _ _ _ _ Hf) as (Hhd & Hne & Hv & Hn).
    exists (kalloc_mem (physmem s) p), (ld64 (physmem s) p).
    rewrite kalloc_eq by (rewrite ?Hhd; done). unfold free_pages in Hf. rewrite Hhd in Hf |- *.
    split_and!; [done|by apply kalloc_free_list|done|done|].
    intros x. apply ld_kalloc_mem.
Qed.

(** [kfree] of an allocatable page that is not free puts it at
    the head of the free list and touches no byte outside that page; a pointer
    that is not a page address between [end] and [PHYSTOP] panics. *)
Theorem kfree_spec s l pa :
  hart_ok s → lock_free s LkKmem → free_pages s l → pa ∉ l →
  (valid_page pa →
     ∃ m', kfree pa s = Ret tt (with_mem s m' pa) ∧ free_list m' pa (pa :: l) ∧
       (∀ x, ¬ (pa ≤ x < pa + PGSIZE) → ld m' x = ld (physmem s) x)) ∧
  (¬ valid_page pa → kfree pa s = Panic "kfree").
Proof.
  intros Hh Hl Hf Hn. split; [|apply kfree_bad].
  intros Hv. exists (kfree_mem (physmem s) (freelist s) pa). split_and!.
  - by apply kfree_eq.
  - by apply kfree_free_list.
  - intros x Hx. by apply ld_kfree_mem.
Qed.

Lemma kfreemem_run s (m : mem) hd l count :
  physmem s = m → chain m hd l → Forall (λ p, p ≠ 0) l →
  run_n (S (length l))
    (λ '(r, count), if negb (r =? 0)
                    then let! next := load64 r in ret (inl (next, count + 1))
                    else ret (inr count)) (hd, count) s
  = Ret (inr (count + Z.of_nat (length l))) s.
Proof.
  intros Hm. revert hd count. induction l as [|p l IH]; intros hd count Hc Hnz.
  - cbn in Hc. subst hd. cbn. do 2 f_equal. lia.
  - destruct Hc as [-> Hc]. apply Forall_cons in Hnz as [Hp Hnz].
    cbn [length]. rewrite (run_n_next _ _ _ _ (ld64 m p, count + 1) s).
    + rewrite IH by done. do 2 f_equal. lia.
    + destruct (Z.eqb_spec p 0); [done|]. unfold load64, gets, bind. cbn. by rewrite Hm.
Qed.

(** [kfreemem] reports exactly the free pages times the page
    size: its [int] result does not overflow, whatever the free list, and the
    state does not change. *)
Theorem kfreemem_spec s l :
  hart_ok s → lock_free s LkKmem → free_pages s l →
  kfreemem s = Ret (Z.of_nat (length l) * PGSIZE) s.
Proof.
  intros Hh Hl Hf. pose proof (free_pages_length s l Hf) as Hlen.
  destruct Hf as (Hc & _ & Hv). unfold kfreemem.
  rewrite (bind_Ret _ _ _ tt (enter LkKmem s)) by by apply acquire_ok.
  rewrite (bind_Ret _ _ _ (freelist s) (enter LkKmem s)) by done.
  rewrite (bind_Ret _ _ _ (Z.of_nat (length l)) (enter LkKmem s)).
  - rewrite (bind_Ret _ _ _ tt s).
    + unfold ret. f_equal. unfold s32, u32. rewrite Z.mod_small by mlia.
      destruct (Z.ltb_spec (Z.of_nat (length l) * PGSIZE) (2 ^ 31)); mlia.
    + rewrite (release_enter s) by done. by destruct s.
  - apply (loop_Ret _ (S (length l))); [mlia|].
    apply (kfreemem_run _ (physmem s)); [done|done|].
    eapply Forall_impl; [exact Hv|]. intros p Hp%valid_page_range. lia.
Qed.
End kalloc.

(** ** A small machine

    A kernel image that leaves sixteen pages of RAM, for evaluating the theorems. *)
#[export] Instance sample_layout : KernelLayout := {|
  kend := PHYSTOP - 16 * PGSIZE;
  etext := KERNBASE + 8 * PGSIZE;
  trampoline := KERNBASE + 7 * PGSIZE;
  forkret_addr := KERNBASE + 256;
  usertrap_addr := KERNBASE + 512;
  kernelvec_addr := KERNBASE + 768;
  uservec_addr := KERNBASE + 7 * PGSIZE;
  userret_addr := KERNBASE + 7 * PGSIZE + 256
|}.

#[export] Instance sample_layout_ok : LayoutOk.
Proof. split; cbn; first [reflexivity|mlia]. Qed.

Definition sample_page : Z := PHYSTOP - PGSIZE.

(** The boot state with one page on the free list. *)
Definition sample_state : kernel := set_freelist sample_page boot.

Lemma sample_page_valid p : p = sample_page ∨ p = sample_page - PGSIZE → valid_page p.
Proof. unfold sample_page. intros [->| ->]; split; cbn; mlia. Qed.

Lemma sample_free_pages : free_pages sample_state [sample_page].
Proof.
  split_and!.
  - split; [done|]. cbn. apply ld64_empty.
  - apply NoDup_singleton.
  - apply Forall_singleton, sample_page_valid. by left.
Qed.

Lemma sample_lock_free l : l ∈ all_locks → lock_free sample_state l.
Proof. apply lock_free_boot. Qed.

Lemma kinit_spec_witness :
  ∃ m' fl' lk l, kinit boot = Ret tt (with_mem (set_locks lk boot) m' fl') ∧
    free_list m' fl' l ∧ sample_page ∈ l.
Proof.
  destruct (kinit_spec boot hart_ok_boot) as (m' & fl' & lk & l & Hr & Hf & Hl).
  - apply lock_free_boot. by left.
  - reflexivity.
  - exists m', fl', lk, l. split_and!; [exact Hr|exact Hf|]. apply Hl, sample_page_valid. by left.
Defined.

Lemma kalloc_spec_witness :
  ∃ m' fl', kalloc sample_state = Ret sample_page (with_mem sample_state m' fl') ∧
            free_list m' fl' [].
Proof.
  destruct (kalloc_spec sample_state [sample_page] hart_ok_boot) as (m' & fl' & Hr & Hf & _).
  - apply sample_lock_free. by left.
  - apply sample_free_pages.
  - exists m', fl'. split; [exact Hr|exact Hf].
Defined.

Lemma kfree_spec_witness :
  ∃ m', kfree (sample_page - PGSIZE) sample_state
          = Ret tt (with_mem sample_state m' (sample_page - PGSIZE)) ∧
        free_list m' (sample_page - PGSIZE) [sample_page - PGSIZE; sample_page].
Proof.
  destruct (kfree_spec sample_state [sample_page] (sample_page - PGSIZE) hart_ok_boot)
    as [(m' & Hr & Hf & _) _].
  - apply sample_lock_free. by left.
  - apply sample_free_pages.
  - intros H%list_elem_of_singleton. discriminate H.
  - apply sample_page_valid. by right.
  - exists m'. split; [exact Hr|exact Hf].
Defined.

Lemma kfreemem_spec_witness : kfreemem sample_state = Ret 4096 sample_state.
Proof.
  apply (kfreemem_spec sample_state [sample_page] hart_ok_boot).
  - apply sample_lock_free. by left.
  - apply sample_free_pages.
Defined.
