(* ===== verification/Vm.v ===== *)
(** * kernel/vm.c: the operations

    Sv39 page tables kept in physical pages, and the routines that build,
    change, copy and tear down address spaces and move bytes between user and
    kernel memory.  A page table is the address of its root page. *)

From S2P Require Import Prelude Machine Memory Kstring State Spinlock Kalloc.

Section vm.
Context `{KernelLayout}.

Definition kmemmove (d s n : Z) : K unit := modify (upd_mem (λ m, memmove m d s n)).

(** The loop [for(int level = 2; level > 0; level--)] of [walk], from a given
    level, and the final [return &pagetable[PX(0, va)]]. *)
Fixpoint walk_level (level : nat) (pagetable va : Z) (alloc : bool) : K Z :=
  match level with
  | O => ret (pagetable + 8 * PX 0 va)
  | S level' =>
      let pte := pagetable + 8 * PX (Z.of_nat level) va in
      let! e := load64 pte in
      if negb (Z.land e PTE_V =? 0) then walk_level level' (PTE2PA e) va alloc
      else if negb alloc then ret 0
      else
        let! page := kalloc in
        if page =? 0 then ret 0
        else
          kmemset page 0 PGSIZE ;;;
          store64 pte (Z.lor (PA2PTE page) PTE_V) ;;;
          walk_level level' page va alloc
  end.

Definition walk (pagetable va : Z) (alloc : bool) : K Z :=
  if va >=? MAXVA then panic "walk" else walk_level 2 pagetable va alloc.

Definition walkaddr (pagetable va : Z) : K Z :=
  if va >=? MAXVA then ret 0 else
  let! pte := walk pagetable va false in
  if pte =? 0 then ret 0 else
  let! e := load64 pte in
  if Z.land e PTE_V =? 0 then ret 0 else
  if Z.land e PTE_U =? 0 then ret 0 else
  ret (PTE2PA e).

(** One turn of [for(;;)] in [mappages]; the loop variables are [a] and [pa]. *)
Definition mappages_step (pagetable last perm : Z) (v : Z * Z) : K (Z * Z + Z) :=
  let '(a, pa) := v in
  let! pte := walk pagetable a true in
  if pte =? 0 then ret (inr (-1)) else
  let! e := load64 pte in
  if negb (Z.land e PTE_V =? 0) then panic "mappages: remap" else
  store64 pte (Z.lor (Z.lor (PA2PTE pa) perm) PTE_V) ;;;
  if a =? last then ret (inr 0)
  else ret (inl (u64 (a + PGSIZE), u64 (pa + PGSIZE))).

Definition mappages (pagetable va size pa perm : Z) : K Z :=
  if size =? 0 then panic "mappages: size" else
  let a := PGROUNDDOWN va in
  let last := PGROUNDDOWN (u64 (va + size - 1)) in
  loop (mappages_step pagetable last perm) (a, pa).

Definition kvmmap (kpgtbl va pa sz perm : Z) : K unit :=
  let! r := mappages kpgtbl va sz pa perm in
  if negb (r =? 0) then panic "kvmmap" else ret tt.

(** One turn of the loop of [uvmunmap], at address [a]. *)
Definition uvmunmap_step (pagetable stop : Z) (do_free : bool) (a : Z) : K (Z + unit) :=
  if a <? stop then
    let! pte := walk pagetable a false in
    if pte =? 0 then panic "uvmunmap: walk" else
    let! e := load64 pte in
    if Z.land e PTE_V =? 0 then panic "uvmunmap: not mapped" else
    if PTE_FLAGS e =? PTE_V then panic "uvmunmap: not a leaf" else
    when do_free (kfree (PTE2PA e)) ;;;
    store64 pte 0 ;;;
    ret (inl (u64 (a + PGSIZE)))
  else ret (inr tt).

Definition uvmunmap (pagetable va npages : Z) (do_free : bool) : K unit :=
  if negb (va `mod` PGSIZE =? 0) then panic "uvmunmap: not aligned" else
  loop (uvmunmap_step pagetable (u64 (va + npages * PGSIZE)) do_free) va.

Definition uvmcreate : K Z :=
  let! pagetable := kalloc in
  if pagetable =? 0 then ret 0 else
  kmemset pagetable 0 PGSIZE ;;;
  ret pagetable.

(** [src] holds the bytes of the initial program ([sz] is its length). *)
Definition uvminit (pagetable : Z) (src : list Z) : K unit :=
  if Z.of_nat (length src) >=? PGSIZE then panic "inituvm: more than a page" else
  let! page := kalloc in
  kmemset page 0 PGSIZE ;;;
  let! _ := mappages pagetable 0 PGSIZE page
              (Z.lor (Z.lor (Z.lor PTE_W PTE_R) PTE_X) PTE_U) in
  modify (upd_mem (λ m, stbytes m page src)).

Definition uvmdealloc (pagetable oldsz newsz : Z) : K Z :=
  if newsz >=? oldsz then ret oldsz else
  when (PGROUNDUP newsz <? PGROUNDUP oldsz)
    (let npages := s32 ((PGROUNDUP oldsz - PGROUNDUP newsz) / PGSIZE) in
     uvmunmap pagetable (PGROUNDUP newsz) (u64 npages) true) ;;;
  ret newsz.

(** One turn of the loop of [uvmalloc]; [oldsz] is already rounded up. *)
Definition uvmalloc_step (pagetable oldsz newsz a : Z) : K (Z + Z) :=
  if a <? newsz then
    let! page := kalloc in
    if page =? 0 then
      let! _ := uvmdealloc pagetable a oldsz in ret (inr 0)
    else
    kmemset page 0 PGSIZE ;;;
    let! r := mappages pagetable a PGSIZE page
                (Z.lor (Z.lor (Z.lor PTE_W PTE_X) PTE_R) PTE_U) in
    if negb (r =? 0) then
      kfree page ;;;
      let! _ := uvmdealloc pagetable a oldsz in ret (inr 0)
    else ret (inl (u64 (a + PGSIZE)))
  else ret (inr newsz).

Definition uvmalloc (pagetable oldsz newsz : Z) : K Z :=
  if newsz <? oldsz then ret oldsz else
  let oldsz := PGROUNDUP oldsz in
  loop (uvmalloc_step pagetable oldsz newsz) oldsz.

(** [freewalk], with a bound on the depth of the recursion: a page table has
    three levels, so [freewalk] below never reaches it on one. *)
Fixpoint freewalk_depth (depth : nat) (pagetable : Z) : K unit :=
  match depth with
  | O => hang
  | S depth' =>
      for_each (seqZ 0 512) (λ i,
        let! pte := load64 (pagetable + 8 * i) in
        if negb (Z.land pte PTE_V =? 0) &&
           (Z.land pte (Z.lor (Z.lor PTE_R PTE_W) PTE_X) =? 0)
        then
          freewalk_depth depth' (PTE2PA pte) ;;;
          store64 (pagetable + 8 * i) 0
        else if negb (Z.land pte PTE_V =? 0) then panic "freewalk: leaf"
        else ret tt) ;;;
      kfree pagetable
  end.

Definition freewalk (pagetable : Z) : K unit := freewalk_depth 3 pagetable.

Definition uvmfree (pagetable sz : Z) : K unit :=
  when (sz >? 0) (uvmunmap pagetable 0 (PGROUNDUP sz / PGSIZE) true) ;;;
  freewalk pagetable.

(** One turn of the loop of [uvmcopy]; [err] undoes what was copied. *)
Definition uvmcopy_step (old new sz i : Z) : K (Z + Z) :=
  if i <? sz then
    let! pte := walk old i false in
    if pte =? 0 then panic "uvmcopy: pte should exist" else
    let! e := load64 pte in
    if Z.land e PTE_V =? 0 then panic "uvmcopy: page not present" else
    let pa := PTE2PA e in
    let flags := PTE_FLAGS e in
    let err := uvmunmap new 0 (i / PGSIZE) true ;;; ret (inr (-1)) in
    let! page := kalloc in
    if page =? 0 then err else
    kmemmove page pa PGSIZE ;;;
    let! r := mappages new i PGSIZE page flags in
    if negb (r =? 0) then kfree page ;;; err
    else ret (inl (u64 (i + PGSIZE)))
  else ret (inr 0).

Definition uvmcopy (old new sz : Z) : K Z := loop (uvmcopy_step old new sz) 0.

Definition uvmclear (pagetable va : Z) : K unit :=
  let! pte := walk pagetable va false in
  if pte =? 0 then panic "uvmclear" else
  let! e := load64 pte in
  store64 pte (Z.land e (u64 (Z.lnot PTE_U))).

(** ** Copies between user and kernel memory

    A kernel buffer is the list of its bytes.  [copyout] is given the bytes to
    write ([len] is their number); [copyin] and [copyinstr] also return the
    bytes they have stored in the destination when they return. *)

Definition copyout_step (pagetable : Z) (v : Z * list Z) : K (Z * list Z + Z) :=
  let '(dstva, src) := v in
  let len := Z.of_nat (length src) in
  if len >? 0 then
    let va0 := PGROUNDDOWN dstva in
    let! pa0 := walkaddr pagetable va0 in
    if pa0 =? 0 then ret (inr (-1)) else
    let n := PGSIZE - (dstva - va0) in
    let n := if n >? len then len else n in
    modify (upd_mem (λ m, stbytes m (pa0 + (dstva - va0)) (take (Z.to_nat n) src))) ;;;
    ret (inl (u64 (va0 + PGSIZE), drop (Z.to_nat n) src))
  else ret (inr 0).

Definition copyout (pagetable dstva : Z) (src : list Z) : K Z :=
  loop (copyout_step pagetable) (dstva, src).

Definition copyin_step (pagetable : Z) (v : Z * Z * list Z)
    : K (Z * Z * list Z + Z * list Z) :=
  let '(srcva, len, dst) := v in
  if len >? 0 then
    let va0 := PGROUNDDOWN srcva in
    let! pa0 := walkaddr pagetable va0 in
    if pa0 =? 0 then ret (inr (-1, dst)) else
    let n := PGSIZE - (srcva - va0) in
    let n := if n >? len then len else n in
    let! m := gets physmem in
    ret (inl (u64 (va0 + PGSIZE), len - n,
              dst ++ ldbytes m (pa0 + (srcva - va0)) (Z.to_nat n)))
  else ret (inr (0, dst)).

Definition copyin (pagetable srcva len : Z) : K (Z * list Z) :=
  loop (copyin_step pagetable) (srcva, len, []).

(** The inner loop of [copyinstr]: [n] bytes left in the page, [max] in the
    buffer.  It answers whether the NUL was found, [max] and the bytes stored. *)
Fixpoint copyinstr_page (n : nat) (m : mem) (p max : Z) (dst : list Z)
    : bool * Z * list Z :=
  match n with
  | O => (false, max, dst)
  | S n' =>
      if ld m p =? 0 then (true, max, dst ++ [0])
      else copyinstr_page n' m (p + 1) (max - 1) (dst ++ [ld m p])
  end.

Definition copyinstr_step (pagetable : Z) (v : bool * Z * Z * list Z)
    : K (bool * Z * Z * list Z + Z * list Z) :=
  let '(got_null, srcva, max, dst) := v in
  if negb got_null && (max >? 0) then
    let va0 := PGROUNDDOWN srcva in
    let! pa0 := walkaddr pagetable va0 in
    if pa0 =? 0 then ret (inr (-1, dst)) else
    let n := PGSIZE - (srcva - va0) in
    let n := if n >? max then max else n in
    let! m := gets physmem in
    let '(got_null, max, dst) :=
      copyinstr_page (Z.to_nat n) m (pa0 + (srcva - va0)) max dst in
    ret (inl (got_null, u64 (va0 + PGSIZE), max, dst))
  else ret (inr (if got_null then 0 else -1, dst)).

Definition copyinstr (pagetable srcva max : Z) : K (Z * list Z) :=
  loop (copyinstr_step pagetable) (false, srcva, max, []).
End vm.
