(* ===== verification/VmTables.v ===== *)
(** * Page tables as maps

    The abstraction of an Sv39 table that the theorems on kernel/vm.c use: the
    table pages reached through each sequence of indices, and the function
    [leaf] from virtual addresses to last-level entries.  [walk] is shown to
    compute it, and, when it allocates table pages, not to change it. *)

From S2P Require Import Prelude Machine Memory Kstring State Spinlock Kalloc Vm.

(** The table page reached from the root by a path, the last index first. *)
Fixpoint tbl (m : mem) (root : Z) (path : list Z) : option Z :=
  match path with
  | [] => Some root
  | i :: p =>
      match tbl m root p with
      | None => None
      | Some t =>
          let e := ld64 m (t + 8 * i) in
          if Z.land e PTE_V =? 0 then None else Some (PTE2PA e)
      end
  end.

Definition path_ok (p : list Z) : Prop := (length p ≤ 2)%nat ∧ Forall (λ i, 0 ≤ i < 512) p.

(** The path of the last-level table of an address. *)
Definition vpath (va : Z) : list Z := [PX 1 va; PX 2 va].

(** The last-level entry of an address; 0 when its table does not exist. *)
Definition leaf (m : mem) (root va : Z) : Z :=
  match tbl m root (vpath va) with
  | Some t => ld64 m (t + 8 * PX 0 va)
  | None => 0
  end.

Section tables.
Context `{KernelLayout} `{!LayoutOk}.

(** Table pages are allocatable pages and the paths reach them as a tree. *)
Record pt_wf (m : mem) (root : Z) : Prop := {
  wf_page : ∀ p t, path_ok p → tbl m root p = Some t → valid_page t;
  wf_inj : ∀ p q t, path_ok p → path_ok q →
    tbl m root p = Some t → tbl m root q = Some t → p = q;
  wf_dir : ∀ p i t, path_ok (i :: p) → tbl m root p = Some t →
    Z.land (ld64 m (t + 8 * i)) PTE_V ≠ 0 →
    Z.land (ld64 m (t + 8 * i)) (Z.lor (Z.lor PTE_R PTE_W) PTE_X) = 0;
  wf_half : ∀ k, 256 ≤ k < 512 → tbl m root [k] = None
}.

(** [x] lies in a table page. *)
Definition in_table (m : mem) (root x : Z) : Prop :=
  ∃ p t, path_ok p ∧ tbl m root p = Some t ∧ t ≤ x < t + PGSIZE.

(** The page table and the free list [l] are well formed and disjoint. *)
Record vm_inv (m : mem) (fl root : Z) (l : list Z) : Prop := {
  vm_free : free_list m fl l;
  vm_wf : pt_wf m root;
  vm_disj : ∀ p t, path_ok p → tbl m root p = Some t → t ∉ l
}.

Lemma path_ok_nil : path_ok [].
Proof. split; [cbn; lia|constructor]. Qed.

Lemma path_ok_tail i p : path_ok (i :: p) → path_ok p ∧ 0 ≤ i < 512.
Proof.
  intros [Hl Hf]. cbn in Hl. apply Forall_cons in Hf as [Hi Hf].
  split; [split; [lia|done]|done].
Qed.

Lemma path_ok_cons i p : (length p ≤ 1)%nat → path_ok p → 0 ≤ i < 512 → path_ok (i :: p).
Proof. intros Hl [_ Hf] Hi. split; [cbn; lia|by constructor]. Qed.

Lemma path_ok_vpath va : path_ok (vpath va).
Proof.
  split; [cbn; lia|]. repeat constructor; apply PX_range.
Qed.

Lemma slot_in_page t i x : 0 ≤ i < 512 → t + 8 * i ≤ x < t + 8 * i + 8 → t ≤ x < t + PGSIZE.
Proof. intros. mlia. Qed.

(** Two memories that agree on the tables above the last level agree on [tbl]. *)
Lemma tbl_ext m m' root p :
  path_ok p →
  (∀ q t x, path_ok q → (length q < 2)%nat → tbl m root q = Some t →
     t ≤ x < t + PGSIZE → ld m' x = ld m x) →
  tbl m' root p = tbl m root p.
Proof.
  intros Hp Hext. induction p as [|i p IH]; [done|].
  destruct (path_ok_tail _ _ Hp) as [Hp' Hi]. cbn. rewrite IH by done.
  destruct (tbl m root p) as [t|] eqn:E; [|done].
  rewrite (ld64_ext m); [done|]. intros x Hx.
  eapply Hext; [exact Hp'| |exact E|by eapply slot_in_page].
  destruct Hp as [Hl _]. cbn in Hl. lia.
Qed.

(** The same for well-formedness. *)
Lemma pt_wf_ext m m' root :
  pt_wf m root →
  (∀ q t x, path_ok q → (length q < 2)%nat → tbl m root q = Some t →
     t ≤ x < t + PGSIZE → ld m' x = ld m x) →
  pt_wf m' root.
Proof.
  intros Hwf Hext.
  assert (∀ p, path_ok p → tbl m' root p = tbl m root p) as T by (intros; by apply tbl_ext).
  split.
  - intros p t Hp. rewrite T by done. by apply (wf_page _ _ Hwf).
  - intros p q t Hp Hq. rewrite !T by done. by apply (wf_inj _ _ Hwf).
  - intros p i t Hp. destruct (path_ok_tail _ _ Hp) as [Hp' Hi]. rewrite T by done. intros Et.
    assert (ld64 m' (t + 8 * i) = ld64 m (t + 8 * i)) as ->; [|by apply (wf_dir _ _ Hwf p)].
    apply ld64_ext. intros x Hx. apply (Hext p t); [done| |done|mlia].
    destruct Hp as [Hlen _]. cbn in Hlen. lia.
  - intros k Hk. rewrite T by (apply path_ok_cons; [cbn; lia|apply path_ok_nil|lia]).
    by apply (wf_half _ _ Hwf).
Qed.

Lemma valid_page_PTE2PA t f :
  valid_page t → 0 ≤ f < 2 ^ 10 → PTE2PA (Z.lor (PA2PTE t) f) = t.
Proof.
  intros Hv Hf. pose proof (valid_page_range t Hv).
  apply PTE2PA_mk; [mlia|apply Hv|done].
Qed.

Lemma land_V_mk t f :
  0 ≤ t < 2 ^ 56 → 0 ≤ f < 2 ^ 10 →
  Z.land (Z.lor (PA2PTE t) (Z.lor f PTE_V)) PTE_V = PTE_V.
Proof.
  intros Ht Hf. rewrite land_FLAGS by done. rewrite PTE_FLAGS_mk; [|done|].
  - rewrite Z.land_lor_distr_l, Z.land_diag.
    apply Z.bits_inj'. intros n Hn. rewrite Z.lor_spec, Z.land_spec.
    destruct (Z.testbit PTE_V n); [apply orb_true_r|by rewrite andb_false_r].
  - apply lor_range; [lia|done|done].
Qed.

(** ** walk without allocation *)

(** A directory entry has none of the permission bits. *)
Lemma land_dir page :
  valid_page page →
  Z.land (Z.lor (PA2PTE page) PTE_V) (Z.lor (Z.lor PTE_R PTE_W) PTE_X) = 0.
Proof.
  intros Hv. rewrite land_FLAGS by done. rewrite PTE_FLAGS_mk; [done| |done].
  pose proof (valid_page_range page Hv). mlia.
Qed.

Lemma walk_false s root va :
  va < MAXVA →
  walk root va false s =
    Ret (match tbl (physmem s) root (vpath va) with
         | Some t => t + 8 * PX 0 va
         | None => 0
         end) s.
Proof.
  intros Hva. unfold walk. destruct (Z.geb_spec va MAXVA); [lia|].
  unfold walk_level, load64, gets, bind, vpath. cbn [obind tbl Z.of_nat].
  change (Z.of_nat 2) with 2. change (Z.of_nat 1) with 1.
  destruct (Z.land (ld64 (physmem s) (root + 8 * PX 2 va)) PTE_V =? 0); cbn [negb obind]; [done|].
  by destruct (Z.land (ld64 (physmem s) (_ + 8 * PX 1 va)) PTE_V =? 0).
Qed.

Lemma walk_too_high s root va alloc : MAXVA ≤ va → walk root va alloc s = Panic "walk".
Proof. intros H1. unfold walk. by destruct (Z.geb_spec va MAXVA); [|lia]. Qed.

(** ** Adding a table page *)

Definition add_table (m : mem) (pt i page : Z) : mem :=
  st64 (memset m page 0 PGSIZE) (pt + 8 * i) (Z.lor (PA2PTE page) PTE_V).

Section add_table.
Context (m m1 : mem) (root pt i page : Z) (path : list Z).
Hypothesis Hwf : pt_wf m root.
Hypothesis Hpath : path_ok (i :: path).
Hypothesis Hhalf : path = [] → i < 256.
Hypothesis Hpt : tbl m root path = Some pt.
Hypothesis Hnone : tbl m root (i :: path) = None.
Hypothesis Hpage : valid_page page.
Hypothesis Hfresh : ∀ p t, path_ok p → tbl m root p = Some t → t ≠ page.
(** [m1] is [m] after the page was taken off the free list. *)
Hypothesis Hm1 : ∀ x, ¬ (page ≤ x < page + PGSIZE) → ld m1 x = ld m x.

Let m' : mem := add_table m1 pt i page.

Lemma add_table_path : path_ok path ∧ 0 ≤ i < 512.
Proof. by apply path_ok_tail. Qed.

Lemma add_table_pt : valid_page pt ∧ pt ≠ page.
Proof.
  destruct add_table_path as [Hp _]. split; [exact (wf_page m root Hwf _ _ Hp Hpt)|exact (Hfresh _ _ Hp Hpt)].
Qed.

(** Outside the new page and the changed slot, memory is as before. *)
Lemma ld_add_table x :
  ¬ (page ≤ x < page + PGSIZE) → ¬ (pt + 8 * i ≤ x < pt + 8 * i + 8) →
  ld m' x = ld m x.
Proof.
  intros H1 H2. unfold m', add_table. rewrite ld_st64_ne, ld_memset by lia.
  case_decide; [lia|]. by apply Hm1.
Qed.

Lemma ld64_add_table_new j : 0 ≤ j < 512 → ld64 m' (page + 8 * j) = 0.
Proof.
  intros Hj. destruct add_table_path as [_ Hi]. destruct add_table_pt as [[Hal _] Hne].
  destruct Hpage as [Hpal _].
  unfold m', add_table. apply ld64_zero. intros x Hx.
  rewrite ld_st64_ne; [rewrite ld_memset; case_decide; [done|mlia]|].
  assert (x < pt ∨ pt + PGSIZE ≤ x) by (apply (page_disjoint_range pt page); try done; mlia).
  mlia.
Qed.

Lemma ld64_add_table_slot : ld64 m' (pt + 8 * i) = Z.lor (PA2PTE page) PTE_V.
Proof.
  unfold m', add_table. apply ld64_st64_small.
  apply lor_range; [lia|apply PA2PTE_range|done].
Qed.

Lemma ld64_add_table_other t q j :
  path_ok q → tbl m root q = Some t → 0 ≤ j < 512 → (t, j) ≠ (pt, i) →
  ld64 m' (t + 8 * j) = ld64 m (t + 8 * j).
Proof.
  intros Hq Ht Hj Hne. apply ld64_ext. intros x Hx.
  destruct add_table_path as [Hp Hi]. destruct add_table_pt as [[Hal _] _].
  assert (valid_page t) as [Htal _] by exact (wf_page m root Hwf _ _ Hq Ht).
  assert (t ≤ x < t + PGSIZE) as Hin by exact (slot_in_page t j x Hj Hx).
  apply ld_add_table.
  - assert (x < page ∨ page + PGSIZE ≤ x); [|lia].
    apply (page_disjoint_range page t); try done; [apply Hpage|].
    intros E. exact (Hfresh _ _ Hq Ht (eq_sym E)).
  - destruct (decide (t = pt)) as [->|Hnt].
    + assert (j ≠ i) by congruence. lia.
    + assert (x < pt ∨ pt + PGSIZE ≤ x) by (by apply (page_disjoint_range pt t)).
      mlia.
Qed.

Lemma tbl_add_table q :
  path_ok q → tbl m' root q = if decide (q = i :: path) then Some page else tbl m root q.
Proof.
  induction q as [|j q IH]; intros Hq; [by case_decide|].
  destruct (path_ok_tail _ _ Hq) as [Hq' Hj]. cbn [tbl]. rewrite IH by done.
  destruct (decide (q = i :: path)) as [->|Hqp].
  - rewrite ld64_add_table_new by done. cbn [Z.land Z.eqb]. rewrite Hnone.
    case_decide as E; [|done]. exfalso. apply (f_equal length) in E. cbn in E. lia.
  - destruct (tbl m root q) as [t|] eqn:Et.
    + destruct (decide ((t, j) = (pt, i))) as [[= -> ->]|Hne].
      * assert (q = path) as -> by (eapply (wf_inj m root Hwf); try done; apply add_table_path).
        rewrite ld64_add_table_slot.
        replace (Z.land (Z.lor (PA2PTE page) PTE_V) PTE_V =? 0) with false.
        -- rewrite decide_True by done. f_equal. apply valid_page_PTE2PA; done.
        -- symmetry. apply Z.eqb_neq. rewrite Z.land_lor_distr_l, Z.land_diag.
           intros [_ E]%Z.lor_eq_0_iff. done.
      * rewrite (ld64_add_table_other t q j) by done.
        rewrite decide_False; [done|]. intros [= -> ->]. congruence.
    + rewrite decide_False; [done|]. intros [= -> ->]. congruence.
Qed.

Lemma leaf_add_table va : leaf m' root va = leaf m root va.
Proof.
  unfold leaf. rewrite tbl_add_table by apply path_ok_vpath.
  case_decide as E.
  - rewrite E, Hnone. apply ld64_add_table_new, PX_range.
  - destruct (tbl m root (vpath va)) as [t|] eqn:Et; [|done].
    apply (ld64_add_table_other t (vpath va)); [apply path_ok_vpath|done|apply PX_range|].
    intros [= -> _]. destruct add_table_path as [Hp _].
    assert (vpath va = path) as Ep by (eapply (wf_inj m root Hwf); try done; apply path_ok_vpath).
    destruct Hpath as [Hlen _]. rewrite <- Ep in Hlen. cbn in Hlen. lia.
Qed.

Lemma wf_add_table : pt_wf m' root.
Proof.
  split.
  - intros p t Hp. rewrite tbl_add_table by done. case_decide; [by intros [= <-]|].
    by apply (wf_page m root Hwf).
  - intros p q t Hp Hq. rewrite !tbl_add_table by done.
    repeat case_decide; intros E1 E2; subst; try done; simplify_eq.
    + exfalso. by eapply (Hfresh q).
    + exfalso. by eapply (Hfresh p).
    + by eapply (wf_inj m root Hwf).
  - intros p j t Hp. destruct (path_ok_tail _ _ Hp) as [Hp' Hj].
    rewrite tbl_add_table by done. case_decide as Ep.
    + intros [= <-]. by rewrite ld64_add_table_new by done.
    + intros Et. destruct (decide ((t, j) = (pt, i))) as [[= -> ->]|Hne].
      * rewrite ld64_add_table_slot. intros _. by apply land_dir.
      * rewrite (ld64_add_table_other t p j) by done. by apply (wf_dir m root Hwf p).
  - intros k Hk. rewrite tbl_add_table by (apply path_ok_cons; [cbn; lia|apply path_ok_nil|lia]).
    rewrite decide_False; [by apply (wf_half m root Hwf)|].
    intros [= -> Ep]. specialize (Hhalf (eq_sym Ep)). lia.
Qed.
End add_table.

(** ** walk with allocation

    [grown m m' fl' root l used l']: from [m] to [m'] the page table took the
    pages [used] off the free list as new table pages, and changed no memory
    outside its tables. *)
Record grown (m m' : mem) (fl' root : Z) (l used l' : list Z) : Prop := {
  g_inv : vm_inv m' fl' root l';
  g_split : l = used ++ l';
  g_keep : ∀ p t, path_ok p → tbl m root p = Some t → tbl m' root p = Some t;
  g_new : ∀ p t, path_ok p → tbl m' root p = Some t → tbl m root p = Some t ∨ t ∈ used;
  g_used : ∀ q, q ∈ used → ∃ p, path_ok p ∧ tbl m' root p = Some q;
  g_mem : ∀ x, ¬ in_table m root x →
    (∀ q, q ∈ used → ¬ (q ≤ x < q + PGSIZE)) → ld m' x = ld m x
}.

Lemma grown_refl m fl root l : vm_inv m fl root l → grown m m fl root l [] l.
Proof. intros I. split; try done; [tauto|]. intros q Hq. by apply elem_of_nil in Hq. Qed.

Lemma grown_trans m1 m2 fl2 m3 fl3 root l1 l2 l3 u1 u2 :
  grown m1 m2 fl2 root l1 u1 l2 → grown m2 m3 fl3 root l2 u2 l3 →
  grown m1 m3 fl3 root l1 (u1 ++ u2) l3.
Proof.
  intros [I1 S1 K1 N1 U1 M1] [I2 S2 K2 N2 U2 M2]. split; try done.
  - by rewrite S1, S2, app_assoc.
  - eauto.
  - intros p t Hp Ht. rewrite elem_of_app. apply N2 in Ht as [Ht|]; [|tauto|done].
    apply N1 in Ht as [|]; tauto.
  - intros q [Hq|Hq]%elem_of_app; [|by apply U2].
    destruct (U1 q Hq) as (p & Hp & Ht). exists p. eauto.
  - intros x Hx Hu. rewrite M2; [apply M1; [done|]| |].
    + intros q Hq. apply Hu, elem_of_app. by left.
    + intros (p & t & Hp & Ht & Hin). apply N1 in Ht as [Ht|Ht]; [| |done].
      * apply Hx. by exists p, t.
      * apply (Hu t); [|done]. apply elem_of_app. by left.
    + intros q Hq. apply Hu, elem_of_app. by right.
Qed.

(** A byte of a free page is not in a table. *)
Lemma free_not_table m fl root l q x :
  vm_inv m fl root l → q ∈ l → q ≤ x < q + PGSIZE → ¬ in_table m root x.
Proof.
  intros [Hf Hwf Hd] Hq Hx (p & t & Hp & Ht & Hin).
  destruct (free_list_valid _ _ _ _ Hf Hq) as [Hqa _].
  destruct (wf_page _ _ Hwf _ _ Hp Ht) as [Hta _].
  destruct (decide (t = q)) as [->|Hne]; [by eapply Hd|].
  by apply (page_disjoint t q x x).
Qed.

(** The page [walk] takes when a table is missing. *)
Lemma grown_add m root l page path pt i :
  vm_inv m page root (page :: l) → path_ok (i :: path) → (path = [] → i < 256) →
  tbl m root path = Some pt → tbl m root (i :: path) = None →
  let m' := add_table (kalloc_mem m page) pt i page in
  grown m m' (ld64 m page) root (page :: l) [page] l ∧
  (∀ va, leaf m' root va = leaf m root va) ∧ tbl m' root (i :: path) = Some page.
Proof.
  intros I Hp Hhalf Hpt Hn m'. pose proof I as [Hf Hwf Hd].
  destruct (free_list_cons _ _ _ _ Hf) as (_ & Hnz & Hv & Hnl).
  assert (∀ p t, path_ok p → tbl m root p = Some t → t ≠ page) as Hfresh.
  { intros p t Hp' Ht ->. apply (Hd _ _ Hp' Ht). by left. }
  assert (∀ x, ¬ (page ≤ x < page + PGSIZE) → ld (kalloc_mem m page) x = ld m x) as Hm1.
  { intros x Hx. rewrite ld_kalloc_mem. by case_decide. }
  assert (∀ q, path_ok q →
    tbl m' root q = if decide (q = i :: path) then Some page else tbl m root q) as Htbl.
  { intros q Hq. by eapply tbl_add_table. }
  assert (∀ x, ¬ in_table m root x → ¬ (page ≤ x < page + PGSIZE) → ld m' x = ld m x) as Hmem.
  { intros x Hx Hx'. eapply (ld_add_table m); try done.
    intros Hin. destruct (path_ok_tail _ _ Hp) as [Hp' Hi].
    apply Hx. exists path, pt. split_and!; [done|done|mlia|mlia]. }
  split_and!; [|intros va; by eapply leaf_add_table|rewrite Htbl by done; by rewrite decide_True].
  split.
  - split.
    + apply free_list_ext with (kalloc_mem m page); [|by apply kalloc_free_list].
      intros q x Hq Hx.
      assert (¬ (page ≤ x < page + PGSIZE)) as Hout.
      { intros Hin. apply (page_disjoint page q x x); try done; [apply Hv| |by intros ->].
        by destruct (free_list_valid _ _ _ q Hf) as [? _]; [right|]. }
      rewrite Hmem; [by rewrite Hm1| |done].
      apply (free_not_table _ _ _ _ q x I); [by right|done].
    + by eapply wf_add_table.
    + intros p t Hp'. rewrite Htbl by done. case_decide; [by intros [= <-]|].
      intros Ht Hin. apply (Hd _ _ Hp' Ht). by right.
  - done.
  - intros p t Hp' Ht. rewrite Htbl by done. rewrite decide_False; [done|]. by intros ->; rewrite Hn in Ht.
  - intros p t Hp'. rewrite Htbl by done. case_decide; [|tauto].
    intros [= <-]. right. by left.
  - intros q ->%list_elem_of_singleton. exists (i :: path). rewrite Htbl by done.
    by rewrite decide_True.
  - intros x Hx Hq. apply Hmem; [done|]. apply Hq. by left.
Qed.

Lemma PX_half va : 0 ≤ va < MAXVA → PX 2 va < 256.
Proof. intros Hva. pose proof (PX_vpn va Hva). pose proof (PX_range 1 va). pose proof (PX_range 0 va). mlia. Qed.

Lemma walk_level_true level s root va l pt :
  (level ≤ 2)%nat → 0 ≤ va < MAXVA → hart_ok s → lock_free s LkKmem →
  vm_inv (physmem s) (freelist s) root l →
  tbl (physmem s) root (drop level (vpath va)) = Some pt →
  ∃ r m' fl' used l',
    walk_level level pt va true s = Ret r (with_mem s m' fl') ∧
    grown (physmem s) m' fl' root l used l' ∧
    (∀ va', leaf m' root va' = leaf (physmem s) root va') ∧
    ((r = 0 ∧ l' = [] ∧ (length l < level)%nat) ∨
     ∃ t, tbl m' root (vpath va) = Some t ∧ r = t + 8 * PX 0 va ∧ (length used ≤ level)%nat).
Proof.
  revert s l pt. induction level as [|level IH]; intros s l pt Hlev Hva Hh Hl I Hpt.
  { exists (pt + 8 * PX 0 va), (physmem s), (freelist s), [], l.
    rewrite with_mem_id. split_and!; [done|by apply grown_refl|done|].
    right. exists pt. split_and!; [done|done|cbn; lia]. }
  set (i := PX (Z.of_nat (S level)) va).
  assert (drop level (vpath va) = i :: drop (S level) (vpath va)) as Hdrop
    by (destruct level as [|[|]]; [done|done|lia]).
  assert (path_ok (i :: drop (S level) (vpath va))) as Hpath.
  { rewrite <- Hdrop. destruct (path_ok_vpath va) as [Hlen Hall]. split.
    - rewrite length_drop. lia.
    - by apply Forall_drop. }
  assert (drop (S level) (vpath va) = [] → i < 256) as Hhalf.
  { destruct level as [|level]; [done|]. destruct level; [|lia]. intros _. by apply PX_half. }
  cbn [walk_level]. rewrite (bind_Ret _ _ s (ld64 (physmem s) (pt + 8 * i)) s) by done.
  destruct (Z.land (ld64 (physmem s) (pt + 8 * i)) PTE_V =? 0) eqn:Ev; cbn [negb].
  2:{ destruct (IH s l (PTE2PA (ld64 (physmem s) (pt + 8 * i))))
        as (r & m' & fl' & used & l' & Hr & Hg & Hlf & Hcase); try done; [lia| |].
      - rewrite Hdrop. cbn [tbl]. by rewrite Hpt, Ev.
      - exists r, m', fl', used, l'. split_and!; try done.
        destruct Hcase as [(? & ? & ?)|(t & ? & ? & ?)]; [left|right; exists t]; split_and!; done || lia. }
  assert (tbl (physmem s) root (i :: drop (S level) (vpath va)) = None) as Hnone
    by (cbn [tbl]; by rewrite Hpt, Ev).
  destruct l as [|page l].
  - rewrite (bind_Ret _ _ s 0 s) by (apply kalloc_none; [done|done|apply (vm_free _ _ _ _ I)]).
    exists 0, (physmem s), (freelist s), [], []. rewrite with_mem_id.
    split_and!; [done|by apply grown_refl|done|left; split_and!; [done|done|cbn; lia]].
  - destruct (free_list_cons _ _ _ _ (vm_free _ _ _ _ I)) as (Hhd & Hnz & _).
    rewrite (bind_Ret _ _ s _ _ (kalloc_eq s Hh Hl ltac:(by rewrite Hhd))).
    rewrite Hhd in I |- *. destruct (Z.eqb_spec page 0); [done|].
    destruct (grown_add _ _ _ _ _ _ _ I Hpath Hhalf Hpt Hnone) as (Hg & Hlf & Ht).
    set (m1 := add_table (kalloc_mem (physmem s) page) pt i page) in *.
    set (fl1 := ld64 (physmem s) page) in *.
    rewrite (bind_Ret _ _ _ tt (with_mem s (memset (kalloc_mem (physmem s) page) page 0 PGSIZE) fl1))
      by (unfold kmemset, modify; by rewrite upd_mem_with_mem).
    rewrite (bind_Ret _ _ _ tt (with_mem s m1 fl1))
      by (unfold store64, modify; by rewrite upd_mem_with_mem).
    destruct (IH (with_mem s m1 fl1) l page)
      as (r & m' & fl' & used & l' & Hr & Hg' & Hlf' & Hcase); try done; [lia|apply Hg|by rewrite Hdrop|].
    rewrite with_mem_with_mem in Hr.
    exists r, m', fl', ([page] ++ used), l'. split_and!; [exact Hr|by eapply grown_trans| |].
    + intros va'. rewrite Hlf'. apply Hlf.
    + destruct Hcase as [(? & ? & ?)|(t & ? & ? & ?)]; [left|right; exists t];
        split_and!; try done; cbn; lia.
Qed.

Lemma walk_true s root va l :
  0 ≤ va < MAXVA → hart_ok s → lock_free s LkKmem →
  vm_inv (physmem s) (freelist s) root l →
  ∃ r m' fl' used l',
    walk root va true s = Ret r (with_mem s m' fl') ∧
    grown (physmem s) m' fl' root l used l' ∧
    (∀ va', leaf m' root va' = leaf (physmem s) root va') ∧
    ((r = 0 ∧ l' = [] ∧ (length l < 2)%nat) ∨
     ∃ t, tbl m' root (vpath va) = Some t ∧ r = t + 8 * PX 0 va ∧ (length used ≤ 2)%nat).
Proof.
  intros Hva Hh Hl I. unfold walk. destruct (Z.geb_spec va MAXVA); [lia|].
  by apply walk_level_true.
Qed.
End tables.
