(* ===== verification/VmMap.v ===== *)
(** * kernel/vm.c: mapping and unmapping

    [mappages], [walkaddr], [uvmunmap], [uvmalloc], [uvmdealloc] and [uvmcopy]
    as updates of the map [leaf] from virtual pages to entries. *)

From S2P Require Import Prelude Machine Memory Kstring State Spinlock Kalloc Vm VmTables.

Section map.
Context `{KernelLayout} `{!LayoutOk}.

Definition same_page (va va' : Z) : bool := va / PGSIZE =? va' / PGSIZE.

Lemma same_page_refl va : same_page va va = true.
Proof. apply Z.eqb_refl. Qed.

(** ** Storing an entry of the last level *)

Section set_leaf.
Context (m : mem) (fl root : Z) (l : list Z) (va t v : Z).
Hypothesis I : vm_inv m fl root l.
Hypothesis Hva : 0 ≤ va < MAXVA.
Hypothesis Ht : tbl m root (vpath va) = Some t.
Hypothesis Hv : 0 ≤ v < 2 ^ 64.

Let m' : mem := st64 m (t + 8 * PX 0 va) v.

Lemma set_leaf_outside x : ¬ (t ≤ x < t + PGSIZE) → ld m' x = ld m x.
Proof.
  intros Hx. unfold m'. pose proof (PX_range 0 va). apply ld_st64_ne. mlia.
Qed.

(** The entry lies in a last-level table, which no other path reaches. *)
Lemma set_leaf_upper q u x :
  path_ok q → (length q < 2)%nat → tbl m root q = Some u → u ≤ x < u + PGSIZE →
  ld m' x = ld m x.
Proof.
  intros Hq Hlen Hu Hx. apply set_leaf_outside. pose proof (vm_wf _ _ _ _ I) as Hwf.
  destruct (wf_page _ _ Hwf _ _ Hq Hu) as [Hua _].
  destruct (wf_page _ _ Hwf _ _ (path_ok_vpath va) Ht) as [Hta _].
  intros Hin. destruct (decide (u = t)) as [->|Hne].
  - assert (q = vpath va) as -> by (eapply (wf_inj _ _ Hwf); try done; apply path_ok_vpath).
    cbn in Hlen. lia.
  - by apply (page_disjoint u t x x).
Qed.

Lemma set_leaf_tbl p : path_ok p → tbl m' root p = tbl m root p.
Proof. intros Hp. apply tbl_ext; [done|]. apply set_leaf_upper. Qed.

Lemma set_leaf_leaf va' :
  0 ≤ va' < MAXVA →
  leaf m' root va' = if same_page va va' then v else leaf m root va'.
Proof.
  intros Hva'. unfold leaf. rewrite set_leaf_tbl by apply path_ok_vpath.
  unfold same_page. destruct (Z.eqb_spec (va / PGSIZE) (va' / PGSIZE)) as [E|E].
  - unfold vpath. rewrite <- !(PX_page _ va va') by (done || lia).
    fold (vpath va). rewrite Ht. by apply ld64_st64_small.
  - destruct (tbl m root (vpath va')) as [u|] eqn:Eu; [|done].
    apply ld64_st64_ne. pose proof (PX_range 0 va). pose proof (PX_range 0 va').
    pose proof (vm_wf _ _ _ _ I) as Hwf.
    destruct (wf_page _ _ Hwf _ _ (path_ok_vpath va') Eu) as [Hua _].
    destruct (wf_page _ _ Hwf _ _ (path_ok_vpath va) Ht) as [Hta _].
    destruct (decide (u = t)) as [->|Hne]; [|mlia].
    assert (vpath va = vpath va') as [= E1 E2]
      by (eapply (wf_inj _ _ Hwf); try done; apply path_ok_vpath).
    assert (PX 0 va ≠ PX 0 va'); [|lia]. intros E0. apply E. by apply PX_inj.
Qed.

Lemma set_leaf_inv : vm_inv m' fl root l.
Proof.
  pose proof I as [Hf Hwf Hd]. split.
  - apply free_list_ext with m; [|done]. intros q x Hq Hx. apply set_leaf_outside.
    intros Hin. eapply (free_not_table _ _ _ _ q x I); try done.
    exists (vpath va), t. split_and!; [apply path_ok_vpath|done|lia|lia].
  - apply pt_wf_ext with m; [done|]. apply set_leaf_upper.
  - intros p u Hp. rewrite set_leaf_tbl by done. by apply Hd.
Qed.

Lemma set_leaf_mem x : ¬ in_table m root x → ld m' x = ld m x.
Proof.
  intros Hx. apply set_leaf_outside. intros Hin. apply Hx.
  exists (vpath va), t. split_and!; [apply path_ok_vpath|done|lia|lia].
Qed.

Lemma set_leaf_grown : grown m m' fl root l [] l.
Proof.
  split; [apply set_leaf_inv|done| | | |].
  - intros p u Hp. by rewrite set_leaf_tbl.
  - intros p u Hp. rewrite set_leaf_tbl by done. tauto.
  - intros q Hq. by apply elem_of_nil in Hq.
  - intros x Hx _. by apply set_leaf_mem.
Qed.
End set_leaf.

(** ** walkaddr *)

(** The translation of a user address: its entry must be valid and for users. *)
Definition user_pa (m : mem) (root va : Z) : Z :=
  let e := leaf m root va in
  if (Z.land e PTE_V =? 0) || (Z.land e PTE_U =? 0) then 0 else PTE2PA e.

Lemma walkaddr_eq s root va :
  pt_wf (physmem s) root → 0 ≤ va →
  walkaddr root va s = Ret (if va <? MAXVA then user_pa (physmem s) root va else 0) s.
Proof.
  intros Hwf Hva0. unfold walkaddr.
  destruct (Z.geb_spec va MAXVA), (Z.ltb_spec va MAXVA); try lia; [done|].
  run (walk_false s root va ltac:(lia)).
  unfold user_pa, leaf. destruct (tbl (physmem s) root (vpath va)) as [t|] eqn:Et.
  - assert (valid_page t) as Hv by (eapply wf_page; [done|apply path_ok_vpath|done]).
    apply valid_page_range in Hv as [Hv _]. pose proof (PX_range 0 va).
    destruct (Z.eqb_spec (t + 8 * PX 0 va) 0); [lia|].
    unfold load64, gets, bind. cbn [obind].
    destruct (Z.land (ld64 (physmem s) (t + 8 * PX 0 va)) PTE_V =? 0); cbn [orb]; [done|].
    by destruct (Z.land (ld64 (physmem s) (t + 8 * PX 0 va)) PTE_U =? 0).
  - cbn [Z.eqb Z.land orb]. done.
Qed.

(** ** mappages *)

(** The entry [mappages] installs for a physical address. *)
Definition mk_pte (pa perm : Z) : Z := Z.lor (Z.lor (PA2PTE pa) perm) PTE_V.

Lemma mk_pte_range pa perm : 0 ≤ perm < 2 ^ 10 → 0 ≤ mk_pte pa perm < 2 ^ 64.
Proof.
  intros Hp. unfold mk_pte. apply lor_range; [lia| |done].
  apply lor_range; [lia|apply PA2PTE_range|lia].
Qed.

Lemma mk_pte_valid pa perm :
  0 ≤ pa < 2 ^ 56 → 0 ≤ perm < 2 ^ 10 → Z.land (mk_pte pa perm) PTE_V = PTE_V.
Proof. intros Hpa Hp. unfold mk_pte. rewrite <- Z.lor_assoc. by apply land_V_mk. Qed.

Lemma PTE2PA_mk_pte pa perm :
  0 ≤ pa < 2 ^ 56 → pa mod PGSIZE = 0 → 0 ≤ perm < 2 ^ 10 → PTE2PA (mk_pte pa perm) = pa.
Proof.
  intros Hpa Hal Hp. unfold mk_pte. rewrite <- Z.lor_assoc.
  apply PTE2PA_mk; [done|done|]. apply lor_range; [lia|done|done].
Qed.

(** Pages [vp .. vp + k) are mapped to consecutive frames from [pa]. *)
Definition mapped_leaf (vp k pa perm : Z) (old : Z) (va : Z) : Z :=
  if (vp <=? va / PGSIZE) && (va / PGSIZE <? vp + k)
  then mk_pte (pa + (va / PGSIZE - vp) * PGSIZE) perm else old.

Lemma mapped_leaf_none vp pa perm old va : mapped_leaf vp 0 pa perm old va = old.
Proof.
  unfold mapped_leaf.
  by destruct (Z.leb_spec vp (va / PGSIZE)), (Z.ltb_spec (va / PGSIZE) (vp + 0)); try lia.
Qed.

Lemma mapped_leaf_one a pa perm old va :
  mapped_leaf (a / PGSIZE) 1 pa perm old va = if same_page a va then mk_pte pa perm else old.
Proof.
  unfold mapped_leaf, same_page. set (x := a / PGSIZE). set (y := va / PGSIZE).
  destruct (Z.leb_spec x y), (Z.ltb_spec y (x + 1)), (Z.eqb_spec x y); try lia; try done.
  cbn [andb]. f_equal. lia.
Qed.

Lemma mapped_leaf_S a k pa perm old va :
  a mod PGSIZE = 0 → 0 ≤ k →
  mapped_leaf ((a + PGSIZE) / PGSIZE) k (pa + PGSIZE) perm
    (if same_page a va then mk_pte pa perm else old) va
  = mapped_leaf (a / PGSIZE) (k + 1) pa perm old va.
Proof.
  intros Hal Hk. unfold mapped_leaf, same_page.
  replace ((a + PGSIZE) / PGSIZE) with (a / PGSIZE + 1) by mlia.
  set (x := a / PGSIZE). set (y := va / PGSIZE).
  destruct (Z.leb_spec x y), (Z.ltb_spec y (x + (k + 1))), (Z.leb_spec (x + 1) y),
    (Z.ltb_spec y (x + 1 + k)), (Z.eqb_spec x y); try lia; try done; cbn [andb];
    f_equal; lia.
Qed.

Lemma same_page_false a va :
  a mod PGSIZE = 0 → a + PGSIZE ≤ va → same_page a va = false.
Proof. intros Hal Hv. apply Z.eqb_neq. mlia. Qed.

Lemma mappages_step_eq s root last perm a pa l :
  hart_ok s → lock_free s LkKmem → vm_inv (physmem s) (freelist s) root l →
  0 ≤ a < MAXVA → 0 ≤ perm < 2 ^ 10 → leaf (physmem s) root a = 0 →
  ∃ m' fl' used l',
    grown (physmem s) m' fl' root l used l' ∧
    ((mappages_step root last perm (a, pa) s = Ret (inr (-1)) (with_mem s m' fl') ∧ (l' = [] ∧ (length l < 2)%nat) ∧
      ∀ va, 0 ≤ va < MAXVA → leaf m' root va = leaf (physmem s) root va) ∨
     (mappages_step root last perm (a, pa) s =
        Ret (if a =? last then inr 0 else inl (u64 (a + PGSIZE), u64 (pa + PGSIZE)))
          (with_mem s m' fl') ∧ (length used ≤ 2)%nat ∧
      ∀ va, 0 ≤ va < MAXVA →
        leaf m' root va = if same_page a va then mk_pte pa perm else leaf (physmem s) root va)).
Proof.
  intros Hh Hk I Ha Hperm H0a. unfold mappages_step.
  destruct (walk_true s root a l ltac:(lia) Hh Hk I)
    as (r & m1 & fl1 & u1 & l1 & Hw & G1 & L1 & Hr).
  run Hw. destruct Hr as [(-> & -> & Hlen)|(t & Ht & -> & Hlen)].
  { exists m1, fl1, u1, []. split; [done|]. left. split_and!; [done|done|done|]. intros. apply L1. }
  pose proof (g_inv _ _ _ _ _ _ _ G1) as I1.
  assert (valid_page t) as Hv
    by exact (wf_page _ _ (vm_wf _ _ _ _ I1) _ _ (path_ok_vpath a) Ht).
  pose proof (valid_page_range t Hv) as [Hpos _]. pose proof (PX_range 0 a).
  destruct (Z.eqb_spec (t + 8 * PX 0 a) 0); [lia|].
  assert (ld64 m1 (t + 8 * PX 0 a) = 0) as E0.
  { pose proof (L1 a) as E. unfold leaf in E at 1. rewrite Ht in E. by rewrite E. }
  unfold load64, store64, gets, modify, bind. cbn [obind].
  rewrite physmem_with_mem, E0. change (Z.land 0 PTE_V =? 0) with true. cbn [negb].
  rewrite upd_mem_with_mem.
  exists (st64 m1 (t + 8 * PX 0 a) (mk_pte pa perm)), fl1, u1, l1. split.
  - rewrite <- (app_nil_r u1). eapply grown_trans; [exact G1|].
    apply set_leaf_grown; try done. by apply mk_pte_range.
  - right. split_and!; [by destruct (a =? last)|done|].
    intros va Hva. rewrite (set_leaf_leaf m1 fl1 root l1) by (done || by apply mk_pte_range).
    by rewrite L1.
Qed.

(** The loop of [mappages] over [n + 1] pages: it maps them all, or stops when
    the allocator cannot give a table page, with the first [k] mapped. *)
Lemma mappages_run n s root perm a pa l :
  hart_ok s → lock_free s LkKmem → vm_inv (physmem s) (freelist s) root l →
  0 ≤ a → a mod PGSIZE = 0 → a + Z.of_nat n * PGSIZE < MAXVA →
  0 ≤ pa → pa + Z.of_nat n * PGSIZE < 2 ^ 56 → 0 ≤ perm < 2 ^ 10 →
  (∀ va, a ≤ va < a + (Z.of_nat n + 1) * PGSIZE → leaf (physmem s) root va = 0) →
  ∃ r m' fl' used l' k,
    run_n (S n) (mappages_step root (a + Z.of_nat n * PGSIZE) perm) (a, pa) s
      = Ret (inr r) (with_mem s m' fl') ∧
    grown (physmem s) m' fl' root l used l' ∧
    (∀ va, 0 ≤ va < MAXVA →
       leaf m' root va = mapped_leaf (a / PGSIZE) k pa perm (leaf (physmem s) root va) va) ∧
    ((r = 0 ∧ k = Z.of_nat n + 1 ∧ (length used ≤ 2 * (n + 1))%nat) ∨
     (r = -1 ∧ 0 ≤ k ≤ Z.of_nat n ∧ l' = [] ∧ (length l < 2 * (n + 1))%nat)).
Proof.
  revert s a pa l. induction n as [|n IH];
    intros s a pa l Hh Hk I Ha Hal Hlast Hpa Hpal Hperm Hz.
  - rewrite Z.mul_0_l, Z.add_0_r in *.
    destruct (mappages_step_eq s root a perm a pa l)
      as (m1 & fl1 & u1 & l1 & G1 & [(Hs & [-> Hlen] & L1)|(Hs & Hlen & L1)]); try done; [apply Hz; mlia| |].
    + exists (-1), m1, fl1, u1, [], 0. split_and!; [by apply run_n_stop|done| |].
      * intros va Hva. by rewrite mapped_leaf_none, L1.
      * right. split_and!; done || lia.
    + rewrite Z.eqb_refl in Hs.
      exists 0, m1, fl1, u1, l1, 1. split_and!; [by apply run_n_stop|done| |left; split_and!; done || lia].
      intros va Hva. rewrite L1 by done. by rewrite mapped_leaf_one.
  - remember (a + Z.of_nat (S n) * PGSIZE) as last eqn:Elast.
    destruct (mappages_step_eq s root last perm a pa l)
      as (m1 & fl1 & u1 & l1 & G1 & [(Hs & [-> Hlen] & L1)|(Hs & Hlen & L1)]); try done;
      [mlia|apply Hz; mlia| |].
    { exists (-1), m1, fl1, u1, [], 0. split_and!; [by apply run_n_stop|done| |].
      * intros va Hva. by rewrite mapped_leaf_none, L1.
      * right. split_and!; done || lia. }
    assert ((a =? last) = false) as E by (apply Z.eqb_neq; mlia). rewrite E in Hs.
    rewrite !u64_small in Hs by mlia.
    destruct (IH (with_mem s m1 fl1) (a + PGSIZE) (pa + PGSIZE) l1)
      as (r & m' & fl' & u2 & l' & k & Hr & G2 & L2 & Hres);
      [done|done|apply G1|mlia..|done| |].
    { intros va Hva. rewrite physmem_with_mem, L1 by mlia.
      rewrite same_page_false by mlia. apply Hz. mlia. }
    replace (a + PGSIZE + Z.of_nat n * PGSIZE) with last in Hr by lia.
    exists r, m', fl', (u1 ++ u2), l', (k + 1). split_and!.
    + rewrite (run_n_next _ _ _ _ _ _ Hs). etransitivity; [exact Hr|].
      by rewrite with_mem_with_mem.
    + eapply grown_trans; [exact G1|exact G2].
    + intros va Hva. rewrite L2, physmem_with_mem, L1 by done.
      apply mapped_leaf_S; [done|lia].
    + pose proof (f_equal length (g_split _ _ _ _ _ _ _ G1)) as Hl. rewrite length_app in Hl.
      rewrite length_app.
      destruct Hres as [(-> & -> & ?)|(-> & Hk' & -> & ?)]; [left; lia|].
      right. split_and!; done || lia.
Qed.

(** The number of pages [mappages] works on. *)
Definition span (va size : Z) : Z := (va + size - 1) / PGSIZE - va / PGSIZE + 1.

Lemma mappages_eq s root va size pa perm l :
  hart_ok s → lock_free s LkKmem → vm_inv (physmem s) (freelist s) root l →
  0 ≤ va → 0 < size → va + size ≤ MAXVA →
  0 ≤ pa → pa + span va size * PGSIZE ≤ 2 ^ 56 → 0 ≤ perm < 2 ^ 10 →
  (∀ x, PGROUNDDOWN va ≤ x < PGROUNDDOWN va + span va size * PGSIZE →
     leaf (physmem s) root x = 0) →
  ∃ r m' fl' used l' k,
    mappages root va size pa perm s = Ret r (with_mem s m' fl') ∧
    grown (physmem s) m' fl' root l used l' ∧
    (∀ x, 0 ≤ x < MAXVA →
       leaf m' root x = mapped_leaf (va / PGSIZE) k pa perm (leaf (physmem s) root x) x) ∧
    ((r = 0 ∧ k = span va size ∧ Z.of_nat (length used) ≤ 2 * span va size) ∨
     (r = -1 ∧ 0 ≤ k < span va size ∧ l' = [] ∧ Z.of_nat (length l) < 2 * span va size)).
Proof.
  intros Hh Hk I Hva Hsz Hmax Hpa Hpam Hperm Hz. unfold mappages.
  destruct (Z.eqb_spec size 0) as [|_]; [lia|]. rewrite u64_small by mlia.
  rewrite !PGROUNDDOWN_eq in * by mlia. unfold span in *.
  set (n := Z.to_nat ((va + size - 1) / PGSIZE - va / PGSIZE)).
  assert (Z.of_nat n = (va + size - 1) / PGSIZE - va / PGSIZE) as En
    by (apply Z2Nat.id; mlia).
  replace (PGSIZE * ((va + size - 1) / PGSIZE))
    with (PGSIZE * (va / PGSIZE) + Z.of_nat n * PGSIZE) by (rewrite En; lia).
  rewrite <- En in *.
  destruct (mappages_run n s root perm (PGSIZE * (va / PGSIZE)) pa l)
    as (r & m' & fl' & u & l' & k & Hr & G & L & Hres); try done; try mlia.
  exists r, m', fl', u, l', k. split_and!; [|done| |].
  - apply (loop_Ret _ (S n)); [mlia|exact Hr].
  - intros x Hx. rewrite L by done. f_equal. mlia.
  - destruct Hres as [(-> & -> & ?)|(-> & Hk' & -> & ?)]; [left; lia|].
    right. split_and!; done || lia.
Qed.

(** ** uvmunmap *)

(** The frames mapped at the [n] pages from [a] up. *)
Definition upages (m : mem) (root a : Z) (n : nat) : list Z :=
  (λ i : nat, PTE2PA (leaf m root (a + Z.of_nat i * PGSIZE))) <$> seq 0 n.

(** Those pages are mapped by leaf entries. *)
Definition mapped (m : mem) (root a : Z) (n : nat) : Prop :=
  ∀ i : nat, (i < n)%nat →
    let e := leaf m root (a + Z.of_nat i * PGSIZE) in
    Z.land e PTE_V ≠ 0 ∧ PTE_FLAGS e ≠ PTE_V.

(** The frames are the address space's own: distinct allocatable pages, not
    free and not used as tables. *)
Record owned (m : mem) (root : Z) (l : list Z) (a : Z) (n : nat) : Prop := {
  ow_nodup : NoDup (upages m root a n);
  ow_valid : Forall valid_page (upages m root a n);
  ow_free : ∀ q, q ∈ upages m root a n → q ∉ l;
  ow_tbl : ∀ p t, path_ok p → tbl m root p = Some t → t ∉ upages m root a n
}.

Lemma upages_S m root a n :
  upages m root a (S n) = PTE2PA (leaf m root a) :: upages m root (a + PGSIZE) n.
Proof.
  unfold upages. cbn [seq fmap list_fmap]. f_equal; [by rewrite Z.mul_0_l, Z.add_0_r|].
  rewrite <- fmap_S_seq, <- list_fmap_compose. apply list_fmap_ext.
  intros i x _. cbn. f_equal. f_equal. lia.
Qed.

Lemma elem_of_upages m root a n q :
  q ∈ upages m root a n ↔
  ∃ i : nat, (i < n)%nat ∧ q = PTE2PA (leaf m root (a + Z.of_nat i * PGSIZE)).
Proof.
  unfold upages. rewrite list_elem_of_fmap. split.
  - intros (i & -> & Hi%elem_of_seq). exists i. split; [lia|done].
  - intros (i & Hi & ->). exists i. split; [done|]. apply elem_of_seq. lia.
Qed.

Lemma upages_ext m m' root a n :
  (∀ i : nat, (i < n)%nat →
     leaf m' root (a + Z.of_nat i * PGSIZE) = leaf m root (a + Z.of_nat i * PGSIZE)) →
  upages m' root a n = upages m root a n.
Proof.
  intros E. apply list_fmap_ext. intros i x Hx.
  apply lookup_seq in Hx as [-> Hi]. rewrite E; [done|lia].
Qed.

(** The tables are as they were; [freed] went to the free list. *)
Record shrunk (m m' : mem) (fl' root : Z) (l freed : list Z) : Prop := {
  sh_inv : vm_inv m' fl' root (freed ++ l);
  sh_tbl : ∀ p, path_ok p → tbl m' root p = tbl m root p;
  sh_mem : ∀ x, ¬ in_table m root x →
    (∀ q, q ∈ freed → ¬ (q ≤ x < q + PGSIZE)) → ld m' x = ld m x
}.

Lemma in_table_tbl m m' root x :
  (∀ p, path_ok p → tbl m' root p = tbl m root p) → in_table m' root x ↔ in_table m root x.
Proof.
  intros E. unfold in_table. split; intros (p & t & Hp & Ht & Hx); exists p, t;
    rewrite E in * by done; done.
Qed.

Lemma shrunk_refl m fl root l : vm_inv m fl root l → shrunk m m fl root l [].
Proof. intros I. by split. Qed.

Lemma shrunk_trans m1 m2 m3 fl2 fl3 root l f1 f2 :
  shrunk m1 m2 fl2 root l f1 → shrunk m2 m3 fl3 root (f1 ++ l) f2 →
  shrunk m1 m3 fl3 root l (f2 ++ f1).
Proof.
  intros [I1 T1 M1] [I2 T2 M2]. split.
  - by rewrite <- app_assoc.
  - intros p Hp. by rewrite T2, T1.
  - intros x Hx Hq. rewrite M2, M1; [done|done| | |].
    + intros q Hq'. apply Hq. apply elem_of_app. by right.
    + by rewrite (in_table_tbl m1).
    + intros q Hq'. apply Hq. apply elem_of_app. by left.
Qed.

(** Freeing a page that is neither free nor a table. *)
Lemma free_data m fl root l pa :
  vm_inv m fl root l → valid_page pa → pa ∉ l →
  (∀ p t, path_ok p → tbl m root p = Some t → t ≠ pa) →
  shrunk m (kfree_mem m fl pa) pa root l [pa] ∧
  ∀ va, leaf (kfree_mem m fl pa) root va = leaf m root va.
Proof.
  intros [Hf Hwf Hd] Hpa Hn Hnt.
  assert (∀ p t x, path_ok p → tbl m root p = Some t → t ≤ x < t + PGSIZE →
            ld (kfree_mem m fl pa) x = ld m x) as Hext.
  { intros p t x Hp Ht Hx. apply ld_kfree_mem. intros Hin.
    destruct (wf_page _ _ Hwf _ _ Hp Ht) as [Hta _]. destruct Hpa as [Hpaa _].
    apply (page_disjoint t pa x x); try done. by eapply Hnt. }
  assert (∀ p, path_ok p → tbl (kfree_mem m fl pa) root p = tbl m root p) as Ht.
  { intros p Hp. apply tbl_ext; [done|]. intros q t x Hq _. by apply Hext. }
  split; [split|].
  - split.
    + by apply kfree_free_list.
    + apply pt_wf_ext with m; [done|]. intros q t x Hq _. by apply Hext.
    + intros p t Hp. rewrite Ht by done. intros E. cbn. apply not_elem_of_cons.
      split; [by eapply Hnt|by eapply Hd].
  - done.
  - intros x _ Hq. apply ld_kfree_mem. apply Hq. by left.
  - intros va. unfold leaf. rewrite Ht by apply path_ok_vpath.
    destruct (tbl m root (vpath va)) as [t|] eqn:E; [|done].
    pose proof (PX_range 0 va). apply ld64_ext. intros x Hx.
    eapply Hext; [apply path_ok_vpath|done|mlia].
Qed.

Lemma set_leaf_shrunk m fl root l va t v :
  vm_inv m fl root l → 0 ≤ va < MAXVA → tbl m root (vpath va) = Some t → 0 ≤ v < 2 ^ 64 →
  shrunk m (st64 m (t + 8 * PX 0 va) v) fl root l [].
Proof.
  intros I Hva Ht Hv. split.
  - by apply set_leaf_inv.
  - intros p Hp. by apply (set_leaf_tbl m fl root l).
  - intros x Hx _. by apply (set_leaf_mem m root).
Qed.

(** Clearing a mapped entry, with or without freeing its frame. *)
Lemma uvmunmap_step_eq s root stop (do_free : bool) a l :
  hart_ok s → lock_free s LkKmem → vm_inv (physmem s) (freelist s) root l →
  0 ≤ a < MAXVA → a < stop → mapped (physmem s) root a 1 →
  (do_free = true → owned (physmem s) root l a 1) →
  ∃ m' fl',
    uvmunmap_step root stop do_free a s = Ret (inl (u64 (a + PGSIZE))) (with_mem s m' fl') ∧
    shrunk (physmem s) m' fl' root l
      (if do_free then [PTE2PA (leaf (physmem s) root a)] else []) ∧
    ∀ va, 0 ≤ va < MAXVA →
      leaf m' root va = if same_page a va then 0 else leaf (physmem s) root va.
Proof.
  intros Hh Hk I Ha Hstop Hm Hown. specialize (Hm 0%nat ltac:(lia)) as [HV Hfl].
  rewrite Z.mul_0_l, Z.add_0_r in *. unfold uvmunmap_step.
  destruct (Z.ltb_spec a stop); [|lia].
  run (walk_false s root a ltac:(lia)).
  destruct (tbl (physmem s) root (vpath a)) as [t|] eqn:Et.
  2:{ exfalso. apply HV. unfold leaf. rewrite Et. apply Z.land_0_l. }
  assert (leaf (physmem s) root a = ld64 (physmem s) (t + 8 * PX 0 a)) as Ee
    by (unfold leaf; by rewrite Et).
  assert (valid_page t) as Hv by exact (wf_page _ _ (vm_wf _ _ _ _ I) _ _ (path_ok_vpath a) Et).
  pose proof (valid_page_range t Hv) as [Hpos _]. pose proof (PX_range 0 a) as HPX.
  destruct (Z.eqb_spec (t + 8 * PX 0 a) 0); [lia|].
  rewrite (bind_Ret _ _ s (leaf (physmem s) root a) s) by (rewrite Ee; done).
  rewrite (proj2 (Z.eqb_neq _ _) HV), (proj2 (Z.eqb_neq _ _) Hfl).
  destruct do_free; cbn [when].
  - destruct (Hown eq_refl) as [_ Hval Hnf Hnt].
    rewrite upages_S in Hval, Hnf, Hnt. apply Forall_cons in Hval as [Hval _].
    assert (PTE2PA (leaf (physmem s) root a) ∉ l) as Hnl by (apply Hnf; by left).
    destruct (free_data (physmem s) (freelist s) root l (PTE2PA (leaf (physmem s) root a)))
      as [Sh L]; try done.
    { intros p t' Hp Ht' ->. eapply Hnt; [done|done|by left]. }
    set (m1 := kfree_mem _ _ _) in *.
    run (kfree_eq s _ Hh Hk Hval).
    rewrite (bind_Ret _ _ _ tt (with_mem s (st64 m1 (t + 8 * PX 0 a) 0)
               (PTE2PA (leaf (physmem s) root a)))) by done.
    eexists _, _. split_and!; [done| |].
    + rewrite <- (app_nil_l [_]). eapply shrunk_trans; [exact Sh|].
      apply set_leaf_shrunk; [apply Sh|done| |done].
      by rewrite (sh_tbl _ _ _ _ _ _ Sh) by apply path_ok_vpath.
    + intros va Hva. rewrite (set_leaf_leaf m1 _ root _ a t 0 (sh_inv _ _ _ _ _ _ Sh)); try done.
      * by rewrite L.
      * rewrite (sh_tbl _ _ _ _ _ _ Sh) by apply path_ok_vpath. done.
  - rewrite bind_ret_l.
    rewrite (bind_Ret _ _ _ tt (with_mem s (st64 (physmem s) (t + 8 * PX 0 a) 0) (freelist s)))
      by (unfold store64, modify; by rewrite upd_mem_eq).
    eexists _, _. split_and!; [done|by apply set_leaf_shrunk|].
    intros va Hva. by rewrite (set_leaf_leaf (physmem s) (freelist s) root l).
Qed.

Lemma owned_tail m root l a n : owned m root l a (S n) → owned m root l (a + PGSIZE) n.
Proof.
  intros [Hd Hv Hf Ht]. rewrite upages_S in *. split.
  - by apply NoDup_cons in Hd as [_ Hd].
  - by apply Forall_cons in Hv as [_ Hv].
  - intros q Hq. apply Hf. by right.
  - intros p t Hp E Hin. eapply Ht; [done|done|by right].
Qed.

Lemma owned_one m root l a n : owned m root l a (S n) → owned m root l a 1.
Proof.
  intros [Hd Hv Hf Ht]. rewrite upages_S in *.
  apply Forall_cons in Hv as [Hv _]. split; rewrite upages_S; cbn.
  - apply NoDup_singleton.
  - by apply Forall_singleton.
  - intros q Hq%list_elem_of_singleton. apply Hf. rewrite Hq. by left.
  - intros p t Hp E ->%list_elem_of_singleton. eapply Ht; [done|done|by left].
Qed.

(** Clearing the first page of a range keeps what is known of the others. *)
Lemma owned_shrunk m m1 fl1 root l a n (b : bool) :
  owned m root l a (S n) →
  shrunk m m1 fl1 root l (if b then [PTE2PA (leaf m root a)] else []) →
  (∀ i : nat, (i < n)%nat →
     leaf m1 root (a + PGSIZE + Z.of_nat i * PGSIZE)
     = leaf m root (a + PGSIZE + Z.of_nat i * PGSIZE)) →
  owned m1 root ((if b then [PTE2PA (leaf m root a)] else []) ++ l) (a + PGSIZE) n.
Proof.
  intros Hown Sh L. pose proof (owned_tail _ _ _ _ _ Hown) as [Hd Hv Hf Ht].
  destruct Hown as [Hd1 _ _ _]. rewrite upages_S in Hd1. apply NoDup_cons in Hd1 as [Hd1 _].
  split; rewrite (upages_ext m m1) by done; try done.
  - intros q Hq. rewrite elem_of_app. intros [Hin|Hin]; [|by eapply Hf].
    destruct b; [|by apply elem_of_nil in Hin].
    apply list_elem_of_singleton in Hin as ->. done.
  - intros p t Hp. rewrite (sh_tbl _ _ _ _ _ _ Sh) by done. by apply Ht.
Qed.

Definition unmapped_leaf (vp n old va : Z) : Z :=
  if (vp <=? va / PGSIZE) && (va / PGSIZE <? vp + n) then 0 else old.

Lemma unmapped_leaf_none vp old va : unmapped_leaf vp 0 old va = old.
Proof.
  unfold unmapped_leaf.
  by destruct (Z.leb_spec vp (va / PGSIZE)), (Z.ltb_spec (va / PGSIZE) (vp + 0)); try lia.
Qed.

Lemma unmapped_leaf_S a k old va :
  a mod PGSIZE = 0 → 0 ≤ k →
  unmapped_leaf ((a + PGSIZE) / PGSIZE) k (if same_page a va then 0 else old) va
  = unmapped_leaf (a / PGSIZE) (k + 1) old va.
Proof.
  intros Hal Hk. unfold unmapped_leaf, same_page.
  replace ((a + PGSIZE) / PGSIZE) with (a / PGSIZE + 1) by mlia.
  set (x := a / PGSIZE). set (y := va / PGSIZE).
  destruct (Z.leb_spec x y), (Z.ltb_spec y (x + (k + 1))), (Z.leb_spec (x + 1) y),
    (Z.ltb_spec y (x + 1 + k)), (Z.eqb_spec x y); try lia; done.
Qed.

Lemma uvmunmap_run n s root (do_free : bool) a l :
  hart_ok s → lock_free s LkKmem → vm_inv (physmem s) (freelist s) root l →
  0 ≤ a → a mod PGSIZE = 0 → a + Z.of_nat n * PGSIZE ≤ MAXVA →
  mapped (physmem s) root a n →
  (do_free = true → owned (physmem s) root l a n) →
  ∃ m' fl',
    run_n (S n) (uvmunmap_step root (a + Z.of_nat n * PGSIZE) do_free) a s
      = Ret (inr tt) (with_mem s m' fl') ∧
    shrunk (physmem s) m' fl' root l
      (if do_free then reverse (upages (physmem s) root a n) else []) ∧
    ∀ va, 0 ≤ va < MAXVA →
      leaf m' root va
      = unmapped_leaf (a / PGSIZE) (Z.of_nat n) (leaf (physmem s) root va) va.
Proof.
  revert s a l. induction n as [|n IH]; intros s a l Hh Hk I Ha Hal Hmax Hm Hown.
  - exists (physmem s), (freelist s). split_and!.
    + rewrite with_mem_id. apply run_n_stop. unfold uvmunmap_step.
      by destruct (Z.ltb_spec a (a + Z.of_nat 0 * PGSIZE)); [lia|].
    + destruct do_free; by apply shrunk_refl.
    + intros va _. by rewrite unmapped_leaf_none.
  - remember (a + Z.of_nat (S n) * PGSIZE) as stop eqn:Estop.
    destruct (uvmunmap_step_eq s root stop do_free a l) as (m1 & fl1 & Hs & Sh1 & L1);
      try done; [mlia|mlia| |intros E; by eapply owned_one, Hown|].
    { intros i Hi. apply Hm. lia. }
    rewrite u64_small in Hs by mlia.
    assert (∀ i : nat, (i < n)%nat →
      leaf m1 root (a + PGSIZE + Z.of_nat i * PGSIZE)
      = leaf (physmem s) root (a + PGSIZE + Z.of_nat i * PGSIZE)) as L1'.
    { intros i Hi. rewrite L1 by mlia. by rewrite same_page_false by mlia. }
    destruct (IH (with_mem s m1 fl1) (a + PGSIZE)
                ((if do_free then [PTE2PA (leaf (physmem s) root a)] else []) ++ l))
      as (m' & fl' & Hr & Sh2 & L2); [done|done|apply Sh1|mlia..| | |].
    { intros i Hi. rewrite physmem_with_mem, L1' by done.
      specialize (Hm (S i) ltac:(lia)). cbv zeta in Hm.
      by replace (a + Z.of_nat (S i) * PGSIZE) with (a + PGSIZE + Z.of_nat i * PGSIZE) in Hm by lia. }
    { intros ->. by eapply (owned_shrunk (physmem s) m1 fl1 root l a n true); [apply Hown| |]. }
    replace (a + PGSIZE + Z.of_nat n * PGSIZE) with stop in Hr by lia.
    rewrite physmem_with_mem in *. exists m', fl'. split_and!.
    + rewrite (run_n_next _ _ _ _ _ _ Hs). etransitivity; [exact Hr|].
      by rewrite with_mem_with_mem.
    + destruct do_free; [|exact (shrunk_trans _ _ _ _ _ _ _ _ _ Sh1 Sh2)].
      rewrite upages_S, reverse_cons, <- (upages_ext (physmem s) m1) by done.
      exact (shrunk_trans _ _ _ _ _ _ _ _ _ Sh1 Sh2).
    + intros va Hva. rewrite L2, L1 by done. rewrite unmapped_leaf_S by (done || lia).
      f_equal. lia.
Qed.

Lemma uvmunmap_eq s root a (n : nat) (do_free : bool) l :
  hart_ok s → lock_free s LkKmem → vm_inv (physmem s) (freelist s) root l →
  0 ≤ a → a mod PGSIZE = 0 → a + Z.of_nat n * PGSIZE ≤ MAXVA →
  mapped (physmem s) root a n →
  (do_free = true → owned (physmem s) root l a n) →
  ∃ m' fl',
    uvmunmap root a (Z.of_nat n) do_free s = Ret tt (with_mem s m' fl') ∧
    shrunk (physmem s) m' fl' root l
      (if do_free then reverse (upages (physmem s) root a n) else []) ∧
    ∀ va, 0 ≤ va < MAXVA →
      leaf m' root va
      = unmapped_leaf (a / PGSIZE) (Z.of_nat n) (leaf (physmem s) root va) va.
Proof.
  intros Hh Hk I Ha Hal Hmax Hm Hown.
  destruct (uvmunmap_run n s root do_free a l) as (m' & fl' & Hr & Sh & L); try done.
  exists m', fl'. split_and!; [|done|done]. unfold uvmunmap. rewrite Hal, u64_small by mlia.
  apply (loop_Ret _ (S n)); [mlia|exact Hr].
Qed.
End map.
