(* ===== verification/VmSpace.v ===== *)
(** * kernel/vm.c: user address spaces

    [uvm m fl root l n]: the page table [root] maps exactly the first [n] user
    pages, each to a frame of its own.  [uvmalloc], [uvmdealloc] and [uvmcopy]
    keep this, and lose no page when they fail half way. *)

From S2P Require Import Prelude Machine Memory Kstring State Spinlock Kalloc Vm VmTables VmMap.

Section space.
Context `{KernelLayout} `{!LayoutOk}.

Record uvm (m : mem) (fl root : Z) (l : list Z) (n : nat) : Prop := {
  u_inv : vm_inv m fl root l;
  u_mapped : mapped m root 0 n;
  u_owned : owned m root l 0 n;
  u_above : ∀ va, Z.of_nat n * PGSIZE ≤ va < TRAPFRAME → leaf m root va = 0;
  u_size : Z.of_nat n * PGSIZE ≤ TRAPFRAME
}.

(** The byte a user reads at [va]. *)
Definition uview (m : mem) (root va : Z) : Z :=
  ld m (PTE2PA (leaf m root va) + va mod PGSIZE).

Definition is_table (m : mem) (root q : Z) : Prop :=
  ∃ p, path_ok p ∧ tbl m root p = Some q.

Lemma leaf_page m root va va' :
  0 ≤ va < MAXVA → 0 ≤ va' < MAXVA → va / PGSIZE = va' / PGSIZE →
  leaf m root va = leaf m root va'.
Proof.
  intros Hva Hva' E. unfold leaf, vpath. by rewrite !(PX_page _ va va') by (done || lia).
Qed.

Lemma elem_upages m root n va :
  0 ≤ va < Z.of_nat n * PGSIZE → Z.of_nat n * PGSIZE ≤ MAXVA →
  PTE2PA (leaf m root va) ∈ upages m root 0 n.
Proof.
  intros Hva Hn. apply elem_of_upages. exists (Z.to_nat (va / PGSIZE)).
  split; [mlia|]. f_equal. apply leaf_page; rewrite ?Z2Nat.id; mlia.
Qed.

Lemma upages_app m root a n k :
  upages m root a (n + k) = upages m root a n ++ upages m root (a + Z.of_nat n * PGSIZE) k.
Proof.
  revert a. induction n as [|n IH]; intros a.
  - by rewrite Z.mul_0_l, Z.add_0_r.
  - cbn [Nat.add]. rewrite !upages_S, IH. cbn. f_equal. f_equal. f_equal. lia.
Qed.

(** A change outside the tables and the free pages. *)
Lemma vm_ext m m1 fl root l :
  vm_inv m fl root l →
  (∀ x, in_table m root x → ld m1 x = ld m x) →
  (∀ q x, q ∈ l → q ≤ x < q + PGSIZE → ld m1 x = ld m x) →
  vm_inv m1 fl root l ∧ (∀ p, path_ok p → tbl m1 root p = tbl m root p) ∧
  ∀ va, leaf m1 root va = leaf m root va.
Proof.
  intros [Hf Hwf Hd] Ht Hq.
  assert (∀ p, path_ok p → tbl m1 root p = tbl m root p) as E.
  { intros p Hp. apply tbl_ext; [done|]. intros q t x Hq' _ Et Hx. apply Ht. by exists q, t. }
  split_and!; [|done|].
  - split; [by apply free_list_ext with m| |].
    + apply pt_wf_ext with m; [done|]. intros q t x Hq' _ Et Hx. apply Ht. by exists q, t.
    + intros p t Hp. rewrite E by done. by apply Hd.
  - intros va. unfold leaf. rewrite E by apply path_ok_vpath.
    destruct (tbl m root (vpath va)) as [t|] eqn:Et; [|done].
    apply ld64_ext. intros x Hx. apply Ht. exists (vpath va), t.
    pose proof (PX_range 0 va). split_and!; [apply path_ok_vpath|done|mlia|mlia].
Qed.

(** The same for a page table alone. *)
Lemma leaf_ext m m1 root va :
  (∀ x, in_table m root x → ld m1 x = ld m x) → leaf m1 root va = leaf m root va.
Proof.
  intros Ht. unfold leaf. rewrite (tbl_ext m m1) by
    (apply path_ok_vpath || (intros q t x Hq _ Et Hx; apply Ht; by exists q, t)).
  destruct (tbl m root (vpath va)) as [t|] eqn:Et; [|done].
  apply ld64_ext. intros x Hx. apply Ht. exists (vpath va), t.
  pose proof (PX_range 0 va). split_and!; [apply path_ok_vpath|done|mlia|mlia].
Qed.

(** Taking the first free page for data and filling it. *)
Lemma alloc_data m m1 root p l :
  vm_inv m p root (p :: l) →
  (∀ x, ¬ (p ≤ x < p + PGSIZE) → ld m1 x = ld m x) →
  vm_inv m1 (ld64 m p) root l ∧ (∀ q, path_ok q → tbl m1 root q = tbl m root q) ∧
  ∀ va, leaf m1 root va = leaf m root va.
Proof.
  intros I Hm1. pose proof I as [Hf Hwf Hd].
  destruct (free_list_cons _ _ _ _ Hf) as (_ & _ & [Hpa _] & Hn).
  assert (vm_inv m (ld64 m p) root l) as I'.
  { split; [|done|].
    - destruct Hf as ([_ Hc] & Hnd & Hv). apply NoDup_cons in Hnd as [_ Hnd].
      apply Forall_cons in Hv as [_ Hv]. by split_and!.
    - intros q t Hq Ht Hin. apply (Hd _ _ Hq Ht). by right. }
  apply vm_ext; [done| |].
  - intros x Hx. apply Hm1. intros Hin.
    eapply (free_not_table _ _ _ _ p x I); [by left|done|done].
  - intros q x Hq Hx. apply Hm1. intros Hin.
    assert (valid_page q) as [Hqa _] by (eapply free_list_valid; [apply Hf|by right]).
    apply (page_disjoint p q x x); try done. by intros ->.
Qed.

(** ** An empty page table: one zeroed page *)

Lemma tbl_zero_root m root p :
  path_ok p → (∀ x, root ≤ x < root + PGSIZE → ld m x = 0) →
  tbl m root p = if decide (p = []) then Some root else None.
Proof.
  intros Hp Hz. induction p as [|i p IH]; [done|].
  destruct (path_ok_tail _ _ Hp) as [Hp' Hi]. cbn [tbl]. rewrite IH by done.
  rewrite (decide_False (P := i :: p = [])) by done.
  case_decide; [|done]. rewrite ld64_zero; [done|]. intros x Hx. apply Hz. mlia.
Qed.

Lemma uvm_zero_root m fl root l :
  free_list m fl l → valid_page root → root ∉ l →
  (∀ x, root ≤ x < root + PGSIZE → ld m x = 0) →
  uvm m fl root l 0 ∧ (∀ va, leaf m root va = 0) ∧ ∀ q, is_table m root q → q = root.
Proof.
  intros Hf Hv Hn Hz.
  assert (∀ p t, path_ok p → tbl m root p = Some t → p = [] ∧ t = root) as T.
  { intros p t Hp. rewrite tbl_zero_root by done. case_decide; [by intros [= <-]|done]. }
  assert (∀ va, leaf m root va = 0) as L.
  { intros va. unfold leaf. by rewrite tbl_zero_root by (done || apply path_ok_vpath). }
  split_and!; [|done|].
  - split; [|intros i Hi; lia| |by intros|by unfold TRAPFRAME, TRAMPOLINE, MAXVA].
    + split; [done| |].
      * split; [by intros p t Hp [_ ->]%T| | |].
        -- by intros p q t Hp Hq [-> _]%T [-> _]%T.
        -- intros p i t Hp Et. destruct (path_ok_tail _ _ Hp) as [Hp' Hi].
           apply T in Et as [_ ->]; [|done]. rewrite ld64_zero; [done|].
           intros x Hx. apply Hz. mlia.
        -- intros k Hk. rewrite tbl_zero_root by
             (done || (apply path_ok_cons; [cbn; lia|apply path_ok_nil|lia])). done.
      * by intros p t Hp [_ ->]%T.
    + split; [constructor|constructor| |].
      * intros q Hq. by apply elem_of_nil in Hq.
      * intros p t _ _ Hin. by apply elem_of_nil in Hin.
  - intros q (p & Hp & Et). by apply T in Et as [_ ->].
Qed.

(** ** How a page table and the free list evolve

    From [m] to [m'], pages moved from the free list [l] into the address
    space or back; memory outside both is unchanged. *)
Record evolves (m m' : mem) (root : Z) (l l' : list Z) : Prop := {
  ev_keep : ∀ p t, path_ok p → tbl m root p = Some t → tbl m' root p = Some t;
  ev_new : ∀ p t, path_ok p → tbl m' root p = Some t → tbl m root p = Some t ∨ t ∈ l;
  ev_sub : ∀ q, q ∈ l' → q ∈ l;
  ev_mem : ∀ x, ¬ in_table m root x →
    (∀ q, q ∈ l → ¬ (q ≤ x < q + PGSIZE)) → ld m' x = ld m x
}.

Lemma evolves_refl m root l : evolves m m root l l.
Proof. split; try done; tauto. Qed.

(** A byte outside the old tables and free pages is outside the new tables. *)
Lemma evolves_not_table m m' root l l' x :
  evolves m m' root l l' → ¬ in_table m root x →
  (∀ q, q ∈ l → ¬ (q ≤ x < q + PGSIZE)) → ¬ in_table m' root x.
Proof.
  intros [_ N _ _] Hx Hq (p & t & Hp & Ht & Hin).
  destruct (N _ _ Hp Ht) as [Ht'|Ht']; [|by eapply Hq].
  apply Hx. by exists p, t.
Qed.

Lemma evolves_trans m1 m2 m3 root l1 l2 l3 :
  evolves m1 m2 root l1 l2 → evolves m2 m3 root l2 l3 → evolves m1 m3 root l1 l3.
Proof.
  intros E1 E2. pose proof E1 as [K1 N1 S1 M1]. destruct E2 as [K2 N2 S2 M2]. split.
  - eauto.
  - intros p t Hp Ht. destruct (N2 _ _ Hp Ht); [eauto|right; eauto].
  - eauto.
  - intros x Hx Hq. rewrite M2; [by apply M1| |eauto].
    by apply (evolves_not_table m1 m2 root l1 l2).
Qed.

Lemma grown_evolves m m' fl' root l used l' :
  grown m m' fl' root l used l' → evolves m m' root l l'.
Proof.
  intros [I -> K N U M]. split; [done| | |].
  - intros p t Hp Ht. destruct (N _ _ Hp Ht); [by left|right; apply elem_of_app; by left].
  - intros q Hq. apply elem_of_app. by right.
  - intros x Hx Hq. apply M; [done|]. intros q Hq'. apply Hq, elem_of_app. by left.
Qed.

(** Pages given back were free at the start. *)
Lemma shrunk_evolves m0 m m' fl' root l0 l freed :
  evolves m0 m root l0 l → shrunk m m' fl' root l freed →
  (∀ q, q ∈ freed → q ∈ l0) → evolves m0 m' root l0 (freed ++ l).
Proof.
  intros E [I T M] Hfr. pose proof E as [K N S M0]. split.
  - intros p t Hp Ht. rewrite T by done. eauto.
  - intros p t Hp. rewrite T by done. eauto.
  - intros q [Hq|Hq]%elem_of_app; eauto.
  - intros x Hx Hq. rewrite M; [by apply M0| |eauto].
    by apply (evolves_not_table m0 m root l0 l).
Qed.

(** The bytes of the user's frames are outside both. *)
Lemma owned_byte m fl root l n va off :
  uvm m fl root l n → 0 ≤ va < Z.of_nat n * PGSIZE → 0 ≤ off < PGSIZE →
  let x := PTE2PA (leaf m root va) + off in
  ¬ in_table m root x ∧ ∀ q, q ∈ l → ¬ (q ≤ x < q + PGSIZE).
Proof.
  intros [I _ [_ Hv Hf Ht] _ Hsz] Hva Hoff x.
  assert (PTE2PA (leaf m root va) ∈ upages m root 0 n) as Hq by (apply elem_upages; mlia).
  destruct (Forall_elem _ _ _ Hv Hq) as [Hal _]. split.
  - intros (p & t & Hp & Et & Hin).
    destruct (wf_page _ _ (vm_wf _ _ _ _ I) _ _ Hp Et) as [Hta _].
    destruct (decide (t = PTE2PA (leaf m root va))) as [->|Hne]; [by eapply Ht|].
    apply (page_disjoint t (PTE2PA (leaf m root va)) x x); try done. unfold x. lia.
  - intros q Hql Hin.
    destruct (free_list_valid _ _ _ _ (vm_free _ _ _ _ I) Hql) as [Hqa _].
    destruct (decide (q = PTE2PA (leaf m root va))) as [->|Hne]; [by eapply Hf|].
    apply (page_disjoint q (PTE2PA (leaf m root va)) x x); try done. unfold x. lia.
Qed.

Lemma evolves_data m m' fl root l l' n va off :
  uvm m fl root l n → evolves m m' root l l' →
  0 ≤ va < Z.of_nat n * PGSIZE → 0 ≤ off < PGSIZE →
  ld m' (PTE2PA (leaf m root va) + off) = ld m (PTE2PA (leaf m root va) + off).
Proof.
  intros U E Hva Hoff. destruct (owned_byte _ _ _ _ _ va off U Hva Hoff).
  by apply (ev_mem _ _ _ _ _ E).
Qed.

(** A page off the free list, filled with data, then tables added. *)
Lemma alloc_grown m m1 m' fl' root p l used l' :
  vm_inv m p root (p :: l) → (∀ x, ¬ (p ≤ x < p + PGSIZE) → ld m1 x = ld m x) →
  grown m1 m' fl' root l used l' →
  evolves m m' root (p :: l) l' ∧ p ∉ l' ∧ ¬ is_table m' root p ∧
  (∀ q, q ∈ p :: l → q = p ∨ q ∈ l' ∨ is_table m' root q) ∧
  ∀ off, 0 ≤ off < PGSIZE → ld m' (p + off) = ld m1 (p + off).
Proof.
  intros I Hm1 G. pose proof I as [Hf Hwf Hd].
  destruct (alloc_data m m1 root p l I Hm1) as (I1 & T1 & _).
  destruct (free_list_cons _ _ _ _ Hf) as (_ & _ & [Hpa _] & Hn).
  pose proof (grown_evolves _ _ _ _ _ _ _ G) as E1. pose proof G as [I' S' K N W M].
  assert (¬ is_table m1 root p) as Hp1.
  { intros (q & Hq & Et). rewrite T1 in Et by done. apply (Hd _ _ Hq Et). by left. }
  split_and!.
  - apply (evolves_trans _ m1 _ _ _ l); [|done]. split.
    + intros q t Hq. by rewrite T1.
    + intros q t Hq. rewrite T1 by done. tauto.
    + intros q Hq. by right.
    + intros x Hx Hq. apply Hm1. apply Hq. by left.
  - intros Hin. apply Hn. by apply (ev_sub _ _ _ _ _ E1).
  - intros (q & Hq & Et). destruct (N _ _ Hq Et) as [Et'|Et'].
    + apply Hp1. by exists q.
    + apply Hn. rewrite S'. apply elem_of_app. by left.
  - intros q [->|Hq]%elem_of_cons; [by left|]. right.
    rewrite S' in Hq. apply elem_of_app in Hq as [Hq|Hq]; [right; by apply W|by left].
  - intros off Hoff. apply M.
    + rewrite (in_table_tbl m) by done. apply (free_not_table _ _ _ _ p _ I); [by left|lia].
    + intros q Hq Hin. assert (q ∈ l) as Hql by (rewrite S'; apply elem_of_app; by left).
      assert (valid_page q) as [Hqa _] by (eapply free_list_valid; [apply Hf|by right]).
      apply (page_disjoint p q (p + off) (p + off)); try done; [by intros ->|lia].
Qed.

(** The address space keeps its pages when only tables were added. *)
Lemma uvm_same m m' fl fl' root l l' n :
  uvm m fl root l n → vm_inv m' fl' root l' →
  (∀ p t, path_ok p → tbl m' root p = Some t → tbl m root p = Some t ∨ t ∈ l) →
  (∀ q, q ∈ l' → q ∈ l) →
  (∀ va, 0 ≤ va < MAXVA → leaf m' root va = leaf m root va) → uvm m' fl' root l' n.
Proof.
  intros [I Hm Ho Ha Hsz] I' N S L.
  assert (upages m' root 0 n = upages m root 0 n) as Eu.
  { apply upages_ext. intros i Hi. apply L. mlia. }
  split; try done.
  - intros i Hi. cbv zeta. rewrite L by mlia. by apply Hm.
  - destruct Ho as [Hd Hv Hf Ht]. split; rewrite Eu; try done.
    + intros q Hq Hin. apply (Hf q Hq). by apply S.
    + intros p t Hp Et Hin. destruct (N _ _ Hp Et) as [Et'|Et'];
        [by eapply Ht|by eapply Hf].
  - intros va Hva. rewrite L by mlia. by apply Ha.
Qed.

Lemma uvm_evolves m m' fl fl' root l l' n :
  uvm m fl root l n → evolves m m' root l l' → vm_inv m' fl' root l' →
  (∀ va, 0 ≤ va < MAXVA → leaf m' root va = leaf m root va) → uvm m' fl' root l' n.
Proof. intros U E I' L. apply (uvm_same m m' fl fl' root l l'); try done; apply E. Qed.

Lemma PTE_FLAGS_mk_pte pa perm :
  0 ≤ pa < 2 ^ 56 → 0 ≤ perm < 2 ^ 10 → PTE_FLAGS (mk_pte pa perm) = Z.lor perm PTE_V.
Proof.
  intros Hpa Hp. unfold mk_pte. rewrite <- Z.lor_assoc.
  apply PTE_FLAGS_mk; [done|]. by apply lor_range.
Qed.

(** Mapping a fresh frame [p] at page [n]. *)
Section add_page.
Context (m m' : mem) (fl fl' root p perm : Z) (l l' : list Z) (n : nat).
Hypothesis U : uvm m fl root l n.
Hypothesis E : evolves m m' root l l'.
Hypothesis I' : vm_inv m' fl' root l'.
Hypothesis Hpl : p ∈ l.
Hypothesis Hpl' : p ∉ l'.
Hypothesis Hpt : ¬ is_table m' root p.
Hypothesis Hperm : 0 ≤ perm < 2 ^ 10.
Hypothesis HpermV : Z.lor perm PTE_V ≠ PTE_V.
Hypothesis Hn : Z.of_nat (S n) * PGSIZE ≤ TRAPFRAME.
Hypothesis L : ∀ va, 0 ≤ va < MAXVA →
  leaf m' root va = if same_page (Z.of_nat n * PGSIZE) va then mk_pte p perm else leaf m root va.

Lemma add_page_valid : valid_page p ∧ 0 ≤ p < 2 ^ 56.
Proof.
  pose proof (free_list_valid _ _ _ _ (vm_free _ _ _ _ (u_inv _ _ _ _ _ U)) Hpl) as Hv.
  split; [done|]. apply valid_page_range in Hv. mlia.
Qed.

Lemma add_page_leaf_old i :
  (i < n)%nat → leaf m' root (Z.of_nat i * PGSIZE) = leaf m root (Z.of_nat i * PGSIZE).
Proof.
  intros Hi. rewrite L by mlia. unfold same_page.
  destruct (Z.eqb_spec (Z.of_nat n * PGSIZE / PGSIZE) (Z.of_nat i * PGSIZE / PGSIZE)); [mlia|done].
Qed.

Lemma add_page_leaf_new : leaf m' root (Z.of_nat n * PGSIZE) = mk_pte p perm.
Proof. rewrite L by mlia. by rewrite same_page_refl. Qed.

Lemma add_page_PA : PTE2PA (leaf m' root (Z.of_nat n * PGSIZE)) = p.
Proof.
  rewrite add_page_leaf_new. destruct add_page_valid as [[Hal _] Hr]. by apply PTE2PA_mk_pte.
Qed.

Lemma add_page_upages a k :
  (a + k = n)%nat →
  upages m' root (Z.of_nat a * PGSIZE) (S k) = upages m root (Z.of_nat a * PGSIZE) k ++ [p].
Proof.
  intros Ea. replace (S k) with (k + 1)%nat by lia. rewrite upages_app. f_equal.
  - apply upages_ext. intros i Hi.
    replace (Z.of_nat a * PGSIZE + Z.of_nat i * PGSIZE) with (Z.of_nat (a + i) * PGSIZE) by lia.
    apply add_page_leaf_old. lia.
  - rewrite upages_S.
    replace (Z.of_nat a * PGSIZE + Z.of_nat k * PGSIZE) with (Z.of_nat n * PGSIZE) by lia.
    by rewrite add_page_PA.
Qed.

Lemma add_page_uvm : uvm m' fl' root l' (S n).
Proof.
  pose proof U as [I Hm [Hd Hv Hf Ht] Ha Hsz]. destruct add_page_valid as [Hpv Hpr].
  assert (p ∉ upages m root 0 n) as Hpn by (intros Hin; by eapply Hf).
  pose proof (add_page_upages 0 n eq_refl) as Eu. rewrite Z.mul_0_l in Eu.
  split; [done| | | |done].
  - intros i Hi. cbv zeta. rewrite Z.add_0_l.
    destruct (decide (i = n)) as [->|].
    + rewrite add_page_leaf_new, mk_pte_valid, PTE_FLAGS_mk_pte by done. split; [done|done].
    + rewrite add_page_leaf_old by lia. apply (Hm i). lia.
  - split; rewrite Eu.
    + apply NoDup_app. split_and!; [done| |apply NoDup_singleton].
      intros q Hq ->%list_elem_of_singleton. done.
    + apply Forall_app. split; [done|by apply Forall_singleton].
    + intros q [Hq| ->%list_elem_of_singleton]%elem_of_app Hin; [|done].
      apply (Hf q Hq). by apply (ev_sub _ _ _ _ _ E).
    + intros q t Hq Et [Hin|Hin%list_elem_of_singleton]%elem_of_app.
      * destruct (ev_new _ _ _ _ _ E _ _ Hq Et); [by eapply Ht|by eapply Hf].
      * subst t. apply Hpt. by exists q.
  - intros va Hva. rewrite L by mlia. rewrite same_page_false by mlia. apply Ha. mlia.
Qed.
End add_page.

(** ** Unmapping the last pages *)

Lemma mapped_sub m root n k :
  mapped m root 0 (n + k) → mapped m root (Z.of_nat n * PGSIZE) k.
Proof.
  intros Hm i Hi. specialize (Hm (n + i)%nat ltac:(lia)). cbv zeta in *.
  by replace (Z.of_nat n * PGSIZE + Z.of_nat i * PGSIZE)
    with (0 + Z.of_nat (n + i) * PGSIZE) by lia.
Qed.

Lemma owned_sub m root l n k :
  owned m root l 0 (n + k) → owned m root l (Z.of_nat n * PGSIZE) k.
Proof.
  intros [Hd Hv Hf Ht]. rewrite upages_app, Z.add_0_l in *. split.
  - by apply NoDup_app in Hd as (_ & _ & Hd).
  - by apply Forall_app in Hv as [_ Hv].
  - intros q Hq. apply Hf, elem_of_app. by right.
  - intros p t Hp Et Hin. eapply Ht; [done|done|]. apply elem_of_app. by right.
Qed.

Lemma uvm_shrink m m' fl fl' root l n k :
  uvm m fl root l (n + k) →
  shrunk m m' fl' root l (reverse (upages m root (Z.of_nat n * PGSIZE) k)) →
  (∀ va, 0 ≤ va < MAXVA →
     leaf m' root va = unmapped_leaf (Z.of_nat n) (Z.of_nat k) (leaf m root va) va) →
  uvm m' fl' root (reverse (upages m root (Z.of_nat n * PGSIZE) k) ++ l) n.
Proof.
  intros [I Hm Ho Ha Hsz] Sh L.
  assert (∀ va, 0 ≤ va < Z.of_nat n * PGSIZE → leaf m' root va = leaf m root va) as Lo.
  { intros va Hva. rewrite L by mlia. unfold unmapped_leaf.
    destruct (Z.leb_spec (Z.of_nat n) (va / PGSIZE)); [mlia|done]. }
  assert (upages m' root 0 n = upages m root 0 n) as Eu.
  { apply upages_ext. intros i Hi. apply Lo. mlia. }
  split; [apply Sh| | | |mlia].
  - intros i Hi. cbv zeta. rewrite Lo by mlia. apply (Hm i). lia.
  - destruct Ho as [Hd Hv Hf Ht]. rewrite upages_app, Z.add_0_l in *.
    apply NoDup_app in Hd as (Hd1 & Hd2 & _). apply Forall_app in Hv as [Hv _].
    split; rewrite Eu; try done.
    + intros q Hq [Hin|Hin]%elem_of_app.
      * apply (Hd2 q Hq). by rewrite elem_of_reverse in Hin.
      * apply (Hf q); [|done]. apply elem_of_app. by left.
    + intros p t Hp. rewrite (sh_tbl _ _ _ _ _ _ Sh) by done. intros Et Hin.
      eapply Ht; [done|done|]. apply elem_of_app. by left.
  - intros va Hva. rewrite L by mlia. unfold unmapped_leaf.
    destruct (Z.leb_spec (Z.of_nat n) (va / PGSIZE)); [|mlia].
    destruct (Z.ltb_spec (va / PGSIZE) (Z.of_nat n + Z.of_nat k)); [done|].
    apply Ha. mlia.
Qed.

(** [uvmunmap] with [do_free] on the last [k] pages. *)
Lemma uvmunmap_tail s root l n k :
  hart_ok s → lock_free s LkKmem → uvm (physmem s) (freelist s) root l (n + k) →
  let freed := reverse (upages (physmem s) root (Z.of_nat n * PGSIZE) k) in
  ∃ m' fl',
    uvmunmap root (Z.of_nat n * PGSIZE) (Z.of_nat k) true s = Ret tt (with_mem s m' fl') ∧
    uvm m' fl' root (freed ++ l) n ∧ shrunk (physmem s) m' fl' root l freed ∧
    ∀ va, 0 ≤ va < Z.of_nat n * PGSIZE ∨ TRAPFRAME ≤ va < MAXVA →
      leaf m' root va = leaf (physmem s) root va.
Proof.
  intros Hh Hk U freed. pose proof U as [I Hm Ho Ha Hsz].
  destruct (uvmunmap_eq s root (Z.of_nat n * PGSIZE) k true l) as (m' & fl' & Hr & Sh & L);
    [done|done|done|mlia|mlia|mlia|by apply mapped_sub|intros _; by apply owned_sub|].
  rewrite Z.div_mul in L by done. exists m', fl'. split_and!; [done| |done|].
  - by eapply uvm_shrink.
  - intros va Hva. rewrite L by mlia. unfold unmapped_leaf.
    destruct (Z.leb_spec (Z.of_nat n) (va / PGSIZE)),
      (Z.ltb_spec (va / PGSIZE) (Z.of_nat n + Z.of_nat k)); try done. mlia.
Qed.

(** Pages needed for [sz] bytes. *)
Definition pgs (sz : Z) : nat := Z.to_nat (PGROUNDUP sz / PGSIZE).

Lemma pgs_eq sz :
  0 ≤ sz ≤ MAXVA →
  PGROUNDUP sz = Z.of_nat (pgs sz) * PGSIZE ∧
  sz ≤ Z.of_nat (pgs sz) * PGSIZE < sz + PGSIZE.
Proof.
  intros Hsz. unfold pgs. rewrite PGROUNDUP_eq by mlia. rewrite Z2Nat.id by mlia. mlia.
Qed.

Lemma pgs_aligned n : Z.of_nat n * PGSIZE ≤ MAXVA → pgs (Z.of_nat n * PGSIZE) = n.
Proof.
  intros Hn. pose proof (pgs_eq (Z.of_nat n * PGSIZE) ltac:(mlia)). mlia.
Qed.

Lemma pgs_mono a b : 0 ≤ a ≤ b → b ≤ MAXVA → (pgs a ≤ pgs b)%nat.
Proof. intros Hab Hb. pose proof (pgs_eq a). pose proof (pgs_eq b). mlia. Qed.

Lemma uvmdealloc_eq s root l oldsz newsz :
  hart_ok s → lock_free s LkKmem → 0 ≤ newsz ≤ oldsz → oldsz ≤ TRAPFRAME →
  uvm (physmem s) (freelist s) root l (pgs oldsz) →
  let freed := reverse (upages (physmem s) root (Z.of_nat (pgs newsz) * PGSIZE)
                          (pgs oldsz - pgs newsz)) in
  ∃ m' fl',
    uvmdealloc root oldsz newsz s = Ret newsz (with_mem s m' fl') ∧
    uvm m' fl' root (freed ++ l) (pgs newsz) ∧ shrunk (physmem s) m' fl' root l freed ∧
    ∀ va, 0 ≤ va < Z.of_nat (pgs newsz) * PGSIZE ∨ TRAPFRAME ≤ va < MAXVA →
      leaf m' root va = leaf (physmem s) root va.
Proof.
  intros Hh Hk Hsz Hmax U freed.
  destruct (pgs_eq oldsz ltac:(mlia)) as [Eo Ho]. destruct (pgs_eq newsz ltac:(mlia)) as [En Hn].
  pose proof (pgs_mono newsz oldsz Hsz ltac:(mlia)) as Hle.
  assert (pgs oldsz = pgs newsz + (pgs oldsz - pgs newsz))%nat as Ek by lia.
  rewrite Ek in U.
  destruct (uvmunmap_tail s root l (pgs newsz) (pgs oldsz - pgs newsz) Hh Hk U)
    as (m' & fl' & Hr & U' & Sh & L).
  destruct (decide (pgs oldsz = pgs newsz)) as [E|E].
  - assert (freed = []) as -> by (unfold freed; by rewrite E, Nat.sub_diag).
    exists (physmem s), (freelist s). rewrite with_mem_id. split_and!.
    + unfold uvmdealloc. destruct (Z.geb_spec newsz oldsz); [by replace oldsz with newsz by lia|].
      rewrite Eo, En, E, Z.ltb_irrefl. done.
    + by rewrite E, Nat.sub_diag, Nat.add_0_r in U.
    + apply shrunk_refl, U.
    + done.
  - exists m', fl'. split_and!; try done. unfold uvmdealloc.
    destruct (Z.geb_spec newsz oldsz) as [Hge|Hge];
      [exfalso; apply E; by replace oldsz with newsz by lia|].
    rewrite Eo, En. destruct (Z.ltb_spec (Z.of_nat (pgs newsz) * PGSIZE) (Z.of_nat (pgs oldsz) * PGSIZE));
      [|mlia]. cbn [when].
    replace ((Z.of_nat (pgs oldsz) * PGSIZE - Z.of_nat (pgs newsz) * PGSIZE) / PGSIZE)
      with (Z.of_nat (pgs oldsz - pgs newsz)) by mlia.
    rewrite s32_small, u64_small by mlia.
    by run Hr.
Qed.

(** ** Growing an address space page by page

    [uvmalloc] and [uvmcopy] add pages [n0], [n0 + 1], ... to an address space
    that starts with [n0] pages in memory [m0] with free list [l0].  Page [i]
    gets the permissions [perm i] and the bytes [content i]. *)
Section growing.
Context (m0 : mem) (root : Z) (l0 : list Z) (n0 : nat).
Context (perm : nat → Z) (content : nat → Z → Z).

Record growing (m : mem) (fl : Z) (l : list Z) (n : nat) : Prop := {
  gr_uvm : uvm m fl root l n;
  gr_evolves : evolves m0 m root l0 l;
  gr_le : (n0 ≤ n)%nat;
  gr_own : ∀ q, q ∈ upages m root (Z.of_nat n0 * PGSIZE) (n - n0) → q ∈ l0;
  gr_all : ∀ q, q ∈ l0 →
    q ∈ l ∨ is_table m root q ∨ q ∈ upages m root (Z.of_nat n0 * PGSIZE) (n - n0);
  gr_old : ∀ va, 0 ≤ va < Z.of_nat n0 * PGSIZE ∨ TRAPFRAME ≤ va < MAXVA →
    leaf m root va = leaf m0 root va;
  gr_perm : ∀ i, (n0 ≤ i < n)%nat →
    PTE_FLAGS (leaf m root (Z.of_nat i * PGSIZE)) = Z.lor (perm i) PTE_V;
  gr_content : ∀ i off, (n0 ≤ i < n)%nat → 0 ≤ off < PGSIZE →
    ld m (PTE2PA (leaf m root (Z.of_nat i * PGSIZE)) + off) = content i off
}.

Lemma growing_start fl :
  uvm m0 fl root l0 n0 → growing m0 fl l0 n0.
Proof.
  intros U. split; try done; try lia.
  - apply evolves_refl.
  - rewrite Nat.sub_diag. intros q Hq. by apply elem_of_nil in Hq.
  - intros q Hq. by left.
Qed.

Lemma growing_evolves m m' fl fl' l l' n :
  growing m fl l n → evolves m m' root l l' → vm_inv m' fl' root l' →
  (∀ va, 0 ≤ va < MAXVA → leaf m' root va = leaf m root va) →
  (∀ q, q ∈ l → q ∈ l' ∨ is_table m' root q) → growing m' fl' l' n.
Proof.
  intros G E I' L Hall. pose proof G as [U E0 Hle Hown Hacc Hold Hperm Hcont].
  pose proof (u_size _ _ _ _ _ U) as Hsz.
  assert (upages m' root (Z.of_nat n0 * PGSIZE) (n - n0)
          = upages m root (Z.of_nat n0 * PGSIZE) (n - n0)) as Eu.
  { apply upages_ext. intros i Hi. apply L. mlia. }
  split; rewrite ?Eu; try done.
  - by eapply uvm_evolves.
  - by eapply evolves_trans.
  - intros q Hq. destruct (Hacc q Hq) as [Hl|[(p & Hp & Et)|Hu]]; [|right; left|by right; right].
    + destruct (Hall q Hl); tauto.
    + exists p. split; [done|]. by apply (ev_keep _ _ _ _ _ E).
  - intros va Hva. rewrite L by mlia. by apply Hold.
  - intros i Hi. rewrite L by mlia. by apply Hperm.
  - intros i off Hi Hoff. rewrite L by mlia.
    rewrite (evolves_data m m' fl root l l' n) by (done || mlia). by apply Hcont.
Qed.

Lemma growing_add m m' fl fl' l l' n p :
  growing m fl l n → evolves m m' root l l' → vm_inv m' fl' root l' →
  p ∈ l → p ∉ l' → ¬ is_table m' root p →
  0 ≤ perm n < 2 ^ 10 → Z.lor (perm n) PTE_V ≠ PTE_V →
  Z.of_nat (S n) * PGSIZE ≤ TRAPFRAME →
  (∀ va, 0 ≤ va < MAXVA →
    leaf m' root va
    = if same_page (Z.of_nat n * PGSIZE) va then mk_pte p (perm n) else leaf m root va) →
  (∀ q, q ∈ l → q = p ∨ q ∈ l' ∨ is_table m' root q) →
  (∀ off, 0 ≤ off < PGSIZE → ld m' (p + off) = content n off) →
  growing m' fl' l' (S n).
Proof.
  intros G E I' Hpl Hpl' Hpt Hpm HpmV Hn L Hall Hc.
  pose proof G as [U E0 Hle Hown Hacc Hold Hperm Hcont].
  assert (upages m' root (Z.of_nat n0 * PGSIZE) (S n - n0)
          = upages m root (Z.of_nat n0 * PGSIZE) (n - n0) ++ [p]) as Eu.
  { replace (S n - n0)%nat with (S (n - n0)) by lia. eapply add_page_upages; try done. lia. }
  assert (∀ i, (i < n)%nat →
    leaf m' root (Z.of_nat i * PGSIZE) = leaf m root (Z.of_nat i * PGSIZE)) as Lo
    by (intros i Hi; by eapply add_page_leaf_old).
  split; rewrite ?Eu; try lia.
  - by eapply (add_page_uvm m m').
  - by eapply evolves_trans.
  - intros q [Hq| ->%list_elem_of_singleton]%elem_of_app; [by apply Hown|].
    by apply (ev_sub _ _ _ _ _ E0).
  - intros q Hq. rewrite elem_of_app, list_elem_of_singleton.
    destruct (Hacc q Hq) as [Hl|[(q' & Hp & Et)|Hu]]; [|right; left|tauto].
    + destruct (Hall q Hl) as [|[|]]; tauto.
    + exists q'. split; [done|]. by apply (ev_keep _ _ _ _ _ E).
  - intros va Hva. pose proof (u_size _ _ _ _ _ U). rewrite L by mlia.
    rewrite <- Hold by done. unfold same_page.
    destruct (Z.eqb_spec (Z.of_nat n * PGSIZE / PGSIZE) (va / PGSIZE)); [mlia|done].
  - intros i Hi. destruct (decide (i = n)) as [->|]; [|rewrite Lo by lia; apply Hperm; lia].
    assert (leaf m' root (Z.of_nat n * PGSIZE) = mk_pte p (perm n)) as ->
      by by eapply (add_page_leaf_new m m').
    apply PTE_FLAGS_mk_pte; [|done]. by eapply (add_page_valid m m').
  - intros i off Hi Hoff. destruct (decide (i = n)) as [->|].
    + assert (PTE2PA (leaf m' root (Z.of_nat n * PGSIZE)) = p) as ->
        by by eapply (add_page_PA m m').
      by apply Hc.
    + rewrite Lo by lia. rewrite (evolves_data m m' fl root l l' n) by (done || mlia).
      apply Hcont; [lia|done].
Qed.

(** Mapping the page just taken, or giving it back when a table is missing. *)
Lemma growing_page s m p l n m1 :
  hart_ok s → lock_free s LkKmem → growing m p (p :: l) n →
  (∀ x, ¬ (p ≤ x < p + PGSIZE) → ld m1 x = ld m x) →
  (∀ off, 0 ≤ off < PGSIZE → ld m1 (p + off) = content n off) →
  0 ≤ perm n < 2 ^ 10 → Z.lor (perm n) PTE_V ≠ PTE_V →
  Z.of_nat (S n) * PGSIZE ≤ TRAPFRAME →
  (∃ m' fl' l',
    mappages root (Z.of_nat n * PGSIZE) PGSIZE p (perm n) (with_mem s m1 (ld64 m p))
      = Ret 0 (with_mem s m' fl') ∧ growing m' fl' l' (S n) ∧
    (length l ≤ length l' + 2)%nat) ∨
  (∃ m' fl',
    mappages root (Z.of_nat n * PGSIZE) PGSIZE p (perm n) (with_mem s m1 (ld64 m p))
      = Ret (-1) (with_mem s m' fl') ∧
    valid_page p ∧ growing (kfree_mem m' fl' p) p [p] n ∧ (length l < 2)%nat).
Proof.
  intros Hh Hk G Hm1 Hc Hpm HpmV Hn. pose proof (gr_uvm _ _ _ _ G) as U.
  pose proof (u_inv _ _ _ _ _ U) as I.
  destruct (free_list_cons _ _ _ _ (vm_free _ _ _ _ I)) as (_ & _ & Hpv & _).
  pose proof (valid_page_range _ Hpv).
  destruct (alloc_data m m1 root p l I Hm1) as (I1 & T1 & L1).
  assert (span (Z.of_nat n * PGSIZE) PGSIZE = 1) as Esp by (unfold span; mlia).
  destruct (mappages_eq (with_mem s m1 (ld64 m p)) root (Z.of_nat n * PGSIZE) PGSIZE p (perm n) l)
    as (r & m' & fl' & used & l' & k & Hr & Gr & L & Hres); try done; try mlia.
  { intros x Hx. rewrite PGROUNDDOWN_eq, Esp in Hx by mlia. rewrite physmem_with_mem, L1.
    apply (u_above _ _ _ _ _ U). mlia. }
  rewrite physmem_with_mem in *. rewrite with_mem_with_mem in Hr.
  destruct (alloc_grown m m1 m' fl' root p l used l' I Hm1 Gr) as (E & Hpl' & Hpt & Hall & Hdata).
  rewrite Esp in Hres. pose proof (f_equal length (g_split _ _ _ _ _ _ _ Gr)) as Hl.
  rewrite length_app in Hl.
  destruct Hres as [(-> & -> & Hlen)|(-> & Hk1 & -> & Hlen)]; [left|right].
  - exists m', fl', l'. split_and!; [done| |lia].
    eapply growing_add; try done; [apply Gr|by left| |].
    + intros va Hva. rewrite L by done. rewrite mapped_leaf_one. by rewrite L1.
    + intros off Hoff. rewrite Hdata by done. by apply Hc.
  - exists m', fl'. split_and!; [done|done| |lia].
    replace k with 0 in L by lia.
    destruct (free_data m' fl' root [] p) as [Sh Lf];
      [apply Gr|exact Hpv|apply not_elem_of_nil| |].
    { intros q t Hq Et ->. apply Hpt. by exists q. }
    eapply growing_evolves; [done| |apply Sh| |].
    + apply (shrunk_evolves m m' _ p root (p :: l) [] [p]); [done|done|].
      intros q ->%list_elem_of_singleton. by left.
    + intros va Hva. rewrite Lf, L by done. by rewrite mapped_leaf_none, L1.
    + intros q Hq. destruct (Hall q Hq) as [->|[[]%elem_of_nil|(t & Ht & Et)]]; [left; by left|].
      right. exists t. by rewrite (sh_tbl _ _ _ _ _ _ Sh).
Qed.

(** Giving back all the pages added so far. *)
Lemma growing_undo s l n :
  hart_ok s → lock_free s LkKmem → growing (physmem s) (freelist s) l n →
  ∃ m' fl' l',
    uvmunmap root (Z.of_nat n0 * PGSIZE) (Z.of_nat (n - n0)) true s = Ret tt (with_mem s m' fl') ∧
    growing m' fl' l' n0.
Proof.
  intros Hh Hk [U E0 Hle Hown Hacc Hold Hperm Hcont].
  assert (n = n0 + (n - n0))%nat as En by lia. rewrite En in U.
  destruct (uvmunmap_tail s root l n0 (n - n0) Hh Hk U) as (m' & fl' & Hr & U' & Sh & L).
  eexists m', fl', _. split; [exact Hr|]. split; [exact U'| |lia| | | | |].
  - eapply shrunk_evolves; [done|exact Sh|]. intros q Hq. apply Hown.
    by apply elem_of_reverse.
  - rewrite Nat.sub_diag. intros q Hq. by apply elem_of_nil in Hq.
  - intros q Hq. rewrite elem_of_app, elem_of_reverse.
    destruct (Hacc q Hq) as [Hl|[(t & Ht & Et)|Hu]]; [tauto| |tauto].
    right. left. exists t. by rewrite (sh_tbl _ _ _ _ _ _ Sh).
  - intros va Hva. rewrite L by done. by apply Hold.
  - lia.
  - lia.
Qed.

Lemma growing_dealloc s l n :
  hart_ok s → lock_free s LkKmem → growing (physmem s) (freelist s) l n →
  ∃ r m' fl' l',
    uvmdealloc root (Z.of_nat n * PGSIZE) (Z.of_nat n0 * PGSIZE) s = Ret r (with_mem s m' fl') ∧
    growing m' fl' l' n0.
Proof.
  intros Hh Hk G. pose proof (u_size _ _ _ _ _ (gr_uvm _ _ _ _ G)) as Hsz.
  pose proof (gr_le _ _ _ _ G) as Hle. unfold uvmdealloc.
  destruct (Z.geb_spec (Z.of_nat n0 * PGSIZE) (Z.of_nat n * PGSIZE)).
  - assert (n = n0) as -> by mlia. eexists _, _, _, l. rewrite with_mem_id. by split.
  - destruct (pgs_eq (Z.of_nat n * PGSIZE) ltac:(mlia)) as [-> _].
    destruct (pgs_eq (Z.of_nat n0 * PGSIZE) ltac:(mlia)) as [-> _].
    rewrite !pgs_aligned by mlia.
    destruct (Z.ltb_spec (Z.of_nat n0 * PGSIZE) (Z.of_nat n * PGSIZE)); [|lia]. cbn [when].
    replace ((Z.of_nat n * PGSIZE - Z.of_nat n0 * PGSIZE) / PGSIZE)
      with (Z.of_nat (n - n0)) by mlia.
    rewrite s32_small, u64_small by mlia.
    destruct (growing_undo s l n Hh Hk G) as (m' & fl' & l' & Hr & G').
    eexists _, m', fl', l'. split; [|done]. by run Hr.
Qed.
End growing.

(** ** uvmalloc *)

Definition uperm : Z := Z.lor (Z.lor (Z.lor PTE_W PTE_X) PTE_R) PTE_U.

Abbreviation zeroed m0 root l0 n0 :=
  (growing m0 root l0 n0 (λ _, uperm) (λ _ _, 0)).

(** The allocator's answer, from the free list. *)
Lemma kalloc_cases s l :
  hart_ok s → lock_free s LkKmem → free_pages s l →
  (l = [] ∧ kalloc s = Ret 0 s) ∨
  (∃ p l', l = p :: l' ∧ freelist s = p ∧ p ≠ 0 ∧
     kalloc s = Ret p (with_mem s (kalloc_mem (physmem s) p) (ld64 (physmem s) p))).
Proof.
  intros Hh Hk Hf. destruct l as [|p l'].
  - left. split; [done|]. apply kalloc_none; [done|done|]. by destruct Hf as [Hc _].
  - right. exists p, l'. destruct (free_list_cons _ _ _ _ Hf) as (E & Hne & _).
    split_and!; [done|done|done|]. rewrite <- E at 1 2. rewrite <- E in Hne.
    by rewrite kalloc_eq, E by done.
Qed.

Lemma kmemset_with_mem s m fl a c n :
  kmemset a c n (with_mem s m fl) = Ret tt (with_mem s (memset m a c n) fl).
Proof. done. Qed.

Lemma uvmalloc_step_eq s m0 root l0 n0 l n newsz :
  hart_ok s → lock_free s LkKmem → zeroed m0 root l0 n0 (physmem s) (freelist s) l n →
  Z.of_nat n * PGSIZE < newsz → newsz ≤ TRAPFRAME →
  (∃ m' fl' l',
    uvmalloc_step root (Z.of_nat n0 * PGSIZE) newsz (Z.of_nat n * PGSIZE) s
      = Ret (inl (Z.of_nat (S n) * PGSIZE)) (with_mem s m' fl') ∧
    zeroed m0 root l0 n0 m' fl' l' (S n) ∧ (length l ≤ length l' + 3)%nat) ∨
  (∃ m' fl' l',
    uvmalloc_step root (Z.of_nat n0 * PGSIZE) newsz (Z.of_nat n * PGSIZE) s
      = Ret (inr 0) (with_mem s m' fl') ∧
    zeroed m0 root l0 n0 m' fl' l' n0 ∧ (length l < 3)%nat).
Proof.
  intros Hh Hk G Hlt Hmax. unfold uvmalloc_step.
  destruct (Z.ltb_spec (Z.of_nat n * PGSIZE) newsz); [|lia].
  pose proof (vm_free _ _ _ _ (u_inv _ _ _ _ _ (gr_uvm _ _ _ _ _ _ _ _ _ _ G))) as Hf.
  destruct (kalloc_cases s l Hh Hk Hf) as [[-> Hka]|(p & l' & -> & Efl & Hne & Hka)];
    run Hka.
  - right. destruct (growing_dealloc _ _ _ _ _ _ s [] n Hh Hk G) as (r & m' & fl' & l' & Hr & G').
    exists m', fl', l'. split_and!; [|done|cbn; lia]. cbn [Z.eqb]. by run Hr.
  - rewrite (proj2 (Z.eqb_neq _ _) Hne), Efl in *.
    run (kmemset_with_mem _ _ _ _ _ _).
    set (m1 := memset (kalloc_mem (physmem s) p) p 0 PGSIZE).
    destruct (growing_page _ _ _ _ _ _ s (physmem s) p l' n m1 Hh Hk G)
      as [(m' & fl' & l2 & Hr & G' & Hlen)|(m' & fl' & Hr & Hv & G' & Hlen)]; [| |done|done|mlia|..].
    + intros x Hx. unfold m1. by rewrite ld_memset, decide_False, ld_kalloc_mem, decide_False by done.
    + intros off Hoff. unfold m1. rewrite ld_memset. by case_decide; [|lia].
    + left. exists m', fl', l2. split_and!; [|done|cbn; lia]. run Hr.
      cbn [Z.eqb negb]. rewrite u64_small by mlia. do 2 f_equal. lia.
    + right. fold uperm. run Hr. cbn [Z.eqb negb].
      run (kfree_eq (with_mem s m' fl') p Hh Hk Hv).
      rewrite physmem_with_mem, freelist_with_mem, with_mem_with_mem.
      destruct (growing_dealloc _ _ _ _ _ _ (with_mem s (kfree_mem m' fl' p) p) [p] n Hh Hk G')
        as (r & m2 & fl2 & l2 & Hr2 & G2).
      exists m2, fl2, l2. split_and!; [|done|cbn; lia]. by run Hr2.
Qed.

Lemma uvmalloc_run k s m0 root l0 n0 l n newsz :
  hart_ok s → lock_free s LkKmem → zeroed m0 root l0 n0 (physmem s) (freelist s) l n →
  0 ≤ newsz ≤ TRAPFRAME → pgs newsz = (n + k)%nat →
  ∃ r m' fl' l',
    run_n (S k) (uvmalloc_step root (Z.of_nat n0 * PGSIZE) newsz) (Z.of_nat n * PGSIZE) s
      = Ret (inr r) (with_mem s m' fl') ∧
    ((r = newsz ∧ zeroed m0 root l0 n0 m' fl' l' (n + k)) ∨
     (r = 0 ∧ zeroed m0 root l0 n0 m' fl' l' n0 ∧ (length l < 3 * k)%nat)).
Proof.
  revert s l n. induction k as [|k IH]; intros s l n Hh Hk G Hmax Hp;
    destruct (pgs_eq newsz ltac:(mlia)) as [_ Hr].
  - exists newsz, (physmem s), (freelist s), l. rewrite with_mem_id. split.
    + apply run_n_stop. unfold uvmalloc_step.
      by destruct (Z.ltb_spec (Z.of_nat n * PGSIZE) newsz); [mlia|].
    + left. by rewrite Nat.add_0_r.
  - destruct (uvmalloc_step_eq s m0 root l0 n0 l n newsz)
      as [(m1 & fl1 & l1 & Hs & G1 & Hlen)|(m1 & fl1 & l1 & Hs & G1 & Hlen)];
      try done; [mlia|mlia| |].
    + destruct (IH (with_mem s m1 fl1) l1 (S n)) as (r & m' & fl' & l' & Hr' & Hres);
        try done; [lia|].
      exists r, m', fl', l'. split.
      * rewrite (run_n_next _ _ _ _ _ _ Hs). etransitivity; [exact Hr'|].
        by rewrite with_mem_with_mem.
      * replace (n + S k)%nat with (S n + k)%nat by lia.
        destruct Hres as [?|(? & ? & ?)]; [by left|right; split_and!; done || lia].
    + exists 0, m1, fl1, l1. split; [by apply run_n_stop|right; split_and!; done || lia].
Qed.

Lemma uvmalloc_eq s root l oldsz newsz :
  hart_ok s → lock_free s LkKmem → 0 ≤ oldsz ≤ newsz → newsz ≤ TRAPFRAME →
  uvm (physmem s) (freelist s) root l (pgs oldsz) →
  ∃ r m' fl' l',
    uvmalloc root oldsz newsz s = Ret r (with_mem s m' fl') ∧
    ((r = newsz ∧ zeroed (physmem s) root l (pgs oldsz) m' fl' l' (pgs newsz)) ∨
     (r = 0 ∧ zeroed (physmem s) root l (pgs oldsz) m' fl' l' (pgs oldsz) ∧
      (length l < 3 * (pgs newsz - pgs oldsz))%nat)).
Proof.
  intros Hh Hk Hsz Hmax U. unfold uvmalloc.
  destruct (Z.ltb_spec newsz oldsz); [lia|].
  destruct (pgs_eq oldsz ltac:(mlia)) as [-> _].
  pose proof (pgs_mono oldsz newsz Hsz ltac:(mlia)) as Hle.
  pose proof (pgs_eq newsz ltac:(mlia)).
  destruct (uvmalloc_run (pgs newsz - pgs oldsz) s (physmem s) root l (pgs oldsz) l (pgs oldsz) newsz)
    as (r & m' & fl' & l' & Hr & Hres); try done; [by apply growing_start|mlia|lia|].
  exists r, m', fl', l'. split.
  - apply (loop_Ret _ (S (pgs newsz - pgs oldsz))); [mlia|exact Hr].
  - by replace (pgs oldsz + (pgs newsz - pgs oldsz))%nat with (pgs newsz) in Hres by lia.
Qed.

(** ** uvmcopy *)

(** [walk] on an address whose entry is not zero finds that entry. *)
Lemma walk_leaf s root va :
  pt_wf (physmem s) root → va < MAXVA → leaf (physmem s) root va ≠ 0 →
  ∃ a, walk root va false s = Ret a s ∧ a ≠ 0 ∧
       ld64 (physmem s) a = leaf (physmem s) root va ∧
       ∃ t, tbl (physmem s) root (vpath va) = Some t ∧ a = t + 8 * PX 0 va.
Proof.
  intros Hwf Hva. unfold leaf. rewrite walk_false by done.
  destruct (tbl (physmem s) root (vpath va)) as [t|] eqn:Et; [|done]. intros _.
  pose proof (valid_page_range _ (wf_page _ _ Hwf _ _ (path_ok_vpath va) Et)).
  pose proof (PX_range 0 va). eexists. split_and!; [done|lia|done|by exists t].
Qed.

(** The parent's address space [old] in memory [m0]: disjoint from the child's
    tables and from the free pages. *)
Record apart (m0 : mem) (fl0 old new : Z) (l0 : list Z) (n : nat) : Prop := {
  ap_uvm : uvm m0 fl0 old l0 n;
  ap_table : ∀ q, is_table m0 old q → ¬ is_table m0 new q;
  ap_data : ∀ q, q ∈ upages m0 old 0 n → ¬ is_table m0 new q
}.

(** Nothing the child's address space does touches the parent's. *)
Lemma apart_page m0 fl0 old new l0 n m l q x :
  apart m0 fl0 old new l0 n → vm_inv m0 fl0 new l0 → evolves m0 m new l0 l →
  is_table m0 old q ∨ q ∈ upages m0 old 0 n → q ≤ x < q + PGSIZE → ld m x = ld m0 x.
Proof.
  intros [U Hat Had] I E Hq Hx.
  assert (valid_page q ∧ q ∉ l0 ∧ ¬ is_table m0 new q) as ([Hqa _] & Hql & Hqn).
  { destruct U as [[_ Hwf Hd] _ [_ Hv Hf _] _ _]. destruct Hq as [Hq|Hq].
    - split_and!; [|intros ?|by apply Hat]; destruct Hq as (p & Hp & Et).
      + exact (wf_page _ _ Hwf _ _ Hp Et).
      + by eapply Hd.
    - split_and!; [by eapply Forall_elem|by apply Hf|by apply Had]. }
  apply (ev_mem _ _ _ _ _ E).
  - intros (p & t & Hp & Et & Hin).
    destruct (wf_page _ _ (vm_wf _ _ _ _ I) _ _ Hp Et) as [Hta _].
    destruct (decide (t = q)) as [->|Hne]; [apply Hqn; by exists p|].
    by apply (page_disjoint t q x x).
  - intros t Ht Hin. destruct (free_list_valid _ _ _ _ (vm_free _ _ _ _ I) Ht) as [Hta _].
    destruct (decide (t = q)) as [->|Hne]; [done|].
    by apply (page_disjoint t q x x).
Qed.

Lemma apart_leaf m0 fl0 old new l0 n m l va :
  apart m0 fl0 old new l0 n → vm_inv m0 fl0 new l0 → evolves m0 m new l0 l →
  leaf m old va = leaf m0 old va ∧ pt_wf m old.
Proof.
  intros A I E.
  assert (∀ x, in_table m0 old x → ld m x = ld m0 x) as Hx.
  { intros x (p & t & Hp & Et & Hin). eapply apart_page; [done|done|done| |exact Hin].
    left. by exists p. }
  split; [by apply leaf_ext|].
  pose proof (vm_wf _ _ _ _ (u_inv _ _ _ _ _ (ap_uvm _ _ _ _ _ _ A))) as Hwf.
  apply pt_wf_ext with m0; [done|]. intros q t x Hq _ Et Hin. apply Hx. by exists q, t.
Qed.

Abbreviation copied m0 old new l0 :=
  (growing m0 new l0 0 (λ i, PTE_FLAGS (leaf m0 old (Z.of_nat i * PGSIZE)))
     (λ i off, ld m0 (PTE2PA (leaf m0 old (Z.of_nat i * PGSIZE)) + off))).

Lemma PTE_FLAGS_range e : 0 ≤ PTE_FLAGS e < 2 ^ 10.
Proof.
  unfold PTE_FLAGS. change 0x3FF with (Z.ones 10). rewrite Z.land_ones by done.
  by apply Z.mod_pos_bound.
Qed.

(** The flags of a valid entry contain [PTE_V]. *)
Lemma PTE_FLAGS_V e : Z.land e PTE_V ≠ 0 → Z.lor (PTE_FLAGS e) PTE_V = PTE_FLAGS e.
Proof.
  intros HV. assert (Z.testbit e 0 = true) as Hb.
  { destruct (Z.testbit e 0) eqn:Eb; [done|]. exfalso. apply HV.
    change PTE_V with (2 ^ 0). apply Z.bits_inj'. intros k Hk.
    rewrite Z.land_spec, Z.bits_0. destruct (decide (k = 0)) as [->|]; [by rewrite Eb|].
    rewrite Z.pow2_bits_false by lia. apply andb_false_r. }
  apply Z.bits_inj'. intros k Hk. unfold PTE_FLAGS. rewrite Z.lor_spec, Z.land_spec.
  change PTE_V with (2 ^ 0). destruct (decide (k = 0)) as [->|].
  - rewrite Hb. done.
  - rewrite (Z.pow2_bits_false 0 k) by lia. apply orb_false_r.
Qed.

Lemma kmemmove_with_mem s m fl d a n :
  kmemmove d a n (with_mem s m fl) = Ret tt (with_mem s (memmove m d a n) fl).
Proof. done. Qed.

Section uvmcopy.
Context (m0 : mem) (fl0 old new : Z) (l0 : list Z) (N : nat).
Hypothesis A : apart m0 fl0 old new l0 N.
Hypothesis I0 : vm_inv m0 fl0 new l0.

(** The frame copied from is not the one just allocated. *)
Lemma uvmcopy_src m l p q off :
  evolves m0 m new l0 l → q ∈ upages m0 old 0 N → 0 ≤ off < PGSIZE → p ∈ l →
  ¬ (p ≤ q + off < p + PGSIZE).
Proof.
  intros E Hq Hoff Hp Hin. apply (ev_sub _ _ _ _ _ E) in Hp.
  destruct (ap_uvm _ _ _ _ _ _ A) as [_ _ [_ Hv Hf _] _ _].
  destruct (Forall_elem _ _ _ Hv Hq) as [Hqa _].
  destruct (free_list_valid _ _ _ _ (vm_free _ _ _ _ I0) Hp) as [Hpa _].
  apply (page_disjoint p q (q + off) (q + off)); try done; [|lia].
  intros ->. by apply (Hf q Hq).
Qed.

Lemma uvmcopy_step_eq s l n sz :
  hart_ok s → lock_free s LkKmem → copied m0 old new l0 (physmem s) (freelist s) l n →
  Z.of_nat n * PGSIZE < sz → (n < N)%nat →
  (∃ m' fl' l',
    uvmcopy_step old new sz (Z.of_nat n * PGSIZE) s
      = Ret (inl (Z.of_nat (S n) * PGSIZE)) (with_mem s m' fl') ∧
    copied m0 old new l0 m' fl' l' (S n) ∧ (length l ≤ length l' + 3)%nat) ∨
  (∃ m' fl' l',
    uvmcopy_step old new sz (Z.of_nat n * PGSIZE) s = Ret (inr (-1)) (with_mem s m' fl') ∧
    copied m0 old new l0 m' fl' l' 0 ∧ (length l < 3)%nat).
Proof.
  intros Hh Hk G Hlt HN. pose proof (gr_evolves _ _ _ _ _ _ _ _ _ _ G) as E.
  destruct (apart_leaf _ _ _ _ _ _ _ _ (Z.of_nat n * PGSIZE) A I0 E) as [Le Hwf].
  pose proof (ap_uvm _ _ _ _ _ _ A) as U0. pose proof (u_size _ _ _ _ _ U0) as Hsz.
  destruct (u_mapped _ _ _ _ _ U0 n HN) as [HV HF]. rewrite Z.add_0_l in HV, HF.
  assert (PTE2PA (leaf m0 old (Z.of_nat n * PGSIZE)) ∈ upages m0 old 0 N) as Hq
    by (apply elem_upages; mlia).
  set (e := leaf m0 old (Z.of_nat n * PGSIZE)) in *.
  unfold uvmcopy_step. destruct (Z.ltb_spec (Z.of_nat n * PGSIZE) sz); [|lia].
  destruct (walk_leaf s old (Z.of_nat n * PGSIZE) Hwf ltac:(mlia))
    as (a & Hw & Ha & Ea & _).
  { rewrite Le. intros Ez. apply HV. by rewrite Ez. }
  rewrite (bind_Ret _ _ _ _ _ Hw), (proj2 (Z.eqb_neq _ _) Ha).
  rewrite (bind_Ret _ _ s e s) by (unfold load64, gets; by rewrite Ea, Le).
  rewrite (proj2 (Z.eqb_neq _ _) HV). rewrite Z.div_mul by done.
  pose proof (vm_free _ _ _ _ (u_inv _ _ _ _ _ (gr_uvm _ _ _ _ _ _ _ _ _ _ G))) as Hf.
  destruct (kalloc_cases s l Hh Hk Hf) as [[-> Hka]|(p & l' & -> & Efl & Hne & Hka)];
    run Hka.
  - right. destruct (growing_undo _ _ _ _ _ _ s [] n Hh Hk G) as (m' & fl' & l' & Hr & G').
    rewrite Nat.sub_0_r in Hr.
    exists m', fl', l'. split_and!; [|done|cbn; lia]. cbn [Z.eqb]. by run Hr.
  - rewrite (proj2 (Z.eqb_neq _ _) Hne), Efl in *.
    run (kmemmove_with_mem _ _ _ _ _ _).
    set (m1 := memmove (kalloc_mem (physmem s) p) p (PTE2PA e) PGSIZE).
    destruct (growing_page _ _ _ _ _ _ s (physmem s) p l' n m1 Hh Hk G)
      as [(m' & fl' & l2 & Hr & G' & Hlen)|(m' & fl' & Hr & Hv & G' & Hlen)].
    + intros x Hx. unfold m1. by rewrite ld_memmove, decide_False, ld_kalloc_mem, decide_False by done.
    + intros off Hoff. fold e. unfold m1. rewrite ld_memmove.
      rewrite decide_True by lia. replace (p + off - p) with off by lia.
      rewrite ld_kalloc_mem. rewrite decide_False by (by eapply uvmcopy_src; [| | |by left]).
      eapply apart_page; [done|done|done|right; exact Hq|lia].
    + apply PTE_FLAGS_range.
    + rewrite PTE_FLAGS_V; done.
    + mlia.
    + left. exists m', fl', l2. split_and!; [|done|cbn; lia]. fold e in Hr. run Hr.
      cbn [Z.eqb negb]. rewrite u64_small by mlia. do 2 f_equal. lia.
    + right. fold e in Hr. run Hr. cbn [Z.eqb negb].
      run (kfree_eq (with_mem s m' fl') p Hh Hk Hv).
      rewrite physmem_with_mem, freelist_with_mem, with_mem_with_mem.
      destruct (growing_undo _ _ _ _ _ _ (with_mem s (kfree_mem m' fl' p) p) [p] n Hh Hk G')
        as (m2 & fl2 & l2 & Hr2 & G2). rewrite Nat.sub_0_r in Hr2.
      exists m2, fl2, l2. split_and!; [|done|cbn; lia]. by run Hr2.
Qed.

Lemma uvmcopy_run k s l n sz :
  hart_ok s → lock_free s LkKmem → copied m0 old new l0 (physmem s) (freelist s) l n →
  0 ≤ sz ≤ TRAPFRAME → pgs sz = (n + k)%nat → pgs sz = N →
  ∃ r m' fl' l',
    run_n (S k) (uvmcopy_step old new sz) (Z.of_nat n * PGSIZE) s
      = Ret (inr r) (with_mem s m' fl') ∧
    ((r = 0 ∧ copied m0 old new l0 m' fl' l' N) ∨
     (r = -1 ∧ copied m0 old new l0 m' fl' l' 0 ∧ (length l < 3 * k)%nat)).
Proof.
  intros Hh Hk G Hmax Hp HN. revert s l n Hh Hk G Hp.
  induction k as [|k IH]; intros s l n Hh Hk G Hp;
    destruct (pgs_eq sz ltac:(mlia)) as [_ Hr].
  - exists 0, (physmem s), (freelist s), l. rewrite with_mem_id. split.
    + apply run_n_stop. unfold uvmcopy_step.
      by destruct (Z.ltb_spec (Z.of_nat n * PGSIZE) sz); [mlia|].
    + left. split; [done|]. by replace N with n by lia.
  - destruct (uvmcopy_step_eq s l n sz)
      as [(m1 & fl1 & l1 & Hs & G1 & Hlen)|(m1 & fl1 & l1 & Hs & G1 & Hlen)];
      try done; [mlia|mlia| |].
    + destruct (IH (with_mem s m1 fl1) l1 (S n)) as (r & m' & fl' & l' & Hr' & Hres);
        try done; [lia|].
      exists r, m', fl', l'. split.
      * rewrite (run_n_next _ _ _ _ _ _ Hs). etransitivity; [exact Hr'|].
        by rewrite with_mem_with_mem.
      * destruct Hres as [?|(? & ? & ?)]; [by left|right; split_and!; done || lia].
    + exists (-1), m1, fl1, l1. split; [by apply run_n_stop|right; split_and!; done || lia].
Qed.
End uvmcopy.

Lemma uvmcopy_eq s old new l sz :
  hart_ok s → lock_free s LkKmem → 0 ≤ sz ≤ TRAPFRAME →
  apart (physmem s) (freelist s) old new l (pgs sz) →
  uvm (physmem s) (freelist s) new l 0 →
  ∃ r m' fl' l',
    uvmcopy old new sz s = Ret r (with_mem s m' fl') ∧
    ((r = 0 ∧ copied (physmem s) old new l m' fl' l' (pgs sz)) ∨
     (r = -1 ∧ copied (physmem s) old new l m' fl' l' 0 ∧ (length l < 3 * pgs sz)%nat)).
Proof.
  intros Hh Hk Hsz A U. pose proof (pgs_eq sz ltac:(mlia)).
  destruct (uvmcopy_run (physmem s) (freelist s) old new l (pgs sz) A (u_inv _ _ _ _ _ U)
              (pgs sz) s l 0 sz) as (r & m' & fl' & l' & Hr & Hres);
    try done; [by apply growing_start|].
  exists r, m', fl', l'. split; [|done].
  apply (loop_Ret _ (S (pgs sz))); [mlia|exact Hr].
Qed.

(** ** What the callers see *)

(** The pages an operation took out of the free list are in the address space. *)
Definition no_leak (l l' : list Z) (m' : mem) (root : Z) : Prop :=
  ∀ q, q ∈ l → q ∈ l' ∨ is_table m' root q.

Lemma uview_page m root i va :
  Z.of_nat i * PGSIZE ≤ va < Z.of_nat (S i) * PGSIZE → va < MAXVA →
  leaf m root va = leaf m root (Z.of_nat i * PGSIZE) ∧
  uview m root va = ld m (PTE2PA (leaf m root (Z.of_nat i * PGSIZE)) + va mod PGSIZE).
Proof.
  intros Hva Hmax.
  assert (leaf m root va = leaf m root (Z.of_nat i * PGSIZE)) as E by (apply leaf_page; mlia).
  split; [done|]. unfold uview. by rewrite E.
Qed.

Section growing_view.
Context (m0 : mem) (root : Z) (l0 : list Z) (n0 : nat).
Context (perm : nat → Z) (content : nat → Z → Z).

(** What a grown address space looks like to its user. *)
Lemma growing_view m fl fl0 l n :
  uvm m0 fl0 root l0 n0 → growing m0 root l0 n0 perm content m fl l n →
  (∀ va, 0 ≤ va < Z.of_nat n0 * PGSIZE →
     leaf m root va = leaf m0 root va ∧ uview m root va = uview m0 root va) ∧
  (∀ va, Z.of_nat n0 * PGSIZE ≤ va < Z.of_nat n * PGSIZE →
     uview m root va = content (Z.to_nat (va / PGSIZE)) (va mod PGSIZE) ∧
     PTE_FLAGS (leaf m root va) = Z.lor (perm (Z.to_nat (va / PGSIZE))) PTE_V).
Proof.
  intros U [U' E Hle _ _ Hold Hperm Hcont]. pose proof (u_size _ _ _ _ _ U') as Hsz. split.
  - intros va Hva. rewrite Hold by (by left). split; [done|]. unfold uview.
    rewrite Hold by (by left).
    apply (evolves_data m0 m fl0 root l0 l n0); (done || mlia).
  - intros va Hva. assert (Z.of_nat (Z.to_nat (va / PGSIZE)) = va / PGSIZE) as Ei by (apply Z2Nat.id; mlia).
    remember (Z.to_nat (va / PGSIZE)) as i eqn:Eqi. clear Eqi.
    assert (Z.of_nat i * PGSIZE ≤ va < Z.of_nat (S i) * PGSIZE) as Hi by mlia.
    destruct (uview_page m root i va Hi ltac:(mlia)) as [-> ->].
    split; [apply Hcont|apply Hperm]; mlia.
Qed.

Lemma growing_no_leak m fl l :
  growing m0 root l0 n0 perm content m fl l n0 → no_leak l0 l m root.
Proof.
  intros G q Hq. destruct (gr_all _ _ _ _ _ _ _ _ _ _ G q Hq) as [|[|Hin]]; [tauto|tauto|].
  rewrite Nat.sub_diag in Hin. by apply elem_of_nil in Hin.
Qed.
End growing_view.
End space.
