(* ===== verification/VmCopy.v ===== *)
(** * kernel/vm.c: copyout, copyin and copyinstr

    The three routines work page by page; here each is shown to do exactly what
    a reference does byte by byte ([uwrite], [uread], [ureadstr]), from which
    the round trip and the safety of the copies follow. *)

From S2P Require Import Prelude Machine Memory Kstring State Spinlock Kalloc Vm VmTables VmMap VmSpace.

Section copy.
Context `{KernelLayout} `{!LayoutOk}.

(** An address space without user pages at or above the trapframe. *)
Record uspace (m : mem) (fl root : Z) (l : list Z) (n : nat) : Prop := {
  us_uvm : uvm m fl root l n;
  us_top : ∀ va, TRAPFRAME ≤ va < MAXVA → user_pa m root va = 0
}.

(** The physical address of a user byte; 0 when the user cannot reach it. *)
Definition upa (m : mem) (root va : Z) : Z :=
  if va <? MAXVA then user_pa m root va else 0.

(** ** Byte-by-byte references *)

Fixpoint uwrite (m : mem) (root va : Z) (src : list Z) : Z * mem :=
  match src with
  | [] => (0, m)
  | b :: src' =>
      if upa m root va =? 0 then (-1, m)
      else uwrite (st m (upa m root va + va mod PGSIZE) b) root (va + 1) src'
  end.

Fixpoint uread (m : mem) (root va : Z) (len : nat) : Z * list Z :=
  match len with
  | O => (0, [])
  | S len' =>
      if upa m root va =? 0 then (-1, [])
      else let '(r, l) := uread m root (va + 1) len' in
           (r, ld m (upa m root va + va mod PGSIZE) :: l)
  end.

Fixpoint ureadstr (m : mem) (root va : Z) (max : nat) : Z * list Z :=
  match max with
  | O => (-1, [])
  | S max' =>
      if upa m root va =? 0 then (-1, [])
      else if ld m (upa m root va + va mod PGSIZE) =? 0 then (0, [0])
      else let '(r, l) := ureadstr m root (va + 1) max' in
           (r, ld m (upa m root va + va mod PGSIZE) :: l)
  end.

(** ** Accessible addresses *)

Lemma upa_page m root va va' :
  0 ≤ va → 0 ≤ va' → va / PGSIZE = va' / PGSIZE → upa m root va = upa m root va'.
Proof.
  intros Hva Hva' E. unfold upa.
  destruct (Z.ltb_spec va MAXVA), (Z.ltb_spec va' MAXVA); [|mlia|mlia|done].
  unfold user_pa. by rewrite (leaf_page m root va va') by (lia || done).
Qed.

Lemma upa_inv m fl root l n va :
  uspace m fl root l n → 0 ≤ va → upa m root va ≠ 0 →
  va < Z.of_nat n * PGSIZE ∧ upa m root va = PTE2PA (leaf m root va).
Proof.
  intros [U Ht] Hva. unfold upa. destruct (Z.ltb_spec va MAXVA); [|done].
  intros Hne. assert (va < Z.of_nat n * PGSIZE) as Hlt.
  { destruct (decide (va < Z.of_nat n * PGSIZE)); [done|]. exfalso. apply Hne.
    destruct (decide (va < TRAPFRAME)); [|apply Ht; lia].
    unfold user_pa. rewrite (u_above _ _ _ _ _ U) by lia. done. }
  split; [done|]. revert Hne. unfold user_pa.
  by destruct ((Z.land (leaf m root va) PTE_V =? 0) || (Z.land (leaf m root va) PTE_U =? 0)).
Qed.

(** Walking never fails on an accessible page. *)
Lemma walkaddr_upa s fl root l n va :
  uspace (physmem s) fl root l n → 0 ≤ va →
  walkaddr root va s = Ret (upa (physmem s) root va) s.
Proof.
  intros [U _] Hva. apply walkaddr_eq; [|done]. apply (vm_wf _ _ _ _ (u_inv _ _ _ _ _ U)).
Qed.

(** A store to a user byte keeps the address space. *)
Lemma uspace_st m fl root l n va b :
  uspace m fl root l n → 0 ≤ va → upa m root va ≠ 0 →
  let m' := st m (upa m root va + va mod PGSIZE) b in
  uspace m' fl root l n ∧ ∀ va', leaf m' root va' = leaf m root va'.
Proof.
  intros S Hva Hne m'. pose proof S as [U Ht].
  destruct (upa_inv _ _ _ _ _ _ S Hva Hne) as [Hlt Ep].
  destruct (owned_byte _ _ _ _ _ va (va mod PGSIZE) U ltac:(lia) ltac:(mlia)) as [Hnt Hnf].
  rewrite <- Ep in Hnt, Hnf.
  assert (∀ x, x ≠ upa m root va + va mod PGSIZE → ld m' x = ld m x) as Hm'
    by (intros x Hx; by apply ld_st_ne).
  destruct (vm_ext m m' fl root l (u_inv _ _ _ _ _ U)) as (I' & T' & L').
  { intros x Hx. apply Hm'. by intros ->. }
  { intros q x Hq Hx. apply Hm'. intros ->. by eapply Hnf. }
  split; [|done]. split.
  - apply (uvm_same m m' fl fl root l l); try done.
    intros p t Hp. rewrite T' by done. tauto.
  - intros va' Hva'. unfold user_pa. rewrite L'. by apply Ht.
Qed.

(** Such a store changes the translation of no address. *)
Lemma upa_leaf m m' root :
  (∀ va, leaf m' root va = leaf m root va) → ∀ va, upa m' root va = upa m root va.
Proof. intros L va. unfold upa, user_pa. by rewrite L. Qed.

(** ** copyout *)

(** Writing the first [k] bytes, all in one page. *)
Lemma uwrite_page k m fl root l n va src :
  uspace m fl root l n → 0 ≤ va → upa m root va ≠ 0 →
  (k ≤ length src)%nat → va mod PGSIZE + Z.of_nat k ≤ PGSIZE →
  let m' := stbytes m (upa m root va + va mod PGSIZE) (take k src) in
  uspace m' fl root l n ∧ (∀ va', leaf m' root va' = leaf m root va') ∧
  uwrite m root va src = uwrite m' root (va + Z.of_nat k) (drop k src).
Proof.
  revert m va src. induction k as [|k IH]; intros m va src S Hva Hne Hlen Hpg.
  - rewrite Z.add_0_r. done.
  - destruct src as [|b src]; [cbn in Hlen; lia|]. cbn [take drop stbytes uwrite].
    rewrite (proj2 (Z.eqb_neq _ _) Hne).
    destruct (uspace_st m fl root l n va b S Hva Hne) as [S1 L1].
    set (m1 := st m _ b) in *. destruct k as [|k].
    + cbn [take drop stbytes]. replace (va + Z.of_nat 1) with (va + 1) by lia. done.
    + assert (upa m1 root (va + 1) = upa m root va) as E1.
      { rewrite (upa_leaf m m1 root L1). apply upa_page; mlia. }
      destruct (IH m1 (va + 1) src S1) as (S2 & L2 & E2);
        [lia|by rewrite E1|cbn in Hlen; lia|mlia|].
      replace (upa m1 root (va + 1) + (va + 1) mod PGSIZE)
        with (upa m root va + va mod PGSIZE + 1) in S2, L2, E2 by (rewrite E1; mlia).
      split_and!; [exact S2| |].
      * intros va'. rewrite L2. apply L1.
      * rewrite E2. f_equal. lia.
Qed.

(** The part of the buffer that fits in the page of [va]. *)
Definition chunk (va len : Z) : Z :=
  if PGSIZE - (va - PGROUNDDOWN va) >? len then len else PGSIZE - (va - PGROUNDDOWN va).

Lemma chunk_spec va len :
  0 ≤ va < 2 ^ 64 → 0 < len →
  0 < chunk va len ≤ len ∧ va mod PGSIZE + chunk va len ≤ PGSIZE ∧
  (chunk va len = len ∨ PGROUNDDOWN va + PGSIZE = va + chunk va len).
Proof.
  intros Hva Hlen. unfold chunk. rewrite PGROUNDDOWN_eq by mlia.
  destruct (Z.gtb_spec (PGSIZE - (va - PGSIZE * (va / PGSIZE))) len); mlia.
Qed.

Lemma PGROUNDDOWN_page va :
  0 ≤ va < 2 ^ 64 → 0 ≤ PGROUNDDOWN va ∧ PGROUNDDOWN va / PGSIZE = va / PGSIZE ∧
  va - PGROUNDDOWN va = va mod PGSIZE.
Proof. intros Hva. rewrite PGROUNDDOWN_eq by mlia. mlia. Qed.

(** One page of [copyout]. *)
Lemma copyout_step_eq s root l n va src :
  uspace (physmem s) (freelist s) root l n → 0 ≤ va < 2 ^ 64 → src ≠ [] →
  let k := Z.to_nat (chunk va (Z.of_nat (length src))) in
  let m' := stbytes (physmem s) (upa (physmem s) root va + va mod PGSIZE) (take k src) in
  copyout_step root (va, src) s =
    if upa (physmem s) root va =? 0 then Ret (inr (-1)) s
    else Ret (inl (u64 (PGROUNDDOWN va + PGSIZE), drop k src)) (with_mem s m' (freelist s)).
Proof.
  intros S Hva Hsrc k m'. unfold copyout_step.
  destruct (Z.gtb_spec (Z.of_nat (length src)) 0) as [Hpos|Hpos].
  2:{ destruct src; [done|]. cbn in Hpos. lia. }
  destruct (PGROUNDDOWN_page va Hva) as (H0' & Hpg & Hoff).
  run (walkaddr_upa s (freelist s) root l n _ S H0').
  rewrite (upa_page _ _ (PGROUNDDOWN va) va) by (lia || done).
  destruct (upa (physmem s) root va =? 0); [done|].
  rewrite (bind_Ret _ _ _ tt (with_mem s m' (freelist s))); [done|].
  unfold modify, m', k, chunk. rewrite upd_mem_eq, Hoff. reflexivity.
Qed.

Lemma copyout_run k s root l n va src :
  uspace (physmem s) (freelist s) root l n → 0 ≤ va < 2 ^ 64 → (length src ≤ k)%nat →
  run_n (S k) (copyout_step root) (va, src) s =
    Ret (inr (fst (uwrite (physmem s) root va src)))
      (with_mem s (snd (uwrite (physmem s) root va src)) (freelist s)).
Proof.
  revert s va src. induction k as [|k IH]; intros s va src S Hva Hlen;
    (destruct (decide (src = [])) as [->|Hne];
      [cbn [uwrite fst snd]; rewrite with_mem_id; by apply run_n_stop|]).
  { destruct src; [done|]. cbn in Hlen. lia. }
  assert (0 < Z.of_nat (length src)) as Hpos by (destruct src; [done|]; cbn; lia).
  pose proof (copyout_step_eq s root l n va src S Hva Hne) as Hs. cbv zeta in Hs.
  destruct (chunk_spec va (Z.of_nat (length src)) Hva Hpos) as (Hc & Hpg & Hnext).
  set (c := chunk va (Z.of_nat (length src))) in *. clearbody c.
  destruct (Z.eqb_spec (upa (physmem s) root va) 0) as [E|E].
  - rewrite (run_n_stop _ _ _ _ _ _ Hs). destruct src as [|b src]; [done|].
    cbn [uwrite]. rewrite E. cbn [Z.eqb fst snd]. by rewrite with_mem_id.
  - rewrite (run_n_next _ _ _ _ _ _ Hs).
    destruct (uwrite_page (Z.to_nat c) (physmem s) (freelist s) root l n va src)
      as (S' & _ & ->); [done|lia|done|lia|lia|].
    rewrite Z2Nat.id by lia.
    set (m' := stbytes _ _ _) in *. destruct Hnext as [Hall|Hnext].
    + assert (drop (Z.to_nat c) src = []) as -> by (apply drop_ge; lia).
      cbn [uwrite fst snd]. by apply run_n_stop.
    + destruct (upa_inv _ _ _ _ _ _ S (proj1 Hva) E) as [Hlt _].
      pose proof (u_size _ _ _ _ _ (us_uvm _ _ _ _ _ S)) as Hsz.
      rewrite u64_small by mlia. rewrite Hnext.
      rewrite (IH (with_mem s m' (freelist s)));
        [by rewrite physmem_with_mem, with_mem_with_mem, freelist_with_mem|done|mlia|].
      rewrite length_drop. lia.
Qed.

Lemma copyout_eq s root l n va src :
  uspace (physmem s) (freelist s) root l n → 0 ≤ va < 2 ^ 64 →
  Z.of_nat (length src) < 2 ^ 64 →
  copyout root va src s =
    Ret (fst (uwrite (physmem s) root va src))
      (with_mem s (snd (uwrite (physmem s) root va src)) (freelist s)).
Proof.
  intros S Hva Hlen. apply (loop_Ret _ (Datatypes.S (length src))); [lia|].
  by apply copyout_run with l n.
Qed.

(** ** copyin *)

Lemma uread_page k m root va rest :
  0 ≤ va → upa m root va ≠ 0 → va mod PGSIZE + Z.of_nat k ≤ PGSIZE →
  uread m root va (k + rest) =
    let '(r, l) := uread m root (va + Z.of_nat k) rest in
    (r, ldbytes m (upa m root va + va mod PGSIZE) k ++ l).
Proof.
  revert va. induction k as [|k IH]; intros va Hva Hne Hpg.
  - rewrite Z.add_0_r. cbn. by destruct (uread m root va rest).
  - cbn [Nat.add uread]. rewrite (proj2 (Z.eqb_neq _ _) Hne). destruct k as [|k].
    { cbn [Nat.add]. replace (va + Z.of_nat 1) with (va + 1) by lia.
      destruct (uread m root (va + 1) rest). by rewrite ldbytes_S. }
    assert (upa m root (va + 1) = upa m root va) as E1 by (apply upa_page; mlia).
    rewrite IH; [|lia|by rewrite E1|mlia].
    replace (va + 1 + Z.of_nat (S k)) with (va + Z.of_nat (S (S k))) by lia.
    destruct (uread m root (va + Z.of_nat (S (S k))) rest). rewrite (ldbytes_S _ _ (S k)). cbn [app].
    do 4 f_equal. rewrite E1. mlia.
Qed.

Lemma copyin_step_eq s fl root l n va len dst :
  uspace (physmem s) fl root l n → 0 ≤ va < 2 ^ 64 → 0 < len →
  let c := chunk va len in
  copyin_step root (va, len, dst) s =
    if upa (physmem s) root va =? 0 then Ret (inr (-1, dst)) s
    else Ret (inl (u64 (PGROUNDDOWN va + PGSIZE), len - c,
               dst ++ ldbytes (physmem s) (upa (physmem s) root va + va mod PGSIZE)
                        (Z.to_nat c))) s.
Proof.
  intros S Hva Hlen c. unfold copyin_step. destruct (Z.gtb_spec len 0); [|lia].
  destruct (PGROUNDDOWN_page va Hva) as (H0' & Hpg & Hoff).
  run (walkaddr_upa s fl root l n _ S H0').
  rewrite (upa_page _ _ (PGROUNDDOWN va) va) by (lia || done).
  destruct (upa (physmem s) root va =? 0); [done|].
  rewrite (bind_Ret _ _ s (physmem s) s) by done. unfold c, chunk. by rewrite Hoff.
Qed.

Lemma copyin_run k s fl root l n va len dst :
  uspace (physmem s) fl root l n → 0 ≤ va < 2 ^ 64 → 0 ≤ len ≤ Z.of_nat k →
  run_n (S k) (copyin_step root) (va, len, dst) s =
    let '(r, bs) := uread (physmem s) root va (Z.to_nat len) in Ret (inr (r, dst ++ bs)) s.
Proof.
  intros S. revert va len dst. induction k as [|k IH]; intros va len dst Hva Hlen;
    (destruct (decide (len = 0)) as [->|Hne];
      [change (Z.to_nat 0) with 0%nat; cbn [uread]; rewrite app_nil_r; by apply run_n_stop|]); [lia|].
  pose proof (copyin_step_eq s fl root l n va len dst S Hva ltac:(lia)) as Hs. cbv zeta in Hs.
  destruct (chunk_spec va len Hva ltac:(lia)) as (Hc & Hpg & Hnext).
  set (c := chunk va len) in *. clearbody c.
  destruct (Z.eqb_spec (upa (physmem s) root va) 0) as [E|E].
  - rewrite (run_n_stop _ _ _ _ _ _ Hs).
    destruct (Z.to_nat len) as [|len'] eqn:El; [lia|]. cbn [uread]. rewrite E. cbn [Z.eqb].
    by rewrite app_nil_r.
  - rewrite (run_n_next _ _ _ _ _ _ Hs).
    replace (Z.to_nat len) with (Z.to_nat c + Z.to_nat (len - c))%nat by lia.
    rewrite (uread_page (Z.to_nat c)) by (done || (rewrite Z2Nat.id by lia; done) || lia).
    rewrite Z2Nat.id by lia. destruct Hnext as [Hall|Hnext].
    + replace (Z.to_nat (len - c)) with 0%nat by lia. replace (len - c) with 0 by lia.
      cbn [uread]. rewrite app_nil_r. by apply run_n_stop.
    + destruct (upa_inv _ _ _ _ _ _ S (proj1 Hva) E) as [Hlt _].
      pose proof (u_size _ _ _ _ _ (us_uvm _ _ _ _ _ S)) as Hsz.
      rewrite u64_small by mlia. rewrite Hnext, IH by mlia.
      destruct (uread (physmem s) root (va + c) (Z.to_nat (len - c))). by rewrite <- app_assoc.
Qed.

Lemma copyin_eq s fl root l n va len :
  uspace (physmem s) fl root l n → 0 ≤ va < 2 ^ 64 → 0 ≤ len < 2 ^ 64 →
  copyin root va len s = Ret (uread (physmem s) root va (Z.to_nat len)) s.
Proof.
  intros S Hva Hlen. apply (loop_Ret _ (Datatypes.S (Z.to_nat len))); [lia|].
  rewrite (copyin_run (Z.to_nat len) s fl root l n) by (done || lia).
  by destruct (uread (physmem s) root va (Z.to_nat len)).
Qed.

(** ** copyinstr *)

(** Reading a page's bytes up to the NUL. *)
Lemma copyinstr_page_spec k m root va max dst :
  0 ≤ va → upa m root va ≠ 0 → va mod PGSIZE + Z.of_nat k ≤ PGSIZE → Z.of_nat k ≤ max →
  let '(found, max', dst') :=
    copyinstr_page k m (upa m root va + va mod PGSIZE) max dst in
  if found : bool then
    ∃ bs, dst' = dst ++ bs ∧ ureadstr m root va (Z.to_nat max) = (0, bs)
  else
    max' = max - Z.of_nat k ∧
    ∃ bs, dst' = dst ++ bs ∧
      ureadstr m root va (Z.to_nat max) =
        let '(r, l) := ureadstr m root (va + Z.of_nat k) (Z.to_nat max') in (r, bs ++ l).
Proof.
  revert va max dst. induction k as [|k IH]; intros va max dst Hva Hne Hpg Hmax.
  - cbn. split; [lia|]. exists []. rewrite app_nil_r, Z.add_0_r. split; [done|].
    by destruct (ureadstr m root va (Z.to_nat max)).
  - cbn [copyinstr_page]. replace (Z.to_nat max) with (S (Z.to_nat (max - 1))) by lia.
    cbn [ureadstr]. rewrite (proj2 (Z.eqb_neq _ _) Hne).
    destruct (ld m (upa m root va + va mod PGSIZE) =? 0) eqn:Eb; [by exists [0]|].
    set (b := ld m (upa m root va + va mod PGSIZE)) in *. destruct k as [|k].
    { cbn [copyinstr_page]. split; [lia|]. exists [b]. split; [done|].
      change (va + Z.of_nat 1) with (va + 1).
      by destruct (ureadstr m root (va + 1) (Z.to_nat (max - 1))). }
    assert (upa m root (va + 1) = upa m root va) as E1 by (apply upa_page; mlia).
    specialize (IH (va + 1) (max - 1) (dst ++ [b])). rewrite E1 in IH.
    replace (upa m root va + (va + 1) mod PGSIZE)
      with (upa m root va + va mod PGSIZE + 1) in IH by mlia.
    specialize (IH ltac:(lia) Hne ltac:(mlia) ltac:(lia)).
    destruct (copyinstr_page (S k) m _ (max - 1) _) as [[[] max'] dst'].
    + destruct IH as (bs & -> & ->). exists (b :: bs). by rewrite <- app_assoc.
    + destruct IH as (-> & bs & -> & ->). split; [lia|]. exists (b :: bs).
      rewrite <- app_assoc. split; [done|].
      replace (va + Z.of_nat (S (S k))) with (va + 1 + Z.of_nat (S k)) by lia.
      by destruct (ureadstr m root (va + 1 + Z.of_nat (S k)) _).
Qed.

Lemma copyinstr_step_eq s fl root l n va max dst :
  uspace (physmem s) fl root l n → 0 ≤ va < 2 ^ 64 → 0 < max →
  copyinstr_step root (false, va, max, dst) s =
    if upa (physmem s) root va =? 0 then Ret (inr (-1, dst)) s
    else
      let '(found, max', dst') :=
        copyinstr_page (Z.to_nat (chunk va max)) (physmem s)
          (upa (physmem s) root va + va mod PGSIZE) max dst in
      Ret (inl (found, u64 (PGROUNDDOWN va + PGSIZE), max', dst')) s.
Proof.
  intros S Hva Hmax. unfold copyinstr_step. destruct (Z.gtb_spec max 0); [|lia].
  cbn [negb andb]. destruct (PGROUNDDOWN_page va Hva) as (H0' & Hpg & Hoff).
  run (walkaddr_upa s fl root l n _ S H0').
  rewrite (upa_page _ _ (PGROUNDDOWN va) va) by (lia || done).
  destruct (upa (physmem s) root va =? 0); [done|].
  rewrite (bind_Ret _ _ s (physmem s) s) by done. unfold chunk. rewrite Hoff.
  by destruct (copyinstr_page _ _ _ _ _) as [[? ?] ?].
Qed.

Lemma copyinstr_run k s fl root l n va max dst :
  uspace (physmem s) fl root l n → 0 ≤ va < 2 ^ 64 → 0 ≤ max ≤ Z.of_nat k →
  run_n (S (S k)) (copyinstr_step root) (false, va, max, dst) s =
    let '(r, bs) := ureadstr (physmem s) root va (Z.to_nat max) in Ret (inr (r, dst ++ bs)) s.
Proof.
  intros S. revert va max dst. induction k as [|k IH]; intros va max dst Hva Hmax;
    (destruct (decide (max = 0)) as [->|Hne];
      [change (Z.to_nat 0) with 0%nat; cbn [ureadstr]; rewrite app_nil_r;
       by apply run_n_stop|]); [lia|].
  pose proof (copyinstr_step_eq s fl root l n va max dst S Hva ltac:(lia)) as Hs.
  destruct (chunk_spec va max Hva ltac:(lia)) as (Hc & Hpg & Hnext).
  set (c := chunk va max) in *. clearbody c.
  destruct (Z.eqb_spec (upa (physmem s) root va) 0) as [E|E].
  - rewrite (run_n_stop _ _ _ _ _ _ Hs).
    destruct (Z.to_nat max) as [|max'] eqn:El; [lia|]. cbn [ureadstr]. rewrite E. cbn [Z.eqb].
    by rewrite app_nil_r.
  - pose proof (copyinstr_page_spec (Z.to_nat c) (physmem s) root va max dst
      (proj1 Hva) E ltac:(rewrite Z2Nat.id by lia; done) ltac:(lia)) as Hpage.
    destruct (copyinstr_page (Z.to_nat c) _ _ _ _) as [[[] max'] dst'].
    + destruct Hpage as (bs & -> & ->). rewrite (run_n_next _ _ _ _ _ _ Hs).
      by apply run_n_stop.
    + destruct Hpage as (-> & bs & -> & ->). rewrite (run_n_next _ _ _ _ _ _ Hs).
      rewrite Z2Nat.id by lia. destruct Hnext as [Hall|Hnext].
      * replace (max - c) with 0 by lia. change (Z.to_nat 0) with 0%nat.
        cbn [ureadstr]. rewrite app_nil_r. by apply run_n_stop.
      * destruct (upa_inv _ _ _ _ _ _ S (proj1 Hva) E) as [Hlt _].
        pose proof (u_size _ _ _ _ _ (us_uvm _ _ _ _ _ S)) as Hsz.
        rewrite u64_small by mlia. rewrite Hnext, IH by mlia.
        destruct (ureadstr (physmem s) root (va + c) (Z.to_nat (max - c))).
        by rewrite <- app_assoc.
Qed.

Lemma copyinstr_eq s fl root l n va max :
  uspace (physmem s) fl root l n → 0 ≤ va < 2 ^ 64 → 0 ≤ max < 2 ^ 64 - 1 →
  copyinstr root va max s = Ret (ureadstr (physmem s) root va (Z.to_nat max)) s.
Proof.
  intros S Hva Hmax. apply (loop_Ret _ (Datatypes.S (Datatypes.S (Z.to_nat max)))); [lia|].
  rewrite (copyinstr_run (Z.to_nat max) s fl root l n) by (done || lia).
  by destruct (ureadstr (physmem s) root va (Z.to_nat max)).
Qed.

(** ** What the references do *)

(** The physical address of the byte at [va]. *)
Definition uaddr (m : mem) (root va : Z) : Z := upa m root va + va mod PGSIZE.

(** Distinct user bytes are distinct physical bytes. *)
Lemma uaddr_inj m fl root l n va va' :
  uspace m fl root l n → 0 ≤ va → 0 ≤ va' → upa m root va ≠ 0 → upa m root va' ≠ 0 →
  uaddr m root va = uaddr m root va' → va = va'.
Proof.
  intros S Hva Hva' Hne Hne' E. unfold uaddr in E.
  destruct (upa_inv _ _ _ _ _ _ S Hva Hne) as [Hlt Ep].
  destruct (upa_inv _ _ _ _ _ _ S Hva' Hne') as [Hlt' Ep'].
  destruct S as [[_ _ [Hd Hv _ _] _ Hsz] _].
  rewrite Ep, Ep' in E.
  assert (∀ x, 0 ≤ x < Z.of_nat n * PGSIZE →
    PTE2PA (leaf m root x) mod PGSIZE = 0 ∧
    upages m root 0 n !! Z.to_nat (x / PGSIZE) = Some (PTE2PA (leaf m root x))) as Hx.
  { intros x Hx. split.
    - by destruct (Forall_elem _ _ _ Hv (elem_upages m root n x Hx ltac:(mlia))).
    - unfold upages. apply list_lookup_fmap_Some. exists (Z.to_nat (x / PGSIZE)). split.
      + f_equal. apply leaf_page; rewrite ?Z2Nat.id; mlia.
      + apply lookup_seq. mlia. }
  destruct (Hx va) as [Ha Hl]; [lia|]. destruct (Hx va') as [Ha' Hl']; [lia|].
  assert (PTE2PA (leaf m root va) = PTE2PA (leaf m root va')) as Eq by mlia.
  rewrite <- Eq in Hl'. pose proof (NoDup_lookup _ _ _ _ Hd Hl Hl'). mlia.
Qed.

Lemma uwrite_spec m fl root l n va src r m' :
  uspace m fl root l n → 0 ≤ va → uwrite m root va src = (r, m') →
  uspace m' fl root l n ∧ (∀ va', leaf m' root va' = leaf m root va') ∧
  (∀ x, (∀ i, 0 ≤ i < Z.of_nat (length src) → upa m root (va + i) ≠ 0 →
           x ≠ uaddr m root (va + i)) → ld m' x = ld m x) ∧
  ((r = 0 ∧ ∀ (i : nat) b, src !! i = Some b →
      upa m root (va + Z.of_nat i) ≠ 0 ∧ ld m' (uaddr m root (va + Z.of_nat i)) = u8 b) ∨
   (r = -1 ∧ ∃ i : nat, (i < length src)%nat ∧ upa m root (va + Z.of_nat i) = 0)).
Proof.
  revert m va. induction src as [|b src IH]; intros m va S Hva Hw; cbn [uwrite] in Hw.
  - injection Hw as <- <-. split_and!; try done. left. split; [done|]. intros i b Hi. done.
  - destruct (Z.eqb_spec (upa m root va) 0) as [E|E].
    { injection Hw as <- <-. split_and!; try done. right. split; [done|].
      exists 0%nat. cbn. rewrite Z.add_0_r. split; [lia|done]. }
    destruct (uspace_st m fl root l n va b S Hva E) as [S1 L1]. set (m1 := st m _ b) in *.
    destruct (IH m1 (va + 1) S1 ltac:(lia) Hw) as (S' & L' & F' & R').
    assert (∀ x, upa m1 root x = upa m root x) as U1 by by apply upa_leaf.
    assert (∀ x, uaddr m1 root x = uaddr m root x) as A1 by (intros x; unfold uaddr; by rewrite U1).
    split_and!; [done|intros va'; by rewrite L'| |].
    + intros x Hx. rewrite F'.
      * apply ld_st_ne. apply not_eq_sym. specialize (Hx 0). rewrite Z.add_0_r in Hx.
        apply Hx; [cbn; lia|done].
      * intros i Hi Hu. rewrite A1. rewrite U1 in Hu.
        replace (va + 1 + i) with (va + (i + 1)) in * by lia. apply Hx; [cbn; lia|done].
    + destruct R' as [[-> R']|(-> & i & Hi & R')]; [left|right].
      * split; [done|]. intros [|i] b' Hb; cbn in Hb.
        -- injection Hb as <-. rewrite Z.add_0_r. split; [done|]. rewrite F'.
           ++ unfold m1, uaddr. apply ld_st_eq.
           ++ intros i Hi Hu Ee. rewrite U1 in Hu. rewrite A1 in Ee.
              apply (uaddr_inj m fl root l n) in Ee; try done; lia.
        -- destruct (R' i b' Hb) as [Hu Hl]. rewrite U1 in Hu. rewrite A1 in Hl.
           by replace (va + Z.of_nat (Datatypes.S i)) with (va + 1 + Z.of_nat i) by lia.
      * split; [done|]. exists (Datatypes.S i). rewrite U1 in R'. split; [cbn; lia|].
        by replace (va + Z.of_nat (Datatypes.S i)) with (va + 1 + Z.of_nat i) by lia.
Qed.

Lemma uread_ok m root va bs :
  (∀ (i : nat) b, bs !! i = Some b →
     upa m root (va + Z.of_nat i) ≠ 0 ∧ ld m (uaddr m root (va + Z.of_nat i)) = b) →
  uread m root va (length bs) = (0, bs).
Proof.
  revert va. induction bs as [|b bs IH]; intros va Hb; [done|]. cbn [length uread].
  destruct (Hb 0%nat b eq_refl) as [Hu Hl]. rewrite Z.add_0_r in *.
  rewrite (proj2 (Z.eqb_neq _ _) Hu). rewrite IH; [by f_equal; f_equal|].
  intros i b' Hi. specialize (Hb (S i) b' Hi).
  by replace (va + Z.of_nat (S i)) with (va + 1 + Z.of_nat i) in Hb by lia.
Qed.
End copy.
