(* ===== verification/VmFree.v ===== *)
(** * kernel/vm.c: freewalk and uvmfree

    Tearing down an address space gives back every table page and every user
    page, each exactly once. *)

From S2P Require Import Prelude Machine Memory Kstring State Spinlock Kalloc Vm VmTables VmMap VmSpace.

Section free.
Context `{KernelLayout} `{!LayoutOk}.

(** The entry of slot [i] and whether it leads to a lower table. *)
Definition entry (m : mem) (t i : Z) : Z := ld64 m (t + 8 * i).
Definition present (e : Z) : bool := negb (Z.land e PTE_V =? 0).

(** The table pages below [t], [d] levels deep, in the order [freewalk] frees
    them. *)
Fixpoint tables (d : nat) (m : mem) (t : Z) : list Z :=
  match d with
  | O => [t]
  | S d' =>
      flat_map (λ i, if present (entry m t i) then tables d' m (PTE2PA (entry m t i)) else [])
        (seqZ 0 512) ++ [t]
  end.

(** Directories hold no leaves, and the last level holds no valid entry. *)
Fixpoint clean (d : nat) (m : mem) (t : Z) : Prop :=
  match d with
  | O => ∀ i, 0 ≤ i < 512 → present (entry m t i) = false
  | S d' => ∀ i, 0 ≤ i < 512 → present (entry m t i) = true →
      Z.land (entry m t i) (Z.lor (Z.lor PTE_R PTE_W) PTE_X) = 0 ∧
      clean d' m (PTE2PA (entry m t i))
  end.

(** The pages freed for the slots in [idx]. *)
Definition below (d : nat) (m : mem) (t : Z) (idx : list Z) : list Z :=
  flat_map (λ i, if present (entry m t i) then tables d m (PTE2PA (entry m t i)) else []) idx.

Lemma tables_S d m t : tables (S d) m t = below d m t (seqZ 0 512) ++ [t].
Proof. done. Qed.

Lemma tables_head d m t : t ∈ tables d m t.
Proof. destruct d; cbn [tables]; [by left|]. apply elem_of_app. right. by left. Qed.

Lemma elem_of_below d m t idx q :
  q ∈ below d m t idx ↔
  ∃ i, i ∈ idx ∧ present (entry m t i) = true ∧ q ∈ tables d m (PTE2PA (entry m t i)).
Proof.
  unfold below. rewrite list_elem_of_In, in_flat_map. split.
  - intros (i & Hi & Hq). exists i. rewrite list_elem_of_In.
    destruct (present (entry m t i)); [|done]. by rewrite list_elem_of_In.
  - intros (i & Hi & Hp & Hq). exists i. rewrite list_elem_of_In in Hi. rewrite Hp.
    by rewrite list_elem_of_In in Hq.
Qed.

Lemma entry_ext m m' t i :
  0 ≤ i < 512 → (∀ x, t ≤ x < t + PGSIZE → ld m' x = ld m x) → entry m' t i = entry m t i.
Proof. intros Hi Hx. apply ld64_ext. intros x Hin. apply Hx. mlia. Qed.

(** Memories that agree on the pages of a tree have the same tree. *)
Lemma tables_ext d m m' t :
  (∀ q x, q ∈ tables d m t → q ≤ x < q + PGSIZE → ld m' x = ld m x) →
  tables d m' t = tables d m t ∧ (clean d m t → clean d m' t).
Proof.
  revert t. induction d as [|d IH]; intros t Hx.
  - split; [done|]. intros Hc i Hi. rewrite (entry_ext m); [by apply Hc|done|].
    intros x. apply Hx. by left.
  - assert (∀ i, 0 ≤ i < 512 → entry m' t i = entry m t i) as He.
    { intros i Hi. apply entry_ext; [done|]. intros x. apply Hx. apply (tables_head (S d)). }
    assert (∀ i, 0 ≤ i < 512 → present (entry m t i) = true →
      tables d m' (PTE2PA (entry m t i)) = tables d m (PTE2PA (entry m t i)) ∧
      (clean d m (PTE2PA (entry m t i)) → clean d m' (PTE2PA (entry m t i)))) as Hsub.
    { intros i Hi Hp. apply IH. intros q x Hq. apply Hx. rewrite tables_S. apply elem_of_app.
      left. apply elem_of_below. exists i. split_and!; [apply elem_of_seqZ; lia|done|done]. }
    split.
    + rewrite !tables_S. f_equal. unfold below. rewrite !flat_map_concat_map. f_equal.
      apply map_ext_in. intros i Hi%list_elem_of_In%elem_of_seqZ. rewrite He by lia.
      destruct (present (entry m t i)) eqn:Ep; [|done]. apply Hsub; [lia|done].
    + intros Hc i Hi. rewrite He by done. intros Hp. destruct (Hc i Hi Hp) as [Hd Hcl].
      split; [done|]. by apply Hsub.
Qed.

(** ** The loop of freewalk *)

Definition freewalk_body (depth' : nat) (pagetable i : Z) : K unit :=
  let! pte := load64 (pagetable + 8 * i) in
  if negb (Z.land pte PTE_V =? 0) &&
     (Z.land pte (Z.lor (Z.lor PTE_R PTE_W) PTE_X) =? 0)
  then
    freewalk_depth depth' (PTE2PA pte) ;;;
    store64 (pagetable + 8 * i) 0
  else if negb (Z.land pte PTE_V =? 0) then panic "freewalk: leaf"
  else ret tt.

Lemma freewalk_depth_S d t :
  freewalk_depth (S d) t = (for_each (seqZ 0 512) (freewalk_body d t) ;;; kfree t).
Proof. done. Qed.

Lemma freewalk_body_absent d t i s :
  present (entry (physmem s) t i) = false → freewalk_body d t i s = Ret tt s.
Proof.
  intros Hp. unfold freewalk_body, load64, gets, bind. cbn [obind]. unfold present, entry in Hp.
  by rewrite Hp.
Qed.

Lemma for_each_skip {A} (idx : list A) (body : A → K unit) s :
  (∀ i, i ∈ idx → body i s = Ret tt s) → for_each idx body s = Ret tt s.
Proof.
  induction idx as [|i idx IH]; intros Hb; [done|]. cbn [for_each].
  run (Hb i ltac:(by left)). apply IH. intros j Hj. apply Hb. by right.
Qed.

(** What freeing the tree of [t] does. *)
Definition frees (d : nat) (t : Z) : Prop :=
  ∀ s l,
    hart_ok s → lock_free s LkKmem → free_list (physmem s) (freelist s) l →
    clean d (physmem s) t → NoDup (tables d (physmem s) t) →
    Forall valid_page (tables d (physmem s) t) →
    (∀ q, q ∈ tables d (physmem s) t → q ∉ l) →
    ∃ m' fl',
      freewalk_depth (S d) t s = Ret tt (with_mem s m' fl') ∧
      free_list m' fl' (reverse (tables d (physmem s) t) ++ l) ∧
      (∀ x, (∀ q, q ∈ tables d (physmem s) t → ¬ (q ≤ x < q + PGSIZE)) →
         ld m' x = ld (physmem s) x).

Lemma frees_last t : frees 0 t.
Proof.
  intros s l Hh Hk Hf Hc Hnd Hv Hnl. cbn [tables] in Hv. apply Forall_cons in Hv as [Hv _].
  exists (kfree_mem (physmem s) (freelist s) t), t. split_and!.
  - rewrite freewalk_depth_S. rewrite (bind_Ret _ _ s tt s).
    + exact (kfree_eq s t Hh Hk Hv).
    + apply for_each_skip. intros i Hi%elem_of_seqZ. apply freewalk_body_absent, Hc. lia.
  - apply kfree_free_list; [done|done|]. apply Hnl. by left.
  - intros x Hx. apply ld_kfree_mem. apply Hx. by left.
Qed.

Section directory.
Context (d : nat) (m0 : mem) (t : Z) (l : list Z).
Hypothesis IH : ∀ c, frees d c.
Hypothesis Hc : clean (S d) m0 t.
Hypothesis Hnd : NoDup (tables (S d) m0 t).
Hypothesis Hv : Forall valid_page (tables (S d) m0 t).
Hypothesis Hnl : ∀ q, q ∈ tables (S d) m0 t → q ∉ l.

(** The first [k] slots have been freed and cleared. *)
Record cleared (m : mem) (fl k : Z) : Prop := {
  cl_free : free_list m fl (reverse (below d m0 t (seqZ 0 k)) ++ l);
  cl_mem : ∀ x, (∀ q, q ∈ below d m0 t (seqZ 0 k) → ¬ (q ≤ x < q + PGSIZE)) →
    ¬ (t ≤ x < t + 8 * k) → ld m x = ld m0 x
}.

Lemma below_app idx1 idx2 :
  below d m0 t (idx1 ++ idx2) = below d m0 t idx1 ++ below d m0 t idx2.
Proof. apply flat_map_app. Qed.

Lemma below_one k :
  below d m0 t (seqZ k 1)
  = if present (entry m0 t k) then tables d m0 (PTE2PA (entry m0 t k)) else [].
Proof.
  rewrite seqZ_cons by lia. change (Z.pred 1) with 0. rewrite seqZ_nil by done.
  apply app_nil_r.
Qed.

Lemma below_split k :
  0 ≤ k < 512 →
  tables (S d) m0 t
  = below d m0 t (seqZ 0 k)
    ++ (if present (entry m0 t k) then tables d m0 (PTE2PA (entry m0 t k)) else [])
    ++ below d m0 t (seqZ (k + 1) (511 - k)) ++ [t].
Proof.
  intros Hk. rewrite tables_S.
  replace (seqZ 0 512) with (seqZ 0 k ++ seqZ k 1 ++ seqZ (k + 1) (511 - k)).
  - by rewrite !below_app, <- !app_assoc, below_one.
  - replace 512 with (k + (1 + (511 - k))) by lia.
    rewrite seqZ_app by lia. f_equal. by rewrite seqZ_app by lia.
Qed.

Lemma below_S k :
  0 ≤ k →
  below d m0 t (seqZ 0 (k + 1)) =
  below d m0 t (seqZ 0 k)
    ++ (if present (entry m0 t k) then tables d m0 (PTE2PA (entry m0 t k)) else []).
Proof.
  intros Hk. rewrite seqZ_app by lia. by rewrite below_app, below_one.
Qed.

(** Different table pages do not overlap. *)
Lemma tables_disjoint p q x :
  p ∈ tables (S d) m0 t → q ∈ tables (S d) m0 t → p ≠ q →
  p ≤ x < p + PGSIZE → ¬ (q ≤ x < q + PGSIZE).
Proof.
  intros Hp Hq Hne Hx Hx'.
  destruct (Forall_elem _ _ _ Hv Hp) as [Hpa _]. destruct (Forall_elem _ _ _ Hv Hq) as [Hqa _].
  by apply (page_disjoint p q x x).
Qed.

(** The three groups of pages at slot [k] are disjoint. *)
Lemma slot_split k :
  0 ≤ k < 512 →
  t ∈ tables (S d) m0 t ∧
  (∀ q, q ∈ below d m0 t (seqZ 0 k) → q ∈ tables (S d) m0 t ∧ q ≠ t) ∧
  (present (entry m0 t k) = true → ∀ q, q ∈ tables d m0 (PTE2PA (entry m0 t k)) →
     q ∈ tables (S d) m0 t ∧ q ≠ t ∧ q ∉ below d m0 t (seqZ 0 k)) ∧
  (present (entry m0 t k) = true → NoDup (tables d m0 (PTE2PA (entry m0 t k)))).
Proof.
  intros Hk. pose proof (below_split k Hk) as E. rewrite E in *. clear E.
  apply NoDup_app in Hnd as (_ & Hd1 & Hnd2).
  apply NoDup_app in Hnd2 as (Hnd3 & Hd2 & _).
  set (mid := if present _ then _ else _) in *. split_and!.
  - rewrite !elem_of_app. right. right. right. by left.
  - intros q Hq. split; [apply elem_of_app; by left|]. intros ->. apply (Hd1 t Hq).
    rewrite !elem_of_app. right. right. by left.
  - intros Hp q Hq. unfold mid in *. rewrite Hp in *. split_and!.
    + rewrite !elem_of_app. tauto.
    + intros ->. apply (Hd2 t Hq). rewrite elem_of_app. right. by left.
    + intros Hb. apply (Hd1 q Hb). rewrite !elem_of_app. tauto.
  - intros Hp. unfold mid in *. by rewrite Hp in *.
Qed.

Lemma cleared_step s k :
  hart_ok s → lock_free s LkKmem → cleared (physmem s) (freelist s) k → 0 ≤ k < 512 →
  ∃ m' fl', freewalk_body (S d) t k s = Ret tt (with_mem s m' fl') ∧ cleared m' fl' (k + 1).
Proof.
  intros Hh Hkm [Hf Hm] Hk. destruct (slot_split k Hk) as (Ht & Hb & Hch & Hndc).
  assert (entry (physmem s) t k = entry m0 t k) as Ee.
  { apply ld64_ext. intros x Hx. apply Hm; [|lia]. intros q Hq.
    destruct (Hb q Hq) as [Hqt Hne]. apply (tables_disjoint t); try done; mlia. }
  pose proof (below_S k ltac:(lia)) as Ebs.
  destruct (present (entry m0 t k)) eqn:Ep.
  2:{ exists (physmem s), (freelist s). rewrite with_mem_id. split.
      - apply freewalk_body_absent. by rewrite Ee.
      - split; rewrite Ebs, app_nil_r; [done|]. intros x Hx Hx'. apply Hm; [done|lia]. }
  specialize (Hch eq_refl). specialize (Hndc eq_refl).
  destruct (Hc k Hk Ep) as [Hdir Hcl]. set (c := PTE2PA (entry m0 t k)) in *.
  destruct (tables_ext d m0 (physmem s) c) as [Et Ecl].
  { intros q x Hq Hx. destruct (Hch q Hq) as (Hqt & Hqn & Hqb). apply Hm.
    - intros q' Hq'. destruct (Hb q' Hq') as [Hqt' _]. apply (tables_disjoint q); try done.
      by intros ->.
    - intros Hin. apply (tables_disjoint q t x); try done. mlia. }
  destruct (IH c s (reverse (below d m0 t (seqZ 0 k)) ++ l)) as (m1 & fl1 & Hr & Hf1 & Hm1);
    rewrite ?Et; try done; [by apply Ecl| | |].
  { apply list.Forall_forall. intros q Hq. eapply Forall_elem; [exact Hv|]. by apply Hch. }
  { intros q Hq. destruct (Hch q Hq) as (Hqt & _ & Hqb).
    rewrite elem_of_app, elem_of_reverse. intros [|]; [done|]. by apply (Hnl q). }
  rewrite Et in Hf1, Hm1.
  exists (st64 m1 (t + 8 * k) 0), fl1. split.
  { unfold freewalk_body. rewrite (bind_Ret _ _ s (entry m0 t k) s)
      by (unfold load64, gets; f_equal; exact Ee).
    unfold present in Ep. rewrite Ep, Hdir. cbn [Z.eqb andb].
    fold c. run Hr. done. }
  split; rewrite Ebs.
  - rewrite reverse_app, <- app_assoc. apply free_list_ext with m1; [|done].
    intros q x Hq Hx. apply ld_st64_ne.
    assert (valid_page q) as [Hqa _] by (eapply free_list_valid; [exact Hf1|done]).
    destruct (Forall_elem _ _ _ Hv Ht) as [Hta _].
    assert (q ≠ t); [|mlia]. intros ->. rewrite !elem_of_app, !elem_of_reverse in Hq.
    destruct Hq as [Hq|[Hq|Hq]]; [by apply Hch in Hq as (_ & ? & _)|by apply Hb in Hq as [_ ?]|].
    by apply (Hnl t).
  - intros x Hx Hx'. rewrite ld_st64_ne by lia. rewrite Hm1.
    + apply Hm; [|lia]. intros q Hq. apply Hx, elem_of_app. by left.
    + intros q Hq. apply Hx, elem_of_app. by right.
Qed.

Lemma cleared_loop (j : nat) s :
  hart_ok s → lock_free s LkKmem → (Z.of_nat j ≤ 512) →
  cleared (physmem s) (freelist s) (512 - Z.of_nat j) →
  ∃ m' fl', for_each (seqZ (512 - Z.of_nat j) (Z.of_nat j)) (freewalk_body (S d) t) s
              = Ret tt (with_mem s m' fl') ∧ cleared m' fl' 512.
Proof.
  revert s. induction j as [|j IHj]; intros s Hh Hk Hj Hcl.
  - exists (physmem s), (freelist s). by rewrite with_mem_id.
  - rewrite seqZ_cons by lia. cbn [for_each].
    destruct (cleared_step s (512 - Z.of_nat (S j)) Hh Hk Hcl ltac:(lia)) as (m1 & fl1 & Hr & Hcl1).
    run Hr.
    replace (512 - Z.of_nat (S j) + 1) with (512 - Z.of_nat j) in Hcl1 by lia.
    replace (Z.succ (512 - Z.of_nat (S j))) with (512 - Z.of_nat j) by lia.
    replace (Z.pred (Z.of_nat (S j))) with (Z.of_nat j) by lia.
    destruct (IHj (with_mem s m1 fl1) Hh Hk ltac:(lia) Hcl1) as (m' & fl' & Hr' & Hcl').
    exists m', fl'. split; [|done]. etransitivity; [exact Hr'|]. by rewrite with_mem_with_mem.
Qed.
End directory.

Lemma frees_dir d t : (∀ c, frees d c) → frees (S d) t.
Proof.
  intros IH s l Hh Hk Hf Hc Hnd Hv Hnl. set (m0 := physmem s) in *.
  assert (cleared d m0 t l m0 (freelist s) 0) as H0' by by split.
  destruct (cleared_loop d m0 t l IH Hc Hnd Hv Hnl 512 s Hh Hk ltac:(lia) H0')
    as (m1 & fl1 & Hr & [Hf1 Hm1]).
  assert (t ∈ tables (S d) m0 t) as Ht by apply tables_head.
  pose proof (Forall_elem _ _ _ Hv Ht) as Hvt.
  exists (kfree_mem m1 fl1 t), t. split_and!.
  - rewrite freewalk_depth_S. change (seqZ 0 512) with (seqZ (512 - Z.of_nat 512) (Z.of_nat 512)).
    run Hr. exact (kfree_eq (with_mem s m1 fl1) t Hh Hk Hvt).
  - rewrite tables_S, reverse_app. cbn [reverse app]. apply (kfree_free_list m1 fl1); [done|done|].
    rewrite elem_of_app, elem_of_reverse. intros [Hb|Hb]; [|by apply (Hnl t)].
    rewrite tables_S in Hnd. apply NoDup_app in Hnd as (_ & Hnd & _).
    apply (Hnd t Hb). by left.
  - intros x Hx. rewrite ld_kfree_mem by by apply Hx. apply Hm1.
    + intros q Hq. apply Hx. rewrite tables_S. apply elem_of_app. by left.
    + intros Hin. apply (Hx t Ht). mlia.
Qed.

Lemma frees_all d t : frees d t.
Proof. revert t. induction d as [|d IH]; intros t; [apply frees_last|by apply frees_dir]. Qed.

(** ** The tables of a page table *)

Lemma tbl_cons m root p t i :
  tbl m root p = Some t →
  tbl m root (i :: p) = if present (entry m t i) then Some (PTE2PA (entry m t i)) else None.
Proof.
  intros Et. cbn [tbl]. rewrite Et. unfold present, entry.
  by destruct (Z.land (ld64 m (t + 8 * i)) PTE_V =? 0).
Qed.

(** Every page of the tree below a table is the table of a longer path. *)
Lemma tables_tbl d m root p t q :
  tbl m root p = Some t → path_ok p → (length p + d = 2)%nat →
  q ∈ tables d m t → ∃ p', path_ok (p' ++ p) ∧ tbl m root (p' ++ p) = Some q.
Proof.
  revert p t. induction d as [|d IH]; intros p t Et Hp Hlen Hq.
  - apply list_elem_of_singleton in Hq as ->. by exists [].
  - rewrite tables_S in Hq. apply elem_of_app in Hq as [Hq|Hq].
    + apply elem_of_below in Hq as (i & Hi%elem_of_seqZ & Hpr & Hq).
      destruct (IH (i :: p) (PTE2PA (entry m t i))) as (p' & Hp' & E'); [| |cbn; lia|done|].
      * by rewrite (tbl_cons m root p t), Hpr.
      * apply path_ok_cons; [lia|done|lia].
      * exists (p' ++ [i]). by rewrite <- app_assoc.
    + apply list_elem_of_singleton in Hq as ->. by exists [].
Qed.

Lemma tbl_prefix m root p' p q :
  tbl m root (p' ++ p) = Some q → is_Some (tbl m root p).
Proof.
  revert q. induction p' as [|j p' IH]; intros q Eq; [by exists q|]. cbn [app tbl] in Eq.
  destruct (tbl m root (p' ++ p)) as [u|]; [by eapply IH|done].
Qed.

(** Conversely, all of them are reached. *)
Lemma tbl_tables d m root p t p' q :
  tbl m root p = Some t → path_ok (p' ++ p) → (length p + d = 2)%nat →
  tbl m root (p' ++ p) = Some q → q ∈ tables d m t.
Proof.
  revert d p t. induction p' as [|i p' IH] using rev_ind; intros d p t Et Hp Hlen Eq.
  - cbn in Eq. rewrite Et in Eq. injection Eq as <-. apply tables_head.
  - rewrite <- app_assoc in Hp, Eq. cbn [app] in Hp, Eq.
    pose proof Hp as [Hl Hf]. rewrite length_app in Hl. cbn in Hl.
    apply Forall_app in Hf as [_ Hf]. apply Forall_cons in Hf as [Hi _].
    destruct (tbl_prefix _ _ _ _ _ Eq) as [c Ec]. pose proof Ec as Ec'.
    rewrite (tbl_cons m root p t i Et) in Ec'.
    destruct (present (entry m t i)) eqn:Epr; [|done]. injection Ec' as <-.
    destruct d as [|d]; [lia|]. rewrite tables_S. apply elem_of_app. left.
    apply elem_of_below. exists i. split_and!; [apply elem_of_seqZ; lia|done|].
    apply (IH d (i :: p)); [done|done|cbn; lia|done].
Qed.

Lemma tables_NoDup d m root p t :
  pt_wf m root → tbl m root p = Some t → path_ok p → (length p + d = 2)%nat →
  NoDup (tables d m t).
Proof.
  intros Hwf. revert p t. induction d as [|d IH]; intros p t Et Hp Hlen; [apply NoDup_singleton|].
  rewrite tables_S. apply NoDup_app. split_and!; [| |apply NoDup_singleton].
  - assert (∀ i, i ∈ seqZ 0 512 → path_ok (i :: p)) as Hpi.
    { intros i Hi%elem_of_seqZ. apply path_ok_cons; [lia|done|lia]. }
    assert (∀ i, i ∈ seqZ 0 512 → present (entry m t i) = true →
              tbl m root (i :: p) = Some (PTE2PA (entry m t i))) as Hti.
    { intros i _ Hpr. by rewrite (tbl_cons m root p t i Et), Hpr. }
    pose proof (NoDup_seqZ 0 512) as Hnd. induction (seqZ 0 512) as [|i idx IHi]; [constructor|].
    apply NoDup_cons in Hnd as [Hni Hnd]. unfold below. cbn [flat_map]. apply NoDup_app.
    split_and!.
    + destruct (present (entry m t i)) eqn:Epr; [|constructor].
      apply (IH (i :: p)); [apply Hti; [by left|done]|apply Hpi; by left|cbn; lia].
    + intros q Hq Hq'. apply elem_of_below in Hq' as (j & Hj & Hprj & Hq').
      destruct (present (entry m t i)) eqn:Epr; [|by apply elem_of_nil in Hq].
      destruct (tables_tbl d m root (i :: p) _ q (Hti i ltac:(by left) Epr)
        (Hpi i ltac:(by left)) ltac:(cbn; lia) Hq) as (p1 & Hp1 & E1).
      destruct (tables_tbl d m root (j :: p) _ q (Hti j ltac:(by right) Hprj)
        (Hpi j ltac:(by right)) ltac:(cbn; lia) Hq') as (p2 & Hp2 & E2).
      pose proof (wf_inj _ _ Hwf _ _ _ Hp1 Hp2 E1 E2) as E.
      apply app_inj_2 in E as [_ [= ->]]; [done|done].
    + apply IHi; [|intros; by apply Hti; [right|]|done]. intros j Hj. apply Hpi. by right.
  - intros q Hq ->%list_elem_of_singleton.
    apply elem_of_below in Hq as (i & Hi%elem_of_seqZ & Hpr & Hq).
    destruct (tables_tbl d m root (i :: p) (PTE2PA (entry m t i)) t) as (p' & Hp' & E');
      [by rewrite (tbl_cons m root p t i Et), Hpr| |cbn; lia|done|].
    { apply path_ok_cons; [lia|done|lia]. }
    pose proof (wf_inj _ _ Hwf _ _ _ Hp Hp' Et E') as E.
    apply (f_equal length) in E. rewrite length_app in E. cbn in E. lia.
Qed.

(** The address whose last-level entry is slot [i] of the table at [[j; k]]. *)
Definition va_of (k j i : Z) : Z := ((k * 512 + j) * 512 + i) * PGSIZE.

Lemma va_of_spec k j i :
  0 ≤ k < 256 → 0 ≤ j < 512 → 0 ≤ i < 512 →
  0 ≤ va_of k j i < MAXVA ∧ vpath (va_of k j i) = [j; k] ∧ PX 0 (va_of k j i) = i.
Proof.
  intros Hk Hj Hi.
  assert (0 ≤ va_of k j i < MAXVA) as Hva by (unfold va_of; mlia). split; [done|].
  pose proof (PX_vpn _ Hva) as E. unfold va_of in E at 1. rewrite Z.div_mul in E by done.
  pose proof (PX_range 0 (va_of k j i)). pose proof (PX_range 1 (va_of k j i)).
  pose proof (PX_range 2 (va_of k j i)). unfold vpath. split; [do 2 f_equal|]; lia.
Qed.

(** All mappings removed: what [freewalk] expects. *)
Definition no_leaves (m : mem) (root : Z) : Prop :=
  ∀ va, 0 ≤ va < MAXVA → Z.land (leaf m root va) PTE_V = 0.

Lemma present_true e : present e = true → Z.land e PTE_V ≠ 0.
Proof. unfold present. by destruct (Z.eqb_spec (Z.land e PTE_V) 0). Qed.

Lemma no_leaves_clean m root : pt_wf m root → no_leaves m root → clean 2 m root.
Proof.
  intros Hwf Hnl k Hk Hpk.
  assert (path_ok [k]) as Hp1 by (apply path_ok_cons; [cbn; lia|apply path_ok_nil|lia]).
  assert (tbl m root [k] = Some (PTE2PA (entry m root k))) as E1
    by (rewrite (tbl_cons m root [] root k eq_refl); by rewrite Hpk).
  split; [apply (wf_dir _ _ Hwf []); [done|done|by apply present_true]|].
  assert (k < 256).
  { destruct (decide (k < 256)); [done|]. by rewrite (wf_half _ _ Hwf) in E1 by lia. }
  set (t1 := PTE2PA (entry m root k)) in *. intros j Hj Hpj.
  assert (path_ok [j; k]) as Hp2 by (apply path_ok_cons; [cbn; lia|done|lia]).
  assert (tbl m root [j; k] = Some (PTE2PA (entry m t1 j))) as E2
    by (rewrite (tbl_cons m root [k] t1 j E1); by rewrite Hpj).
  split; [apply (wf_dir _ _ Hwf [k]); [done|done|by apply present_true]|].
  intros i Hi. destruct (va_of_spec k j i ltac:(lia) Hj Hi) as (Hva & Ep & E0).
  specialize (Hnl _ Hva). unfold leaf in Hnl. rewrite Ep, E2, E0 in Hnl.
  unfold present. change (entry m (PTE2PA (entry m t1 j)) i)
    with (ld64 m (PTE2PA (entry m t1 j) + 8 * i)). by rewrite Hnl.
Qed.

Lemma freewalk_eq s root l :
  hart_ok s → lock_free s LkKmem → vm_inv (physmem s) (freelist s) root l →
  no_leaves (physmem s) root →
  ∃ m' fl' freed,
    freewalk root s = Ret tt (with_mem s m' fl') ∧
    free_list m' fl' (freed ++ l) ∧
    (∀ q, q ∈ freed ↔ is_table (physmem s) root q) ∧
    (∀ x, ¬ in_table (physmem s) root x → ld m' x = ld (physmem s) x).
Proof.
  intros Hh Hk I Hnl. pose proof I as [Hf Hwf Hd].
  assert (∀ q, q ∈ tables 2 (physmem s) root ↔ is_table (physmem s) root q) as Hq.
  { intros q. split.
    - intros Hin. destruct (tables_tbl 2 _ root [] root q eq_refl path_ok_nil eq_refl Hin)
        as (p' & Hp & E). by exists (p' ++ []).
    - intros (p & Hp & E). rewrite <- (app_nil_r p) in Hp, E.
      by apply (tbl_tables 2 _ root [] root p). }
  destruct (frees_all 2 root s l Hh Hk Hf) as (m' & fl' & Hr & Hf' & Hm').
  - by apply no_leaves_clean.
  - by apply (tables_NoDup 2 _ root []); [| |apply path_ok_nil|].
  - apply list.Forall_forall. intros q (p & Hp & E)%Hq. exact (wf_page _ _ Hwf _ _ Hp E).
  - intros q (p & Hp & E)%Hq. by eapply Hd.
  - exists m', fl', (reverse (tables 2 (physmem s) root)). split_and!; [done|done| |].
    + intros q. by rewrite elem_of_reverse.
    + intros x Hx. apply Hm'. intros q (p & Hp & E)%Hq Hin. apply Hx. by exists p, q.
Qed.

(** The first part of [uvmfree]: every mapping goes. *)
Lemma unmap_all s root l sz :
  hart_ok s → lock_free s LkKmem → 0 ≤ sz ≤ TRAPFRAME →
  uvm (physmem s) (freelist s) root l (pgs sz) →
  (∀ va, TRAPFRAME ≤ va < MAXVA → leaf (physmem s) root va = 0) →
  ∃ m' fl',
    when (sz >? 0) (uvmunmap root 0 (PGROUNDUP sz / PGSIZE) true) s = Ret tt (with_mem s m' fl') ∧
    shrunk (physmem s) m' fl' root l (reverse (upages (physmem s) root 0 (pgs sz))) ∧
    no_leaves m' root.
Proof.
  intros Hh Hk Hsz U Htop. pose proof U as [I Hm Ho Ha Hmax].
  destruct (pgs_eq sz ltac:(mlia)) as [Epg _].
  destruct (uvmunmap_eq s root 0 (pgs sz) true l) as (m1 & fl1 & Hr1 & Sh & L);
    [done|done|done|lia|done|mlia|done|done|].
  assert (no_leaves m1 root) as Hnl1.
  { intros va Hva. rewrite L by done. unfold unmapped_leaf.
    destruct ((0 / PGSIZE <=? va / PGSIZE) && _) eqn:Eb; [done|].
    apply andb_false_iff in Eb. rewrite Z.leb_gt, Z.ltb_ge in Eb.
    assert (leaf (physmem s) root va = 0) as ->; [|done].
    destruct (decide (va < TRAPFRAME)); [apply Ha|apply Htop]; mlia. }
  destruct (Z.gtb_spec sz 0).
  - exists m1, fl1. cbn [when]. rewrite Epg, Z.div_mul by done. done.
  - assert (sz = 0) as -> by lia. change (pgs 0) with 0%nat in *. exists (physmem s), (freelist s).
    rewrite with_mem_id. split_and!; [done|by apply shrunk_refl|].
    intros va Hva. specialize (Hnl1 va Hva). rewrite L, unmapped_leaf_none in Hnl1 by done. done.
Qed.

Lemma uvmfree_eq s root l sz :
  hart_ok s → lock_free s LkKmem → 0 ≤ sz ≤ TRAPFRAME →
  uvm (physmem s) (freelist s) root l (pgs sz) →
  (∀ va, TRAPFRAME ≤ va < MAXVA → leaf (physmem s) root va = 0) →
  ∃ m' fl' l',
    uvmfree root sz s = Ret tt (with_mem s m' fl') ∧
    free_list m' fl' l' ∧
    (∀ q, q ∈ l' ↔
       q ∈ l ∨ q ∈ upages (physmem s) root 0 (pgs sz) ∨ is_table (physmem s) root q) ∧
    (∀ x, (∀ q, q ∈ upages (physmem s) root 0 (pgs sz) → ¬ (q ≤ x < q + PGSIZE)) →
       ¬ in_table (physmem s) root x → ld m' x = ld (physmem s) x).
Proof.
  intros Hh Hk Hsz U Htop.
  destruct (unmap_all s root l sz Hh Hk Hsz U Htop) as (m2 & fl2 & Hr2 & Sh2 & Hnl).
  destruct (freewalk_eq (with_mem s m2 fl2) root _ Hh Hk (sh_inv _ _ _ _ _ _ Sh2) Hnl)
    as (m' & fl' & freed & Hr & Hf & Hq & Hmem).
  rewrite physmem_with_mem in *.
  exists m', fl', (freed ++ reverse (upages (physmem s) root 0 (pgs sz)) ++ l).
  assert (∀ q, is_table m2 root q ↔ is_table (physmem s) root q) as Hit.
  { intros q. unfold is_table. split; intros (p & Hp & E); exists p;
      by rewrite (sh_tbl _ _ _ _ _ _ Sh2) in *. }
  split_and!; [|done| |].
  - unfold uvmfree. run Hr2. etransitivity; [exact Hr|].
    by rewrite with_mem_with_mem.
  - intros q. rewrite !elem_of_app, elem_of_reverse, Hq, Hit. tauto.
  - intros x Hx Hx'. rewrite Hmem.
    + apply (sh_mem _ _ _ _ _ _ Sh2); [done|]. intros q Hq'. apply Hx. by apply elem_of_reverse.
    + by rewrite (in_table_tbl (physmem s)) by apply Sh2.
Qed.

(** C25: [uvmfree] on an address space of [sz] bytes whose other mappings
    have been removed never panics, and afterwards the free list holds exactly
    the pages it held before, the user's frames and all table pages of every
    level, each once; memory outside those pages is untouched. *)
Theorem uvmfree_spec s root l sz :
  hart_ok s → lock_free s LkKmem → 0 ≤ sz ≤ TRAPFRAME →
  uvm (physmem s) (freelist s) root l (pgs sz) →
  (∀ va, TRAPFRAME ≤ va < MAXVA → leaf (physmem s) root va = 0) →
  ∃ m' fl' l',
    uvmfree root sz s = Ret tt (with_mem s m' fl') ∧
    free_list m' fl' l' ∧
    (∀ q, q ∈ l' ↔
       q ∈ l ∨ q ∈ upages (physmem s) root 0 (pgs sz) ∨ is_table (physmem s) root q) ∧
    (∀ x, (∀ q, q ∈ upages (physmem s) root 0 (pgs sz) → ¬ (q ≤ x < q + PGSIZE)) →
       ¬ in_table (physmem s) root x → ld m' x = ld (physmem s) x).
Proof. apply uvmfree_eq. Qed.
End free.
