(* ===== verification/VmSpec.v ===== *)
(** * kernel/vm.c: the theorems

    What each routine of vm.c guarantees to its callers, with a sample machine
    on which the theorems are instantiated. *)

From S2P Require Import Prelude Machine Memory Kstring State Spinlock Kalloc Vm VmTables VmMap VmSpace VmCopy VmFree.

Section spec.
Context `{KernelLayout} `{!LayoutOk}.

Lemma user_pa_mk m root x pa perm :
  leaf m root x = mk_pte pa perm → 0 ≤ pa < 2 ^ 56 → pa mod PGSIZE = 0 →
  0 ≤ perm < 2 ^ 10 → Z.land perm PTE_U ≠ 0 → user_pa m root x = pa.
Proof.
  intros El Hpa Hal Hp HU. unfold user_pa. rewrite El, mk_pte_valid by done.
  replace (Z.land (mk_pte pa perm) PTE_U) with (Z.land perm PTE_U).
  - rewrite (proj2 (Z.eqb_neq _ _) HU). cbn. by apply PTE2PA_mk_pte.
  - rewrite (land_FLAGS (mk_pte pa perm)) by done. rewrite PTE_FLAGS_mk_pte by done.
    rewrite Z.land_lor_distr_l. change (Z.land PTE_V PTE_U) with 0. by rewrite Z.lor_0_r.
Qed.

(** C14: [mappages] over pages that are not mapped either maps them all and
    returns 0, each to the frame at the same offset from [pa], or returns -1,
    which it does only when the free list ran out of pages for tables (fewer
    than two for each page to map).  In both
    cases the page table stays well formed and disjoint from the free list, no
    other mapping changes, and memory outside the tables and the free list is
    untouched.  After a success with [PTE_U], [walkaddr] translates every
    address of the range to the requested frame. *)
Theorem mappages_spec s root va size pa perm l :
  hart_ok s → lock_free s LkKmem → vm_inv (physmem s) (freelist s) root l →
  0 ≤ va → 0 < size → va + size ≤ MAXVA →
  0 ≤ pa → pa mod PGSIZE = 0 → pa + span va size * PGSIZE ≤ 2 ^ 56 → 0 ≤ perm < 2 ^ 10 →
  let in_range x := PGROUNDDOWN va ≤ x < PGROUNDDOWN va + span va size * PGSIZE in
  let frame x := pa + (x / PGSIZE - va / PGSIZE) * PGSIZE in
  (∀ x, in_range x → leaf (physmem s) root x = 0) →
  ∃ r m' fl' l', let s' := with_mem s m' fl' in
    mappages root va size pa perm s = Ret r s' ∧
    vm_inv m' fl' root l' ∧ evolves (physmem s) m' root l l' ∧
    (∀ x, 0 ≤ x < MAXVA → ¬ in_range x → leaf m' root x = leaf (physmem s) root x) ∧
    ((r = -1 ∧ l' = [] ∧ Z.of_nat (length l) < 2 * span va size) ∨
     (r = 0 ∧ ∀ x, in_range x →
        leaf m' root x = mk_pte (frame x) perm ∧
        (Z.land perm PTE_U ≠ 0 → walkaddr root x s' = Ret (frame x) s'))).
Proof.
  intros Hh Hk I Hva Hsz Hmax Hpa Hpal Hpam Hperm in_range frame Hz.
  destruct (mappages_eq s root va size pa perm l)
    as (r & m' & fl' & used & l' & k & Hr & G & L & Hres); try done.
  exists r, m', fl', l'. cbv zeta. pose proof (g_inv _ _ _ _ _ _ _ G) as I'.
  assert (∀ x, 0 ≤ x → in_range x ↔ va / PGSIZE ≤ x / PGSIZE < va / PGSIZE + span va size) as Hin.
  { intros x Hx. unfold in_range. rewrite PGROUNDDOWN_eq by mlia. unfold span. mlia. }
  split_and!; [done|done|by apply (grown_evolves _ _ fl' _ _ used)| |].
  - intros x Hx Hout. rewrite L by done. unfold mapped_leaf. rewrite Hin in Hout by lia.
    destruct (Z.leb_spec (va / PGSIZE) (x / PGSIZE)), (Z.ltb_spec (x / PGSIZE) (va / PGSIZE + k));
      try done. exfalso. apply Hout. lia.
  - destruct Hres as [(-> & -> & _)|(-> & _ & -> & Hlen)]; [right|left; split_and!; done]. split; [done|]. intros x Hx.
    assert (0 ≤ x < MAXVA) as Hxr.
    { unfold in_range in Hx. rewrite PGROUNDDOWN_eq in Hx by mlia. unfold span in *. mlia. }
    pose proof Hx as Hx'. rewrite Hin in Hx' by lia.
    assert (leaf m' root x = mk_pte (frame x) perm) as El.
    { rewrite L by done. unfold mapped_leaf.
      by destruct (Z.leb_spec (va / PGSIZE) (x / PGSIZE)),
        (Z.ltb_spec (x / PGSIZE) (va / PGSIZE + span va size)); try lia. }
    split; [done|]. intros HU. rewrite walkaddr_eq; [|apply I'|lia].
    destruct (Z.ltb_spec x MAXVA); [|lia]. f_equal.
    apply (user_pa_mk m' root x (frame x) perm); try done; unfold frame; mlia.
Qed.

(** C24: growing an address space of [oldsz] bytes to [newsz] with [uvmalloc]
    either returns [newsz] with every page up to [newsz] mapped to a frame of
    its own, the old pages and their contents unchanged and the new ones all
    zero and accessible to the user; or returns 0, which happens only when there
    were fewer than three free pages for each new page, with the address space exactly as large as before, its contents unchanged, and every
    page taken from the free list back on it or in use as a table. *)
Theorem uvmalloc_spec s root l oldsz newsz :
  hart_ok s → lock_free s LkKmem → 0 ≤ oldsz ≤ newsz → newsz ≤ TRAPFRAME →
  uvm (physmem s) (freelist s) root l (pgs oldsz) →
  ∃ r m' fl' l',
    uvmalloc root oldsz newsz s = Ret r (with_mem s m' fl') ∧
    evolves (physmem s) m' root l l' ∧
    (∀ va, TRAPFRAME ≤ va < MAXVA → leaf m' root va = leaf (physmem s) root va) ∧
    (∀ va, 0 ≤ va < Z.of_nat (pgs oldsz) * PGSIZE →
       leaf m' root va = leaf (physmem s) root va ∧
       uview m' root va = uview (physmem s) root va) ∧
    ((r = newsz ∧ uvm m' fl' root l' (pgs newsz) ∧
      ∀ va, Z.of_nat (pgs oldsz) * PGSIZE ≤ va < Z.of_nat (pgs newsz) * PGSIZE →
        uview m' root va = 0 ∧ PTE_FLAGS (leaf m' root va) = Z.lor uperm PTE_V) ∨
     (r = 0 ∧ uvm m' fl' root l' (pgs oldsz) ∧ no_leak l l' m' root ∧
      (length l < 3 * (pgs newsz - pgs oldsz))%nat)).
Proof.
  intros Hh Hk Hsz Hmax U.
  destruct (uvmalloc_eq s root l oldsz newsz Hh Hk Hsz Hmax U)
    as (r & m' & fl' & l' & Hr & [[-> G]|(-> & G & Hlen)]);
    destruct (growing_view _ _ _ _ _ _ _ _ _ _ _ U G) as [Vold Vnew].
  - exists newsz, m', fl', l'. split_and!; [done|apply G| |done|].
    { intros va Hva. apply (gr_old _ _ _ _ _ _ _ _ _ _ G). by right. }
    left. split_and!; [done|apply G|done].
  - exists 0, m', fl', l'. split_and!; [done|apply G| |done|].
    { intros va Hva. apply (gr_old _ _ _ _ _ _ _ _ _ _ G). by right. }
    right. split_and!; [done|apply G|by eapply growing_no_leak|done].
Qed.

Lemma uvmdealloc_view s root l oldsz newsz :
  hart_ok s → lock_free s LkKmem → 0 ≤ newsz ≤ oldsz → oldsz ≤ TRAPFRAME →
  uvm (physmem s) (freelist s) root l (pgs oldsz) →
  let freed := reverse (upages (physmem s) root (Z.of_nat (pgs newsz) * PGSIZE)
                          (pgs oldsz - pgs newsz)) in
  ∃ m' fl',
    uvmdealloc root oldsz newsz s = Ret newsz (with_mem s m' fl') ∧
    uvm m' fl' root (freed ++ l) (pgs newsz) ∧
    (∀ va, TRAPFRAME ≤ va < MAXVA → leaf m' root va = leaf (physmem s) root va) ∧
    ∀ va, 0 ≤ va < Z.of_nat (pgs newsz) * PGSIZE →
      leaf m' root va = leaf (physmem s) root va ∧
      uview m' root va = uview (physmem s) root va.
Proof.
  intros Hh Hk Hsz Hmax U freed.
  destruct (uvmdealloc_eq s root l oldsz newsz Hh Hk Hsz Hmax U) as (m' & fl' & Hr & U' & Sh & L).
  exists m', fl'. split_and!; [done|done|intros va Hva; apply L; by right|].
  intros va Hva. split; [apply L; by left|]. unfold uview. rewrite L by (by left).
  pose proof (u_size _ _ _ _ _ U') as Hs'.
  destruct (owned_byte _ _ _ _ _ va (va mod PGSIZE) U' Hva ltac:(mlia)) as [Ht' Hf'].
  rewrite L in Ht', Hf' by (by left). apply (sh_mem _ _ _ _ _ _ Sh).
  - by rewrite <- (in_table_tbl _ m') by apply Sh.
  - intros q Hq. apply Hf', elem_of_app. by left.
Qed.

(** shrinking an address space from [oldsz] to [newsz] with [uvmdealloc]
    returns [newsz], unmaps exactly the pages above [newsz], puts their frames
    on the free list, and keeps the remaining pages and their contents. *)
Theorem uvmdealloc_spec s root l oldsz newsz :
  hart_ok s → lock_free s LkKmem → 0 ≤ newsz ≤ oldsz → oldsz ≤ TRAPFRAME →
  uvm (physmem s) (freelist s) root l (pgs oldsz) →
  let freed := reverse (upages (physmem s) root (Z.of_nat (pgs newsz) * PGSIZE)
                          (pgs oldsz - pgs newsz)) in
  ∃ m' fl',
    uvmdealloc root oldsz newsz s = Ret newsz (with_mem s m' fl') ∧
    uvm m' fl' root (freed ++ l) (pgs newsz) ∧
    (∀ va, TRAPFRAME ≤ va < MAXVA → leaf m' root va = leaf (physmem s) root va) ∧
    ∀ va, 0 ≤ va < Z.of_nat (pgs newsz) * PGSIZE →
      leaf m' root va = leaf (physmem s) root va ∧
      uview m' root va = uview (physmem s) root va.
Proof. apply uvmdealloc_view. Qed.


(** C15: [copyout] does what writing byte by byte would do.  It returns 0
    exactly when every destination byte is mapped for the user, and then those
    bytes hold the source; otherwise it returns -1.  Either way it changes no
    mapping and writes to no byte of physical memory other than the
    user-accessible bytes of the destination range. *)
Theorem copyout_spec s root l n va src :
  uspace (physmem s) (freelist s) root l n → 0 ≤ va < 2 ^ 64 →
  Z.of_nat (length src) < 2 ^ 64 →
  let m := physmem s in
  ∃ r m',
    copyout root va src s = Ret r (with_mem s m' (freelist s)) ∧
    (r, m') = uwrite m root va src ∧
    uspace m' (freelist s) root l n ∧ (∀ x, leaf m' root x = leaf m root x) ∧
    (∀ x, (∀ i, 0 ≤ i < Z.of_nat (length src) → upa m root (va + i) ≠ 0 →
             x ≠ uaddr m root (va + i)) → ld m' x = ld m x) ∧
    ((r = 0 ∧ ∀ (i : nat) b, src !! i = Some b →
        upa m root (va + Z.of_nat i) ≠ 0 ∧ ld m' (uaddr m root (va + Z.of_nat i)) = u8 b) ∨
     (r = -1 ∧ ∃ i : nat, (i < length src)%nat ∧ upa m root (va + Z.of_nat i) = 0)).
Proof.
  intros S Hva Hlen m. destruct (uwrite m root va src) as [r m'] eqn:Ew.
  destruct (uwrite_spec m (freelist s) root l n va src r m' S ltac:(lia) Ew) as (S' & L & F & R).
  exists r, m'. split_and!; try done.
  rewrite (copyout_eq s root l n) by done. fold m. by rewrite Ew.
Qed.

(** bytes a successful [copyout] wrote to a user address are the bytes
    [copyin] reads back from it. *)
Theorem copy_roundtrip s root l n va src s' :
  uspace (physmem s) (freelist s) root l n → 0 ≤ va < 2 ^ 64 →
  Z.of_nat (length src) < 2 ^ 64 →
  copyout root va src s = Ret 0 s' →
  copyin root va (Z.of_nat (length src)) s' = Ret (0, u8 <$> src) s'.
Proof.
  intros S Hva Hlen Hc. rewrite (copyout_eq s root l n) in Hc by done.
  destruct (uwrite (physmem s) root va src) as [r m'] eqn:Ew. injection Hc as -> <-.
  destruct (uwrite_spec _ (freelist s) root l n va src 0 m' S ltac:(lia) Ew)
    as (S' & L & _ & [[_ R]|[? _]]); [|done].
  rewrite (copyin_eq _ (freelist s) root l n) by (done || lia).
  rewrite physmem_with_mem, Nat2Z.id. rewrite <- (length_fmap u8 src).
  rewrite uread_ok; [done|]. intros i b Hb.
  apply list_lookup_fmap_Some in Hb as (b' & -> & Hb). destruct (R i b' Hb) as [Hu Hl].
  unfold uaddr in *. by rewrite (upa_leaf _ _ _ L).
Qed.

Lemma ureadstr_spec m root va max r bs :
  ureadstr m root va max = (r, bs) →
  (length bs ≤ max)%nat ∧
  (∀ (i : nat) b, bs !! i = Some b →
     upa m root (va + Z.of_nat i) ≠ 0 ∧ ld m (uaddr m root (va + Z.of_nat i)) = b) ∧
  ((r = 0 ∧ ∃ str, bs = str ++ [0] ∧ 0 ∉ str) ∨
   (r = -1 ∧ 0 ∉ bs ∧ (length bs = max ∨ upa m root (va + Z.of_nat (length bs)) = 0))).
Proof.
  revert va r bs. induction max as [|max IH]; intros va r bs Hr; cbn [ureadstr] in Hr.
  - injection Hr as <- <-. split_and!; [cbn; lia|done|]. right.
    split_and!; [done|apply not_elem_of_nil|by left].
  - destruct (Z.eqb_spec (upa m root va) 0) as [E|E].
    { injection Hr as <- <-. split_and!; [cbn; lia|done|]. right.
      split_and!; [done|apply not_elem_of_nil|]. right. by rewrite Z.add_0_r. }
    fold (uaddr m root va) in Hr. destruct (Z.eqb_spec (ld m (uaddr m root va)) 0) as [E0|E0].
    { injection Hr as <- <-. split_and!; [cbn; lia| |].
      - intros [|i] b Hb; [|done]. injection Hb as <-. by rewrite Z.add_0_r.
      - left. split; [done|]. exists []. split; [done|apply not_elem_of_nil]. }
    destruct (ureadstr m root (va + 1) max) as [r1 l1] eqn:E1. injection Hr as <- <-.
    destruct (IH _ _ _ E1) as (Hlen & Hb & Hres). split_and!; [cbn; lia| |].
    + intros [|i] b Hi; [injection Hi as <-; by rewrite Z.add_0_r|].
      replace (va + Z.of_nat (S i)) with (va + 1 + Z.of_nat i) by lia. by apply Hb.
    + destruct Hres as [(-> & str & -> & Hn)|(-> & Hn & Hend)]; [left|right].
      * split; [done|]. exists (ld m (uaddr m root va) :: str). split; [done|].
        apply not_elem_of_cons. split; [by apply not_eq_sym|done].
      * split_and!; [done|apply not_elem_of_cons; split; [by apply not_eq_sym|done]|].
        cbn [length]. replace (va + Z.of_nat (S (length l1))) with (va + 1 + Z.of_nat (length l1)) by lia.
        destruct Hend; [left; lia|by right].
Qed.

(** C26: [copyinstr] returns 0 exactly with a NUL-terminated string: the
    bytes it stored are the user's bytes at the source up to and including the
    first NUL, all readable by the user, at most [max] of them.  It returns -1
    only if the first [max] bytes hold no NUL or an unreadable byte comes
    first.  It never changes the state. *)
Theorem copyinstr_spec s fl root l n va max :
  uspace (physmem s) fl root l n → 0 ≤ va < 2 ^ 64 → 0 ≤ max < 2 ^ 64 - 1 →
  let m := physmem s in
  ∃ r bs,
    copyinstr root va max s = Ret (r, bs) s ∧
    Z.of_nat (length bs) ≤ max ∧
    (∀ (i : nat) b, bs !! i = Some b →
       upa m root (va + Z.of_nat i) ≠ 0 ∧ ld m (uaddr m root (va + Z.of_nat i)) = b) ∧
    ((r = 0 ∧ ∃ str, bs = str ++ [0] ∧ 0 ∉ str) ∨
     (r = -1 ∧ 0 ∉ bs ∧
      (Z.of_nat (length bs) = max ∨ upa m root (va + Z.of_nat (length bs)) = 0))).
Proof.
  intros S Hva Hmax m. destruct (ureadstr m root va (Z.to_nat max)) as [r bs] eqn:Er.
  destruct (ureadstr_spec _ _ _ _ _ _ Er) as (Hlen & Hb & Hres).
  exists r, bs. split_and!; [|lia|done|].
  - rewrite (copyinstr_eq s fl root l n) by done. fold m. by rewrite Er.
  - destruct Hres as [?|(? & ? & [|])]; [by left|right|right]; split_and!; try done; [|by right].
    left. lia.
Qed.
End spec.

(** ** A sample machine

    Eight free pages, and two zeroed pages that serve as root tables. *)

Fixpoint freed_mem (l : list Z) : mem * Z :=
  match l with
  | [] => (∅, 0)
  | p :: l' => (kfree_mem (fst (freed_mem l')) (snd (freed_mem l')) p, p)
  end.

Lemma freed_mem_spec l :
  NoDup l → Forall valid_page l →
  free_list (fst (freed_mem l)) (snd (freed_mem l)) l ∧
  ∀ x, (∀ q, q ∈ l → ¬ (q ≤ x < q + PGSIZE)) → ld (fst (freed_mem l)) x = 0.
Proof.
  induction l as [|p l IH]; intros Hd Hv; cbn [freed_mem fst snd].
  - split; [split_and!; [done|constructor|constructor]|]. intros x _. apply ld_empty.
  - apply NoDup_cons in Hd as [Hn Hd]. apply Forall_cons in Hv as [Hp Hv].
    destruct (IH Hd Hv) as [Hf Hz]. split; [by apply kfree_free_list|].
    intros x Hx. rewrite ld_kfree_mem by (apply Hx; by left). apply Hz.
    intros q Hq. apply Hx. by right.
Qed.

Definition spage (i : Z) : Z := PHYSTOP - (i + 1) * PGSIZE.
Definition spages : list Z := spage <$> seqZ 0 8.
Definition rootA : Z := spage 8.
Definition rootB : Z := spage 9.
Definition sample_mem : mem := fst (freed_mem spages).
Definition sample_vm : kernel := with_mem boot sample_mem (snd (freed_mem spages)).

Lemma spage_valid i : 0 ≤ i < 16 → valid_page (spage i).
Proof. intros Hi. unfold spage. split; cbn; mlia. Qed.

Lemma spage_inj i j : spage i = spage j → i = j.
Proof. unfold spage. mlia. Qed.

Lemma elem_of_spages q : q ∈ spages ↔ ∃ i, q = spage i ∧ 0 ≤ i < 8.
Proof.
  unfold spages. rewrite list_elem_of_fmap. split.
  - intros (i & -> & Hi%elem_of_seqZ). exists i. split; [done|lia].
  - intros (i & -> & Hi). exists i. split; [done|]. apply elem_of_seqZ. lia.
Qed.

Lemma sample_free : free_list sample_mem (snd (freed_mem spages)) spages.
Proof.
  apply freed_mem_spec.
  - apply NoDup_fmap_2; [|apply NoDup_seqZ]. intros i j. apply spage_inj.
  - apply list.Forall_forall. intros q (i & -> & Hi)%elem_of_spages. apply spage_valid. lia.
Qed.

Lemma sample_root i :
  8 ≤ i < 16 →
  uvm sample_mem (snd (freed_mem spages)) (spage i) spages 0 ∧
  (∀ va, leaf sample_mem (spage i) va = 0) ∧
  ∀ q, is_table sample_mem (spage i) q → q = spage i.
Proof.
  intros Hi. apply uvm_zero_root.
  - apply sample_free.
  - apply spage_valid. lia.
  - intros (j & E & Hj)%elem_of_spages. apply spage_inj in E. lia.
  - intros x Hx. apply freed_mem_spec.
    + apply NoDup_fmap_2; [|apply NoDup_seqZ]. intros j k. apply spage_inj.
    + apply list.Forall_forall. intros q (j & -> & Hj)%elem_of_spages. apply spage_valid. lia.
    + intros q (j & -> & Hj)%elem_of_spages. unfold spage in *. mlia.
Qed.

Opaque freed_mem.

Lemma boot_kmem m fl : lock_free (with_mem boot m fl) LkKmem.
Proof. apply lock_free_with_mem, lock_free_boot. by left. Qed.

Lemma sample_kmem : lock_free sample_vm LkKmem.
Proof. exact (boot_kmem _ _). Qed.

Lemma pgs_page : pgs PGSIZE = 1%nat. Proof. reflexivity. Qed.

(** The sample machine after a process got its first page at [rootA]. *)
Lemma sample_user :
  ∃ m fl l, uspace m fl rootA l 1 ∧ uvm m fl rootB l 0 ∧ apart m fl rootA rootB l 1 ∧
    (∀ va, 0 ≤ va < PGSIZE → upa m rootA va ≠ 0 ∧ uview m rootA va = 0) ∧
    (∀ va, TRAPFRAME ≤ va < MAXVA → leaf m rootA va = 0).
Proof.
  destruct (sample_root 8 ltac:(lia)) as (UA & LA & TA).
  destruct (sample_root 9 ltac:(lia)) as (UB & LB & TB).
  destruct (uvmalloc_eq sample_vm rootA spages 0 PGSIZE hart_ok_boot sample_kmem)
    as (r & m & fl & l & Hr & [[-> G]|(-> & _ & Hlen)]); [mlia|done|done| |exfalso; rewrite pgs_page in Hlen; change (length spages) with 8%nat in Hlen; change (pgs 0) with 0%nat in Hlen; lia].
  rewrite pgs_page in G. destruct (growing_view _ _ _ _ _ _ _ _ _ _ _ UA G) as [_ V].
  pose proof (gr_uvm _ _ _ _ _ _ _ _ _ _ G) as U. pose proof (gr_evolves _ _ _ _ _ _ _ _ _ _ G) as E.
  change (physmem sample_vm) with sample_mem in *.
  change (spage 8) with rootA in *. change (spage 9) with rootB in *.
  assert (∀ va, TRAPFRAME ≤ va < MAXVA → leaf m rootA va = 0) as Htop.
  { intros va Hva. rewrite (gr_old _ _ _ _ _ _ _ _ _ _ G) by (by right). apply LA. }
  assert (uspace m fl rootA l 1) as US.
  { split; [done|]. intros va Hva. unfold user_pa. by rewrite Htop. }
  assert (∀ x, rootB ≤ x < rootB + PGSIZE → ld m x = 0) as HB.
  { intros x Hx. rewrite (ev_mem _ _ _ _ _ E).
    - apply freed_mem_spec.
      + apply NoDup_fmap_2; [|apply NoDup_seqZ]. intros j k. apply spage_inj.
      + apply list.Forall_forall. intros q (j & -> & Hj)%elem_of_spages. apply spage_valid. lia.
      + intros q (j & -> & Hj)%elem_of_spages. unfold rootB, spage in *. mlia.
    - intros (p & t & Hp & Et & Hin). assert (t = rootA) as -> by exact (TA t (ex_intro _ p (conj Hp Et))).
      unfold rootA, rootB, spage in *. mlia.
    - intros q (j & -> & Hj)%elem_of_spages. unfold rootB, spage in *. mlia. }
  assert (rootB ∉ l) as HBl.
  { intros (j & Ej & Hj)%(ev_sub _ _ _ _ _ E)%elem_of_spages. apply spage_inj in Ej. lia. }
  destruct (uvm_zero_root m fl rootB l (vm_free _ _ _ _ (u_inv _ _ _ _ _ U))
    (spage_valid 9 ltac:(lia)) HBl HB) as (UB' & LB' & TB').
  exists m, fl, l. split_and!; [done|done| | |done].
  - split; [done| |].
    + intros q (p & Hp & Et) ->%TB'. destruct (ev_new _ _ _ _ _ E _ _ Hp Et) as [Et'|Hin].
      * pose proof (TA rootB (ex_intro _ p (conj Hp Et'))) as Eab%spage_inj. lia.
      * apply elem_of_spages in Hin as (j & Ej & Hj). apply spage_inj in Ej. lia.
    + intros q Hq ->%TB'. pose proof (gr_own _ _ _ _ _ _ _ _ _ _ G rootB Hq) as Hin.
      apply elem_of_spages in Hin as (j & Ej & Hj). apply spage_inj in Ej. lia.
  - intros va Hva. destruct (V va ltac:(mlia)) as [Vv Vf]. split; [|done].
    unfold upa, user_pa. destruct (Z.ltb_spec va MAXVA); [|mlia].
    rewrite (land_FLAGS _ PTE_V), (land_FLAGS _ PTE_U), Vf by done.
    change ((Z.land (Z.lor uperm PTE_V) PTE_V =? 0) || (Z.land (Z.lor uperm PTE_V) PTE_U =? 0))
      with false. cbn iota.
    pose proof (elem_upages m rootA 1 va ltac:(mlia) ltac:(mlia)) as Hq.
    pose proof (valid_page_range _ (Forall_elem _ _ _ (ow_valid _ _ _ _ _ (u_owned _ _ _ _ _ U)) Hq)). lia.
Qed.

(** ** The theorems on the sample machine *)

Lemma mappages_spec_witness :
  ∃ r m' fl' l', let s' := with_mem sample_vm m' fl' in
    mappages rootA 0 (2 * PGSIZE) KERNBASE uperm sample_vm = Ret r s' ∧
    vm_inv m' fl' rootA l' ∧
    (r = 0 → walkaddr rootA (PGSIZE + 5) s' = Ret (KERNBASE + PGSIZE) s').
Proof.
  destruct (sample_root 8 ltac:(lia)) as (UA & LA & _).
  destruct (mappages_spec sample_vm rootA 0 (2 * PGSIZE) KERNBASE uperm spages hart_ok_boot
              sample_kmem (u_inv _ _ _ _ _ UA))
    as (r & m' & fl' & l' & Hr & I' & _ & _ & Hres);
    [lia|mlia|done|mlia|done|done|done|intros x _; apply LA|].
  exists r, m', fl', l'. split_and!; [exact Hr|exact I'|]. intros ->.
  destruct Hres as [[? _]|[_ Hx]]; [done|].
  destruct (Hx (PGSIZE + 5)) as [_ Hw]; [split; done|]. apply Hw. done.
Defined.

Lemma uvmalloc_spec_witness :
  ∃ m' fl' l', uvmalloc rootA 0 5000 sample_vm = Ret 5000 (with_mem sample_vm m' fl') ∧
    uvm m' fl' rootA l' 2 ∧ uview m' rootA 4999 = 0.
Proof.
  destruct (sample_root 8 ltac:(lia)) as (UA & _ & _).
  destruct (uvmalloc_spec sample_vm rootA spages 0 5000 hart_ok_boot sample_kmem ltac:(lia)
              ltac:(done) UA)
    as (r & m' & fl' & l' & Hr & _ & _ & _ & [(-> & U & Hz)|(_ & _ & _ & Hlen)]).
  - exists m', fl', l'. split_and!; [exact Hr|exact U|]. apply Hz. split; done.
  - exfalso. change (length spages) with 8%nat in Hlen.
    change (pgs 5000) with 2%nat in Hlen. lia.
Defined.

Lemma uvmdealloc_spec_witness :
  ∃ s l m' fl', uvm (physmem s) (freelist s) rootA l 1 ∧
    uvmdealloc rootA PGSIZE 0 s = Ret 0 (with_mem s m' fl') ∧
    uvm m' fl' rootA (PTE2PA (leaf (physmem s) rootA 0) :: l) 0.
Proof.
  destruct sample_user as (m & fl & l & [U _] & _).
  destruct (uvmdealloc_spec (with_mem boot m fl) rootA l PGSIZE 0 hart_ok_boot)
    as (m' & fl' & Hr & U' & _); [apply boot_kmem|mlia|done|exact U|].
  exists (with_mem boot m fl), l, m', fl'. split_and!; [exact U|exact Hr|exact U'].
Defined.


Lemma copyout_spec_witness :
  ∃ s l m', uspace (physmem s) (freelist s) rootA l 1 ∧
    copyout rootA 100 [1; 2; 3] s = Ret 0 (with_mem s m' (freelist s)) ∧
    ld m' (uaddr (physmem s) rootA 102) = 3.
Proof.
  destruct sample_user as (m & fl & l & US & _ & _ & Hacc & _).
  destruct (copyout_spec (with_mem boot m fl) rootA l 1 100 [1; 2; 3] US)
    as (r & m' & Hr & _ & _ & _ & _ & [[-> Hb]|(_ & i & Hi & Hbad)]); [lia|cbn; lia| |].
  - exists (with_mem boot m fl), l, m'. split_and!; [exact US|exact Hr|].
    exact (proj2 (Hb 2%nat 3 eq_refl)).
  - exfalso. cbn [length] in Hi. apply (proj1 (Hacc (100 + Z.of_nat i) ltac:(mlia))). exact Hbad.
Defined.

Lemma copy_roundtrip_witness :
  ∃ s s', copyout rootA 100 [1; 2; 300] s = Ret 0 s' ∧
    copyin rootA 100 3 s' = Ret (0, [1; 2; 44]) s'.
Proof.
  destruct sample_user as (m & fl & l & US & _ & _ & Hacc & _).
  pose proof (copyout_eq (with_mem boot m fl) rootA l 1 100 [1; 2; 300] US ltac:(lia)
    ltac:(cbn; lia)) as Hr.
  destruct (uwrite m rootA 100 [1; 2; 300]) as [r m'] eqn:Ew.
  destruct (uwrite_spec m fl rootA l 1 100 [1; 2; 300] r m' US ltac:(lia) Ew)
    as (_ & _ & _ & [[-> _]|(_ & i & Hi & Hbad)]).
  - rewrite physmem_with_mem, Ew in Hr. eexists _, _. split; [exact Hr|].
    exact (copy_roundtrip (with_mem boot m fl) rootA l 1 100 [1; 2; 300] _ US ltac:(lia) ltac:(cbn; lia) Hr).
  - exfalso. cbn [length] in Hi. apply (proj1 (Hacc (100 + Z.of_nat i) ltac:(mlia))). exact Hbad.
Defined.

Lemma copyinstr_spec_witness :
  ∃ s r bs, copyinstr rootA 100 10 s = Ret (r, bs) s ∧ (length bs ≤ 10)%nat ∧
    (∀ b, bs !! 0%nat = Some b → ld (physmem s) (uaddr (physmem s) rootA 100) = b).
Proof.
  destruct sample_user as (m & fl & l & US & _ & _ & Hacc & _).
  destruct (copyinstr_spec (with_mem boot m fl) fl rootA l 1 100 10 US ltac:(lia) ltac:(lia))
    as (r & bs & Hr & Hlen & Hb & _).
  exists (with_mem boot m fl), r, bs. split_and!; [exact Hr|lia|]. intros b Hb0.
  exact (proj2 (Hb 0%nat b Hb0)).
Defined.

Lemma uvmfree_spec_witness :
  ∃ s l m' fl' l', uvm (physmem s) (freelist s) rootA l 1 ∧
    uvmfree rootA PGSIZE s = Ret tt (with_mem s m' fl') ∧
    free_list m' fl' l' ∧ rootA ∈ l'.
Proof.
  destruct sample_user as (m & fl & l & [U _] & _ & _ & _ & Htop).
  destruct (uvmfree_spec (with_mem boot m fl) rootA l PGSIZE hart_ok_boot (boot_kmem m fl))
    as (m' & fl' & l' & Hr & Hf & Hq & _); [mlia|exact U|exact Htop|].
  exists (with_mem boot m fl), l, m', fl', l'. split_and!; [exact U|exact Hr|exact Hf|].
  apply Hq. right. right. exists []. split; [apply path_ok_nil|done].
Defined.
