(* ===== verification/Sched.v ===== *)
(** * kernel/proc.c: the current process, sched, sleep, wakeup and kill

    The operations through which a kernel thread gives up its processor and
    others make it runnable again, and the scheduler that runs the threads. *)

From S2P Require Import Prelude Machine Memory State Spinlock.

(** ** The current process *)

Definition cpuid : K nat := gets tp.

Definition myproc : K (option nat) :=
  push_off ;;;
  let! p := gets (λ s, c_proc (mycpu s)) in
  pop_off ;;;
  ret p.

(** Using a null [struct proc *] faults in the kernel, and [kerneltrap] panics. *)
Definition deref {A} (p : option A) : K A :=
  match p with
  | Some i => ret i
  | None => panic "kerneltrap"
  end.

(** [struct proc *p = myproc();] where [p] is then used. *)
Definition curproc : K nat := let! p := myproc in deref p.

Definition pget {A} (p : nat) (f : proc → A) : K A := gets (λ s, f (getproc p s)).
Definition pset (p : nat) (f : proc → proc) : K unit := modify (upd_proc p f).

(** ** Giving up the processor *)

(** [swtch(&p->context, &mycpu()->context)]: the scheduler takes over with the
    state as it is; the thread goes on when the scheduler switches back to it. *)
Definition swtch : K unit := λ s, Switch s (λ s', Ret tt s').

Definition sched : K unit :=
  let! p := curproc in
  let! h := holding (LkProc p) in
  if negb h then panic "sched p->lock" else
  let! n := gets (λ s, c_noff (mycpu s)) in
  if negb (n =? 1) then panic "sched locks" else
  let! st := pget p p_state in
  if bool_decide (st = RUNNING) then panic "sched running" else
  let! on := intr_get in
  if on then panic "sched interruptible" else
  let! intena := gets (λ s, c_intena (mycpu s)) in
  swtch ;;;
  modify (upd_cpu (set_c_intena intena)).

Definition yield : K unit :=
  let! p := curproc in
  acquire (LkProc p) ;;;
  pset p (set_p_state RUNNABLE) ;;;
  sched ;;;
  release (LkProc p).

Definition sleep (ch : chan) (lk : lockid) : K unit :=
  let! p := curproc in
  acquire (LkProc p) ;;;
  release lk ;;;
  pset p (set_p_chan (Some ch)) ;;;
  pset p (set_p_state SLEEPING) ;;;
  sched ;;;
  pset p (set_p_chan None) ;;;
  release (LkProc p) ;;;
  acquire lk.

(** ** Waking others *)

Definition wakeup_one (ch : option chan) (p : nat) : K unit :=
  let! me := myproc in
  if bool_decide (Some p = me) then ret tt else
  acquire (LkProc p) ;;;
  let! q := gets (getproc p) in
  when (bool_decide (p_state q = SLEEPING) && bool_decide (p_chan q = ch))
    (pset p (set_p_state RUNNABLE)) ;;;
  release (LkProc p).

(** [wakeup(chan)]; a null [chan] is [None]. *)
Definition wakeup (ch : option chan) : K unit := for_each (seq 0 NPROC) (wakeup_one ch).

(** The body of the loop of [kill]; [Some] is the [return 0] inside it. *)
Definition kill_one (pid : Z) (p : nat) : K (option Z) :=
  acquire (LkProc p) ;;;
  let! q := gets (getproc p) in
  if p_pid q =? pid then
    pset p (set_p_killed 1) ;;;
    when (bool_decide (p_state q = SLEEPING)) (pset p (set_p_state RUNNABLE)) ;;;
    release (LkProc p) ;;;
    ret (Some 0)
  else
    release (LkProc p) ;;;
    ret None.

Definition kill (pid : Z) : K Z :=
  let! r := for_find (seq 0 NPROC) (kill_one pid) in
  match r with
  | Some v => ret v
  | None => ret (-1)
  end.

(** [nproc] counts with one loop; the count is the loop variable. *)
Fixpoint nproc_loop (ps : list nat) (count : Z) : K Z :=
  match ps with
  | [] => ret count
  | p :: ps' =>
      acquire (LkProc p) ;;;
      let! st := pget p p_state in
      let count := if negb (bool_decide (st = UNUSED)) then count + 1 else count in
      release (LkProc p) ;;;
      nproc_loop ps' count
  end.

Definition nproc : K Z := nproc_loop (seq 0 NPROC) 0.

(** ** The scheduler

    One turn of the inner loop of [scheduler], for process [p]: [run] is the
    suspended kernel thread of each process, and the answer holds the threads
    after the turn.  A thread that returns has left the kernel. *)

Definition thread : Type := kernel → outcome kernel unit.
Definition threads : Type := nat → thread.

Definition set_thread (p : nat) (k : thread) (run : threads) : threads :=
  λ q, if decide (q = p) then k else run q.

(** A thread runs until it switches back. *)
Definition run_thread (p : nat) (run : threads) : K threads := λ s,
  match run p s with
  | Ret _ _ => Hang
  | Panic msg => Panic msg
  | Hang => Hang
  | Switch s' k => Ret (set_thread p k run) s'
  end.

Definition scheduler_turn (run : threads) (p : nat) : K threads :=
  acquire (LkProc p) ;;;
  let! st := pget p p_state in
  let! run :=
    (if bool_decide (st = RUNNABLE) then
       pset p (set_p_state RUNNING) ;;;
       modify (upd_cpu (set_c_proc (Some p))) ;;;
       let! run := run_thread p run in
       modify (upd_cpu (set_c_proc None)) ;;;
       ret run
     else ret run) in
  release (LkProc p) ;;;
  ret run.

Fixpoint scheduler_turns (run : threads) (ps : list nat) : K threads :=
  match ps with
  | [] => ret run
  | p :: ps' =>
      let! run := scheduler_turn run p in
      scheduler_turns run ps'
  end.

(** One pass over the process table. *)
Definition scheduler_pass (run : threads) : K threads :=
  intr_on ;;;
  scheduler_turns run (seq 0 NPROC).

(** [scheduler]'s loop, for [n] passes. *)
Fixpoint scheduler_loop (n : nat) (run : threads) : K threads :=
  match n with
  | O => ret run
  | S n' =>
      let! run := scheduler_pass run in
      scheduler_loop n' run
  end.

Definition scheduler (n : nat) (run : threads) : K threads :=
  modify (upd_cpu (set_c_proc None)) ;;;
  scheduler_loop n run.

(** ** Lemmas *)

Lemma upd_cpu_id s f :
  (tp s < length (cpus s))%nat → f (mycpu s) = mycpu s → upd_cpu f s = s.
Proof.
  intros Hlen Hf. unfold upd_cpu. rewrite Hf. unfold mycpu.
  rewrite list_insert_id; [by destruct s|]. by apply list_lookup_lookup_total_lt.
Qed.

Lemma myproc_eq s : hart_ok s → myproc s = Ret (c_proc (mycpu s)) s.
Proof.
  intros Hh. pose proof Hh as (Hlen & Hn & Hoff & Hq). unfold myproc.
  run (push_off_eq s Hh).
  unfold gets at 1. unfold bind at 1. cbn [obind]. rewrite mycpu_upd_cpu by done.
  cbn [c_proc]. unfold bind.
  rewrite pop_off_eq; [|cpu_len|by rewrite mycpu_upd_cpu|rewrite mycpu_upd_cpu by done; cbn; lia].
  cbn [obind ret]. rewrite upd_cpu_upd_cpu by done. unfold ret. f_equal.
  apply upd_cpu_id; [done|]. destruct (mycpu s) as [p n i e]; cbn in *. f_equal; [lia|].
  destruct (Z.eqb_spec (n + 1) 1); [apply Hq; lia|]. symmetry. apply Hoff. lia.
Qed.

Lemma curproc_eq s p :
  hart_ok s → c_proc (mycpu s) = Some p → curproc s = Ret p s.
Proof.
  intros Hh Hp. unfold curproc. run (myproc_eq s Hh). by rewrite Hp.
Qed.

(** The state a critical section on [l] leaves, when its body went from
    [enter l s] to [s1]. *)
Definition unlocked (s s1 : kernel) : kernel := set_cpus (cpus s) (set_locks (locks s) s1).

(** A critical section whose body keeps to the data the lock protects. *)
Lemma critical {A} s l (body : K A) a s1 :
  hart_ok s → lock_free s l →
  body (enter l s) = Ret a s1 →
  tp s1 = tp s → cpus s1 = cpus (enter l s) → locks s1 = locks (enter l s) →
  (acquire l ;;; let! r := body in release l ;;; ret r) s = Ret a (unlocked s s1).
Proof.
  intros Hh Hl Hb Ht Hc Hk.
  rewrite (bind_Ret _ _ _ tt (enter l s)) by by apply acquire_ok.
  run Hb.
  by run (release_enter s s1 l Hh Hl Ht Hc Hk).
Qed.

(** ** wakeup *)

Definition wake (ch : option chan) (q : proc) : proc :=
  if bool_decide (p_state q = SLEEPING) && bool_decide (p_chan q = ch)
  then set_p_state RUNNABLE q else q.

(** The process table after [wakeup(ch)] by [me]. *)
Definition woken (ch : option chan) (me : option nat) (ps : list proc) : list proc :=
  imap (λ i q, if bool_decide (Some i = me) then q else wake ch q) ps.

Definition wake_at (ch : option chan) (me : option nat) (p : nat) (ps : list proc) : list proc :=
  if bool_decide (Some p = me) then ps else alter (wake ch) p ps.

Lemma wakeup_one_eq s ch p :
  hart_ok s → (Some p ≠ c_proc (mycpu s) → lock_free s (LkProc p)) → (p < length (procs s))%nat →
  wakeup_one ch p s = Ret tt (set_procs (wake_at ch (c_proc (mycpu s)) p (procs s)) s).
Proof.
  intros Hh Hl Hp. unfold wakeup_one. run (myproc_eq s Hh).
  unfold wake_at. case_bool_decide as E; [by destruct s|]. specialize (Hl E).
  rewrite (bind_Ret _ _ _ tt (enter (LkProc p) s)) by by apply acquire_ok.
  unfold gets at 1. unfold bind at 1. cbn [obind].
  change (getproc p (enter (LkProc p) s)) with (getproc p s).
  assert (procs s !! p = Some (getproc p s)) as Hlk by by apply list_lookup_lookup_total_lt.
  set (q := getproc p s) in *. unfold when, pset, modify, bind.
  assert (alter (wake ch) p (procs s)
          = if bool_decide (p_state q = SLEEPING) && bool_decide (p_chan q = ch)
            then alter (set_p_state RUNNABLE) p (procs s) else procs s) as ->.
  { unfold wake. destruct (_ && _) eqn:Eb.
    - apply list_eq. intros i. destruct (decide (i = p)) as [->|Hne].
      + rewrite !list_lookup_alter_eq, Hlk. cbn. by rewrite Eb.
      + by rewrite !list_lookup_alter_ne.
    - apply list_eq. intros i. destruct (decide (i = p)) as [->|Hne].
      + rewrite !list_lookup_alter_eq, Hlk. cbn. by rewrite Eb.
      + by rewrite !list_lookup_alter_ne. }
  destruct (_ && _); cbn [obind ret].
  - rewrite (release_enter s) by first [assumption|kfield]. f_equal.
  - unfold ret. rewrite (release_enter s) by first [assumption|kfield]. by destruct s.
Qed.

Lemma length_wake_at ch me p ps : length (wake_at ch me p ps) = length ps.
Proof. unfold wake_at. case_bool_decide; [done|]. apply length_alter. Qed.

Lemma wakeup_loop s ch ps :
  hart_ok s →
  (∀ p, p ∈ ps → Some p ≠ c_proc (mycpu s) → lock_free s (LkProc p)) →
  (∀ p, p ∈ ps → (p < length (procs s))%nat) →
  for_each ps (wakeup_one ch) s
  = Ret tt (set_procs (foldl (λ l p, wake_at ch (c_proc (mycpu s)) p l) (procs s) ps) s).
Proof.
  revert s. induction ps as [|p ps IH]; intros s Hh Hl Hp; [by destruct s|].
  cbn [for_each foldl].
  run (wakeup_one_eq s ch p Hh (Hl p ltac:(by left)) (Hp p ltac:(by left))).
  rewrite IH; [done|done| |].
  - intros q Hq. apply Hl. by right.
  - intros q Hq. cbn. rewrite length_wake_at. apply Hp. by right.
Qed.

Lemma foldl_wake ch me ps l i :
  NoDup ps →
  foldl (λ l p, wake_at ch me p l) l ps !! i =
    (if decide (i ∈ ps) then (λ q, if bool_decide (Some i = me) then q else wake ch q) <$> l !! i
     else l !! i).
Proof.
  revert l. induction ps as [|p ps IH]; intros l Hd; cbn [foldl].
  - by rewrite decide_False by apply not_elem_of_nil.
  - apply NoDup_cons in Hd as [Hn Hd]. rewrite IH by done.
    assert (wake_at ch me p l !! i
      = if decide (i = p) then (λ q, if bool_decide (Some i = me) then q else wake ch q) <$> l !! i
        else l !! i) as ->.
    { unfold wake_at. destruct (decide (i = p)) as [E|E].
      - subst p. destruct (bool_decide (Some i = me)); [by destruct (l !! i)|by rewrite list_lookup_alter_eq].
      - destruct (bool_decide (Some p = me)); [done|]. by rewrite list_lookup_alter_ne. }
    destruct (decide (i = p)) as [->|Hne].
    + rewrite (decide_False (P := p ∈ ps)) by done. by rewrite decide_True by (by left).
    + destruct (decide (i ∈ ps)).
      * by rewrite decide_True by (by right).
      * rewrite decide_False; [done|]. by apply not_elem_of_cons.
Qed.

Lemma wakeup_eq s ch :
  hart_ok s → length (procs s) = NPROC →
  (∀ p, (p < NPROC)%nat → Some p ≠ c_proc (mycpu s) → lock_free s (LkProc p)) →
  wakeup ch s = Ret tt (set_procs (woken ch (c_proc (mycpu s)) (procs s)) s).
Proof.
  intros Hh Hlen Hl. unfold wakeup. rewrite wakeup_loop; [|done| |].
  - f_equal. f_equal. apply list_eq. intros i. rewrite foldl_wake by apply NoDup_seq.
    unfold woken. rewrite list_lookup_imap. case_decide as Hi; [done|].
    rewrite lookup_ge_None_2; [done|]. rewrite elem_of_seq in Hi. lia.
  - intros p Hp%elem_of_seq. apply Hl. lia.
  - intros p Hp%elem_of_seq. lia.
Qed.

(** [wakeup(chan)] makes runnable exactly the processes that sleep on
    [chan], other than the caller; it changes nothing else of any process and
    nothing else in the kernel: every lock, the interrupt setting and memory
    are as before. *)
Theorem wakeup_spec s ch :
  hart_ok s → length (procs s) = NPROC →
  (∀ p, (p < NPROC)%nat → Some p ≠ c_proc (mycpu s) → lock_free s (LkProc p)) →
  ∃ ps', wakeup ch s = Ret tt (set_procs ps' s) ∧ length ps' = length (procs s) ∧
    ∀ i q, procs s !! i = Some q →
      ps' !! i = Some (if decide (p_state q = SLEEPING ∧ p_chan q = ch ∧
                                  c_proc (mycpu s) ≠ Some i)
                       then set_p_state RUNNABLE q else q).
Proof.
  intros Hh Hlen Hl. eexists. split_and!; [by apply wakeup_eq|unfold woken; by rewrite length_imap|].
  intros i q Hq. unfold woken. rewrite list_lookup_imap, Hq. cbn. f_equal. unfold wake.
  repeat case_bool_decide; case_decide; intuition congruence.
Qed.

Lemma all_locks_proc p : (p < NPROC)%nat → LkProc p ∈ all_locks.
Proof.
  intros Hp. unfold all_locks. rewrite !elem_of_app, !list_elem_of_fmap. right. left.
  exists p. split; [done|]. apply elem_of_seq. lia.
Qed.

(** A process asleep on the log, next to 63 unused ones. *)
Definition sample_sleeper : kernel :=
  upd_proc 3 (λ q, set_p_chan (Some ChLog) (set_p_state SLEEPING q)) boot.

Lemma wakeup_spec_witness :
  ∃ ps', wakeup (Some ChLog) sample_sleeper = Ret tt (set_procs ps' sample_sleeper) ∧
    ((λ q, p_state q) <$> ps' !! 3%nat) = Some RUNNABLE.
Proof.
  destruct (wakeup_spec sample_sleeper (Some ChLog)) as (ps' & Hr & _ & Hps).
  - exact hart_ok_boot.
  - reflexivity.
  - intros p Hp _. exact (lock_free_boot _ (all_locks_proc p Hp)).
  - exists ps'. split; [exact Hr|]. erewrite Hps by reflexivity. reflexivity.
Defined.

(** ** kill and nproc *)

Lemma unlocked_enter s l : unlocked s (enter l s) = s.
Proof. by destruct s. Qed.

Definition killed_proc (q : proc) : proc :=
  let q' := set_p_killed 1 q in
  if bool_decide (p_state q = SLEEPING) then set_p_state RUNNABLE q' else q'.

Lemma upd_proc_upd_proc i f g s : upd_proc i f (upd_proc i g s) = upd_proc i (λ q, f (g q)) s.
Proof.
  unfold upd_proc. cbn. by rewrite list_alter_alter_eq.
Qed.

Lemma upd_proc_ext i f g s :
  (∀ q, procs s !! i = Some q → f q = g q) → upd_proc i f s = upd_proc i g s.
Proof. intros E. unfold upd_proc. by rewrite (list_alter_ext f g _ (procs s)). Qed.

Lemma getproc_lookup s i q : procs s !! i = Some q → getproc i s = q.
Proof. intros Hq. by apply list_lookup_total_correct. Qed.

Lemma kill_one_eq s pid p q :
  hart_ok s → lock_free s (LkProc p) → procs s !! p = Some q →
  kill_one pid p s = if p_pid q =? pid then Ret (Some 0) (upd_proc p killed_proc s) else Ret None s.
Proof.
  intros Hh Hl Hq. unfold kill_one.
  rewrite (bind_Ret _ _ _ tt (enter (LkProc p) s)) by by apply acquire_ok.
  rewrite (bind_Ret _ _ _ q (enter (LkProc p) s))
    by (unfold gets; f_equal; by apply getproc_lookup).
  destruct (p_pid q =? pid).
  - unfold when, pset, modify, bind. cbn [obind].
    assert (upd_proc p killed_proc s =
      upd_proc p (λ q', (if bool_decide (p_state q = SLEEPING) then set_p_state RUNNABLE else id)
                         (set_p_killed 1 q')) s) as ->.
    { apply upd_proc_ext. intros q' Hq'. simplify_eq. unfold killed_proc. by case_bool_decide. }
    case_bool_decide; cbn [obind ret].
    + rewrite upd_proc_upd_proc. rewrite (release_enter s) by first [assumption|kfield]. done.
    + unfold ret. rewrite (release_enter s) by first [assumption|kfield]. done.
  - run (release_enter s (enter (LkProc p) s) _ Hh Hl eq_refl eq_refl eq_refl).
    fold (unlocked s (enter (LkProc p) s)). by rewrite unlocked_enter.
Qed.

Definition locks_free (s : kernel) : Prop := ∀ p, (p < NPROC)%nat → lock_free s (LkProc p).

Lemma for_find_kill s pid ps qs k :
  hart_ok s → locks_free s → procs s = qs ++ ps → length qs = k → (k + length ps = NPROC)%nat →
  for_find (seq k (length ps)) (kill_one pid) s =
    match list_find (λ q, p_pid q = pid) ps with
    | Some (i, _) => Ret (Some 0) (upd_proc (k + i) killed_proc s)
    | None => Ret None s
    end.
Proof.
  intros Hh Hl. revert qs k. induction ps as [|q ps IH]; intros qs k Hs Hk Hn; [done|].
  cbn [length seq for_find list_find].
  assert (procs s !! k = Some q) as Hq by (rewrite Hs, lookup_app_r, Hk, Nat.sub_diag by lia; done).
  cbn [length] in Hn. pose proof (kill_one_eq s pid k q Hh (Hl k ltac:(lia)) Hq) as E.
  destruct (Z.eqb_spec (p_pid q) pid) as [Ep|Ep].
  - run E. rewrite decide_True by done. by rewrite Nat.add_0_r.
  - run E. rewrite decide_False by done.
    rewrite (IH (qs ++ [q]) (S k)); [|by rewrite <- app_assoc|rewrite length_app; cbn; lia|lia].
    destruct (list_find _ ps) as [[i q']|]; cbn; [|done]. by rewrite Nat.add_succ_r.
Qed.

(** [kill(pid)] finds the first process table entry with that pid, marks
    it killed, makes it runnable if it was asleep, and returns 0; no other
    entry changes.  With no such entry it returns -1 and changes nothing.
    (Entries that are not in use have pid 0, so [kill(0)] marks a free entry.) *)
Theorem kill_spec s pid :
  hart_ok s → length (procs s) = NPROC → locks_free s →
  kill pid s =
    match list_find (λ q, p_pid q = pid) (procs s) with
    | Some (i, q) =>
        Ret 0 (set_procs (<[i := set_p_killed 1
                 (if decide (p_state q = SLEEPING) then set_p_state RUNNABLE q else q)]> (procs s)) s)
    | None => Ret (-1) s
    end.
Proof.
  intros Hh Hlen Hl. unfold kill. pose proof (for_find_kill s pid (procs s) [] 0 Hh Hl eq_refl eq_refl Hlen) as E.
  rewrite Hlen in E. destruct (list_find (λ q, p_pid q = pid) (procs s)) as [[i q]|] eqn:Ef;
    run E; [|done]. unfold ret. f_equal. unfold upd_proc. cbn. f_equal.
  apply list_find_Some in Ef as (Hq & _ & _). apply list_eq. intros j.
  destruct (decide (j = i)) as [->|Hne].
  - rewrite list_lookup_alter_eq, Hq, list_lookup_insert_eq by (by eapply lookup_lt_Some). cbn.
    unfold killed_proc. by destruct (decide (p_state q = SLEEPING)) as [E'|E'];
      [rewrite bool_decide_eq_true_2 by done|rewrite bool_decide_eq_false_2 by done].
  - by rewrite list_lookup_alter_ne, list_lookup_insert_ne.
Qed.

Lemma kill_spec_witness :
  ∃ s', kill 7 (upd_proc 3 (set_p_pid 7) sample_sleeper) = Ret 0 s' ∧
    (p_killed <$> procs s' !! 3%nat) = Some 1 ∧ (p_state <$> procs s' !! 3%nat) = Some RUNNABLE.
Proof.
  eexists. split.
  - rewrite (kill_spec (upd_proc 3 (set_p_pid 7) sample_sleeper) 7 hart_ok_boot).
    + reflexivity.
    + reflexivity.
    + intros p Hp. exact (lock_free_boot _ (all_locks_proc p Hp)).
  - split; reflexivity.
Defined.

Lemma nproc_loop_eq s ps qs k count :
  hart_ok s → locks_free s → procs s = qs ++ ps → length qs = k → (k + length ps = NPROC)%nat →
  nproc_loop (seq k (length ps)) count s =
    Ret (count + Z.of_nat (length (filter (λ q, p_state q ≠ UNUSED) ps))) s.
Proof.
  intros Hh Hl. revert qs k count. induction ps as [|q ps IH]; intros qs k count Hs Hk Hn.
  { cbn. by rewrite Z.add_0_r. }
  cbn [length seq nproc_loop] in *.
  assert (procs s !! k = Some q) as Hq by (rewrite Hs, lookup_app_r, Hk, Nat.sub_diag by lia; done).
  pose proof (Hl k ltac:(lia)) as Hlk.
  rewrite (bind_Ret _ _ _ tt (enter (LkProc k) s)) by by apply acquire_ok.
  rewrite (bind_Ret _ _ _ (p_state q) (enter (LkProc k) s))
    by (unfold pget, gets; do 2 f_equal; by apply getproc_lookup).
  run (release_enter s (enter (LkProc k) s) _ Hh Hlk eq_refl eq_refl eq_refl).
  fold (unlocked s (enter (LkProc k) s)). rewrite unlocked_enter.
  rewrite (IH (qs ++ [q])); [|by rewrite <- app_assoc|rewrite length_app; cbn; lia|lia].
  rewrite filter_cons. f_equal. case_bool_decide; case_decide; cbn [negb length]; done || lia.
Qed.

(** [nproc] returns the number of process table entries that are in use
    and leaves the kernel as it was. *)
Theorem nproc_spec s :
  hart_ok s → length (procs s) = NPROC → locks_free s →
  nproc s = Ret (Z.of_nat (length (filter (λ q, p_state q ≠ UNUSED) (procs s)))) s.
Proof.
  intros Hh Hlen Hl. unfold nproc. pose proof (nproc_loop_eq s (procs s) [] 0 0 Hh Hl eq_refl eq_refl Hlen) as E.
  by rewrite Hlen in E.
Qed.

Lemma nproc_spec_witness : nproc sample_sleeper = Ret 1 sample_sleeper.
Proof.
  apply (nproc_spec sample_sleeper hart_ok_boot).
  - reflexivity.
  - intros p Hp. exact (lock_free_boot _ (all_locks_proc p Hp)).
Defined.

(** ** sched and sleep *)

(** The state in which a thread may switch to the scheduler: it holds its own
    process lock and no other, interrupts are off, and it is not RUNNING. *)
Record switch_ok (s : kernel) (p : nat) : Prop := {
  sw_tp : (tp s < length (cpus s))%nat;
  sw_proc : c_proc (mycpu s) = Some p;
  sw_lock : lock_mine s (LkProc p);
  sw_noff : c_noff (mycpu s) = 1;
  sw_state : p_state (getproc p s) ≠ RUNNING;
  sw_sie : c_sie (mycpu s) = false
}.

Lemma holding_mine s l : lock_mine s l → holding l s = Ret true s.
Proof.
  intros [n E]. unfold holding, gets. rewrite (getlock_Some _ _ _ E). cbn.
  by rewrite bool_decide_eq_true_2.
Qed.

Lemma switch_hart_ok s p : switch_ok s p → hart_ok s.
Proof. intros [Ht Hp Hl Hn Hst Hi]. repeat split; try done; lia. Qed.

Lemma sched_eq s p :
  switch_ok s p →
  sched s = Switch s (λ s', Ret tt (upd_cpu (set_c_intena (c_intena (mycpu s))) s')).
Proof.
  intros Hsw. pose proof Hsw as [Ht Hp Hl Hn Hst Hi]. unfold sched.
  run (curproc_eq s p (switch_hart_ok s p Hsw) Hp).
  run (holding_mine _ _ Hl). cbn [negb].
  rewrite (bind_Ret _ _ s 1 s) by (unfold gets; by rewrite Hn). change (negb (1 =? 1)) with false. cbv iota.
  rewrite (bind_Ret _ _ s (p_state (getproc p s)) s) by done.
  rewrite bool_decide_eq_false_2 by done. cbv beta iota.
  by rewrite (bind_Ret _ _ s false s) by (unfold intr_get, gets; by rewrite Hi).
Qed.

Lemma lock_mine_leave s l l' :
  l ≠ l' → lock_mine s l → lock_mine (leave l' s) l.
Proof. intros Hne [n E]. exists n. cbn. by rewrite lookup_insert_ne. Qed.

Lemma lock_mine_enter s l : lock_free s l → lock_mine (enter l s) l.
Proof.
  intros [n E]. exists n. cbn. rewrite lookup_insert_eq. f_equal. f_equal.
  pose proof (getlock_Some _ _ _ E) as Eg. unfold getlock in *. cbn. by rewrite Eg.
Qed.

Lemma lock_free_leave s l : lock_mine s l → lock_free (leave l s) l.
Proof.
  intros [n E]. exists n. cbn. rewrite lookup_insert_eq. f_equal. f_equal.
  pose proof (getlock_Some _ _ _ E) as Eg. unfold getlock in *. cbn. by rewrite Eg.
Qed.

Lemma mycpu_enter s l :
  (tp s < length (cpus s))%nat →
  mycpu (enter l s) = mk_cpu (c_proc (mycpu s)) (c_noff (mycpu s) + 1) (c_intena (mycpu s)) false.
Proof. intros Ht. unfold enter. change (mycpu (upd_lock _ _ ?x)) with (mycpu x). by rewrite mycpu_upd_cpu. Qed.

Lemma mycpu_leave s l :
  (tp s < length (cpus s))%nat →
  mycpu (leave l s) = mk_cpu (c_proc (mycpu s)) (c_noff (mycpu s) - 1) (c_intena (mycpu s))
                        (if c_noff (mycpu s) =? 1 then c_intena (mycpu s) else false).
Proof. intros Ht. unfold leave. change (mycpu (upd_lock _ _ ?x)) with (mycpu x). by rewrite mycpu_upd_cpu. Qed.

(** The state [sleep] switches with. *)
Definition asleep (ch : chan) (lk : lockid) (p : nat) (s : kernel) : kernel :=
  upd_proc p (λ q, set_p_state SLEEPING (set_p_chan (Some ch) q))
    (leave lk (enter (LkProc p) s)).

(** The state it returns with, when resumed in [s']. *)
Definition awake (lk : lockid) (p : nat) (intena : bool) (s' : kernel) : kernel :=
  enter lk (leave (LkProc p) (upd_proc p (set_p_chan None) (upd_cpu (set_c_intena intena) s'))).

Lemma asleep_switch_ok s ch lk p :
  hart_ok s → c_proc (mycpu s) = Some p → lock_mine s lk → c_noff (mycpu s) = 1 →
  lock_free s (LkProc p) → lk ≠ LkProc p → (p < length (procs s))%nat →
  switch_ok (asleep ch lk p s) p.
Proof.
  intros Hh Hp Hlk Hn Hlp Hne Hlt. pose proof Hh as (Ht & _).
  assert (tp (enter (LkProc p) s) < length (cpus (enter (LkProc p) s)))%nat as Ht1
    by (cbn; by rewrite length_insert).
  assert (mycpu (asleep ch lk p s) = mk_cpu (Some p) 1 (c_intena (mycpu s)) false) as Hc.
  { unfold asleep. change (mycpu (upd_proc _ _ ?x)) with (mycpu x).
    rewrite mycpu_leave, mycpu_enter by done. cbn. by rewrite Hp, Hn. }
  split; try (rewrite Hc; done).
  - cbn. by rewrite !length_insert.
  - change (lock_mine (leave lk (enter (LkProc p) s)) (LkProc p)).
    apply lock_mine_leave; [done|]. by apply lock_mine_enter.
  - unfold asleep, getproc. cbn.
    by rewrite list_lookup_total_alter_eq.
Qed.

Lemma lock_mine_enter_ne s l l' : l ≠ l' → lock_mine s l → lock_mine (enter l' s) l.
Proof. intros Hne [n E]. exists n. cbn. by rewrite lookup_insert_ne. Qed.

Lemma lock_free_leave_ne s l l' : l ≠ l' → lock_free s l → lock_free (leave l' s) l.
Proof. intros Hne [n E]. exists n. cbn. by rewrite lookup_insert_ne. Qed.

Lemma sleep_switch s ch lk p :
  hart_ok s → c_proc (mycpu s) = Some p → lock_mine s lk → c_noff (mycpu s) = 1 →
  lock_free s (LkProc p) → lk ≠ LkProc p → (p < length (procs s))%nat →
  ∃ k, sleep ch lk s = Switch (asleep ch lk p s) k ∧
    ∀ s', k s' = (pset p (set_p_chan None) ;;; release (LkProc p) ;;; acquire lk)
                   (upd_cpu (set_c_intena (c_intena (mycpu s))) s').
Proof.
  intros Hh Hp Hlk Hn Hlp Hne Hlt. pose proof Hh as (Ht & _).
  pose proof (asleep_switch_ok s ch lk p Hh Hp Hlk Hn Hlp Hne Hlt) as Hsw.
  unfold sleep. run (curproc_eq s p Hh Hp).
  rewrite (bind_Ret _ _ _ tt (enter (LkProc p) s)) by by apply acquire_ok.
  rewrite (bind_Ret _ _ _ tt (leave lk (enter (LkProc p) s))).
  2:{ apply release_ok; [cbn; by rewrite length_insert| | |by apply lock_mine_enter_ne];
        rewrite mycpu_enter by done; cbn; [done|lia]. }
  rewrite (bind_Ret _ _ _ tt (upd_proc p (set_p_chan (Some ch)) (leave lk (enter (LkProc p) s))))
    by done.
  rewrite (bind_Ret _ _ _ tt (asleep ch lk p s))
    by (unfold pset, modify; by rewrite upd_proc_upd_proc).
  rewrite (bind_Switch _ _ _ _ _ (sched_eq _ _ Hsw)). eexists. split; [done|].
  intros s'. cbn [obind]. do 3 f_equal. unfold asleep.
  change (mycpu (upd_proc _ _ ?x)) with (mycpu x).
  rewrite mycpu_leave, mycpu_enter by (done || (cbn; by rewrite length_insert)). done.
Qed.

Lemma sleep_resume lk p s0 :
  hart_ok s0 → c_noff (mycpu s0) = 1 → c_sie (mycpu s0) = false →
  lock_mine s0 (LkProc p) → lock_free s0 lk → lk ≠ LkProc p →
  (pset p (set_p_chan None) ;;; release (LkProc p) ;;; acquire lk) s0
  = Ret tt (enter lk (leave (LkProc p) (upd_proc p (set_p_chan None) s0))).
Proof.
  intros Hh Hn Hi Hl Hf Hne. pose proof Hh as (Ht & _).
  rewrite (bind_Ret _ _ _ tt (upd_proc p (set_p_chan None) s0)) by done.
  rewrite (bind_Ret _ _ _ tt (leave (LkProc p) (upd_proc p (set_p_chan None) s0))).
  2:{ apply release_ok; [done|done| |done].
      change (mycpu (upd_proc _ _ ?x)) with (mycpu x). lia. }
  apply acquire_ok; [|by apply lock_free_leave_ne].
  unfold hart_ok. rewrite mycpu_leave by done.
  change (mycpu (upd_proc _ _ ?x)) with (mycpu x). rewrite Hn. cbn. rewrite length_insert.
  split_and!; [done|lia|lia|done].
Qed.

(** C37: [sleep(chan, lk)], called with [lk] as the only lock held, marks the
    process SLEEPING on [chan] and switches to the scheduler holding exactly its
    own process lock, with [lk] released; whatever happens in between, when the
    scheduler switches back it clears [chan], restores the thread's interrupt
    setting, gives up the process lock and returns holding [lk] again. *)
Theorem sleep_spec s ch lk p :
  hart_ok s → c_proc (mycpu s) = Some p → lock_mine s lk → c_noff (mycpu s) = 1 →
  lock_free s (LkProc p) → lk ≠ LkProc p → (p < length (procs s))%nat →
  ∃ s1 k, sleep ch lk s = Switch s1 k ∧
    switch_ok s1 p ∧ lock_free s1 lk ∧
    p_state (getproc p s1) = SLEEPING ∧ p_chan (getproc p s1) = Some ch ∧
    ∀ s', (tp s' < length (cpus s'))%nat → c_noff (mycpu s') = 1 → c_sie (mycpu s') = false →
      lock_mine s' (LkProc p) → lock_free s' lk → (p < length (procs s'))%nat →
      ∃ s2, k s' = Ret tt s2 ∧ lock_mine s2 lk ∧ lock_free s2 (LkProc p) ∧
        p_chan (getproc p s2) = None ∧ p_state (getproc p s2) = p_state (getproc p s') ∧
        c_noff (mycpu s2) = 1 ∧ c_intena (mycpu s2) = c_intena (mycpu s).
Proof.
  intros Hh Hp Hlk Hn Hlp Hne Hlt.
  destruct (sleep_switch s ch lk p Hh Hp Hlk Hn Hlp Hne Hlt) as (k & Hs & Hk).
  exists (asleep ch lk p s), k. split_and!; [done|by apply asleep_switch_ok| | | |].
  - apply (lock_free_leave (enter (LkProc p) s) lk). by apply lock_mine_enter_ne.
  - unfold asleep, getproc. cbn. by rewrite list_lookup_total_alter_eq.
  - unfold asleep, getproc. cbn. by rewrite list_lookup_total_alter_eq.
  - intros s' Ht' Hn' Hi' Hl' Hf' Hlt'. rewrite Hk.
    set (s0 := upd_cpu (set_c_intena (c_intena (mycpu s))) s').
    assert (mycpu s0 = set_c_intena (c_intena (mycpu s)) (mycpu s')) as Hc by by apply mycpu_upd_cpu.
    assert (tp s0 < length (cpus s0))%nat as Ht0 by (cbn; by rewrite length_insert).
    eexists. split_and!.
    + apply sleep_resume; try done; rewrite ?Hc; try done.
      repeat split; [done|rewrite Hc; cbn; lia|rewrite Hc; done|rewrite Hc; cbn; lia].
    + apply lock_mine_enter. by apply lock_free_leave_ne.
    + apply lock_free_enter; [done|]. by apply lock_free_leave.
    + unfold getproc. cbn. by rewrite list_lookup_total_alter_eq.
    + unfold getproc. cbn. by rewrite list_lookup_total_alter_eq.
    + rewrite mycpu_enter, mycpu_leave by (cbn; by rewrite ?length_insert).
      change (mycpu (upd_proc _ _ ?x)) with (mycpu x). rewrite Hc. cbn. lia.
    + rewrite mycpu_enter, mycpu_leave by (cbn; by rewrite ?length_insert).
      change (mycpu (upd_proc _ _ ?x)) with (mycpu x). by rewrite Hc.
Qed.

(** Process 3 running on hart 0, in the critical section of the log lock. *)
Definition sample_running : kernel := upd_cpu (set_c_proc (Some 3%nat)) boot.

Lemma sample_running_hart : hart_ok sample_running.
Proof. unfold hart_ok. cbn. split_and!; [lia|lia|done|done]. Qed.

Lemma lock_free_running l : l ∈ all_locks → lock_free sample_running l.
Proof. apply lock_free_boot. Qed.

Lemma sleep_spec_witness :
  ∃ s1 k, sleep ChLog LkLog (enter LkLog sample_running) = Switch s1 k ∧
    switch_ok s1 3 ∧ lock_free s1 LkLog ∧ p_state (getproc 3 s1) = SLEEPING.
Proof.
  assert (lock_free sample_running LkLog) as Hlog.
  { apply lock_free_running, elem_of_app. left. do 5 right. by left. }
  assert (lock_free sample_running (LkProc 3)) as Hp.
  { apply lock_free_running, all_locks_proc. unfold NPROC. lia. }
  destruct (sleep_spec (enter LkLog sample_running) ChLog LkLog 3)
    as (s1 & k & Hs & Hsw & Hf & Hst & _).
  - apply hart_ok_enter, sample_running_hart.
  - reflexivity.
  - by apply lock_mine_enter.
  - reflexivity.
  - by apply lock_free_enter.
  - discriminate.
  - cbn. lia.
  - exists s1, k. split_and!; [exact Hs|exact Hsw|exact Hf|exact Hst].
Defined.

(** ** The scheduler's turn *)

(** A hart in the scheduler, between two turns of its loop. *)
Record idle (s : kernel) : Prop := {
  id_hart : hart_ok s;
  id_noff : c_noff (mycpu s) = 0;
  id_proc : c_proc (mycpu s) = None;
  id_locks : locks_free s;
  id_procs : length (procs s) = NPROC
}.

(** The state in which the thread of process [p] is resumed. *)
Definition dispatched (p : nat) (s : kernel) : kernel :=
  upd_cpu (set_c_proc (Some p)) (upd_proc p (set_p_state RUNNING) (enter (LkProc p) s)).

Lemma dispatched_ok p s :
  idle s → (p < NPROC)%nat →
  let s1 := dispatched p s in
  hart_ok s1 ∧ c_proc (mycpu s1) = Some p ∧ p_state (getproc p s1) = RUNNING ∧
  lock_mine s1 (LkProc p) ∧ c_noff (mycpu s1) = 1 ∧ c_sie (mycpu s1) = false.
Proof.
  intros [Hh Hn Hc Hl Hlen] Hp s1. pose proof Hh as (Ht & _).
  assert (mycpu s1 = mk_cpu (Some p) 1 (c_intena (mycpu s)) false) as Hs1.
  { unfold s1, dispatched. rewrite mycpu_upd_cpu by (cbn; by rewrite length_insert).
    change (mycpu (upd_proc _ _ ?x)) with (mycpu x). rewrite mycpu_enter by done.
    cbn. by rewrite Hn. }
  split_and!; try (by rewrite Hs1).
  - unfold hart_ok. rewrite Hs1. cbn. rewrite !length_insert. split_and!; [done|lia|done|lia].
  - unfold s1, getproc. cbn. rewrite list_lookup_total_alter_eq; [done|]. by rewrite Hlen.
  - exact (lock_mine_enter s (LkProc p) (Hl p Hp)).
Qed.

Lemma hart_ok_leave s l p :
  switch_ok s p → hart_ok (leave l s) ∧ c_noff (mycpu (leave l s)) = 0.
Proof.
  intros [Ht Hp Hl Hn Hst Hi]. unfold hart_ok. rewrite mycpu_leave by done. rewrite Hn. cbn.
  rewrite length_insert. split_and!; [done|lia|lia|done|done].
Qed.

(** C38: a turn of the scheduler for process [p] leaves everything as it
    was unless [p] is RUNNABLE.  If it is, the thread of [p] is resumed RUNNING,
    as the hart's current process, holding [p]'s lock and no other, with
    interrupts off; and when it switches back the way [sched] does, the turn
    ends with no process current, all process locks free, and [p] not RUNNING:
    the hart is ready for the next turn. *)
Theorem scheduler_turn_spec run p s :
  idle s → (p < NPROC)%nat →
  (p_state (getproc p s) ≠ RUNNABLE → scheduler_turn run p s = Ret run s) ∧
  (p_state (getproc p s) = RUNNABLE →
   let s1 := dispatched p s in
   (c_proc (mycpu s1) = Some p ∧ p_state (getproc p s1) = RUNNING ∧
    lock_mine s1 (LkProc p) ∧ c_noff (mycpu s1) = 1 ∧ c_sie (mycpu s1) = false) ∧
   ∀ s' k, run p s1 = Switch s' k → switch_ok s' p → length (procs s') = NPROC →
     (∀ q, (q < NPROC)%nat → q ≠ p → lock_free s' (LkProc q)) →
     ∃ s2, scheduler_turn run p s = Ret (set_thread p k run) s2 ∧
       idle s2 ∧ procs s2 = procs s' ∧ p_state (getproc p s2) ≠ RUNNING).
Proof.
  intros Hid Hp. pose proof Hid as [Hh Hn Hc Hl Hlen]. pose proof (Hl p Hp) as Hlp.
  unfold scheduler_turn. rewrite (bind_Ret _ _ _ tt (enter (LkProc p) s)) by by apply acquire_ok.
  rewrite (bind_Ret _ _ _ (p_state (getproc p s)) (enter (LkProc p) s)) by done. split.
  - intros Hst. rewrite bool_decide_eq_false_2 by done.
    rewrite (bind_Ret _ _ _ run (enter (LkProc p) s)) by done.
    run (release_enter s (enter (LkProc p) s) _ Hh Hlp eq_refl eq_refl eq_refl).
    fold (unlocked s (enter (LkProc p) s)). by rewrite unlocked_enter.
  - intros Hst. split; [exact (proj2 (dispatched_ok p s Hid Hp))|].
    set (s1 := dispatched p s).
    intros s' k Hrun Hsw Hlen' Hoth. rewrite bool_decide_eq_true_2 by done.
    pose proof Hsw as [Ht' Hp' Hl' Hn' Hst' Hi'].
    set (s3 := upd_cpu (set_c_proc None) s').
    assert (mycpu s3 = set_c_proc None (mycpu s')) as Hc3 by by apply mycpu_upd_cpu.
    assert (tp s3 < length (cpus s3))%nat as Ht3 by (cbn; by rewrite length_insert).
    rewrite (bind_Ret _ _ _ (set_thread p k run) s3).
    2:{ rewrite (bind_Ret _ _ _ tt (upd_proc p (set_p_state RUNNING) (enter (LkProc p) s))) by done.
        rewrite (bind_Ret _ _ _ tt s1) by done.
        rewrite (bind_Ret _ _ _ (set_thread p k run) s') by (unfold run_thread; by rewrite Hrun).
        done. }
    exists (leave (LkProc p) s3). split_and!.
    + rewrite (bind_Ret _ _ _ tt (leave (LkProc p) s3)); [done|].
      apply release_ok; [done|rewrite Hc3; done|rewrite Hc3; cbn; lia|exact Hl'].
    + assert (mycpu (leave (LkProc p) s3)
              = mk_cpu None 0 (c_intena (mycpu s')) (c_intena (mycpu s'))) as Hc4.
      { rewrite mycpu_leave by done. rewrite Hc3. cbn. by rewrite Hn'. }
      split; try (rewrite Hc4; done); [| |done].
      * unfold hart_ok. rewrite Hc4. cbn. rewrite !length_insert. split_and!; [done|lia|lia|done].
      * intros q Hq. destruct (decide (q = p)) as [->|Hne]; [by apply lock_free_leave|].
        apply lock_free_leave_ne; [congruence|]. by apply Hoth.
    + done.
    + done.
Qed.

(** A runnable process whose thread yields at once. *)
Definition sample_runnable : kernel := upd_proc 3 (set_p_state RUNNABLE) boot.
Definition sample_thread : thread := (pset 3 (set_p_state RUNNABLE) ;;; sched).

Lemma sample_idle : idle sample_runnable.
Proof.
  split; [exact hart_ok_boot|done|done| |done].
  intros p Hp. exact (lock_free_boot _ (all_locks_proc p Hp)).
Qed.

Lemma scheduler_turn_spec_witness :
  ∃ k s2, scheduler_turn (λ _, sample_thread) 3 sample_runnable
            = Ret (set_thread 3 k (λ _, sample_thread)) s2 ∧ idle s2.
Proof.
  assert (3 < NPROC)%nat as H3 by (unfold NPROC; lia).
  destruct (scheduler_turn_spec (λ _, sample_thread) 3 sample_runnable sample_idle H3)
    as [_ [(Hp & _ & Hl & Hn & Hi) Hturn]]; [reflexivity|].
  set (s1 := dispatched 3 sample_runnable) in *.
  assert (switch_ok (upd_proc 3 (set_p_state RUNNABLE) s1) 3) as Hsw.
  { split; [cbn; lia|exact Hp|exact Hl|exact Hn| |exact Hi].
    unfold getproc. cbn. discriminate. }
  destruct (Hturn (upd_proc 3 (set_p_state RUNNABLE) s1) _ (sched_eq _ _ Hsw) Hsw)
    as (s2 & Hr & Hid & _).
  - reflexivity.
  - intros q Hq Hne.
    apply (lock_free_enter sample_runnable (LkProc 3) (LkProc q)); [congruence|].
    apply (id_locks _ sample_idle q Hq).
  - eexists _, s2. split; [exact Hr|exact Hid].
Defined.
