(* ===== verification/Wakeups.v ===== *)
(** * sleep and wakeup on several harts

    [sleep] (kernel/proc.c) releases the condition lock [lk] only after it has
    taken [p->lock], and the scheduler gives [p->lock] up only after the switch.
    Here a sleeper, a waker and the scheduler run on different harts, one lock
    operation or store at a time, and no interleaving loses a wakeup. *)

From S2P Require Import Prelude State.

Module Wakeups.

(** Who holds a lock. *)
Inductive holder : Type := Nobody | BySleeper | ByWaker | ByScheduler.

(** The sleeper: [acquire(lk); while(!cond) sleep(chan, lk); release(lk);]. *)
Inductive spc : Type :=
| S_acquire     (* acquire(lk) *)
| S_test        (* while(!cond) *)
| S_lockp       (* sleep: acquire(&p->lock) *)
| S_unlock      (* sleep: release(lk) *)
| S_chan        (* sleep: p->chan = chan *)
| S_sleeping    (* sleep: p->state = SLEEPING *)
| S_sched       (* sched: swtch to the scheduler *)
| S_off         (* switched out; the scheduler has still to release p->lock *)
| S_out         (* switched out *)
| S_back        (* switched in again, p->lock held: p->chan = 0 *)
| S_unlockp     (* sleep: release(&p->lock) *)
| S_relock      (* sleep: acquire(lk) *)
| S_release     (* release(lk) *)
| S_done.

(** The waker: [acquire(lk); cond = 1; wakeup(chan); release(lk);], where
    [wakeup] visits the sleeper's entry of the process table. *)
Inductive wpc : Type :=
| W_acquire     (* acquire(lk) *)
| W_set         (* cond = 1 *)
| W_lockp       (* wakeup: acquire(&p->lock) *)
| W_wake        (* wakeup: if(p->state == SLEEPING && p->chan == chan) ... *)
| W_unlockp     (* wakeup: release(&p->lock) *)
| W_release     (* release(lk) *)
| W_done.

Record config : Type := Config {
  lk : holder;
  plock : holder;
  cond : bool;
  state : procstate;
  onchan : bool;          (* p->chan == chan *)
  sleeper : spc;
  waker : wpc
}.

Definition init : config := Config Nobody Nobody false RUNNING false S_acquire W_acquire.

Definition set_s (pc : spc) (c : config) : config :=
  Config (lk c) (plock c) (cond c) (state c) (onchan c) pc (waker c).
Definition set_w (pc : wpc) (c : config) : config :=
  Config (lk c) (plock c) (cond c) (state c) (onchan c) (sleeper c) pc.
Definition set_lk (h : holder) (c : config) : config :=
  Config h (plock c) (cond c) (state c) (onchan c) (sleeper c) (waker c).
Definition set_plock (h : holder) (c : config) : config :=
  Config (lk c) h (cond c) (state c) (onchan c) (sleeper c) (waker c).
Definition set_cond (b : bool) (c : config) : config :=
  Config (lk c) (plock c) b (state c) (onchan c) (sleeper c) (waker c).
Definition set_state (st : procstate) (c : config) : config :=
  Config (lk c) (plock c) (cond c) st (onchan c) (sleeper c) (waker c).
Definition set_onchan (b : bool) (c : config) : config :=
  Config (lk c) (plock c) (cond c) (state c) b (sleeper c) (waker c).

(** [acquire] of a lock somebody holds does not step: the hart spins. *)
Definition take_lk (h : holder) (c : config) : option config :=
  match lk c with Nobody => Some (set_lk h c) | _ => None end.
Definition take_plock (h : holder) (c : config) : option config :=
  match plock c with Nobody => Some (set_plock h c) | _ => None end.

Definition sleeper_step (c : config) : option config :=
  match sleeper c with
  | S_acquire => set_s S_test <$> take_lk BySleeper c
  | S_test => Some (set_s (if cond c then S_release else S_lockp) c)
  | S_lockp => set_s S_unlock <$> take_plock BySleeper c
  | S_unlock => Some (set_s S_chan (set_lk Nobody c))
  | S_chan => Some (set_s S_sleeping (set_onchan true c))
  | S_sleeping => Some (set_s S_sched (set_state SLEEPING c))
  | S_sched => Some (set_s S_off (set_plock ByScheduler c))
  | S_off | S_out => None
  | S_back => Some (set_s S_unlockp (set_onchan false c))
  | S_unlockp => Some (set_s S_relock (set_plock Nobody c))
  | S_relock => set_s S_test <$> take_lk BySleeper c
  | S_release => Some (set_s S_done (set_lk Nobody c))
  | S_done => None
  end.

(** The scheduler, as far as this process is concerned: [release(&p->lock)]
    after the switch, and later [acquire(&p->lock)], the test for RUNNABLE,
    [p->state = RUNNING] and the switch back. *)
Definition scheduler_step (c : config) : option config :=
  match sleeper c with
  | S_off => Some (set_s S_out (set_plock Nobody c))
  | S_out =>
      match state c with
      | RUNNABLE => (λ c, set_s S_back (set_state RUNNING c)) <$> take_plock BySleeper c
      | _ => None
      end
  | _ => None
  end.

Definition waker_step (c : config) : option config :=
  match waker c with
  | W_acquire => set_w W_set <$> take_lk ByWaker c
  | W_set => Some (set_w W_lockp (set_cond true c))
  | W_lockp => set_w W_wake <$> take_plock ByWaker c
  | W_wake =>
      Some (set_w W_unlockp
              (if bool_decide (state c = SLEEPING) && onchan c then set_state RUNNABLE c else c))
  | W_unlockp => Some (set_w W_release (set_plock Nobody c))
  | W_release => Some (set_w W_done (set_lk Nobody c))
  | W_done => None
  end.

Inductive step (c c' : config) : Prop :=
| step_sleeper : sleeper_step c = Some c' → step c c'
| step_scheduler : scheduler_step c = Some c' → step c c'
| step_waker : waker_step c = Some c' → step c c'.

Definition reachable (c : config) : Prop := rtc step init c.

(** ** Invariant *)

Definition s_holds_lk (pc : spc) : bool :=
  match pc with S_test | S_lockp | S_unlock | S_release => true | _ => false end.
Definition s_holds_plock (pc : spc) : bool :=
  match pc with
  | S_unlock | S_chan | S_sleeping | S_sched | S_back | S_unlockp => true | _ => false end.
Definition w_holds_lk (pc : wpc) : bool :=
  match pc with W_acquire | W_done => false | _ => true end.
Definition w_holds_plock (pc : wpc) : bool :=
  match pc with W_wake | W_unlockp => true | _ => false end.

(** The waker has set the condition. *)
Definition w_set (pc : wpc) : bool :=
  match pc with W_acquire | W_set => false | _ => true end.

(** The process will stay off its processor until somebody wakes it. *)
Definition committed (c : config) : bool :=
  match sleeper c with
  | S_chan | S_sleeping | S_sched | S_off => true
  | S_out => bool_decide (state c = SLEEPING)
  | _ => false
  end.

Record inv (c : config) : Prop := {
  i_lk : lk c = if s_holds_lk (sleeper c) then BySleeper
                else if w_holds_lk (waker c) then ByWaker else Nobody;
  i_lk_excl : s_holds_lk (sleeper c) && w_holds_lk (waker c) = false;
  i_plock : plock c = if s_holds_plock (sleeper c) then BySleeper
                      else if w_holds_plock (waker c) then ByWaker
                      else match sleeper c with S_off => ByScheduler | _ => Nobody end;
  i_plock_excl : s_holds_plock (sleeper c) && w_holds_plock (waker c) = false ∧
                 (sleeper c = S_off → w_holds_plock (waker c) = false);
  i_cond : cond c = w_set (waker c);
  i_tested : sleeper c = S_lockp ∨ sleeper c = S_unlock → cond c = false;
  i_sched : sleeper c = S_sched ∨ sleeper c = S_off → state c = SLEEPING ∧ onchan c = true;
  i_chan : sleeper c = S_sleeping → onchan c = true;
  i_out : sleeper c = S_out →
    (state c = SLEEPING ∧ onchan c = true) ∨ state c = RUNNABLE;
  i_running : sleeper c ≠ S_sched → sleeper c ≠ S_off → sleeper c ≠ S_out → state c = RUNNING;
  i_lost : committed c = true → w_set (waker c) = true →
    waker c = W_lockp ∨ waker c = W_wake
}.

Lemma inv_init : inv init.
Proof. split; naive_solver. Qed.

(** Closes the goals of a step once the program counters are concrete. *)
Ltac solve_inv :=
  split; cbn in *; intuition (try discriminate; try congruence).

Lemma inv_sleeper c c' : inv c → sleeper_step c = Some c' → inv c'.
Proof.
  destruct c as [l pl cd st oc s w]. intros [I1 I2 I3 [I4 I4'] I5 I6 I7 I8 I9 I10 I11] Hs.
  cbn in *. unfold sleeper_step, take_lk, take_plock in Hs. cbn in Hs.
  destruct s; cbn in *; try discriminate; destruct w; cbn in *; try discriminate; subst;
    cbn in *; simplify_eq; solve_inv.
Qed.

Lemma inv_scheduler c c' : inv c → scheduler_step c = Some c' → inv c'.
Proof.
  destruct c as [l pl cd st oc s w]. intros [I1 I2 I3 [I4 I4'] I5 I6 I7 I8 I9 I10 I11] Hs.
  cbn in *. unfold scheduler_step, take_plock in Hs. cbn in Hs.
  destruct s; cbn in *; try discriminate; destruct st; try discriminate;
    destruct w; cbn in *; try discriminate; subst; cbn in *; simplify_eq; solve_inv.
Qed.

Lemma inv_waker c c' : inv c → waker_step c = Some c' → inv c'.
Proof.
  destruct c as [l pl cd st oc s w]. intros [I1 I2 I3 [I4 I4'] I5 I6 I7 I8 I9 I10 I11] Hs.
  cbn in *. unfold waker_step, take_lk, take_plock in Hs. cbn in Hs.
  destruct w; cbn in *; try discriminate; destruct s; cbn in *; try discriminate; subst;
    cbn in *; simplify_eq;
    try match goal with |- context [bool_decide (st = SLEEPING) && oc] => destruct st, oc end;
    solve_inv.
Qed.

Lemma inv_reachable c : reachable c → inv c.
Proof.
  intros Hr. unfold reachable in Hr. revert c Hr. refine (rtc_ind_r inv init inv_init _).
  intros c1 c2 _ Hs I1. destruct Hs as [Hs|Hs|Hs];
    [by eapply inv_sleeper|by eapply inv_scheduler|by eapply inv_waker].
Qed.

(** C11: in every interleaving of a thread that sleeps until a condition
    holds with a thread that makes it hold and calls [wakeup], the wakeup is not
    lost: once the waker has finished, the sleeper is either still on a
    processor or RUNNABLE, never SLEEPING; and no state is stuck before both
    threads have finished. *)
Theorem no_lost_wakeup c :
  reachable c →
  (waker c = W_done → sleeper c = S_off ∨ sleeper c = S_out → state c = RUNNABLE) ∧
  ((sleeper c = S_done ∧ waker c = W_done) ∨ ∃ c', step c c').
Proof.
  intros Hr. pose proof (inv_reachable c Hr) as [I1 I2 I3 [I4 I4'] I5 I6 I7 I8 I9 I10 I11].
  destruct c as [l pl cd st oc s w]. cbn in *. split.
  - intros ->. intros [-> | ->]; cbn in *.
    + destruct (I11 eq_refl eq_refl); discriminate.
    + destruct (I9 eq_refl) as [[-> _]|]; [|done]. destruct (I11 eq_refl eq_refl); discriminate.
  - destruct (sleeper_step (Config l pl cd st oc s w)) eqn:E1; [right; eexists; by apply step_sleeper|].
    destruct (scheduler_step (Config l pl cd st oc s w)) eqn:E2; [right; eexists; by apply step_scheduler|].
    destruct (waker_step (Config l pl cd st oc s w)) eqn:E3; [right; eexists; by apply step_waker|].
    left. unfold sleeper_step, scheduler_step, waker_step, take_lk, take_plock in *.
    cbn in *. destruct w; cbn in *; try discriminate; destruct s; cbn in *; try discriminate;
      subst; cbn in *; try discriminate; try done; destruct (I9 eq_refl) as [[-> _]| ->]; try done;
      destruct (I11 eq_refl eq_refl); discriminate.
Qed.

(** The interleaving in which the waker runs just after the sleeper let go of
    [lk], and waits for [p->lock]. *)
Definition sample : config := Config Nobody Nobody true RUNNABLE true S_out W_done.

Lemma sample_reachable : reachable sample.
Proof.
  unfold reachable, init, sample.
  do 4 (eapply rtc_l; [by apply step_sleeper|]).
  do 2 (eapply rtc_l; [by apply step_waker|]).
  do 3 (eapply rtc_l; [by apply step_sleeper|]).
  eapply rtc_l; [by apply step_scheduler|].
  do 4 (eapply rtc_l; [by apply step_waker|]). apply rtc_refl.
Qed.

Lemma no_lost_wakeup_witness :
  ∃ c, reachable c ∧ sleeper c = S_out ∧ waker c = W_done ∧ state c = RUNNABLE.
Proof.
  exists sample. split_and!; [exact sample_reachable|reflexivity|reflexivity|].
  apply (no_lost_wakeup sample sample_reachable); [reflexivity|by right].
Defined.
End Wakeups.
