(* ===== verification/Runs.v ===== *)
(** * Running kernel code to completion

    [runs c s Q]: code [c], started in [s], returns, with a result and a state
    that satisfy [Q].  Rules for sequences, loops and critical sections, and
    the state of a kernel thread that holds no lock. *)

From S2P Require Import Prelude Machine Memory State Spinlock Sched.

Definition runs {A} (c : K A) (s : kernel) (Q : A → kernel → Prop) : Prop :=
  ∃ a s', c s = Ret a s' ∧ Q a s'.

(** ** Structural rules *)

Lemma runs_ret {A} (a : A) s (Q : A → kernel → Prop) : Q a s → runs (ret a) s Q.
Proof. intros HQ. by exists a, s. Qed.

Lemma runs_mono {A} (c : K A) s (Q Q' : A → kernel → Prop) :
  runs c s Q → (∀ a s', Q a s' → Q' a s') → runs c s Q'.
Proof. intros (a & s' & E & HQ) Hm. exists a, s'. auto. Qed.

Lemma runs_bind {A B} (c : K A) (f : A → K B) s Q :
  runs c s (λ a s', runs (f a) s' Q) → runs (bind c f) s Q.
Proof.
  intros (a & s' & E & b & s'' & E' & HQ). exists b, s''. by run E.
Qed.

Lemma runs_gets {A B} (f : kernel → A) (k : A → K B) s Q :
  runs (k (f s)) s Q → runs (bind (gets f) k) s Q.
Proof. intros HQ. apply runs_bind. by exists (f s), s. Qed.

Lemma runs_modify {B} (f : kernel → kernel) (k : K B) s Q :
  runs k (f s) Q → runs (modify f ;;; k) s Q.
Proof. intros HQ. apply runs_bind. by exists tt, (f s). Qed.

Lemma runs_modify_last (f : kernel → kernel) s (Q : unit → kernel → Prop) :
  Q tt (f s) → runs (modify f) s Q.
Proof. intros HQ. by exists tt, (f s). Qed.

Lemma runs_eq {A B} (c : K A) (k : A → K B) s a s' Q :
  c s = Ret a s' → runs (k a) s' Q → runs (bind c k) s Q.
Proof. intros E HQ. apply runs_bind. by exists a, s'. Qed.

Lemma runs_eq_last {A} (c : K A) s a s' (Q : A → kernel → Prop) :
  c s = Ret a s' → Q a s' → runs c s Q.
Proof. intros E HQ. by exists a, s'. Qed.

Lemma runs_Ret {A} (c : K A) s (Q : A → kernel → Prop) :
  runs c s Q → ∃ a s', c s = Ret a s' ∧ Q a s'.
Proof. done. Qed.

Lemma runs_when_true (c : K unit) {B} (b : bool) (k : K B) s Q :
  b = true → runs (c ;;; k) s Q → runs (when b c ;;; k) s Q.
Proof. by intros ->. Qed.

Lemma runs_when_false (c : K unit) {B} (b : bool) (k : K B) s Q :
  b = false → runs k s Q → runs (when b c ;;; k) s Q.
Proof. intros -> HQ. unfold when. rewrite bind_ret_l. exact HQ. Qed.

(** A loop with an invariant and a measure. *)
Lemma runs_loop_state {A B} (I : A → kernel → Prop) (m : A → kernel → nat) (step : A → K (A + B)) a s Q :
  Z.of_nat (m a s) < 2 ^ 64 → I a s →
  (∀ a s, I a s →
     runs (step a) s (λ r s', match r with
                              | inl a' => I a' s' ∧ (m a' s' < m a s)%nat
                              | inr b => Q b s'
                              end)) →
  runs (loop step a) s Q.
Proof.
  intros Hm HI Hstep.
  assert (∀ n a s, (m a s < n)%nat → I a s →
    ∃ b s', run_n n step a s = Ret (inr b) s' ∧ Q b s') as Hrun.
  { induction n as [|n IH]; intros a' s1 Hn H1; [lia|].
    destruct (Hstep a' s1 H1) as (r & s2 & E & Hr). destruct r as [a2|b].
    - destruct Hr as [H2 Hlt]. destruct (IH a2 s2) as (b & s3 & E3 & HQ); [lia|done|].
      exists b, s3. by rewrite (run_n_next _ _ _ _ _ _ E).
    - exists b, s2. by rewrite (run_n_stop _ _ _ _ _ _ E). }
  destruct (Hrun (S (m a s)) a s) as (b & s' & E & HQ); [lia|done|].
  exists b, s'. split; [|done]. apply (loop_Ret _ (S (m a s))); [lia|done].
Qed.

(** The same with a measure of the loop variables. *)
Lemma runs_loop {A B} (I : A → kernel → Prop) (m : A → nat) (step : A → K (A + B)) a s Q :
  Z.of_nat (m a) < 2 ^ 64 → I a s →
  (∀ a s, I a s →
     runs (step a) s (λ r s', match r with
                              | inl a' => I a' s' ∧ (m a' < m a)%nat
                              | inr b => Q b s'
                              end)) →
  runs (loop step a) s Q.
Proof. intros Hm HI Hstep. by apply (runs_loop_state I (λ a _, m a)). Qed.

Lemma runs_for_up (I : Z → kernel → Prop) (bound : K Z) body i n s (Q : unit → kernel → Prop) :
  i ≤ n → n - i < 2 ^ 64 →
  (∀ j s, i ≤ j ≤ n → I j s → bound s = Ret n s) →
  (∀ j s, i ≤ j < n → I j s → runs (body j) s (λ _ s', I (j + 1) s')) →
  I i s → (∀ s', I n s' → Q tt s') → runs (for_up i bound body) s Q.
Proof.
  intros Hi Hn Hb Hbody HI HQ.
  destruct (for_up_inv I bound body i n s Hi Hn Hb) as (s' & E & HI'); [|done|].
  - intros j s1 Hj H1. destruct (Hbody j s1 Hj H1) as ([] & s2 & E & H2). by exists s2.
  - exists tt, s'. auto.
Qed.

Lemma runs_for_each {A} (I : list A → kernel → Prop) (l : list A) body s (Q : unit → kernel → Prop) :
  (∀ x l' s, I (x :: l') s → runs (body x) s (λ _ s', I l' s')) →
  I l s → (∀ s', I [] s' → Q tt s') → runs (for_each l body) s Q.
Proof.
  intros Hbody. revert s. induction l as [|x l IH]; intros s HI HQ; cbn.
  - apply runs_ret. auto.
  - apply runs_bind. eapply runs_mono; [by apply Hbody|]. intros [] s' HI'. by apply IH.
Qed.

(** ** Critical sections *)

(** [s1] is a state inside the critical section on [l] entered in [s]: the
    hart and the locks are as [acquire] left them. *)
Definition inside (l : lockid) (s s1 : kernel) : Prop :=
  tp s1 = tp s ∧ cpus s1 = cpus (enter l s) ∧ locks s1 = locks (enter l s).

Lemma inside_enter l s : inside l s (enter l s).
Proof. done. Qed.

Lemma runs_acquire {B} l s (k : K B) Q :
  hart_ok s → lock_free s l → runs k (enter l s) Q → runs (acquire l ;;; k) s Q.
Proof. intros Hh Hl HQ. eapply runs_eq; [by apply acquire_ok|done]. Qed.

Lemma runs_release {B} l s s1 (k : K B) Q :
  hart_ok s → lock_free s l → inside l s s1 →
  runs k (unlocked s s1) Q → runs (release l ;;; k) s1 Q.
Proof.
  intros Hh Hl (Ht & Hc & Hk) HQ. eapply runs_eq; [by apply (release_enter s)|done].
Qed.

Lemma runs_release_last l s s1 (Q : unit → kernel → Prop) :
  hart_ok s → lock_free s l → inside l s s1 → Q tt (unlocked s s1) → runs (release l) s1 Q.
Proof.
  intros Hh Hl (Ht & Hc & Hk) HQ. eapply runs_eq_last; [by apply (release_enter s)|done].
Qed.

Lemma hart_ok_ext s s' : tp s' = tp s → cpus s' = cpus s → hart_ok s → hart_ok s'.
Proof. unfold hart_ok, mycpu. by intros -> ->. Qed.

Lemma lock_free_ext s s' l : locks s' = locks s → lock_free s l → lock_free s' l.
Proof. unfold lock_free. by intros ->. Qed.

Lemma hart_ok_inside l s s1 : hart_ok s → inside l s s1 → hart_ok s1.
Proof.
  intros Hh (Ht & Hc & _). eapply hart_ok_ext; [| |by apply (hart_ok_enter s l)]; done.
Qed.

Lemma c_proc_inside l s s1 : hart_ok s → inside l s s1 → c_proc (mycpu s1) = c_proc (mycpu s).
Proof.
  intros Hh (Ht & Hc & _). unfold mycpu at 1. rewrite Ht, Hc.
  change (cpus (enter l s) !!! tp s) with (mycpu (enter l s)). rewrite mycpu_enter; [done|apply Hh].
Qed.

Lemma lock_free_inside l l' s s1 : l ≠ l' → inside l s s1 → lock_free s l' → lock_free s1 l'.
Proof.
  intros Hne (_ & _ & Hk) Hl. eapply lock_free_ext; [done|]. by apply lock_free_enter.
Qed.

(** ** A thread that holds no lock *)

Record thread_ok (p : nat) (s : kernel) : Prop := {
  th_hart : hart_ok s;
  th_proc : c_proc (mycpu s) = Some p;
  th_len : length (procs s) = NPROC;
  th_p : (p < NPROC)%nat;
  th_locks : ∀ l, l ∈ all_locks → lock_free s l
}.

(** Other processes may have been woken. *)
Definition awakened (q q' : proc) : Prop :=
  q' = q ∨ (p_state q = SLEEPING ∧ q' = set_p_state RUNNABLE q).

Definition procs_wake (p : nat) (ps ps' : list proc) : Prop :=
  length ps' = length ps ∧ ps' !! p = ps !! p ∧
  ∀ i q', ps' !! i = Some q' → ∃ q, ps !! i = Some q ∧ awakened q q'.

Lemma procs_wake_refl p ps : procs_wake p ps ps.
Proof. split_and!; [done|done|]. intros i q Hq. exists q. split; [done|by left]. Qed.

Lemma procs_wake_trans p ps1 ps2 ps3 :
  procs_wake p ps1 ps2 → procs_wake p ps2 ps3 → procs_wake p ps1 ps3.
Proof.
  intros (L1 & P1 & W1) (L2 & P2 & W2). split_and!; [congruence|congruence|].
  intros i q3 H3. destruct (W2 i q3 H3) as (q2 & H2 & A2). destruct (W1 i q2 H2) as (q1 & H1 & A1).
  exists q1. split; [done|]. destruct A1 as [->|[S1 ->]], A2 as [->|[S2 ->]].
  - by left.
  - by right.
  - by right.
  - done.
Qed.

Lemma woken_wake p ch ps : procs_wake p ps (woken ch (Some p) ps).
Proof.
  unfold woken. split_and!; [by rewrite length_imap| |].
  - rewrite list_lookup_imap. rewrite bool_decide_eq_true_2 by done. by destruct (ps !! p).
  - intros i q' Hq. rewrite list_lookup_imap in Hq. destruct (ps !! i) as [q|]; [|done].
    exists q. split; [done|]. cbn in Hq. injection Hq as <-. case_bool_decide; [by left|].
    unfold wake. destruct (_ && _) eqn:E; [|by left].
    apply andb_true_iff in E as [E1%bool_decide_eq_true E2]. right. done.
Qed.

Lemma all_locks_named l :
  l ∈ [LkKmem; LkPid; LkWait; LkFtable; LkBcache; LkLog; LkTicks; LkCons; LkUart; LkItable; LkPr; LkVdisk] →
  l ∈ all_locks.
Proof. intros H. unfold all_locks. apply elem_of_app. by left. Qed.

Lemma all_locks_buf i : (i < NBUF)%nat → LkSleep (SlBuf i) ∈ all_locks.
Proof.
  intros Hi. unfold all_locks. rewrite !elem_of_app, !list_elem_of_fmap. right. right. left.
  exists i. split; [done|]. apply elem_of_seq. lia.
Qed.

Lemma all_locks_inode i : (i < NINODE)%nat → LkSleep (SlInode i) ∈ all_locks.
Proof.
  intros Hi. unfold all_locks. rewrite !elem_of_app, !list_elem_of_fmap. right. right. right.
  exists i. split; [done|]. apply elem_of_seq. lia.
Qed.

Lemma thread_curproc p s : thread_ok p s → curproc s = Ret p s.
Proof. intros H. apply curproc_eq; apply H. Qed.

Lemma curproc_inside p l s s1 : thread_ok p s → inside l s s1 → curproc s1 = Ret p s1.
Proof.
  intros H Hi. apply curproc_eq; [by eapply hart_ok_inside; [apply H|]|].
  rewrite (c_proc_inside l s s1); [apply H|apply H|done].
Qed.

(** [wakeup] inside a critical section, on a lock that is not a process's. *)
Lemma wakeup_inside p l s s1 ch :
  thread_ok p s → (∀ i, l ≠ LkProc i) → inside l s s1 → length (procs s1) = NPROC →
  wakeup ch s1 = Ret tt (set_procs (woken ch (Some p) (procs s1)) s1).
Proof.
  intros H Hl Hi Hlen. rewrite wakeup_eq; [|by eapply hart_ok_inside; [apply H|]|done|].
  - rewrite (c_proc_inside l s s1); [|apply H|done]. by rewrite (th_proc p s H).
  - intros q Hq _. eapply lock_free_inside; [apply Hl|done|]. by apply H, all_locks_proc.
Qed.

Lemma wakeup_thread p s ch :
  thread_ok p s → wakeup ch s = Ret tt (set_procs (woken ch (Some p) (procs s)) s).
Proof.
  intros H. rewrite wakeup_eq; [by rewrite (th_proc p s H)|apply H|apply H|].
  intros q Hq _. by apply H, all_locks_proc.
Qed.

(** The thread's situation depends on the hart, the locks and the table size. *)
Lemma thread_ok_ext p s s' :
  tp s' = tp s → cpus s' = cpus s → locks s' = locks s → length (procs s') = length (procs s) →
  thread_ok p s → thread_ok p s'.
Proof.
  intros Ht Hc Hl Hn [H1 H2 H3 H4 H5]. split.
  - by eapply hart_ok_ext.
  - unfold mycpu in *. by rewrite Ht, Hc.
  - congruence.
  - done.
  - intros l Hin. eapply lock_free_ext; [done|auto].
Qed.

(** The boot state with process 0 running on hart 0. *)
Definition boot_thread : kernel :=
  set_cpus (<[0%nat := mk_cpu (Some 0%nat) 0 false false]> (cpus boot)) boot.

Lemma boot_thread_ok : thread_ok 0 boot_thread.
Proof.
  split; [|done|done|unfold NPROC; lia|exact lock_free_boot].
  split_and!; cbn; [lia|lia|done|done].
Qed.
