(* ===== verification/Sleeping.v ===== *)
(** * Threads that sleep and are resumed

    A kernel thread that calls [sleep] inside a critical section leaves with
    [Switch] and goes on from the state in which the scheduler resumes it:
    what it then finds, and loops that wait for a condition. *)

From S2P Require Import Prelude Machine Memory State Spinlock Sched Runs.

(** The state in which the scheduler resumes the thread of [p]: on some hart,
    with the lock of [p] as the only one held. *)
Record resumed (p : nat) (s : kernel) : Prop := {
  rs_tp : (tp s < length (cpus s))%nat;
  rs_proc : c_proc (mycpu s) = Some p;
  rs_noff : c_noff (mycpu s) = 1;
  rs_sie : c_sie (mycpu s) = false;
  rs_len : length (procs s) = NPROC;
  rs_p : (p < NPROC)%nat;
  rs_mine : lock_mine s (LkProc p);
  rs_locks : ∀ l, l ∈ all_locks → l ≠ LkProc p → lock_free s l
}.

(** The thread after the part of [sleep] that follows [sched], up to the
    condition lock. *)
Definition woke (p : nat) (intena : bool) (s : kernel) : kernel :=
  leave (LkProc p) (upd_proc p (set_p_chan None) (upd_cpu (set_c_intena intena) s)).

(** The thread that goes on is not inside any critical section. *)
Lemma woke_cpu p intena s : resumed p s → mycpu (woke p intena s) = mk_cpu (Some p) 0 intena intena.
Proof.
  intros R. set (s0 := upd_proc p (set_p_chan None) (upd_cpu (set_c_intena intena) s)).
  assert (mycpu s0 = set_c_intena intena (mycpu s)) as Hc by apply mycpu_upd_cpu, R.
  unfold woke. fold s0. rewrite mycpu_leave by (cbn; rewrite length_insert; apply R).
  rewrite Hc. cbn. by rewrite (rs_proc _ _ R), (rs_noff _ _ R).
Qed.

Lemma woke_thread p intena s : resumed p s → thread_ok p (woke p intena s).
Proof.
  intros R. pose proof R as [Ht Hp Hn Hs Hlen Hlt Hm Hl].
  pose proof (woke_cpu p intena s R) as Hw. split.
  - unfold hart_ok. rewrite Hw. cbn. rewrite !length_insert. split_and!; [done|lia|lia|done].
  - by rewrite Hw.
  - cbn. by rewrite length_alter.
  - done.
  - intros l Hin. destruct (decide (l = LkProc p)) as [->|Hne].
    + apply lock_free_leave. exact Hm.
    + apply lock_free_leave_ne; [done|]. by apply Hl.
Qed.

(** [sleep] by a thread inside the critical section on [lk], and what it
    returns with when it is resumed. *)
Lemma sleep_locked p lk s s1 ch :
  thread_ok p s → c_noff (mycpu s) = 0 → lock_free s lk → lk ≠ LkProc p →
  inside lk s s1 → length (procs s1) = NPROC →
  ∃ k, sleep ch lk s1 = Switch (asleep ch lk p s1) k ∧ switch_ok (asleep ch lk p s1) p ∧
    lock_free (asleep ch lk p s1) lk ∧
    ∀ s', resumed p s' → lock_free s' lk → k s' = Ret tt (enter lk (woke p (c_intena (mycpu s)) s')).
Proof.
  intros T Hn0 Hf Hne Hi Hlen. pose proof Hi as (Ht & Hc & Hk).
  assert (mycpu s1 = mycpu (enter lk s)) as Hm by (unfold mycpu; by rewrite Ht, Hc).
  rewrite mycpu_enter in Hm by apply T.
  assert (lock_mine s1 lk) as Hmine.
  { destruct (lock_mine_enter s lk Hf) as [nm E]. exists nm. by rewrite Hk, Ht. }
  destruct (sleep_switch s1 ch lk p) as (k & Hsw & Hres).
  - by eapply hart_ok_inside; [apply T|].
  - rewrite Hm. apply T.
  - done.
  - rewrite Hm. cbn. lia.
  - eapply lock_free_inside; [done|done|]. by apply T, all_locks_proc, T.
  - done.
  - rewrite Hlen. apply T.
  - exists k. split; [done|]. split; [|split].
    + apply asleep_switch_ok; try done.
      * by eapply hart_ok_inside; [apply T|].
      * rewrite Hm. apply T.
      * rewrite Hm. cbn. lia.
      * eapply lock_free_inside; [done|done|]. by apply T, all_locks_proc, T.
      * rewrite Hlen. apply T.
    + apply (lock_free_leave (enter (LkProc p) s1) lk). by apply lock_mine_enter_ne.
    + intros s' R Hf'. rewrite Hres, Hm. cbn [c_intena].
      assert (mycpu (upd_cpu (set_c_intena (c_intena (mycpu s))) s') =
              set_c_intena (c_intena (mycpu s)) (mycpu s')) as Hc' by apply mycpu_upd_cpu, R.
      apply sleep_resume; try (rewrite Hc'; apply R); [|apply R|done|done].
      unfold hart_ok. rewrite Hc'. cbn. rewrite length_insert, (rs_noff _ _ R).
      split_and!; [apply R|lia|intros _; apply R|lia].
Qed.

(** The same with one of the locks that a resumed thread finds free. *)
Lemma sleep_inside p lk s s1 ch :
  thread_ok p s → c_noff (mycpu s) = 0 → lk ∈ all_locks → lk ≠ LkProc p →
  inside lk s s1 → length (procs s1) = NPROC →
  ∃ k, sleep ch lk s1 = Switch (asleep ch lk p s1) k ∧ switch_ok (asleep ch lk p s1) p ∧
    lock_free (asleep ch lk p s1) lk ∧
    ∀ s', resumed p s' → k s' = Ret tt (enter lk (woke p (c_intena (mycpu s)) s')).
Proof.
  intros T Hn0 Hin Hne Hi Hlen.
  destruct (sleep_locked p lk s s1 ch T Hn0 (th_locks _ _ T lk Hin) Hne Hi Hlen) as (k & H1 & H2 & H3 & H4).
  exists k. split_and!; try done. intros s' R. apply H4; [done|]. by apply R.
Qed.

(** A thread that the scheduler resumes at once. *)
Lemma asleep_resumed p lk s s1 ch :
  thread_ok p s → c_noff (mycpu s) = 0 → lock_free s lk → lk ≠ LkProc p →
  inside lk s s1 → length (procs s1) = NPROC → resumed p (asleep ch lk p s1).
Proof.
  intros T Hn0 Hin Hne Hi Hlen.
  destruct (sleep_locked p lk s s1 ch T Hn0 Hin Hne Hi Hlen) as (k & _ & Hsw & Hlk & _).
  split; try apply Hsw.
  - cbn. by rewrite length_alter.
  - apply T.
  - intros l Hl Hne'. destruct (decide (l = lk)) as [->|Hnl]; [exact Hlk|].
    apply (lock_free_leave_ne (enter (LkProc p) s1)); [done|]. apply lock_free_enter; [done|].
    eapply lock_free_inside; [|exact Hi|by apply T]. done.
Qed.

(** A loop whose first turn switches, and whose second turn ends it. *)
Lemma loop_Switch {A B} (step : A → K (A + B)) a s s1 k :
  step a s = Switch s1 k →
  ∃ k', loop step a s = Switch s1 k' ∧
    ∀ s' a' s2 b s3, k s' = Ret (inl a') s2 → step a' s2 = Ret (inr b) s3 → k' s' = Ret b s3.
Proof.
  intros E. destruct (2 ^ 64)%nat as [|[|n]] eqn:E64.
  1,2: exfalso; pose proof (pow_nat_64 2 ltac:(lia)); lia.
  rewrite loop_run_n, E64, run_n_S, bind_assoc, (bind_Switch _ _ _ _ _ E).
  eexists. split; [done|]. intros s' a' s2 b s3 Ek Es. cbn beta. rewrite Ek. cbn [obind continue].
  by run (run_n_stop _ n _ _ _ _ Es).
Qed.
