(* ===== verification/Ring.v ===== *)
(** * Ring buffers

    The kernel keeps its byte queues (a pipe, the console input, the UART
    output) in an array of [2^n] bytes with a read and a write counter of [w]
    bits that are never reduced modulo the size: [2^n] divides [2^w], so the
    slot of a counter is its value modulo the size even after it wrapped
    around.  The queue a ring holds, and what a push, a pop and the removal of
    the last byte do to it. *)

From S2P Require Import Prelude.

Section ring.
Variables (w n : Z).
Hypothesis Hwn : 0 ≤ n ≤ w.

(** How many bytes are in the ring. *)
Definition rcount (r e : Z) : Z := (e - r) `mod` 2 ^ w.

(** The slot a counter designates. *)
Definition rslot (i : Z) : nat := Z.to_nat (i `mod` 2 ^ n).

(** The queued bytes, oldest first. *)
Definition rqueue (buf : list Z) (r e : Z) : list Z :=
  (λ k : nat, buf !!! rslot (r + Z.of_nat k)) <$> seq 0 (Z.to_nat (rcount r e)).

Lemma pow_w : 2 ^ w = 2 ^ n * 2 ^ (w - n).
Proof using Hwn. rewrite <- Z.pow_add_r by lia. f_equal. lia. Qed.

Lemma pow_n_pos : 0 < 2 ^ n.
Proof using Hwn. apply Z.pow_pos_nonneg; lia. Qed.

Lemma pow_w_pos : 0 < 2 ^ w.
Proof using Hwn. apply Z.pow_pos_nonneg; lia. Qed.

Lemma rslot_wrap i : rslot (i `mod` 2 ^ w) = rslot i.
Proof using Hwn.
  unfold rslot. f_equal. rewrite pow_w. apply Z.mod_mod_divide. by apply Z.divide_factor_l.
Qed.

Lemma rslot_lt i : (Z.of_nat (rslot i) < 2 ^ n).
Proof using Hwn.
  unfold rslot. pose proof (Z.mod_pos_bound i _ pow_n_pos). lia.
Qed.

Lemma rslot_ne i d : 0 < d < 2 ^ n → rslot (i + d) ≠ rslot i.
Proof using Hwn.
  intros Hd E. unfold rslot in E. pose proof pow_n_pos as Hp.
  pose proof (Z.mod_pos_bound i _ Hp). pose proof (Z.mod_pos_bound (i + d) _ Hp).
  assert ((i + d) `mod` 2 ^ n = i `mod` 2 ^ n) as E' by lia.
  assert (d `mod` 2 ^ n = 0) as Hz.
  { replace d with (i + d - i) by lia. rewrite Zminus_mod, E', Z.sub_diag. apply Z.mod_0_l. lia. }
  rewrite Z.mod_small in Hz; lia.
Qed.

Lemma rcount_range r e : 0 ≤ rcount r e < 2 ^ w.
Proof using Hwn. apply Z.mod_pos_bound, pow_w_pos. Qed.

Lemma rcount_wrap_l r e : rcount (r `mod` 2 ^ w) e = rcount r e.
Proof. unfold rcount. apply Zminus_mod_idemp_r. Qed.

Lemma rcount_wrap_r r e : rcount r (e `mod` 2 ^ w) = rcount r e.
Proof. unfold rcount. apply Zminus_mod_idemp_l. Qed.

Lemma rcount_push r e :
  rcount r e + 1 < 2 ^ w → rcount r (e + 1) = rcount r e + 1.
Proof using Hwn.
  intros H. pose proof (rcount_range r e). unfold rcount in *.
  replace (e + 1 - r) with (e - r + 1) by lia. rewrite <- Zplus_mod_idemp_l.
  apply Z.mod_small. lia.
Qed.

Lemma rcount_pop r e : 0 < rcount r e → rcount (r + 1) e = rcount r e - 1.
Proof using Hwn.
  intros H. pose proof (rcount_range r e). unfold rcount in *.
  replace (e - (r + 1)) with (e - r - 1) by lia. rewrite <- Zminus_mod_idemp_l.
  apply Z.mod_small. lia.
Qed.

Lemma rcount_unpush r e : 0 < rcount r e → rcount r (e - 1) = rcount r e - 1.
Proof using Hwn.
  intros H. pose proof (rcount_range r e). unfold rcount in *.
  replace (e - 1 - r) with (e - r - 1) by lia. rewrite <- Zminus_mod_idemp_l.
  apply Z.mod_small. lia.
Qed.

(** The test [r == e] of the code, on counters of the width. *)
Lemma rcount_zero r e :
  0 ≤ r < 2 ^ w → 0 ≤ e < 2 ^ w → rcount r e = 0 ↔ r = e.
Proof using Hwn.
  intros Hr He. unfold rcount. split.
  - intros H. apply Z.mod_divide in H as [q H]; [|lia]. assert (q = 0) by nia. nia.
  - intros ->. by rewrite Z.sub_diag.
Qed.

(** The test [e == r + size] of the code. *)
Lemma rcount_full r e size :
  0 ≤ size < 2 ^ w → 0 ≤ e < 2 ^ w →
  e = (r + size) `mod` 2 ^ w ↔ rcount r e = size.
Proof using Hwn.
  intros Hs He. unfold rcount. split.
  - intros ->. rewrite Zminus_mod_idemp_l. replace (r + size - r) with size by lia.
    by apply Z.mod_small.
  - intros H. rewrite <- H, Zplus_mod_idemp_r. replace (r + (e - r)) with e by lia.
    symmetry. by apply Z.mod_small.
Qed.

Lemma length_rqueue buf r e : Z.of_nat (length (rqueue buf r e)) = rcount r e.
Proof using Hwn.
  unfold rqueue. rewrite length_fmap, length_seq. pose proof (rcount_range r e). lia.
Qed.

Lemma rqueue_wrap_l buf r e : rqueue buf (r `mod` 2 ^ w) e = rqueue buf r e.
Proof using Hwn.
  unfold rqueue. rewrite rcount_wrap_l. apply list_fmap_ext. intros i k _.
  f_equal. rewrite <- (rslot_wrap (_ + _)), Zplus_mod_idemp_l. apply rslot_wrap.
Qed.

Lemma rqueue_wrap_r buf r e : rqueue buf r (e `mod` 2 ^ w) = rqueue buf r e.
Proof. unfold rqueue. by rewrite rcount_wrap_r. Qed.

(** Writing a byte in the slot of the write counter. *)
Lemma rqueue_push buf r e c :
  Z.of_nat (length buf) = 2 ^ n → rcount r e < 2 ^ n → rcount r e + 1 < 2 ^ w →
  rqueue (<[rslot e := c]> buf) r (e + 1) = rqueue buf r e ++ [c].
Proof using Hwn.
  intros Hlen Hc Hw. pose proof (rcount_range r e) as Hr. unfold rqueue.
  rewrite rcount_push by done. replace (Z.to_nat (rcount r e + 1)) with
    (Z.to_nat (rcount r e) + 1)%nat by lia.
  rewrite seq_app, fmap_app. f_equal.
  - apply list_fmap_ext. intros i k Hk. apply lookup_seq in Hk as [-> Hk]. cbn.
    rewrite list_lookup_total_insert_ne; [done|]. intros E.
    assert (rslot e = rslot (r + rcount r e)) as E2.
    { rewrite <- (rslot_wrap (r + _)). unfold rcount.
      rewrite Zplus_mod_idemp_r, rslot_wrap. f_equal. lia. }
    rewrite E2 in E. replace (r + rcount r e) with (r + Z.of_nat i + (rcount r e - Z.of_nat i))
      in E by lia. revert E. apply rslot_ne. lia.
  - cbn. f_equal. assert (rslot (r + Z.of_nat (Z.to_nat (rcount r e))) = rslot e) as ->.
    { rewrite Z2Nat.id by lia. rewrite <- (rslot_wrap (r + _)). unfold rcount.
      rewrite Zplus_mod_idemp_r, rslot_wrap. f_equal. lia. }
    apply list_lookup_total_insert_eq. pose proof (rslot_lt e). lia.
Qed.

(** Reading the byte in the slot of the read counter. *)
Lemma rqueue_pop buf r e :
  0 < rcount r e → rqueue buf r e = buf !!! rslot r :: rqueue buf (r + 1) e.
Proof using Hwn.
  intros Hc. unfold rqueue. rewrite rcount_pop by done.
  replace (Z.to_nat (rcount r e)) with (S (Z.to_nat (rcount r e - 1))) by lia.
  cbn [seq fmap list_fmap]. replace (r + Z.of_nat 0) with r by lia. f_equal.
  rewrite <- fmap_S_seq, <- list_fmap_compose. apply list_fmap_ext.
  intros i k _. cbn. f_equal. f_equal. lia.
Qed.

(** Taking the last byte back. *)
Lemma rqueue_unpush buf r e :
  0 < rcount r e →
  rqueue buf r e = rqueue buf r (e - 1) ++ [buf !!! rslot (e - 1)].
Proof using Hwn.
  intros Hc. unfold rqueue. rewrite rcount_unpush by done.
  replace (Z.to_nat (rcount r e)) with (Z.to_nat (rcount r e - 1) + 1)%nat by lia.
  rewrite seq_app, fmap_app. f_equal. cbn. f_equal. f_equal.
  rewrite Z2Nat.id by lia. rewrite <- (rslot_wrap (r + _)). unfold rcount.
  replace (r + ((e - r) `mod` 2 ^ w - 1)) with (r - 1 + (e - r) `mod` 2 ^ w) by lia.
  rewrite Zplus_mod_idemp_r, rslot_wrap. f_equal. lia.
Qed.

(** Two adjacent parts of a ring. *)
Lemma rcount_add r m e :
  rcount r m + rcount m e < 2 ^ w → rcount r e = rcount r m + rcount m e.
Proof using Hwn.
  intros H. pose proof (rcount_range r m). pose proof (rcount_range m e). unfold rcount in *.
  replace (e - r) with ((m - r) + (e - m)) by lia. rewrite Zplus_mod. apply Z.mod_small. lia.
Qed.

Lemma rqueue_app buf r m e :
  rcount r m + rcount m e < 2 ^ w → rqueue buf r e = rqueue buf r m ++ rqueue buf m e.
Proof using Hwn.
  intros H. pose proof (rcount_range r m). pose proof (rcount_range m e).
  unfold rqueue. rewrite (rcount_add r m e H). rewrite Z2Nat.inj_add by lia. rewrite seq_app, fmap_app. f_equal.
  rewrite Nat.add_0_l. rewrite <- (Nat.add_0_r (Z.to_nat (rcount r m))), <- fmap_add_seq, <- list_fmap_compose.
  apply list_fmap_ext. intros i k _. cbn. f_equal.
  rewrite Nat2Z.inj_add, Z2Nat.id by lia. rewrite <- (rslot_wrap (r + _)), <- (rslot_wrap (m + _)). f_equal.
  unfold rcount. replace (r + ((m - r) `mod` 2 ^ w + Z.of_nat k)) with (r + Z.of_nat k + (m - r) `mod` 2 ^ w) by lia.
  rewrite Zplus_mod_idemp_r. f_equal. lia.
Qed.

(** A store behind a part of the ring does not show in it. *)
Lemma rqueue_store buf r m e c :
  rcount r m ≤ rcount r e → rcount r e < 2 ^ n →
  rqueue (<[rslot e := c]> buf) r m = rqueue buf r m.
Proof using Hwn.
  intros Hm He. pose proof (rcount_range r m). unfold rqueue. apply list_fmap_ext. intros i k Hk.
  apply lookup_seq in Hk as [-> Hk]. cbn. rewrite list_lookup_total_insert_ne; [done|]. intros E.
  assert (rslot e = rslot (r + rcount r e)) as E2.
  { rewrite <- (rslot_wrap (r + _)). unfold rcount. rewrite Zplus_mod_idemp_r, rslot_wrap. f_equal. lia. }
  rewrite E2 in E. replace (r + rcount r e) with (r + Z.of_nat i + (rcount r e - Z.of_nat i)) in E by lia.
  revert E. apply rslot_ne. lia.
Qed.
End ring.
