(* ===== verification/Uart.v ===== *)
(** * kernel/uart.c

    The driver of the 16550a UART: the transmit ring and the device registers.
    The device is part of the state: it holds the bytes that were written to
    its transmit register, the input that waits to be read, and the answers it
    will give to the driver's readings of LSR_TX_IDLE. *)

From S2P Require Import Prelude Machine Memory State Spinlock Ring Sched.

Definition UART_TX_BUF_SIZE : Z := 32.

Definition IER : Z := 1.
Definition IER_RX_ENABLE : Z := 1.
Definition IER_TX_ENABLE : Z := 2.
Definition FCR : Z := 2.
Definition FCR_FIFO_ENABLE : Z := 1.
Definition FCR_FIFO_CLEAR : Z := Z.shiftl 3 1.
Definition LCR : Z := 3.
Definition LCR_EIGHT_BITS : Z := 3.
Definition LCR_BAUD_LATCH : Z := Z.shiftl 1 7.

(** [WriteReg] of a control register. *)
Definition WriteReg (reg v : Z) : K unit :=
  modify (λ s, set_mmio_writes (mmio_writes s ++ [(UART0 + reg, v)]) s).

Definition upd_uart (f : uart → uart) (s : kernel) : kernel := set_uart0 (f (uart0 s)) s.

(** [WriteReg(THR, c)]: the device takes the byte. *)
Definition write_THR (c : Z) : K unit :=
  modify (upd_uart (λ u, set_thr (thr u ++ [u8 c]) u)).

(** [(ReadReg(LSR) & LSR_TX_IDLE) != 0] *)
Definition read_TX_IDLE : K bool := λ s,
  match lsr_tx (uart0 s) with
  | [] => Ret true s
  | b :: l => Ret b (upd_uart (set_lsr_tx l) s)
  end.

Definition uartinit : K unit :=
  WriteReg IER 0 ;;;
  WriteReg LCR LCR_BAUD_LATCH ;;;
  WriteReg 0 3 ;;;
  WriteReg 1 0 ;;;
  WriteReg LCR LCR_EIGHT_BITS ;;;
  WriteReg FCR (Z.lor FCR_FIFO_ENABLE FCR_FIFO_CLEAR) ;;;
  WriteReg IER (Z.lor IER_TX_ENABLE IER_RX_ENABLE) ;;;
  initlock LkUart "uart".

(** One turn of the loop of [uartstart]. *)
Definition uartstart_step (_ : unit) : K (unit + unit) :=
  let! u := gets uart0 in
  if tx_w u =? tx_r u then ret (inr tt) else
  let! idle := read_TX_IDLE in
  if negb idle then ret (inr tt) else
  let! u := gets uart0 in
  let c := tx_buf u !!! Z.to_nat (tx_r u `mod` UART_TX_BUF_SIZE) in
  modify (upd_uart (λ u, set_tx_r (u64 (tx_r u + 1)) u)) ;;;
  wakeup (Some ChUart) ;;;
  write_THR c ;;;
  ret (inl tt).

Definition uartstart : K unit := loop uartstart_step tt.

(** One turn of the loop of [uartputc]. *)
Definition uartputc_step (c : Z) (_ : unit) : K (unit + unit) :=
  let! u := gets uart0 in
  if tx_w u =? u64 (tx_r u + UART_TX_BUF_SIZE) then
    sleep ChUart LkUart ;;;
    ret (inl tt)
  else
    modify (upd_uart (λ u, set_tx_buf
      (<[Z.to_nat (tx_w u `mod` UART_TX_BUF_SIZE) := u8 c]> (tx_buf u)) u)) ;;;
    modify (upd_uart (λ u, set_tx_w (u64 (tx_w u + 1)) u)) ;;;
    uartstart ;;;
    release LkUart ;;;
    ret (inr tt).

Definition uartputc (c : Z) : K unit :=
  acquire LkUart ;;;
  let! p := gets panicked in
  if p then hang else
  loop (uartputc_step c) tt.

(** [while((ReadReg(LSR) & LSR_TX_IDLE) == 0) ;] *)
Definition wait_TX_IDLE : K unit :=
  loop (λ _ : unit, let! idle := read_TX_IDLE in
                    ret (if idle then inr tt else inl tt)) tt.

Definition uartputc_sync (c : Z) : K unit :=
  push_off ;;;
  let! p := gets panicked in
  if p then hang else
  wait_TX_IDLE ;;;
  write_THR c ;;;
  pop_off.

(** [uartgetc]: the receive register is read when it holds a byte. *)
Definition uartgetc : K Z := λ s,
  match rhr (uart0 s) with
  | [] => Ret (-1) s
  | c :: l => Ret (u8 c) (upd_uart (set_rhr l) s)
  end.
