(* ===== verification/Printf.v ===== *)
(** * kernel/printf.c

    Formatted output to the console, with [consputc] of kernel/console.c.  A
    format and a string argument are the lists of their characters. *)

From S2P Require Import Prelude Machine Memory State Spinlock Ring Sched Uart.

Definition BACKSPACE : Z := 256.

Definition consputc (c : Z) : K unit :=
  if c =? BACKSPACE then
    uartputc_sync 8 ;;; uartputc_sync 32 ;;; uartputc_sync 8
  else uartputc_sync c.

Definition digits : list Z := bytes_of "0123456789abcdef".

(** [do { buf[i++] = digits[x % base]; } while((x /= base) != 0);]: the
    characters stored in [buf], least significant first.  A [uint] has at most
    32 digits in any base. *)
Fixpoint printint_loop (fuel : nat) (x base : Z) : list Z :=
  match fuel with
  | O => []
  | S fuel' =>
      digits !!! Z.to_nat (x `mod` base) ::
      (let x := x / base in
       if negb (x =? 0) then printint_loop fuel' x base else [])
  end.

(** The contents of [buf] when [printint] starts to print. *)
Definition printint_buf (xx base : Z) (sign : bool) : list Z :=
  let sign := sign && (xx <? 0) in
  let x := if sign then u32 (- xx) else u32 xx in
  printint_loop 32 x base ++ (if sign then bytes_of "-" else []).

Definition printint (xx base : Z) (sign : bool) : K unit :=
  for_each (reverse (printint_buf xx base sign)) consputc.

(** [for (i = 0; i < (sizeof(uint64) * 2); i++, x <<= 4) ...] *)
Fixpoint printptr_loop (n : nat) (x : Z) : K unit :=
  match n with
  | O => ret tt
  | S n' =>
      consputc (digits !!! Z.to_nat (Z.shiftr x (8 * 8 - 4))) ;;;
      printptr_loop n' (u64 (Z.shiftl x 4))
  end.

Definition printptr (x : Z) : K unit :=
  consputc 48 ;;;
  consputc 120 ;;;
  printptr_loop 16 x.

(** The variable arguments. *)
Inductive arg : Type :=
| AInt (x : Z)                    (* int *)
| APtr (x : Z)                    (* uint64 *)
| AStr (s : option (list Z)).     (* char *, [None] when null *)

Definition arg_int (a : option arg) : Z :=
  match a with Some (AInt x) => x | _ => 0 end.
Definition arg_ptr (a : option arg) : Z :=
  match a with Some (APtr x) => x | _ => 0 end.
Definition arg_str (a : option arg) : option (list Z) :=
  match a with Some (AStr x) => x | _ => None end.

(** The [switch] on the character after a %; the answer is the arguments left. *)
Definition printf_conv (c : Z) (ap : list arg) : K (list arg) :=
  if c =? 100 then printint (arg_int (head ap)) 10 true ;;; ret (tail ap)
  else if c =? 120 then printint (arg_int (head ap)) 16 true ;;; ret (tail ap)
  else if c =? 112 then printptr (arg_ptr (head ap)) ;;; ret (tail ap)
  else if c =? 115 then
    for_each (default (bytes_of "(null)") (arg_str (head ap))) consputc ;;;
    ret (tail ap)
  else if c =? 37 then consputc 37 ;;; ret ap
  else consputc 37 ;;; consputc c ;;; ret ap.

Fixpoint printf_loop (fmt : list Z) (ap : list arg) : K unit :=
  match fmt with
  | [] => ret tt
  | c :: fmt =>
      if negb (c =? 37) then consputc c ;;; printf_loop fmt ap
      else
        match fmt with
        | [] => ret tt
        | c :: fmt =>
            let! ap := printf_conv c ap in
            printf_loop fmt ap
        end
  end.

Definition printf (fmt : string) (ap : list arg) : K unit :=
  let! locking := gets pr_locking in
  when locking (acquire LkPr) ;;;
  printf_loop (bytes_of fmt) ap ;;;
  when locking (release LkPr).

(** A newline in a format. *)
Definition nl : string := String (Ascii.ascii_of_N 10) EmptyString.

(** [panic(s)]: prints the message and stops; nothing after it runs. *)
Definition panic_print (msg : string) : K unit :=
  modify (set_pr_locking false) ;;;
  printf "panic: " [] ;;;
  printf msg [] ;;;
  printf nl [] ;;;
  modify (set_panicked true) ;;;
  hang.

Definition printfinit : K unit :=
  initlock LkPr "pr" ;;;
  modify (set_pr_locking true).
