(* ===== verification/UartSpec.v ===== *)
(** * What the UART driver promises

    Bytes given to [uartputc] reach the device in order and none is lost: what
    the device has got followed by what the ring holds grows by exactly the new
    byte.  [uartputc_sync] and [consputc] write to the device at once. *)

From S2P Require Import Prelude Machine Memory State Spinlock Ring Sched Runs Uart Printf.

(** ** A hart outside critical sections *)

Record hart_free (s : kernel) : Prop := {
  hf_hart : hart_ok s;
  hf_len : length (procs s) = NPROC;
  hf_locks : ∀ l, l ∈ all_locks → lock_free s l
}.

Lemma thread_free p s : thread_ok p s → hart_free s.
Proof. intros [T1 T2 T3 T4 T5]. by split. Qed.

Lemma hart_free_ext s s' :
  tp s' = tp s → cpus s' = cpus s → locks s' = locks s → length (procs s') = length (procs s) →
  hart_free s → hart_free s'.
Proof.
  intros Ht Hc Hl Hn [H1 H2 H3]. split; [by eapply hart_ok_ext|congruence|].
  intros l Hin. eapply lock_free_ext; [done|auto].
Qed.

(** The process running on the hart. *)
Definition me (s : kernel) : option nat := c_proc (mycpu s).

Lemma wakeup_hart l s s1 ch :
  hart_free s → (∀ i, l ≠ LkProc i) → inside l s s1 → length (procs s1) = NPROC →
  wakeup ch s1 = Ret tt (set_procs (woken ch (me s) (procs s1)) s1).
Proof.
  intros [H1 H2 H3] Hl Hi Hlen. rewrite wakeup_eq; [|by eapply hart_ok_inside|done|].
  - by rewrite (c_proc_inside l s s1).
  - intros q Hq _. eapply lock_free_inside; [apply Hl|done|]. by apply H3, all_locks_proc.
Qed.

Lemma wake_idem ch q : wake ch (wake ch q) = wake ch q.
Proof.
  unfold wake. destruct (bool_decide (p_state q = SLEEPING) && bool_decide (p_chan q = ch)) eqn:E.
  - by rewrite (bool_decide_eq_false_2 (p_state (set_p_state RUNNABLE q) = SLEEPING)).
  - by rewrite ?E.
Qed.

Lemma woken_idem ch m ps : woken ch m (woken ch m ps) = woken ch m ps.
Proof.
  apply list_eq. intros i. unfold woken. rewrite !list_lookup_imap. destruct (ps !! i) as [q|]; [|done]. cbn.
  case_bool_decide; [done|by rewrite wake_idem].
Qed.

(** Woken or left alone. *)
Definition maybe_woken (ch : option chan) (m : option nat) (ps ps' : list proc) : Prop :=
  ps' = ps ∨ ps' = woken ch m ps.

Lemma length_woken ch m ps : length (woken ch m ps) = length ps.
Proof. unfold woken. apply length_imap. Qed.

(** ** Synchronous output *)

(** The device's answers that are left when it has become idle. *)
Fixpoint until_idle (l : list bool) : list bool :=
  match l with
  | [] => []
  | b :: l' => if b then l' else until_idle l'
  end.

Lemma until_idle_length l : (length (until_idle l) ≤ length l)%nat.
Proof. induction l as [|[] l IH]; cbn; lia. Qed.

Lemma upd_uart_upd_uart f g s : upd_uart f (upd_uart g s) = upd_uart (λ u, f (g u)) s.
Proof. done. Qed.

Lemma wait_TX_IDLE_eq s :
  Z.of_nat (length (lsr_tx (uart0 s))) < 2 ^ 64 - 1 →
  wait_TX_IDLE s = Ret tt (upd_uart (set_lsr_tx (until_idle (lsr_tx (uart0 s)))) s).
Proof.
  intros Hl. unfold wait_TX_IDLE. set (step := λ _ : unit, _).
  apply (loop_Ret _ (S (length (lsr_tx (uart0 s))))); [lia|]. clear Hl.
  remember (lsr_tx (uart0 s)) as l eqn:El. revert s El. induction l as [|b l IH]; intros s El.
  - apply run_n_stop. unfold step, read_TX_IDLE, bind. rewrite <- El. cbn. unfold ret. f_equal.
    unfold upd_uart. rewrite El. destruct s as [? ? ? ? ? ? ? ? ? ? ? ? ? ? ? ? ? ? [] ? ? ? ? ? ? ? ? ? ?]. by cbn.
  - cbn [until_idle length]. destruct b.
    + apply run_n_stop. unfold step, read_TX_IDLE, bind. rewrite <- El. done.
    + rewrite (run_n_next _ _ _ _ tt (upd_uart (set_lsr_tx l) s)).
      * rewrite IH by done. done.
      * unfold step, read_TX_IDLE, bind. rewrite <- El. done.
Qed.

(** A byte sent to the device. *)
Definition send (c : Z) (u : uart) : uart :=
  set_thr (thr u ++ [u8 c]) (set_lsr_tx (until_idle (lsr_tx u)) u).

Lemma uartputc_sync_eq s c :
  hart_ok s → panicked s = false → Z.of_nat (length (lsr_tx (uart0 s))) < 2 ^ 64 - 1 →
  uartputc_sync c s = Ret tt (upd_uart (send c) s).
Proof.
  intros Hh Hp Hl. pose proof Hh as (Hlen & H0 & Hoff & Hq). unfold uartputc_sync.
  run (push_off_eq s Hh). set (s1 := upd_cpu _ s).
  rewrite (bind_Ret _ _ _ (panicked s) s1) by done. rewrite Hp.
  run (wait_TX_IDLE_eq s1 Hl). unfold write_THR.
  rewrite (bind_Ret _ _ _ tt (upd_uart (send c) s1)) by done.
  assert (mycpu (upd_uart (send c) s1) = mk_cpu (c_proc (mycpu s)) (c_noff (mycpu s) + 1) (c_intena (mycpu s)) false) as Em.
  { change (mycpu (upd_uart (send c) s1)) with (mycpu s1). unfold s1. by rewrite mycpu_upd_cpu. }
  rewrite pop_off_eq; [|unfold s1; cbn; by rewrite length_insert|by rewrite Em|rewrite Em; cbn; lia].
  f_equal. unfold upd_cpu at 1. rewrite Em. cbn [c_proc c_noff c_intena c_sie].
  replace (c_noff (mycpu s) + 1 - 1) with (c_noff (mycpu s)) by lia.
  assert (mk_cpu (c_proc (mycpu s)) (c_noff (mycpu s)) (c_intena (mycpu s))
    (if c_noff (mycpu s) + 1 =? 1 then c_intena (mycpu s) else false) = mycpu s) as ->.
  { destruct (Z.eqb_spec (c_noff (mycpu s) + 1) 1) as [E|E].
    - rewrite Hq by lia. rewrite <- Hq at 2 by lia. destruct (mycpu s); cbn in *. by rewrite Hq by lia.
    - rewrite <- Hoff by lia. by destruct (mycpu s). }
  unfold s1, upd_uart, upd_cpu. cbn. rewrite list_insert_insert_eq.
  rewrite list_insert_id; [by destruct s|]. unfold mycpu. by apply list_lookup_lookup_total_lt.
Qed.

(** ** The transmit ring *)

Definition txq (u : uart) : list Z := rqueue 64 5 (tx_buf u) (tx_r u) (tx_w u).

Record uart_ok (u : uart) : Prop := {
  uo_len : Z.of_nat (length (tx_buf u)) = UART_TX_BUF_SIZE;
  uo_bytes : Forall (λ b, 0 ≤ b < 256) (tx_buf u);
  uo_r : 0 ≤ tx_r u < 2 ^ 64;
  uo_w : 0 ≤ tx_w u < 2 ^ 64;
  uo_count : rcount 64 (tx_r u) (tx_w u) ≤ UART_TX_BUF_SIZE
}.

Lemma ring64 : 0 ≤ 5 ≤ 64. Proof. lia. Qed.

Lemma txq_length u : Z.of_nat (length (txq u)) = rcount 64 (tx_r u) (tx_w u).
Proof. apply (length_rqueue 64 5 ring64). Qed.

Lemma txq_empty u : uart_ok u → tx_w u = tx_r u ↔ txq u = [].
Proof.
  intros [U1 U2 U3 U4 U5]. rewrite (symmetry_iff (=)), <- (rcount_zero 64 5 ring64) by done.
  rewrite <- txq_length. destruct (txq u); cbn; [done|]. split; [lia|done].
Qed.

Lemma txq_full u :
  uart_ok u → tx_w u = u64 (tx_r u + UART_TX_BUF_SIZE) ↔ Z.of_nat (length (txq u)) = UART_TX_BUF_SIZE.
Proof.
  intros [U1 U2 U3 U4 U5]. rewrite txq_length. apply (rcount_full 64 5 ring64); [|done].
  unfold UART_TX_BUF_SIZE. lia.
Qed.

Definition put_byte (c : Z) (u : uart) : uart :=
  set_tx_w (u64 (tx_w u + 1))
    (set_tx_buf (<[Z.to_nat (tx_w u `mod` UART_TX_BUF_SIZE) := u8 c]> (tx_buf u)) u).

Lemma put_byte_ok c u :
  uart_ok u → Z.of_nat (length (txq u)) < UART_TX_BUF_SIZE →
  uart_ok (put_byte c u) ∧ txq (put_byte c u) = txq u ++ [u8 c].
Proof.
  intros [U1 U2 U3 U4 U5]. rewrite txq_length. unfold UART_TX_BUF_SIZE in *. intros Hr.
  assert (u64 (tx_w u + 1) = (tx_w u + 1) `mod` 2 ^ 64) as E by done. split.
  - split; cbn; [by rewrite length_insert| |done|rewrite E; apply Z.mod_pos_bound; lia|].
    + apply Forall_insert; [done|]. apply Z.mod_pos_bound. lia.
    + rewrite E, rcount_wrap_r, (rcount_push 64 5 ring64) by lia. unfold UART_TX_BUF_SIZE. lia.
  - unfold txq, put_byte. cbn. rewrite E, rqueue_wrap_r. change 32 with (2 ^ 5).
    fold (rslot 5 (tx_w u)). apply (rqueue_push 64 5 ring64); lia.
Qed.

Definition take_byte (u : uart) : uart := set_tx_r (u64 (tx_r u + 1)) u.

Lemma take_byte_ok u :
  uart_ok u → tx_w u ≠ tx_r u →
  let c := tx_buf u !!! Z.to_nat (tx_r u `mod` UART_TX_BUF_SIZE) in
  uart_ok (take_byte u) ∧ 0 ≤ c < 256 ∧ txq u = c :: txq (take_byte u).
Proof.
  intros Hu Hne. pose proof Hu as [U1 U2 U3 U4 U5].
  assert (0 < rcount 64 (tx_r u) (tx_w u)) as Hc.
  { rewrite <- txq_length. destruct (txq u) eqn:E; [|cbn; lia]. by apply (txq_empty u Hu) in E. }
  assert (u64 (tx_r u + 1) = (tx_r u + 1) `mod` 2 ^ 64) as E by done. split; [|split].
  - split; cbn; [done|done|rewrite E; apply Z.mod_pos_bound; lia|done|].
    rewrite E, rcount_wrap_l, (rcount_pop 64 5 ring64) by done. lia.
  - pose proof (rslot_lt 64 5 ring64 (tx_r u)) as Hs. unfold rslot in Hs.
    destruct (lookup_lt_is_Some_2 (tx_buf u) (Z.to_nat (tx_r u `mod` UART_TX_BUF_SIZE))) as [c Hc'].
    { change UART_TX_BUF_SIZE with (2 ^ 5) in *. lia. }
    rewrite (list_lookup_total_correct _ _ _ Hc'). by eapply Forall_lookup_1 in U2.
  - unfold txq, take_byte. cbn. rewrite E, (rqueue_wrap_l 64 5 ring64).
    change UART_TX_BUF_SIZE with (2 ^ 5). fold (rslot 5 (tx_r u)). by apply (rqueue_pop 64 5 ring64).
Qed.

(** ** uartstart *)

(** The driver has sent what the device would take. *)
Record started (u u' : uart) : Prop := {
  st_ok : uart_ok u';
  st_all : thr u' ++ txq u' = thr u ++ txq u;
  st_rhr : rhr u' = rhr u;
  st_end : txq u' = [] ∨ ∃ l, lsr_tx u = l ++ false :: lsr_tx u'
}.

(** One turn: the ring is empty, the device is busy, or a byte is sent. *)
Lemma uartstart_step_eq s s1 :
  hart_free s → inside LkUart s s1 → length (procs s1) = NPROC → uart_ok (uart0 s1) →
  let u := uart0 s1 in let l := lsr_tx u in
  uartstart_step tt s1 =
    if decide (txq u = []) then Ret (inr tt) s1
    else if default true (head l)
         then Ret (inl tt) (set_procs (woken (Some ChUart) (me s) (procs s1))
                (set_uart0 (set_thr (thr u ++ [u8 (hd 0 (txq u))]) (take_byte (set_lsr_tx (tail l) u))) s1))
         else Ret (inr tt) (set_uart0 (set_lsr_tx (tail l) u) s1).
Proof.
  intros Hf Hin Hlen Hok u l. unfold uartstart_step, bind at 1, gets. cbn [obind]. fold u.
  destruct (decide (txq u = [])) as [E|E].
  { apply (txq_empty u Hok) in E. by rewrite (proj2 (Z.eqb_eq _ _) E). }
  assert (tx_w u ≠ tx_r u) as Hne by (intros ?%(txq_empty u Hok); done).
  rewrite (proj2 (Z.eqb_neq _ _) Hne).
  rewrite (bind_Ret _ _ _ (default true (head l)) (set_uart0 (set_lsr_tx (tail l) u) s1)).
  2:{ unfold read_TX_IDLE. fold u l. destruct l as [|b l'] eqn:El; [|done]. cbn. f_equal.
      unfold l in El. destruct s1 as [? ? ? ? ? ? ? ? ? ? ? ? ? ? ? ? ? ? [] ? ? ? ? ? ? ? ? ? ?].
      unfold u in El. cbn in *. by rewrite El. }
  destruct (default true (head l)); cbn [negb]; [|done].
  destruct (take_byte_ok u Hok Hne) as (Hok2 & Hc & Eq). set (c := tx_buf u !!! _) in *.
  rewrite Eq. cbn [hd]. unfold gets, bind at 1. cbn [obind]. unfold modify, bind at 1. cbn [obind].
  run (wakeup_hart LkUart s
    (set_uart0 (take_byte (set_lsr_tx (tail l) u)) s1) (Some ChUart) Hf ltac:(done) Hin Hlen).
  done.
Qed.

Lemma uartstart_runs s s1 :
  hart_free s → inside LkUart s s1 → length (procs s1) = NPROC → uart_ok (uart0 s1) →
  runs uartstart s1 (λ _ s2, ∃ u ps, s2 = set_procs ps (set_uart0 u s1) ∧ started (uart0 s1) u ∧
    maybe_woken (Some ChUart) (me s) (procs s1) ps).
Proof.
  intros Hf Hin Hlen Hok.
  apply (runs_loop_state (λ _ s2, ∃ u ps l0, s2 = set_procs ps (set_uart0 u s1) ∧ uart_ok u ∧
    thr u ++ txq u = thr (uart0 s1) ++ txq (uart0 s1) ∧ rhr u = rhr (uart0 s1) ∧
    lsr_tx (uart0 s1) = l0 ++ lsr_tx u ∧ maybe_woken (Some ChUart) (me s) (procs s1) ps)
    (λ _ s2, length (txq (uart0 s2)))).
  - pose proof (uo_count _ Hok) as Hc. rewrite txq_length. unfold UART_TX_BUF_SIZE in Hc. lia.
  - exists (uart0 s1), (procs s1), []. split_and!; try done; [by destruct s1|by left].
  - intros [] s2 (u & ps & l0 & -> & Hok' & Hall & Hrh & Hl & Hw).
    assert (length ps = NPROC) as Hps by (destruct Hw as [->| ->]; rewrite ?length_woken; done).
    pose proof (uartstart_step_eq s (set_procs ps (set_uart0 u s1)) Hf Hin Hps Hok') as Est. cbv zeta in Est.
    change (uart0 (set_procs ps (set_uart0 u s1))) with u in Est.
    destruct (decide (txq u = [])) as [E|E].
    { eapply runs_eq_last; [exact Est|]. exists u, ps. split_and!; [done| |done].
      split; [done|done|done|by left]. }
    destruct (default true (head (lsr_tx u))) eqn:Eb.
    + assert (tx_w u ≠ tx_r u) as Hne by (intros ?%(txq_empty u Hok'); done).
      destruct (take_byte_ok u Hok' Hne) as (Hok2 & Hc & Eq). set (c := tx_buf u !!! _) in *.
      eapply runs_eq_last; [exact Est|]. rewrite Eq in *. cbn [hd] in *.
      set (u2 := set_thr _ _). assert (txq u2 = txq (take_byte u)) as Eq2 by done. split.
      * exists u2, (woken (Some ChUart) (me s) ps), (l0 ++ take 1 (lsr_tx u)). split_and!; [done| | |done| |].
        -- destruct Hok2 as [A1 A2 A3 A4 A5]. by split.
        -- rewrite Eq2, <- Hall. cbn. by rewrite u8_small, <- app_assoc by lia.
        -- rewrite Hl, <- app_assoc. f_equal. cbn. by destruct (lsr_tx u).
        -- right. destruct Hw as [->| ->]; [done|apply woken_idem].
      * change (uart0 (set_procs _ (set_uart0 u2 _))) with u2. rewrite Eq2.
        change (uart0 (set_procs ps (set_uart0 u s1))) with u. rewrite Eq. cbn. lia.
    + eapply runs_eq_last; [exact Est|]. exists (set_lsr_tx (tail (lsr_tx u)) u), ps. split_and!; [done| |done].
      split; [|done|done|].
      * destruct Hok' as [A1 A2 A3 A4 A5]. by split.
      * right. exists l0. rewrite Hl. by destruct (lsr_tx u) as [|[] l].
Qed.

(** ** uartputc *)

(** with room in the ring [uartputc] loses and reorders
    nothing: the bytes the device has received followed by those in the ring
    are the ones before and the new byte.  It stops sending only when the ring
    is empty or the device is busy, and wakes the writers waiting for room when
    it made some. *)
Theorem uartputc_spec s c :
  hart_free s → panicked s = false → uart_ok (uart0 s) →
  Z.of_nat (length (txq (uart0 s))) < UART_TX_BUF_SIZE →
  ∃ u ps, uartputc c s = Ret tt (set_procs ps (set_uart0 u s)) ∧ uart_ok u ∧
    thr u ++ txq u = thr (uart0 s) ++ txq (uart0 s) ++ [u8 c] ∧
    (txq u = [] ∨ ∃ l, lsr_tx (uart0 s) = l ++ false :: lsr_tx u) ∧
    maybe_woken (Some ChUart) (me s) (procs s) ps.
Proof.
  intros Hf Hp Hok Hroom. pose proof (hf_hart s Hf) as Hh.
  assert (lock_free s LkUart) as Hl by (apply Hf, all_locks_named; set_solver).
  set (s1 := upd_uart (put_byte c) (enter LkUart s)).
  destruct (put_byte_ok c (uart0 s) Hok Hroom) as [Hok1 Hq1].
  destruct (uartstart_runs s s1 Hf ltac:(done) (hf_len s Hf) Hok1) as ([] & s2 & E2 & u & ps & -> & [S1 S2 S3 S4] & Hw).
  exists u, ps. split_and!; [|done| |done|done].
  - unfold uartputc. run (acquire_ok s _ Hh Hl).
    rewrite (bind_Ret _ _ _ (panicked s) (enter LkUart s)) by done. rewrite Hp.
    apply (loop_Ret _ 1); [lia|]. apply run_n_stop. unfold uartputc_step, bind at 1, gets. cbn [obind].
    change (uart0 (enter LkUart s)) with (uart0 s).
    destruct (Z.eqb_spec (tx_w (uart0 s)) (u64 (tx_r (uart0 s) + UART_TX_BUF_SIZE))) as [E|_].
    { apply (txq_full _ Hok) in E. lia. }
    unfold modify, bind at 1 2. cbn [obind]. change (upd_uart _ (upd_uart _ (enter LkUart s))) with s1.
    run E2. set (s3 := set_procs ps _).
    run (release_enter s s3 LkUart Hh Hl eq_refl eq_refl eq_refl).
    unfold ret, s3, s1. f_equal.
  - rewrite S2. change (uart0 s1) with (put_byte c (uart0 s)). by rewrite Hq1.
Qed.

Lemma boot_hart_free : hart_free boot.
Proof. split; [exact hart_ok_boot|reflexivity|exact lock_free_boot]. Qed.

Lemma boot_uart_ok : uart_ok (uart0 boot).
Proof.
  split; [reflexivity| |split; [done|reflexivity]..|by apply Zle_bool_imp_le].
  apply Forall_replicate. lia.
Qed.

(** A device that is busy at first. *)
Definition busy_boot : kernel := upd_uart (set_lsr_tx [false]) boot.

Lemma uartputc_spec_witness :
  ∃ u ps, uartputc 65 busy_boot = Ret tt (set_procs ps (set_uart0 u busy_boot)) ∧ thr u ++ txq u = [65].
Proof.
  destruct (uartputc_spec busy_boot 65) as (u & ps & E & _ & Hq & _ & _).
  - eapply hart_free_ext; [..|exact boot_hart_free]; reflexivity.
  - reflexivity.
  - destruct boot_uart_ok as [U1 U2 U3 U4 U5]. split; assumption.
  - reflexivity.
  - exists u, ps. exact (conj E Hq).
Defined.
