(* ===== verification/Proc.v ===== *)
(** * kernel/proc.c: process structures and their memory

    Allocation and release of process-table entries, the user page table with
    its trampoline and trapframe pages, growing a process, copies to or from
    user or kernel memory, and the kernel's own page table (kvmmake, kvminit and
    kvminithart of kernel/vm.c). *)

From S2P Require Import Prelude Machine Memory Kstring State Spinlock Kalloc Vm Sched Ring Uart.
From S2P Require Import Printf.

Section proc.
Context `{KernelLayout}.

(** ** The kernel page table *)

Definition proc_mapstack (kpgtbl : Z) (p : nat) : K unit :=
  let! pa := kalloc in
  if pa =? 0 then panic "kalloc" else
  let va := KSTACK (Z.of_nat p) in
  kvmmap kpgtbl va pa PGSIZE (Z.lor PTE_R PTE_W).

Definition proc_mapstacks (kpgtbl : Z) : K unit :=
  for_each (seq 0 NPROC) (proc_mapstack kpgtbl).

Definition kvmmake : K Z :=
  let! kpgtbl := kalloc in
  kmemset kpgtbl 0 PGSIZE ;;;
  kvmmap kpgtbl UART0 UART0 PGSIZE (Z.lor PTE_R PTE_W) ;;;
  kvmmap kpgtbl VIRTIO0 VIRTIO0 PGSIZE (Z.lor PTE_R PTE_W) ;;;
  kvmmap kpgtbl PLIC PLIC 0x400000 (Z.lor PTE_R PTE_W) ;;;
  kvmmap kpgtbl KERNBASE KERNBASE (etext - KERNBASE) (Z.lor PTE_R PTE_X) ;;;
  kvmmap kpgtbl etext etext (PHYSTOP - etext) (Z.lor PTE_R PTE_W) ;;;
  kvmmap kpgtbl TRAMPOLINE trampoline PGSIZE (Z.lor PTE_R PTE_X) ;;;
  proc_mapstacks kpgtbl ;;;
  ret kpgtbl.

Definition kvminit : K unit :=
  let! kpgtbl := kvmmake in
  modify (set_kernel_pagetable kpgtbl).

(** [MAKE_SATP] of kernel/riscv.h, with SATP_SV39. *)
Definition MAKE_SATP (pagetable : Z) : Z := Z.lor (Z.shiftl 8 60) (Z.shiftr pagetable 12).

Definition upd_csr (f : csrs → csrs) (s : kernel) : kernel := set_csr (f (csr s)) s.

Definition kvminithart : K unit :=
  modify (λ s, upd_csr (set_satp (MAKE_SATP (kernel_pagetable s))) s).

(** ** The process table *)

Definition procinit : K unit :=
  initlock LkPid "nextpid" ;;;
  initlock LkWait "wait_lock" ;;;
  for_each (seq 0 NPROC) (λ p,
    initlock (LkProc p) "proc" ;;;
    pset p (set_p_kstack (KSTACK (Z.of_nat p)))).

Definition allocpid : K Z :=
  acquire LkPid ;;;
  let! pid := gets nextpid in
  modify (λ s, set_nextpid (s32 (nextpid s + 1)) s) ;;;
  release LkPid ;;;
  ret pid.

(** A page table with the trampoline and the trapframe of [p] mapped. *)
Definition proc_pagetable (p : nat) : K Z :=
  let! pagetable := uvmcreate in
  if pagetable =? 0 then ret 0 else
  let! r := mappages pagetable TRAMPOLINE PGSIZE trampoline (Z.lor PTE_R PTE_X) in
  if r <? 0 then uvmfree pagetable 0 ;;; ret 0 else
  let! trapframe := pget p p_trapframe in
  let! r := mappages pagetable TRAPFRAME PGSIZE trapframe (Z.lor PTE_R PTE_W) in
  if r <? 0 then
    uvmunmap pagetable TRAMPOLINE 1 false ;;;
    uvmfree pagetable 0 ;;;
    ret 0
  else ret pagetable.

Definition proc_freepagetable (pagetable sz : Z) : K unit :=
  uvmunmap pagetable TRAMPOLINE 1 false ;;;
  uvmunmap pagetable TRAPFRAME 1 false ;;;
  uvmfree pagetable sz.

Definition freeproc (p : nat) : K unit :=
  let! trapframe := pget p p_trapframe in
  when (negb (trapframe =? 0)) (kfree trapframe) ;;;
  pset p (set_p_trapframe 0) ;;;
  let! q := gets (getproc p) in
  when (negb (p_pagetable q =? 0)) (proc_freepagetable (p_pagetable q) (p_sz q)) ;;;
  pset p (set_p_pagetable 0) ;;;
  pset p (set_p_sz 0) ;;;
  pset p (set_p_pid 0) ;;;
  pset p (set_p_parent None) ;;;
  pset p (λ q, set_p_name (<[0%nat := 0]> (p_name q)) q) ;;;
  pset p (set_p_chan None) ;;;
  pset p (set_p_killed 0) ;;;
  pset p (set_p_xstate 0) ;;;
  pset p (set_p_state UNUSED) ;;;
  pset p (set_p_trace_mask 0).

(** The scan of [allocproc]: the first UNUSED entry, with its lock held. *)
Definition find_unused (p : nat) : K (option nat) :=
  acquire (LkProc p) ;;;
  let! st := pget p p_state in
  if bool_decide (st = UNUSED) then ret (Some p)
  else release (LkProc p) ;;; ret None.

(** The label [found] of [allocproc]. *)
Definition allocproc_found (p : nat) : K (option nat) :=
  let! pid := allocpid in
  pset p (set_p_pid pid) ;;;
  pset p (set_p_state USED) ;;;
  let! trapframe := kalloc in
  pset p (set_p_trapframe trapframe) ;;;
  if trapframe =? 0 then freeproc p ;;; release (LkProc p) ;;; ret None else
  let! pagetable := proc_pagetable p in
  pset p (set_p_pagetable pagetable) ;;;
  if pagetable =? 0 then freeproc p ;;; release (LkProc p) ;;; ret None else
  pset p (set_p_context (mk_context 0 0 (replicate 12 0))) ;;;
  pset p (λ q, set_p_context (set_ctx_ra forkret_addr (p_context q)) q) ;;;
  pset p (λ q, set_p_context (set_ctx_sp (p_kstack q + PGSIZE) (p_context q)) q) ;;;
  pset p (set_p_trace_mask 0) ;;;
  ret (Some p).

Definition allocproc : K (option nat) :=
  let! r := for_find (seq 0 NPROC) find_unused in
  match r with
  | None => ret None
  | Some p => allocproc_found p
  end.

(** [growproc]: [sz] is a [uint], so the sums wrap at 32 bits. *)
Definition growproc (n : Z) : K Z :=
  let! p := curproc in
  let! q := gets (getproc p) in
  let sz := u32 (p_sz q) in
  if n >? 0 then
    let! r := uvmalloc (p_pagetable q) sz (u32 (sz + n)) in
    let sz := u32 r in
    if sz =? 0 then ret (-1) else
    pset p (set_p_sz sz) ;;;
    ret 0
  else if n <? 0 then
    let! r := uvmdealloc (p_pagetable q) sz (u32 (sz + n)) in
    pset p (set_p_sz (u32 r)) ;;;
    ret 0
  else
    pset p (set_p_sz sz) ;;;
    ret 0.

(** ** Copies to and from user or kernel memory

    The destination of a copy is a user address, a physical page or a variable
    of the caller; in the last case the caller is handed the bytes.  A source
    is a user address or the bytes of a kernel buffer. *)
Inductive udst : Type := DstUser (va : Z) | DstPhys (pa : Z) | DstLocal.
Inductive usrc : Type := SrcUser (va : Z) | SrcKernel (l : list Z).

Definition dst_add (d : udst) (n : Z) : udst :=
  match d with
  | DstUser va => DstUser (u64 (va + n))
  | DstPhys pa => DstPhys (pa + n)
  | DstLocal => DstLocal
  end.

Definition src_add (d : usrc) (n : Z) : usrc :=
  match d with
  | SrcUser va => SrcUser (u64 (va + n))
  | SrcKernel l => SrcKernel (drop (Z.to_nat n) l)
  end.

Definition either_copyout (dst : udst) (src : list Z) : K Z :=
  let! p := myproc in
  match dst with
  | DstUser va =>
      let! p := deref p in
      let! pagetable := pget p p_pagetable in
      copyout pagetable va src
  | DstPhys pa => modify (upd_mem (λ m, stbytes m pa src)) ;;; ret 0
  | DstLocal => ret 0
  end.

(** The answer is the result and the bytes stored in the destination. *)
Definition either_copyin (src : usrc) (len : Z) : K (Z * list Z) :=
  let! p := myproc in
  match src with
  | SrcUser va =>
      let! p := deref p in
      let! pagetable := pget p p_pagetable in
      copyin pagetable va len
  | SrcKernel l => ret (0, take (Z.to_nat len) l)
  end.

(** ** procdump *)

(** The characters of an array up to its first NUL. *)
Fixpoint cstring (l : list Z) : list Z :=
  match l with
  | [] => []
  | c :: l' => if c =? 0 then [] else c :: cstring l'
  end.

(** The table [states]; it has no entry for USED. *)
Definition state_name (st : procstate) : option string :=
  match st with
  | UNUSED => Some "unused"
  | USED => None
  | SLEEPING => Some "sleep "
  | RUNNABLE => Some "runble"
  | RUNNING => Some "run   "
  | ZOMBIE => Some "zombie"
  end.

Definition procdump_one (p : nat) : K unit :=
  let! q := gets (getproc p) in
  if bool_decide (p_state q = UNUSED) then ret tt else
  let state := default "???"%string (state_name (p_state q)) in
  printf "%d %s %s" [AInt (p_pid q); AStr (Some (bytes_of state));
                     AStr (Some (cstring (p_name q)))] ;;;
  printf nl [].

Definition procdump : K unit :=
  printf nl [] ;;;
  for_each (seq 0 NPROC) procdump_one.
End proc.
