(* ===== verification/ProcSpec.v ===== *)
(** * Growing and shrinking a process (kernel/proc.c) *)

From S2P Require Import Prelude Machine Memory Kstring State Spinlock Kalloc Vm VmTables VmMap VmSpace VmCopy.
From S2P Require Import VmFree VmSpec Sched Runs Uart Printf Proc.

(** The process with another size. *)
Definition resized (p : nat) (sz : Z) (s : kernel) : kernel := upd_proc p (set_p_sz sz) s.

Section grow.
Context `{LayoutOk}.

(** A thread of [p] whose address space is the pages below its size. *)
Record grower (p : nat) (root : Z) (l : list Z) (s : kernel) : Prop := {
  gw_thread : thread_ok p s;
  gw_root : p_pagetable (getproc p s) = root;
  gw_sz : 0 ≤ p_sz (getproc p s) < 2 ^ 32;
  gw_uvm : uvm (physmem s) (freelist s) root l (pgs (p_sz (getproc p s)))
}.

Lemma resized_same p s : resized p (p_sz (getproc p s)) s = s.
Proof.
  unfold resized, upd_proc, getproc. transitivity (set_procs (procs s) s); [f_equal|by destruct s].
  apply list_eq. intros i. destruct (decide (i = p)) as [->|Hne].
  - rewrite list_lookup_alter_eq. destruct (procs s !! p) as [q|] eqn:E; [|done]. cbn. f_equal.
    rewrite (list_lookup_total_correct _ _ _ E). by destruct q.
  - by rewrite list_lookup_alter_ne.
Qed.

Lemma growproc_body p root l s n :
  grower p root l s → growproc n s =
    (let sz := p_sz (getproc p s) in
     if n >? 0 then
       (let! r := uvmalloc root sz (u32 (sz + n)) in
        if u32 r =? 0 then ret (-1) else pset p (set_p_sz (u32 r)) ;;; ret 0)
     else if n <? 0 then
       (let! r := uvmdealloc root sz (u32 (sz + n)) in pset p (set_p_sz (u32 r)) ;;; ret 0)
     else (pset p (set_p_sz sz) ;;; ret 0)) s.
Proof.
  intros [Ht <- Hsz _]. unfold growproc. run (thread_curproc _ _ Ht).
  rewrite (bind_Ret _ _ s (getproc p s) s) by done. cbv zeta. by rewrite (u32_small _ Hsz).
Qed.

(** The sum wraps: nothing is done, and the call succeeds. *)
Lemma growproc_wrap p root l s n :
  grower p root l s → - 2 ^ 31 ≤ n < 2 ^ 31 →
  p_sz (getproc p s) + n < 0 ∨ 2 ^ 32 ≤ p_sz (getproc p s) + n → growproc n s = Ret 0 s.
Proof.
  intros G Hn Hw. rewrite (growproc_body _ _ _ _ _ G). cbv zeta. pose proof (gw_sz _ _ _ _ G) as Hsz.
  set (sz := p_sz (getproc p s)) in *. destruct Hw as [Hw|Hw].
  - assert (u32 (sz + n) = sz + n + 2 ^ 32) as -> by (unfold u32; Z.to_euclidean_division_equations; lia).
    destruct (Z.gtb_spec n 0), (Z.ltb_spec n 0); try lia.
    unfold uvmdealloc. destruct (Z.geb_spec (sz + n + 2 ^ 32) sz); [|lia].
    unfold bind, ret, pset, modify. cbn. rewrite (u32_small _ Hsz). exact (f_equal (Ret 0) (resized_same p s)).
  - assert (u32 (sz + n) = sz + n - 2 ^ 32) as -> by (unfold u32; Z.to_euclidean_division_equations; lia).
    destruct (Z.gtb_spec n 0); [|lia].
    unfold uvmalloc. destruct (Z.ltb_spec (sz + n - 2 ^ 32) sz); [|lia].
    unfold bind, ret, pset, modify. cbn. rewrite (u32_small _ Hsz). destruct (Z.eqb_spec sz 0); [lia|].
    exact (f_equal (Ret 0) (resized_same p s)).
Qed.

(** What a process sees of its memory below [n] pages is the same. *)
Definition same_pages (m m' : mem) (root : Z) (n : nat) : Prop :=
  ∀ va, 0 ≤ va < Z.of_nat n * PGSIZE →
    leaf m' root va = leaf m root va ∧ uview m' root va = uview m root va.

(** The outcome of growing a process to [newsz] bytes. *)
Definition growth (p : nat) (root : Z) (l : list Z) (s : kernel) (newsz : Z) : Prop :=
  let sz := p_sz (getproc p s) in
  ∃ m' fl' l', same_pages (physmem s) m' root (pgs sz) ∧
    ((growproc (newsz - sz) s = Ret 0 (resized p newsz (with_mem s m' fl')) ∧
      uvm m' fl' root l' (pgs newsz) ∧
      ∀ va, Z.of_nat (pgs sz) * PGSIZE ≤ va < Z.of_nat (pgs newsz) * PGSIZE → uview m' root va = 0) ∨
     (growproc (newsz - sz) s = Ret (-1) (with_mem s m' fl') ∧
      uvm m' fl' root l' (pgs sz) ∧ no_leak l l' m' root ∧
      (length l < 3 * (pgs newsz - pgs sz))%nat)).

(** The outcome of shrinking it. *)
Definition shrinking (p : nat) (root : Z) (l : list Z) (s : kernel) (newsz : Z) : Prop :=
  let sz := p_sz (getproc p s) in
  let freed := reverse (upages (physmem s) root (Z.of_nat (pgs newsz) * PGSIZE) (pgs sz - pgs newsz)) in
  ∃ m' fl', growproc (newsz - sz) s = Ret 0 (resized p newsz (with_mem s m' fl')) ∧
    uvm m' fl' root (freed ++ l) (pgs newsz) ∧ same_pages (physmem s) m' root (pgs newsz).

Lemma growproc_grow p root l s newsz :
  grower p root l s → p_sz (getproc p s) < newsz < 2 ^ 32 → growth p root l s newsz.
Proof.
  intros G Hn. unfold growth. rewrite (growproc_body _ _ _ _ _ G). cbv zeta.
  pose proof (gw_sz _ _ _ _ G) as Hsz. set (sz := p_sz (getproc p s)) in *.
  destruct (Z.gtb_spec (newsz - sz) 0); [|lia]. replace (sz + (newsz - sz)) with newsz by lia.
  rewrite (u32_small newsz) by lia. pose proof (gw_thread _ _ _ _ G) as Ht.
  destruct (uvmalloc_eq s root l sz newsz (th_hart _ _ Ht)) as (r & m' & fl' & l' & Hr & Hc);
    [apply Ht, all_locks_named; by left|lia|mlia|exact (gw_uvm _ _ _ _ G)|].
  exists m', fl', l'.
  destruct Hc as [[-> Z']|(-> & Z' & Hlen)];
    destruct (growing_view _ _ _ _ _ _ _ _ _ _ _ (gw_uvm _ _ _ _ G) Z') as [Vold Vnew];
    (split; [done|]); run Hr.
  - left. rewrite (u32_small newsz) by lia. destruct (Z.eqb_spec newsz 0); [lia|].
    split; [done|]. split; [apply Z'|]. intros va Hva. by apply Vnew.
  - right. split; [done|]. split; [apply Z'|]. split; [by eapply growing_no_leak|done].
Qed.

Lemma growproc_shrink p root l s newsz :
  grower p root l s → 0 ≤ newsz ≤ p_sz (getproc p s) → shrinking p root l s newsz.
Proof.
  intros G Hn. unfold shrinking. rewrite (growproc_body _ _ _ _ _ G). cbv zeta.
  pose proof (gw_sz _ _ _ _ G) as Hsz. set (sz := p_sz (getproc p s)) in *.
  pose proof (gw_thread _ _ _ _ G) as Ht. destruct (Z.gtb_spec (newsz - sz) 0); [lia|].
  destruct (uvmdealloc_view s root l sz newsz (th_hart _ _ Ht)) as (m' & fl' & Hr & U' & _ & V);
    [apply Ht, all_locks_named; by left|lia|mlia|exact (gw_uvm _ _ _ _ G)|].
  destruct (Z.ltb_spec (newsz - sz) 0).
  - exists m', fl'. split; [|done]. replace (sz + (newsz - sz)) with newsz by lia.
    rewrite (u32_small newsz) by lia. run Hr. by rewrite (u32_small newsz) by lia.
  - replace newsz with sz in * by lia. exists (physmem s), (freelist s). rewrite with_mem_id, Nat.sub_diag.
    split; [done|]. split; [exact (gw_uvm _ _ _ _ G)|done].
Qed.

(** C39: a new size that fits in 32 bits is what [growproc]
    gives the process: growing adds zeroed pages, or fails for lack of memory
    with the address space as it was, and shrinking frees the pages above.
    For every other new size [growproc] does nothing and reports success. *)
Theorem growproc_spec p root l s n :
  grower p root l s → - 2 ^ 31 ≤ n < 2 ^ 31 →
  let newsz := p_sz (getproc p s) + n in
  if decide (0 ≤ newsz < 2 ^ 32) then
    if decide (0 < n) then growth p root l s newsz else shrinking p root l s newsz
  else growproc n s = Ret 0 s.
Proof.
  intros G Hn newsz. repeat case_decide.
  - apply growproc_grow; [done|lia].
  - apply growproc_shrink; [done|lia].
  - eapply growproc_wrap; [done|done|lia].
Qed.

End grow.

(** A process of one page asks for 2 GiB less than nothing. *)
Lemma growproc_spec_witness :
  ∃ s l, grower 0 rootA l s ∧ p_sz (getproc 0 s) = PGSIZE ∧
    growth 0 rootA l s (2 * PGSIZE) ∧ shrinking 0 rootA l s 1 ∧ growproc (- 2 ^ 31) s = Ret 0 s.
Proof.
  destruct sample_user as (m & fl & l & [U _] & _).
  set (s := upd_proc 0 (λ q, set_p_sz PGSIZE (set_p_pagetable rootA q)) (with_mem boot_thread m fl)).
  assert (grower 0 rootA l s) as G.
  { split; [|done|done|exact U]. by apply (thread_ok_ext 0 boot_thread), boot_thread_ok. }
  exists s, l. split; [done|]. split; [done|]. split; [|split].
  - exact (growproc_spec 0 rootA l s PGSIZE G ltac:(mlia)).
  - exact (growproc_spec 0 rootA l s (1 - PGSIZE) G ltac:(mlia)).
  - exact (growproc_spec 0 rootA l s (- 2 ^ 31) G ltac:(mlia)).
Defined.
