(* ===== verification/AllocSpec.v ===== *)
(** * Making and destroying user address spaces (kernel/proc.c)

    [proc_pagetable] makes an address space with nothing but the trampoline
    and the trapframe in it, and [proc_freepagetable] takes an address space
    apart; the pages come from the free list and go back to it. *)

From S2P Require Import Prelude Machine Memory Kstring State Spinlock Kalloc Vm VmTables VmMap VmSpace VmFree Sched Runs Proc.

Section top.
Context `{LayoutOk}.

(** An address space of [n] user pages with the trampoline and the trapframe
    page [tf] above them. *)
Record space (m : mem) (fl root : Z) (l : list Z) (n : nat) (tf : Z) : Prop := {
  sp_uvm : uvm m fl root l n;
  sp_tramp : leaf m root TRAMPOLINE = mk_pte trampoline (Z.lor PTE_R PTE_X);
  sp_tf : leaf m root TRAPFRAME = mk_pte tf (Z.lor PTE_R PTE_W)
}.

(** The top of an address space: nothing but these two pages. *)
Lemma top_page va : TRAPFRAME ≤ va < MAXVA → same_page TRAMPOLINE va = negb (same_page TRAPFRAME va).
Proof.
  intros Hva. unfold same_page. destruct (Z.eqb_spec (TRAMPOLINE / PGSIZE) (va / PGSIZE)), (Z.eqb_spec (TRAPFRAME / PGSIZE) (va / PGSIZE)); mlia.
Qed.

(** ** One page at the top *)

Lemma map_top s root a pa perm l :
  hart_ok s → lock_free s LkKmem → vm_inv (physmem s) (freelist s) root l →
  0 ≤ a → a mod PGSIZE = 0 → a + PGSIZE ≤ MAXVA → 0 ≤ pa → pa + PGSIZE ≤ 2 ^ 56 → 0 ≤ perm < 2 ^ 10 →
  leaf (physmem s) root a = 0 →
  ∃ r m' fl' l', mappages root a PGSIZE pa perm s = Ret r (with_mem s m' fl') ∧
    vm_inv m' fl' root l' ∧ evolves (physmem s) m' root l l' ∧ no_leak l l' m' root ∧
    ((r = 0 ∧ (length l ≤ length l' + 2)%nat ∧
      ∀ x, 0 ≤ x < MAXVA → leaf m' root x = if same_page a x then mk_pte pa perm else leaf (physmem s) root x) ∨
     (r = -1 ∧ (length l < 2)%nat ∧ ∀ x, 0 ≤ x < MAXVA → leaf m' root x = leaf (physmem s) root x)).
Proof.
  intros Hh Hk I Ha Hal Hmax Hpa Hpam Hperm Hz.
  assert (span a PGSIZE = 1) as Es by (unfold span; mlia).
  destruct (mappages_eq s root a PGSIZE pa perm l) as (r & m' & fl' & used & l' & k & Hr & G & L & Hres); try done.
  - by rewrite Es, Z.mul_1_l.
  - rewrite Es, PGROUNDDOWN_eq by mlia. intros x Hx. rewrite (leaf_page _ _ x a) by mlia. done.
  - rewrite Es in Hres. exists r, m', fl', l'. split_and!; [done|apply G|by eapply grown_evolves| |].
    + intros q Hq. rewrite (g_split _ _ _ _ _ _ _ G) in Hq. apply elem_of_app in Hq as [Hq|Hq]; [right|by left].
      by apply (g_used _ _ _ _ _ _ _ G).
    + pose proof (f_equal length (g_split _ _ _ _ _ _ _ G)) as El. rewrite length_app in El.
      destruct Hres as [(-> & -> & Hu)|(-> & Hk0 & _ & Hlen)]; [left|right]; (split; [done|]; split; [lia|]); intros x Hx; rewrite L by done.
      * apply mapped_leaf_one.
      * replace k with 0 by lia. apply mapped_leaf_none.
Qed.

Lemma unmap_top s root a pa perm l :
  hart_ok s → lock_free s LkKmem → vm_inv (physmem s) (freelist s) root l →
  0 ≤ a → a mod PGSIZE = 0 → a + PGSIZE ≤ MAXVA → 0 ≤ pa < 2 ^ 56 → 0 ≤ perm < 2 ^ 10 → Z.lor perm PTE_V ≠ PTE_V →
  leaf (physmem s) root a = mk_pte pa perm →
  ∃ m' fl', uvmunmap root a 1 false s = Ret tt (with_mem s m' fl') ∧ shrunk (physmem s) m' fl' root l [] ∧
    ∀ x, 0 ≤ x < MAXVA → leaf m' root x = if same_page a x then 0 else leaf (physmem s) root x.
Proof.
  intros Hh Hk I Ha Hal Hmax Hpa Hperm Hne El.
  destruct (uvmunmap_eq s root a 1 false l) as (m' & fl' & Hr & Sh & L); try done.
  - intros i Hi. assert (i = O) as -> by lia. rewrite Z.mul_0_l, Z.add_0_r. cbv zeta. rewrite El.
    rewrite mk_pte_valid, PTE_FLAGS_mk_pte by done. done.
  - exists m', fl'. split; [done|]. split; [done|]. intros x Hx. rewrite L by done. unfold unmapped_leaf, same_page.
    destruct (Z.leb_spec (a / PGSIZE) (x / PGSIZE)), (Z.ltb_spec (x / PGSIZE) (a / PGSIZE + Z.of_nat 1)), (Z.eqb_spec (a / PGSIZE) (x / PGSIZE)); try lia; done.
Qed.

(** ** Address spaces built from free pages *)

(** [x] lies in none of the pages. *)
Definition off_pages (l : list Z) (x : Z) : Prop := ∀ q, q ∈ l → ¬ (q ≤ x < q + PGSIZE).

(** The table pages of [root] are those of the free pages [l] that are not in
    [l'], and nothing but free pages has been written. *)
Record built (m m' : mem) (root : Z) (l l' : list Z) : Prop := {
  bu_tables : ∀ q, is_table m' root q → q ∈ l;
  bu_sub : ∀ q, q ∈ l' → q ∈ l;
  bu_all : no_leak l l' m' root;
  bu_mem : ∀ x, off_pages l x → ld m' x = ld m x
}.

(** All pages are free again. *)
Definition restored (m m' : mem) (fl' : Z) (l : list Z) : Prop :=
  ∃ l', free_list m' fl' l' ∧ l' ≡ₚ l ∧ ∀ x, off_pages l x → ld m' x = ld m x.

Lemma built_evolves m m1 m2 root l l1 l2 :
  built m m1 root l l1 → evolves m1 m2 root l1 l2 → no_leak l1 l2 m2 root → built m m2 root l l2.
Proof.
  intros [T S A M] [K N Sb Me] Nl. split.
  - intros q (p & Hp & E). destruct (N _ _ Hp E) as [E'|E']; [|by apply S]. apply T. by exists p.
  - intros q Hq. by apply S, Sb.
  - intros q Hq. destruct (A q Hq) as [Hq'|(p & Hp & E)]; [by apply Nl|]. right. exists p. split; [done|]. by apply K.
  - intros x Hx. rewrite Me; [by apply M| |intros q Hq; by apply Hx, S].
    intros (p & t & Hp & E & Hin). apply (Hx t); [|done]. apply T. by exists p.
Qed.

Lemma built_unmapped m m1 m2 fl root l l1 :
  built m m1 root l l1 → shrunk m1 m2 fl root l1 [] → built m m2 root l l1.
Proof.
  intros B Sh. apply (built_evolves m m1 m2 root l l1 l1 B).
  - apply (shrunk_evolves m1 m1 m2 fl root l1 l1 []); [apply evolves_refl|done|]. intros q Hq. by apply elem_of_nil in Hq.
  - intros q Hq. by left.
Qed.

Lemma uvmcreate_eq s l :
  hart_ok s → lock_free s LkKmem → free_pages s l →
  (l = [] ∧ uvmcreate s = Ret 0 s) ∨
  ∃ root m' fl' l', root ≠ 0 ∧ uvmcreate s = Ret root (with_mem s m' fl') ∧ length l = S (length l') ∧ uvm m' fl' root l' 0 ∧
    (∀ va, leaf m' root va = 0) ∧ built (physmem s) m' root l l'.
Proof.
  intros Hh Hk Hf. destruct (kalloc_cases s l Hh Hk Hf) as [[-> E]|(root & l' & -> & Efl & Hne & E)].
  - left. split; [done|]. unfold uvmcreate. by run E.
  - right. unfold free_pages in Hf. rewrite Efl in Hf. pose proof (kalloc_free_list _ _ _ Hf) as Hf1.
    destruct (free_list_cons _ _ _ _ Hf) as (_ & _ & Hv & Hn).
    set (m1 := kalloc_mem (physmem s) root) in *. set (m2 := memset m1 root 0 PGSIZE).
    assert (∀ x, ¬ (root ≤ x < root + PGSIZE) → ld m2 x = ld (physmem s) x) as Hm.
    { intros x Hx. unfold m2, m1. rewrite ld_memset, decide_False by done. rewrite ld_kalloc_mem, decide_False by done. done. }
    assert (free_list m2 (ld64 (physmem s) root) l') as Hf2.
    { apply (free_list_ext m1); [|done]. intros q x Hq Hx. unfold m2. rewrite ld_memset, decide_False; [done|].
      intros Hin. pose proof (free_list_valid _ _ _ q Hf1 Hq) as [Hqa _]. destruct Hv as [Hra _].
      apply (page_disjoint root q x x); try done. intros ->. done. }
    destruct (uvm_zero_root m2 (ld64 (physmem s) root) root l' Hf2 Hv Hn) as (U & L & T).
    { intros x Hx. unfold m2. by rewrite ld_memset, decide_True. }
    exists root, m2, (ld64 (physmem s) root), l'. split_and!; try done.
    + unfold uvmcreate. run E. rewrite (proj2 (Z.eqb_neq _ _) Hne). done.
    + split.
      * intros q ->%T. by left.
      * intros q Hq. by right.
      * intros q [->|Hq]%elem_of_cons; [right; exists []; split; [apply path_ok_nil|done]|by left].
      * intros x Hx. apply Hm. apply Hx. by left.
Qed.

(** An address space that maps nothing any more is given back. *)
Lemma uvmfree_built s m root l l1 :
  hart_ok s → lock_free s LkKmem → vm_inv (physmem s) (freelist s) root l1 → NoDup l →
  built m (physmem s) root l l1 → (∀ x, 0 ≤ x < MAXVA → leaf (physmem s) root x = 0) →
  ∃ m' fl', uvmfree root 0 s = Ret tt (with_mem s m' fl') ∧ restored m m' fl' l.
Proof.
  intros Hh Hk I Hnd [T S A M] L.
  destruct (freewalk_eq s root l1 Hh Hk I) as (m' & fl' & freed & E & Hf & Hq & Hm).
  { intros x Hx. by rewrite L. }
  exists m', fl'. split; [exact E|]. exists (freed ++ l1). split; [done|]. split.
  - apply NoDup_Permutation; [apply Hf|done|]. intros q. rewrite elem_of_app, Hq. split.
    + intros [Hq'|Hq']; [by apply T|by apply S].
    + intros Hin. destruct (A q Hin); tauto.
  - intros x Hx. rewrite Hm; [by apply M|]. intros (p & t & Hp & Et & Hin). apply (Hx t); [|done]. apply T. by exists p.
Qed.

Lemma trampoline_small : 0 ≤ trampoline < 2 ^ 56 ∧ trampoline + PGSIZE ≤ 2 ^ 56.
Proof. pose proof trampoline_range. pose proof etext_range. pose proof kend_range. mlia. Qed.

(** ** proc_pagetable *)

(** What [proc_pagetable] does for a process with trapframe [tf] when the free
    pages are [l]: it makes an address space out of some of them, or gives all
    of them back. *)
Definition new_space (s : kernel) (l : list Z) (tf : Z) (r : outcome kernel Z) : Prop :=
  ∃ root m' fl', r = Ret root (with_mem s m' fl') ∧
    ((root ≠ 0 ∧ ∃ l', space m' fl' root l' 0 tf ∧ built (physmem s) m' root l l' ∧ (length l ≤ length l' + 5)%nat) ∨
     (root = 0 ∧ restored (physmem s) m' fl' l ∧ (length l < 5)%nat)).

Lemma restored_refl s l : free_pages s l → restored (physmem s) (physmem s) (freelist s) l.
Proof. intros Hf. by exists l. Qed.

Lemma uvm_empty m fl root l :
  vm_inv m fl root l → (∀ x, 0 ≤ x < TRAPFRAME → leaf m root x = 0) → uvm m fl root l 0.
Proof.
  intros I L. split; [done|intros i Hi; lia| |intros va Hva; apply L; lia|by unfold TRAPFRAME, TRAMPOLINE, MAXVA].
  split; [constructor|constructor| |]; [intros q Hq|intros p t _ _ Hq]; by apply elem_of_nil in Hq.
Qed.

Lemma proc_pagetable_eq s l p tf :
  hart_ok s → lock_free s LkKmem → free_pages s l → p_trapframe (getproc p s) = tf →
  0 ≤ tf → tf + PGSIZE ≤ 2 ^ 56 → new_space s l tf (proc_pagetable p s).
Proof.
  intros Hh Hk Hf Etf Htf Htf2. pose proof trampoline_small as [Htr Htr2]. assert (NoDup l) as Hnd by apply Hf.
  assert (0 ≤ TRAMPOLINE ∧ TRAMPOLINE mod PGSIZE = 0 ∧ TRAMPOLINE + PGSIZE ≤ MAXVA) as (HT1 & HT2 & HT3) by done.
  assert (0 ≤ TRAPFRAME ∧ TRAPFRAME mod PGSIZE = 0 ∧ TRAPFRAME + PGSIZE ≤ MAXVA) as (HF1 & HF2 & HF3) by done.
  unfold new_space, proc_pagetable.
  destruct (uvmcreate_eq s l Hh Hk Hf) as [[-> E]|(root & m1 & fl1 & l1 & Hne & E & N1 & U1 & L1 & B1)]; run E.
  { exists 0, (physmem s), (freelist s). rewrite with_mem_id. split; [done|]. right. split; [done|]. split; [by apply restored_refl|cbn; lia]. }
  rewrite (proj2 (Z.eqb_neq _ _) Hne). set (s1 := with_mem s m1 fl1).
  destruct (map_top s1 root TRAMPOLINE trampoline (Z.lor PTE_R PTE_X) l1)
    as (r2 & m2 & fl2 & l2 & E2 & I2 & V2 & N2 & R2); try done; [apply U1|lia|]. run E2.
  pose proof (built_evolves _ _ _ _ _ _ _ B1 V2 N2) as B2. set (s2 := with_mem s1 m2 fl2).
  destruct R2 as [(-> & C2 & L2)|(-> & C2 & L2)]; cbn [Z.ltb Z.compare].
  2:{ destruct (uvmfree_built s2 (physmem s) root l l2) as (m' & fl' & E' & R'); try done.
      { intros x Hx. unfold s2. rewrite physmem_with_mem, L2 by done. apply L1. }
      run E'. exists 0, m', fl'. split; [done|]. right. split; [done|]. split; [done|lia]. }
  rewrite (bind_Ret _ _ s2 tf s2) by (unfold pget, gets; by rewrite <- Etf).
  destruct (map_top s2 root TRAPFRAME tf (Z.lor PTE_R PTE_W) l2)
    as (r3 & m3 & fl3 & l3 & E3 & I3 & V3 & N3 & R3); try done.
  { unfold s2. rewrite physmem_with_mem, L2 by done. apply L1. }
  run E3. pose proof (built_evolves _ _ _ _ _ _ _ B2 V3 N3) as B3. set (s3 := with_mem s2 m3 fl3).
  destruct R3 as [(-> & C3 & L3)|(-> & C3 & L3)]; cbn [Z.ltb Z.compare].
  - exists root, m3, fl3. split; [done|]. left. split; [done|]. exists l3. split; [|split; [done|lia]]. split.
    + apply uvm_empty; [done|]. intros x Hx. rewrite L3 by mlia. unfold s2. rewrite physmem_with_mem, L2 by mlia.
      assert (same_page TRAPFRAME x = false) as -> by (apply Z.eqb_neq; mlia).
      assert (same_page TRAMPOLINE x = false) as -> by (apply Z.eqb_neq; mlia). apply L1.
    + rewrite L3 by done. change (same_page TRAPFRAME TRAMPOLINE) with false. cbv iota. unfold s2. rewrite physmem_with_mem, L2 by done.
      by rewrite same_page_refl.
    + rewrite L3 by done. by rewrite same_page_refl.
  - destruct (unmap_top s3 root TRAMPOLINE trampoline (Z.lor PTE_R PTE_X) l3) as (m4 & fl4 & E4 & Sh4 & L4); try done.
    { unfold s3. rewrite physmem_with_mem, L3 by done. unfold s2. rewrite physmem_with_mem, L2, same_page_refl by done. done. }
    run E4. pose proof (built_unmapped _ _ _ _ _ _ _ B3 Sh4) as B4.
    destruct (uvmfree_built (with_mem s3 m4 fl4) (physmem s) root l l3) as (m' & fl' & E' & R'); try done; [apply Sh4| |].
    { intros x Hx. rewrite physmem_with_mem, L4 by done. unfold s3. rewrite physmem_with_mem, L3 by done.
      unfold s2. rewrite physmem_with_mem, L2 by done. destruct (same_page TRAMPOLINE x); [done|]. apply L1. }
    run E'. exists 0, m', fl'. split; [done|]. right. split; [done|]. split; [done|lia].
Qed.

(** ** proc_freepagetable *)

Lemma uvm_below m m' fl fl' root l n :
  uvm m fl root l n → shrunk m m' fl' root l [] → (∀ x, 0 ≤ x < TRAPFRAME → leaf m' root x = leaf m root x) →
  uvm m' fl' root l n ∧ upages m' root 0 n = upages m root 0 n.
Proof.
  intros [I Hm Ho Ha Hsz] Sh L.
  assert (upages m' root 0 n = upages m root 0 n) as Eu by (apply upages_ext; intros i Hi; apply L; mlia).
  split; [|done]. split; [apply Sh| | | |done].
  - intros i Hi. cbv zeta. rewrite L by mlia. by apply Hm.
  - destruct Ho as [Hd Hv Hf Ht]. split; rewrite Eu; try done.
    intros p t Hp. rewrite (sh_tbl _ _ _ _ _ _ Sh) by done. by apply Ht.
  - intros va Hva. rewrite L by mlia. by apply Ha.
Qed.

Lemma proc_freepagetable_eq s root l sz tf :
  hart_ok s → lock_free s LkKmem → 0 ≤ sz ≤ TRAPFRAME → 0 ≤ tf → tf + PGSIZE ≤ 2 ^ 56 →
  space (physmem s) (freelist s) root l (pgs sz) tf →
  ∃ m' fl' l', proc_freepagetable root sz s = Ret tt (with_mem s m' fl') ∧ free_list m' fl' l' ∧
    (∀ q, q ∈ l' ↔ q ∈ l ∨ q ∈ upages (physmem s) root 0 (pgs sz) ∨ is_table (physmem s) root q) ∧
    (∀ x, off_pages (upages (physmem s) root 0 (pgs sz)) x → ¬ in_table (physmem s) root x → ld m' x = ld (physmem s) x).
Proof.
  intros Hh Hk Hsz Htf Htf2 [U LT LF]. pose proof trampoline_small as [Htr Htr2].
  assert (0 ≤ TRAMPOLINE ∧ TRAMPOLINE mod PGSIZE = 0 ∧ TRAMPOLINE + PGSIZE ≤ MAXVA) as (HT1 & HT2 & HT3) by done.
  assert (0 ≤ TRAPFRAME ∧ TRAPFRAME mod PGSIZE = 0 ∧ TRAPFRAME + PGSIZE ≤ MAXVA) as (HF1 & HF2 & HF3) by done.
  unfold proc_freepagetable.
  destruct (unmap_top s root TRAMPOLINE trampoline (Z.lor PTE_R PTE_X) l) as (m1 & fl1 & E1 & Sh1 & L1); try done; [apply U|].
  run E1. set (s1 := with_mem s m1 fl1).
  destruct (uvm_below (physmem s) m1 (freelist s) fl1 root l (pgs sz) U Sh1) as [U1 P1].
  { intros x Hx. rewrite L1 by mlia. assert (same_page TRAMPOLINE x = false) as ->; [|done]. apply Z.eqb_neq. mlia. }
  destruct (unmap_top s1 root TRAPFRAME tf (Z.lor PTE_R PTE_W) l) as (m2 & fl2 & E2 & Sh2 & L2); try done; [apply U1|mlia| |].
  { unfold s1. rewrite physmem_with_mem, L1 by done. done. }
  run E2. set (s2 := with_mem s1 m2 fl2).
  destruct (uvm_below m1 m2 fl1 fl2 root l (pgs sz) U1 Sh2) as [U2 P2].
  { intros x Hx. rewrite L2 by mlia. assert (same_page TRAPFRAME x = false) as ->; [|done]. apply Z.eqb_neq. mlia. }
  assert (∀ p, path_ok p → tbl m2 root p = tbl (physmem s) root p) as T2.
  { intros p Hp. rewrite (sh_tbl _ _ _ _ _ _ Sh2) by done. by apply (sh_tbl _ _ _ _ _ _ Sh1). }
  assert (∀ x, in_table m2 root x ↔ in_table (physmem s) root x) as IT by (intros x; by apply in_table_tbl).
  destruct (uvmfree_eq s2 root l sz) as (m' & fl' & l' & E & Hf & Hq & Hm); try done.
  { intros va Hva. unfold s2. rewrite physmem_with_mem, L2 by mlia. unfold s1. rewrite physmem_with_mem, L1 by mlia.
    pose proof (top_page va Hva). destruct (same_page TRAPFRAME va); [done|]. by rewrite H1. }
  unfold s2 in Hq, Hm. rewrite !physmem_with_mem in Hq, Hm. rewrite P2, P1 in Hq, Hm. exists m', fl', l'. split_and!; [done|done| |].
  - intros q. rewrite Hq. unfold is_table. split; (intros [?|[?|(p & Hp & Et)]]; [tauto|tauto|]); right; right; exists p;
      (split; [done|]); [by rewrite <- T2|by rewrite T2].
  - intros x Hx Ht. rewrite Hm; [|done|by rewrite IT]. rewrite (sh_mem _ _ _ _ _ _ Sh2).
    + apply (sh_mem _ _ _ _ _ _ Sh1); [done|]. intros q Hq'. by apply elem_of_nil in Hq'.
    + rewrite (in_table_tbl (physmem s)); [done|]. apply Sh1.
    + intros q Hq'. by apply elem_of_nil in Hq'.
Qed.
End top.
