(* ===== verification/Console.v ===== *)
(** * kernel/console.c

    Console input and output: the input ring with its read, write and edit
    counters, the line editing of the interrupt handler, and [uartintr] of
    kernel/uart.c, which feeds it. *)

From S2P Require Import Prelude Machine Memory Kstring State Spinlock Kalloc Vm Sched Ring Uart.
From S2P Require Import Printf Proc.

Definition INPUT_BUF : Z := 128.

(** [C(x)]: Control-x. *)
Definition C_D : Z := 4.
Definition C_H : Z := 8.
Definition C_P : Z := 16.
Definition C_U : Z := 21.

Definition upd_cons (f : console → console) (s : kernel) : kernel := set_cons (f (cons s)) s.

Section console.
Context `{KernelLayout}.

(** One turn of the loop of [consolewrite]; the loop variable is [i]. *)
Definition consolewrite_step (src : usrc) (n i : Z) : K (Z + Z) :=
  if i <? n then
    let! '(r, c) := either_copyin (src_add src i) 1 in
    if r =? -1 then ret (inr i) else
    uartputc (c !!! 0%nat) ;;;
    ret (inl (i + 1))
  else ret (inr i).

Definition consolewrite (src : usrc) (n : Z) : K Z := loop (consolewrite_step src n) 0.

(** [while(cons.r == cons.w) ...]: [true] when the process was killed. *)
Definition consoleread_wait (_ : unit) : K (unit + bool) :=
  let! c := gets cons in
  if cons_r c =? cons_w c then
    let! p := curproc in
    let! killed := pget p p_killed in
    if negb (killed =? 0) then release LkCons ;;; ret (inr true)
    else sleep ChCons LkCons ;;; ret (inl tt)
  else ret (inr false).

(** One turn of the outer loop; [None] is the [return -1] inside it, with the
    lock released, and [Some n] the end of the loop. *)
Definition consoleread_step (target : Z) (v : udst * Z) : K (udst * Z + option Z) :=
  let '(dst, n) := v in
  if n >? 0 then
    let! killed := loop consoleread_wait tt in
    if (killed : bool) then ret (inr None) else
    let! cn := gets cons in
    let c := cons_buf cn !!! Z.to_nat (cons_r cn `mod` INPUT_BUF) in
    modify (upd_cons (λ cn, set_cons_r (u32 (cons_r cn + 1)) cn)) ;;;
    if c =? C_D then
      when (u32 n <? target)
        (modify (upd_cons (λ cn, set_cons_r (u32 (cons_r cn - 1)) cn))) ;;;
      ret (inr (Some n))
    else
    let! r := either_copyout dst [c] in
    if r =? -1 then ret (inr (Some n)) else
    let dst := dst_add dst 1 in
    let n := n - 1 in
    if c =? 10 then ret (inr (Some n)) else ret (inl (dst, n))
  else ret (inr (Some n)).

Definition consoleread (dst : udst) (n : Z) : K Z :=
  let target := u32 n in
  acquire LkCons ;;;
  let! r := loop (consoleread_step target) (dst, n) in
  match r with
  | None => ret (-1)
  | Some n => release LkCons ;;; ret (s32 (target - n))
  end.

(** One turn of the loop that erases the line. *)
Definition kill_line_step (_ : unit) : K (unit + unit) :=
  let! cn := gets cons in
  if negb (cons_e cn =? cons_w cn) &&
     negb (cons_buf cn !!! Z.to_nat (u32 (cons_e cn - 1) `mod` INPUT_BUF) =? 10)
  then
    modify (upd_cons (λ cn, set_cons_e (u32 (cons_e cn - 1)) cn)) ;;;
    consputc BACKSPACE ;;;
    ret (inl tt)
  else ret (inr tt).

(** The [default] case: a character is echoed and stored. *)
Definition consoleintr_default (c : Z) : K unit :=
  let! cn := gets cons in
  when (negb (c =? 0) && (u32 (cons_e cn - cons_r cn) <? INPUT_BUF))
    (let c := if c =? 13 then 10 else c in
     consputc c ;;;
     modify (upd_cons (λ cn, set_cons_buf
       (<[Z.to_nat (cons_e cn `mod` INPUT_BUF) := u8 c]> (cons_buf cn)) cn)) ;;;
     modify (upd_cons (λ cn, set_cons_e (u32 (cons_e cn + 1)) cn)) ;;;
     let! cn := gets cons in
     when ((c =? 10) || (c =? C_D) || (cons_e cn =? u32 (cons_r cn + INPUT_BUF)))
       (modify (upd_cons (λ cn, set_cons_w (cons_e cn) cn)) ;;;
        wakeup (Some ChCons))).

(** The [switch] on the character. *)
Definition consoleintr_char (c : Z) : K unit :=
  if c =? C_P then procdump
  else if c =? C_U then loop kill_line_step tt
  else if (c =? C_H) || (c =? 127) then
    let! cn := gets cons in
    when (negb (cons_e cn =? cons_w cn))
      (modify (upd_cons (λ cn, set_cons_e (u32 (cons_e cn - 1)) cn)) ;;;
       consputc BACKSPACE)
  else consoleintr_default c.

Definition consoleintr (c : Z) : K unit :=
  acquire LkCons ;;;
  consoleintr_char c ;;;
  release LkCons.

Definition CONSOLE : nat := 1.

Definition consoleinit : K unit :=
  initlock LkCons "cons" ;;;
  uartinit ;;;
  modify (λ s, set_devsw_read (<[CONSOLE := Some ConsoleDev]> (devsw_read s)) s) ;;;
  modify (λ s, set_devsw_write (<[CONSOLE := Some ConsoleDev]> (devsw_write s)) s).

(** [uartintr] of kernel/uart.c: the waiting input goes to the console. *)
Definition uartintr_step (_ : unit) : K (unit + unit) :=
  let! c := uartgetc in
  if c =? -1 then ret (inr tt) else
  consoleintr c ;;;
  ret (inl tt).

Definition uartintr : K unit :=
  loop uartintr_step tt ;;;
  acquire LkUart ;;;
  uartstart ;;;
  release LkUart.
End console.
