(* ===== verification/ConsoleSpec.v ===== *)
(** * What the console promises

    The input ring of the console as a line editor: the committed bytes that
    [consoleread] may deliver, and the line being typed.  [consoleintr] is shown
    to refine an editor on lists, and to echo what the editor displays. *)

From S2P Require Import Prelude Machine Memory Kstring State Spinlock Kalloc Vm VmTables VmMap VmSpace.
From S2P Require Import VmCopy VmSpec Sched Runs Ring Uart Printf Proc Console UartSpec.

(** ** Echo *)

(** A device that will become idle, on a kernel that has not panicked. *)
Definition dev_ok (s : kernel) : Prop :=
  panicked s = false ∧ Z.of_nat (length (lsr_tx (uart0 s))) < 2 ^ 64 - 1.

Definition echoed (c : Z) : list Z := if c =? BACKSPACE then [8; 32; 8] else [u8 c].

(** The device has received [bs]. *)
Definition wrote_bytes (bs : list Z) (u u' : uart) : Prop :=
  thr u' = thr u ++ bs ∧ (length (lsr_tx u') ≤ length (lsr_tx u))%nat ∧
  tx_buf u' = tx_buf u ∧ tx_r u' = tx_r u ∧ tx_w u' = tx_w u ∧ rhr u' = rhr u.

Lemma wrote_bytes_nil u : wrote_bytes [] u u.
Proof. unfold wrote_bytes. rewrite app_nil_r. split_and!; done. Qed.

Lemma wrote_bytes_app b1 b2 u1 u2 u3 :
  wrote_bytes b1 u1 u2 → wrote_bytes b2 u2 u3 → wrote_bytes (b1 ++ b2) u1 u3.
Proof.
  intros (A1 & A2 & A3 & A4 & A5 & A6) (B1 & B2 & B3 & B4 & B5 & B6).
  split_and!; try congruence; [|lia]. by rewrite B1, A1, app_assoc.
Qed.

Lemma send_wrote c u : wrote_bytes [u8 c] u (send c u).
Proof. split_and!; try done. apply until_idle_length. Qed.

Lemma set_uart0_id s : set_uart0 (uart0 s) s = s.
Proof. by destruct s. Qed.

Lemma consputc_runs s c :
  hart_ok s → dev_ok s →
  ∃ u, consputc c s = Ret tt (set_uart0 u s) ∧ wrote_bytes (echoed c) (uart0 s) u.
Proof.
  intros Hh [Hp Hl]. unfold consputc, echoed. destruct (c =? BACKSPACE).
  - set (u1 := send 8 (uart0 s)). set (u2 := send 32 u1). set (u3 := send 8 u2). exists u3.
    pose proof (until_idle_length (lsr_tx (uart0 s))). pose proof (until_idle_length (until_idle (lsr_tx (uart0 s)))).
    run (uartputc_sync_eq s 8 Hh Hp Hl).
    run (uartputc_sync_eq (upd_uart (send 8) s) 32 Hh Hp ltac:(cbn; lia)).
    rewrite (uartputc_sync_eq (upd_uart (send 32) (upd_uart (send 8) s)) 8 Hh Hp ltac:(cbn; lia)).
    split; [done|]. change [8; 32; 8] with ([u8 8] ++ [u8 32] ++ [u8 8]).
    eapply wrote_bytes_app; [apply send_wrote|]. eapply wrote_bytes_app; apply send_wrote.
  - exists (send c (uart0 s)). split; [by apply uartputc_sync_eq|apply send_wrote].
Qed.

Lemma dev_ok_wrote bs s u : dev_ok s → wrote_bytes bs (uart0 s) u → dev_ok (set_uart0 u s).
Proof. intros [Hp Hl] (_ & Hle & _). split; [done|]. cbn. lia. Qed.

(** ** The input ring *)

Definition committed (c : console) : list Z := rqueue 32 7 (cons_buf c) (cons_r c) (cons_w c).
Definition line (c : console) : list Z := rqueue 32 7 (cons_buf c) (cons_w c) (cons_e c).

Record cons_ok (c : console) : Prop := {
  cn_len : Z.of_nat (length (cons_buf c)) = INPUT_BUF;
  cn_r : 0 ≤ cons_r c < 2 ^ 32;
  cn_w : 0 ≤ cons_w c < 2 ^ 32;
  cn_e : 0 ≤ cons_e c < 2 ^ 32;
  cn_count : rcount 32 (cons_r c) (cons_w c) + rcount 32 (cons_w c) (cons_e c) ≤ INPUT_BUF;
  cn_line : 10 ∉ line c
}.

Lemma ring128 : 0 ≤ 7 ≤ 32. Proof. lia. Qed.

Lemma length_committed c : Z.of_nat (length (committed c)) = rcount 32 (cons_r c) (cons_w c).
Proof. apply (length_rqueue 32 7 ring128). Qed.

Lemma length_line c : Z.of_nat (length (line c)) = rcount 32 (cons_w c) (cons_e c).
Proof. apply (length_rqueue 32 7 ring128). Qed.

(** [cons.e - cons.r] *)
Lemma cons_total c :
  cons_ok c → u32 (cons_e c - cons_r c) = Z.of_nat (length (committed c) + length (line c)).
Proof.
  intros [C1 C2 C3 C4 C5 C6]. rewrite Nat2Z.inj_add, length_committed, length_line.
  unfold INPUT_BUF in C5. rewrite <- (rcount_add 32 7 ring128) by lia. done.
Qed.

Lemma line_empty c : cons_ok c → cons_e c = cons_w c ↔ line c = [].
Proof.
  intros [C1 C2 C3 C4 C5 C6]. rewrite (symmetry_iff (=)), <- (rcount_zero 32 7 ring128) by done.
  rewrite <- length_line. destruct (line c); cbn; [done|]. split; [lia|done].
Qed.

(** Erasing the last character of the line. *)
Definition erase (c : console) : console := set_cons_e (u32 (cons_e c - 1)) c.

Lemma erase_ok c :
  cons_ok c → line c ≠ [] →
  line c = line (erase c) ++ [cons_buf c !!! Z.to_nat (u32 (cons_e c - 1) `mod` INPUT_BUF)] ∧
  committed (erase c) = committed c ∧ cons_ok (erase c).
Proof.
  intros Hok Hne. pose proof Hok as [C1 C2 C3 C4 C5 C6].
  assert (0 < rcount 32 (cons_w c) (cons_e c)) as Hc.
  { rewrite <- length_line. destruct (line c); [done|cbn; lia]. }
  assert (u32 (cons_e c - 1) = (cons_e c - 1) `mod` 2 ^ 32) as E by done.
  assert (line c = line (erase c) ++ [cons_buf c !!! Z.to_nat (u32 (cons_e c - 1) `mod` INPUT_BUF)]) as El.
  { unfold line, erase. cbn. rewrite E, rqueue_wrap_r. change INPUT_BUF with (2 ^ 7).
    fold (rslot 7 ((cons_e c - 1) `mod` 2 ^ 32)). rewrite (rslot_wrap 32 7 ring128).
    by apply (rqueue_unpush 32 7 ring128). }
  split_and!; [done|done|]. split; cbn; try done.
  - rewrite E. apply Z.mod_pos_bound. lia.
  - rewrite E, rcount_wrap_r, (rcount_unpush 32 7 ring128) by done. lia.
  - intros Hin. apply C6. rewrite El. apply elem_of_app. by left.
Qed.

(** Storing a character at the end of the line. *)
Definition store (x : Z) (c : console) : console :=
  set_cons_e (u32 (cons_e c + 1))
    (set_cons_buf (<[Z.to_nat (cons_e c `mod` INPUT_BUF) := u8 x]> (cons_buf c)) c).

Lemma store_ok x c :
  cons_ok c → (length (committed c) + length (line c) < 128)%nat →
  line (store x c) = line c ++ [u8 x] ∧ committed (store x c) = committed c ∧
  cons_e (store x c) = u32 (cons_e c + 1) ∧
  rcount 32 (cons_r c) (cons_w c) + rcount 32 (cons_w c) (cons_e (store x c)) ≤ INPUT_BUF ∧
  (u8 x ≠ 10 → cons_ok (store x c)).
Proof.
  intros Hok Hlt. pose proof Hok as [C1 C2 C3 C4 C5 C6]. pose proof (length_committed c). pose proof (length_line c).
  unfold INPUT_BUF in *.
  assert (u32 (cons_e c + 1) = (cons_e c + 1) `mod` 2 ^ 32) as E by done.
  assert (line (store x c) = line c ++ [u8 x]) as El.
  { unfold line, store. cbn. rewrite E, rqueue_wrap_r. change INPUT_BUF with (2 ^ 7). fold (rslot 7 (cons_e c)).
    apply (rqueue_push 32 7 ring128); lia. }
  assert (committed (store x c) = committed c) as Ec.
  { unfold committed, store. cbn. change INPUT_BUF with (2 ^ 7). fold (rslot 7 (cons_e c)).
    apply (rqueue_store 32 7 ring128); rewrite (rcount_add 32 7 ring128 (cons_r c) (cons_w c) (cons_e c)) by lia; lia. }
  assert (rcount 32 (cons_r c) (cons_w c) + rcount 32 (cons_w c) (cons_e (store x c)) ≤ 128) as Hcnt.
  { cbn. rewrite E, rcount_wrap_r, (rcount_push 32 7 ring128) by lia. lia. }
  split_and!; try done. intros Hx. split; cbn; try done.
  - by rewrite length_insert.
  - rewrite E. apply Z.mod_pos_bound. lia.
  - rewrite El. intros [Hin|Hin%list_elem_of_singleton]%elem_of_app; done.
Qed.

(** Making the line available to readers. *)
Definition commit_line (c : console) : console := set_cons_w (cons_e c) c.

Lemma commit_line_ok c :
  Z.of_nat (length (cons_buf c)) = INPUT_BUF → 0 ≤ cons_r c < 2 ^ 32 → 0 ≤ cons_e c < 2 ^ 32 →
  rcount 32 (cons_r c) (cons_w c) + rcount 32 (cons_w c) (cons_e c) ≤ INPUT_BUF →
  committed (commit_line c) = committed c ++ line c ∧ line (commit_line c) = [] ∧ cons_ok (commit_line c).
Proof.
  intros C1 C2 C4 C5. unfold INPUT_BUF in C5.
  assert (rcount 32 (cons_e c) (cons_e c) = 0) as Ez by (unfold rcount; by rewrite Z.sub_diag).
  assert (line (commit_line c) = []) as El.
  { unfold line, rqueue. cbn. by rewrite Ez. }
  split_and!; [|done|].
  - apply (rqueue_app 32 7 ring128). cbn. lia.
  - split; cbn; try done.
    + rewrite Ez. rewrite (rcount_add 32 7 ring128 _ (cons_w c)) by lia. unfold INPUT_BUF. lia.
    + rewrite El. apply not_elem_of_nil.
Qed.

(** ** The line editor *)

(** The reaction to character [x] of an editor with the committed bytes [d]
    and the line [l]. *)
Definition edit (x : Z) (d l : list Z) : list Z * list Z :=
  if x =? C_U then (d, [])
  else if (x =? C_H) || (x =? 127) then (d, take (pred (length l)) l)
  else if (x =? 0) || bool_decide (128 ≤ length d + length l)%nat then (d, l)
  else
    let x := if x =? 13 then 10 else x in
    if (x =? 10) || (x =? C_D) || bool_decide (length d + length l + 1 = 128)%nat
    then (d ++ l ++ [x], []) else (d, l ++ [x]).

(** What is sent to the screen. *)
Definition display (x : Z) (d l : list Z) : list Z :=
  if x =? C_U then mjoin (replicate (length l) [8; 32; 8])
  else if (x =? C_H) || (x =? 127) then if decide (l = []) then [] else [8; 32; 8]
  else if (x =? 0) || bool_decide (128 ≤ length d + length l)%nat then []
  else [if x =? 13 then 10 else x].

(** The state [s] with another console and UART. *)
Definition at_cons (c : console) (u : uart) (s : kernel) : kernel := set_cons c (set_uart0 u s).

Lemma consputc_at c u s x :
  hart_ok s → dev_ok (set_uart0 u s) →
  ∃ u', consputc x (at_cons c u s) = Ret tt (at_cons c u' s) ∧ wrote_bytes (echoed x) u u' ∧ dev_ok (set_uart0 u' s).
Proof.
  intros Hh Hd. destruct (consputc_runs (at_cons c u s) x Hh Hd) as (u' & E & Hw).
  exists u'. split_and!; [done|done|]. by eapply (dev_ok_wrote _ (set_uart0 u s)).
Qed.

(** Control-U erases the line. *)
Lemma kill_line_runs c u s :
  hart_ok s → dev_ok (set_uart0 u s) → cons_ok c →
  runs (loop kill_line_step tt) (at_cons c u s) (λ _ s2, ∃ c' u', s2 = at_cons c' u' s ∧ cons_ok c' ∧
    committed c' = committed c ∧ line c' = [] ∧ cons_r c' = cons_r c ∧
    wrote_bytes (mjoin (replicate (length (line c)) [8; 32; 8])) u u').
Proof.
  intros Hh Hd Hok.
  apply (runs_loop_state (λ _ s2, ∃ c' u' k, s2 = at_cons c' u' s ∧ dev_ok (set_uart0 u' s) ∧ cons_ok c' ∧
    committed c' = committed c ∧ cons_r c' = cons_r c ∧ length (line c) = (k + length (line c'))%nat ∧
    wrote_bytes (mjoin (replicate k [8; 32; 8])) u u') (λ _ s2, length (line (cons s2)))).
  - cbn. pose proof (length_line c). pose proof (rcount_range 32 7 ring128 (cons_w c) (cons_e c)). lia.
  - exists c, u, 0%nat. split_and!; try done. apply wrote_bytes_nil.
  - intros [] s2 (c' & u' & k & -> & Hd' & Hok' & Hc & Hr & Hk & Hw). unfold kill_line_step.
    apply runs_gets. cbv beta. change (cons (at_cons c' u' s)) with c'.
    destruct (decide (line c' = [])) as [El|El].
    + assert (cons_e c' = cons_w c') as Ee by by apply line_empty. rewrite (proj2 (Z.eqb_eq _ _) Ee). cbn [negb andb].
      apply runs_ret. exists c', u'. rewrite El in Hk. cbn in Hk. rewrite Nat.add_0_r in Hk. rewrite Hk. done.
    + assert (cons_e c' ≠ cons_w c') as Ee by (intros ?%line_empty; done).
      destruct (erase_ok c' Hok' El) as (Eq & Hc2 & Hok2). set (x := cons_buf c' !!! _) in *.
      assert (x ≠ 10) as Hx.
      { intros Hx. apply (cn_line _ Hok'). rewrite Eq, Hx. apply elem_of_app. right. by left. }
      rewrite (proj2 (Z.eqb_neq _ _) Ee), (proj2 (Z.eqb_neq _ _) Hx). cbn [negb andb]. apply runs_modify.
      change (upd_cons _ (at_cons c' u' s)) with (at_cons (erase c') u' s).
      destruct (consputc_at (erase c') u' s BACKSPACE Hh Hd') as (u2 & E2 & Hw2 & Hd2).
      eapply runs_eq; [exact E2|]. apply runs_ret.
      assert (length (line c') = S (length (line (erase c')))) as Hlen by (rewrite Eq, length_app; cbn; lia).
      split; [|cbn; lia]. exists (erase c'), u2, (S k). split; [done|]. split; [done|]. split; [done|].
      split; [congruence|]. split; [done|]. split; [lia|].
      replace (mjoin (replicate (S k) [8; 32; 8])) with (mjoin (replicate k [8; 32; 8]) ++ [8; 32; 8]).
      * by eapply wrote_bytes_app.
      * rewrite replicate_S_end, join_app. done.
Qed.

(** The console, UART and processes after the interrupt. *)
Record edited (x : Z) (m : option nat) (c : console) (u : uart) (ps : list proc)
    (c' : console) (u' : uart) (ps' : list proc) : Prop := {
  ed_ok : cons_ok c';
  ed_view : (committed c', line c') = edit x (committed c) (line c);
  ed_r : cons_r c' = cons_r c;
  ed_echo : wrote_bytes (display x (committed c) (line c)) u u';
  ed_procs : ps' = if decide (committed c' = committed c) then ps else woken (Some ChCons) m ps
}.

Lemma set_procs_at c u s : at_cons c u s = set_procs (procs s) (at_cons c u s).
Proof. by destruct s. Qed.

Lemma erase_runs x m c u s :
  hart_ok s → dev_ok (set_uart0 u s) → cons_ok c → (x =? C_H) || (x =? 127) = true → x ≠ C_U →
  runs (let! cn := gets cons in
        when (negb (cons_e cn =? cons_w cn))
          (modify (upd_cons (λ cn, set_cons_e (u32 (cons_e cn - 1)) cn)) ;;;
           consputc BACKSPACE)) (at_cons c u s)
    (λ _ s2, ∃ c' u' ps, s2 = set_procs ps (at_cons c' u' s) ∧ edited x m c u (procs s) c' u' ps).
Proof.
  intros Hh Hd Hok Hx Hu. apply runs_gets. cbv beta. change (cons (at_cons c u s)) with c.
  destruct (decide (line c = [])) as [El|El].
  - assert (cons_e c = cons_w c) as Ee by by apply line_empty. rewrite (proj2 (Z.eqb_eq _ _) Ee). cbn [negb when].
    apply runs_ret. exists c, u, (procs s). split; [apply set_procs_at|].
    split; [done| |done| |by rewrite decide_True].
    + unfold edit. rewrite (proj2 (Z.eqb_neq _ _) Hu), Hx, El. done.
    + unfold display. rewrite (proj2 (Z.eqb_neq _ _) Hu), Hx, decide_True by done. apply wrote_bytes_nil.
  - assert (cons_e c ≠ cons_w c) as Ee by (intros ?%line_empty; done).
    destruct (erase_ok c Hok El) as (Eq & Hc2 & Hok2).
    rewrite (proj2 (Z.eqb_neq _ _) Ee). cbn [negb when]. apply runs_modify.
    change (upd_cons _ (at_cons c u s)) with (at_cons (erase c) u s).
    destruct (consputc_at (erase c) u s BACKSPACE Hh Hd) as (u2 & E2 & Hw2 & Hd2).
    eapply runs_eq_last; [exact E2|]. exists (erase c), u2, (procs s). split; [apply set_procs_at|].
    split; [done| |done| |by rewrite decide_True].
    + unfold edit. rewrite (proj2 (Z.eqb_neq _ _) Hu), Hx, Hc2. f_equal. rewrite Eq, length_app. cbn.
      rewrite Nat.add_1_r. cbn. by rewrite take_app_length.
    + unfold display. by rewrite (proj2 (Z.eqb_neq _ _) Hu), Hx, decide_False by done.
Qed.

(** [cons.e == cons.r + INPUT_BUF] *)
Lemma cons_full c :
  0 ≤ cons_r c < 2 ^ 32 → 0 ≤ cons_e c < 2 ^ 32 →
  rcount 32 (cons_r c) (cons_w c) + rcount 32 (cons_w c) (cons_e c) ≤ INPUT_BUF →
  (cons_e c =? u32 (cons_r c + INPUT_BUF)) = bool_decide (length (committed c) + length (line c) = 128)%nat.
Proof.
  intros Hr He Hc. unfold INPUT_BUF in *. pose proof (length_committed c). pose proof (length_line c).
  assert (cons_e c = u32 (cons_r c + 128) ↔ (length (committed c) + length (line c) = 128)%nat) as Hiff.
  { rewrite (rcount_full 32 7 ring128 (cons_r c) (cons_e c) 128) by lia.
    rewrite (rcount_add 32 7 ring128 _ (cons_w c)) by lia. lia. }
  destruct (Z.eqb_spec (cons_e c) (u32 (cons_r c + 128))) as [E|E]; symmetry.
  - by apply bool_decide_eq_true_2, Hiff.
  - apply bool_decide_eq_false_2. by rewrite <- Hiff.
Qed.

(** The test for an empty character and for room. *)
Lemma room_test x c :
  cons_ok c →
  negb (x =? 0) && (u32 (cons_e c - cons_r c) <? INPUT_BUF) =
  negb ((x =? 0) || bool_decide (128 ≤ length (committed c) + length (line c))%nat).
Proof.
  intros Hok. rewrite (cons_total c Hok), negb_orb. f_equal. unfold INPUT_BUF.
  case_bool_decide; cbn; [apply Z.ltb_ge|apply Z.ltb_lt]; lia.
Qed.

(** The editor on a character that is stored. *)
Lemma edit_stored x d l :
  x ≠ C_U → (x =? C_H) || (x =? 127) = false → (x =? 0) || bool_decide (128 ≤ length d + length l)%nat = false →
  let x' := if x =? 13 then 10 else x in
  display x d l = [x'] ∧
  edit x d l = if (x' =? 10) || (x' =? C_D) || bool_decide (length d + length l + 1 = 128)%nat
               then (d ++ l ++ [x'], []) else (d, l ++ [x']).
Proof.
  intros Hu Hh Eb x'. unfold display, edit. by rewrite (proj2 (Z.eqb_neq _ _) Hu), Hh, Eb.
Qed.

(** A character that is ignored. *)
Lemma edited_ignored x m c u ps :
  cons_ok c → x ≠ C_U → (x =? C_H) || (x =? 127) = false →
  (x =? 0) || bool_decide (128 ≤ length (committed c) + length (line c))%nat = true →
  edited x m c u ps c u ps.
Proof.
  intros Hok Hu Hh Eb. split; [done| |done| |by rewrite decide_True].
  - unfold edit. by rewrite (proj2 (Z.eqb_neq _ _) Hu), Hh, Eb.
  - unfold display. rewrite (proj2 (Z.eqb_neq _ _) Hu), Hh, Eb. apply wrote_bytes_nil.
Qed.

Lemma default_runs x s c u :
  hart_free s → dev_ok (set_uart0 u s) → cons_ok c → 0 ≤ x < 256 →
  x ≠ C_U → (x =? C_H) || (x =? 127) = false →
  runs (consoleintr_default x) (at_cons c u (enter LkCons s))
    (λ _ s2, ∃ c' u' ps, s2 = set_procs ps (at_cons c' u' (enter LkCons s)) ∧
       edited x (me s) c u (procs s) c' u' ps).
Proof.
  intros Hf Hd Hok Hx Hu Hh. set (s1 := enter LkCons s). unfold consoleintr_default.
  apply runs_gets. cbv beta. change (cons (at_cons c u s1)) with c. rewrite (room_test x c Hok).
  assert (hart_ok s1) as Hh1 by (apply (hart_ok_inside LkCons s); [apply Hf|done]).
  destruct ((x =? 0) || _) eqn:Eb; cbn [negb when].
  { apply runs_ret. exists c, u, (procs s). split; [apply (set_procs_at c u s1)|by apply edited_ignored]. }
  destruct (edit_stored x _ _ Hu Hh Eb) as [Edi Eed]. cbv zeta in Edi, Eed.
  set (x' := if x =? 13 then 10 else x) in *.
  assert (0 ≤ x' < 256) as Hx' by (unfold x'; destruct (x =? 13); lia).
  apply orb_false_iff in Eb as [_ Hroom%bool_decide_eq_false].
  destruct (consputc_at c u s1 x' Hh1 Hd) as (u1 & E1 & Hw1 & Hd1). eapply runs_eq; [exact E1|].
  assert (echoed x' = [x']) as Ee.
  { unfold echoed. rewrite (proj2 (Z.eqb_neq _ _)) by (unfold BACKSPACE; lia). by rewrite u8_small. }
  rewrite Ee in Hw1. apply runs_modify. apply runs_modify.
  destruct (store_ok x' c Hok ltac:(lia)) as (Sl & Sc & Se & Scnt & Sok). rewrite u8_small in Sl, Sok by done.
  set (c1 := store x' c) in *. change (upd_cons _ (upd_cons _ (at_cons c u1 s1))) with (at_cons c1 u1 s1).
  apply runs_gets. cbv beta. change (cons (at_cons c1 u1 s1)) with c1. pose proof Hok as [C1 C2 C3 C4 C5 C6].
  assert (0 ≤ cons_e c1 < 2 ^ 32) as He1 by (rewrite Se; apply u32_range).
  rewrite (cons_full c1 C2 He1 Scnt). rewrite Sl, Sc, length_app. cbn [length]. rewrite Nat.add_assoc.
  destruct ((x' =? 10) || _ || _) eqn:Ecm; cbn [when].
  - apply runs_modify. change (upd_cons _ (at_cons c1 u1 s1)) with (at_cons (commit_line c1) u1 s1).
    destruct (commit_line_ok c1) as (K1 & K2 & K3); [cbn; by rewrite length_insert|done|done|done|].
    eapply runs_eq_last; [apply (wakeup_hart LkCons s); [done|done|done|apply Hf]|].
    eexists _, _, _. split; [reflexivity|]. rewrite Sl, Sc in K1.
    split; [done|by rewrite K1, K2, Eed|done|by rewrite Edi|].
    rewrite decide_False; [done|]. rewrite K1. intros E. apply (f_equal length) in E.
    rewrite !length_app in E. cbn in E. lia.
  - apply runs_ret. exists c1, u1, (procs s). split; [apply (set_procs_at c1 u1 s1)|].
    apply orb_false_iff in Ecm as [[Ex _]%orb_false_iff _]. apply Z.eqb_neq in Ex.
    split; [by apply Sok|by rewrite Sl, Sc, Eed|done|by rewrite Edi|by rewrite decide_True].
Qed.

Section spec.
Context `{KernelLayout}.

Lemma consoleintr_char_runs x s c u :
  hart_free s → dev_ok (set_uart0 u s) → cons_ok c → 0 ≤ x < 256 → x ≠ C_P →
  runs (consoleintr_char x) (at_cons c u (enter LkCons s))
    (λ _ s2, ∃ c' u' ps, s2 = set_procs ps (at_cons c' u' (enter LkCons s)) ∧
       edited x (me s) c u (procs s) c' u' ps).
Proof.
  intros Hf Hd Hok Hx Hp. set (s1 := enter LkCons s).
  assert (hart_ok s1) as Hh1 by (apply (hart_ok_inside LkCons s); [apply Hf|done]).
  unfold consoleintr_char. rewrite (proj2 (Z.eqb_neq _ _) Hp).
  destruct (Z.eqb_spec x C_U) as [->|Hu]; [|destruct ((x =? C_H) || (x =? 127)) eqn:Eh].
  - eapply runs_mono; [by apply (kill_line_runs c u s1)|].
    intros [] s2 (c' & u' & -> & Hok' & Hc & Hl & Hr & Hw). exists c', u', (procs s).
    split; [apply (set_procs_at c' u' s1)|]. split; [done|by rewrite Hc, Hl|done|done|by rewrite decide_True].
  - by apply (erase_runs x (me s) c u s1).
  - by apply default_runs.
Qed.

(** C17: on any character but Control-P, [consoleintr] does to
    the input ring what the line editor does to lists: erasing a character or
    the line, storing the character while there is room, and committing the
    line at its end.  The echo on the device is what the editor displays, and
    the readers are woken exactly when bytes became available. *)
Theorem consoleintr_spec x s :
  hart_free s → dev_ok s → cons_ok (cons s) → 0 ≤ x < 256 → x ≠ C_P →
  ∃ c' u' ps, consoleintr x s = Ret tt (set_procs ps (at_cons c' u' s)) ∧
    cons_ok c' ∧ (committed c', line c') = edit x (committed (cons s)) (line (cons s)) ∧
    cons_r c' = cons_r (cons s) ∧
    thr u' = thr (uart0 s) ++ display x (committed (cons s)) (line (cons s)) ∧
    ps = if decide (committed c' = committed (cons s)) then procs s
         else woken (Some ChCons) (me s) (procs s).
Proof.
  intros Hf Hd Hok Hx Hp. pose proof (hf_hart s Hf) as Hh.
  assert (lock_free s LkCons) as Hl by (apply Hf, all_locks_named; set_solver).
  destruct (consoleintr_char_runs x s (cons s) (uart0 s) Hf) as ([] & s2 & E & c' & u' & ps & -> & [D1 D2 D3 D4 D5]);
    [by rewrite set_uart0_id|done|done|done|].
  exists c', u', ps. split_and!; [|done|done|done|apply D4|done].
  assert (at_cons (cons s) (uart0 s) (enter LkCons s) = enter LkCons s) as Es by (by destruct s).
  rewrite Es in E. unfold consoleintr. run (acquire_ok s _ Hh Hl).
  run E. set (s3 := set_procs ps _).
  rewrite (release_enter s s3 LkCons Hh Hl eq_refl eq_refl eq_refl). unfold s3. by destruct s.
Qed.

(** ** consoleread *)

(** The bytes a reader of at most [n] bytes gets from the committed bytes [q],
    and what is left of them: up to the end of a line, or up to Control-D,
    which is kept for the next read when it is not the first byte.  [None] when
    the reader would have to wait. *)
Fixpoint take_line (started : bool) (n : nat) (q : list Z) : option (list Z * list Z) :=
  match n, q with
  | O, _ => Some ([], q)
  | S _, [] => None
  | S n', c :: q' =>
      if c =? C_D then Some ([], if started then q else q')
      else if c =? 10 then Some ([c], q')
      else match take_line true n' q' with
           | Some (bs, rest) => Some (c :: bs, rest)
           | None => None
           end
  end.

Definition read_char (c : console) : console := set_cons_r (u32 (cons_r c + 1)) c.

Lemma read_char_ok c x q :
  cons_ok c → committed c = x :: q →
  cons_r c ≠ cons_w c ∧ cons_buf c !!! Z.to_nat (cons_r c `mod` INPUT_BUF) = x ∧
  cons_ok (read_char c) ∧ committed (read_char c) = q ∧ line (read_char c) = line c ∧
  set_cons_r (u32 (cons_r (read_char c) - 1)) (read_char c) = c.
Proof.
  intros Hok Eq. pose proof Hok as [C1 C2 C3 C4 C5 C6].
  assert (0 < rcount 32 (cons_r c) (cons_w c)) as Hc by (rewrite <- length_committed, Eq; cbn; lia).
  assert (u32 (cons_r c + 1) = (cons_r c + 1) `mod` 2 ^ 32) as E by done.
  assert (committed c = cons_buf c !!! Z.to_nat (cons_r c `mod` INPUT_BUF) :: committed (read_char c)) as Ep.
  { unfold committed, read_char. cbn. rewrite E, (rqueue_wrap_l 32 7 ring128).
    change INPUT_BUF with (2 ^ 7). fold (rslot 7 (cons_r c)). by apply (rqueue_pop 32 7 ring128). }
  rewrite Eq in Ep. injection Ep as <- <-. split; [|split; [done|split; [|split; [done|split; [done|]]]]].
  - intros E2. unfold rcount in Hc. rewrite E2, Z.sub_diag in Hc. done.
  - split; cbn; try done; [rewrite E; apply Z.mod_pos_bound; lia|].
    rewrite E, rcount_wrap_l, (rcount_pop 32 7 ring128) by done. lia.
  - unfold read_char. cbn. rewrite E. unfold u32. rewrite Zminus_mod_idemp_l.
    replace (cons_r c + 1 - 1) with (cons_r c) by lia. rewrite Z.mod_small by done. by destruct c.
Qed.

Context `{!LayoutOk}.

(** The state of a reader in the critical section. *)
Definition reading (c : console) (m : mem) (s : kernel) : kernel := set_cons c (with_mem s m (freelist s)).

(** One byte delivered to the user. *)
Lemma either_copyout_byte p s1 root l np va x :
  myproc s1 = Ret (Some p) s1 → p_pagetable (getproc p s1) = root →
  uspace (physmem s1) (freelist s1) root l np → 0 ≤ va < 2 ^ 64 →
  either_copyout (DstUser va) [x] s1 =
    Ret (uwrite (physmem s1) root va [x]).1 (with_mem s1 (uwrite (physmem s1) root va [x]).2 (freelist s1)).
Proof.
  intros Hp Hroot Hus Hva. unfold either_copyout. run Hp.
  rewrite (bind_Ret _ _ _ p s1) by done. rewrite (bind_Ret _ _ _ root s1) by (unfold pget, gets; by rewrite Hroot).
  apply (copyout_eq s1 root l np va [x]); [done|done|cbn; lia].
Qed.

(** A reader [p] with the address space at [root]. *)
Record reader (p : nat) (root : Z) (l : list Z) (np : nat) (s1 : kernel) (c : console) (m : mem) : Prop := {
  rd_hart : hart_ok s1;
  rd_proc : c_proc (mycpu s1) = Some p;
  rd_root : p_pagetable (getproc p s1) = root;
  rd_space : uspace m (freelist s1) root l np;
  rd_cons : cons_ok c
}.

Lemma consoleread_step_eq p root l np s1 c m target va n x q :
  reader p root l np s1 c m → committed c = x :: q → 0 ≤ va < 2 ^ 64 → 0 < n < 2 ^ 31 →
  upa m root va ≠ 0 →
  let m' := st m (upa m root va + va mod PGSIZE) x in
  consoleread_step target (DstUser va, n) (reading c m s1) =
    if x =? C_D then Ret (inr (Some n)) (reading (if n <? target then c else read_char c) m s1)
    else if x =? 10 then Ret (inr (Some (n - 1))) (reading (read_char c) m' s1)
    else Ret (inl (DstUser (u64 (va + 1)), n - 1)) (reading (read_char c) m' s1).
Proof.
  intros [Hh Hp Hroot Hus Hok] Eq Hva Hn Hu m'. destruct (read_char_ok c x q Hok Eq) as (R1 & R2 & R3 & R4 & R5 & R6).
  unfold consoleread_step. rewrite (proj2 (Z.gtb_lt n 0)) by lia.
  rewrite (bind_Ret _ _ _ false (reading c m s1)).
  2:{ apply (loop_Ret _ 1); [lia|]. apply run_n_stop. unfold consoleread_wait, bind at 1, gets. cbn [obind].
      change (cons (reading c m s1)) with c. by rewrite (proj2 (Z.eqb_neq _ _) R1). }
  cbv beta iota. rewrite (bind_Ret _ _ _ c (reading c m s1)) by done. rewrite R2.
  rewrite (bind_Ret _ _ _ tt (reading (read_char c) m s1)) by done.
  destruct (x =? C_D).
  - rewrite u32_small by lia. destruct (n <? target); cbn [when]; [|done].
    rewrite (bind_Ret _ _ _ tt (reading c m s1)); [done|]. unfold modify.
    change (upd_cons _ (reading (read_char c) m s1)) with
      (reading (set_cons_r (u32 (cons_r (read_char c) - 1)) (read_char c)) m s1). by rewrite R6.
  - rewrite (bind_Ret _ _ _ 0 (reading (read_char c) m' s1)).
    2:{ rewrite (either_copyout_byte p _ root l np va x); [|by rewrite myproc_eq, <- Hp by done|done|done|done].
        cbn [uwrite physmem reading set_cons with_mem set_freelist set_physmem].
        by rewrite (proj2 (Z.eqb_neq _ _) Hu). }
    cbn [Z.eqb dst_add]. by destruct (x =? 10).
Qed.

(** Reading [n] bytes at most, from the state in which [started] tells
    whether some bytes have been delivered. *)
Lemma consoleread_run n started p root l np s1 c m target va bs rest :
  reader p root l np s1 c m → 0 ≤ va → va + Z.of_nat n < 2 ^ 64 → Z.of_nat n < 2 ^ 31 →
  (∀ i, 0 ≤ i < Z.of_nat n → upa m root (va + i) ≠ 0) →
  started = (Z.of_nat n <? target) → (n ≠ 0%nat → Z.of_nat n ≤ target) →
  take_line started n (committed c) = Some (bs, rest) →
  ∃ c', run_n (S n) (consoleread_step target) (DstUser va, Z.of_nat n) (reading c m s1) =
      Ret (inr (Some (Z.of_nat n - Z.of_nat (length bs)))) (reading c' (uwrite m root va bs).2 s1) ∧
    cons_ok c' ∧ committed c' = rest ∧ line c' = line c.
Proof.
  revert started c m va bs rest. induction n as [|n IH]; intros started c m va bs rest Hr Hva Hlt Hn Hacc Hst Htg Etl.
  - cbn in Etl. injection Etl as <- <-. exists c. split_and!; [|apply Hr|done|done]. apply run_n_stop. done.
  - destruct (committed c) as [|x q] eqn:Eq; cbn [take_line] in Etl; [done|].
    pose proof (Hacc 0 ltac:(lia)) as Hu. rewrite Z.add_0_r in Hu.
    pose proof (consoleread_step_eq p root l np s1 c m target va (Z.of_nat (S n)) x q Hr Eq ltac:(lia) ltac:(lia) Hu) as Es.
    cbv zeta in Es. set (m' := st m _ x) in Es.
    destruct (read_char_ok c x q (rd_cons _ _ _ _ _ _ _ Hr) Eq) as (R1 & R2 & R3 & R4 & R5 & R6).
    destruct (x =? C_D).
    { injection Etl as <- <-. rewrite <- Hst in Es. exists (if started then c else read_char c).
      rewrite (run_n_stop _ _ _ _ _ _ Es). cbn [length Z.of_nat uwrite snd]. rewrite Z.sub_0_r.
      split_and!; [done|destruct started; [apply Hr|done]|by destruct started|by destruct started]. }
    destruct (x =? 10).
    { injection Etl as <- <-. exists (read_char c). rewrite (run_n_stop _ _ _ _ _ _ Es). cbn [uwrite length].
      rewrite (proj2 (Z.eqb_neq _ _) Hu). split_and!; done. }
    destruct (take_line true n q) as [[bs' rest']|] eqn:Et; [|done]. injection Etl as <- <-.
    destruct Hr as [Hh Hp Hroot Hus Hok]. destruct (uspace_st m (freelist s1) root l np va x Hus Hva Hu) as [Hus' Hleaf].
    destruct (IH true (read_char c) m' (va + 1) bs' rest') as (c' & Er & Hc1 & Hc2 & Hc3).
    + by split.
    + lia.
    + lia.
    + lia.
    + intros i Hi. rewrite (upa_leaf _ _ _ Hleaf). replace (va + 1 + i) with (va + (i + 1)) by lia. apply Hacc. lia.
    + specialize (Htg ltac:(lia)). symmetry. apply Z.ltb_lt. lia.
    + specialize (Htg ltac:(lia)). lia.
    + by rewrite R4.
    + exists c'. rewrite (run_n_next _ _ _ _ _ _ Es). rewrite u64_small by lia.
      replace (Z.of_nat (S n) - 1) with (Z.of_nat n) by lia. rewrite Er. cbn [uwrite length].
      rewrite (proj2 (Z.eqb_neq _ _) Hu). fold m'. split_and!; [|done|done|congruence].
      do 3 f_equal. lia.
Qed.

Lemma take_line_length started n q bs rest : take_line started n q = Some (bs, rest) → (length bs ≤ n)%nat.
Proof.
  revert started q bs rest. induction n as [|n IH]; intros started q bs rest E; cbn in E.
  - injection E as <- <-. cbn. lia.
  - destruct q as [|c q]; [done|]. destruct (c =? C_D); [injection E as <- <-; cbn; lia|].
    destruct (c =? 10); [injection E as <- <-; cbn; lia|].
    destruct (take_line true n q) as [[bs' rest']|] eqn:E'; [|done]. injection E as <- <-.
    apply IH in E'. cbn. lia.
Qed.

(** C36: when enough input is committed, [consoleread]
    delivers a line of it, or the first [n] bytes of it, or what precedes
    Control-D, to the user's buffer and returns the number of bytes; the rest
    stays for the next reader. *)
Theorem consoleread_spec p root l np s va n bs rest :
  thread_ok p s → p_pagetable (getproc p s) = root → uspace (physmem s) (freelist s) root l np →
  cons_ok (cons s) → 0 ≤ va → 0 ≤ n < 2 ^ 31 → va + n < 2 ^ 64 →
  (∀ i, 0 ≤ i < n → upa (physmem s) root (va + i) ≠ 0) →
  take_line false (Z.to_nat n) (committed (cons s)) = Some (bs, rest) →
  ∃ c' m', consoleread (DstUser va) n s = Ret (Z.of_nat (length bs)) (reading c' m' s) ∧
    cons_ok c' ∧ committed c' = rest ∧ line c' = line (cons s) ∧
    uread m' root va (length bs) = (0, u8 <$> bs).
Proof.
  intros Ht Hroot Hus Hok Hva Hn Hlt Hacc Etl. pose proof (th_hart p s Ht) as Hh.
  assert (lock_free s LkCons) as Hl by (apply Ht, all_locks_named; set_solver).
  pose proof (take_line_length _ _ _ _ _ Etl) as Hlen. set (s1 := enter LkCons s).
  destruct (consoleread_run (Z.to_nat n) false p root l np s1 (cons s) (physmem s) n va bs rest)
    as (c' & Er & Hc1 & Hc2 & Hc3); rewrite ?Z2Nat.id in * by lia; try done; try lia.
  { split; [by apply (hart_ok_inside LkCons s)| |done|done|done].
    rewrite (c_proc_inside LkCons s s1); [apply Ht|done|done]. }
  exists c', (uwrite (physmem s) root va bs).2. split; [|split_and!; [done..|]].
  - unfold consoleread. run (acquire_ok s _ Hh Hl). fold s1.
    assert (s1 = reading (cons s) (physmem s) s1) as Es by (unfold s1; by destruct s).
    rewrite u32_small by lia. rewrite Es at 1.
    run (loop_Ret _ (S (Z.to_nat n)) _ _ _ _ ltac:(lia) Er).
    cbv beta iota. set (s2 := reading c' _ s1).
    run (release_enter s s2 LkCons Hh Hl eq_refl eq_refl eq_refl).
    unfold ret, s2, s1. f_equal. rewrite s32_small by lia. lia.
  - destruct (uwrite (physmem s) root va bs) as [r m'] eqn:Ew.
    destruct (uwrite_spec _ (freelist s) root l np va bs r m' Hus Hva Ew)
      as (_ & Hleaf & _ & [[_ Hw]|(_ & k & Hk & Hk0)]); [|exfalso; eapply Hacc; [|exact Hk0]; lia].
    rewrite <- (length_fmap u8). apply uread_ok. intros i x Hx. apply list_lookup_fmap_Some in Hx as (x' & -> & Hx).
    destruct (Hw i x' Hx) as [Hu Hl']. unfold uaddr in *. cbn. by rewrite (upa_leaf _ _ _ Hleaf).
Qed.
End spec.

(** ** Witnesses *)

Lemma boot_cons_ok : cons_ok (cons boot).
Proof.
  split; [reflexivity|split; [done|reflexivity]..|by apply Zle_bool_imp_le|apply not_elem_of_nil].
Qed.

(** Typing a newline commits an empty line. *)
Lemma consoleintr_spec_witness :
  ∃ c' u' ps, consoleintr 13 boot = Ret tt (set_procs ps (at_cons c' u' boot)) ∧
    committed c' = [10] ∧ line c' = [] ∧ thr u' = [10].
Proof.
  destruct (consoleintr_spec 13 boot boot_hart_free) as (c' & u' & ps & E & _ & Hv & _ & Ht & _).
  - split; reflexivity.
  - exact boot_cons_ok.
  - lia.
  - discriminate.
  - exists c', u', ps. injection Hv as Hc Hl. exact (conj E (conj Hc (conj Hl Ht))).
Defined.

(** A console in which "hi" and a newline have been typed, read by a process
    with one page. *)
Definition typed : console := mk_console (<[0%nat := 104]> (<[1%nat := 105]> (<[2%nat := 10]> (replicate 128 0)))) 0 3 3.

Lemma typed_ok : cons_ok typed.
Proof.
  split; [reflexivity|split; [done|reflexivity]..|by apply Zle_bool_imp_le|apply not_elem_of_nil].
Qed.

Lemma consoleread_spec_witness :
  ∃ s c' m', consoleread (DstUser 100) 20 s = Ret 3 (reading c' m' s) ∧ committed c' = [] ∧
    uread m' rootA 100 3 = (0, [104; 105; 10]).
Proof.
  destruct sample_user as (m & fl & l & US & _ & _ & Hacc & _).
  set (s := set_cons typed (with_mem (upd_proc 0 (set_p_pagetable rootA) boot_thread) m fl)).
  destruct (consoleread_spec 0 rootA l 1 s 100 20 [104; 105; 10] []) as (c' & m' & E & _ & Hc & _ & Hu).
  - eapply thread_ok_ext; [..|exact boot_thread_ok]; reflexivity.
  - reflexivity.
  - exact US.
  - exact typed_ok.
  - lia.
  - lia.
  - lia.
  - intros i Hi. apply Hacc. mlia.
  - reflexivity.
  - exists s, c', m'. exact (conj E (conj Hc Hu)).
Defined.
