(* ===== verification/PrintSpec.v ===== *)
(** * What printint and printf promise

    The characters [printint] prints for a number, read as a number in the
    same base, give the number back, and they fit the buffer of 16 bytes.
    [printf] sends the characters a reference formatter gives to the device,
    and changes nothing else. *)

From S2P Require Import Prelude Machine Memory State Spinlock Sched Runs Uart Printf Console UartSpec ConsoleSpec.

(** ** Reading numbers *)

Definition digit_value (c : Z) : Z := if c <? 58 then c - 48 else c - 87.

Definition read_digits (base : Z) (cs : list Z) : Z :=
  foldl (λ acc c, acc * base + digit_value c) 0 cs.

Definition read_number (base : Z) (cs : list Z) : Z :=
  match cs with
  | 45 :: cs' => - read_digits base cs'
  | _ => read_digits base cs
  end.

(** ** Digits *)

Lemma digit_ok d : 0 ≤ d < 16 → digit_value (digits !!! Z.to_nat d) = d ∧ 48 ≤ digits !!! Z.to_nat d < 128.
Proof.
  intros Hd. assert (Z.to_nat d ∈ seq 0 16) as Hin by (apply elem_of_seq; lia).
  rewrite <- (Z2Nat.id d) at 2 by lia. revert Hin. generalize (Z.to_nat d). intros k Hk.
  cbn in Hk. repeat (apply elem_of_cons in Hk as [->|Hk]; [done|]). by apply not_elem_of_nil in Hk.
Qed.

Lemma read_digits_snoc base cs c : read_digits base (cs ++ [c]) = read_digits base cs * base + digit_value c.
Proof. unfold read_digits. by rewrite foldl_app. Qed.

(** The loop, with fuel for every binary digit of the number. *)
Lemma printint_loop_spec fuel x base :
  2 ≤ base ≤ 16 → 0 ≤ x < 2 ^ Z.of_nat fuel → (0 < fuel)%nat →
  let cs := printint_loop fuel x base in
  read_digits base (reverse cs) = x ∧ Forall (λ c, 48 ≤ c < 128) cs ∧ cs ≠ [].
Proof.
  intros Hb. revert x. induction fuel as [|fuel IH]; intros x Hx Hf; [lia|]. cbn [printint_loop].
  pose proof (Z.mod_pos_bound x base ltac:(lia)) as Hm.
  destruct (digit_ok (x `mod` base)) as [Hv Hr]; [lia|]. pose proof (Z.div_mod x base ltac:(lia)) as Hdm.
  assert (0 ≤ x / base) as Hd0 by (apply Z.div_pos; lia).
  destruct (Z.eqb_spec (x / base) 0) as [E|E]; cbn [negb].
  - split_and!; [|by apply Forall_singleton|done].
    change (reverse [?c]) with [c]. unfold read_digits. cbn [foldl]. rewrite Hv. rewrite E in Hdm. lia.
  - assert (0 < fuel)%nat as Hf'.
    { destruct fuel; [|lia]. exfalso. apply E. apply Z.div_small. cbn in Hx. lia. }
    destruct (IH (x / base)) as (I1 & I2 & I3); [|done|].
    { split; [done|]. apply Z.div_lt_upper_bound; [lia|].
      replace (Z.of_nat (S fuel)) with (1 + Z.of_nat fuel) in Hx by lia. rewrite Z.pow_add_r in Hx by lia. nia. }
    cbv zeta in *. split_and!; [|by constructor|done].
    rewrite reverse_cons, read_digits_snoc, I1, Hv. lia.
Qed.

Lemma printint_loop_length fuel x base k :
  2 ≤ base → 0 ≤ x < base ^ Z.of_nat k → (0 < k)%nat → (length (printint_loop fuel x base) ≤ k)%nat.
Proof.
  intros Hb. revert x k. induction fuel as [|fuel IH]; intros x k Hx Hk; cbn [printint_loop length]; [lia|].
  destruct (Z.eqb_spec (x / base) 0) as [E|E]; cbn [negb length]; [lia|].
  destruct k as [|k]; [lia|]. assert (0 < k)%nat as Hk'.
  { destruct k; [|lia]. exfalso. apply E. apply Z.div_small. cbn in Hx. lia. }
  apply le_n_S, IH; [|done]. split; [apply Z.div_pos; lia|]. apply Z.div_lt_upper_bound; [lia|].
  replace (Z.of_nat (S k)) with (1 + Z.of_nat k) in Hx by lia. rewrite Z.pow_add_r in Hx by lia. lia.
Qed.

(** ** Output *)

Lemma puts_runs cs s :
  hart_ok s → dev_ok s → Forall (λ c, 0 ≤ c < 256) cs →
  ∃ u, for_each cs consputc s = Ret tt (set_uart0 u s) ∧ wrote_bytes cs (uart0 s) u.
Proof.
  intros Hh Hd Hc. revert s Hh Hd. induction Hc as [|c cs Hc Hcs IH]; intros s Hh Hd; cbn [for_each].
  - exists (uart0 s). split; [by rewrite set_uart0_id|apply wrote_bytes_nil].
  - destruct (consputc_runs s c Hh Hd) as (u1 & E1 & W1). run E1.
    destruct (IH (set_uart0 u1 s)) as (u2 & E2 & W2); [done|by eapply dev_ok_wrote|].
    exists u2. rewrite E2. split; [done|]. change (c :: cs) with ([c] ++ cs). eapply wrote_bytes_app; [|exact W2].
    unfold echoed in W1. rewrite (proj2 (Z.eqb_neq _ _)) in W1 by (unfold BACKSPACE; lia).
    by rewrite u8_small in W1 by lia.
Qed.

(** ** Formats *)

(** The characters of a pointer. *)
Fixpoint ptr_chars (n : nat) (x : Z) : list Z :=
  match n with
  | O => []
  | S n' => digits !!! Z.to_nat (Z.shiftr x 60) :: ptr_chars n' (u64 (Z.shiftl x 4))
  end.

(** What a conversion prints, and the arguments it leaves. *)
Definition conv_out (c : Z) (ap : list arg) : list Z * list arg :=
  if c =? 100 then (reverse (printint_buf (arg_int (head ap)) 10 true), tail ap)
  else if c =? 120 then (reverse (printint_buf (arg_int (head ap)) 16 true), tail ap)
  else if c =? 112 then (bytes_of "0x" ++ ptr_chars 16 (arg_ptr (head ap)), tail ap)
  else if c =? 115 then (default (bytes_of "(null)") (arg_str (head ap)), tail ap)
  else if c =? 37 then ([37], ap)
  else ([37; c], ap).

Fixpoint fmt_out (fmt : list Z) (ap : list arg) : list Z :=
  match fmt with
  | [] => []
  | c :: fmt =>
      if negb (c =? 37) then c :: fmt_out fmt ap
      else match fmt with
           | [] => []
           | c :: fmt => (conv_out c ap).1 ++ fmt_out fmt (conv_out c ap).2
           end
  end.

(** Arguments that fit their types. *)
Definition arg_ok (a : arg) : Prop :=
  match a with
  | AInt x => - 2 ^ 31 ≤ x < 2 ^ 31
  | APtr x => 0 ≤ x < 2 ^ 64
  | AStr s => Forall is_byte (default [] s)
  end.

(** A part of the kernel that only prints. *)
Definition prints (c : K unit) (cs : list Z) : Prop :=
  ∀ s, hart_ok s → dev_ok s → ∃ u, c s = Ret tt (set_uart0 u s) ∧ wrote_bytes cs (uart0 s) u.

Lemma prints_bind c1 c2 cs1 cs2 : prints c1 cs1 → prints c2 cs2 → prints (c1 ;;; c2) (cs1 ++ cs2).
Proof.
  intros H1 H2 s Hh Hd. destruct (H1 s Hh Hd) as (u1 & E1 & W1).
  destruct (H2 (set_uart0 u1 s)) as (u2 & E2 & W2); [done|by eapply dev_ok_wrote|].
  exists u2. run E1. rewrite E2. split; [done|]. by eapply wrote_bytes_app.
Qed.

Lemma prints_nil : prints (ret tt) [].
Proof. intros s _ _. exists (uart0 s). split; [by rewrite set_uart0_id|apply wrote_bytes_nil]. Qed.

Lemma prints_chars cs : Forall is_byte cs → prints (for_each cs consputc) cs.
Proof. intros Hc s Hh Hd. by apply puts_runs. Qed.

Lemma prints_char c : is_byte c → prints (consputc c) [c].
Proof.
  intros Hc s Hh Hd. destruct (consputc_runs s c Hh Hd) as (u & E & W). exists u. split; [done|].
  unfold echoed in W. unfold is_byte in Hc. rewrite (proj2 (Z.eqb_neq _ _)) in W by (unfold BACKSPACE; lia). by rewrite u8_small in W by lia.
Qed.

Lemma printint_bytes xx base sign : - 2 ^ 31 ≤ xx < 2 ^ 31 → 2 ≤ base ≤ 16 → Forall is_byte (printint_buf xx base sign).
Proof.
  intros Hx Hb. unfold printint_buf. cbv zeta. apply Forall_app. split; [|by destruct (sign && (xx <? 0)); repeat constructor].
  match goal with |- Forall _ (printint_loop 32 ?x base) => destruct (printint_loop_spec 32 x base Hb) as (_ & Hd & _) end;
    [destruct (sign && (xx <? 0)); apply u32_range|lia|]. eapply Forall_impl; [exact Hd|]. intros c Hc. unfold is_byte. cbn in Hc. lia.
Qed.

Lemma printptr_prints n x : 0 ≤ x < 2 ^ 64 → prints (printptr_loop n x) (ptr_chars n x).
Proof.
  revert x. induction n as [|n IH]; intros x Hx; cbn [printptr_loop ptr_chars]; [apply prints_nil|].
  assert (0 ≤ Z.shiftr x 60 < 16) as Hs.
  { rewrite Z.shiftr_div_pow2 by lia. split; [apply Z.div_pos; lia|apply Z.div_lt_upper_bound; lia]. }
  apply (prints_bind _ _ [_]); [|apply IH, u64_range]. apply prints_char. destruct (digit_ok _ Hs) as [_ H]. unfold is_byte. lia.
Qed.

Lemma conv_prints c ap k cs :
  is_byte c → Forall arg_ok ap → prints (k (conv_out c ap).2) cs →
  prints (let! ap := printf_conv c ap in k ap) ((conv_out c ap).1 ++ cs).
Proof.
  intros Hc Ha Hk. assert (- 2 ^ 31 ≤ arg_int (head ap) < 2 ^ 31 ∧ 0 ≤ arg_ptr (head ap) < 2 ^ 64 ∧
    Forall is_byte (default (bytes_of "(null)") (arg_str (head ap)))) as (H1 & H2 & H3).
  { destruct Ha as [|[x|x|[l|]] ap' Hx _]; cbn in *; split_and!; try lia; try done; by repeat constructor. }
  assert (∀ (d : K unit) ds ap', prints d ds → prints (k ap') cs → prints (let! ap := (d ;;; ret ap') in k ap) (ds ++ cs)) as Hd.
  { intros d ds ap' Hp Hk'. rewrite bind_assoc. by apply prints_bind. }
  revert Hk. unfold printf_conv, conv_out.
  destruct (c =? 100); [apply Hd; by apply prints_chars, Forall_reverse, printint_bytes|].
  destruct (c =? 120); [apply Hd; by apply prints_chars, Forall_reverse, printint_bytes|].
  destruct (c =? 112).
  { apply Hd. apply (prints_bind _ _ [48] (120 :: _)); [by apply prints_char|]. apply (prints_bind _ _ [120]); [by apply prints_char|].
    by apply printptr_prints. }
  destruct (c =? 115); [apply Hd; by apply prints_chars|].
  destruct (c =? 37); [apply Hd; by apply prints_char|].
  intros Hk. rewrite <- (bind_assoc (consputc 37)). apply (Hd _ [37; c] ap); [|done].
  apply (prints_bind _ _ [37] [c]); by apply prints_char.
Qed.

Lemma conv_rest c ap : Forall arg_ok ap → Forall arg_ok (conv_out c ap).2.
Proof.
  intros Ha. unfold conv_out. repeat (case_match; [first [done|by apply Forall_tail]|]). done.
Qed.

Lemma printf_loop_prints fmt ap : Forall is_byte fmt → Forall arg_ok ap → prints (printf_loop fmt ap) (fmt_out fmt ap).
Proof.
  revert ap. induction fmt as [fmt IH] using (induction_ltof1 _ (@length Z)). unfold ltof in IH. intros ap Hf Ha.
  destruct Hf as [|c fmt Hc Hf]; [apply prints_nil|]. cbn [printf_loop fmt_out]. destruct (negb (c =? 37)).
  - apply (prints_bind _ _ [c]); [by apply prints_char|]. apply IH; [cbn; lia|done|done].
  - destruct Hf as [|d fmt Hd Hf]; [apply prints_nil|]. apply conv_prints; [done|done|].
    apply IH; [cbn; lia|done|by apply conv_rest].
Qed.

(** [printf] sends the text of the format and its arguments to the device. *)
Lemma printf_eq fmt ap s :
  hart_ok s → dev_ok s → lock_free s LkPr → Forall is_byte (bytes_of fmt) → Forall arg_ok ap →
  ∃ u, printf fmt ap s = Ret tt (set_uart0 u s) ∧ wrote_bytes (fmt_out (bytes_of fmt) ap) (uart0 s) u.
Proof.
  intros Hh Hd Hl Hf Ha. pose proof (printf_loop_prints _ _ Hf Ha) as Hp. unfold printf. rewrite (bind_Ret _ _ s (pr_locking s) s) by done.
  destruct (pr_locking s) eqn:El; cbn [when].
  - run (acquire_ok s LkPr Hh Hl). destruct (Hp (enter LkPr s)) as (u & E & W); [by apply hart_ok_enter|done|]. run E.
    exists u. split; [|done]. rewrite (release_enter s _ LkPr Hh Hl) by done. by destruct s.
  - rewrite (bind_Ret _ _ s tt s) by done. destruct (Hp s Hh Hd) as (u & E & W). run E. by exists u.
Qed.

Lemma read_number_plain base cs : Forall (λ c, 48 ≤ c < 128) cs → read_number base cs = read_digits base cs.
Proof.
  intros H. destruct cs as [|c cs]; [done|]. apply Forall_cons in H as [Hc _]. unfold read_number.
  destruct c as [|q|q]; [done| |lia]. do 6 (destruct q as [q|q|]; try done; try lia).
Qed.

(** C40: [printint] sends to the device characters that, read as
    a number in the base, give the argument back (its value as a [uint] when it
    is printed unsigned), and its buffer of 16 bytes is large enough. *)
Theorem printint_spec xx base sign s :
  hart_ok s → dev_ok s → - 2 ^ 31 ≤ xx < 2 ^ 31 → 10 ≤ base ≤ 16 →
  ∃ u cs, printint xx base sign s = Ret tt (set_uart0 u s) ∧ thr u = thr (uart0 s) ++ cs ∧
    cs = reverse (printint_buf xx base sign) ∧ (length cs ≤ 16)%nat ∧
    read_number base cs = if sign then xx else u32 xx.
Proof.
  intros Hh Hd Hx Hb. unfold printint. remember (sign && (xx <? 0)) as sg eqn:Hsg. symmetry in Hsg.
  set (x := if sg then u32 (- xx) else u32 xx). set (ds := printint_loop 32 x base).
  assert (printint_buf xx base sign = ds ++ (if sg then [45] else [])) as Ebuf
    by (unfold printint_buf; by rewrite Hsg).
  assert (0 ≤ x < 2 ^ 32) as Hxr by (unfold x; destruct sg; apply u32_range).
  destruct (printint_loop_spec 32 x base ltac:(lia) Hxr ltac:(lia)) as (Hrd & Hdig & _). fold ds in Hrd, Hdig.
  assert (length ds ≤ 15)%nat as Hlen.
  { apply printint_loop_length; [lia| |lia]. split; [lia|].
    eapply Z.lt_le_trans; [apply Hxr|]. change (2 ^ 32) with 4294967296.
    transitivity (10 ^ Z.of_nat 15); [done|]. apply Z.pow_le_mono_l. lia. }
  assert (Forall (λ c, 0 ≤ c < 256) (reverse (printint_buf xx base sign))) as Hall.
  { apply Forall_reverse. rewrite Ebuf. apply Forall_app. split; [|destruct sg; by repeat constructor].
    eapply Forall_impl; [exact Hdig|]. intros c Hc. cbn in Hc. lia. }
  destruct (puts_runs _ s Hh Hd Hall) as (u & E & W). eexists u, _. split_and!; [exact E|apply W|done| |].
  - rewrite length_reverse, Ebuf, length_app. revert Hlen. clear. generalize ds. intros l Hl. destruct sg; cbn; lia.
  - rewrite Ebuf, reverse_app. destruct sg.
    + apply andb_true_iff in Hsg as [-> Hneg%Z.ltb_lt]. change (reverse [45] ++ reverse ds) with (45 :: reverse ds).
      unfold read_number. rewrite Hrd. unfold x. rewrite u32_small by lia. lia.
    + change (reverse [] ++ reverse ds) with (reverse ds).
      rewrite read_number_plain by by apply Forall_reverse. rewrite Hrd. unfold x.
      destruct sign; [|done]. cbn [andb] in Hsg. apply Z.ltb_ge in Hsg. apply u32_small. lia.
Qed.

Lemma printint_spec_witness :
  ∃ u cs, printint (-42) 10 true boot = Ret tt (set_uart0 u boot) ∧ cs = [45; 52; 50] ∧ thr u = cs.
Proof.
  destruct (printint_spec (-42) 10 true boot hart_ok_boot) as (u & cs & E & Ht & Hcs & _ & _).
  - split; reflexivity.
  - lia.
  - lia.
  - exists u, cs. exact (conj E (conj Hcs Ht)).
Defined.
