(* ===== verification/Sleeplock.v ===== *)
(** * kernel/sleeplock.c

    Locks that are held across sleeps: a spin lock protects the holder's
    record, and waiters sleep on the lock's address. *)

From S2P Require Import Prelude Machine Memory State Spinlock Sched Runs.

(** The sleep-lock inside a buffer or an inode. *)
Definition getsl (k : slid) (s : kernel) : sleeplock :=
  match k with
  | SlBuf i => b_lock (bufs s !!! i)
  | SlInode i => i_lock (inodes s !!! i)
  end.

Definition upd_sl (k : slid) (f : sleeplock → sleeplock) (s : kernel) : kernel :=
  match k with
  | SlBuf i => set_bufs (alter (λ b, set_b_lock (f (b_lock b)) b) i (bufs s)) s
  | SlInode i => set_inodes (alter (λ ip, set_i_lock (f (i_lock ip)) ip) i (inodes s)) s
  end.

Definition initsleeplock (k : slid) (name : string) : K unit :=
  initlock (LkSleep k) "sleep lock" ;;;
  modify (upd_sl k (set_sl_name name)) ;;;
  modify (upd_sl k (set_sl_locked false)) ;;;
  modify (upd_sl k (set_sl_pid 0)).

(** One turn of [while (lk->locked) sleep(lk, &lk->lk);]. *)
Definition acquiresleep_wait (k : slid) (_ : unit) : K (unit + unit) :=
  let! locked := gets (λ s, sl_locked (getsl k s)) in
  if (locked : bool) then sleep (ChSleep k) (LkSleep k) ;;; ret (inl tt) else ret (inr tt).

Definition acquiresleep (k : slid) : K unit :=
  acquire (LkSleep k) ;;;
  loop (acquiresleep_wait k) tt ;;;
  modify (upd_sl k (set_sl_locked true)) ;;;
  let! p := curproc in
  let! pid := pget p p_pid in
  modify (upd_sl k (set_sl_pid pid)) ;;;
  release (LkSleep k).

Definition releasesleep (k : slid) : K unit :=
  acquire (LkSleep k) ;;;
  modify (upd_sl k (set_sl_locked false)) ;;;
  modify (upd_sl k (set_sl_pid 0)) ;;;
  wakeup (Some (ChSleep k)) ;;;
  release (LkSleep k).

Definition holdingsleep (k : slid) : K bool :=
  acquire (LkSleep k) ;;;
  let! lk := gets (getsl k) in
  let! r := (if sl_locked lk then
               let! p := curproc in
               let! pid := pget p p_pid in
               ret (sl_pid lk =? pid)
             else ret false) in
  release (LkSleep k) ;;;
  ret r.

(** ** Lemmas *)

Lemma upd_sl_upd_sl k f g s : upd_sl k f (upd_sl k g s) = upd_sl k (λ sl, f (g sl)) s.
Proof. destruct k; unfold upd_sl; cbn; by rewrite list_alter_alter_eq. Qed.

Lemma upd_sl_frame k f s :
  tp (upd_sl k f s) = tp s ∧ cpus (upd_sl k f s) = cpus s ∧ locks (upd_sl k f s) = locks s ∧
  procs (upd_sl k f s) = procs s.
Proof. by destruct k. Qed.

Lemma inside_upd_sl l s s1 k f : inside l s s1 → inside l s (upd_sl k f s1).
Proof. destruct k; done. Qed.

Lemma unlocked_upd_sl l k f s : unlocked s (upd_sl k f (enter l s)) = upd_sl k f s.
Proof. destruct k, s; done. Qed.

(** The record of a lock held by the process with number [pid]. *)
Definition sl_held (pid : Z) (sl : sleeplock) : sleeplock := mk_sleeplock true (sl_name sl) pid.
Definition sl_free (sl : sleeplock) : sleeplock := mk_sleeplock false (sl_name sl) 0.

Lemma getsl_enter k l s : getsl k (enter l s) = getsl k s.
Proof. by destruct k. Qed.

(** A free sleep-lock is taken at once. *)
Lemma acquiresleep_eq k s p :
  hart_ok s → c_proc (mycpu s) = Some p → lock_free s (LkSleep k) →
  sl_locked (getsl k s) = false →
  acquiresleep k s = Ret tt (upd_sl k (sl_held (p_pid (getproc p s))) s).
Proof.
  intros Hh Hp Hl Hf. unfold acquiresleep.
  run (acquire_ok s _ Hh Hl).
  rewrite (bind_Ret _ _ _ tt (enter (LkSleep k) s)).
  2:{ apply (loop_Ret _ 1); [done|]. apply run_n_stop. unfold acquiresleep_wait, bind, gets. cbn [obind].
      rewrite getsl_enter, Hf. done. }
  set (s1 := enter (LkSleep k) s).
  rewrite (bind_Ret _ _ _ tt (upd_sl k (set_sl_locked true) s1)) by done.
  assert (inside (LkSleep k) s (upd_sl k (set_sl_locked true) s1)) as Hi
    by (apply inside_upd_sl; apply inside_enter).
  rewrite (bind_Ret _ _ _ p (upd_sl k (set_sl_locked true) s1)).
  2:{ apply curproc_eq; [by eapply hart_ok_inside|]. by rewrite (c_proc_inside _ _ _ Hh Hi). }
  rewrite (bind_Ret _ _ _ (p_pid (getproc p s)) (upd_sl k (set_sl_locked true) s1))
    by (unfold pget, gets; destruct k; done).
  rewrite (bind_Ret _ _ _ tt (upd_sl k (set_sl_pid (p_pid (getproc p s))) (upd_sl k (set_sl_locked true) s1)))
    by done.
  rewrite upd_sl_upd_sl.
  rewrite (release_enter s) by first [done | destruct k; done].
  f_equal. fold (unlocked s (upd_sl k (λ sl, set_sl_pid (p_pid (getproc p s)) (set_sl_locked true sl)) s1)).
  unfold s1. by rewrite unlocked_upd_sl.
Qed.

Lemma holdingsleep_eq k s p :
  hart_ok s → c_proc (mycpu s) = Some p → lock_free s (LkSleep k) →
  holdingsleep k s =
    Ret (sl_locked (getsl k s) && (sl_pid (getsl k s) =? p_pid (getproc p s))) s.
Proof.
  intros Hh Hp Hl. unfold holdingsleep.
  run (acquire_ok s _ Hh Hl).
  rewrite (bind_Ret _ _ _ (getsl k s) (enter (LkSleep k) s))
    by (unfold gets; by rewrite getsl_enter).
  pose proof (inside_enter (LkSleep k) s) as Hi.
  rewrite (bind_Ret _ _ _ (sl_locked (getsl k s) && (sl_pid (getsl k s) =? p_pid (getproc p s)))
             (enter (LkSleep k) s)).
  - run (release_enter s (enter (LkSleep k) s) _ Hh Hl eq_refl eq_refl eq_refl).
    fold (unlocked s (enter (LkSleep k) s)). by rewrite unlocked_enter.
  - destruct (sl_locked (getsl k s)); [|done].
    rewrite (bind_Ret _ _ _ p (enter (LkSleep k) s)); [done|].
    apply curproc_eq; [by eapply hart_ok_inside|]. by rewrite (c_proc_inside _ _ _ Hh Hi).
Qed.

Lemma procs_upd_sl k f s : procs (upd_sl k f s) = procs s.
Proof. by destruct k. Qed.

Lemma unlocked_upd_sl_procs l k f ps s :
  unlocked s (set_procs ps (upd_sl k f (enter l s))) = set_procs ps (upd_sl k f s).
Proof. destruct k, s; done. Qed.

Lemma releasesleep_eq k s p :
  thread_ok p s → lock_free s (LkSleep k) →
  releasesleep k s =
    Ret tt (set_procs (woken (Some (ChSleep k)) (Some p) (procs s)) (upd_sl k sl_free s)).
Proof.
  intros Ht Hl. pose proof (th_hart p s Ht) as Hh. unfold releasesleep.
  run (acquire_ok s _ Hh Hl).
  set (s1 := enter (LkSleep k) s).
  rewrite (bind_Ret _ _ _ tt (upd_sl k (set_sl_locked false) s1)) by done.
  rewrite (bind_Ret _ _ _ tt (upd_sl k (set_sl_pid 0) (upd_sl k (set_sl_locked false) s1))) by done.
  rewrite upd_sl_upd_sl. set (s2 := upd_sl k _ s1).
  assert (inside (LkSleep k) s s2) as Hi by (apply inside_upd_sl; apply inside_enter).
  assert (procs s2 = procs s) as Hps by (unfold s2; by rewrite procs_upd_sl).
  rewrite (bind_Ret _ _ _ tt (set_procs (woken (Some (ChSleep k)) (Some p) (procs s)) s2)).
  2:{ rewrite (wakeup_inside p (LkSleep k) s s2); [by rewrite Hps|done|done|done|].
      rewrite Hps. apply Ht. }
  rewrite (release_enter s) by first [done | apply Hi].
  f_equal. unfold s2, s1. apply unlocked_upd_sl_procs.
Qed.
