(* ===== verification/Block.v ===== *)
(** * Disk blocks and buffers

    The bytes of a block with the little-endian integers in it, access to the
    buffers of the cache, and what the file system asks of the disk driver. *)

From S2P Require Import Prelude Machine Memory State.

Definition BSIZE : Z := 1024.

(** ** Integers in a block *)

Fixpoint le_get (n : nat) (l : list Z) (off : nat) : Z :=
  match n with
  | O => 0
  | S n' => l !!! off + 256 * le_get n' l (S off)
  end.

Fixpoint le_put (n : nat) (l : list Z) (off : nat) (v : Z) : list Z :=
  match n with
  | O => l
  | S n' => le_put n' (<[off := u8 v]> l) (S off) (v / 256)
  end.

Definition get16 : list Z → nat → Z := le_get 2.
Definition put16 : list Z → nat → Z → list Z := le_put 2.
Definition get32 : list Z → nat → Z := le_get 4.
Definition put32 : list Z → nat → Z → list Z := le_put 4.

(** [memmove] of bytes into a block. *)
Fixpoint put_bytes (l : list Z) (off : nat) (src : list Z) : list Z :=
  match src with
  | [] => l
  | b :: src' => put_bytes (<[off := b]> l) (S off) src'
  end.

(** [len] bytes of a block. *)
Definition get_bytes (l : list Z) (off len : nat) : list Z := take len (drop off l).

(** ** Buffers *)

Definition getbuf (b : nat) (s : kernel) : buf := bufs s !!! b.

Definition upd_buf (b : nat) (f : buf → buf) (s : kernel) : kernel :=
  set_bufs (alter f b (bufs s)) s.

Definition bfield {A} (b : nat) (f : buf → A) : K A := gets (λ s, f (getbuf b s)).
Definition bset (b : nat) (f : buf → buf) : K unit := modify (upd_buf b f).

(** An assignment to part of [b->data]. *)
Definition bdata (b : nat) (f : list Z → list Z) : K unit :=
  bset b (λ bf, set_b_data (f (b_data bf)) bf).

(** ** The disk driver

    [disk_rw b write] reads block [b->blockno] into [b->data] or writes it.
    kernel/virtio_disk.c implements it; the file system is written against
    this interface. *)
Class BlockDriver : Type := { disk_rw : nat → bool → K unit }.

(** The contents of a block of the disk. *)
Definition dblock (d : gmap Z (list Z)) (n : Z) : list Z :=
  default (replicate (Z.to_nat BSIZE) 0) (d !! n).

(** What the file system is verified with, a contract and not a translation:
    the call returns at once, the transfer has been done and nothing else has
    changed.  [disk_writes] records the writes in the
    order in which they reached the disk. *)
Definition sync_rw (b : nat) (write : bool) : K unit :=
  let! bf := gets (getbuf b) in
  if write then
    modify (λ s, set_disk (<[b_blockno bf := b_data bf]> (disk s)) s) ;;;
    modify (λ s, set_disk_writes (disk_writes s ++ [(b_blockno bf, b_data bf)]) s)
  else
    let! d := gets disk in
    bset b (set_b_data (dblock d (b_blockno bf))).

Definition sync_driver : BlockDriver := {| disk_rw := sync_rw |}.

(** ** Lemmas *)

Lemma length_le_put n l off v : length (le_put n l off v) = length l.
Proof.
  revert l off v. induction n as [|n IH]; intros l off v; cbn; [done|].
  by rewrite IH, length_insert.
Qed.

Lemma le_put_lookup_ne n l off v i :
  (i < off ∨ off + n ≤ i)%nat → le_put n l off v !!! i = l !!! i.
Proof.
  revert l off v. induction n as [|n IH]; intros l off v Hi; cbn; [done|].
  rewrite IH by lia. apply list_lookup_total_insert_ne. lia.
Qed.

Lemma le_get_put n l off v :
  (off + n ≤ length l)%nat → le_get n (le_put n l off v) off = v `mod` 2 ^ (8 * Z.of_nat n).
Proof.
  revert l off v. induction n as [|n IH]; intros l off v Hl; cbn [le_get le_put].
  { by rewrite Z.mod_1_r. }
  rewrite le_put_lookup_ne by lia. rewrite list_lookup_total_insert_eq by lia.
  rewrite IH by (rewrite length_insert; lia).
  replace (8 * Z.of_nat (S n)) with (8 + 8 * Z.of_nat n) by lia.
  rewrite Z.pow_add_r by lia. rewrite Z.rem_mul_r by lia. done.
Qed.

Lemma le_get_ext n l l' off :
  (∀ i, (off ≤ i < off + n)%nat → l !!! i = l' !!! i) → le_get n l off = le_get n l' off.
Proof.
  revert off. induction n as [|n IH]; intros off Hl; cbn; [done|].
  rewrite Hl by lia. f_equal. f_equal. apply IH. intros i Hi. apply Hl. lia.
Qed.

Lemma le_get_put_ne n k l off off' v :
  (off + n ≤ off' ∨ off' + k ≤ off)%nat → le_get n (le_put k l off' v) off = le_get n l off.
Proof. intros Ho. apply le_get_ext. intros i Hi. apply le_put_lookup_ne. lia. Qed.

Lemma length_put_bytes l off src : length (put_bytes l off src) = length l.
Proof.
  revert l off. induction src as [|b src IH]; intros l off; cbn; [done|].
  by rewrite IH, length_insert.
Qed.

Lemma put_bytes_lookup l off src i :
  (off + length src ≤ length l)%nat →
  put_bytes l off src !!! i =
    if decide (off ≤ i < off + length src)%nat then src !!! (i - off)%nat else l !!! i.
Proof.
  revert l off. induction src as [|b src IH]; intros l off Hl; cbn in *.
  { rewrite decide_False by lia. done. }
  rewrite IH by (rewrite length_insert; lia).
  destruct (decide (i = off)) as [->|Hne].
  - rewrite decide_False by lia. rewrite decide_True by lia.
    rewrite list_lookup_total_insert_eq by lia. by rewrite Nat.sub_diag.
  - rewrite list_lookup_total_insert_ne by done.
    destruct (decide (S off ≤ i < S off + length src)%nat).
    + rewrite decide_True by lia. replace (i - off)%nat with (S (i - S off)) by lia. done.
    + rewrite decide_False by lia. done.
Qed.
