(* ===== verification/Bio.v ===== *)
(** * kernel/bio.c

    The buffer cache: [bufs] holds the NBUF buffers and, in its last slot, the
    head of the list through [prev] and [next] that keeps them in the order of
    their last use. *)

From S2P Require Import Prelude Machine Memory State Spinlock Sched Sleeplock Block.

(** [&bcache.head] *)
Definition HEAD : nat := NBUF.

Section bio.
Context `{BlockDriver}.

Definition binit_one (b : nat) : K unit :=
  let! hnext := bfield HEAD b_next in
  bset b (set_b_next hnext) ;;;
  bset b (set_b_prev HEAD) ;;;
  initsleeplock (SlBuf b) "buffer" ;;;
  let! hnext := bfield HEAD b_next in
  bset hnext (set_b_prev b) ;;;
  bset HEAD (set_b_next b).

Definition binit : K unit :=
  initlock LkBcache "bcache" ;;;
  bset HEAD (set_b_prev HEAD) ;;;
  bset HEAD (set_b_next HEAD) ;;;
  for_each (seq 0 NBUF) binit_one.

(** The first loop of [bget]: is the block cached? *)
Definition bget_cached (dev blockno : Z) (b : nat) : K (nat + option nat) :=
  if decide (b = HEAD) then ret (inr None) else
  let! bf := gets (getbuf b) in
  if (b_dev bf =? dev) && (b_blockno bf =? blockno) then ret (inr (Some b))
  else ret (inl (b_next bf)).

(** The second loop: the least recently used buffer that nobody uses. *)
Definition bget_recycle (b : nat) : K (nat + option nat) :=
  if decide (b = HEAD) then ret (inr None) else
  let! bf := gets (getbuf b) in
  if b_refcnt bf =? 0 then ret (inr (Some b)) else ret (inl (b_prev bf)).

Definition bget (dev blockno : Z) : K nat :=
  acquire LkBcache ;;;
  let! first := bfield HEAD b_next in
  let! r := loop (bget_cached dev blockno) first in
  match r with
  | Some b =>
      bset b (λ bf, set_b_refcnt (u32 (b_refcnt bf + 1)) bf) ;;;
      release LkBcache ;;;
      acquiresleep (SlBuf b) ;;;
      ret b
  | None =>
      let! last := bfield HEAD b_prev in
      let! r := loop bget_recycle last in
      match r with
      | Some b =>
          bset b (set_b_dev dev) ;;;
          bset b (set_b_blockno blockno) ;;;
          bset b (set_b_valid false) ;;;
          bset b (set_b_refcnt 1) ;;;
          release LkBcache ;;;
          acquiresleep (SlBuf b) ;;;
          ret b
      | None => panic "bget: no buffers"
      end
  end.

Definition bread (dev blockno : Z) : K nat :=
  let! b := bget (u32 dev) (u32 blockno) in
  let! valid := bfield b b_valid in
  when (negb valid)
    (disk_rw b false ;;;
     bset b (set_b_valid true)) ;;;
  ret b.

Definition bwrite (b : nat) : K unit :=
  let! h := holdingsleep (SlBuf b) in
  if negb h then panic "bwrite" else
  disk_rw b true.

Definition brelse (b : nat) : K unit :=
  let! h := holdingsleep (SlBuf b) in
  if negb h then panic "brelse" else
  releasesleep (SlBuf b) ;;;
  acquire LkBcache ;;;
  bset b (λ bf, set_b_refcnt (u32 (b_refcnt bf - 1)) bf) ;;;
  let! bf := gets (getbuf b) in
  when (b_refcnt bf =? 0)
    (bset (b_next bf) (set_b_prev (b_prev bf)) ;;;
     let! bf := gets (getbuf b) in
     bset (b_prev bf) (set_b_next (b_next bf)) ;;;
     let! hnext := bfield HEAD b_next in
     bset b (set_b_next hnext) ;;;
     bset b (set_b_prev HEAD) ;;;
     let! hnext := bfield HEAD b_next in
     bset hnext (set_b_prev b) ;;;
     bset HEAD (set_b_next b)) ;;;
  release LkBcache.

Definition bpin (b : nat) : K unit :=
  acquire LkBcache ;;;
  bset b (λ bf, set_b_refcnt (u32 (b_refcnt bf + 1)) bf) ;;;
  release LkBcache.

Definition bunpin (b : nat) : K unit :=
  acquire LkBcache ;;;
  bset b (λ bf, set_b_refcnt (u32 (b_refcnt bf - 1)) bf) ;;;
  release LkBcache.
End bio.
