(* ===== verification/Cache.v ===== *)
(** * The buffer cache

    The list of buffers is a cycle through the head, in both directions, that
    visits every buffer once; [bget] finds in it the buffer of a block, or the
    least recently used free one.  With that, the cache as its clients see it:
    the contents of each block, how often it is referenced and who holds it. *)

From S2P Require Import Prelude Machine Memory State Spinlock Sched Runs Sleeplock Block Bio.

(** ** Linked lists *)

(** Following [f] from [a] visits [l] and then reaches [z]. *)
Fixpoint nexts (f : nat → nat) (a : nat) (l : list nat) (z : nat) : Prop :=
  match l with
  | [] => f a = z
  | b :: l' => f a = b ∧ nexts f b l' z
  end.

Lemma nexts_app f a l1 b l2 z :
  nexts f a (l1 ++ b :: l2) z ↔ nexts f a l1 b ∧ nexts f b l2 z.
Proof.
  revert a. induction l1 as [|c l1 IH]; intros a; cbn; [done|]. rewrite IH. tauto.
Qed.

Lemma nexts_ext f g a l z :
  (∀ x, x ∈ a :: l → f x = g x) → nexts f a l z → nexts g a l z.
Proof.
  revert a. induction l as [|b l IH]; intros a Hext; cbn.
  - intros <-. symmetry. apply Hext. by left.
  - intros [<- H]. split; [symmetry; apply Hext; by left|].
    apply IH; [|done]. intros x Hx. apply Hext. by right.
Qed.

(** The first node after [a]. *)
Lemma nexts_first f a l z : nexts f a l z → f a = List.hd z l.
Proof. destruct l; cbn; naive_solver. Qed.

Lemma last_reverse (z : nat) l : List.last (z :: reverse l) z = List.hd z l.
Proof.
  destruct l as [|a l]; [done|]. rewrite reverse_cons.
  change (z :: reverse l ++ [a]) with ((z :: reverse l) ++ [a]). by rewrite last_last.
Qed.

Definition upd (f : nat → nat) (i v : nat) : nat → nat := λ x, if decide (x = i) then v else f x.

(** Redirecting the last pointer of a segment. *)
Lemma nexts_redirect f a l z z' :
  NoDup (a :: l) → nexts f a l z →
  nexts (upd f (List.last (a :: l) a) z') a l z'.
Proof.
  unfold upd. revert a. induction l as [|b l IH]; intros a Hd Hn.
  - cbn. by rewrite decide_True.
  - destruct Hn as [Ha Hn]. apply NoDup_cons in Hd as [Hab Hd].
    specialize (IH b Hd Hn). split.
    + rewrite decide_False; [done|]. intros E. apply Hab. rewrite E.
      change (List.last (a :: b :: l) a) with (List.last (b :: l) a).
      assert (List.In (List.last (b :: l) a) (b :: l)) as Hin.
      { destruct (exists_last (l := b :: l)) as (l' & x & ->); [done|].
        rewrite last_last. apply in_or_app. right. by left. }
      by apply list_elem_of_In.
    + assert (List.last (a :: b :: l) a = List.last (b :: l) b) as ->; [|done].
      change (List.last (a :: b :: l) a) with (List.last (b :: l) a).
      destruct (exists_last (l := b :: l)) as (l' & x & ->); [done|]. by rewrite !last_last.
Qed.

Lemma last_elem_of (a : nat) l : List.last (a :: l) a ∈ a :: l.
Proof.
  destruct (exists_last (l := a :: l)) as (l' & x & ->); [done|].
  rewrite last_last. apply elem_of_app. right. by left.
Qed.

(** Taking [b] out of a cycle. *)
Lemma nexts_unlink f h l1 b l2 :
  NoDup (h :: l1 ++ b :: l2) → nexts f h (l1 ++ b :: l2) h →
  nexts (upd f (List.last (h :: l1) h) (f b)) h (l1 ++ l2) h.
Proof.
  intros Hd Hn. apply nexts_app in Hn as [H1 H2].
  assert (NoDup (h :: l1)) as Hd1.
  { change (h :: l1 ++ b :: l2) with ((h :: l1) ++ b :: l2) in Hd. by apply NoDup_app in Hd as [? _]. }
  pose proof (nexts_redirect f h l1 b (f b) Hd1 H1) as H1'.
  destruct l2 as [|c l2].
  - cbn in H2. rewrite app_nil_r. rewrite H2 in *. done.
  - cbn in H2. destruct H2 as [E H2]. rewrite E in *. apply nexts_app. split; [done|].
    eapply nexts_ext; [|done]. intros x Hx. unfold upd. rewrite decide_False; [done|].
    intros ->. change (h :: l1 ++ b :: c :: l2) with ((h :: l1) ++ b :: c :: l2) in Hd.
    apply NoDup_app in Hd as (_ & Hdis & _). apply (Hdis _ (last_elem_of h l1)). by right.
Qed.

(** Putting [b] right after [h]. *)
Lemma nexts_push f h b l :
  NoDup (h :: l) → b ∉ h :: l → nexts f h l h →
  nexts (upd (upd f b (f h)) h b) h (b :: l) h.
Proof.
  intros Hd Hb Hn. apply not_elem_of_cons in Hb as [Hbh Hbl]. apply NoDup_cons in Hd as [Hhl _].
  split; [unfold upd; by rewrite decide_True|].
  assert (upd (upd f b (f h)) h b b = f h) as E.
  { unfold upd. rewrite decide_False by done. by rewrite decide_True. }
  destruct l as [|c l]; cbn in *; rewrite E; [done|]. destruct Hn as [-> Hn]. split; [done|].
  eapply nexts_ext; [|done]. intros x Hx. unfold upd.
  rewrite decide_False by (intros ->; done). rewrite decide_False by (intros ->; done). done.
Qed.

(** Putting [b] right before [h]. *)
Lemma nexts_snoc f h b l :
  NoDup (h :: l) → b ∉ h :: l → nexts f h l h →
  nexts (upd (upd f b h) (List.last (h :: l) h) b) h (l ++ [b]) h.
Proof.
  intros Hd Hb Hn. apply nexts_app. split.
  - apply nexts_redirect with (z := h); [done|]. eapply nexts_ext; [|done].
    intros x Hx. unfold upd. rewrite decide_False; [done|]. by intros ->.
  - cbn. unfold upd. rewrite decide_False; [by rewrite decide_True|].
    intros E. apply Hb. rewrite E. apply last_elem_of.
Qed.

(** ** The ring of buffers *)

Definition nx (bs : list buf) (i : nat) : nat := b_next (bs !!! i).
Definition pv (bs : list buf) (i : nat) : nat := b_prev (bs !!! i).

(** The buffers are linked in the order [l], most recently used first. *)
Record ring (bs : list buf) (l : list nat) : Prop := {
  ring_next : nexts (nx bs) HEAD l HEAD;
  ring_prev : nexts (pv bs) HEAD (reverse l) HEAD;
  ring_all : l ≡ₚ seq 0 NBUF;
  ring_len : length bs = S NBUF
}.

Lemma ring_NoDup bs l : ring bs l → NoDup (HEAD :: l).
Proof.
  intros [_ _ Hp _]. apply NoDup_cons. split.
  - rewrite Hp, elem_of_seq. unfold HEAD. lia.
  - rewrite Hp. apply NoDup_seq.
Qed.

Lemma ring_elem bs l i : ring bs l → i ∈ l ↔ (i < NBUF)%nat.
Proof. intros [_ _ Hp _]. rewrite Hp, elem_of_seq. lia. Qed.

Lemma lookup_total_alter {A} `{Inhabited A} (f : A → A) i j (l : list A) :
  (i < length l)%nat →
  alter f i l !!! j = if decide (j = i) then f (l !!! j) else l !!! j.
Proof.
  intros Hi. destruct (decide (j = i)) as [->|Hne].
  - by apply list_lookup_total_alter_eq.
  - by apply list_lookup_total_alter_ne.
Qed.

Lemma nx_set_next bs i v x :
  (i < length bs)%nat → nx (alter (set_b_next v) i bs) x = upd (nx bs) i v x.
Proof. intros Hi. unfold nx, upd. rewrite lookup_total_alter by done. by case_decide. Qed.

Lemma nx_set_prev bs i v x :
  (i < length bs)%nat → nx (alter (set_b_prev v) i bs) x = nx bs x.
Proof. intros Hi. unfold nx. rewrite lookup_total_alter by done. by case_decide. Qed.

Lemma pv_set_prev bs i v x :
  (i < length bs)%nat → pv (alter (set_b_prev v) i bs) x = upd (pv bs) i v x.
Proof. intros Hi. unfold pv, upd. rewrite lookup_total_alter by done. by case_decide. Qed.

Lemma pv_set_next bs i v x :
  (i < length bs)%nat → pv (alter (set_b_next v) i bs) x = pv bs x.
Proof. intros Hi. unfold pv. rewrite lookup_total_alter by done. by case_decide. Qed.

(** What [brelse] does to the list when it moves buffer [b] to the front. *)
Definition relink (b : nat) (bs : list buf) : list buf :=
  let bs := alter (set_b_prev (pv bs b)) (nx bs b) bs in
  let bs := alter (set_b_next (nx bs b)) (pv bs b) bs in
  let bs := alter (set_b_next (nx bs HEAD)) b bs in
  let bs := alter (set_b_prev HEAD) b bs in
  let bs := alter (set_b_prev b) (nx bs HEAD) bs in
  alter (set_b_next b) HEAD bs.

(** The neighbours of a buffer in the list. *)
Lemma ring_neighbours bs l1 b l2 :
  ring bs (l1 ++ b :: l2) →
  nx bs b = List.last (HEAD :: reverse l2) HEAD ∧ pv bs b = List.last (HEAD :: l1) HEAD ∧
  nx bs b ≠ b ∧ pv bs b ≠ b ∧ (nx bs b < S NBUF)%nat ∧ (pv bs b < S NBUF)%nat ∧
  b ≠ HEAD ∧ (b < NBUF)%nat.
Proof.
  intros Hr. pose proof (ring_NoDup _ _ Hr) as Hd. pose proof Hr as [Hn Hp Ha _].
  apply nexts_app in Hn as [_ Hn]. rewrite reverse_app, reverse_cons, <- app_assoc in Hp. cbn in Hp.
  apply nexts_app in Hp as [_ Hp]. apply nexts_first in Hn, Hp.
  assert (pv bs b = List.last (HEAD :: l1) HEAD) as Ep.
  { rewrite Hp. rewrite <- (reverse_involutive l1) at 2. by rewrite last_reverse. }
  rewrite last_reverse.
  assert (∀ x, x ∈ HEAD :: l1 ++ b :: l2 → (x < S NBUF)%nat) as Hlt.
  { intros x Hx. apply elem_of_cons in Hx as [->|Hx]; [unfold HEAD; lia|].
    rewrite (ring_elem _ _ _ Hr) in Hx. lia. }
  assert (nx bs b ∈ HEAD :: l2) as Hnin.
  { rewrite Hn. destruct l2; [by left|right; by left]. }
  assert (pv bs b ∈ HEAD :: l1) as Hpin by (rewrite Ep; apply last_elem_of).
  apply NoDup_cons in Hd as [Hh Hd]. apply NoDup_app in Hd as (Hd1 & Hdis & Hd2).
  apply NoDup_cons in Hd2 as [Hb2 Hd2].
  assert (b ≠ HEAD) as Hbh by (intros ->; apply Hh, elem_of_app; right; by left).
  split_and!; [done|done| | | | |done|].
  - intros E. rewrite E in Hnin. apply elem_of_cons in Hnin as [|]; done.
  - intros E. rewrite E in Hpin. apply elem_of_cons in Hpin as [|Hin]; [done|].
    apply (Hdis _ Hin). by left.
  - apply Hlt. apply elem_of_cons in Hnin as [->|Hin]; [by left|]. right. apply elem_of_app. right. by right.
  - apply Hlt. apply elem_of_cons in Hpin as [->|Hin]; [by left|]. right. apply elem_of_app. by left.
  - apply (ring_elem _ _ _ Hr). apply elem_of_app. right. by left.
Qed.

Lemma relink_pointers bs l1 b l2 :
  ring bs (l1 ++ b :: l2) →
  let nb := nx bs b in
  let pb := pv bs b in
  let h := upd (nx bs) pb nb HEAD in
  (∀ x, nx (relink b bs) x = upd (upd (upd (nx bs) pb nb) b h) HEAD b x) ∧
  (∀ x, pv (relink b bs) x = upd (upd (upd (pv bs) nb pb) b HEAD) h b x) ∧ (h < S NBUF)%nat.
Proof.
  intros Hr nb pb h. destruct (ring_neighbours _ _ _ _ Hr) as (_ & _ & Hnb & Hpb & Hnlt & Hplt & Hbh & Hb).
  pose proof (ring_len _ _ Hr) as Hlen. fold nb pb in Hnb, Hpb, Hnlt, Hplt. unfold relink. fold nb pb.
  set (bs1 := alter (set_b_prev pb) nb bs).
  assert (length bs1 = S NBUF) as L1 by (unfold bs1; by rewrite length_alter).
  assert (∀ x, nx bs1 x = nx bs x) as N1 by (intros x; apply nx_set_prev; lia).
  assert (∀ x, pv bs1 x = upd (pv bs) nb pb x) as P1 by (intros x; apply pv_set_prev; lia).
  assert (pv bs1 b = pb) as Epb by (rewrite P1; unfold upd; rewrite decide_False by done; done).
  rewrite N1, Epb. fold nb.
  set (bs2 := alter (set_b_next nb) pb bs1).
  assert (length bs2 = S NBUF) as L2 by (unfold bs2; by rewrite length_alter).
  assert (∀ x, nx bs2 x = upd (nx bs) pb nb x) as N2.
  { intros x. unfold bs2. rewrite nx_set_next by lia. unfold upd. case_decide; [done|apply N1]. }
  assert (∀ x, pv bs2 x = upd (pv bs) nb pb x) as P2.
  { intros x. unfold bs2. rewrite pv_set_next by lia. apply P1. }
  rewrite (N2 HEAD). fold h.
  assert (h < S NBUF)%nat as Hh.
  { unfold h, upd. case_decide; [done|]. pose proof Hr as [Hn _ _ _]. apply nexts_first in Hn. rewrite Hn.
    destruct l1; cbn; [lia|]. enough (n < NBUF)%nat by lia.
    apply (ring_elem _ _ _ Hr). cbn. by left. }
  set (bs3 := alter (set_b_next h) b bs2).
  assert (length bs3 = S NBUF) as L3 by (unfold bs3; by rewrite length_alter).
  set (bs4 := alter (set_b_prev HEAD) b bs3).
  assert (length bs4 = S NBUF) as L4 by (unfold bs4; by rewrite length_alter).
  assert (∀ x, nx bs4 x = upd (upd (nx bs) pb nb) b h x) as N4.
  { intros x. unfold bs4. rewrite nx_set_prev by lia. unfold bs3. rewrite nx_set_next by lia.
    unfold upd at 1 2. case_decide; [done|apply N2]. }
  assert (∀ x, pv bs4 x = upd (upd (pv bs) nb pb) b HEAD x) as P4.
  { intros x. unfold bs4. rewrite pv_set_prev by lia. unfold upd at 1 2. case_decide; [done|].
    unfold bs3. rewrite pv_set_next by lia. apply P2. }
  assert (nx bs4 HEAD = h) as ->.
  { rewrite N4. unfold upd at 1. rewrite decide_False by done. done. }
  set (bs5 := alter (set_b_prev b) h bs4).
  assert (length bs5 = S NBUF) as L5 by (unfold bs5; by rewrite length_alter).
  split_and!; [| |done]; intros x.
  - rewrite nx_set_next by (unfold HEAD; lia). unfold upd at 1 2. case_decide; [done|].
    unfold bs5. rewrite nx_set_prev by lia. apply N4.
  - rewrite pv_set_next by (unfold HEAD; lia). unfold bs5. rewrite pv_set_prev by lia.
    unfold upd at 1 2. case_decide; [done|]. apply P4.
Qed.

Lemma length_relink b bs : length (relink b bs) = length bs.
Proof. unfold relink. by rewrite !length_alter. Qed.

(** [brelse] keeps the list a ring, with [b] in front. *)
Lemma relink_ring bs l1 b l2 :
  ring bs (l1 ++ b :: l2) → ring (relink b bs) (b :: l1 ++ l2).
Proof.
  intros Hr. destruct (relink_pointers _ _ _ _ Hr) as (HN & HP & _).
  destruct (ring_neighbours _ _ _ _ Hr) as (En & Ep & _ & _ & _ & _ & Hbh & _).
  pose proof (ring_NoDup _ _ Hr) as Hd. pose proof Hr as [Hn Hp Ha Hlen].
  assert (NoDup (HEAD :: l1 ++ l2) ∧ b ∉ HEAD :: l1 ++ l2) as [Hd' Hb'].
  { assert (HEAD :: l1 ++ b :: l2 ≡ₚ b :: HEAD :: l1 ++ l2) as Hperm.
    { rewrite <- Permutation_middle. apply Permutation_swap. }
    rewrite Hperm in Hd. by apply NoDup_cons in Hd as [? ?]. }
  pose proof (nexts_unlink _ _ _ _ _ Hd Hn) as Hu. rewrite <- Ep in Hu.
  assert (nexts (upd (pv bs) (nx bs b) (pv bs b)) HEAD (reverse (l1 ++ l2)) HEAD) as Hv.
  { rewrite reverse_app, reverse_cons, <- app_assoc in Hp. cbn in Hp.
    rewrite reverse_app, En. apply nexts_unlink; [|done].
    assert (HEAD :: reverse l2 ++ b :: reverse l1 ≡ₚ HEAD :: l1 ++ b :: l2) as ->; [|done].
    f_equiv. rewrite !reverse_Permutation. rewrite <- !Permutation_middle. f_equiv. apply Permutation_app_comm. }
  split.
  - eapply nexts_ext; [intros x _; symmetry; apply HN|]. by apply nexts_push.
  - rewrite reverse_cons. eapply nexts_ext; [intros x _; symmetry; apply HP|].
    pose proof (nexts_first _ _ _ _ Hu) as Eh. rewrite <- last_reverse in Eh. rewrite Eh.
    apply nexts_snoc; [| |done].
    + by rewrite reverse_Permutation.
    + by rewrite reverse_Permutation.
  - rewrite <- Ha. apply Permutation_middle.
  - by rewrite length_relink.
Qed.

(** ** Searching the ring *)

Definition has (dev n : Z) (bf : buf) : bool := (b_dev bf =? dev) && (b_blockno bf =? n).

Lemma bget_cached_run s dev n a l :
  nexts (nx (bufs s)) a l HEAD → HEAD ∉ l →
  run_n (S (length l)) (bget_cached dev n) (nx (bufs s) a) s
  = Ret (inr (List.find (λ i, has dev n (getbuf i s)) l)) s.
Proof.
  revert a. induction l as [|b l IH]; intros a Hn Hh.
  - cbn in Hn. apply run_n_stop. unfold bget_cached. by rewrite decide_True.
  - destruct Hn as [E Hn]. apply not_elem_of_cons in Hh as [Hb Hh]. rewrite E. cbn [length List.find].
    destruct (has dev n (getbuf b s)) eqn:Eh.
    + apply run_n_stop. unfold bget_cached. rewrite decide_False by done.
      unfold bind, gets. cbn [obind]. unfold has in Eh. by rewrite Eh.
    + rewrite (run_n_next _ _ _ _ (nx (bufs s) b) s); [by apply IH|].
      unfold bget_cached. rewrite decide_False by done. unfold bind, gets. cbn [obind].
      unfold has in Eh. by rewrite Eh.
Qed.

Lemma bget_recycle_run s a l :
  nexts (pv (bufs s)) a l HEAD → HEAD ∉ l →
  run_n (S (length l)) bget_recycle (pv (bufs s) a) s
  = Ret (inr (List.find (λ i, b_refcnt (getbuf i s) =? 0) l)) s.
Proof.
  revert a. induction l as [|b l IH]; intros a Hn Hh.
  - cbn in Hn. apply run_n_stop. unfold bget_recycle. by rewrite decide_True.
  - destruct Hn as [E Hn]. apply not_elem_of_cons in Hh as [Hb Hh]. rewrite E. cbn [length List.find].
    destruct (b_refcnt (getbuf b s) =? 0) eqn:Eh.
    + apply run_n_stop. unfold bget_recycle. rewrite decide_False by done.
      unfold bind, gets. cbn [obind]. by rewrite Eh.
    + rewrite (run_n_next _ _ _ _ (pv (bufs s) b) s); [by apply IH|].
      unfold bget_recycle. rewrite decide_False by done. unfold bind, gets. cbn [obind]. by rewrite Eh.
Qed.

Lemma ring_length bs l : ring bs l → length l = NBUF.
Proof. intros [_ _ Hp _]. rewrite Hp. apply length_seq. Qed.

Lemma bget_cached_loop s dev n l :
  ring (bufs s) l →
  loop (bget_cached dev n) (nx (bufs s) HEAD) s
  = Ret (List.find (λ i, has dev n (getbuf i s)) l) s.
Proof.
  intros Hr. apply (loop_Ret _ (S (length l))); [by rewrite (ring_length _ _ Hr)|].
  apply bget_cached_run; [apply Hr|]. pose proof (ring_NoDup _ _ Hr) as Hd.
  by apply NoDup_cons in Hd as [? _].
Qed.

Lemma bget_recycle_loop s l :
  ring (bufs s) l →
  loop bget_recycle (pv (bufs s) HEAD) s
  = Ret (List.find (λ i, b_refcnt (getbuf i s) =? 0) (reverse l)) s.
Proof.
  intros Hr. apply (loop_Ret _ (S (length (reverse l)))); [by rewrite length_reverse, (ring_length _ _ Hr)|].
  apply bget_recycle_run; [apply Hr|]. pose proof (ring_NoDup _ _ Hr) as Hd.
  apply NoDup_cons in Hd as [? _]. by rewrite elem_of_reverse.
Qed.

(** ** The cache of a device as its clients see it *)

(** What is known of a block: its contents, the number of references to its
    buffer, and the process that holds the buffer. *)
Record binfo : Type := mk_binfo {
  bi_data : list Z;
  bi_refs : Z;
  bi_holder : option Z
}.

Definition buf_info (d : gmap Z (list Z)) (n : Z) (bf : buf) : binfo :=
  {| bi_data := if b_valid bf then b_data bf else dblock d n;
     bi_refs := b_refcnt bf;
     bi_holder := if sl_locked (b_lock bf) then Some (sl_pid (b_lock bf)) else None |}.

(** The number of buffers in use. *)
Definition in_use (bf : buf) : Z := if b_refcnt bf =? 0 then 0 else 1.
Definition nused (bs : list buf) : Z :=
  foldr Z.add 0 ((λ i, in_use (bs !!! i)) <$> seq 0 NBUF).

Arguments nused : simpl never.

Lemma nused_alter bs i g :
  (i < NBUF)%nat → (i < length bs)%nat →
  nused (alter g i bs) = nused bs - in_use (bs !!! i) + in_use (g (bs !!! i)).
Proof.
  intros Hi Hlen. unfold nused.
  assert (∀ l, NoDup l → foldr Z.add 0 ((λ j, in_use (alter g i bs !!! j)) <$> l)
    = foldr Z.add 0 ((λ j, in_use (bs !!! j)) <$> l)
      + (if decide (i ∈ l) then in_use (g (bs !!! i)) - in_use (bs !!! i) else 0)) as Hl.
  { induction l as [|j l IH]; intros Hd; cbn [fmap list_fmap foldr].
    - rewrite decide_False by apply not_elem_of_nil. done.
    - apply NoDup_cons in Hd as [Hj Hd]. rewrite IH by done. rewrite lookup_total_alter by done.
      destruct (decide (j = i)) as [->|Hne].
      + rewrite (decide_False (P := i ∈ l)) by done. rewrite decide_True by (by left). lia.
      + destruct (decide (i ∈ l)).
        * rewrite decide_True by (by right). lia.
        * rewrite decide_False; [lia|]. apply not_elem_of_cons. split; [congruence|done]. }
  rewrite Hl by apply NoDup_seq. rewrite decide_True; [lia|]. apply elem_of_seq. lia.
Qed.

Lemma nused_free bs :
  nused bs < Z.of_nat NBUF → ∃ i, (i < NBUF)%nat ∧ b_refcnt (bs !!! i) = 0.
Proof.
  intros H. unfold nused in H.
  assert (∀ l, foldr Z.add 0 ((λ i, in_use (bs !!! i)) <$> l) < Z.of_nat (length l) →
    ∃ i, i ∈ l ∧ b_refcnt (bs !!! i) = 0) as Hl.
  { induction l as [|j l IH]; cbn [fmap list_fmap foldr length]; [lia|]. unfold in_use at 1.
    destruct (Z.eqb_spec (b_refcnt (bs !!! j)) 0) as [E|E].
    - intros _. exists j. split; [by left|done].
    - intros Hlt. destruct IH as (i & Hin & Hi); [lia|]. exists i. split; [by right|done]. }
  destruct (Hl (seq 0 NBUF)) as (i & Hin & Hi).
  - by rewrite length_seq.
  - exists i. split; [|done]. apply elem_of_seq in Hin. lia.
Qed.

Section cache.
Context (dv : Z).

(** The buffer of a block. *)
Definition slot (bs : list buf) (n : Z) : option nat :=
  List.find (λ i, has dv n (bs !!! i)) (seq 0 NBUF).

#[local] Arguments slot : simpl never.

Definition info (s : kernel) (n : Z) : binfo :=
  match slot (bufs s) n with
  | Some i => buf_info (disk s) n (bufs s !!! i)
  | None => mk_binfo (dblock (disk s) n) 0 None
  end.

(** A buffer that may be recycled holds what the disk has. *)
Record buf_ok (d : gmap Z (list Z)) (bf : buf) : Prop := {
  bo_refs : 0 ≤ b_refcnt bf < 2 ^ 32;
  bo_dev : b_refcnt bf ≠ 0 → b_dev bf = dv;
  bo_clean : b_refcnt bf = 0 → b_valid bf = true → b_dev bf = dv →
             b_data bf = dblock d (b_blockno bf);
  bo_lock : sl_locked (b_lock bf) = true → b_refcnt bf ≠ 0;
  bo_data : b_valid bf = true → length (b_data bf) = Z.to_nat BSIZE
}.

Record cache_ok (s : kernel) : Prop := {
  co_ring : ∃ l, ring (bufs s) l;
  co_uniq : ∀ i j, (i < NBUF)%nat → (j < NBUF)%nat →
    b_dev (bufs s !!! i) = dv → b_dev (bufs s !!! j) = dv →
    b_blockno (bufs s !!! i) = b_blockno (bufs s !!! j) → i = j;
  co_buf : ∀ i, (i < NBUF)%nat → buf_ok (disk s) (bufs s !!! i);
  co_disk : ∀ n, length (dblock (disk s) n) = Z.to_nat BSIZE
}.

Lemma slot_Some s n i :
  cache_ok s →
  slot (bufs s) n = Some i ↔
  (i < NBUF)%nat ∧ b_dev (bufs s !!! i) = dv ∧ b_blockno (bufs s !!! i) = n.
Proof.
  intros Hc. unfold slot. split.
  - intros E. apply find_some in E as [Hin Hh]. apply list_elem_of_In, elem_of_seq in Hin.
    unfold has in Hh. apply andb_true_iff in Hh as [H1%Z.eqb_eq H2%Z.eqb_eq]. split_and!; [lia|done|done].
  - intros (Hi & Hd & Hn). destruct (List.find _ _) as [j|] eqn:E.
    + f_equal. apply find_some in E as [Hin Hh]. apply list_elem_of_In, elem_of_seq in Hin.
      unfold has in Hh. apply andb_true_iff in Hh as [H1%Z.eqb_eq H2%Z.eqb_eq].
      apply (co_uniq s Hc); [lia|done|done|done|congruence].
    + exfalso. pose proof (find_none _ _ E i) as Hf. cbv beta in Hf. unfold has in Hf.
      rewrite Hd, Hn, !Z.eqb_refl in Hf. discriminate Hf. apply list_elem_of_In, elem_of_seq. lia.
Qed.

(** Any walk over all buffers finds the same one. *)
Lemma slot_ring s l n :
  cache_ok s → ring (bufs s) l →
  List.find (λ i, has dv n (getbuf i s)) l = slot (bufs s) n.
Proof.
  intros Hc Hr. destruct (List.find _ l) as [i|] eqn:E.
  - symmetry. apply slot_Some; [done|]. apply find_some in E as [Hin Hh].
    apply list_elem_of_In, (ring_elem _ _ _ Hr) in Hin. unfold has in Hh.
    apply andb_true_iff in Hh as [H1%Z.eqb_eq H2%Z.eqb_eq]. done.
  - destruct (slot (bufs s) n) as [i|] eqn:Es; [|done]. exfalso.
    apply slot_Some in Es as (Hi & Hd & Hn); [|done].
    pose proof (find_none _ _ E i) as Hf. cbv beta in Hf. unfold has, getbuf in Hf.
    rewrite Hd, Hn, !Z.eqb_refl in Hf. discriminate Hf.
    by apply list_elem_of_In, (ring_elem _ _ _ Hr).
Qed.

(** ** Changing one buffer *)

Lemma find_ext_in {A} (f g : A → bool) l :
  (∀ x, x ∈ l → f x = g x) → List.find f l = List.find g l.
Proof.
  induction l as [|x l IH]; intros Hfg; cbn; [done|].
  rewrite Hfg by (by left). rewrite IH; [done|]. intros y Hy. apply Hfg. by right.
Qed.

Lemma ring_keep bs bs' l :
  ring bs l → (∀ x, nx bs' x = nx bs x) → (∀ x, pv bs' x = pv bs x) → length bs' = length bs →
  ring bs' l.
Proof.
  intros [H1 H2 H3 H4] Hn Hp Hl. split; [| |done|congruence].
  - eapply nexts_ext; [|done]. intros x _. by rewrite Hn.
  - eapply nexts_ext; [|done]. intros x _. by rewrite Hp.
Qed.

Lemma cache_length s : cache_ok s → length (bufs s) = S NBUF.
Proof. intros [[l Hr] _ _ _]. apply Hr. Qed.

Lemma lookup_upd_buf s i j g :
  cache_ok s → (i < NBUF)%nat →
  bufs (upd_buf i g s) !!! j = if decide (j = i) then g (bufs s !!! j) else bufs s !!! j.
Proof.
  intros Hc Hi. cbn. apply lookup_total_alter. rewrite (cache_length s Hc). lia.
Qed.

Lemma upd_buf_ring s i g :
  cache_ok s → (i < NBUF)%nat →
  b_next (g (bufs s !!! i)) = b_next (bufs s !!! i) →
  b_prev (g (bufs s !!! i)) = b_prev (bufs s !!! i) →
  ∃ l, ring (bufs (upd_buf i g s)) l.
Proof.
  intros Hc Hi Hn Hp. destruct (co_ring s Hc) as [l Hr]. exists l. eapply ring_keep; [done| | |].
  - intros x. unfold nx. rewrite lookup_upd_buf by done. by case_decide; subst.
  - intros x. unfold pv. rewrite lookup_upd_buf by done. by case_decide; subst.
  - cbn. by rewrite length_alter.
Qed.

(** A change that keeps the buffer's block. *)
Lemma keep_slot s i g n :
  cache_ok s → (i < NBUF)%nat →
  b_dev (g (bufs s !!! i)) = b_dev (bufs s !!! i) →
  b_blockno (g (bufs s !!! i)) = b_blockno (bufs s !!! i) →
  slot (bufs (upd_buf i g s)) n = slot (bufs s) n.
Proof.
  intros Hc Hi Hd Hb. unfold slot. apply find_ext_in. intros j _.
  rewrite lookup_upd_buf by done. case_decide as E; [|done]. subst. unfold has. by rewrite Hd, Hb.
Qed.

Lemma keep_ok s i g :
  cache_ok s → (i < NBUF)%nat →
  b_dev (g (bufs s !!! i)) = b_dev (bufs s !!! i) →
  b_blockno (g (bufs s !!! i)) = b_blockno (bufs s !!! i) →
  b_next (g (bufs s !!! i)) = b_next (bufs s !!! i) →
  b_prev (g (bufs s !!! i)) = b_prev (bufs s !!! i) →
  buf_ok (disk s) (g (bufs s !!! i)) →
  cache_ok (upd_buf i g s).
Proof.
  intros Hc Hi Hd Hb Hn Hp Hok. split; [by apply upd_buf_ring| | |apply Hc].
  - intros j k Hj Hk. rewrite !lookup_upd_buf by done. intros.
    apply (co_uniq s Hc); [done|done|..]; repeat case_decide; subst; congruence.
  - intros j Hj. rewrite lookup_upd_buf by done. case_decide; subst; [done|by apply Hc].
Qed.

Lemma keep_info s i g n :
  cache_ok s → (i < NBUF)%nat →
  b_dev (g (bufs s !!! i)) = b_dev (bufs s !!! i) →
  b_blockno (g (bufs s !!! i)) = b_blockno (bufs s !!! i) →
  info (upd_buf i g s) n =
    if decide (slot (bufs s) n = Some i) then buf_info (disk s) n (g (bufs s !!! i)) else info s n.
Proof.
  intros Hc Hi Hd Hb. unfold info. rewrite keep_slot by done.
  destruct (slot (bufs s) n) as [j|] eqn:E; cbn [disk upd_buf set_bufs].
  - change (disk (upd_buf i g s)) with (disk s). rewrite lookup_upd_buf by done.
    destruct (decide (j = i)) as [->|Hne].
    + by rewrite decide_True.
    + by rewrite decide_False by congruence.
  - by rewrite decide_False.
Qed.

(** A change that gives a free buffer to another block. *)
Section recycle.
Variables (s : kernel) (i : nat) (g : buf → buf) (n : Z).
Hypotheses (Hc : cache_ok s) (Hi : (i < NBUF)%nat) (Hfree : b_refcnt (bufs s !!! i) = 0)
  (Hnone : slot (bufs s) n = None) (Hd : b_dev (g (bufs s !!! i)) = dv)
  (Hb : b_blockno (g (bufs s !!! i)) = n) (Hn : b_next (g (bufs s !!! i)) = b_next (bufs s !!! i))
  (Hp : b_prev (g (bufs s !!! i)) = b_prev (bufs s !!! i)) (Hok : buf_ok (disk s) (g (bufs s !!! i))).

Lemma recycle_not j : (j < NBUF)%nat → b_dev (bufs s !!! j) = dv → b_blockno (bufs s !!! j) ≠ n.
Proof using Hc Hnone.
  intros Hj Hdj Hbj. assert (slot (bufs s) n = Some j) as E by by apply slot_Some. congruence.
Qed.

Lemma recycle_ok : cache_ok (upd_buf i g s).
Proof using All.
  split; [by apply upd_buf_ring| | |apply Hc].
  - intros j k Hj Hk. rewrite !lookup_upd_buf by done. intros Hdj Hdk Hjk.
    destruct (decide (j = i)) as [Ej|Ej], (decide (k = i)) as [Ek|Ek].
    + congruence.
    + exfalso. apply (recycle_not k); [done|done|]. rewrite Ej in Hjk. congruence.
    + exfalso. apply (recycle_not j); [done|done|]. rewrite Ek in Hjk. congruence.
    + by apply (co_uniq s Hc).
  - intros j Hj. rewrite lookup_upd_buf by done.
    destruct (decide (j = i)) as [->|Hne]; [done|by apply Hc].
Qed.

Lemma recycle_slot m :
  slot (bufs (upd_buf i g s)) m =
    if decide (m = n) then Some i
    else if decide (slot (bufs s) m = Some i) then None else slot (bufs s) m.
Proof using All.
  destruct (decide (m = n)) as [->|Hm].
  { apply slot_Some; [apply recycle_ok|]. rewrite lookup_upd_buf by done. by rewrite decide_True. }
  destruct (slot (bufs (upd_buf i g s)) m) as [j|] eqn:E.
  - apply slot_Some in E as (Hj & Hdj & Hbj); [|apply recycle_ok].
    rewrite lookup_upd_buf in Hdj, Hbj by done. case_decide as Eji; [congruence|].
    assert (slot (bufs s) m = Some j) as Es by by apply slot_Some. rewrite Es.
    by rewrite decide_False by congruence.
  - destruct (decide (slot (bufs s) m = Some i)); [done|].
    destruct (slot (bufs s) m) as [j|] eqn:Es; [|done]. exfalso.
    apply slot_Some in Es as (Hj & Hdj & Hbj); [|done].
    assert (slot (bufs (upd_buf i g s)) m = Some j) as E'; [|congruence].
    apply slot_Some; [apply recycle_ok|]. rewrite lookup_upd_buf by done.
    by rewrite decide_False by congruence.
Qed.

Lemma recycle_info m :
  info (upd_buf i g s) m =
    if decide (m = n) then buf_info (disk s) n (g (bufs s !!! i)) else info s m.
Proof using All.
  unfold info. rewrite recycle_slot. destruct (decide (m = n)) as [->|Hm].
  - change (disk (upd_buf i g s)) with (disk s). rewrite lookup_upd_buf by done. by rewrite decide_True.
  - change (disk (upd_buf i g s)) with (disk s).
    destruct (decide (slot (bufs s) m = Some i)) as [Es|Es].
    + rewrite Es. apply slot_Some in Es as (_ & Hdi & Hbi); [|done].
      pose proof (co_buf s Hc i Hi) as [_ _ Hcl Hlk _]. unfold buf_info. rewrite Hfree. f_equal.
      * destruct (b_valid (bufs s !!! i)) eqn:Ev; [|done]. rewrite Hcl by done. by rewrite Hbi.
      * destruct (sl_locked _) eqn:El; [|done]. by destruct (Hlk eq_refl).
    + destruct (slot (bufs s) m) as [j|] eqn:Ej; [|done]. rewrite lookup_upd_buf by done.
      by rewrite decide_False by congruence.
Qed.
End recycle.
End cache.

Arguments slot : simpl never.
