(* ===== verification/CacheOps.v ===== *)
(** * What the operations of the buffer cache do

    The operations of kernel/bio.c, run by a thread that holds no spin lock on a
    disk that serves its requests at once, as changes of what is known of a
    block ([info]): contents, references and holder. *)

From S2P Require Import Prelude Machine Memory State Spinlock Sched Runs Sleeplock Block Bio Cache.

#[export] Existing Instance sync_driver.

Lemma upd_buf_upd_buf i f g s : upd_buf i f (upd_buf i g s) = upd_buf i (λ bf, f (g bf)) s.
Proof. unfold upd_buf. cbn. by rewrite list_alter_alter_eq. Qed.

Lemma unlocked_upd_buf l i g s : unlocked s (upd_buf i g (enter l s)) = upd_buf i g s.
Proof. by destruct s. Qed.

Lemma release_upd_buf l i g s :
  hart_ok s → lock_free s l → release l (upd_buf i g (enter l s)) = Ret tt (upd_buf i g s).
Proof.
  intros Hh Hl. rewrite (release_enter s (upd_buf i g (enter l s)) l Hh Hl eq_refl eq_refl eq_refl).
  by destruct s.
Qed.

Lemma inside_upd_buf l s s1 i g : inside l s s1 → inside l s (upd_buf i g s1).
Proof. done. Qed.

Lemma thread_upd_buf p s i g : thread_ok p s → thread_ok p (upd_buf i g s).
Proof. apply thread_ok_ext; done. Qed.

Lemma bcache_lock p s : thread_ok p s → lock_free s LkBcache.
Proof. intros H. apply H, all_locks_named. set_solver. Qed.

Lemma buf_lock p s i : thread_ok p s → (i < NBUF)%nat → lock_free s (LkSleep (SlBuf i)).
Proof. intros H Hi. by apply H, all_locks_buf. Qed.

(** The pid of the running process. *)
Definition mypid (p : nat) (s : kernel) : Z := p_pid (getproc p s).

(** ** Where the states of the operations differ

    An operation may change the buffers and the disk, and may wake processes. *)
Definition cstep (p : nat) (s s' : kernel) : Prop :=
  s' = set_bufs (bufs s') (set_procs (procs s')
         (set_disk (disk s') (set_disk_writes (disk_writes s') s))) ∧
  procs_wake p (procs s) (procs s').

Lemma cstep_refl p s : cstep p s s.
Proof. split; [by destruct s|apply procs_wake_refl]. Qed.

Lemma cstep_trans p s1 s2 s3 : cstep p s1 s2 → cstep p s2 s3 → cstep p s1 s3.
Proof.
  intros [E1 W1] [E2 W2]. split; [|by eapply procs_wake_trans].
  rewrite E2 at 1. rewrite E1. done.
Qed.

Lemma thread_cstep p s s' : cstep p s s' → thread_ok p s → thread_ok p s'.
Proof. intros [E W] H. eapply thread_ok_ext; [..|done]; try (by rewrite E). apply W. Qed.

Lemma mypid_cstep p s s' : cstep p s s' → mypid p s' = mypid p s.
Proof.
  intros [_ (_ & E & _)]. unfold mypid, getproc. f_equal.
  by rewrite !list_lookup_total_alt, E.
Qed.

Lemma klog_cstep p s s' : cstep p s s' → klog s' = klog s.
Proof. intros [E _]. by rewrite E. Qed.

Lemma sb_cstep p s s' : cstep p s s' → sb s' = sb s.
Proof. intros [E _]. by rewrite E. Qed.

Lemma inodes_cstep p s s' : cstep p s s' → inodes s' = inodes s.
Proof. intros [E _]. by rewrite E. Qed.

Lemma cstep_upd_buf p s i g : cstep p s (upd_buf i g s).
Proof. split; [by destruct s|apply procs_wake_refl]. Qed.

Section ops.
Context (dv : Z).
Hypothesis Hdv : 0 ≤ dv < 2 ^ 32.

(** ** bget *)

Definition take_buf (pid : Z) (bf : buf) : buf :=
  set_b_lock (sl_held pid (b_lock bf)) (set_b_refcnt (u32 (b_refcnt bf + 1)) bf).

Lemma bget_hit p s n i :
  thread_ok p s → cache_ok dv s → slot dv (bufs s) n = Some i →
  sl_locked (b_lock (bufs s !!! i)) = false →
  bget dv n s = Ret i (upd_buf i (take_buf (mypid p s)) s).
Proof.
  intros Ht Hc Hs Hf. pose proof (th_hart p s Ht) as Hh. pose proof (bcache_lock p s Ht) as Hl.
  destruct (co_ring dv s Hc) as [l Hr].
  pose proof Hs as (Hi & _)%(slot_Some dv s n i Hc).
  unfold bget. run (acquire_ok s _ Hh Hl).
  rewrite (bind_Ret _ _ _ (nx (bufs s) HEAD) (enter LkBcache s)) by done.
  rewrite (bind_Ret _ _ _ (Some i) (enter LkBcache s)).
  2:{ change (bufs s) with (bufs (enter LkBcache s)). rewrite (bget_cached_loop _ _ _ l) by done.
      f_equal. rewrite <- Hs. apply (slot_ring dv s l n Hc Hr). }
  cbv beta iota. rewrite (bind_Ret _ _ _ tt (upd_buf i (λ bf, set_b_refcnt (u32 (b_refcnt bf + 1)) bf)
    (enter LkBcache s))) by done.
  run (release_upd_buf _ _ _ _ Hh Hl).
  set (s1 := upd_buf i _ s). pose proof (thread_upd_buf p s i (λ bf, set_b_refcnt (u32 (b_refcnt bf + 1)) bf) Ht) as Ht1.
  fold s1 in Ht1.
  rewrite (bind_Ret _ _ _ tt (upd_sl (SlBuf i) (sl_held (mypid p s)) s1)).
  2:{ apply (acquiresleep_eq (SlBuf i) s1 p); [apply Ht1|apply Ht1|by eapply buf_lock|].
      cbn [getsl]. unfold s1. rewrite (lookup_upd_buf dv) by done. by rewrite decide_True. }
  unfold ret. f_equal. unfold s1. change (upd_sl (SlBuf i) ?f ?x) with
    (upd_buf i (λ b, set_b_lock (f (b_lock b)) b) x). by rewrite upd_buf_upd_buf.
Qed.

Definition recycle_buf (n pid : Z) (bf : buf) : buf :=
  set_b_lock (sl_held pid (b_lock bf))
    (set_b_refcnt 1 (set_b_valid false (set_b_blockno n (set_b_dev dv bf)))).

Lemma bget_miss p s n :
  thread_ok p s → cache_ok dv s → slot dv (bufs s) n = None → nused (bufs s) < Z.of_nat NBUF →
  ∃ i, (i < NBUF)%nat ∧ b_refcnt (bufs s !!! i) = 0 ∧
    bget dv n s = Ret i (upd_buf i (recycle_buf n (mypid p s)) s).
Proof.
  intros Ht Hc Hs Hf. pose proof (th_hart p s Ht) as Hh. pose proof (bcache_lock p s Ht) as Hl.
  destruct (co_ring dv s Hc) as [l Hr].
  destruct (List.find (λ i, b_refcnt (getbuf i s) =? 0) (reverse l)) as [i|] eqn:Ef.
  2:{ exfalso. destruct (nused_free _ Hf) as (i & Hi & Hi0). pose proof (find_none _ _ Ef i) as Hn.
      cbv beta in Hn. unfold getbuf in Hn. rewrite Hi0 in Hn. discriminate Hn.
      apply list_elem_of_In. rewrite elem_of_reverse. by apply (ring_elem _ _ _ Hr). }
  pose proof Ef as Ef'. apply find_some in Ef' as [Hin Hi0%Z.eqb_eq].
  apply list_elem_of_In in Hin. rewrite elem_of_reverse, (ring_elem _ _ _ Hr) in Hin.
  exists i. split_and!; [done|done|].
  unfold bget. run (acquire_ok s _ Hh Hl).
  rewrite (bind_Ret _ _ _ (nx (bufs s) HEAD) (enter LkBcache s)) by done.
  rewrite (bind_Ret _ _ _ None (enter LkBcache s)).
  2:{ change (bufs s) with (bufs (enter LkBcache s)). rewrite (bget_cached_loop _ _ _ l) by done.
      f_equal. rewrite <- Hs. apply (slot_ring dv s l n Hc Hr). }
  cbv beta iota. rewrite (bind_Ret _ _ _ (pv (bufs s) HEAD) (enter LkBcache s)) by done.
  rewrite (bind_Ret _ _ _ (Some i) (enter LkBcache s)).
  2:{ change (bufs s) with (bufs (enter LkBcache s)). rewrite (bget_recycle_loop _ l) by done.
      f_equal. exact Ef. }
  cbv beta iota. unfold bset, modify. unfold bind at 1 2 3 4. cbn [obind].
  rewrite !upd_buf_upd_buf. set (g := λ bf : buf, _).
  run (release_upd_buf _ _ _ _ Hh Hl).
  pose proof (thread_upd_buf p s i g Ht) as Ht1.
  rewrite (bind_Ret _ _ _ tt (upd_sl (SlBuf i) (sl_held (mypid p s)) (upd_buf i g s))).
  2:{ apply (acquiresleep_eq (SlBuf i) (upd_buf i g s) p); [apply Ht1|apply Ht1|by eapply buf_lock|].
      cbn [getsl]. rewrite (lookup_upd_buf dv) by done. rewrite decide_True by done. unfold g. cbn.
      destruct (sl_locked _) eqn:El; [|done]. by destruct (bo_lock dv _ _ (co_buf dv s Hc i Hin) El). }
  unfold ret. f_equal. change (upd_sl (SlBuf i) ?f ?x) with
    (upd_buf i (λ b, set_b_lock (f (b_lock b)) b) x). rewrite upd_buf_upd_buf. done.
Qed.

(** ** Changes of one block *)

Definition used (refs : Z) : Z := if refs =? 0 then 0 else 1.

(** Buffer [i] has block [n] and its data are valid. *)
Definition cached (s : kernel) (n : Z) (i : nat) : Prop :=
  slot dv (bufs s) n = Some i ∧ b_valid (bufs s !!! i) = true.

(** From [s] to [s'] only what is known of block [n] has changed, to [b]. *)
Record cache_change (p : nat) (s s' : kernel) (n : Z) (b : binfo) : Prop := {
  cc_step : cstep p s s';
  cc_ok : cache_ok dv s';
  cc_disk : disk s' = disk s;
  cc_writes : disk_writes s' = disk_writes s;
  cc_info : ∀ m, info dv s' m = if decide (m = n) then b else info dv s m;
  cc_cached : ∀ m i, cached s m i → bi_refs (info dv s m) ≠ 0 → cached s' m i;
  cc_nused : nused (bufs s') = nused (bufs s) - used (bi_refs (info dv s n)) + used (bi_refs b)
}.

Lemma info_slot s n i :
  slot dv (bufs s) n = Some i → info dv s n = buf_info (disk s) n (bufs s !!! i).
Proof. intros E. unfold info. by rewrite E. Qed.

(** A change of a buffer that stays with its block. *)
Lemma keep_change p s n i g :
  cache_ok dv s → slot dv (bufs s) n = Some i →
  b_dev (g (bufs s !!! i)) = b_dev (bufs s !!! i) →
  b_blockno (g (bufs s !!! i)) = b_blockno (bufs s !!! i) →
  b_next (g (bufs s !!! i)) = b_next (bufs s !!! i) →
  b_prev (g (bufs s !!! i)) = b_prev (bufs s !!! i) →
  (b_valid (bufs s !!! i) = true → b_valid (g (bufs s !!! i)) = true) →
  buf_ok dv (disk s) (g (bufs s !!! i)) →
  cache_change p s (upd_buf i g s) n (buf_info (disk s) n (g (bufs s !!! i))).
Proof.
  intros Hc Hs Hd Hb Hn Hp Hval Hok. pose proof Hs as (Hi & Hdi & Hbi)%(slot_Some dv s n i Hc).
  split; try done.
  - apply cstep_upd_buf.
  - by apply keep_ok.
  - intros m. rewrite keep_info by done. destruct (decide (m = n)) as [->|Hm].
    + by rewrite decide_True.
    + rewrite decide_False; [done|]. intros (_ & _ & Hbm)%(slot_Some dv s m i Hc). congruence.
  - intros m j [Hm Hv] _. split; [by rewrite (keep_slot dv) by done|].
    rewrite (lookup_upd_buf dv) by done. destruct (decide (j = i)) as [->|]; auto.
  - cbn [bufs upd_buf set_bufs]. change (bufs (upd_buf i g s)) with (alter g i (bufs s)).
    rewrite nused_alter by (rewrite ?(cache_length dv s Hc); lia).
    rewrite (info_slot s n i Hs). done.
Qed.

Lemma recycle_change p s n i g :
  cache_ok dv s → slot dv (bufs s) n = None → (i < NBUF)%nat → b_refcnt (bufs s !!! i) = 0 →
  b_dev (g (bufs s !!! i)) = dv → b_blockno (g (bufs s !!! i)) = n →
  b_next (g (bufs s !!! i)) = b_next (bufs s !!! i) →
  b_prev (g (bufs s !!! i)) = b_prev (bufs s !!! i) →
  buf_ok dv (disk s) (g (bufs s !!! i)) →
  cache_change p s (upd_buf i g s) n (buf_info (disk s) n (g (bufs s !!! i))) ∧
  slot dv (bufs (upd_buf i g s)) n = Some i.
Proof.
  intros Hc Hs Hi H0 Hd Hb Hn Hp Hok. split; [|rewrite (recycle_slot dv _ _ _ n) by done; by rewrite decide_True].
  split; try done.
  - apply cstep_upd_buf.
  - by apply (recycle_ok dv _ _ _ n).
  - intros m. by apply recycle_info.
  - intros m j [Hm Hv] Hr.
    assert (slot dv (bufs s) m ≠ Some i) as Hmi.
    { intros E. apply Hr. rewrite (info_slot s m i E). exact H0. }
    split.
    + rewrite (recycle_slot dv _ _ _ n) by done. rewrite decide_False by congruence.
      by rewrite decide_False.
    + rewrite (lookup_upd_buf dv) by done. by rewrite decide_False by congruence.
  - change (bufs (upd_buf i g s)) with (alter g i (bufs s)).
    rewrite nused_alter by (rewrite ?(cache_length dv s Hc); lia).
    unfold info. rewrite Hs. unfold in_use at 1. rewrite H0. done.
Qed.

(** ** bread *)

(** Reading a block that nobody holds gives its buffer, locked, with the
    contents of the block. *)
Lemma bread_spec p s n :
  thread_ok p s → cache_ok dv s → 0 ≤ n < 2 ^ 32 → bi_holder (info dv s n) = None →
  (bi_refs (info dv s n) ≠ 0 ∨ nused (bufs s) < Z.of_nat NBUF) →
  bi_refs (info dv s n) + 1 < 2 ^ 32 →
  ∃ i s', bread dv n s = Ret i s' ∧ slot dv (bufs s') n = Some i ∧
    b_valid (bufs s' !!! i) = true ∧ b_data (bufs s' !!! i) = bi_data (info dv s n) ∧
    cache_change p s s' n
      (mk_binfo (bi_data (info dv s n)) (bi_refs (info dv s n) + 1) (Some (mypid p s))).
Proof using Hdv.
  intros Ht Hc Hn Hh Hroom Hmax. unfold bread. rewrite !u32_small by done.
  destruct (slot dv (bufs s) n) as [i|] eqn:Es.
  - rewrite (info_slot s n i Es) in *. cbn in Hh, Hroom, Hmax.
    pose proof Es as (Hi & Hdi & Hbi)%(slot_Some dv s n i Hc).
    pose proof (co_buf dv s Hc i Hi) as [Hr1 Hr2 Hr3 Hr4 Hr5].
    rewrite (bind_Ret _ _ _ i (upd_buf i (take_buf (mypid p s)) s))
      by (apply bget_hit; try done; destruct (sl_locked _); done).
    set (bf := bufs s !!! i) in *.
    assert (bufs (upd_buf i (take_buf (mypid p s)) s) !!! i = take_buf (mypid p s) bf) as E1
      by (rewrite (lookup_upd_buf dv) by done; by rewrite decide_True).
    unfold bfield, gets. unfold bind at 1. cbn [obind]. unfold getbuf. rewrite E1.
    change (b_valid (take_buf (mypid p s) bf)) with (b_valid bf).
    assert (buf_ok dv (disk s) (take_buf (mypid p s) bf)) as Hok1.
    { split; cbn; rewrite ?u32_small by lia; try done; lia. }
    destruct (b_valid bf) eqn:Ev.
    + exists i, (upd_buf i (take_buf (mypid p s)) s). split; [done|].
      pose proof (keep_change p s n i (take_buf (mypid p s)) Hc Es eq_refl eq_refl eq_refl eq_refl id Hok1) as Hcc.
      rewrite E1. split_and!.
      * by rewrite (keep_slot dv).
      * exact Ev.
      * cbn. by rewrite Ev.
      * fold bf in Hcc. unfold buf_info in *. cbn in *. rewrite Ev in *. rewrite u32_small in Hcc by lia. exact Hcc.
    + set (g := λ b, set_b_valid true (set_b_data (dblock (disk s) n) (take_buf (mypid p s) b))).
      exists i, (upd_buf i g s). split.
      { unfold when, negb. unfold disk_rw, sync_driver, sync_rw, bset, modify, bind, gets. cbn [obind ret].
        unfold getbuf. rewrite E1. change (b_blockno (take_buf (mypid p s) bf)) with (b_blockno bf). rewrite Hbi.
        change (disk (upd_buf i (take_buf (mypid p s)) s)) with (disk s).
        unfold ret. rewrite !upd_buf_upd_buf. done. }
      assert (buf_ok dv (disk s) (g bf)) as Hok2.
      { split; cbn; rewrite ?u32_small by lia; try done; try lia. intros _. apply (co_disk dv s Hc). }
      pose proof (keep_change p s n i g Hc Es eq_refl eq_refl eq_refl eq_refl (λ _, eq_refl) Hok2) as Hcc. split_and!.
      * by rewrite (keep_slot dv).
      * rewrite (lookup_upd_buf dv) by done. by rewrite decide_True.
      * rewrite (lookup_upd_buf dv) by done. rewrite decide_True by done. cbn. by rewrite Ev.
      * fold bf in Hcc. unfold buf_info in *. cbn in *. rewrite Ev. rewrite u32_small in Hcc by lia. exact Hcc.
  - assert (info dv s n = mk_binfo (dblock (disk s) n) 0 None) as Ei by (unfold info; by rewrite Es).
    rewrite Ei in *. cbn in Hroom.
    destruct (bget_miss p s n Ht Hc Es) as (i & Hi & H0 & Eg); [destruct Hroom; [done|lia]|].
    run Eg. set (bf := bufs s !!! i) in *.
    assert (bufs (upd_buf i (recycle_buf n (mypid p s)) s) !!! i = recycle_buf n (mypid p s) bf) as E1
      by (rewrite (lookup_upd_buf dv) by done; by rewrite decide_True).
    unfold bfield, gets. unfold bind at 1. cbn [obind]. unfold getbuf. rewrite E1.
    set (g := λ b, set_b_valid true (set_b_data (dblock (disk s) n) (recycle_buf n (mypid p s) b))).
    exists i, (upd_buf i g s). split.
    { cbn [recycle_buf set_b_lock set_b_refcnt set_b_valid b_valid negb when].
      unfold disk_rw, sync_driver, sync_rw, bset, modify, bind, gets. cbn [obind ret].
      unfold getbuf. rewrite E1. change (b_blockno (recycle_buf n (mypid p s) bf)) with n.
      change (disk (upd_buf i (recycle_buf n (mypid p s)) s)) with (disk s).
      unfold ret. rewrite !upd_buf_upd_buf. done. }
    assert (buf_ok dv (disk s) (g bf)) as Hok2.
    { split; cbn; try done; try lia. intros _. apply (co_disk dv s Hc). }
    destruct (recycle_change p s n i g Hc Es Hi H0 eq_refl eq_refl eq_refl eq_refl Hok2) as [Hcc Hsl].
    rewrite (lookup_upd_buf dv) by done. rewrite decide_True by done.
    split_and!; [exact Hsl|done|done|exact Hcc].
Qed.

(** ** bwrite and changes of the data *)

(** The running process holds buffer [i] of block [n]. *)
Record holds (p : nat) (s : kernel) (n : Z) (i : nat) : Prop := {
  ho_slot : slot dv (bufs s) n = Some i;
  ho_valid : b_valid (bufs s !!! i) = true;
  ho_holder : bi_holder (info dv s n) = Some (mypid p s)
}.

Lemma holds_cached p s n i : holds p s n i → cached s n i.
Proof. by intros [H1 H2 _]. Qed.

Lemma holds_buf p s n i :
  cache_ok dv s → holds p s n i →
  (i < NBUF)%nat ∧ b_blockno (bufs s !!! i) = n ∧ b_dev (bufs s !!! i) = dv ∧
  b_data (bufs s !!! i) = bi_data (info dv s n) ∧
  b_refcnt (bufs s !!! i) = bi_refs (info dv s n) ∧ bi_refs (info dv s n) ≠ 0 ∧
  sl_locked (b_lock (bufs s !!! i)) = true ∧ sl_pid (b_lock (bufs s !!! i)) = mypid p s.
Proof.
  intros Hc [Hs Hv Hh]. pose proof Hs as (Hi & Hd & Hb)%(slot_Some dv s n i Hc).
  rewrite (info_slot s n i Hs) in *. cbn in *. rewrite Hv.
  destruct (sl_locked _) eqn:El; [|done]. injection Hh as Hh.
  pose proof (bo_lock dv _ _ (co_buf dv s Hc i Hi) El). done.
Qed.

Lemma holdingsleep_buf p s n i :
  thread_ok p s → cache_ok dv s → holds p s n i → holdingsleep (SlBuf i) s = Ret true s.
Proof.
  intros Ht Hc Hh. destruct (holds_buf p s n i Hc Hh) as (Hi & _ & _ & _ & _ & _ & Hl & Hp).
  rewrite (holdingsleep_eq _ _ p); [|apply Ht|apply Ht|by eapply buf_lock].
  cbn [getsl]. rewrite Hl, Hp. unfold mypid. by rewrite Z.eqb_refl.
Qed.

(** A change of another block leaves the buffer held. *)
Lemma holds_other p s s' n m b i :
  cache_ok dv s → cache_change p s s' n b → m ≠ n → holds p s m i → holds p s' m i.
Proof.
  intros Hc Hcc Hne Hh. destruct (holds_buf p s m i Hc Hh) as (_ & _ & _ & _ & _ & Hr & _ & _).
  destruct (cc_cached _ _ _ _ _ Hcc m i (holds_cached _ _ _ _ Hh) Hr) as [H1 H2].
  split; [done|done|]. rewrite (cc_info _ _ _ _ _ Hcc), decide_False by done.
  rewrite (mypid_cstep p s s' (cc_step _ _ _ _ _ Hcc)). apply Hh.
Qed.

(** Contents of the other blocks do not depend on one block of the disk. *)
Lemma dblock_insert d n m v : dblock (<[n := v]> d) m = if decide (m = n) then v else dblock d m.
Proof.
  unfold dblock. destruct (decide (m = n)) as [->|Hne].
  - by rewrite lookup_insert_eq.
  - by rewrite lookup_insert_ne.
Qed.

Definition disk_write (n : Z) (v : list Z) (s : kernel) : kernel :=
  set_disk_writes (disk_writes s ++ [(n, v)]) (set_disk (<[n := v]> (disk s)) s).

(** [bwrite] makes the disk agree with the buffer, and nothing else changes. *)
Lemma bwrite_spec p s n i :
  thread_ok p s → cache_ok dv s → holds p s n i →
  let s' := disk_write n (bi_data (info dv s n)) s in
  bwrite i s = Ret tt s' ∧ cstep p s s' ∧ cache_ok dv s' ∧ ∀ m, info dv s' m = info dv s m.
Proof.
  intros Ht Hc Hh s'. destruct (holds_buf p s n i Hc Hh) as (Hi & Hb & Hd & Hda & Hr & Hr0 & _ & _).
  pose proof (ho_valid _ _ _ _ Hh) as Hv. pose proof (ho_slot _ _ _ _ Hh) as Hs.
  assert (disk s' = <[n := bi_data (info dv s n)]> (disk s)) as Hds by done.
  split_and!.
  - unfold bwrite. run (holdingsleep_buf p s n i Ht Hc Hh). cbn [negb].
    unfold disk_rw, sync_driver, sync_rw, bind, gets, modify. cbn [obind]. unfold getbuf.
    by rewrite Hb, Hda.
  - split; [by destruct s|apply procs_wake_refl].
  - pose proof (bo_data dv _ _ (co_buf dv s Hc i Hi) Hv) as Hlen. rewrite Hda in Hlen.
    destruct Hc as [Hring Huniq Hbuf Hdisk]. split; [done|done| |].
    + intros j Hj. destruct (Hbuf j Hj) as [H1 H2 H3 H4 H5]. split; try done.
      intros Hz Hvj Hdj. rewrite Hds, dblock_insert. change (bufs s') with (bufs s) in *.
      destruct (decide (b_blockno (bufs s !!! j) = n)) as [E|E]; [|by apply H3].
      assert (j = i) as -> by (apply Huniq; congruence). congruence.
    + intros m. rewrite Hds, dblock_insert. by case_decide.
  - intros m. unfold info. change (bufs s') with (bufs s).
    destruct (decide (m = n)) as [->|Hm].
    + rewrite Hs. unfold buf_info. by rewrite Hv.
    + assert (dblock (disk s') m = dblock (disk s) m) as E.
      { rewrite Hds, dblock_insert. by rewrite decide_False. }
      destruct (slot dv (bufs s) m); [|by rewrite E]. unfold buf_info. by rewrite E.
Qed.

(** An assignment to the data of a held buffer. *)
Lemma bdata_spec p s n i f :
  cache_ok dv s → holds p s n i →
  (∀ l, length l = Z.to_nat BSIZE → length (f l) = Z.to_nat BSIZE) →
  ∃ s', bdata i f s = Ret tt s' ∧ holds p s' n i ∧
    cache_change p s s' n (mk_binfo (f (bi_data (info dv s n))) (bi_refs (info dv s n))
                             (bi_holder (info dv s n))).
Proof.
  intros Hc Hh Hf. destruct (holds_buf p s n i Hc Hh) as (Hi & Hb & Hd & Hda & Hr & Hr0 & Hl & Hp).
  pose proof Hh as [Hs Hv Hhh]. set (g := λ bf, set_b_data (f (b_data bf)) bf).
  exists (upd_buf i g s). split; [done|].
  pose proof (co_buf dv s Hc i Hi) as [H1 H2 H3 H4 H5].
  assert (buf_ok dv (disk s) (g (bufs s !!! i))) as Hok.
  { split; cbn; try done; [intros E _ _; congruence|]. intros _. by apply Hf, H5. }
  pose proof (keep_change p s n i g Hc Hs eq_refl eq_refl eq_refl eq_refl id Hok) as Hcc.
  assert (buf_info (disk s) n (g (bufs s !!! i)) = mk_binfo (f (bi_data (info dv s n))) (bi_refs (info dv s n))
                             (bi_holder (info dv s n))) as E.
  { rewrite (info_slot s n i Hs). unfold buf_info. cbn. by rewrite Hv. }
  rewrite E in Hcc. split; [|done]. split.
  - by rewrite (keep_slot dv).
  - rewrite (lookup_upd_buf dv) by done. by rewrite decide_True.
  - rewrite (cc_info _ _ _ _ _ Hcc). by rewrite decide_True.
Qed.

(** ** bpin and bunpin *)

Definition add_ref (k : Z) (bf : buf) : buf := set_b_refcnt (u32 (b_refcnt bf + k)) bf.

Lemma add_ref_change p s n i k :
  cache_ok dv s → slot dv (bufs s) n = Some i → b_valid (bufs s !!! i) = true →
  bi_refs (info dv s n) ≠ 0 →
  0 ≤ bi_refs (info dv s n) + k < 2 ^ 32 →
  (bi_refs (info dv s n) + k = 0 →
     bi_data (info dv s n) = dblock (disk s) n ∧ bi_holder (info dv s n) = None) →
  cache_change p s (upd_buf i (add_ref k) s) n
    (mk_binfo (bi_data (info dv s n)) (bi_refs (info dv s n) + k) (bi_holder (info dv s n))).
Proof.
  intros Hc Hs Hv Hr0 Hk Hz. pose proof Hs as (Hi & Hd & Hb)%(slot_Some dv s n i Hc).
  rewrite (info_slot s n i Hs) in *. cbn in Hr0, Hk, Hz. rewrite Hv in Hz.
  pose proof (co_buf dv s Hc i Hi) as [H1 H2 H3 H4 H5].
  assert (buf_ok dv (disk s) (add_ref k (bufs s !!! i))) as Hok.
  { split; cbn; rewrite ?u32_small by lia; try done.
    - intros E _ _. destruct (Hz E) as [-> _]. by rewrite Hb.
    - intros El E. destruct (Hz E) as [_ Hn]. rewrite El in Hn. done. }
  pose proof (keep_change p s n i (add_ref k) Hc Hs eq_refl eq_refl eq_refl eq_refl id Hok) as Hcc.
  unfold buf_info in *. cbn in *. rewrite u32_small in Hcc by lia. exact Hcc.
Qed.

Lemma ref_op_hart s i k :
  hart_ok s → lock_free s LkBcache →
  (acquire LkBcache ;;; bset i (add_ref k) ;;; release LkBcache) s
  = Ret tt (upd_buf i (add_ref k) s).
Proof.
  intros Hh Hl. run (acquire_ok s _ Hh Hl).
  rewrite (bind_Ret _ _ _ tt (upd_buf i (add_ref k) (enter LkBcache s))) by done.
  by apply release_upd_buf.
Qed.

Lemma bpin_hart s i : hart_ok s → lock_free s LkBcache → bpin i s = Ret tt (upd_buf i (add_ref 1) s).
Proof. intros Hh Hl. by apply ref_op_hart. Qed.

Lemma bpin_eq p s i : thread_ok p s → bpin i s = Ret tt (upd_buf i (add_ref 1) s).
Proof. intros Ht. apply bpin_hart; [apply Ht|by eapply bcache_lock]. Qed.

Lemma bunpin_eq p s i : thread_ok p s → bunpin i s = Ret tt (upd_buf i (add_ref (-1)) s).
Proof. intros Ht. apply (ref_op_hart s i (-1)); [apply Ht|by eapply bcache_lock]. Qed.

(** ** brelse *)

(** Two tables that differ in the links only. *)
Definition core_eq (bs bs' : list buf) : Prop :=
  ∀ j, bs' !!! j = set_b_next (b_next (bs' !!! j)) (set_b_prev (b_prev (bs' !!! j)) (bs !!! j)).

Lemma core_eq_trans bs1 bs2 bs3 : core_eq bs1 bs2 → core_eq bs2 bs3 → core_eq bs1 bs3.
Proof. intros H1 H2 j. rewrite (H2 j), (H1 j). done. Qed.

Lemma core_eq_next bs i v : core_eq bs (alter (set_b_next v) i bs).
Proof.
  intros j. destruct (decide (i < length bs)%nat) as [Hi|Hi].
  - rewrite lookup_total_alter by done. case_decide; by destruct (bs !!! j).
  - assert (alter (set_b_next v) i bs = bs) as ->; [|by destruct (bs !!! j)].
    apply list_eq. intros k. destruct (decide (k = i)) as [->|Hk].
    + rewrite list_lookup_alter_eq. by rewrite lookup_ge_None_2 by lia.
    + by rewrite list_lookup_alter_ne.
Qed.

Lemma core_eq_prev bs i v : core_eq bs (alter (set_b_prev v) i bs).
Proof.
  intros j. destruct (decide (i < length bs)%nat) as [Hi|Hi].
  - rewrite lookup_total_alter by done. case_decide; by destruct (bs !!! j).
  - assert (alter (set_b_prev v) i bs = bs) as ->; [|by destruct (bs !!! j)].
    apply list_eq. intros k. destruct (decide (k = i)) as [->|Hk].
    + rewrite list_lookup_alter_eq. by rewrite lookup_ge_None_2 by lia.
    + by rewrite list_lookup_alter_ne.
Qed.

Lemma core_eq_relink bs b : core_eq bs (relink b bs).
Proof.
  unfold relink. cbv zeta.
  repeat (eapply core_eq_trans; [|first [apply core_eq_next|apply core_eq_prev]]).
  intros j. by destruct (bs !!! j).
Qed.

Lemma core_slot bs bs' n : core_eq bs bs' → slot dv bs' n = slot dv bs n.
Proof. intros Hce. unfold slot. apply find_ext_in. intros j _. unfold has. by rewrite (Hce j). Qed.

Lemma core_info s ps bs' n :
  core_eq (bufs s) bs' → info dv (set_procs ps (set_bufs bs' s)) n = info dv s n.
Proof.
  intros Hce. unfold info. cbn [bufs disk set_procs set_bufs]. rewrite (core_slot _ _ _ Hce).
  destruct (slot dv (bufs s) n) as [i|]; [|done]. unfold buf_info. by rewrite (Hce i).
Qed.

Lemma core_ok s ps bs' :
  cache_ok dv s → core_eq (bufs s) bs' → (∃ l, ring bs' l) →
  cache_ok dv (set_procs ps (set_bufs bs' s)).
Proof.
  intros [Hring Huniq Hbuf Hdisk] Hce Hr. split; cbn [bufs disk set_procs set_bufs]; [done| | |done].
  - intros i j Hi Hj. rewrite (Hce i), (Hce j). cbn. by apply Huniq.
  - intros i Hi. destruct (Hbuf i Hi) as [H1 H2 H3 H4 H5]. rewrite (Hce i). by split.
Qed.

Lemma core_nused bs bs' : core_eq bs bs' → nused bs' = nused bs.
Proof.
  intros Hce. unfold nused. f_equal. apply list_fmap_ext. intros i j _. unfold in_use. by rewrite (Hce j).
Qed.

Lemma core_change p s n b s1 ps bs' :
  cache_change p s s1 n b → procs_wake p (procs s1) ps →
  core_eq (bufs s1) bs' → (∃ l, ring bs' l) →
  cache_change p s (set_procs ps (set_bufs bs' s1)) n b.
Proof.
  intros [C1 C2 C3 C4 C5 C6 C7] Hw Hce Hr. split; try done.
  - eapply cstep_trans; [done|]. split; [by destruct s1|done].
  - by apply core_ok.
  - intros m. by rewrite core_info.
  - intros m i Hm Hrm. destruct (C6 m i Hm Hrm) as [Hsl Hv].
    unfold cached. change (bufs (set_procs ps (set_bufs bs' s1))) with bs'.
    rewrite (core_slot _ _ _ Hce). split; [done|]. by rewrite (Hce i).
  - change (bufs (set_procs ps (set_bufs bs' s1))) with bs'. by rewrite (core_nused _ _ Hce).
Qed.

Definition drop_buf (bf : buf) : buf := add_ref (-1) (set_b_lock (sl_free (b_lock bf)) bf).

Lemma drop_change p s n i :
  cache_ok dv s → holds p s n i →
  (bi_refs (info dv s n) = 1 → bi_data (info dv s n) = dblock (disk s) n) →
  cache_change p s (upd_buf i drop_buf s) n
    (mk_binfo (bi_data (info dv s n)) (bi_refs (info dv s n) - 1) None).
Proof.
  intros Hc Hh Hcl. destruct (holds_buf p s n i Hc Hh) as (Hi & Hb & Hd & Hda & Hr & Hr0 & Hl & Hp).
  pose proof Hh as [Hs Hv Hhh]. pose proof (co_buf dv s Hc i Hi) as [H1 H2 H3 H4 H5].
  rewrite (info_slot s n i Hs) in *. cbn in Hr0, Hcl. rewrite Hv in Hcl.
  assert (buf_ok dv (disk s) (drop_buf (bufs s !!! i))) as Hok.
  { split; cbn; rewrite ?u32_small by lia; try done; try lia.
    intros E _ _. rewrite Hb. apply Hcl. lia. }
  pose proof (keep_change p s n i drop_buf Hc Hs eq_refl eq_refl eq_refl eq_refl id Hok) as Hcc.
  unfold buf_info in *. cbn in *. rewrite u32_small in Hcc by lia. exact Hcc.
Qed.

(** Releasing a held buffer drops the lock and one reference; the last
    reference may only be dropped when the buffer agrees with the disk. *)
Lemma brelse_spec p s n i :
  thread_ok p s → cache_ok dv s → holds p s n i →
  (bi_refs (info dv s n) = 1 → bi_data (info dv s n) = dblock (disk s) n) →
  ∃ s', brelse i s = Ret tt s' ∧
    cache_change p s s' n (mk_binfo (bi_data (info dv s n)) (bi_refs (info dv s n) - 1) None).
Proof.
  intros Ht Hc Hh Hcl. destruct (holds_buf p s n i Hc Hh) as (Hi & Hb & Hd & Hda & Hr & Hr0 & Hl & Hp).
  pose proof (drop_change p s n i Hc Hh Hcl) as Hcc.
  unfold brelse. run (holdingsleep_buf p s n i Ht Hc Hh). cbn [negb].
  run (releasesleep_eq (SlBuf i) s p Ht (buf_lock p s i Ht Hi)).
  set (ps := woken _ _ _).
  set (s1 := set_procs ps (upd_sl (SlBuf i) sl_free s)).
  assert (procs_wake p (procs s) ps) as Hw by apply woken_wake.
  assert (thread_ok p s1) as Ht1 by (eapply thread_ok_ext; [..|exact Ht]; try done; apply Hw).
  pose proof (th_hart p s1 Ht1) as Hh1. pose proof (bcache_lock p s1 Ht1) as Hl1.
  run (acquire_ok s1 _ Hh1 Hl1).
  set (s2 := enter LkBcache s1).
  rewrite (bind_Ret _ _ _ tt (upd_buf i (add_ref (-1)) s2)) by done.
  assert (bufs (upd_buf i (add_ref (-1)) s2) = bufs (upd_buf i drop_buf s)) as Ebs.
  { cbn. by rewrite list_alter_alter_eq. }
  assert (bufs (upd_buf i drop_buf s) !!! i = drop_buf (bufs s !!! i)) as Ei
    by (rewrite (lookup_upd_buf dv) by done; by rewrite decide_True).
  pose proof (co_buf dv s Hc i Hi) as [H1 _ _ _ _].
  rewrite (bind_Ret _ _ _ (drop_buf (bufs s !!! i)) (upd_buf i (add_ref (-1)) s2))
    by (unfold gets, getbuf; by rewrite Ebs, Ei).
  change (b_refcnt (drop_buf (bufs s !!! i))) with (u32 (b_refcnt (bufs s !!! i) + -1)).
  set (bs2 := bufs (upd_buf i drop_buf s)) in *.
  set (bs3 := if u32 (b_refcnt (bufs s !!! i) + -1) =? 0 then relink i bs2 else bs2).
  rewrite (bind_Ret _ _ _ tt (set_bufs bs3 s2)).
  2:{ unfold bs3. destruct (_ =? 0).
      - rewrite <- Ebs. unfold when, bset, bfield, modify, gets, bind. cbn [obind]. unfold getbuf.
        assert (drop_buf (bufs s !!! i) = bufs (upd_buf i (add_ref (-1)) s2) !!! i) as -> by by rewrite Ebs, Ei.
        reflexivity.
      - rewrite <- Ebs. reflexivity. }
  rewrite (release_enter s1 (set_bufs bs3 s2) _ Hh1 Hl1 eq_refl eq_refl eq_refl).
  exists (set_procs ps (set_bufs bs3 (upd_buf i drop_buf s))). split; [by destruct s|].
  destruct (cc_ok _ _ _ _ _ Hcc) as [[l Hring] _ _ _].
  apply core_change; [done|exact Hw| |].
  - unfold bs3. destruct (_ =? 0); [apply core_eq_relink|]. intros j. by destruct (_ !!! j).
  - unfold bs3. destruct (_ =? 0); [|by exists l].
    assert (i ∈ l) as Hin by by apply (ring_elem _ _ _ Hring).
    apply list_elem_of_split in Hin as (l1 & l2 & ->). eexists. by apply relink_ring.
Qed.
End ops.
