(* ===== verification/CacheLogic.v ===== *)
(** * Rules for clients of the buffer cache

    A client's view of the cache: what is known of each block, the disk, the
    writes made, how many buffers are in use and which buffers the client
    holds.  One rule per operation says how it changes the view. *)

From S2P Require Import Prelude Machine Memory State Spinlock Sched Runs Sleeplock Block Bio Cache.
From S2P Require Import CacheOps.

Record cview : Type := mk_cview {
  cv_info : Z → binfo;
  cv_disk : gmap Z (list Z);
  cv_writes : list (Z * list Z);
  cv_used : Z;
  cv_held : list (Z * nat)
}.

(** Replacing what is known of one block. *)
Definition set_at {A} (n : Z) (a : A) (f : Z → A) : Z → A := λ m, if decide (m = n) then a else f m.

Section rules.
Context (dv : Z) (p : nat).
Hypothesis Hdv : 0 ≤ dv < 2 ^ 32.

Record sees (s0 s : kernel) (v : cview) : Prop := {
  se_thread : thread_ok p s;
  se_step : cstep p s0 s;
  se_ok : cache_ok dv s;
  se_info : ∀ m, info dv s m = cv_info v m;
  se_disk : disk s = cv_disk v;
  se_writes : disk_writes s = cv_writes v;
  se_used : nused (bufs s) = cv_used v;
  se_held : ∀ n i, (n, i) ∈ cv_held v → holds dv p s n i
}.

Lemma sees_pid s0 s v : sees s0 s v → mypid p s = mypid p s0.
Proof. intros Hs. apply mypid_cstep, Hs. Qed.

Lemma sees_rebase s0 s v : sees s0 s v → sees s s v.
Proof. intros [H1 H2 H3 H4 H5 H6 H7 H8]. split; try done. apply cstep_refl. Qed.

(** The view after a change of block [n]. *)
Definition change (n : Z) (b : binfo) (held : list (Z * nat)) (v : cview) : cview :=
  mk_cview (set_at n b (cv_info v)) (cv_disk v) (cv_writes v)
    (cv_used v - used (bi_refs (cv_info v n)) + used (bi_refs b)) held.

Lemma sees_change s0 s s' v n b held :
  sees s0 s v → cache_change dv p s s' n b →
  (∀ m i, (m, i) ∈ held → holds dv p s' m i) →
  sees s0 s' (change n b held v).
Proof.
  intros [H1 H2 H3 H4 H5 H6 H7 H8] [C1 C2 C3 C4 C5 C6 C7] Hheld. split; cbn.
  - by eapply thread_cstep.
  - by eapply cstep_trans.
  - done.
  - intros m. rewrite C5. unfold set_at. case_decide; [done|apply H4].
  - congruence.
  - congruence.
  - rewrite C7, H7, H4. done.
  - done.
Qed.

Lemma sees_held_other s0 s s' v n b m i :
  sees s0 s v → cache_change dv p s s' n b → (m, i) ∈ cv_held v → m ≠ n → holds dv p s' m i.
Proof.
  intros Hs Hcc Hin Hne. eapply holds_other; [apply Hs|done|done|by apply Hs].
Qed.

(** Who is held has a holder. *)
Lemma sees_holder s0 s v n i :
  sees s0 s v → (n, i) ∈ cv_held v → bi_holder (cv_info v n) = Some (mypid p s).
Proof. intros Hs Hin. rewrite <- (se_info _ _ _ Hs). by apply (se_held _ _ _ Hs n i Hin). Qed.

Lemma sees_bread s0 s v n :
  sees s0 s v → 0 ≤ n < 2 ^ 32 → bi_holder (cv_info v n) = None →
  (bi_refs (cv_info v n) ≠ 0 ∨ cv_used v < Z.of_nat NBUF) →
  bi_refs (cv_info v n) + 1 < 2 ^ 32 →
  runs (bread dv n) s (λ i s',
    sees s0 s' (change n (mk_binfo (bi_data (cv_info v n)) (bi_refs (cv_info v n) + 1)
                           (Some (mypid p s0))) ((n, i) :: cv_held v) v)).
Proof using Hdv.
  intros Hs Hn Hh Hroom Hmax. pose proof Hs as [H1 H2 H3 H4 H5 H6 H7 H8].
  destruct (bread_spec dv Hdv p s n H1 H3 Hn) as (i & s' & E & Hsl & Hv & Hda & Hcc).
  - by rewrite H4.
  - by rewrite H4, H7.
  - by rewrite H4.
  - exists i, s'. split; [done|]. rewrite H4, (sees_pid _ _ _ Hs) in Hcc.
    eapply sees_change; [done|done|]. intros m j Hin. apply elem_of_cons in Hin as [Heq|Hin].
    + injection Heq as -> ->. split; [done|done|].
      rewrite (cc_info _ _ _ _ _ _ Hcc), decide_True by done. cbn. f_equal.
      rewrite (mypid_cstep p s s' (cc_step _ _ _ _ _ _ Hcc)). symmetry. by eapply sees_pid.
    + eapply sees_held_other; [done|done|done|]. intros ->.
      rewrite (sees_holder s0 s v n j Hs Hin) in Hh. done.
Qed.

Lemma sees_data s0 s v n i :
  sees s0 s v → (n, i) ∈ cv_held v → bfield i b_data s = Ret (bi_data (cv_info v n)) s.
Proof.
  intros Hs Hin. unfold bfield, gets, getbuf. f_equal. rewrite <- (se_info _ _ _ Hs).
  by eapply holds_buf; [apply Hs|apply Hs].
Qed.

Lemma sees_blockno s0 s v n i :
  sees s0 s v → (n, i) ∈ cv_held v → bfield i b_blockno s = Ret n s.
Proof.
  intros Hs Hin. unfold bfield, gets, getbuf. f_equal.
  by eapply (holds_buf dv p s n i); [apply Hs|apply Hs].
Qed.

Lemma sees_bdata s0 s v n i f :
  sees s0 s v → (n, i) ∈ cv_held v →
  (∀ l, length l = Z.to_nat BSIZE → length (f l) = Z.to_nat BSIZE) →
  runs (bdata i f) s (λ _ s',
    sees s0 s' (change n (mk_binfo (f (bi_data (cv_info v n))) (bi_refs (cv_info v n))
                           (bi_holder (cv_info v n))) (cv_held v) v)).
Proof.
  intros Hs Hin Hf. pose proof (se_held _ _ _ Hs n i Hin) as Hh.
  destruct (bdata_spec dv p s n i f (se_ok _ _ _ Hs) Hh Hf) as (s' & E & Hh' & Hcc).
  exists tt, s'. split; [done|]. rewrite !(se_info _ _ _ Hs) in Hcc.
  eapply sees_change; [done|done|]. intros m j Hmj.
  destruct (decide (m = n)) as [->|Hne]; [|by eapply sees_held_other].
  pose proof (ho_slot _ _ _ _ _ Hh) as E1. pose proof (ho_slot _ _ _ _ _ (se_held _ _ _ Hs n j Hmj)) as E2.
  assert (j = i) as -> by congruence. done.
Qed.

Definition wrote (n : Z) (data : list Z) (v : cview) : cview :=
  mk_cview (cv_info v) (<[n := data]> (cv_disk v)) (cv_writes v ++ [(n, data)]) (cv_used v) (cv_held v).

Lemma sees_bwrite s0 s v n i :
  sees s0 s v → (n, i) ∈ cv_held v →
  runs (bwrite i) s (λ _ s', sees s0 s' (wrote n (bi_data (cv_info v n)) v)).
Proof.
  intros Hs Hin. pose proof Hs as [H1 H2 H3 H4 H5 H6 H7 H8].
  destruct (bwrite_spec dv p s n i H1 H3 (H8 n i Hin)) as (E & Hst & Hok & Hi). rewrite H4 in *.
  eexists tt, _. split; [exact E|]. set (s' := disk_write _ _ s) in *. split; cbn [cv_info cv_disk cv_writes cv_used cv_held wrote].
  - by eapply thread_cstep.
  - by eapply cstep_trans.
  - done.
  - intros m. by rewrite Hi.
  - unfold s'. cbn. by rewrite H5.
  - unfold s'. cbn. by rewrite H6.
  - exact H7.
  - intros m j Hmj. destruct (H8 m j Hmj) as [A1 A2 A3]. split; [exact A1|exact A2|].
    rewrite Hi. rewrite (mypid_cstep p s s' Hst). done.
Qed.

(** The other buffers held. *)
Definition unheld (n : Z) (l : list (Z * nat)) : list (Z * nat) := filter (λ x, x.1 ≠ n) l.

Lemma elem_of_unheld n m i l : (m, i) ∈ unheld n l ↔ m ≠ n ∧ (m, i) ∈ l.
Proof. unfold unheld. by rewrite list_elem_of_filter. Qed.

Lemma sees_brelse s0 s v n i :
  sees s0 s v → (n, i) ∈ cv_held v →
  (bi_refs (cv_info v n) = 1 → bi_data (cv_info v n) = dblock (cv_disk v) n) →
  runs (brelse i) s (λ _ s',
    sees s0 s' (change n (mk_binfo (bi_data (cv_info v n)) (bi_refs (cv_info v n) - 1) None)
                 (unheld n (cv_held v)) v)).
Proof.
  intros Hs Hin Hcl. pose proof (se_held _ _ _ Hs n i Hin) as Hh.
  destruct (brelse_spec dv p s n i (se_thread _ _ _ Hs) (se_ok _ _ _ Hs) Hh) as (s' & E & Hcc).
  { by rewrite (se_info _ _ _ Hs), (se_disk _ _ _ Hs). }
  exists tt, s'. split; [done|]. rewrite !(se_info _ _ _ Hs) in Hcc.
  eapply sees_change; [done|done|]. intros m j Hmj. unfold unheld in Hmj.
  apply list_elem_of_filter in Hmj as [Hne Hmj]. by eapply sees_held_other.
Qed.

(** [bpin] and [bunpin] of a held buffer. *)
Lemma sees_ref_op s0 s v n i k (op : K unit) :
  sees s0 s v → (n, i) ∈ cv_held v → op s = Ret tt (upd_buf i (add_ref k) s) →
  0 < bi_refs (cv_info v n) + k < 2 ^ 32 →
  runs op s (λ _ s',
    sees s0 s' (change n (mk_binfo (bi_data (cv_info v n)) (bi_refs (cv_info v n) + k)
                           (bi_holder (cv_info v n))) (cv_held v) v)).
Proof.
  intros Hs Hin Hop Hk. pose proof (se_held _ _ _ Hs n i Hin) as Hh.
  destruct (holds_buf dv p s n i (se_ok _ _ _ Hs) Hh) as (Hi & _ & _ & _ & _ & Hr0 & _ & _).
  pose proof (add_ref_change dv p s n i k (se_ok _ _ _ Hs) (ho_slot _ _ _ _ _ Hh)
    (ho_valid _ _ _ _ _ Hh) Hr0) as Hcc.
  rewrite !(se_info _ _ _ Hs) in Hcc. specialize (Hcc ltac:(lia) ltac:(lia)).
  eexists tt, _. split; [exact Hop|].
  eapply sees_change; [done|done|]. intros m j Hmj.
  destruct (decide (m = n)) as [->|Hne]; [|by eapply sees_held_other].
  pose proof (ho_slot _ _ _ _ _ Hh) as E1. pose proof (ho_slot _ _ _ _ _ (se_held _ _ _ Hs n j Hmj)) as E2.
  assert (j = i) as -> by congruence.
  destruct (cc_cached _ _ _ _ _ _ Hcc n i (holds_cached _ _ _ _ _ Hh) Hr0) as [A1 A2].
  split; [done|done|]. rewrite (cc_info _ _ _ _ _ _ Hcc), decide_True by done. cbn.
  rewrite <- (se_info _ _ _ Hs). apply (ho_holder _ _ _ _ _ Hh).
Qed.

Lemma sees_bunpin s0 s v n i :
  sees s0 s v → (n, i) ∈ cv_held v → 1 < bi_refs (cv_info v n) < 2 ^ 32 →
  runs (bunpin i) s (λ _ s',
    sees s0 s' (change n (mk_binfo (bi_data (cv_info v n)) (bi_refs (cv_info v n) - 1)
                           (bi_holder (cv_info v n))) (cv_held v) v)).
Proof.
  intros Hs Hin Hr. apply (sees_ref_op s0 s v n i (-1)); [done|done| |lia].
  apply (bunpin_eq p). apply Hs.
Qed.

Lemma sees_bpin s0 s v n i :
  sees s0 s v → (n, i) ∈ cv_held v → 0 < bi_refs (cv_info v n) + 1 < 2 ^ 32 →
  runs (bpin i) s (λ _ s',
    sees s0 s' (change n (mk_binfo (bi_data (cv_info v n)) (bi_refs (cv_info v n) + 1)
                           (bi_holder (cv_info v n))) (cv_held v) v)).
Proof.
  intros Hs Hin Hr. apply (sees_ref_op s0 s v n i 1); [done|done| |lia].
  apply (bpin_eq p). apply Hs.
Qed.

(** Views that agree. *)
Lemma sees_ext s0 s v v' :
  sees s0 s v → (∀ m, cv_info v m = cv_info v' m) → cv_disk v = cv_disk v' →
  cv_writes v = cv_writes v' → cv_used v = cv_used v' →
  (∀ x, x ∈ cv_held v' → x ∈ cv_held v) → sees s0 s v'.
Proof.
  intros [H1 H2 H3 H4 H5 H6 H7 H8] E1 E2 E3 E4 E5.
  split; [done|done|done| |congruence|congruence|congruence|].
  - intros m. by rewrite H4.
  - intros n i Hin. by apply H8, E5.
Qed.

Lemma sees_klog s0 s v : sees s0 s v → klog s = klog s0.
Proof. intros Hs. eapply klog_cstep, Hs. Qed.

(** A block nobody refers to holds what the disk has. *)
Lemma sees_clean s0 s v n :
  sees s0 s v → bi_refs (cv_info v n) = 0 → cv_info v n = mk_binfo (dblock (cv_disk v) n) 0 None.
Proof.
  intros Hs. rewrite <- (se_info _ _ _ Hs), <- (se_disk _ _ _ Hs). unfold info.
  destruct (slot dv (bufs s) n) as [i|] eqn:E; [|done]. unfold buf_info. cbn. intros Hr.
  pose proof E as (Hi & Hd & Hb)%(slot_Some dv s n i (se_ok _ _ _ Hs)).
  destruct (co_buf dv s (se_ok _ _ _ Hs) i Hi) as [_ _ Hcl Hlk _]. rewrite Hr. f_equal.
  - destruct (b_valid _) eqn:Ev; [|done]. rewrite Hcl by done. by rewrite Hb.
  - destruct (sl_locked _) eqn:El; [|done]. by destruct (Hlk eq_refl).
Qed.

(** Blocks have the size of a block. *)
Lemma sees_length s0 s v n : sees s0 s v → length (bi_data (cv_info v n)) = Z.to_nat BSIZE.
Proof.
  intros Hs. rewrite <- (se_info _ _ _ Hs). unfold info.
  pose proof (co_disk dv s (se_ok _ _ _ Hs) n) as Hd.
  destruct (slot dv (bufs s) n) as [i|] eqn:E; [|exact Hd]. unfold buf_info. cbn [bi_data].
  pose proof E as (Hi & _)%(slot_Some dv s n i (se_ok _ _ _ Hs)).
  destruct (b_valid _) eqn:Ev; [|exact Hd]. exact (bo_data dv _ _ (co_buf dv s (se_ok _ _ _ Hs) i Hi) Ev).
Qed.
End rules.

(** What the cache knows, as a view. *)
Definition view_of (dv : Z) (s : kernel) : cview :=
  mk_cview (info dv s) (disk s) (disk_writes s) (nused (bufs s)) [].

Lemma sees_self dv p s : thread_ok p s → cache_ok dv s → sees dv p s s (view_of dv s).
Proof.
  intros Ht Hc. split; try done; [apply cstep_refl|]. intros n i Hin. by apply not_elem_of_nil in Hin.
Qed.

Ltac vcbn :=
  cbn [cv_info cv_disk cv_writes cv_used cv_held change wrote bi_data bi_refs bi_holder].

Lemma set_at_eq {A} n (a : A) f : set_at n a f n = a.
Proof. unfold set_at. by rewrite decide_True. Qed.

Lemma set_at_ne {A} n m (a : A) f : m ≠ n → set_at n a f m = f m.
Proof. intros H. unfold set_at. by rewrite decide_False. Qed.

(** ** Working on one block *)

Section one_block.
Context (dv : Z) (p : nat).
Hypothesis Hdv : 0 ≤ dv < 2 ^ 32.

(** A view in which only the block [n] is held, by us, with data [d]. *)
Definition one_held (n : Z) (d : list Z) (pid : Z) (i : nat) (v : cview) : cview :=
  mk_cview (set_at n (mk_binfo d 1 (Some pid)) (cv_info v)) (cv_disk v) (cv_writes v)
    (cv_used v + 1) [(n, i)].

(** Reading a block nobody uses. *)
Lemma runs_bread_free s0 s v n :
  sees dv p s0 s v → cv_held v = [] → 0 ≤ n < 2 ^ 32 → bi_refs (cv_info v n) = 0 →
  cv_used v < Z.of_nat NBUF →
  runs (bread dv n) s (λ i s', sees dv p s0 s' (one_held n (bi_data (cv_info v n)) (mypid p s0) i v)).
Proof using Hdv.
  intros Hs Hh Hn Hr Hu. pose proof (sees_clean dv p s0 s v n Hs Hr) as Hc.
  eapply runs_mono; [apply (sees_bread dv p Hdv s0 s v n Hs Hn)|].
  { by rewrite Hc. } { by right. } { rewrite Hr. lia. }
  intros i s' Hs'. cbv beta in Hs' |- *. eapply sees_ext; [exact Hs'|..]; unfold one_held; vcbn; try done.
  - intros m. by rewrite Hr.
  - rewrite Hr. change (used 0) with 0. change (used (0 + 1)) with 1. lia.
  - intros x Hx. by rewrite Hh.
Qed.

(** Changing the data of that block. *)
Lemma runs_one_bdata s0 s v n d pid i f :
  sees dv p s0 s (one_held n d pid i v) →
  (∀ l, length l = Z.to_nat BSIZE → length (f l) = Z.to_nat BSIZE) →
  runs (bdata i f) s (λ _ s', sees dv p s0 s' (one_held n (f d) pid i v)).
Proof.
  intros Hs Hf. eapply runs_mono; [apply (sees_bdata dv p s0 s _ n i f Hs)|].
  { by left. } { done. }
  intros [] s' Hs'. cbv beta in Hs'. eapply sees_ext; [exact Hs'|..]; unfold one_held; vcbn; try done.
  - intros m. unfold set_at. repeat case_decide; done.
  - rewrite !set_at_eq. vcbn. change (used 1) with 1. lia.
Qed.

(** Writing it and letting it go. *)
Lemma runs_one_write s0 s v n d pid i :
  sees dv p s0 s (one_held n d pid i v) →
  runs (bwrite i ;;; brelse i) s (λ _ s',
    sees dv p s0 s' (mk_cview (set_at n (mk_binfo d 0 None) (cv_info v))
      (<[n := d]> (cv_disk v)) (cv_writes v ++ [(n, d)]) (cv_used v) [])).
Proof.
  intros Hs. apply runs_bind. eapply runs_mono; [apply (sees_bwrite dv p s0 s _ n i Hs); by left|].
  intros [] s1 Hs1. cbv beta in Hs1 |- *.
  assert (cv_info (one_held n d pid i v) n = mk_binfo d 1 (Some pid)) as E by (unfold one_held; vcbn; by rewrite set_at_eq).
  rewrite E in Hs1. set (v1 := wrote n _ _) in Hs1.
  assert (cv_info v1 n = mk_binfo d 1 (Some pid)) as E1 by exact E.
  eapply runs_mono; [apply (sees_brelse dv p s0 s1 v1 n i Hs1)|].
  { by left. }
  { intros _. rewrite E1. unfold v1. vcbn. by rewrite dblock_insert, decide_True. }
  intros [] s2 Hs2. cbv beta in Hs2. rewrite E1 in Hs2.
  eapply sees_ext; [exact Hs2|..]; unfold v1, one_held; vcbn; try done.
  - intros m. unfold set_at. repeat case_decide; done.
  - rewrite set_at_eq. vcbn. change (used 1) with 1. change (used (1 - 1)) with 0. lia.
  - intros x Hx. by apply not_elem_of_nil in Hx.
Qed.

(** Letting it go with the data the disk has. *)
Lemma runs_one_brelse s0 s v n pid i :
  cv_held v = [] → cv_info v n = mk_binfo (dblock (cv_disk v) n) 0 None →
  sees dv p s0 s (one_held n (dblock (cv_disk v) n) pid i v) →
  runs (brelse i) s (λ _ s', sees dv p s0 s' v).
Proof.
  intros Hh Hcl Hs. eapply runs_mono; [apply (sees_brelse dv p s0 s _ n i Hs); [by left|]|].
  { intros _. unfold one_held. vcbn. by rewrite set_at_eq. }
  intros [] s1 Hs1. cbv beta in Hs1. eapply sees_ext; [exact Hs1|..]; unfold one_held; vcbn; try done.
  - intros m. rewrite !set_at_eq. vcbn. unfold set_at. case_decide as E; [subst m|done]. by rewrite Hcl.
  - rewrite !set_at_eq. vcbn. change (used 1) with 1. change (used (1 - 1)) with 0. lia.
  - rewrite Hh. intros x Hx. by apply not_elem_of_nil in Hx.
Qed.
End one_block.
