(* ===== verification/CacheSpec.v ===== *)
(** * What the buffer cache promises

    [binit] establishes the invariant of the cache, and a block that has been
    written is read back, from the cache and from the disk. *)

From S2P Require Import Prelude Machine Memory State Spinlock Sched Runs Sleeplock Block Bio.
From S2P Require Import Cache CacheOps CacheLogic.

(** ** binit *)

(** What [binit] leaves alone in a buffer. *)
Record buf_kept (b b' : buf) : Prop := {
  bk_valid : b_valid b' = b_valid b;
  bk_dev : b_dev b' = b_dev b;
  bk_blockno : b_blockno b' = b_blockno b;
  bk_refcnt : b_refcnt b' = b_refcnt b;
  bk_data : b_data b' = b_data b;
  bk_lock : sl_locked (b_lock b) = false → sl_locked (b_lock b') = false
}.

#[export] Instance buf_kept_preorder : PreOrder buf_kept.
Proof.
  split; [by intros b|]. intros b1 b2 b3 [] []. split; try congruence. auto.
Qed.

(** The rest of the kernel while the cache is set up. *)
Record init_frame (s s' : kernel) : Prop := {
  if_tp : tp s' = tp s;
  if_cpus : cpus s' = cpus s;
  if_procs : procs s' = procs s;
  if_disk : disk s' = disk s;
  if_writes : disk_writes s' = disk_writes s;
  if_klog : klog s' = klog s;
  if_locks : ∀ l, lock_free s l → lock_free s' l;
  if_len : length (bufs s') = length (bufs s);
  if_bufs : ∀ i, buf_kept (bufs s !!! i) (bufs s' !!! i)
}.

#[export] Instance init_frame_preorder : PreOrder init_frame.
Proof.
  split; [split; try done|].
  intros s1 s2 s3 [] []. split; try congruence; [auto|]. intros i. etrans; auto.
Qed.

Lemma alter_kept (f : buf → buf) (i : nat) (bs : list buf) :
  (∀ b, buf_kept b (f b)) → ∀ j : nat, buf_kept (bs !!! j) (alter f i bs !!! j).
Proof.
  intros Hf j. destruct (decide (i < length bs)%nat) as [Hi|Hi].
  - rewrite lookup_total_alter by done. by case_decide.
  - destruct (decide (j = i)) as [->|]; [|by rewrite list_lookup_total_alter_ne].
    by rewrite !list_lookup_total_alt, !lookup_ge_None_2 by (rewrite ?length_alter; lia).
Qed.

Lemma frame_upd_buf i f s : (∀ b, buf_kept b (f b)) → init_frame s (upd_buf i f s).
Proof.
  intros Hf. split; try done; cbn; [by rewrite length_alter|]. intros j. by apply alter_kept.
Qed.

Lemma frame_initlock l name s :
  init_frame s (upd_lock l (λ lk, set_lk_cpu None (set_lk_locked false (set_lk_name name lk))) s).
Proof.
  split; try done. intros l' [n Hn]. unfold lock_free, upd_lock. cbn.
  destruct (decide (l' = l)) as [->|Hne].
  - rewrite lookup_insert_eq. cbn. by exists name.
  - rewrite lookup_insert_ne by done. by exists n.
Qed.

(** The first [k] buffers are in the list. *)
Definition linked (k : nat) (bs : list buf) : Prop :=
  nexts (nx bs) HEAD (reverse (seq 0 k)) HEAD ∧ nexts (pv bs) HEAD (seq 0 k) HEAD.

(** The assignments of one turn, as an update of the two chains. *)
Lemma binit_one_chains k s :
  (k < NBUF)%nat → length (bufs s) = S NBUF → (nx (bufs s) HEAD < S NBUF)%nat →
  ∃ s', binit_one k s = Ret tt s' ∧ init_frame s s' ∧
    (∀ x, nx (bufs s') x = upd (upd (nx (bufs s)) k (nx (bufs s) HEAD)) HEAD k x) ∧
    (∀ x, pv (bufs s') x = upd (upd (pv (bufs s)) k HEAD) (nx (bufs s) HEAD) k x).
Proof.
  intros Hk Hl Hh. set (h := nx (bufs s) HEAD) in *.
  assert (HEAD < length (bufs s))%nat as Hhd by (rewrite Hl; unfold HEAD; lia).
  set (b1 := alter (set_b_prev HEAD) k (alter (set_b_next h) k (bufs s))).
  set (g := λ b : buf, set_b_lock (set_sl_pid 0 (set_sl_locked false (set_sl_name "buffer" (b_lock b)))) b).
  set (b2 := alter g k b1).
  assert (length b1 = length (bufs s)) as Hl1 by (unfold b1; by rewrite !length_alter).
  assert (length b2 = length (bufs s)) as Hl2 by (unfold b2; by rewrite length_alter).
  assert (∀ x, nx b2 x = upd (nx (bufs s)) k h x) as En2.
  { intros x. transitivity (nx b1 x).
    - unfold nx, b2. rewrite lookup_total_alter by lia. by case_decide.
    - unfold b1. rewrite nx_set_prev by (rewrite length_alter; lia). by rewrite nx_set_next by lia. }
  assert (∀ x, pv b2 x = upd (pv (bufs s)) k HEAD x) as Ep2.
  { intros x. transitivity (pv b1 x).
    - unfold pv, b2. rewrite lookup_total_alter by lia. by case_decide.
    - unfold b1. rewrite pv_set_prev by (rewrite length_alter; lia). unfold upd.
      case_decide; [done|]. rewrite pv_set_next by lia. done. }
  assert (nx b2 HEAD = h) as Eh2 by (rewrite En2; unfold upd; rewrite decide_False by (unfold HEAD; lia); done).
  set (s2 := set_bufs b2 (upd_lock (LkSleep (SlBuf k))
               (λ lk, set_lk_cpu None (set_lk_locked false (set_lk_name "sleep lock" lk))) s)).
  exists (upd_buf HEAD (set_b_next k) (upd_buf h (set_b_prev k) s2)). split_and!.
  - unfold binit_one, initsleeplock, initlock, bfield, bset, bind, gets, modify. cbn [obind].
    unfold s2, getbuf. rewrite <- Eh2. unfold b2, b1, g, nx, h, upd_buf. cbn. unfold upd_lock. cbn.
    unfold getlock. cbn. rewrite !list_alter_alter_eq. done.
  - etrans; [|apply frame_upd_buf; by intros b]. etrans; [|apply frame_upd_buf; by intros b].
    etrans; [apply frame_initlock|]. unfold s2. split; [done..|intros l Hfree; exact Hfree|exact Hl2|]. cbn.
    intros i. unfold b2, b1. etrans; [|apply alter_kept; by intros b].
    etrans; [|apply alter_kept; by intros b]. by apply alter_kept.
  - intros x. cbn [upd_buf s2 set_bufs bufs]. rewrite nx_set_next by (rewrite length_alter; lia).
    unfold upd at 1 2. case_decide; [done|]. rewrite nx_set_prev by lia. by rewrite En2.
  - intros x. cbn [upd_buf s2 set_bufs bufs]. rewrite pv_set_next by (rewrite length_alter; lia).
    rewrite pv_set_prev by lia. unfold upd at 1 2. case_decide; [done|]. by rewrite Ep2.
Qed.

Lemma binit_one_spec k s :
  (k < NBUF)%nat → length (bufs s) = S NBUF → linked k (bufs s) →
  runs (binit_one k) s (λ _ s', init_frame s s' ∧ linked (S k) (bufs s')).
Proof.
  intros Hk Hl [Hn Hp].
  assert (nx (bufs s) HEAD = List.last (HEAD :: seq 0 k) HEAD) as Eh.
  { rewrite (nexts_first _ _ _ _ Hn). rewrite <- last_reverse. by rewrite reverse_involutive. }
  destruct (binit_one_chains k s Hk Hl) as (s' & E & Hf & En & Ep).
  { pose proof (last_elem_of HEAD (seq 0 k)) as Hin. rewrite <- Eh in Hin.
    apply elem_of_cons in Hin as [->|Hin%elem_of_seq]; [unfold HEAD; lia|lia]. }
  eapply runs_eq_last; [exact E|]. split; [done|].
  assert (NoDup (HEAD :: seq 0 k)) as Hnd.
  { apply NoDup_cons. split; [|apply NoDup_seq]. intros Hin%elem_of_seq. unfold HEAD in Hin. lia. }
  assert (k ∉ HEAD :: seq 0 k) as Hkn.
  { intros [->|Hin%elem_of_seq]%elem_of_cons; [unfold HEAD in Hk; lia|lia]. }
  unfold linked. rewrite seq_S. cbn [Nat.add]. split.
  - rewrite reverse_app. change (reverse [k] ++ reverse (seq 0 k)) with (k :: reverse (seq 0 k)).
    eapply nexts_ext; [|apply (nexts_push (nx (bufs s)) HEAD k); [by rewrite reverse_Permutation..|exact Hn]].
    intros x _. by rewrite En.
  - eapply nexts_ext; [|apply (nexts_snoc (pv (bufs s)) HEAD k); [done|done|exact Hp]].
    intros x _. by rewrite Ep, Eh.
Qed.

(** A cache in which every buffer is free and none holds a block. *)
Lemma empty_cache dv s s' l :
  init_frame s s' → ring (bufs s') l →
  (∀ i, (i < NBUF)%nat → b_refcnt (bufs s' !!! i) = 0 ∧ b_dev (bufs s' !!! i) ≠ dv ∧
     b_valid (bufs s' !!! i) = false ∧ sl_locked (b_lock (bufs s' !!! i)) = false) →
  (∀ n, length (dblock (disk s) n) = Z.to_nat BSIZE) →
  cache_ok dv s' ∧ nused (bufs s') = 0 ∧ ∀ n, info dv s' n = mk_binfo (dblock (disk s) n) 0 None.
Proof.
  intros Hf Hr Hb Hd. assert (cache_ok dv s') as Hc.
  { split; [by exists l| | |by rewrite (if_disk _ _ Hf)].
    - intros i j Hi _ Hdi. by destruct (Hb i Hi) as (_ & ? & _).
    - intros i Hi. destruct (Hb i Hi) as (B1 & B2 & B3 & B4). split; rewrite ?B1, ?B3, ?B4; done. }
  split_and!; [done| |].
  - unfold nused. assert (∀ i, i ∈ seq 0 NBUF → in_use (bufs s' !!! i) = 0) as Hz.
    { intros i Hi%elem_of_seq. unfold in_use. destruct (Hb i) as (-> & _); [lia|done]. }
    induction (seq 0 NBUF) as [|i l' IH]; [done|]. cbn [fmap list_fmap foldr].
    rewrite Hz by (by left). apply IH. intros j Hj. apply Hz. by right.
  - intros n. unfold info. destruct (slot dv (bufs s') n) as [i|] eqn:E; [|by rewrite (if_disk _ _ Hf)].
    apply (slot_Some dv s' n i Hc) in E as (Hi & Hdi & _). by destruct (Hb i Hi) as (_ & ? & _).
Qed.

Lemma binit_runs dv s :
  length (bufs s) = S NBUF →
  (∀ i, (i < NBUF)%nat → b_refcnt (bufs s !!! i) = 0 ∧ b_dev (bufs s !!! i) ≠ dv ∧
     b_valid (bufs s !!! i) = false ∧ sl_locked (b_lock (bufs s !!! i)) = false) →
  (∀ n, length (dblock (disk s) n) = Z.to_nat BSIZE) →
  ∃ s', binit s = Ret tt s' ∧ init_frame s s' ∧ ring (bufs s') (reverse (seq 0 NBUF)) ∧
    cache_ok dv s' ∧ nused (bufs s') = 0 ∧
    ∀ n, info dv s' n = mk_binfo (dblock (disk s) n) 0 None.
Proof.
  intros Hl Hb Hd.
  assert (HEAD < length (bufs s))%nat as Hhd by (rewrite Hl; unfold HEAD; lia).
  enough (runs binit s (λ _ s', init_frame s s' ∧ linked NBUF (bufs s'))) as ([] & s' & E & Hf & Hln & Hlp).
  { assert (ring (bufs s') (reverse (seq 0 NBUF))) as Hr.
    { split; [done|by rewrite reverse_involutive|apply reverse_Permutation|].
      by rewrite (if_len _ _ Hf). }
    exists s'. split; [done|]. split; [done|]. split; [done|].
    assert (∀ i, (i < NBUF)%nat → b_refcnt (bufs s' !!! i) = 0 ∧ b_dev (bufs s' !!! i) ≠ dv ∧
      b_valid (bufs s' !!! i) = false ∧ sl_locked (b_lock (bufs s' !!! i)) = false) as Hb'.
    { intros i Hi. destruct (Hb i Hi) as (B1 & B2 & B3 & B4). destruct (if_bufs _ _ Hf i) as [K1 K2 K3 K4 K5 K6].
      rewrite K1, K2, K4. auto. }
    by apply (empty_cache dv s s' _ Hf Hr Hb' Hd). }
  unfold binit, initlock, bset. apply runs_modify. apply runs_modify. apply runs_modify.
  set (s1 := upd_buf HEAD _ _). assert (init_frame s s1) as Hf1.
  { unfold s1. etrans; [|apply frame_upd_buf; by intros b]. etrans; [|apply frame_upd_buf; by intros b].
    apply frame_initlock. }
  apply (runs_for_each (λ l s', ∃ k, seq 0 NBUF = seq 0 k ++ l ∧ init_frame s s' ∧ linked k (bufs s'))).
  - intros x l s2 (k & El & Hf2 & Hln).
    assert (seq 0 NBUF !! k = Some x) as [-> Hk]%lookup_seq
      by (rewrite El, lookup_app_r, length_seq, Nat.sub_diag by (rewrite length_seq; lia); done).
    cbn [Nat.add] in *.
    eapply runs_mono; [apply (binit_one_spec k s2 Hk); [by rewrite (if_len _ _ Hf2)|done]|].
    intros [] s3 [Hf3 Hl3]. exists (S k). split_and!; [|by etrans|done].
    rewrite El, seq_S, <- app_assoc. done.
  - exists 0%nat. split_and!; [done|done|]. unfold linked, nexts, s1. cbn. unfold nx, pv.
    rewrite !lookup_total_alter by (rewrite ?length_alter; lia). by rewrite !decide_True.
  - intros s2 (k & El & Hf2 & Hln). split; [done|]. rewrite app_nil_r in El.
    apply (f_equal length) in El. rewrite !length_seq in El. by rewrite El.
Qed.

(** ** A kernel thread with an empty cache *)

Lemma thread_frame p s s' : init_frame s s' → thread_ok p s → thread_ok p s'.
Proof.
  intros [F1 F2 F3 _ _ _ F7 _ _] [T1 T2 T3 T4 T5].
  split; [by eapply hart_ok_ext|unfold mycpu in *; by rewrite F1, F2|by rewrite F3|done|auto].
Qed.

Lemma dblock_empty n : length (dblock ∅ n) = Z.to_nat BSIZE.
Proof. unfold dblock. rewrite lookup_empty. cbn [default]. apply length_replicate. Qed.

Lemma boot_bufs i :
  (i < NBUF)%nat → b_refcnt (bufs boot !!! i) = 0 ∧ b_dev (bufs boot !!! i) ≠ ROOTDEV ∧
    b_valid (bufs boot !!! i) = false ∧ sl_locked (b_lock (bufs boot !!! i)) = false.
Proof.
  intros Hi. unfold boot. cbn [bufs]. rewrite lookup_total_replicate_2 by lia. done.
Qed.

Lemma boot_cache :
  ∃ s', binit boot_thread = Ret tt s' ∧ thread_ok 0 s' ∧ cache_ok ROOTDEV s' ∧ nused (bufs s') = 0 ∧
    disk s' = ∅ ∧ disk_writes s' = [] ∧ klog s' = klog boot ∧
    ∀ n, info ROOTDEV s' n = mk_binfo (dblock ∅ n) 0 None.
Proof.
  destruct (binit_runs ROOTDEV boot_thread eq_refl boot_bufs dblock_empty)
    as (s' & E & Hf & _ & Hc & Hu & Hi).
  exists s'. split_and!; [exact E|exact (thread_frame _ _ _ Hf boot_thread_ok)|exact Hc|exact Hu
    |exact (if_disk _ _ Hf)|exact (if_writes _ _ Hf)|exact (if_klog _ _ Hf)|exact Hi].
Qed.

(** ** Writing a block and reading it back *)

Definition write_block (dev n : Z) (d : list Z) : K unit :=
  let! b := bread dev n in
  bdata b (λ _, d) ;;;
  bwrite b ;;;
  brelse b.

Definition read_block (dev n : Z) : K (list Z) :=
  let! b := bread dev n in
  let! d := bfield b b_data in
  brelse b ;;;
  ret d.

Lemma write_block_view dv p s v n d :
  0 ≤ dv < 2 ^ 32 → sees dv p s s v → cv_held v = [] → 0 ≤ n < 2 ^ 32 → bi_refs (cv_info v n) = 0 →
  cv_used v < Z.of_nat NBUF → length d = Z.to_nat BSIZE →
  runs (write_block dv n d) s (λ _ s',
    sees dv p s s' (mk_cview (set_at n (mk_binfo d 0 None) (cv_info v))
      (<[n := d]> (cv_disk v)) (cv_writes v ++ [(n, d)]) (cv_used v) [])).
Proof.
  intros Hdv Hs Hh Hn Hr Hu Hd. unfold write_block. apply runs_bind.
  eapply runs_mono; [by apply (runs_bread_free dv p Hdv s s v n Hs)|]. intros i s1 Hs1. cbv beta in Hs1 |- *.
  apply runs_bind. eapply runs_mono; [by apply (runs_one_bdata dv p s s1 v n _ _ i (λ _, d) Hs1)|].
  intros [] s2 Hs2. cbv beta in Hs2 |- *. by eapply runs_one_write.
Qed.

Lemma read_block_view dv p s0 s v n :
  0 ≤ dv < 2 ^ 32 → sees dv p s0 s v → cv_held v = [] → 0 ≤ n < 2 ^ 32 → bi_refs (cv_info v n) = 0 →
  cv_used v < Z.of_nat NBUF →
  runs (read_block dv n) s (λ d s', d = dblock (cv_disk v) n ∧ sees dv p s0 s' v).
Proof.
  intros Hdv Hs Hh Hn Hr Hu. pose proof (sees_clean dv p s0 s v n Hs Hr) as Hcl.
  unfold read_block. apply runs_bind.
  eapply runs_mono; [by apply (runs_bread_free dv p Hdv s0 s v n Hs)|]. intros i s1 Hs1. cbv beta in Hs1 |- *.
  rewrite Hcl in Hs1. cbn [bi_data] in Hs1.
  eapply runs_eq; [apply (sees_data dv p s0 s1 _ n i Hs1); by left|].
  apply runs_bind. eapply runs_mono; [by apply (runs_one_brelse dv p s0 s1 v n _ i Hh Hcl Hs1)|].
  intros [] s2 Hs2. cbv beta in Hs2. apply runs_ret. split; [|done]. unfold one_held. vcbn. by rewrite set_at_eq.
Qed.

Lemma in_use_range b : 0 ≤ in_use b ≤ 1.
Proof. unfold in_use. destruct (_ =? _); lia. Qed.

(** With all buffers in use none can be recycled. *)
Lemma full_cache_find bs l :
  l ≡ₚ seq 0 NBUF → nused bs = Z.of_nat NBUF →
  List.find (λ i, b_refcnt (bs !!! i) =? 0) l = None.
Proof.
  intros Hp Hu. destruct (List.find _ l) as [i|] eqn:E; [|done]. exfalso.
  apply find_some in E as [Hin Hi]. apply list_elem_of_In in Hin. rewrite Hp in Hin.
  clear Hp. unfold nused in Hu. rewrite <- (length_seq NBUF 0) in Hu at 2. revert Hin Hu.
  assert (∀ l', foldr Z.add 0 ((λ i, in_use (bs !!! i)) <$> l') ≤ Z.of_nat (length l')) as Hle.
  { induction l' as [|j l' IH]; cbn [fmap list_fmap foldr length]; [lia|].
    pose proof (in_use_range (bs !!! j)). cbn [fmap] in IH. lia. }
  induction (seq 0 NBUF) as [|j l' IH]; [by intros ?%not_elem_of_nil|].
  intros Hin Hu. cbn [fmap list_fmap foldr length] in Hu. specialize (Hle l').
  pose proof (in_use_range (bs !!! j)) as Hj.
  apply elem_of_cons in Hin as [->|Hin]; [unfold in_use in *; rewrite Hi in *; lia|apply IH; [done|lia]].
Qed.

Lemma slot_full dv s n i :
  cache_ok dv s → slot dv (bufs s) n = Some i → nused (bufs s) = Z.of_nat NBUF → bi_refs (info dv s n) ≠ 0.
Proof.
  intros Hc Es Hu E. rewrite (info_slot dv s n i Es) in E. cbn in E.
  apply (slot_Some dv s n i Hc) in Es as (Hi & _ & _).
  pose proof (find_none _ _ (full_cache_find (bufs s) (seq 0 NBUF) (Permutation_refl _) Hu) i) as Hn.
  cbv beta in Hn. rewrite E in Hn. discriminate Hn. apply in_seq. lia.
Qed.

(** Reading blocks 0 to [k]-1 without releasing them. *)
Definition hold_blocks (dev : Z) (k : nat) : K unit :=
  for_each (seq 0 k) (λ i, bread dev (Z.of_nat i) ;;; ret tt).

Lemma hold_blocks_spec dv p s :
  0 ≤ dv < 2 ^ 32 → thread_ok p s → cache_ok dv s → nused (bufs s) = 0 →
  (∀ m, bi_refs (info dv s m) = 0) →
  runs (hold_blocks dv NBUF) s (λ _ s', thread_ok p s' ∧ cache_ok dv s' ∧
    nused (bufs s') = Z.of_nat NBUF ∧ bi_refs (info dv s' (Z.of_nat NBUF)) = 0).
Proof.
  intros Hdv Ht Hc Hu Hr. unfold hold_blocks.
  apply (runs_for_each (λ l s', ∃ k v, seq 0 NBUF = seq 0 k ++ l ∧ sees dv p s s' v ∧ cv_used v = Z.of_nat k ∧
    ∀ m, Z.of_nat k ≤ m → cv_info v m = mk_binfo (dblock (cv_disk v) m) 0 None)).
  - intros x l s1 (k & v & El & Hs & Hk & Hm).
    assert (seq 0 NBUF !! k = Some x) as [-> Hkn]%lookup_seq
      by (rewrite El, lookup_app_r, length_seq, Nat.sub_diag by (rewrite length_seq; lia); done).
    cbn [Nat.add] in *. apply runs_bind.
    eapply runs_mono; [apply (sees_bread dv p Hdv s s1 v (Z.of_nat k) Hs)|].
    { unfold NBUF, LOGSIZE, MAXOPBLOCKS in Hkn. lia. }
    { by rewrite Hm by lia. } { right. lia. } { rewrite Hm by lia. cbn. lia. }
    intros i s2 Hs2. cbv beta in Hs2 |- *. apply runs_ret. eexists (S k), _. split_and!; [|exact Hs2|..].
    + rewrite El, seq_S, <- app_assoc. done.
    + vcbn. rewrite (Hm (Z.of_nat k)) by lia. vcbn. change (used 0) with 0. change (used (0 + 1)) with 1. lia.
    + intros m Hmk. vcbn. rewrite set_at_ne by lia. apply Hm. lia.
  - exists 0%nat, (view_of dv s). split_and!; [done|by apply sees_self|done|].
    intros m _. apply (sees_clean dv p s s _ m (sees_self dv p s Ht Hc) (Hr m)).
  - intros s' (k & v & El & Hs & Hk & Hm). rewrite app_nil_r in El. apply (f_equal length) in El.
    rewrite !length_seq in El. subst k. split_and!; [apply Hs|apply Hs|by rewrite (se_used _ _ _ _ _ Hs)|].
    by rewrite (se_info _ _ _ _ _ Hs), Hm.
Qed.

(** [binit] links all buffers, after which the cache invariant
    holds, with every buffer free: each block reads as the disk has it and
    nobody refers to it. *)
Theorem binit_spec dv s :
  length (bufs s) = S NBUF →
  (∀ i, (i < NBUF)%nat → b_refcnt (bufs s !!! i) = 0 ∧ b_dev (bufs s !!! i) ≠ dv ∧
     b_valid (bufs s !!! i) = false ∧ sl_locked (b_lock (bufs s !!! i)) = false) →
  (∀ n, length (dblock (disk s) n) = Z.to_nat BSIZE) →
  ∃ s', binit s = Ret tt s' ∧ init_frame s s' ∧ ring (bufs s') (reverse (seq 0 NBUF)) ∧
    cache_ok dv s' ∧ nused (bufs s') = 0 ∧
    ∀ n, info dv s' n = mk_binfo (dblock (disk s) n) 0 None.
Proof. apply binit_runs. Qed.

Lemma binit_spec_witness :
  ∃ s', binit boot_thread = Ret tt s' ∧ cache_ok ROOTDEV s' ∧ nused (bufs s') = 0.
Proof.
  destruct (binit_spec ROOTDEV boot_thread eq_refl boot_bufs dblock_empty)
    as (s' & E & _ & _ & Hc & Hu & _).
  exists s'. exact (conj E (conj Hc Hu)).
Defined.

(** a block written through the cache with [bread],
    [bwrite] and [brelse] is on the disk, is what the next [bread] returns, and
    no other block changes, in the cache or on the disk. *)
Theorem cache_write_read dv p s n d :
  0 ≤ dv < 2 ^ 32 → thread_ok p s → cache_ok dv s → 0 ≤ n < 2 ^ 32 →
  bi_refs (info dv s n) = 0 → nused (bufs s) < Z.of_nat NBUF → length d = Z.to_nat BSIZE →
  ∃ s1 s2, write_block dv n d s = Ret tt s1 ∧ read_block dv n s1 = Ret d s2 ∧
    disk s2 = <[n := d]> (disk s) ∧ disk_writes s2 = disk_writes s ++ [(n, d)] ∧
    (∀ m, m ≠ n → info dv s2 m = info dv s m) ∧ cache_ok dv s2 ∧ thread_ok p s2.
Proof.
  intros Hdv Ht Hc Hn Hr Hu Hd.
  destruct (write_block_view dv p s (view_of dv s) n d Hdv (sees_self dv p s Ht Hc) eq_refl Hn Hr Hu Hd)
    as ([] & s1 & E1 & Hs1).
  destruct (read_block_view dv p s s1 _ n Hdv Hs1 eq_refl Hn) as (x & s2 & E2 & -> & Hs2).
  { vcbn. by rewrite set_at_eq. }
  { done. }
  cbn [cv_disk] in E2. rewrite dblock_insert, decide_True in E2 by done.
  exists s1, s2. split_and!; [done|done|apply Hs2|apply Hs2| |apply Hs2|apply Hs2].
  intros m Hm. rewrite (se_info _ _ _ _ _ Hs2). vcbn. by rewrite set_at_ne.
Qed.

Lemma cache_write_read_witness :
  ∃ s s1 s2, binit boot_thread = Ret tt s ∧ write_block ROOTDEV 45 (replicate 1024 7) s = Ret tt s1 ∧
    read_block ROOTDEV 45 s1 = Ret (replicate 1024 7) s2.
Proof.
  destruct boot_cache as (s & E & Ht & Hc & Hu & _ & _ & _ & Hi).
  destruct (cache_write_read ROOTDEV 0 s 45 (replicate 1024 7)) as (s1 & s2 & E1 & E2 & _).
  - unfold ROOTDEV. lia.
  - exact Ht.
  - exact Hc.
  - lia.
  - rewrite Hi. reflexivity.
  - rewrite Hu. reflexivity.
  - apply length_replicate.
  - exists s, s1, s2. exact (conj E (conj E1 E2)).
Defined.

(** when every buffer is in use and none of them holds the
    block, [bread] panics. *)
Theorem bread_full dv p s n :
  0 ≤ dv < 2 ^ 32 → thread_ok p s → cache_ok dv s → 0 ≤ n < 2 ^ 32 →
  slot dv (bufs s) n = None → nused (bufs s) = Z.of_nat NBUF →
  bread dv n s = Panic "bget: no buffers".
Proof.
  intros Hdv Ht Hc Hn Hs Hu. destruct (co_ring dv s Hc) as [l Hr].
  unfold bread. rewrite !u32_small by done. apply bind_Panic. unfold bget.
  run (acquire_ok s _ (th_hart p s Ht) (bcache_lock p s Ht)).
  rewrite (bind_Ret _ _ _ (nx (bufs s) HEAD) (enter LkBcache s)) by done.
  rewrite (bind_Ret _ _ _ None (enter LkBcache s)).
  2:{ change (bufs s) with (bufs (enter LkBcache s)). rewrite (bget_cached_loop _ _ _ l) by done.
      f_equal. rewrite <- Hs. apply (slot_ring dv s l n Hc Hr). }
  cbv beta iota. rewrite (bind_Ret _ _ _ (pv (bufs s) HEAD) (enter LkBcache s)) by done.
  rewrite (bind_Ret _ _ _ None (enter LkBcache s)); [done|].
  change (bufs s) with (bufs (enter LkBcache s)). rewrite (bget_recycle_loop _ l) by done.
  f_equal. apply (full_cache_find (bufs s)); [|done]. rewrite reverse_Permutation. apply Hr.
Qed.

Lemma bread_full_witness :
  ∃ s0 s, binit boot_thread = Ret tt s0 ∧ hold_blocks ROOTDEV NBUF s0 = Ret tt s ∧
    bread ROOTDEV (Z.of_nat NBUF) s = Panic "bget: no buffers".
Proof.
  destruct boot_cache as (s0 & E & Ht & Hc & Hu & _ & _ & _ & Hi).
  destruct (hold_blocks_spec ROOTDEV 0 s0) as ([] & s & E1 & Ht1 & Hc1 & Hu1 & Hr1).
  - unfold ROOTDEV. lia.
  - exact Ht.
  - exact Hc.
  - exact Hu.
  - intros m. rewrite Hi. reflexivity.
  - exists s0, s. refine (conj E (conj E1 (bread_full ROOTDEV 0 s (Z.of_nat NBUF) _ Ht1 Hc1 _ _ Hu1))).
    + unfold ROOTDEV. lia.
    + unfold NBUF. lia.
    + destruct (slot ROOTDEV (bufs s) (Z.of_nat NBUF)) as [i|] eqn:Es; [|reflexivity]. exfalso.
      pose proof (slot_full ROOTDEV s (Z.of_nat NBUF) i Hc1 Es Hu1). contradiction.
Defined.
