(* ===== verification/Log.v ===== *)
(** * kernel/log.c

    The write-ahead log: a system call's block updates are collected in the
    buffer cache, copied to the log area, committed by one write of the header
    block and then installed; after a crash the log is replayed. *)

From S2P Require Import Prelude Machine Memory State Spinlock Sched Sleeplock Block Bio.

Definition upd_log (f : log → log) (s : kernel) : kernel := set_klog (f (klog s)) s.
Definition lget {A} (f : log → A) : K A := gets (λ s, f (klog s)).
Definition lset (f : log → log) : K unit := modify (upd_log f).

(** [log.lh.block[i]], read and written. *)
Definition lh_get (i : Z) : K Z :=
  let! blocks := lget lh_block in
  match blocks !! Z.to_nat i with
  | Some b => ret b
  | None => undefined
  end.

Definition lh_set (i v : Z) : K unit :=
  let! blocks := lget lh_block in
  if i <? Z.of_nat (length blocks)
  then lset (set_lh_block (<[Z.to_nat i := v]> blocks))
  else undefined.

(** The header block: [n] and then [block[]]. *)
Definition hdr_n (data : list Z) : Z := s32 (get32 data 0).
Definition hdr_block (data : list Z) (i : Z) : Z := s32 (get32 data (Z.to_nat (4 + 4 * i))).

Section log.
Context `{BlockDriver}.

Definition install_block (recovering : bool) (tail : Z) : K unit :=
  let! lg := gets klog in
  let! lbuf := bread (log_dev lg) (log_start lg + tail + 1) in
  let! blockno := lh_get tail in
  let! dbuf := bread (log_dev lg) blockno in
  let! data := bfield lbuf b_data in
  bdata dbuf (λ _, data) ;;;
  bwrite dbuf ;;;
  when (negb recovering) (bunpin dbuf) ;;;
  brelse lbuf ;;;
  brelse dbuf.

Definition install_trans (recovering : bool) : K unit :=
  for_up 0 (lget lh_n) (install_block recovering).

Definition read_head : K unit :=
  let! lg := gets klog in
  let! b := bread (log_dev lg) (log_start lg) in
  let! data := bfield b b_data in
  lset (set_lh_n (hdr_n data)) ;;;
  for_up 0 (lget lh_n) (λ i, lh_set i (hdr_block data i)) ;;;
  brelse b.

Definition write_head : K unit :=
  let! lg := gets klog in
  let! b := bread (log_dev lg) (log_start lg) in
  bdata b (λ data, put32 data 0 (lh_n lg)) ;;;
  for_up 0 (lget lh_n) (λ i,
    let! blockno := lh_get i in
    bdata b (λ data, put32 data (Z.to_nat (4 + 4 * i)) blockno)) ;;;
  bwrite b ;;;
  brelse b.

Definition recover_from_log : K unit :=
  read_head ;;;
  install_trans true ;;;
  lset (set_lh_n 0) ;;;
  write_head.

(** [sizeof(struct logheader)] *)
Definition sizeof_logheader : Z := 4 + 4 * LOGSIZE.

Definition initlog (dev : Z) (sb : superblock) : K unit :=
  if sizeof_logheader >=? BSIZE then panic "initlog: too big logheader" else
  initlock LkLog "log" ;;;
  lset (set_log_start (s32 (sb_logstart sb))) ;;;
  lset (set_log_size (s32 (sb_nlog sb))) ;;;
  lset (set_log_dev dev) ;;;
  recover_from_log.

(** One turn of the loop of [begin_op]. *)
Definition begin_op_step (_ : unit) : K (unit + unit) :=
  let! lg := gets klog in
  if log_committing lg then sleep ChLog LkLog ;;; ret (inl tt)
  else if lh_n lg + (log_outstanding lg + 1) * MAXOPBLOCKS >? LOGSIZE then
    sleep ChLog LkLog ;;; ret (inl tt)
  else
    lset (set_log_outstanding (log_outstanding lg + 1)) ;;;
    release LkLog ;;;
    ret (inr tt).

Definition begin_op : K unit :=
  acquire LkLog ;;;
  loop begin_op_step tt.

Definition write_log_block (tail : Z) : K unit :=
  let! lg := gets klog in
  let! to := bread (log_dev lg) (log_start lg + tail + 1) in
  let! blockno := lh_get tail in
  let! from := bread (log_dev lg) blockno in
  let! data := bfield from b_data in
  bdata to (λ _, data) ;;;
  bwrite to ;;;
  brelse from ;;;
  brelse to.

Definition write_log : K unit := for_up 0 (lget lh_n) write_log_block.

Definition commit : K unit :=
  let! n := lget lh_n in
  when (n >? 0)
    (write_log ;;;
     write_head ;;;
     install_trans false ;;;
     lset (set_lh_n 0) ;;;
     write_head).

Definition end_op : K unit :=
  acquire LkLog ;;;
  lset (λ lg, set_log_outstanding (log_outstanding lg - 1) lg) ;;;
  let! lg := gets klog in
  if log_committing lg then panic "log.committing" else
  let! do_commit :=
    (if log_outstanding lg =? 0 then
       lset (set_log_committing true) ;;;
       ret true
     else
       wakeup (Some ChLog) ;;;
       ret false) in
  release LkLog ;;;
  when do_commit
    (commit ;;;
     acquire LkLog ;;;
     lset (set_log_committing false) ;;;
     wakeup (Some ChLog) ;;;
     release LkLog).

(** [for (i = 0; i < log.lh.n; i++) if (log.lh.block[i] == b->blockno) break;] *)
Definition log_find (blockno i : Z) : K (Z + Z) :=
  let! n := lget lh_n in
  if i <? n then
    let! bn := lh_get i in
    if u32 bn =? blockno then ret (inr i) else ret (inl (i + 1))
  else ret (inr i).

Definition log_write (b : nat) : K unit :=
  acquire LkLog ;;;
  let! lg := gets klog in
  if (lh_n lg >=? LOGSIZE) || (lh_n lg >=? log_size lg - 1)
  then panic "too big a transaction" else
  if log_outstanding lg <? 1 then panic "log_write outside of trans" else
  let! blockno := bfield b b_blockno in
  let! i := loop (log_find blockno) 0 in
  lh_set i (s32 blockno) ;;;
  let! n := lget lh_n in
  when (i =? n)
    (bpin b ;;;
     lset (λ lg, set_lh_n (lh_n lg + 1) lg)) ;;;
  release LkLog.
End log.
