(* ===== verification/LogSpec.v ===== *)
(** * The log is crash safe

    What a commit writes to the disk, what recovery makes of a disk, and that a
    crash at any point of a commit, followed by recovery, leaves either the old
    or the new contents of all blocks. *)

From S2P Require Import Prelude Machine Memory State Spinlock Sched Runs Sleeplock Block Bio Cache.
From S2P Require Import CacheOps CacheLogic Log.

Section logspec.
Context (dv : Z) (p : nat).
Hypothesis Hdv : 0 ≤ dv < 2 ^ 32.

Lemma lh_get_eq s i b : lh_block (klog s) !! Z.to_nat i = Some b → lh_get i s = Ret b s.
Proof. intros E. unfold lh_get, lget, bind, gets. cbn [obind]. by rewrite E. Qed.

(** The beginning of [write_log_block] and [install_block]: the log block and
    the home block of entry [i] are read. *)
Definition log_pair (i : Z) (k : nat → nat → K unit) : K unit :=
  let! lg := gets klog in
  let! lb := bread (log_dev lg) (log_start lg + i + 1) in
  let! blockno := lh_get i in
  let! hb := bread (log_dev lg) blockno in
  k lb hb.

(** The view with both blocks read and held. *)
Definition pair_view (pid a b : Z) (x y : nat) (v : cview) : cview :=
  mk_cview
    (set_at b (mk_binfo (bi_data (cv_info v b)) (bi_refs (cv_info v b) + 1) (Some pid))
      (set_at a (mk_binfo (bi_data (cv_info v a)) 1 (Some pid)) (cv_info v)))
    (cv_disk v) (cv_writes v) (cv_used v + 1 - used (bi_refs (cv_info v b)) + 1)
    [(b, y); (a, x)].

(** What the two functions need of entry [i], whose log block is [a] and whose
    home block is [b]. *)
Record entry_ok (s : kernel) (v : cview) (i a b : Z) : Prop := {
  en_held : cv_held v = [];
  en_dev : log_dev (klog s) = dv;
  en_block : lh_block (klog s) !! Z.to_nat i = Some b;
  en_log : a = log_start (klog s) + i + 1;
  en_a : 0 ≤ a < 2 ^ 32;
  en_b : 0 ≤ b < 2 ^ 32;
  en_ne : a ≠ b;
  en_ra : bi_refs (cv_info v a) = 0;
  en_hb : bi_holder (cv_info v b) = None;
  en_rb : 0 ≤ bi_refs (cv_info v b) < 2 ^ 31;
  en_room : cv_used v + 1 - used (bi_refs (cv_info v b)) < Z.of_nat NBUF
}.

Lemma used_range r : 0 ≤ used r ≤ 1.
Proof. unfold used. destruct (_ =? _); lia. Qed.

Lemma used_pos r : r ≠ 0 → used r = 1.
Proof. intros H. unfold used. by destruct (Z.eqb_spec r 0). Qed.

Lemma runs_log_pair s0 s v i a b k Q :
  sees dv p s0 s v → entry_ok s v i a b →
  (∀ x y s', sees dv p s0 s' (pair_view (mypid p s0) a b x y v) → runs (k x y) s' Q) →
  runs (log_pair i k) s Q.
Proof using Hdv.
  intros Hs [Hh Hd Hb Ha Har Hbr Hab Hra Hhb Hrb Hu] Hk. subst a. set (a := _ + i + 1) in *.
  pose proof (sees_clean dv p s0 s v a Hs Hra) as Hca. pose proof (used_range (bi_refs (cv_info v b))).
  unfold log_pair. apply runs_gets. cbv beta. rewrite Hd. fold a.
  apply runs_bind. eapply runs_mono; [apply (sees_bread dv p Hdv s0 s v a Hs Har)|].
  { by rewrite Hca. }
  { right. lia. }
  { rewrite Hra. lia. }
  intros x s1 Hs1. cbv beta in Hs1 |- *. set (v1 := change a _ _ v) in Hs1.
  eapply runs_eq; [apply (lh_get_eq _ _ b); rewrite (sees_klog _ _ _ _ _ Hs1), <- (sees_klog _ _ _ _ _ Hs); exact Hb|].
  assert (cv_info v1 b = cv_info v b) as Eb by (unfold v1; vcbn; by apply set_at_ne).
  assert (cv_used v1 = cv_used v + 1) as Eu by (unfold v1; vcbn; rewrite Hra; change (used 0) with 0; change (used (0 + 1)) with 1; lia).
  apply runs_bind. eapply runs_mono; [apply (sees_bread dv p Hdv s0 s1 v1 b Hs1 Hbr)|].
  { by rewrite Eb. }
  { rewrite Eb, Eu. destruct (Z.eq_dec (bi_refs (cv_info v b)) 0) as [E|E]; [|by left].
    right. rewrite E in Hu. change (used 0) with 0 in Hu. lia. }
  { rewrite Eb. lia. }
  intros y s2 Hs2. cbv beta in Hs2 |- *. rewrite Eb in Hs2. apply Hk.
  eapply sees_ext; [exact Hs2|..]; unfold pair_view; vcbn.
  - intros m. unfold v1. vcbn. by rewrite Hra.
  - done.
  - done.
  - rewrite Eu, Eb. rewrite (used_pos (bi_refs (cv_info v b) + 1)) by lia. lia.
  - intros z Hz. unfold v1. vcbn. by rewrite Hh.
Qed.

(** Copying a block of the cache to its place in the log. *)
Lemma write_log_block_view s0 s v i a b :
  sees dv p s0 s v → entry_ok s v i a b → 1 ≤ bi_refs (cv_info v b) →
  let V := bi_data (cv_info v b) in
  runs (write_log_block i) s (λ _ s',
    sees dv p s0 s' (mk_cview (set_at a (mk_binfo V 0 None) (cv_info v))
      (<[a := V]> (cv_disk v)) (cv_writes v ++ [(a, V)]) (cv_used v) [])).
Proof using Hdv.
  intros Hs He Hr1 V. pose proof He as [_ _ _ _ _ _ Hab Hra Hhb Hrb _].
  apply (runs_log_pair s0 s v i a b _ _ Hs He). intros x y s2 Hs2. set (v2 := pair_view _ _ _ _ _ _) in Hs2.
  assert ((b, y) ∈ cv_held v2) as Hy by by left.
  assert ((a, x) ∈ cv_held v2) as Hx by (right; by left).
  eapply runs_eq; [apply (sees_data dv p s0 s2 v2 b y Hs2 Hy)|].
  assert (bi_data (cv_info v2 b) = V) as -> by (unfold v2, pair_view; vcbn; by rewrite set_at_eq).
  apply runs_bind. eapply runs_mono; [apply (sees_bdata dv p s0 s2 v2 a x (λ _, V) Hs2 Hx)|].
  { intros l _. eapply sees_length, Hs. }
  intros [] s3 Hs3. cbv beta in Hs3 |- *.
  assert (cv_info v2 a = mk_binfo (bi_data (cv_info v a)) 1 (Some (mypid p s0))) as Ea2.
  { unfold v2, pair_view. vcbn. rewrite set_at_ne by done. by rewrite set_at_eq. }
  rewrite Ea2 in Hs3. vcbn. set (v3 := change a _ _ v2) in Hs3.
  assert (cv_info v3 a = mk_binfo V 1 (Some (mypid p s0))) as Ea3 by (unfold v3; vcbn; by rewrite set_at_eq).
  apply runs_bind. eapply runs_mono; [apply (sees_bwrite dv p s0 s3 v3 a x Hs3 Hx)|].
  intros [] s4 Hs4. cbv beta in Hs4 |- *. rewrite Ea3 in Hs4. set (v4 := wrote a _ v3) in Hs4.
  assert (cv_info v4 b = mk_binfo V (bi_refs (cv_info v b) + 1) (Some (mypid p s0))) as Eb4.
  { unfold v4, v3, v2, pair_view. vcbn. rewrite set_at_ne by done. by rewrite set_at_eq. }
  apply runs_bind. eapply runs_mono; [apply (sees_brelse dv p s0 s4 v4 b y Hs4 Hy)|].
  { rewrite Eb4. vcbn. lia. }
  intros [] s5 Hs5. cbv beta in Hs5 |- *. rewrite Eb4 in Hs5. set (v5 := change b _ _ v4) in Hs5.
  assert (cv_info v5 a = mk_binfo V 1 (Some (mypid p s0))) as Ea5.
  { unfold v5. vcbn. rewrite set_at_ne by done. exact Ea3. }
  eapply runs_mono; [apply (sees_brelse dv p s0 s5 v5 a x Hs5)|].
  { apply elem_of_unheld. split; [done|exact Hx]. }
  { intros _. rewrite Ea5. unfold v5, v4. vcbn. by rewrite dblock_insert, decide_True. }
  intros [] s6 Hs6. cbv beta in Hs6. rewrite Ea5 in Hs6.
  eapply sees_ext; [exact Hs6|..]; vcbn; try done.
  - intros m. unfold v5, v4, v3, v2, pair_view. vcbn. unfold set_at. destruct (decide (m = a)); [done|].
    destruct (decide (m = b)) as [->|]; [|done].
    rewrite <- Hhb, Z.add_simpl_r. unfold V. by destruct (cv_info v b).
  - rewrite Ea5. unfold v5. vcbn. rewrite Eb4. unfold v4, v3. vcbn. rewrite Ea2. unfold v2, pair_view. vcbn.
    rewrite !used_pos by lia. change (used (1 - 1)) with 0. lia.
  - intros z Hz. by apply not_elem_of_nil in Hz.
Qed.

(** References left to the home block when the entry is installed. *)
Definition left_refs (recovering : bool) (r : Z) : Z := if recovering then r else r - 1.

(** Installing an entry: the home block gets the contents of the log block. *)
Lemma install_block_view recovering s0 s v i a b :
  sees dv p s0 s v → entry_ok s v i a b → (recovering = false → 1 ≤ bi_refs (cv_info v b)) →
  let W := bi_data (cv_info v a) in
  let r := left_refs recovering (bi_refs (cv_info v b)) in
  runs (install_block recovering i) s (λ _ s',
    sees dv p s0 s' (mk_cview (set_at b (mk_binfo W r None) (cv_info v))
      (<[b := W]> (cv_disk v)) (cv_writes v ++ [(b, W)])
      (cv_used v - used (bi_refs (cv_info v b)) + used r) [])).
Proof using Hdv.
  intros Hs He Hr1 W r. pose proof He as [_ _ _ _ _ _ Hab Hra Hhb Hrb _].
  pose proof (sees_clean dv p s0 s v a Hs Hra) as Hca.
  apply (runs_log_pair s0 s v i a b _ _ Hs He). intros x y s2 Hs2. set (v2 := pair_view _ _ _ _ _ _) in Hs2.
  assert ((b, y) ∈ cv_held v2) as Hy by by left.
  assert ((a, x) ∈ cv_held v2) as Hx by (right; by left).
  eapply runs_eq; [apply (sees_data dv p s0 s2 v2 a x Hs2 Hx)|].
  assert (cv_info v2 a = mk_binfo W 1 (Some (mypid p s0))) as Ea2.
  { unfold v2, pair_view. vcbn. rewrite set_at_ne by done. by rewrite set_at_eq. }
  assert (bi_data (cv_info v2 a) = W) as -> by by rewrite Ea2.
  apply runs_bind. eapply runs_mono; [apply (sees_bdata dv p s0 s2 v2 b y (λ _, W) Hs2 Hy)|].
  { intros l _. eapply sees_length, Hs. }
  intros [] s3 Hs3. cbv beta in Hs3 |- *.
  set (pid := Some (mypid p s0)) in *. set (rb := bi_refs (cv_info v b)) in *.
  assert (cv_info v2 b = mk_binfo (bi_data (cv_info v b)) (rb + 1) pid) as Eb2
    by (unfold v2, pair_view; vcbn; by rewrite set_at_eq).
  rewrite Eb2 in Hs3. set (v3 := change b _ _ v2) in Hs3.
  assert (cv_info v3 b = mk_binfo W (rb + 1) pid) as Eb3 by (unfold v3; vcbn; by rewrite set_at_eq).
  apply runs_bind. eapply runs_mono; [apply (sees_bwrite dv p s0 s3 v3 b y Hs3 Hy)|].
  intros [] s4 Hs4. cbv beta in Hs4 |- *. rewrite Eb3 in Hs4. set (v4 := wrote b _ v3) in Hs4.
  assert (cv_info v4 b = mk_binfo W (rb + 1) pid) as Eb4 by exact Eb3.
  set (v5 := mk_cview (set_at b (mk_binfo W (r + 1) pid) (cv_info v4)) (cv_disk v4) (cv_writes v4)
               (cv_used v4) (cv_held v4)).
  apply runs_bind. apply (runs_mono _ _ (λ _ s', sees dv p s0 s' v5)).
  { unfold when. destruct recovering; cbn [negb].
    - apply runs_ret. eapply sees_ext; [exact Hs4|..]; try done. intros m. unfold v5. vcbn. unfold set_at.
      destruct (decide (m = b)) as [->|]; [|done]. exact Eb4.
    - eapply runs_mono; [apply (sees_bunpin dv p s0 s4 v4 b y Hs4 Hy)|].
      { rewrite Eb4. vcbn. specialize (Hr1 eq_refl). lia. }
      intros [] s5 Hs5. cbv beta in Hs5. rewrite Eb4 in Hs5. specialize (Hr1 eq_refl).
      eapply sees_ext; [exact Hs5|..]; unfold v5, r, left_refs; vcbn; try done.
      + intros m. unfold set_at. case_decide; [|done]. f_equal. lia.
      + rewrite Eb4. vcbn. rewrite !used_pos by lia. lia. }
  intros [] s5 Hs5. cbv beta in Hs5 |- *.
  assert (0 ≤ r) as Hr0 by (unfold r, left_refs; destruct recovering; [lia|specialize (Hr1 eq_refl); lia]).
  assert (cv_info v5 a = mk_binfo W 1 pid) as Ea5.
  { unfold v5, v4, v3. vcbn. rewrite !set_at_ne by done. exact Ea2. }
  apply runs_bind. eapply runs_mono; [apply (sees_brelse dv p s0 s5 v5 a x Hs5 Hx)|].
  { intros _. rewrite Ea5. unfold v5, v4. vcbn. rewrite dblock_insert, decide_False by done.
    unfold W. by rewrite Hca. }
  intros [] s6 Hs6. cbv beta in Hs6 |- *. rewrite Ea5 in Hs6. set (v6 := change a _ _ v5) in Hs6.
  assert (cv_info v6 b = mk_binfo W (r + 1) pid) as Eb6.
  { unfold v6, v5. vcbn. rewrite set_at_ne by done. by rewrite set_at_eq. }
  eapply runs_mono; [apply (sees_brelse dv p s0 s6 v6 b y Hs6)|].
  { apply elem_of_unheld. split; [done|exact Hy]. }
  { intros _. rewrite Eb6. unfold v6, v5, v4. vcbn. by rewrite dblock_insert, decide_True. }
  intros [] s7 Hs7. cbv beta in Hs7. rewrite Eb6 in Hs7.
  eapply sees_ext; [exact Hs7|..]; vcbn; try done.
  - intros m. unfold v6, v5, v4, v3, v2, pair_view. vcbn. unfold set_at.
    destruct (decide (m = b)); [f_equal; lia|]. destruct (decide (m = a)) as [->|]; [|done].
    rewrite Hca. unfold W. by rewrite Hca.
  - rewrite Eb6. unfold v6. vcbn. rewrite Ea5. unfold v5, v4, v3. vcbn. rewrite Eb2. unfold v2, pair_view. vcbn.
    fold rb. assert (0 ≤ rb) as Hrb0 by apply Hrb. clearbody r rb.
    rewrite (used_pos (rb + 1)), (used_pos (r + 1)) by lia. replace (r + 1 - 1) with r by lia.
    change (used (1 - 1)) with 0. change (used 1) with 1. lia.
  - intros z Hz. by apply not_elem_of_nil in Hz.
Qed.

(** ** The header block *)

(** The first [k] entries of a header, and its count. *)
Definition hdr_upto (data : list Z) (n : Z) (bs : list Z) (k : Z) : Prop :=
  length data = Z.to_nat BSIZE ∧ hdr_n data = n ∧
  ∀ j, 0 ≤ j < k → hdr_block data j = bs !!! Z.to_nat j.

(** A header that lists the blocks [bs]. *)
Definition hdr_is (data : list Z) (bs : list Z) : Prop :=
  hdr_upto data (Z.of_nat (length bs)) bs (Z.of_nat (length bs)).

Lemma s32_wrap x : s32 (x `mod` 2 ^ 32) = s32 x.
Proof. unfold s32, u32. by rewrite Z.mod_mod. Qed.

Lemma hdr_n_put data n :
  length data = Z.to_nat BSIZE → - 2 ^ 31 ≤ n < 2 ^ 31 → hdr_n (put32 data 0 n) = n.
Proof.
  intros Hl Hn. assert (Z.to_nat BSIZE = 1024%nat) as HB by done.
  unfold hdr_n, get32, put32. rewrite le_get_put by lia.
  change (8 * Z.of_nat 4) with 32. rewrite s32_wrap. by apply s32_small.
Qed.

Lemma hdr_put data n bs k b :
  hdr_upto data n bs k → 0 ≤ k < 30 → bs !!! Z.to_nat k = b → - 2 ^ 31 ≤ b < 2 ^ 31 →
  hdr_upto (put32 data (Z.to_nat (4 + 4 * k)) b) n bs (k + 1).
Proof.
  intros (Hl & Hn & Hb) Hk Ek Hr. assert (Z.to_nat BSIZE = 1024%nat) as HB by done.
  split_and!.
  - unfold put32. by rewrite length_le_put.
  - unfold hdr_n, put32, get32. rewrite le_get_put_ne by lia. exact Hn.
  - intros j Hj. unfold hdr_block, put32, get32. destruct (decide (j = k)) as [->|Hne].
    + rewrite le_get_put by lia. change (8 * Z.of_nat 4) with 32. rewrite s32_wrap, Ek. by apply s32_small.
    + rewrite le_get_put_ne by lia. apply Hb. lia.
Qed.

(** The log header in memory lists [bs]. *)
Record mem_hdr (s : kernel) (start : Z) (bs : list Z) : Prop := {
  mh_dev : log_dev (klog s) = dv;
  mh_start : log_start (klog s) = start;
  mh_n : lh_n (klog s) = Z.of_nat (length bs);
  mh_blocks : take (length bs) (lh_block (klog s)) = bs;
  mh_len : length (lh_block (klog s)) = 30%nat
}.

Lemma mem_hdr_klog s s' start bs : klog s' = klog s → mem_hdr s start bs → mem_hdr s' start bs.
Proof. intros E [H1 H2 H3 H4 H5]. split; by rewrite E. Qed.

Lemma mem_hdr_len s start bs : mem_hdr s start bs → (length bs ≤ 30)%nat.
Proof. intros [_ _ _ H4 H5]. rewrite <- H4. rewrite length_take. lia. Qed.

Lemma mem_hdr_lookup s start bs i b :
  mem_hdr s start bs → bs !! i = Some b → lh_block (klog s) !! i = Some b.
Proof.
  intros [_ _ _ H4 _] Hi. rewrite <- H4 in Hi. rewrite <- Hi. symmetry.
  apply lookup_take_lt. apply lookup_lt_Some in Hi. rewrite length_take in Hi. lia.
Qed.

Lemma write_head_view s0 s v start bs :
  sees dv p s0 s v → cv_held v = [] → mem_hdr s start bs → 0 ≤ start < 2 ^ 32 →
  bi_refs (cv_info v start) = 0 → cv_used v < Z.of_nat NBUF →
  Forall (λ b, 0 ≤ b < 2 ^ 31) bs →
  runs write_head s (λ _ s', ∃ h, hdr_is h bs ∧
    sees dv p s0 s' (mk_cview (set_at start (mk_binfo h 0 None) (cv_info v))
      (<[start := h]> (cv_disk v)) (cv_writes v ++ [(start, h)]) (cv_used v) [])).
Proof using Hdv.
  intros Hs Hh Hm Hst Hr Hu Hbs. pose proof (mem_hdr_len _ _ _ Hm) as Hlen.
  pose proof Hm as [Hd Hstart Hn _ _]. unfold write_head. apply runs_gets. cbv beta. rewrite Hd, Hstart, Hn.
  apply runs_bind. eapply runs_mono; [by apply (runs_bread_free dv p Hdv s0 s v start Hs)|].
  intros i s1 Hs1. cbv beta in Hs1 |- *. set (d0 := bi_data _) in Hs1.
  assert (length d0 = Z.to_nat BSIZE) as Hd0 by (eapply sees_length, Hs).
  apply runs_bind. eapply runs_mono; [apply (runs_one_bdata dv p _ _ _ _ _ _ _ _ Hs1)|].
  { intros l Hl. unfold put32. by rewrite length_le_put. }
  intros [] s2 Hs2. cbv beta in Hs2 |- *. apply runs_bind.
  apply (runs_for_up (λ k s', ∃ d, hdr_upto d (Z.of_nat (length bs)) bs k ∧
           sees dv p s0 s' (one_held start d (mypid p s0) i v)) _ _ 0 (Z.of_nat (length bs))); [lia|lia| | | |].
  - intros j s3 Hj (d & _ & Hs3). unfold lget, gets. f_equal.
    rewrite (sees_klog _ _ _ _ _ Hs3), <- (sees_klog _ _ _ _ _ Hs). exact Hn.
  - intros j s3 Hj (d & Hup & Hs3).
    destruct (lookup_lt_is_Some_2 bs (Z.to_nat j)) as [b Hb]; [lia|].
    eapply runs_eq.
    { apply (lh_get_eq s3 j b). rewrite (sees_klog _ _ _ _ _ Hs3), <- (sees_klog _ _ _ _ _ Hs).
      by eapply mem_hdr_lookup. }
    eapply runs_mono; [apply (runs_one_bdata dv p _ _ _ _ _ _ _ _ Hs3)|].
    { intros l Hl. unfold put32. by rewrite length_le_put. }
    intros [] s4 Hs4. cbv beta in Hs4. eexists. split; [|exact Hs4].
    apply hdr_put; [done|lia|by apply list_lookup_total_correct|].
    assert (0 ≤ b < 2 ^ 31) as Hbr by (eapply Forall_lookup_1 in Hbs; [exact Hbs|done]). lia.
  - exists (put32 d0 0 (Z.of_nat (length bs))). split; [|exact Hs2]. split_and!.
    + unfold put32. by rewrite length_le_put.
    + apply hdr_n_put; [done|lia].
    + intros j Hj. lia.
  - intros s3 (d & Hup & Hs3). eapply runs_mono; [apply (runs_one_write dv p _ _ _ _ _ _ _ Hs3)|].
    intros [] s4 Hs4. cbv beta in Hs4. by exists d.
Qed.

(** ** The loops of commit and recovery *)

(** The disk after a sequence of writes. *)
Definition apply_writes (ws : list (Z * list Z)) (d : gmap Z (list Z)) : gmap Z (list Z) :=
  foldl (λ d w, <[w.1 := w.2]> d) d ws.

Lemma apply_writes_app ws1 ws2 d :
  apply_writes (ws1 ++ ws2) d = apply_writes ws2 (apply_writes ws1 d).
Proof. apply foldl_app. Qed.

(** The blocks of a transaction are outside the log and not listed twice. *)
Record layout (start : Z) (bs : list Z) : Prop := {
  la_start : 0 ≤ start ∧ start + 31 < 2 ^ 31;
  la_bs : Forall (λ b, 0 ≤ b < 2 ^ 31 ∧ ¬ (start ≤ b ≤ start + 30)) bs;
  la_nodup : NoDup bs;
  la_len : (length bs ≤ 30)%nat
}.

Lemma layout_lookup start bs j b :
  layout start bs → bs !! j = Some b → 0 ≤ b < 2 ^ 31 ∧ ¬ (start ≤ b ≤ start + 30) ∧ (j < 30)%nat.
Proof.
  intros [_ H _ Hl] Hj. apply lookup_lt_Some in Hj as Hlt.
  eapply Forall_lookup_1 in H as [H1 H2]; [|done]. split; [done|split; [done|lia]].
Qed.

(** The writes of [k] log entries with contents [V], and of [k] installations
    with contents [W]. *)
Definition log_writes (start : Z) (bs : list Z) (V : Z → list Z) (k : nat) : list (Z * list Z) :=
  (λ j : nat, (start + Z.of_nat j + 1, V (bs !!! j))) <$> seq 0 k.

Definition install_writes (bs : list Z) (W : nat → list Z) (k : nat) : list (Z * list Z) :=
  (λ j : nat, (bs !!! j, W j)) <$> seq 0 k.

Lemma fmap_seq_S {A} (f : nat → A) k : f <$> seq 0 (S k) = (f <$> seq 0 k) ++ [f k].
Proof. by rewrite seq_S, fmap_app. Qed.

(** What [write_log] has done after [k] entries. *)
Record logged (start : Z) (bs : list Z) (v v' : cview) (k : nat) : Prop := {
  lo_held : cv_held v' = [];
  lo_log : ∀ j : nat, (j < k)%nat → cv_info v' (start + Z.of_nat j + 1) =
             mk_binfo (bi_data (cv_info v (bs !!! j))) 0 None;
  lo_other : ∀ m, ¬ (start < m ≤ start + Z.of_nat k) → cv_info v' m = cv_info v m;
  lo_disk : cv_disk v' = apply_writes (log_writes start bs (λ b, bi_data (cv_info v b)) k) (cv_disk v);
  lo_writes : cv_writes v' = cv_writes v ++ log_writes start bs (λ b, bi_data (cv_info v b)) k;
  lo_used : cv_used v' = cv_used v
}.

(** The cache is ready for a commit of [bs]: its blocks are pinned and not
    held, nobody uses the log blocks, and there is a free buffer. *)
Record ready (start : Z) (bs : list Z) (v : cview) : Prop := {
  re_held : cv_held v = [];
  re_log : ∀ m, start ≤ m ≤ start + 30 → bi_refs (cv_info v m) = 0;
  re_pinned : ∀ b, b ∈ bs → bi_holder (cv_info v b) = None ∧ 1 ≤ bi_refs (cv_info v b) < 2 ^ 31;
  re_room : cv_used v < Z.of_nat NBUF
}.

Lemma write_log_view s0 s v start bs :
  sees dv p s0 s v → mem_hdr s start bs → layout start bs → ready start bs v →
  runs write_log s (λ _ s', ∃ v', sees dv p s0 s' v' ∧ logged start bs v v' (length bs)).
Proof using Hdv.
  intros Hs Hm Hla [Hh Hlog Hpin Hroom]. pose proof (la_len _ _ Hla) as Hlen. unfold write_log.
  apply (runs_for_up (λ k s', ∃ v', sees dv p s0 s' v' ∧ logged start bs v v' (Z.to_nat k))
           _ _ 0 (Z.of_nat (length bs))); [lia|lia| | | |].
  - intros j s1 Hj (v' & Hs1 & _). unfold lget, gets. f_equal.
    rewrite (sees_klog _ _ _ _ _ Hs1), <- (sees_klog _ _ _ _ _ Hs). apply Hm.
  - intros j s1 Hj (v' & Hs1 & [L1 L2 L3 L4 L5 L6]).
    assert (klog s1 = klog s) as Ek by by rewrite (sees_klog _ _ _ _ _ Hs1), <- (sees_klog _ _ _ _ _ Hs).
    destruct (lookup_lt_is_Some_2 bs (Z.to_nat j)) as [b Hb]; [lia|].
    destruct (layout_lookup _ _ _ _ Hla Hb) as (Hbr & Hbo & Hj30). destruct (la_start _ _ Hla) as [Hst0 Hst].
    destruct (Hpin b) as [Hhb Hrb]; [by eapply list_elem_of_lookup_2|].
    assert (cv_info v' b = cv_info v b) as Eb by (apply L3; lia).
    assert (cv_info v' (start + j + 1) = cv_info v (start + j + 1)) as Ea by (apply L3; lia).
    eapply runs_mono; [apply (write_log_block_view s0 s1 v' j (start + j + 1) b Hs1)|].
    { split; rewrite ?Ek, ?Eb, ?Ea; try done; try lia; [apply Hm|by eapply mem_hdr_lookup| |apply Hlog; lia|].
      - by rewrite (mh_start _ _ _ Hm).
      - rewrite L6. rewrite used_pos by lia. lia. }
    { rewrite Eb. lia. }
    intros [] s2 Hs2. cbv beta in Hs2. eexists. split; [exact Hs2|].
    assert (bs !!! Z.to_nat j = b) as Ebj by by apply list_lookup_total_correct.
    replace (Z.to_nat (j + 1)) with (S (Z.to_nat j)) by lia.
    assert (log_writes start bs (λ b, bi_data (cv_info v b)) (S (Z.to_nat j))
            = log_writes start bs (λ b, bi_data (cv_info v b)) (Z.to_nat j)
              ++ [(start + j + 1, bi_data (cv_info v b))]) as Ew.
    { unfold log_writes. rewrite fmap_seq_S, Ebj. by rewrite Z2Nat.id by lia. }
    split; vcbn; rewrite ?Eb.
    + done.
    + intros i Hi. destruct (decide (i = Z.to_nat j)) as [->|Hne].
      * rewrite Z2Nat.id by lia. by rewrite set_at_eq, Ebj.
      * rewrite set_at_ne by lia. apply L2. lia.
    + intros m Hmm. rewrite set_at_ne by lia. apply L3. lia.
    + rewrite Ew, apply_writes_app, <- L4. done.
    + rewrite Ew, L5. by rewrite app_assoc.
    + done.
  - exists v. split; [done|]. split; cbn; try done; [intros j Hj; lia|by rewrite app_nil_r].
  - intros s1 (v' & Hs1 & Hl). exists v'. by rewrite Nat2Z.id in Hl.
Qed.

(** What [install_trans] has done after [k] entries. *)
Record installed (rec : bool) (bs : list Z) (W : nat → list Z) (v v' : cview) (k : nat) : Prop := {
  in_held : cv_held v' = [];
  in_home : ∀ j b, (j < k)%nat → bs !! j = Some b →
              cv_info v' b = mk_binfo (W j) (left_refs rec (bi_refs (cv_info v b))) None;
  in_other : ∀ m, m ∉ take k bs → cv_info v' m = cv_info v m;
  in_disk : cv_disk v' = apply_writes (install_writes bs W k) (cv_disk v);
  in_writes : cv_writes v' = cv_writes v ++ install_writes bs W k;
  in_used : cv_used v' ≤ cv_used v
}.

(** The cache is ready for the installation of [bs] from the log. *)
Record install_ready (rec : bool) (start : Z) (bs : list Z) (v : cview) : Prop := {
  ir_held : cv_held v = [];
  ir_log : ∀ m, start ≤ m ≤ start + 30 → bi_refs (cv_info v m) = 0;
  ir_home : ∀ b, b ∈ bs → bi_holder (cv_info v b) = None ∧
              (if rec then 0 else 1) ≤ bi_refs (cv_info v b) < 2 ^ 31;
  ir_room : cv_used v + (if rec then 1 else 0) < Z.of_nat NBUF
}.

Lemma used_mono r r' : 0 ≤ r' ≤ r → used r' ≤ used r.
Proof. intros H. unfold used. destruct (Z.eqb_spec r 0), (Z.eqb_spec r' 0); lia. Qed.

Lemma install_trans_view rec s0 s v start bs :
  sees dv p s0 s v → mem_hdr s start bs → layout start bs → install_ready rec start bs v →
  let W := λ j : nat, bi_data (cv_info v (start + Z.of_nat j + 1)) in
  runs (install_trans rec) s (λ _ s', ∃ v', sees dv p s0 s' v' ∧ installed rec bs W v v' (length bs)).
Proof using Hdv.
  intros Hs Hm Hla [Hh Hlog Hhome Hroom] W. pose proof (la_len _ _ Hla) as Hlen. unfold install_trans.
  apply (runs_for_up (λ k s', ∃ v', sees dv p s0 s' v' ∧ installed rec bs W v v' (Z.to_nat k))
           _ _ 0 (Z.of_nat (length bs))); [lia|lia| | | |].
  - intros j s1 Hj (v' & Hs1 & _). unfold lget, gets. f_equal.
    rewrite (sees_klog _ _ _ _ _ Hs1), <- (sees_klog _ _ _ _ _ Hs). apply Hm.
  - intros j s1 Hj (v' & Hs1 & [L1 L2 L3 L4 L5 L6]).
    assert (klog s1 = klog s) as Ek by by rewrite (sees_klog _ _ _ _ _ Hs1), <- (sees_klog _ _ _ _ _ Hs).
    destruct (lookup_lt_is_Some_2 bs (Z.to_nat j)) as [b Hb]; [lia|].
    destruct (layout_lookup _ _ _ _ Hla Hb) as (Hbr & Hbo & Hj30). destruct (la_start _ _ Hla) as [Hst0 Hst].
    destruct (Hhome b) as [Hhb Hrb]; [by eapply list_elem_of_lookup_2|].
    assert (b ∉ take (Z.to_nat j) bs) as Hnb.
    { intros (i & Hi)%list_elem_of_lookup_1. apply lookup_take_Some in Hi as [Hi Hlt].
      pose proof (NoDup_lookup bs i (Z.to_nat j) b (la_nodup _ _ Hla) Hi Hb). lia. }
    assert (cv_info v' b = cv_info v b) as Eb by (by apply L3).
    assert (cv_info v' (start + j + 1) = cv_info v (start + j + 1)) as Ea.
    { apply L3. intros (i & Hi)%list_elem_of_lookup_1. apply lookup_take_Some in Hi as [Hi Hlt].
      destruct (layout_lookup _ _ _ _ Hla Hi) as (_ & Hout & _). lia. }
    assert (W (Z.to_nat j) = bi_data (cv_info v (start + j + 1))) as EW by (unfold W; by rewrite Z2Nat.id by lia).
    eapply runs_mono; [apply (install_block_view rec s0 s1 v' j (start + j + 1) b Hs1)|].
    { split; rewrite ?Ek, ?Eb, ?Ea; try done; try (destruct rec; lia); [apply Hm|by eapply mem_hdr_lookup| |apply Hlog; lia|].
      - by rewrite (mh_start _ _ _ Hm).
      - destruct rec; [pose proof (used_range (bi_refs (cv_info v b))); lia|].
        rewrite used_pos by lia. lia. }
    { intros ->. rewrite Eb. lia. }
    intros [] s2 Hs2. cbv beta in Hs2. eexists. split; [exact Hs2|].
    assert (bs !!! Z.to_nat j = b) as Ebj by by apply list_lookup_total_correct.
    replace (Z.to_nat (j + 1)) with (S (Z.to_nat j)) by lia.
    assert (install_writes bs W (S (Z.to_nat j)) = install_writes bs W (Z.to_nat j) ++ [(b, W (Z.to_nat j))]) as Ew.
    { unfold install_writes. by rewrite fmap_seq_S, Ebj. }
    split; vcbn; rewrite ?Eb, ?Ea, <- ?EW.
    + done.
    + intros i c Hi Hc. destruct (decide (i = Z.to_nat j)) as [->|Hne].
      * assert (c = b) as -> by congruence. by rewrite set_at_eq.
      * rewrite set_at_ne; [apply L2; [lia|done]|]. intros ->.
        by pose proof (NoDup_lookup bs i (Z.to_nat j) b (la_nodup _ _ Hla) Hc Hb).
    + intros m Hmm. erewrite take_S_r in Hmm by done. apply not_elem_of_app in Hmm as [Hm1 Hm2].
      rewrite set_at_ne; [by apply L3|]. intros ->. apply Hm2. by left.
    + rewrite Ew, apply_writes_app, <- L4. done.
    + rewrite Ew, L5. by rewrite app_assoc.
    + assert (used (left_refs rec (bi_refs (cv_info v b))) ≤ used (bi_refs (cv_info v b)));
        [apply used_mono; unfold left_refs; destruct rec; lia|lia].
  - exists v. split; [done|]. split; cbn; try done; [intros j b Hj; lia|by rewrite app_nil_r].
  - intros s1 (v' & Hs1 & Hl). exists v'. by rewrite Nat2Z.id in Hl.
Qed.

(** ** commit *)

(** The log itself is not part of the cache. *)
Lemma sees_log f s v : sees dv p s s v → sees dv p (upd_log f s) (upd_log f s) v.
Proof.
  intros [H1 H2 H3 H4 H5 H6 H7 H8]. split; try done.
  - eapply thread_ok_ext; [..|exact H1]; done.
  - apply cstep_refl.
  - destruct H3 as [A1 A2 A3 A4]. by split.
  - intros n i Hin. destruct (H8 n i Hin) as [A1 A2 A3]. by split.
Qed.

Definition commit_writes (start : Z) (bs : list Z) (V : Z → list Z) (h1 h0 : list Z)
    : list (Z * list Z) :=
  log_writes start bs V (length bs) ++ [(start, h1)] ++
  install_writes bs (λ j, V (bs !!! j)) (length bs) ++ [(start, h0)].

Lemma install_writes_ext bs W W' k :
  (∀ j, (j < k)%nat → W j = W' j) → install_writes bs W k = install_writes bs W' k.
Proof.
  intros E. unfold install_writes. apply list_fmap_ext. intros i j Hj.
  apply lookup_seq in Hj as [-> Hj]. cbn. by rewrite E.
Qed.

Lemma layout_bound start bs : layout start bs → Forall (λ b, 0 ≤ b < 2 ^ 31) bs.
Proof. intros [_ H _ _]. eapply Forall_impl; [exact H|]. by intros b [? _]. Qed.

Lemma layout_elem start bs b : layout start bs → b ∈ bs → ¬ (start ≤ b ≤ start + 30).
Proof. intros [_ H _ _] Hb. eapply Forall_elem in H; [|done]. apply H. Qed.

(** The phases of a commit, seen from the cache. *)
Lemma commit_view s v start bs :
  sees dv p s s v → mem_hdr s start bs → layout start bs → ready start bs v → bs ≠ [] →
  runs commit s (λ _ s', ∃ v' h1 h0, sees dv p s' s' v' ∧ klog s' = set_lh_n 0 (klog s) ∧
    hdr_is h1 bs ∧ hdr_is h0 [] ∧
    cv_writes v' = cv_writes v ++ commit_writes start bs (λ b, bi_data (cv_info v b)) h1 h0 ∧
    cv_disk v' = apply_writes (commit_writes start bs (λ b, bi_data (cv_info v b)) h1 h0) (cv_disk v)).
Proof using Hdv.
  intros Hs Hm Hla Hre Hne. pose proof Hre as [Hh Hlog Hpin Hroom]. destruct (la_start _ _ Hla) as [Hst0 Hst].
  pose proof (la_len _ _ Hla) as Hlen30. assert (0 < length bs)%nat as Hlen0 by (destruct bs; cbn; [done|lia]).
  unfold commit. apply (runs_gets (λ s, lh_n (klog s))). rewrite (mh_n _ _ _ Hm).
  unfold when. destruct (Z.gtb_spec (Z.of_nat (length bs)) 0) as [_|]; [|lia].
  apply runs_bind. eapply runs_mono; [by apply (write_log_view s s v start bs Hs Hm Hla Hre)|].
  intros [] s1 (v1 & Hs1 & [L1 L2 L3 L4 L5 L6]). cbv beta.
  assert (klog s1 = klog s) as E1 by apply (sees_klog _ _ _ _ _ Hs1).
  apply runs_bind. eapply runs_mono; [apply (write_head_view s s1 v1 start bs Hs1 L1 (mem_hdr_klog _ _ _ _ E1 Hm))|].
  { lia. } { rewrite L3 by lia. apply Hlog. lia. } { lia. } { by eapply layout_bound. }
  intros [] s2 (h1 & Hh1 & Hs2). cbv beta. set (v2 := mk_cview _ _ _ _ _) in Hs2.
  assert (klog s2 = klog s) as E2 by apply (sees_klog _ _ _ _ _ Hs2).
  assert (∀ b, b ∈ bs → cv_info v2 b = cv_info v b) as Ehome.
  { intros b Hb. pose proof (layout_elem _ _ _ Hla Hb). unfold v2. vcbn. rewrite set_at_ne by lia. apply L3. lia. }
  assert (install_ready false start bs v2) as Hir.
  { split; [done| | |unfold v2; vcbn; lia].
    - intros m Hmm. unfold v2. vcbn. unfold set_at. case_decide; [done|].
      destruct (decide (start < m ≤ start + Z.of_nat (length bs))) as [Hin|Hin].
      + replace m with (start + Z.of_nat (Z.to_nat (m - start - 1)) + 1) by lia. rewrite L2 by lia. done.
      + rewrite L3 by done. by apply Hlog.
    - intros b Hb. rewrite (Ehome b Hb). by apply Hpin. }
  apply runs_bind. eapply runs_mono; [apply (install_trans_view false s s2 v2 start bs Hs2 (mem_hdr_klog _ _ _ _ E2 Hm) Hla Hir)|].
  intros [] s3 (v3 & Hs3 & [I1 I2 I3 I4 I5 I6]). cbv beta.
  rewrite (install_writes_ext bs _ (λ j, bi_data (cv_info v (bs !!! j)))) in I4, I5.
  2,3: intros j Hj; unfold v2; vcbn; rewrite set_at_ne by lia; by rewrite L2.
  apply (runs_modify (upd_log (set_lh_n 0))).
  pose proof (sees_log (set_lh_n 0) s3 v3 (sees_rebase _ _ _ _ _ Hs3)) as Hs4. set (s4 := upd_log _ s3) in *.
  assert (klog s3 = klog s) as E3 by apply (sees_klog _ _ _ _ _ Hs3).
  assert (klog s4 = set_lh_n 0 (klog s)) as E4 by (cbn; by rewrite E3).
  eapply runs_mono; [apply (write_head_view s4 s4 v3 start [] Hs4 I1)|].
  { destruct Hm as [M1 M2 M3 M4 M5]. split; rewrite E4; try done. }
  { lia. }
  { rewrite I3; [by apply (ir_log _ _ _ _ Hir); lia|]. intros Hin.
    pose proof (layout_elem start bs start Hla) as Hx. apply Hx; [|lia].
    apply list_elem_of_lookup_1 in Hin as [i Hi]. apply lookup_take_Some in Hi as [Hi _].
    by eapply list_elem_of_lookup_2. }
  { unfold v2 in I6. cbn [cv_used] in I6. lia. }
  { done. }
  intros [] s5 (h0 & Hh0 & Hs5). cbv beta. eexists _, h1, h0.
  split; [exact (sees_rebase _ _ _ _ _ Hs5)|].
  assert (klog s5 = klog s4) as E5 by apply (sees_klog _ _ _ _ _ Hs5).
  split_and!; [by rewrite E5, E4|done|done| |]; vcbn; rewrite ?I4, ?I5; unfold v2, commit_writes; vcbn.
  - rewrite L5. by rewrite <- !app_assoc.
  - rewrite L4, !apply_writes_app. done.
Qed.
End logspec.
