(* ===== verification/LogCrash.v ===== *)
(** * Crashes and recovery

    Recovery as the code performs it, the disks a crash can leave during a
    commit, and that recovery turns each of them into the old or the new
    contents of all blocks. *)

From S2P Require Import Prelude Machine Memory State Spinlock Sched Runs Sleeplock Block Bio Cache.
From S2P Require Import CacheOps CacheLogic CacheSpec Log LogSpec.

Section recovery.
Context (dv : Z) (p : nat).
Hypothesis Hdv : 0 ≤ dv < 2 ^ 32.

(** ** read_head *)

Lemma lh_set_eq s i b :
  0 ≤ i < Z.of_nat (length (lh_block (klog s))) →
  lh_set i b s = Ret tt (upd_log (set_lh_block (<[Z.to_nat i := b]> (lh_block (klog s)))) s).
Proof.
  intros Hi. unfold lh_set, lget, lset, bind, gets, modify. cbn [obind].
  destruct (Z.ltb_spec i (Z.of_nat (length (lh_block (klog s))))); [done|lia].
Qed.

(** The header block is read into the log structure. *)
Lemma read_head_view s v start bs :
  sees dv p s s v → cv_held v = [] → log_dev (klog s) = dv → log_start (klog s) = start →
  length (lh_block (klog s)) = 30%nat → (length bs ≤ 30)%nat → 0 ≤ start < 2 ^ 32 →
  bi_refs (cv_info v start) = 0 → cv_used v < Z.of_nat NBUF →
  hdr_is (dblock (cv_disk v) start) bs →
  runs read_head s (λ _ s', sees dv p s' s' v ∧ mem_hdr dv s' start bs).
Proof using Hdv.
  intros Hs Hh Hd Hst Hlen Hbs Hsr Hr Hu (Hhl & Hhn & Hhb).
  pose proof (sees_clean dv p s s v start Hs Hr) as Hcl.
  unfold read_head. apply runs_gets. cbv beta. rewrite Hd, Hst.
  apply runs_bind. eapply runs_mono; [by apply (runs_bread_free dv p Hdv s s v start Hs)|].
  intros i s1 Hs1. cbv beta in Hs1 |- *. rewrite Hcl in Hs1. cbn [bi_data] in Hs1.
  set (pid := mypid p s) in *. set (h := dblock (cv_disk v) start) in *.
  eapply runs_eq; [apply (sees_data dv p s s1 _ start i Hs1); by left|].
  assert (bi_data (cv_info (one_held start h pid i v) start) = h) as -> by (unfold one_held; vcbn; by rewrite set_at_eq).
  assert (klog s1 = klog s) as E1 by apply (sees_klog _ _ _ _ _ Hs1).
  apply (runs_modify (upd_log (set_lh_n (hdr_n h)))). rewrite Hhn.
  pose proof (sees_log dv p (set_lh_n (Z.of_nat (length bs))) s1 _ (sees_rebase _ _ _ _ _ Hs1)) as Hs2.
  set (s2 := upd_log _ s1) in *.
  apply runs_bind.
  apply (runs_for_up (λ k s', sees dv p s' s' (one_held start h pid i v) ∧ log_dev (klog s') = dv ∧
    log_start (klog s') = start ∧ lh_n (klog s') = Z.of_nat (length bs) ∧
    length (lh_block (klog s')) = 30%nat ∧ take (Z.to_nat k) (lh_block (klog s')) = take (Z.to_nat k) bs)
    _ _ 0 (Z.of_nat (length bs))); [lia|lia| | | |].
  - intros j s3 Hj (_ & _ & _ & Hn & _). unfold lget, gets. by rewrite Hn.
  - intros j s3 Hj (Hs3 & A1 & A2 & A3 & A4 & A5).
    eapply runs_eq_last; [apply lh_set_eq; rewrite A4; lia|].
    assert (hdr_block h j = bs !!! Z.to_nat j) as Ej by (apply Hhb; lia).
    split_and!; [by apply sees_log|done|done|done|cbn; by rewrite length_insert|]. cbn.
    destruct (lookup_lt_is_Some_2 bs (Z.to_nat j)) as [b Hb]; [lia|].
    replace (Z.to_nat (j + 1)) with (S (Z.to_nat j)) by lia.
    erewrite !take_S_r; [|done|rewrite list_lookup_insert_eq by lia; reflexivity].
    rewrite take_insert_ge by lia. rewrite A5. f_equal. rewrite Ej. f_equal.
    by apply list_lookup_total_correct.
  - split_and!; [done| | |done| |done]; cbn; rewrite E1; done.
  - intros s3 (Hs3 & A1 & A2 & A3 & A4 & A5).
    eapply runs_mono; [apply (runs_one_brelse dv p s3 s3 v start pid i Hh Hcl Hs3)|].
    intros [] s4 Hs4. cbv beta in Hs4. split; [by eapply sees_rebase|].
    apply (mem_hdr_klog dv s3); [apply (sees_klog _ _ _ _ _ Hs4)|].
    split; [done|done|done| |done]. rewrite Nat2Z.id in A5. rewrite A5. by rewrite firstn_all.
Qed.

(** ** recover_from_log *)

(** The writes recovery makes on disk [d], whose header lists [bs]. *)
Definition recovery_writes (start : Z) (bs : list Z) (d : gmap Z (list Z)) (h0 : list Z)
    : list (Z * list Z) :=
  install_writes bs (λ j, dblock d (start + Z.of_nat j + 1)) (length bs) ++ [(start, h0)].

(** A kernel that has just started: no buffer is in use. *)
Record fresh (start : Z) (s : kernel) : Prop := {
  fr_thread : thread_ok p s;
  fr_cache : cache_ok dv s;
  fr_used : nused (bufs s) = 0;
  fr_refs : ∀ m, bi_refs (info dv s m) = 0;
  fr_dev : log_dev (klog s) = dv;
  fr_start : log_start (klog s) = start;
  fr_len : length (lh_block (klog s)) = 30%nat
}.

Lemma recover_view s start bs :
  fresh start s → layout start bs → hdr_is (dblock (disk s) start) bs →
  ∃ s' h0, recover_from_log s = Ret tt s' ∧ hdr_is h0 [] ∧
    disk_writes s' = disk_writes s ++ recovery_writes start bs (disk s) h0 ∧
    disk s' = apply_writes (recovery_writes start bs (disk s) h0) (disk s) ∧
    lh_n (klog s') = 0 ∧ cache_ok dv s' ∧ thread_ok p s'.
Proof using Hdv.
  intros [Ht Hc Hu Hr Hd Hst Hlen] Hla Hh. destruct (la_start _ _ Hla) as [Hst0 Hst1].
  pose proof (sees_self dv p s Ht Hc) as Hs. set (v := view_of dv s) in Hs.
  assert (∀ m, cv_info v m = mk_binfo (dblock (disk s) m) 0 None) as Hall.
  { intros m. apply (sees_clean dv p s s v m Hs). apply Hr. }
  enough (runs recover_from_log s (λ _ s', ∃ h0, hdr_is h0 [] ∧
    disk_writes s' = disk_writes s ++ recovery_writes start bs (disk s) h0 ∧
    disk s' = apply_writes (recovery_writes start bs (disk s) h0) (disk s) ∧
    lh_n (klog s') = 0 ∧ cache_ok dv s' ∧ thread_ok p s')) as ([] & s' & E & h0 & Hq) by by exists s', h0.
  assert (cv_used v < Z.of_nat NBUF) as Hroom by (unfold v, view_of; vcbn; rewrite Hu; done).
  unfold recover_from_log. apply runs_bind.
  eapply runs_mono; [apply (read_head_view s v start bs Hs eq_refl Hd Hst Hlen)|].
  { apply Hla. } { lia. } { by rewrite Hall. } { done. } { exact Hh. }
  intros [] s1 [Hs1 Hm1]. cbv beta.
  apply runs_bind. eapply runs_mono; [apply (install_trans_view dv p Hdv true s1 s1 v start bs Hs1 Hm1 Hla)|].
  { split; [done| | |unfold v, view_of; vcbn; rewrite Hu; done].
    - intros m _. by rewrite Hall.
    - intros b _. rewrite Hall. vcbn. split; [done|lia]. }
  intros [] s2 (v2 & Hs2 & [I1 I2 I3 I4 I5 I6]). cbv beta.
  rewrite (install_writes_ext bs _ (λ j, dblock (disk s) (start + Z.of_nat j + 1))) in I4, I5
    by (intros j _; by rewrite Hall).
  assert (klog s2 = klog s1) as E2 by apply (sees_klog _ _ _ _ _ Hs2).
  apply (runs_modify (upd_log (set_lh_n 0))).
  pose proof (sees_log dv p (set_lh_n 0) s2 v2 (sees_rebase _ _ _ _ _ Hs2)) as Hs3. set (s3 := upd_log _ s2) in *.
  eapply runs_mono; [apply (write_head_view dv p Hdv s3 s3 v2 start [] Hs3 I1)|].
  { destruct Hm1 as [M1 M2 M3 M4 M5]. split; cbn; rewrite ?E2; done. }
  { lia. }
  { rewrite I3; [by rewrite Hall|]. intros (i & Hi)%list_elem_of_lookup_1.
    apply lookup_take_Some in Hi as [Hi _]. destruct (layout_lookup _ _ _ _ Hla Hi) as (_ & Hx & _). lia. }
  { lia. }
  { done. }
  intros [] s4 (h0 & Hh0 & Hs4). exists h0. split; [done|].
  assert (klog s4 = klog s3) as E4 by apply (sees_klog _ _ _ _ _ Hs4).
  rewrite (se_writes _ _ _ _ _ Hs4), (se_disk _ _ _ _ _ Hs4). vcbn. rewrite I4, I5. unfold recovery_writes.
  rewrite app_assoc, apply_writes_app. split_and!; [done|done|by rewrite E4|apply Hs4|apply Hs4].
Qed.
End recovery.

(** ** Disks after a crash *)

Lemma dblock_insert_eq d n x : dblock (<[n := x]> d) n = x.
Proof. unfold dblock. by rewrite lookup_insert_eq. Qed.

Lemma dblock_insert_ne d n m x : n ≠ m → dblock (<[n := x]> d) m = dblock d m.
Proof. intros H. unfold dblock. by rewrite lookup_insert_ne. Qed.

(** Writes to other blocks leave a block alone. *)
Lemma apply_writes_other ws d n :
  Forall (λ w, w.1 ≠ n) ws → dblock (apply_writes ws d) n = dblock d n.
Proof.
  induction ws as [|[m x] ws IH] using rev_ind; [done|]. intros [H1 H2]%Forall_app.
  rewrite apply_writes_app. cbn. rewrite dblock_insert_ne; [by apply IH|].
  by apply Forall_cons in H2 as [H2 _].
Qed.

(** Writes to distinct blocks are all there at the end. *)
Lemma apply_writes_fmap (f : nat → Z) (V : nat → list Z) k j d :
  (∀ i, (j < i < k)%nat → f i ≠ f j) → (j < k)%nat →
  dblock (apply_writes ((λ i, (f i, V i)) <$> seq 0 k) d) (f j) = V j.
Proof.
  intros Hne Hj. induction k as [|k IH]; [lia|]. rewrite fmap_seq_S, apply_writes_app. cbn.
  destruct (decide (j = k)) as [->|]; [apply dblock_insert_eq|].
  rewrite dblock_insert_ne by (apply Hne; lia). apply IH; [|lia]. intros i Hi. apply Hne. lia.
Qed.

Lemma take_fmap_seq {A} (f : nat → A) n k : take k (f <$> seq 0 n) = f <$> seq 0 (k `min` n).
Proof. by rewrite <- fmap_take, take_seq. Qed.

Section crash.
Context (start : Z) (bs : list Z) (V : Z → list Z).
Hypothesis Hla : layout start bs.

(** Blocks outside the log. *)
Definition home (b : Z) : Prop := ¬ (start ≤ b ≤ start + 30).

(** The contents of the blocks before the transaction and after it. *)
Definition old_blocks (d0 d : gmap Z (list Z)) : Prop :=
  ∀ b, home b → dblock d b = dblock d0 b.
Definition new_blocks (d0 d : gmap Z (list Z)) : Prop :=
  ∀ b, home b → dblock d b = if decide (b ∈ bs) then V b else dblock d0 b.

(** The disks a crash can leave: an empty log and all old or all new blocks,
    or a committed log from which the new blocks can be installed. *)
Inductive crashed (d0 d : gmap Z (list Z)) : Prop :=
  | crashed_before : hdr_is (dblock d start) [] → old_blocks d0 d → crashed d0 d
  | crashed_committed :
      hdr_is (dblock d start) bs →
      (∀ j, (j < length bs)%nat → dblock d (start + Z.of_nat j + 1) = V (bs !!! j)) →
      (∀ b, home b → b ∉ bs → dblock d b = dblock d0 b) → crashed d0 d
  | crashed_after : hdr_is (dblock d start) [] → new_blocks d0 d → crashed d0 d.

Lemma layout_total j : (j < length bs)%nat → home (bs !!! j) ∧ (j < 30)%nat ∧ bs !!! j ∈ bs.
Proof using Hla.
  intros Hj. destruct (lookup_lt_is_Some_2 bs j Hj) as [b Hb].
  rewrite (list_lookup_total_correct _ _ _ Hb). destruct (layout_lookup _ _ _ _ Hla Hb) as (_ & ? & ?).
  split_and!; [done|done|by eapply list_elem_of_lookup_2].
Qed.

Lemma log_writes_keep k d b :
  (k ≤ length bs)%nat → (home b ∨ b = start) →
  dblock (apply_writes (log_writes start bs V k) d) b = dblock d b.
Proof using Hla.
  intros Hk Hb. apply apply_writes_other, Forall_fmap, Forall_seq. intros j Hj. cbn.
  pose proof (la_len _ _ Hla). unfold home in Hb. lia.
Qed.

Lemma log_writes_there k d j :
  (j < k)%nat →
  dblock (apply_writes (log_writes start bs V k) d) (start + Z.of_nat j + 1) = V (bs !!! j).
Proof.
  intros Hj. apply (apply_writes_fmap (λ j, start + Z.of_nat j + 1) (λ j, V (bs !!! j))); [|done].
  intros i Hi. lia.
Qed.

Lemma install_writes_keep W k d b :
  (k ≤ length bs)%nat → b ∉ bs → dblock (apply_writes (install_writes bs W k) d) b = dblock d b.
Proof using Hla.
  intros Hk Hb. apply apply_writes_other, Forall_fmap, Forall_seq. intros j Hj. cbn.
  destruct (layout_total j) as (_ & _ & ?); [lia|]. congruence.
Qed.

Lemma not_home_bs b : ¬ home b → b ∉ bs.
Proof using Hla. intros Hb Hin. by apply (layout_elem _ _ _ Hla) in Hin. Qed.

Lemma install_writes_there W k d j :
  (j < k)%nat → (k ≤ length bs)%nat →
  dblock (apply_writes (install_writes bs W k) d) (bs !!! j) = W j.
Proof using Hla.
  intros Hj Hk. apply (apply_writes_fmap (λ j, bs !!! j) W); [|done].
  intros i Hi E. destruct (lookup_lt_is_Some_2 bs j) as [x Hx]; [lia|].
  destruct (lookup_lt_is_Some_2 bs i) as [y Hy]; [lia|].
  rewrite (list_lookup_total_correct _ _ _ Hx), (list_lookup_total_correct _ _ _ Hy) in E. subst y.
  pose proof (NoDup_lookup bs i j x (la_nodup _ _ Hla) Hy Hx). lia.
Qed.

(** A committed disk on which [k] blocks have been installed again. *)
Lemma installing d0 d k :
  hdr_is (dblock d start) bs →
  (∀ j, (j < length bs)%nat → dblock d (start + Z.of_nat j + 1) = V (bs !!! j)) →
  (∀ b, home b → b ∉ bs → dblock d b = dblock d0 b) → (k ≤ length bs)%nat →
  let d' := apply_writes (install_writes bs (λ j, V (bs !!! j)) k) d in
  crashed d0 d' ∧ (k = length bs → new_blocks d0 d').
Proof using Hla.
  intros Hh Hl Ho Hk d'. unfold d'. split.
  - apply crashed_committed.
    + rewrite install_writes_keep; [done|done|]. apply not_home_bs. unfold home. lia.
    + intros j Hj. rewrite install_writes_keep; [by apply Hl|done|].
      apply not_home_bs. pose proof (la_len _ _ Hla). unfold home. lia.
    + intros b Hb Hn. rewrite install_writes_keep by done. by apply Ho.
  - intros -> b Hb. case_decide as Hin.
    + apply list_elem_of_lookup_1 in Hin as [j Hj]. pose proof (lookup_lt_Some _ _ _ Hj).
      pose proof (list_lookup_total_correct _ _ _ Hj) as Ej.
      rewrite <- Ej at 1. rewrite install_writes_there by done. by rewrite Ej.
    + rewrite install_writes_keep by done. by apply Ho.
Qed.

(** Emptying the header of a disk whose blocks are installed. *)
Lemma emptied d0 d h0 :
  hdr_is h0 [] → new_blocks d0 d →
  let d' := <[start := h0]> d in hdr_is (dblock d' start) [] ∧ new_blocks d0 d'.
Proof.
  intros Hh Hn d'. unfold d'. rewrite dblock_insert_eq. split; [done|].
  intros b Hb. rewrite dblock_insert_ne; [by apply Hn|]. unfold home in Hb. lia.
Qed.

Lemma take_install (W : nat → list Z) k h0 :
  (∃ i, (i ≤ length bs)%nat ∧ take k (install_writes bs W (length bs) ++ [(start, h0)]) =
     install_writes bs W i) ∨
  take k (install_writes bs W (length bs) ++ [(start, h0)]) = install_writes bs W (length bs) ++ [(start, h0)].
Proof.
  assert (length (install_writes bs W (length bs)) = length bs) as Hl
    by (unfold install_writes; by rewrite length_fmap, length_seq).
  destruct (decide (k ≤ length bs)%nat).
  - left. exists k. split; [done|]. rewrite take_app_le by lia. unfold install_writes.
    by rewrite take_fmap_seq, Nat.min_l by lia.
  - right. apply take_ge. rewrite length_app, Hl. cbn. lia.
Qed.

(** Every prefix of the writes of a commit leaves one of these disks. *)
Lemma commit_crashed d0 h1 h0 k :
  hdr_is (dblock d0 start) [] → hdr_is h1 bs → hdr_is h0 [] →
  crashed d0 (apply_writes (take k (commit_writes start bs V h1 h0)) d0) ∧
  new_blocks d0 (apply_writes (commit_writes start bs V h1 h0) d0).
Proof using Hla.
  intros Hd H1 H0. unfold commit_writes.
  assert (length (log_writes start bs V (length bs)) = length bs) as Hl
    by (unfold log_writes; by rewrite length_fmap, length_seq).
  set (d1 := <[start := h1]> (apply_writes (log_writes start bs V (length bs)) d0)).
  assert (hdr_is (dblock d1 start) bs) as A1 by (unfold d1; by rewrite dblock_insert_eq).
  assert (∀ j, (j < length bs)%nat → dblock d1 (start + Z.of_nat j + 1) = V (bs !!! j)) as A2.
  { intros j Hj. unfold d1. rewrite dblock_insert_ne by lia. by apply log_writes_there. }
  assert (∀ b, home b → b ∉ bs → dblock d1 b = dblock d0 b) as A3.
  { intros b Hb _. unfold d1. rewrite dblock_insert_ne by (unfold home in Hb; lia).
    apply log_writes_keep; [done|by left]. }
  pose proof (installing d0 d1 (length bs) A1 A2 A3 (Nat.le_refl _)) as [_ Hnew]. specialize (Hnew eq_refl).
  pose proof (emptied d0 _ h0 H0 Hnew) as [E1 E2]. split.
  - destruct (decide (k ≤ length bs)%nat).
    + rewrite take_app_le by lia. unfold log_writes. rewrite take_fmap_seq.
      apply crashed_before; [|intros b Hb]; fold (log_writes start bs V (k `min` length bs));
        (rewrite log_writes_keep; [done|lia|auto]).
    + rewrite take_app_ge by lia. rewrite apply_writes_app, Hl.
      destruct (k - length bs)%nat as [|k'] eqn:Ek; [lia|].
      change (take (S k') ([(start, h1)] ++ ?l)) with ((start, h1) :: take k' l).
      destruct (take_install (λ j, V (bs !!! j)) k' h0) as [(i & Hi & ->)| ->].
      * cbn [apply_writes foldl]. by apply (installing d0 d1 i).
      * apply crashed_after; cbn [apply_writes foldl fst snd]; rewrite foldl_app; done.
  - rewrite apply_writes_app. cbn [app apply_writes foldl]. by rewrite foldl_app.
Qed.
End crash.

(** ** Atomic transactions *)

(** The disks left when recovery itself is interrupted, any number of times:
    each time a kernel starts, recovers, and some prefix of the writes it
    would have made reaches the disk. *)
Inductive reboots (dv start : Z) (d : gmap Z (list Z)) : gmap Z (list Z) → Prop :=
  | reboots_none : reboots dv start d d
  | reboots_crash p r r' ws k d' :
      fresh dv p start r → disk r = d →
      recover_from_log r = Ret tt r' → disk_writes r' = disk_writes r ++ ws →
      reboots dv start (apply_writes (take k ws) d) d' → reboots dv start d d'.

Section atomic.
Context (dv : Z) (start : Z) (bs : list Z) (V : Z → list Z).
Hypothesis Hdv : 0 ≤ dv < 2 ^ 32.
Hypothesis Hla : layout start bs.

Lemma layout_nil : layout start [].
Proof using Hla. destruct Hla as [H _ _ _]. split; [done|done|constructor|cbn; lia]. Qed.

(** With an empty log recovery only writes the empty header again. *)
Lemma recovery_empty (P : gmap Z (list Z) → Prop) d h0 k :
  (∀ d d', P d → (∀ b, home start b → dblock d' b = dblock d b) → P d') →
  P d → hdr_is (dblock d start) [] → hdr_is h0 [] →
  P (apply_writes (take k (recovery_writes start [] d h0)) d) ∧
  hdr_is (dblock (apply_writes (take k (recovery_writes start [] d h0)) d) start) [].
Proof.
  intros HP Hd Hh H0. unfold recovery_writes. cbn. destruct k as [|k]; cbn; [done|].
  rewrite take_nil. cbn. split; [|by rewrite dblock_insert_eq].
  eapply HP; [exact Hd|]. intros b Hb. apply dblock_insert_ne. unfold home in Hb. lia.
Qed.

Lemma old_blocks_ext d0 d d' :
  old_blocks start d0 d → (∀ b, home start b → dblock d' b = dblock d b) → old_blocks start d0 d'.
Proof. intros H E b Hb. rewrite E by done. by apply H. Qed.

Lemma new_blocks_ext d0 d d' :
  new_blocks start bs V d0 d → (∀ b, home start b → dblock d' b = dblock d b) → new_blocks start bs V d0 d'.
Proof. intros H E b Hb. rewrite E by done. by apply H. Qed.

(** What recovery has achieved: an empty log and all blocks old or new. *)
Definition recovered (d0 d : gmap Z (list Z)) : Prop :=
  hdr_is (dblock d start) [] ∧ (old_blocks start d0 d ∨ new_blocks start bs V d0 d).

(** Recovery from a crashed disk returns; its writes, cut off anywhere, leave
    a crashed disk again, and all of them together a recovered one. *)
Lemma recover_crashed p d0 r :
  fresh dv p start r → crashed start bs V d0 (disk r) →
  ∃ r' ws, recover_from_log r = Ret tt r' ∧ disk_writes r' = disk_writes r ++ ws ∧
    disk r' = apply_writes ws (disk r) ∧ lh_n (klog r') = 0 ∧
    (∀ k, crashed start bs V d0 (apply_writes (take k ws) (disk r))) ∧ recovered d0 (disk r').
Proof using Hdv Hla.
  intros Hf [Hh Ho|Hh Hl Ho|Hh Hn].
  - destruct (recover_view dv p Hdv r start [] Hf layout_nil Hh) as (r' & h0 & E & H0 & Ew & Ed & En & _).
    exists r', (recovery_writes start [] (disk r) h0). split_and!; [done..| |].
    + intros k. destruct (recovery_empty (old_blocks start d0) (disk r) h0 k) as [A B]; [|done..|].
      { by intros; eapply old_blocks_ext. } by apply crashed_before.
    + rewrite Ed. rewrite <- (firstn_all (recovery_writes start [] (disk r) h0)).
      destruct (recovery_empty (old_blocks start d0) (disk r) h0 (length (recovery_writes start [] (disk r) h0)))
        as [A B]; [|done..|]. { by intros; eapply old_blocks_ext. } split; [done|by left].
  - destruct (recover_view dv p Hdv r start bs Hf Hla Hh) as (r' & h0 & E & H0 & Ew & Ed & En & _).
    unfold recovery_writes in Ew, Ed.
    rewrite (install_writes_ext bs _ (λ j, V (bs !!! j))) in Ew, Ed by done.
    exists r', (install_writes bs (λ j, V (bs !!! j)) (length bs) ++ [(start, h0)]).
    pose proof (installing start bs V Hla d0 (disk r) (length bs) Hh Hl Ho (Nat.le_refl _)) as [_ Hnew].
    destruct (emptied start bs V d0 _ h0 H0 (Hnew eq_refl)) as [A B].
    split_and!; [done..| |].
    + intros k. destruct (take_install start bs (λ j, V (bs !!! j)) k h0) as [(i & Hi & ->)| ->].
      * by apply installing.
      * rewrite apply_writes_app. by apply crashed_after.
    + rewrite Ed, apply_writes_app. split; [done|by right].
  - destruct (recover_view dv p Hdv r start [] Hf layout_nil Hh) as (r' & h0 & E & H0 & Ew & Ed & En & _).
    exists r', (recovery_writes start [] (disk r) h0). split_and!; [done..| |].
    + intros k. destruct (recovery_empty (new_blocks start bs V d0) (disk r) h0 k) as [A B]; [|done..|].
      { by intros; eapply new_blocks_ext. } by apply crashed_after.
    + rewrite Ed. rewrite <- (firstn_all (recovery_writes start [] (disk r) h0)).
      destruct (recovery_empty (new_blocks start bs V d0) (disk r) h0 (length (recovery_writes start [] (disk r) h0)))
        as [A B]; [|done..|]. { by intros; eapply new_blocks_ext. } split; [done|by right].
Qed.

Lemma reboots_crashed d0 d d' :
  reboots dv start d d' → crashed start bs V d0 d → crashed start bs V d0 d'.
Proof using Hdv Hla.
  induction 1 as [d|d p r r' ws k d' Hf Hd E Ew Hr IH]; [done|]. intros Hc. apply IH. subst d.
  destruct (recover_crashed p d0 r Hf Hc) as (r2 & ws2 & E2 & Ew2 & _ & _ & Hk & _).
  rewrite E in E2. injection E2 as <-. rewrite Ew in Ew2. apply app_inv_head in Ew2 as <-. apply Hk.
Qed.
End atomic.

(** [commit] as the sequence of its disk writes, also for an empty
    transaction, which writes nothing. *)
Lemma commit_runs dv p s start bs :
  0 ≤ dv < 2 ^ 32 → thread_ok p s → cache_ok dv s → mem_hdr dv s start bs → layout start bs →
  ready start bs (view_of dv s) → hdr_is (dblock (disk s) start) [] →
  let V b := bi_data (info dv s b) in
  ∃ s' ws, commit s = Ret tt s' ∧ disk_writes s' = disk_writes s ++ ws ∧ disk s' = apply_writes ws (disk s) ∧
    klog s' = set_lh_n 0 (klog s) ∧ cache_ok dv s' ∧ thread_ok p s' ∧
    (∀ k, crashed start bs V (disk s) (apply_writes (take k ws) (disk s))) ∧ new_blocks start bs V (disk s) (disk s').
Proof.
  intros Hdv Ht Hc Hm Hla Hre Hh V. destruct (decide (bs = [])) as [->|Hne].
  - exists s, []. rewrite app_nil_r.
    assert (lh_n (klog s) = 0) as En by apply (mh_n _ _ _ _ Hm).
    split_and!; try done.
    2:{ rewrite <- En. by destruct (klog s). }
    + unfold commit, lget, bind, gets. cbn [obind]. by rewrite En.
    + intros k. rewrite take_nil. by apply crashed_before.
  - destruct (commit_view dv p Hdv s (view_of dv s) start bs (sees_self dv p s Ht Hc) Hm Hla Hre Hne)
      as ([] & s' & E & v' & h1 & h0 & Hs' & Ek & H1 & H0 & Ew & Ed).
    exists s', (commit_writes start bs V h1 h0).
    rewrite (se_writes _ _ _ _ _ Hs'), (se_disk _ _ _ _ _ Hs'), Ew, Ed.
    split_and!; [done..|apply Hs'|apply Hs'| |].
    + intros k. by apply commit_crashed.
    + by apply (commit_crashed start bs V Hla (disk s) h1 h0 0).
Qed.

(** C2: [commit] returns with the transaction's blocks on disk
    and an empty log.  If the machine stops after any prefix of its writes,
    and then again and again during recovery, [recover_from_log] still
    returns, empties the log, and leaves every block outside the log with its
    old contents or every block of the transaction with its new contents. *)
Theorem log_crash_safe dv p s start bs :
  0 ≤ dv < 2 ^ 32 → thread_ok p s → cache_ok dv s → mem_hdr dv s start bs → layout start bs →
  ready start bs (view_of dv s) → hdr_is (dblock (disk s) start) [] →
  let V b := bi_data (info dv s b) in
  ∃ s' ws, commit s = Ret tt s' ∧ disk_writes s' = disk_writes s ++ ws ∧
    disk s' = apply_writes ws (disk s) ∧ lh_n (klog s') = 0 ∧ new_blocks start bs V (disk s) (disk s') ∧
    ∀ k p' r, fresh dv p' start r → reboots dv start (apply_writes (take k ws) (disk s)) (disk r) →
      ∃ r', recover_from_log r = Ret tt r' ∧ lh_n (klog r') = 0 ∧ recovered start bs V (disk s) (disk r').
Proof.
  intros Hdv Ht Hc Hm Hla Hre Hh V.
  destruct (commit_runs dv p s start bs Hdv Ht Hc Hm Hla Hre Hh) as (s' & ws & E & Ew & Ed & En & _ & _ & Hk & Hnew).
  exists s', ws. split_and!; [done..|by rewrite En|done|]. intros k p' r Hf Hr.
  destruct (recover_crashed dv start bs V Hdv Hla p' (disk s) r Hf) as (r' & ws2 & E2 & _ & _ & En2 & _ & Hd2).
  { eapply (reboots_crashed dv start bs V Hdv Hla); [exact Hr|]. apply Hk. }
  by exists r'.
Qed.
