(* ===== verification/LogOps.v ===== *)
(** * File system transactions

    [begin_op], [log_write] and [end_op] as a thread runs them on an idle log,
    and that a transaction of up to MAXOPBLOCKS writes between them reaches the
    disk as a whole or not at all. *)

From S2P Require Import Prelude Machine Memory State Spinlock Sched Runs Sleeplock Block Bio Cache.
From S2P Require Import CacheOps CacheLogic CacheSpec Log LogSpec LogCrash.

Lemma log_lock p s : thread_ok p s → lock_free s LkLog.
Proof. intros H. apply H, all_locks_named. set_solver. Qed.

(** ** begin_op *)

Lemma begin_op_eq p s :
  thread_ok p s → log_committing (klog s) = false →
  lh_n (klog s) + (log_outstanding (klog s) + 1) * MAXOPBLOCKS ≤ LOGSIZE →
  begin_op s = Ret tt (upd_log (set_log_outstanding (log_outstanding (klog s) + 1)) s).
Proof.
  intros Ht Hc Hn. unfold begin_op.
  run (acquire_ok s _ (th_hart p s Ht) (log_lock p s Ht)).
  apply (loop_Ret _ 1); [lia|]. apply run_n_stop. unfold begin_op_step, lset, bind, gets, modify. cbn [obind].
  change (klog (enter LkLog s)) with (klog s). rewrite Hc.
  rewrite Z.gtb_ltb. rewrite (proj2 (Z.ltb_ge _ _)) by done. cbn [obind].
  rewrite (release_enter s (upd_log (set_log_outstanding (log_outstanding (klog s) + 1)) (enter LkLog s))
    LkLog (th_hart p s Ht) (log_lock p s Ht) eq_refl eq_refl eq_refl).
  by destruct s.
Qed.

Section ops.
Context (dv : Z) (p : nat).
Hypothesis Hdv : 0 ≤ dv < 2 ^ 32.

(** ** log_write *)

(** The search for the block in the header. *)
Lemma log_find_loop s bs b :
  lh_n (klog s) = Z.of_nat (length bs) → take (length bs) (lh_block (klog s)) = bs →
  (length bs ≤ 30)%nat → Forall (λ b, 0 ≤ b < 2 ^ 31) bs →
  runs (loop (log_find b) 0) s (λ i s', s' = s ∧ 0 ≤ i ≤ Z.of_nat (length bs) ∧
    (b ∈ bs → bs !! Z.to_nat i = Some b) ∧ (b ∉ bs → i = Z.of_nat (length bs))).
Proof.
  intros Hn Hbs Hlen Hr.
  apply (runs_loop (λ i s', s' = s ∧ 0 ≤ i ≤ Z.of_nat (length bs) ∧
    ∀ j : nat, Z.of_nat j < i → bs !! j ≠ Some b) (λ i, Z.to_nat (Z.of_nat (length bs) - i))).
  - lia.
  - split_and!; [done|lia|lia|lia].
  - intros i s' (-> & Hi & Hj). unfold log_find, lget. apply runs_gets. cbv beta. rewrite Hn.
    destruct (Z.ltb_spec i (Z.of_nat (length bs))) as [Hlt|Hge].
    + destruct (lookup_lt_is_Some_2 bs (Z.to_nat i)) as [x Hx]; [lia|].
      assert (lh_block (klog s) !! Z.to_nat i = Some x) as Hx'.
      { rewrite <- Hbs in Hx. by apply lookup_take_Some in Hx as [? _]. }
      eapply runs_eq; [by apply lh_get_eq|].
      rewrite u32_small by (eapply Forall_lookup_1 in Hr; [|exact Hx]; lia).
      destruct (Z.eqb_spec x b) as [->|Hne]; apply runs_ret.
      * split_and!; [done|lia|lia|done|]. intros Hnot. by apply list_elem_of_lookup_2 in Hx.
      * split; [|lia]. split_and!; [done|lia|lia|]. intros j Hj'.
        destruct (decide (j = Z.to_nat i)) as [->|]; [congruence|]. apply Hj. lia.
    + apply runs_ret. assert (i = Z.of_nat (length bs)) as -> by lia. split_and!; [done|lia|lia| |done].
      intros (j & Hj')%list_elem_of_lookup_1. pose proof (lookup_lt_Some _ _ _ Hj'). by destruct (Hj j); [lia|].
Qed.

(** What [log_write] does to the state: a block that is new in the transaction
    is pinned and entered in the header. *)
Definition log_write_state (i : nat) (bs : list Z) (b : Z) (s : kernel) : kernel :=
  if decide (b ∈ bs) then s
  else upd_log (λ lg, set_lh_n (Z.of_nat (length bs) + 1)
                        (set_lh_block (<[length bs := b]> (lh_block lg)) lg))
         (upd_buf i (add_ref 1) s).

Lemma log_write_runs s start bs i b :
  thread_ok p s → mem_hdr dv s start bs → Forall (λ b, 0 ≤ b < 2 ^ 31) bs →
  1 ≤ log_outstanding (klog s) → (length bs < 30)%nat → Z.of_nat (length bs) < log_size (klog s) - 1 →
  0 ≤ b < 2 ^ 31 → b_blockno (getbuf i s) = b →
  runs (log_write i) s (λ _ s', s' = log_write_state i bs b s).
Proof.
  intros Ht Hm Hr Ho Hlen Hsz Hb Ebn. destruct Hm as [_ _ Hn Hbs H30].
  pose proof (th_hart p s Ht) as Hh. pose proof (log_lock p s Ht) as Hl.
  unfold log_write. apply runs_acquire; [done|done|]. set (s1 := enter LkLog s).
  assert (inside LkLog s s1) as Hi1 by apply inside_enter.
  apply runs_gets. cbv beta. change (klog s1) with (klog s). rewrite Hn.
  rewrite !Z.geb_leb. rewrite (proj2 (Z.leb_gt _ _)) by (unfold LOGSIZE, MAXOPBLOCKS; lia).
  rewrite (proj2 (Z.leb_gt _ _)) by done. cbn [orb]. rewrite (proj2 (Z.ltb_ge _ _)) by lia.
  unfold bfield. apply runs_gets. cbv beta. change (getbuf i s1) with (getbuf i s). rewrite Ebn.
  apply runs_bind. eapply runs_mono; [apply (log_find_loop s1 bs b); [done|done|lia|done]|].
  intros j s2 (-> & Hj & Hin & Hnin). cbv beta.
  eapply runs_eq; [apply lh_set_eq; change (klog s1) with (klog s); lia|].
  rewrite s32_small by lia. change (klog s1) with (klog s). unfold lget.
  apply runs_gets. cbv beta. cbn [klog upd_log set_klog lh_n set_lh_block]. change (klog s1) with (klog s). rewrite Hn.
  unfold log_write_state. case_decide as Hd.
  - specialize (Hin Hd). apply lookup_lt_Some in Hin as Hlt.
    assert (lh_block (klog s) !! Z.to_nat j = Some b) as E
      by (rewrite <- Hbs in Hin; by apply lookup_take_Some in Hin as [? _]).
    rewrite list_insert_id by done. apply runs_when_false; [by apply Z.eqb_neq; lia|].
    apply (runs_release_last LkLog s); [done|done|done|]. unfold s1, upd_log. by destruct s as [? ? ? ? ? ? ? ? ? ? ? ? ? [] ? ? ? ? ? ? ? ? ? ? ? ? ? ? ?].
  - rewrite (Hnin Hd). rewrite Nat2Z.id. apply runs_when_true; [apply Z.eqb_refl|].
    rewrite bind_assoc. eapply runs_eq.
    { apply bpin_hart; [by apply (hart_ok_inside LkLog s)|].
      apply (lock_free_inside LkLog LkBcache s); [done|done|]. by eapply bcache_lock. }
    unfold lset. apply runs_modify. cbn [klog upd_log upd_buf set_klog set_bufs].
    apply (runs_release_last LkLog s); [done|done|done|]. unfold s1. rewrite <- Hn. by destruct s.
Qed.

(** ** Writing one block in a transaction *)

Definition logged_write (w : Z * list Z) : K unit :=
  let! x := bread dv w.1 in
  bdata x (λ _, w.2) ;;;
  log_write x ;;;
  brelse x.

(** Only block [n] is held, by us, with data [d] and [r] references. *)
Definition held_view (n : Z) (d : list Z) (r : Z) (pid : Z) (i : nat) (v : cview) : cview :=
  mk_cview (set_at n (mk_binfo d r (Some pid)) (cv_info v)) (cv_disk v) (cv_writes v)
    (cv_used v - used (bi_refs (cv_info v n)) + 1) [(n, i)].

(** What stays the same in the log during a transaction. *)
Definition same_log (lg lg' : log) : Prop :=
  log_size lg' = log_size lg ∧ log_outstanding lg' = log_outstanding lg ∧
  log_committing lg' = log_committing lg.

(** The transaction's blocks after a write to [b]. *)
Definition add_block (b : Z) (bs : list Z) : list Z := if decide (b ∈ bs) then bs else bs ++ [b].

(** The view after block [n] has been changed to [d] and stays pinned. *)
Definition pinned_view (n : Z) (d : list Z) (v : cview) : cview :=
  mk_cview (set_at n (mk_binfo d 1 None) (cv_info v)) (cv_disk v) (cv_writes v)
    (cv_used v - used (bi_refs (cv_info v n)) + 1) [].

Lemma held_ext s0 s v n d r i :
  1 ≤ r → sees dv p s0 s (change n (mk_binfo d r (Some (mypid p s0))) [(n, i)] v) →
  sees dv p s0 s (held_view n d r (mypid p s0) i v).
Proof.
  intros Hr Hs. eapply sees_ext; [exact Hs|..]; unfold held_view; vcbn; try done.
  by rewrite (used_pos r) by lia.
Qed.

(** [log_write] on a block we hold. *)
Lemma log_write_view s v start bs n d r i :
  sees dv p s s (held_view n d r (mypid p s) i v) → mem_hdr dv s start bs →
  Forall (λ b, 0 ≤ b < 2 ^ 31) bs → 1 ≤ log_outstanding (klog s) → (length bs < 30)%nat →
  Z.of_nat (length bs) < log_size (klog s) - 1 → 0 ≤ n < 2 ^ 31 → 1 ≤ r < 2 ^ 31 →
  runs (log_write i) s (λ _ s',
    sees dv p s' s' (held_view n d (if decide (n ∈ bs) then r else r + 1) (mypid p s') i v) ∧
    mem_hdr dv s' start (add_block n bs) ∧ same_log (klog s) (klog s')).
Proof.
  intros Hs Hm Hr Ho Hlen Hsz Hn Hrr.
  assert ((n, i) ∈ cv_held (held_view n d r (mypid p s) i v)) as Hin by by left.
  eapply runs_mono; [apply (log_write_runs s start bs i n (se_thread _ _ _ _ _ Hs) Hm); try done|].
  { pose proof (sees_blockno dv p s s _ n i Hs Hin) as E. unfold bfield, gets in E. by injection E. }
  intros [] s' ->. unfold log_write_state, add_block. case_decide as Hd; [done|].
  destruct (sees_bpin dv p s s _ n i Hs Hin) as ([] & s2 & E & Hs2).
  { unfold held_view. vcbn. rewrite set_at_eq. vcbn. lia. }
  rewrite (bpin_eq p s i (se_thread _ _ _ _ _ Hs)) in E. injection E as <-. split_and!.
  - apply sees_log. eapply sees_rebase, sees_ext; [exact Hs2|..]; unfold held_view; vcbn; try done.
    + intros m. rewrite !set_at_eq. vcbn. unfold set_at. repeat case_decide; done.
    + rewrite set_at_eq. vcbn. rewrite (used_pos r), (used_pos (r + 1)) by lia. lia.
  - destruct Hm as [M1 M2 M3 M4 M5]. split; cbn; [done|done| | |by rewrite length_insert].
    + rewrite length_app. cbn. lia.
    + rewrite length_app. cbn. rewrite Nat.add_1_r. erewrite take_S_r by (apply list_lookup_insert_eq; lia).
      by rewrite take_insert_ge, M4 by lia.
  - done.
Qed.

Lemma logged_write_view s v start bs n d :
  sees dv p s s v → cv_held v = [] → mem_hdr dv s start bs →
  Forall (λ b, 0 ≤ b < 2 ^ 31) bs → 1 ≤ log_outstanding (klog s) → (length bs < 30)%nat →
  Z.of_nat (length bs) < log_size (klog s) - 1 → 0 ≤ n < 2 ^ 31 → length d = Z.to_nat BSIZE →
  bi_holder (cv_info v n) = None → bi_refs (cv_info v n) = (if decide (n ∈ bs) then 1 else 0) →
  cv_used v < Z.of_nat NBUF →
  runs (logged_write (n, d)) s (λ _ s', sees dv p s' s' (pinned_view n d v) ∧
    mem_hdr dv s' start (add_block n bs) ∧ same_log (klog s) (klog s')).
Proof using Hdv.
  intros Hs Hh Hm Hr Ho Hlen Hsz Hn Hd Hho Hrefs Hu. unfold logged_write. cbn [fst snd].
  set (r := bi_refs (cv_info v n)) in *. assert (0 ≤ r ≤ 1) as Hr01 by (rewrite Hrefs; case_decide; lia).
  apply runs_bind. eapply runs_mono; [apply (sees_bread dv p Hdv s s v n Hs); [lia|done|by right|fold r; lia]|].
  intros i s1 Hs1. cbv beta in Hs1 |- *. fold r in Hs1. rewrite Hh in Hs1.
  apply (held_ext s s1 v n _ (r + 1) i) in Hs1; [|lia].
  apply runs_bind. eapply runs_mono; [apply (sees_bdata dv p s s1 _ n i (λ _, d) Hs1); [by left|done]|].
  intros [] s2 Hs2. cbv beta in Hs2 |- *.
  assert (sees dv p s s2 (held_view n d (r + 1) (mypid p s) i v)) as Hs2'.
  { eapply sees_ext; [exact Hs2|..]; unfold held_view; vcbn; try done.
    - intros m. rewrite !set_at_eq. vcbn. unfold set_at. repeat case_decide; done.
    - rewrite !set_at_eq. vcbn. rewrite (used_pos (r + 1)) by lia. lia. }
  rewrite <- (sees_pid _ _ _ _ _ Hs2') in Hs2'. apply sees_rebase in Hs2'.
  assert (klog s2 = klog s) as Ek by apply (sees_klog _ _ _ _ _ Hs2).
  apply runs_bind. eapply runs_mono; [apply (log_write_view s2 v start bs n d (r + 1) i Hs2')|]; rewrite ?Ek; try done; try lia.
  { by apply (mem_hdr_klog dv s). }
  intros [] s3 (Hs3 & Hm3 & Hl3). cbv beta. set (r' := if decide (n ∈ bs) then _ else _) in Hs3.
  assert (r' = 2) as Er' by (unfold r'; rewrite Hrefs; by case_decide). rewrite Er' in Hs3.
  eapply runs_mono; [apply (sees_brelse dv p s3 s3 _ n i Hs3); [by left|]|].
  { unfold held_view. vcbn. rewrite set_at_eq. vcbn. lia. }
  intros [] s4 Hs4. cbv beta in Hs4 |- *. pose proof (sees_klog _ _ _ _ _ Hs4) as Ek4. split_and!.
  - eapply sees_rebase, sees_ext; [exact Hs4|..]; unfold held_view, pinned_view; vcbn; try done.
    + intros m. rewrite !set_at_eq. vcbn. unfold set_at. repeat case_decide; done.
    + rewrite set_at_eq. vcbn. change (used 2) with 1. change (used (2 - 1)) with 1. lia.
    + intros x Hx. by apply not_elem_of_nil in Hx.
  - by apply (mem_hdr_klog dv s3).
  - by rewrite Ek4.
Qed.

(** ** end_op *)

(** [log_committing] is set during the commit, and the sleepers are woken. *)
Lemma end_op_runs s start bs :
  thread_ok p s → cache_ok dv s → mem_hdr dv s start bs → layout start bs →
  ready start bs (view_of dv s) → hdr_is (dblock (disk s) start) [] →
  log_outstanding (klog s) = 1 → log_committing (klog s) = false →
  let V b := bi_data (info dv s b) in
  ∃ s' ws, end_op s = Ret tt s' ∧ disk_writes s' = disk_writes s ++ ws ∧ disk s' = apply_writes ws (disk s) ∧
    klog s' = set_lh_n 0 (set_log_outstanding 0 (klog s)) ∧ cache_ok dv s' ∧ thread_ok p s' ∧
    (∀ k, crashed start bs V (disk s) (apply_writes (take k ws) (disk s))) ∧
    new_blocks start bs V (disk s) (disk s').
Proof using Hdv.
  intros Ht Hc Hm Hla Hre Hh Ho Hco V. pose proof (th_hart p s Ht) as Hha. pose proof (log_lock p s Ht) as Hl.
  set (s1 := upd_log (set_log_committing true) (upd_log (set_log_outstanding 0) s)).
  assert (thread_ok p s1) as Ht1 by (eapply thread_ok_ext; [..|exact Ht]; done).
  assert (cache_ok dv s1) as Hc1 by (destruct Hc as [A1 A2 A3 A4]; by split).
  assert (mem_hdr dv s1 start bs) as Hm1 by (destruct Hm as [M1 M2 M3 M4 M5]; by split).
  destruct (commit_runs dv p s1 start bs Hdv Ht1 Hc1 Hm1 Hla Hre Hh)
    as (s2 & ws & E2 & Ew & Ed & Ek & Hc2 & Ht2 & Hk & Hnew).
  pose proof (th_hart p s2 Ht2) as Hha2. pose proof (log_lock p s2 Ht2) as Hl2.
  set (s3 := set_procs (woken (Some ChLog) (Some p) (procs s2)) (upd_log (set_log_committing false) s2)).
  enough (runs end_op s (λ _ s', s' = s3)) as ([] & ? & E & ->).
  { exists s3, ws. split_and!; [done|done|done| | | |done|done].
    - unfold s3. cbn. rewrite Ek. cbn. destruct (klog s). cbn in *. by subst.
    - destruct Hc2 as [A1 A2 A3 A4]. by split.
    - eapply thread_ok_ext; [..|exact Ht2]; try done. cbn. apply (woken_wake p (Some ChLog)). }
  unfold end_op. apply runs_acquire; [done|done|]. unfold lset. apply runs_modify.
  apply runs_gets. cbv beta. cbn [klog upd_log set_klog log_committing set_log_outstanding log_outstanding].
  change (klog (enter LkLog s)) with (klog s). rewrite Hco, Ho.
  change (1 - 1 =? 0) with true. cbv iota. rewrite bind_assoc. apply runs_modify.
  rewrite bind_ret_l. apply (runs_release LkLog s); [done|done|done|]. unfold when.
  assert (unlocked s (upd_log (set_log_committing true) (upd_log (λ lg, set_log_outstanding (log_outstanding lg - 1) lg)
    (enter LkLog s))) = s1) as -> by (unfold s1, upd_log; cbn; rewrite Ho; by destruct s).
  eapply runs_eq; [exact E2|]. apply runs_acquire; [done|done|]. apply runs_modify.
  eapply runs_eq; [apply (wakeup_inside p LkLog s2); [done|done|done|apply Ht2]|].
  apply (runs_release_last LkLog s2); [done|done|done|]. unfold s3. by destruct s2.
Qed.

(** ** Transactions *)

Definition transaction (ws : list (Z * list Z)) : K unit :=
  begin_op ;;;
  for_each ws logged_write ;;;
  end_op.

(** The log has no transaction under way. *)
Record log_idle (start : Z) (s : kernel) : Prop := {
  li_hdr : mem_hdr dv s start [];
  li_out : log_outstanding (klog s) = 0;
  li_com : log_committing (klog s) = false;
  li_size : MAXOPBLOCKS < log_size (klog s) - 1;
  li_start : 0 ≤ start ∧ start + 31 < 2 ^ 31;
  li_disk : hdr_is (dblock (disk s) start) [];
  li_refs : ∀ m, start ≤ m ≤ start + 30 → bi_refs (info dv s m) = 0
}.

(** The writes of a transaction: at most MAXOPBLOCKS, of whole blocks outside
    the log that nobody else uses. *)
Record writes_ok (start : Z) (s : kernel) (ws : list (Z * list Z)) : Prop := {
  wo_len : (length ws ≤ 10)%nat;
  wo_room : nused (bufs s) + 10 < Z.of_nat NBUF;
  wo_each : Forall (λ w, 0 ≤ w.1 < 2 ^ 31 ∧ home start w.1 ∧ length w.2 = Z.to_nat BSIZE ∧
                         bi_refs (info dv s w.1) = 0) ws
}.

(** A transaction begun in [s], after the writes [ws]. *)
Record in_transaction (start : Z) (s : kernel) (ws : list (Z * list Z)) (s' : kernel)
    (bs : list Z) (v : cview) : Prop := {
  it_sees : sees dv p s' s' v;
  it_held : cv_held v = [];
  it_hdr : mem_hdr dv s' start bs;
  it_log : same_log (set_log_outstanding 1 (klog s)) (klog s');
  it_disk : cv_disk v = disk s;
  it_writes : cv_writes v = disk_writes s;
  it_used : cv_used v = nused (bufs s) + Z.of_nat (length bs);
  it_nodup : NoDup bs;
  it_bs : ∀ b, b ∈ bs ↔ b ∈ ws.*1;
  it_len : (length bs ≤ length ws)%nat;
  it_info : ∀ m, cv_info v m = if decide (m ∈ bs)
              then mk_binfo (dblock (apply_writes ws (disk s)) m) 1 None else info dv s m
}.

Lemma transaction_step start s ws1 w l s' bs v :
  cache_ok dv s → thread_ok p s → log_idle start s → writes_ok start s (ws1 ++ w :: l) →
  in_transaction start s ws1 s' bs v →
  runs (logged_write w) s' (λ _ s2, ∃ bs2 v2, in_transaction start s (ws1 ++ [w]) s2 bs2 v2).
Proof using Hdv.
  intros Hc Ht Hli [Hlen Hroom Hall] [I1 I2 I3 (I41 & I42 & I43) I5 I6 I7 I8 I9 I10 I11]. destruct w as [n d].
  rewrite length_app in Hlen. cbn in Hlen. apply Forall_app in Hall as [Hall1 Hall2].
  apply Forall_cons in Hall2 as [(Hn & Hhome & Hd & Hrefs) _]. cbn [fst snd] in *. pose proof (li_size _ _ Hli).
  assert (Forall (λ b, 0 ≤ b < 2 ^ 31) bs) as Hbr.
  { apply Forall_forall. intros b Hb. apply I9 in Hb. apply list_elem_of_fmap in Hb as (w & -> & Hw).
    by eapply Forall_elem in Hall1 as (? & _); [|exact Hw]. }
  assert (cv_info v n = if decide (n ∈ bs) then mk_binfo (dblock (apply_writes ws1 (disk s)) n) 1 None
            else mk_binfo (dblock (disk s) n) 0 None) as Ein.
  { rewrite I11. case_decide; [done|]. exact (sees_clean dv p s s _ n (sees_self dv p s Ht Hc) Hrefs). }
  cbn [log_size set_log_outstanding log_outstanding log_committing] in *. unfold MAXOPBLOCKS in *.
  eapply runs_mono; [apply (logged_write_view s' v start bs n d I1 I2 I3 Hbr)|].
  { lia. } { lia. } { lia. } { done. } { done. } { rewrite Ein. by case_decide. } { rewrite Ein. by case_decide. } { lia. }
  intros [] s2 (Hs2 & Hm2 & L1 & L2 & L3). exists (add_block n bs), (pinned_view n d v).
  unfold add_block in *. split; unfold pinned_view; vcbn; try done.
  - cbn. unfold same_log. cbn. split_and!; congruence.
  - rewrite Ein. case_decide; cbn [bi_refs]; [change (used 1) with 1|change (used 0) with 0; rewrite length_app; cbn]; lia.
  - case_decide; [done|]. apply NoDup_app. split_and!; [done| |apply NoDup_singleton].
    intros x Hx ->%list_elem_of_singleton. done.
  - intros b. rewrite fmap_app, elem_of_app. change ([(n, d)].*1) with [n]. rewrite list_elem_of_singleton. case_decide as Hd'.
    + rewrite I9. apply I9 in Hd'. split; [by left|]. intros [?| ->]; done.
    + by rewrite elem_of_app, list_elem_of_singleton, I9.
  - rewrite length_app. case_decide; rewrite ?length_app; cbn; lia.
  - intros m. rewrite apply_writes_app. cbn. unfold set_at. destruct (decide (m = n)) as [->|Hne].
    + rewrite decide_True by (case_decide; [done|apply elem_of_app; right; by left]).
      by rewrite dblock_insert_eq.
    + rewrite dblock_insert_ne by done. rewrite I11.
      assert (m ∈ (if decide (n ∈ bs) then bs else bs ++ [n]) ↔ m ∈ bs) as Hiff.
      { case_decide; [done|]. rewrite elem_of_app, list_elem_of_singleton. tauto. }
      destruct (decide (m ∈ bs)); [by rewrite decide_True by tauto|by rewrite decide_False by tauto].
Qed.

(** Where [end_op] is called. *)
Lemma transaction_ready start s ws s' bs v :
  cache_ok dv s → log_idle start s → writes_ok start s ws → in_transaction start s ws s' bs v →
  layout start bs ∧ ready start bs (view_of dv s') ∧
  ∀ b, home start b → (if decide (b ∈ bs) then bi_data (info dv s' b) else dblock (disk s) b) =
                      dblock (apply_writes ws (disk s)) b.
Proof.
  intros Hc Hli [Hlen Hroom Hall] [I1 I2 I3 I4 I5 I6 I7 I8 I9 I10 I11]. destruct (li_start _ _ Hli) as [Hst Hst2].
  assert (Forall (λ b, 0 ≤ b < 2 ^ 31 ∧ ¬ (start ≤ b ≤ start + 30)) bs) as Hbs.
  { apply Forall_forall. intros b Hb. apply I9 in Hb. apply list_elem_of_fmap in Hb as (w & -> & Hw).
    by eapply Forall_elem in Hall as (? & ? & _); [|exact Hw]. }
  split_and!.
  - split; [done|done|done|lia].
  - split; unfold view_of; vcbn.
    + done.
    + intros m Hm. rewrite (se_info _ _ _ _ _ I1), I11. rewrite decide_False; [by apply (li_refs _ _ Hli)|].
      intros Hin. eapply Forall_elem in Hbs as [_ ?]; [|exact Hin]. done.
    + intros b Hb. rewrite (se_info _ _ _ _ _ I1), I11, decide_True by done. cbn. split; [done|lia].
    + rewrite (se_used _ _ _ _ _ I1), I7. lia.
  - intros b Hb. case_decide as Hin.
    + by rewrite (se_info _ _ _ _ _ I1), I11, decide_True by done.
    + symmetry. apply apply_writes_other. apply Forall_forall. intros w Hw E. apply Hin, I9.
      apply list_elem_of_fmap. by exists w.
Qed.
End ops.

Lemma in_transaction_begin dv p start s :
  thread_ok p s → cache_ok dv s → log_idle dv start s →
  in_transaction dv p start s [] (upd_log (set_log_outstanding 1) s) [] (view_of dv s).
Proof.
  intros Ht Hc [L1 L2 L3 L4 L5 L6 L7]. split; try done.
  - by apply sees_log, sees_self.
  - destruct L1 as [M1 M2 M3 M4 M5]. by split.
  - cbn. lia.
  - apply NoDup_nil_2.
Qed.

(** The whole transaction, as the sequence of its disk writes. *)
Lemma transaction_runs dv p s start ws :
  0 ≤ dv < 2 ^ 32 → thread_ok p s → cache_ok dv s → log_idle dv start s → writes_ok dv start s ws →
  ∃ s' dw bs V, transaction dv ws s = Ret tt s' ∧ disk_writes s' = disk_writes s ++ dw ∧
    disk s' = apply_writes dw (disk s) ∧ lh_n (klog s') = 0 ∧ log_outstanding (klog s') = 0 ∧
    log_committing (klog s') = false ∧ layout start bs ∧ cache_ok dv s' ∧ thread_ok p s' ∧
    (∀ b, home start b → (if decide (b ∈ bs) then V b else dblock (disk s) b) =
                         dblock (apply_writes ws (disk s)) b) ∧
    (∀ k, crashed start bs V (disk s) (apply_writes (take k dw) (disk s))) ∧
    new_blocks start bs V (disk s) (disk s').
Proof.
  intros Hdv Ht Hc Hli Hwo. pose proof Hli as [L1 L2 L3 L4 L5 L6 L7].
  set (s1 := upd_log (set_log_outstanding 1) s).
  assert (in_transaction dv p start s [] s1 [] (view_of dv s)) as Hi0 by by apply in_transaction_begin.
  enough (runs (for_each ws (logged_write dv)) s1 (λ _ s2, ∃ bs v, in_transaction dv p start s ws s2 bs v))
    as ([] & s2 & E2 & bs & v & Hi).
  { destruct (transaction_ready dv p start s ws s2 bs v Hc Hli Hwo Hi) as (Hla & Hre & Hnew).
    pose proof Hi as [I1 I2 I3 (I41 & I42 & I43) I5 I6 I7 I8 I9 I10 I11].
    assert (disk s2 = disk s) as Ed by (by rewrite (se_disk _ _ _ _ _ I1)).
    destruct (end_op_runs dv p Hdv s2 start bs) as (s3 & dw & E3 & Ew & Ed3 & Ek & Hc3 & Ht3 & Hk & Hnb);
      [apply I1|apply I1|done|done|done|by rewrite Ed|done|by rewrite I43|]. rewrite Ed in *.
    exists s3, dw, bs, (λ b, bi_data (info dv s2 b)). rewrite Ek.
    split_and!; [|by rewrite Ew, (se_writes _ _ _ _ _ I1), I6|done|done|done|by cbn; rewrite I43|done..].
    unfold transaction. rewrite (bind_Ret _ _ _ tt s1); [by run E2|].
    rewrite (begin_op_eq p s Ht L3); [by rewrite L2|].
    rewrite L2, (mh_n _ _ _ _ L1). done. }
  apply (runs_for_each (λ l s2, ∃ ws1 bs v, ws = ws1 ++ l ∧ in_transaction dv p start s ws1 s2 bs v)).
  - intros w l s2 (ws1 & bs & v & -> & Hi).
    eapply runs_mono; [by apply (transaction_step dv p Hdv start s ws1 w l s2 bs v)|].
    intros [] s3 (bs3 & v3 & Hi3). exists (ws1 ++ [w]), bs3, v3. by rewrite <- app_assoc.
  - by exists [], [], (view_of dv s).
  - intros s2 (ws1 & bs & v & -> & Hi). rewrite app_nil_r. by exists bs, v.
Qed.

Lemma new_blocks_iff start bs V ws d0 d :
  (∀ b, home start b → (if decide (b ∈ bs) then V b else dblock d0 b) = dblock (apply_writes ws d0) b) →
  new_blocks start bs V d0 d → ∀ b, home start b → dblock d b = dblock (apply_writes ws d0) b.
Proof. intros H Hn b Hb. by rewrite Hn, H. Qed.

(** C1: a transaction of at most MAXOPBLOCKS block writes
    between [begin_op] and [end_op] returns with exactly these writes applied
    to the blocks outside the log, the log empty and idle again.  If the
    machine stops after any prefix of its disk writes, and again any number of
    times during recovery, [recover_from_log] leaves all of the transaction's
    writes applied or none of them. *)
Theorem transaction_atomic dv p s start ws :
  0 ≤ dv < 2 ^ 32 → thread_ok p s → cache_ok dv s → log_idle dv start s → writes_ok dv start s ws →
  ∃ s' dw, transaction dv ws s = Ret tt s' ∧ disk_writes s' = disk_writes s ++ dw ∧
    disk s' = apply_writes dw (disk s) ∧ lh_n (klog s') = 0 ∧ log_outstanding (klog s') = 0 ∧
    log_committing (klog s') = false ∧ cache_ok dv s' ∧ thread_ok p s' ∧
    (∀ b, home start b → dblock (disk s') b = dblock (apply_writes ws (disk s)) b) ∧
    ∀ k p' r, fresh dv p' start r → reboots dv start (apply_writes (take k dw) (disk s)) (disk r) →
      ∃ r', recover_from_log r = Ret tt r' ∧ lh_n (klog r') = 0 ∧
        ((∀ b, home start b → dblock (disk r') b = dblock (disk s) b) ∨
         (∀ b, home start b → dblock (disk r') b = dblock (apply_writes ws (disk s)) b)).
Proof.
  intros Hdv Ht Hc Hli Hwo.
  destruct (transaction_runs dv p s start ws Hdv Ht Hc Hli Hwo)
    as (s' & dw & bs & V & E & Ew & Ed & En & Eo & Ec & Hla & Hc' & Ht' & Hnew & Hk & Hnb).
  exists s', dw. split_and!; [done..|by eapply new_blocks_iff|].
  intros k p' r Hf Hr.
  destruct (recover_crashed dv start bs V Hdv Hla p' (disk s) r Hf) as (r' & ws2 & E2 & _ & _ & En2 & _ & _ & Hd2).
  { eapply (reboots_crashed dv start bs V Hdv Hla); [exact Hr|]. apply Hk. }
  exists r'. split_and!; [done|done|]. destruct Hd2 as [Hd2|Hd2]; [by left|right].
  by eapply new_blocks_iff.
Qed.

(** ** A log on an empty disk *)

(** The booted kernel with a log of 31 blocks at block 2. *)
Definition sample_log (lg : log) : log := set_log_size 31 (set_log_start 2 (set_log_dev ROOTDEV lg)).

Lemma zero_hdr : hdr_is (dblock ∅ 2) [].
Proof. split_and!; [apply dblock_empty|reflexivity|cbn; lia]. Qed.

Lemma boot_log :
  ∃ s, binit boot_thread = Ret tt s ∧ thread_ok 0 (upd_log sample_log s) ∧ cache_ok ROOTDEV (upd_log sample_log s) ∧
    log_idle ROOTDEV 2 (upd_log sample_log s) ∧ nused (bufs s) = 0 ∧ disk s = ∅ ∧
    ∀ n, info ROOTDEV s n = mk_binfo (dblock ∅ n) 0 None.
Proof.
  destruct boot_cache as (s & E & Ht & Hc & Hu & Hd & Hw & Hk & Hi). exists s. split_and!; try done.
  - eapply thread_ok_ext; [..|exact Ht]; done.
  - destruct Hc as [A1 A2 A3 A4]. by split.
  - split; try (cbn; rewrite ?Hk; done).
    + split; cbn; rewrite ?Hk; done.
    + cbn. rewrite Hd. exact zero_hdr.
    + intros m _. change (info ROOTDEV (upd_log sample_log s) m) with (info ROOTDEV s m). by rewrite Hi.
Qed.

Definition sample_writes : list (Z * list Z) :=
  [(45, replicate 1024 7); (46, replicate 1024 8); (45, replicate 1024 9)].

Lemma sample_writes_ok s :
  nused (bufs s) = 0 → (∀ n, info ROOTDEV s n = mk_binfo (dblock ∅ n) 0 None) →
  writes_ok ROOTDEV 2 (upd_log sample_log s) sample_writes.
Proof.
  intros Hu Hi. split; [cbn; lia|cbn [bufs upd_log set_klog]; rewrite Hu; done|].
  unfold sample_writes. repeat (apply Forall_cons; split; [|]); [..|done];
    (split_and!; cbn [fst snd]; [lia|lia|unfold home; lia|apply length_replicate|]);
    change (info ROOTDEV (upd_log sample_log s)) with (info ROOTDEV s); by rewrite Hi.
Qed.

Lemma sample_fresh s :
  thread_ok 0 (upd_log sample_log s) → cache_ok ROOTDEV (upd_log sample_log s) →
  log_idle ROOTDEV 2 (upd_log sample_log s) → nused (bufs s) = 0 →
  (∀ n, info ROOTDEV s n = mk_binfo (dblock ∅ n) 0 None) → fresh ROOTDEV 0 2 (upd_log sample_log s).
Proof.
  intros Ht Hc Hli Hu Hi. split; [done|done|done| |apply Hli|apply Hli|apply Hli].
  intros m. change (info ROOTDEV (upd_log sample_log s) m) with (info ROOTDEV s m). by rewrite Hi.
Qed.

(** The transaction runs, and a crash before its first write is recovered. *)
Lemma transaction_atomic_witness :
  ∃ s s' r', binit boot_thread = Ret tt s ∧
    transaction ROOTDEV sample_writes (upd_log sample_log s) = Ret tt s' ∧
    dblock (disk s') 45 = replicate 1024 9 ∧ recover_from_log (upd_log sample_log s) = Ret tt r'.
Proof.
  destruct boot_log as (s & E & Ht & Hc & Hli & Hu & Hd & Hi).
  destruct (transaction_atomic ROOTDEV 0 (upd_log sample_log s) 2 sample_writes)
    as (s' & dw & E1 & _ & _ & _ & _ & _ & _ & _ & Hb & Hr).
  - unfold ROOTDEV. lia.
  - exact Ht.
  - exact Hc.
  - exact Hli.
  - exact (sample_writes_ok s Hu Hi).
  - destruct (Hr 0%nat 0%nat (upd_log sample_log s) (sample_fresh s Ht Hc Hli Hu Hi)) as (r' & Er & _).
    + apply reboots_none.
    + exists s, s', r'. split; [exact E|]. split; [exact E1|]. split; [|exact Er].
      rewrite Hb by (unfold home; lia). apply dblock_insert_eq.
Defined.

(** A state in which a transaction has written two blocks. *)
Lemma pending_commit :
  ∃ s bs, bs ≠ [] ∧ thread_ok 0 s ∧ cache_ok ROOTDEV s ∧ mem_hdr ROOTDEV s 2 bs ∧ layout 2 bs ∧
    ready 2 bs (view_of ROOTDEV s) ∧ hdr_is (dblock (disk s) 2) [].
Proof.
  destruct boot_log as (s & E & Ht & Hc & Hli & Hu & Hd & Hi). set (s1 := upd_log sample_log s) in *.
  pose proof (sample_writes_ok s Hu Hi) as Hwo.
  destruct (transaction_step ROOTDEV 0 ltac:(unfold ROOTDEV; lia) 2 s1 [] (45, replicate 1024 7)
    [(46, replicate 1024 8); (45, replicate 1024 9)] (upd_log (set_log_outstanding 1) s1) [] (view_of ROOTDEV s1))
    as ([] & s2 & _ & bs & v & Hin); [done|done|done|done|by apply in_transaction_begin|].
  exists s2, bs. destruct (transaction_ready ROOTDEV 0 2 s1 [(45, replicate 1024 7)] s2 bs v Hc Hli) as (Hla & Hre & _).
  { destruct Hwo as [W1 W2 W3]. split; [cbn; lia|done|]. apply Forall_cons in W3 as [W3 _].
    by apply Forall_singleton. }
  { done. }
  destruct Hin as [I1 I2 I3 I4 I5 I6 I7 I8 I9 I10 I11].
  split_and!; [|apply I1|apply I1|done|done|done|].
  - intros ->. apply (not_elem_of_nil 45), I9. by left.
  - rewrite (se_disk _ _ _ _ _ I1), I5. cbn. rewrite Hd. exact zero_hdr.
Qed.

Lemma log_crash_safe_witness :
  ∃ s s' bs, bs ≠ [] ∧ commit s = Ret tt s' ∧ lh_n (klog s') = 0 ∧
    new_blocks 2 bs (λ b, bi_data (info ROOTDEV s b)) (disk s) (disk s').
Proof.
  destruct pending_commit as (s & bs & Hne & Ht & Hc & Hm & Hla & Hre & Hh).
  destruct (log_crash_safe ROOTDEV 0 s 2 bs ltac:(unfold ROOTDEV; lia) Ht Hc Hm Hla Hre Hh)
    as (s' & ws & E & _ & _ & En & Hnew & _).
  exists s, s', bs. exact (conj Hne (conj E (conj En Hnew))).
Defined.
