(* ===== verification/Fs.v ===== *)
(** * kernel/fs.c: blocks and inodes

    The block allocator, the inode table and the contents of inodes.  A
    [struct inode *] is the inode's index in [itable]. *)

From S2P Require Import Prelude Machine Memory Kstring State Spinlock Kalloc Vm Sched Ring Uart.
From S2P Require Import Printf Proc Sleeplock Block Bio Log.

Definition FSMAGIC : Z := 0x10203040.
Definition ROOTINO : Z := 1.
Definition NDIRECT : Z := 12.
Definition NINDIRECT : Z := BSIZE / 4.
Definition MAXFILE : Z := NDIRECT + NINDIRECT.
Definition sizeof_dinode : Z := 64.
Definition IPB : Z := BSIZE / sizeof_dinode.
Definition IBLOCK (i : Z) (sb : superblock) : Z := u32 (i / IPB + sb_inodestart sb).
Definition BPB : Z := BSIZE * 8.
Definition BBLOCK (b : Z) (sb : superblock) : Z := u32 (b / BPB + sb_bmapstart sb).

Definition T_DIR : Z := 1.
Definition T_FILE : Z := 2.
Definition T_DEVICE : Z := 3.

Definition getinode (ip : nat) (s : kernel) : inode := inodes s !!! ip.
Definition upd_inode (ip : nat) (f : inode → inode) (s : kernel) : kernel :=
  set_inodes (alter f ip (inodes s)) s.
Definition ifield {A} (ip : nat) (f : inode → A) : K A := gets (λ s, f (getinode ip s)).
Definition iset (ip : nat) (f : inode → inode) : K unit := modify (upd_inode ip f).

(** [struct superblock], as it lies in a block. *)
Definition sb_of (data : list Z) : superblock :=
  {| sb_magic := get32 data 0; sb_size := get32 data 4; sb_nblocks := get32 data 8;
     sb_ninodes := get32 data 12; sb_nlog := get32 data 16; sb_logstart := get32 data 20;
     sb_inodestart := get32 data 24; sb_bmapstart := get32 data 28 |}.

(** [struct dinode] at offset [o] of a block. *)
Record dinode : Type := mk_dinode {
  di_type : Z; di_major : Z; di_minor : Z; di_nlink : Z; di_size : Z; di_addrs : list Z
}.

Definition get_dinode (data : list Z) (o : nat) : dinode :=
  {| di_type := s16 (get16 data o); di_major := s16 (get16 data (o + 2));
     di_minor := s16 (get16 data (o + 4)); di_nlink := s16 (get16 data (o + 6));
     di_size := get32 data (o + 8);
     di_addrs := (λ i, get32 data (o + 12 + 4 * i)) <$> seq 0 13 |}.

(** [memmove(dip->addrs, ip->addrs, sizeof(ip->addrs))] *)
Definition put_addrs (data : list Z) (o : nat) (addrs : list Z) : list Z :=
  foldl (λ data i, put32 data (o + 12 + 4 * i) (addrs !!! i)) data (seq 0 13).

Definition put_dinode (data : list Z) (o : nat) (d : dinode) : list Z :=
  let data := put16 data o (di_type d) in
  let data := put16 data (o + 2) (di_major d) in
  let data := put16 data (o + 4) (di_minor d) in
  let data := put16 data (o + 6) (di_nlink d) in
  let data := put32 data (o + 8) (di_size d) in
  put_addrs data o (di_addrs d).

(** [(struct dinode* )bp->data + inum%IPB], as an offset. *)
Definition dinode_off (inum : Z) : nat := Z.to_nat (inum `mod` IPB * sizeof_dinode).

Section fs.
Context `{KernelLayout} `{BlockDriver}.

Definition readsb (dev : Z) : K unit :=
  let! bp := bread dev 1 in
  let! data := bfield bp b_data in
  modify (set_sb (sb_of data)) ;;;
  brelse bp.

Definition fsinit (dev : Z) : K unit :=
  readsb dev ;;;
  let! b := gets sb in
  if negb (sb_magic b =? FSMAGIC) then panic "invalid file system" else
  initlog dev b.

Definition bzero (dev bno : Z) : K unit :=
  let! bp := bread dev bno in
  bdata bp (λ _, replicate (Z.to_nat BSIZE) 0) ;;;
  log_write bp ;;;
  brelse bp.

(** The inner loop of [balloc]: the first clear bit of a bitmap block. *)
Definition balloc_bit (bp : nat) (b bi : Z) : K (Z + option Z) :=
  let! size := gets (λ s, sb_size (sb s)) in
  if (bi <? BPB) && (b + bi <? size) then
    let m := Z.shiftl 1 (bi `mod` 8) in
    let! data := bfield bp b_data in
    if Z.land (data !!! Z.to_nat (bi / 8)) m =? 0 then ret (inr (Some bi))
    else ret (inl (bi + 1))
  else ret (inr None).

Definition balloc_step (dev b : Z) : K (Z + option Z) :=
  let! sb := gets sb in
  if b <? sb_size sb then
    let! bp := bread dev (BBLOCK b sb) in
    let! r := loop (balloc_bit bp b) 0 in
    match r with
    | Some bi =>
        let m := Z.shiftl 1 (bi `mod` 8) in
        let i := Z.to_nat (bi / 8) in
        bdata bp (λ data, <[i := Z.lor (data !!! i) m]> data) ;;;
        log_write bp ;;;
        brelse bp ;;;
        bzero dev (b + bi) ;;;
        ret (inr (Some (b + bi)))
    | None =>
        brelse bp ;;;
        ret (inl (b + BPB))
    end
  else ret (inr None).

Definition balloc (dev : Z) : K Z :=
  let! r := loop (balloc_step dev) 0 in
  match r with
  | Some b => ret b
  | None => panic "balloc: out of blocks"
  end.

Definition bfree (dev b : Z) : K unit :=
  let! sb := gets sb in
  let! bp := bread dev (BBLOCK b sb) in
  let bi := b `mod` BPB in
  let m := Z.shiftl 1 (bi `mod` 8) in
  let i := Z.to_nat (bi / 8) in
  let! data := bfield bp b_data in
  if Z.land (data !!! i) m =? 0 then panic "freeing free block" else
  bdata bp (λ data, <[i := Z.land (data !!! i) (u8 (Z.lnot m))]> data) ;;;
  log_write bp ;;;
  brelse bp.

Definition iinit : K unit :=
  initlock LkItable "itable" ;;;
  for_each (seq 0 NINODE) (λ i, initsleeplock (SlInode i) "inode").

(** The loop of [iget]: an entry that holds the inode, or the first empty one
    ([empty]). *)
Fixpoint iget_scan (dev inum : Z) (l : list nat) (empty : option nat)
    : K (nat + option nat) :=
  match l with
  | [] => ret (inr empty)
  | ip :: l' =>
      let! i := gets (getinode ip) in
      if (i_ref i >? 0) && (i_dev i =? dev) && (i_inum i =? inum) then
        iset ip (λ i, set_i_ref (i_ref i + 1) i) ;;;
        ret (inl ip)
      else
        let empty :=
          if bool_decide (empty = None) && (i_ref i =? 0) then Some ip else empty in
        iget_scan dev inum l' empty
  end.

Definition iget (dev inum : Z) : K nat :=
  acquire LkItable ;;;
  let! r := iget_scan dev inum (seq 0 NINODE) None in
  match r with
  | inl ip => release LkItable ;;; ret ip
  | inr None => panic "iget: no inodes"
  | inr (Some ip) =>
      iset ip (set_i_dev dev) ;;;
      iset ip (set_i_inum inum) ;;;
      iset ip (set_i_ref 1) ;;;
      iset ip (set_i_valid false) ;;;
      release LkItable ;;;
      ret ip
  end.

Definition ialloc_step (dev type inum : Z) : K (Z + option nat) :=
  let! sb := gets sb in
  if inum <? sb_ninodes sb then
    let! bp := bread dev (IBLOCK inum sb) in
    let o := dinode_off inum in
    let! data := bfield bp b_data in
    if s16 (get16 data o) =? 0 then
      bdata bp (λ data, put_bytes data o (replicate (Z.to_nat sizeof_dinode) 0)) ;;;
      bdata bp (λ data, put16 data o type) ;;;
      log_write bp ;;;
      brelse bp ;;;
      let! ip := iget dev inum in
      ret (inr (Some ip))
    else
      brelse bp ;;;
      ret (inl (inum + 1))
  else ret (inr None).

Definition ialloc (dev type : Z) : K nat :=
  let! r := loop (ialloc_step dev type) 1 in
  match r with
  | Some ip => ret ip
  | None => panic "ialloc: no inodes"
  end.

Definition iupdate (ip : nat) : K unit :=
  let! sb := gets sb in
  let! i := gets (getinode ip) in
  let! bp := bread (i_dev i) (IBLOCK (i_inum i) sb) in
  let! i := gets (getinode ip) in
  bdata bp (λ data, put_dinode data (dinode_off (i_inum i))
    (mk_dinode (i_type i) (i_major i) (i_minor i) (i_nlink i) (i_size i) (i_addrs i))) ;;;
  log_write bp ;;;
  brelse bp.

Definition idup (ip : nat) : K nat :=
  acquire LkItable ;;;
  iset ip (λ i, set_i_ref (i_ref i + 1) i) ;;;
  release LkItable ;;;
  ret ip.

Definition ilock (ip : nat) : K unit :=
  let! ref := ifield ip i_ref in
  if ref <? 1 then panic "ilock" else
  acquiresleep (SlInode ip) ;;;
  let! valid := ifield ip i_valid in
  when (negb valid)
    (let! sb := gets sb in
     let! i := gets (getinode ip) in
     let! bp := bread (i_dev i) (IBLOCK (i_inum i) sb) in
     let! data := bfield bp b_data in
     let d := get_dinode data (dinode_off (i_inum i)) in
     iset ip (set_i_type (di_type d)) ;;;
     iset ip (set_i_major (di_major d)) ;;;
     iset ip (set_i_minor (di_minor d)) ;;;
     iset ip (set_i_nlink (di_nlink d)) ;;;
     iset ip (set_i_size (di_size d)) ;;;
     iset ip (set_i_addrs (di_addrs d)) ;;;
     brelse bp ;;;
     iset ip (set_i_valid true) ;;;
     if di_type d =? 0 then panic "ilock: no type" else ret tt).

Definition iunlock (ip : nat) : K unit :=
  let! h := holdingsleep (SlInode ip) in
  if negb h then panic "iunlock" else
  let! ref := ifield ip i_ref in
  if ref <? 1 then panic "iunlock" else
  releasesleep (SlInode ip).

(** ** Inode content *)

Definition bmap (ip : nat) (bn : Z) : K Z :=
  let! i := gets (getinode ip) in
  if bn <? NDIRECT then
    let addr := i_addrs i !!! Z.to_nat bn in
    if addr =? 0 then
      let! addr := balloc (i_dev i) in
      iset ip (λ i, set_i_addrs (<[Z.to_nat bn := addr]> (i_addrs i)) i) ;;;
      ret addr
    else ret addr
  else
  let bn := bn - NDIRECT in
  if bn <? NINDIRECT then
    let nd := Z.to_nat NDIRECT in
    let addr := i_addrs i !!! nd in
    let! addr :=
      (if addr =? 0 then
         let! addr := balloc (i_dev i) in
         iset ip (λ i, set_i_addrs (<[nd := addr]> (i_addrs i)) i) ;;;
         ret addr
       else ret addr) in
    let! bp := bread (i_dev i) addr in
    let! a := bfield bp b_data in
    let addr := get32 a (Z.to_nat (4 * bn)) in
    let! addr :=
      (if addr =? 0 then
         let! addr := balloc (i_dev i) in
         bdata bp (λ a, put32 a (Z.to_nat (4 * bn)) addr) ;;;
         log_write bp ;;;
         ret addr
       else ret addr) in
    brelse bp ;;;
    ret addr
  else panic "bmap: out of range".

Definition itrunc_direct (ip : nat) (n : nat) : K unit :=
  let! i := gets (getinode ip) in
  let addr := i_addrs i !!! n in
  when (negb (addr =? 0))
    (bfree (i_dev i) addr ;;;
     iset ip (λ i, set_i_addrs (<[n := 0]> (i_addrs i)) i)).

Definition itrunc_indirect (ip bp : nat) (j : nat) : K unit :=
  let! i := gets (getinode ip) in
  let! a := bfield bp b_data in
  let addr := get32 a (4 * j) in
  when (negb (addr =? 0)) (bfree (i_dev i) addr).

Definition itrunc (ip : nat) : K unit :=
  let nd := Z.to_nat NDIRECT in
  for_each (seq 0 nd) (itrunc_direct ip) ;;;
  let! i := gets (getinode ip) in
  when (negb (i_addrs i !!! nd =? 0))
    (let! bp := bread (i_dev i) (i_addrs i !!! nd) in
     for_each (seq 0 (Z.to_nat NINDIRECT)) (itrunc_indirect ip bp) ;;;
     brelse bp ;;;
     bfree (i_dev i) (i_addrs i !!! nd) ;;;
     iset ip (λ i, set_i_addrs (<[nd := 0]> (i_addrs i)) i)) ;;;
  iset ip (set_i_size 0) ;;;
  iupdate ip.

Definition iput (ip : nat) : K unit :=
  acquire LkItable ;;;
  let! i := gets (getinode ip) in
  when ((i_ref i =? 1) && i_valid i && (i_nlink i =? 0))
    (acquiresleep (SlInode ip) ;;;
     release LkItable ;;;
     itrunc ip ;;;
     iset ip (set_i_type 0) ;;;
     iupdate ip ;;;
     iset ip (set_i_valid false) ;;;
     releasesleep (SlInode ip) ;;;
     acquire LkItable) ;;;
  iset ip (λ i, set_i_ref (i_ref i - 1) i) ;;;
  release LkItable.

Definition iunlockput (ip : nat) : K unit :=
  iunlock ip ;;;
  iput ip.

(** [struct stat] *)
Record stat : Type := mk_stat {
  st_dev : Z; st_ino : Z; st_type : Z; st_nlink : Z; st_size : Z
}.

Definition stati (ip : nat) : K stat :=
  let! i := gets (getinode ip) in
  ret (mk_stat (i_dev i) (i_inum i) (i_type i) (i_nlink i) (i_size i)).

(** One turn of the loop of [readi]; the variables are [tot], [off], [dst] and
    the bytes copied so far. *)
Definition readi_step (ip : nat) (n : Z) (v : Z * Z * udst * list Z)
    : K (Z * Z * udst * list Z + Z * list Z) :=
  let '(tot, off, dst, got) := v in
  if tot <? n then
    let! addr := bmap ip (off / BSIZE) in
    let! dev := ifield ip i_dev in
    let! bp := bread dev addr in
    let m := Z.min (n - tot) (BSIZE - off `mod` BSIZE) in
    let! data := bfield bp b_data in
    let src := get_bytes data (Z.to_nat (off `mod` BSIZE)) (Z.to_nat m) in
    let! r := either_copyout dst src in
    if r =? -1 then
      brelse bp ;;;
      ret (inr (-1, got))
    else
      brelse bp ;;;
      ret (inl (tot + m, off + m, dst_add dst m, got ++ src))
  else ret (inr (tot, got)).

(** [readi]: the result and the bytes read. *)
Definition readi (ip : nat) (dst : udst) (off n : Z) : K (Z * list Z) :=
  let! size := ifield ip i_size in
  if (off >? size) || (u32 (off + n) <? off) then ret (0, []) else
  let n := if u32 (off + n) >? size then size - off else n in
  loop (readi_step ip n) (0, off, dst, []).

(** One turn of the loop of [writei]. *)
Definition writei_step (ip : nat) (n : Z) (v : Z * Z * usrc) : K (Z * Z * usrc + Z * Z) :=
  let '(tot, off, src) := v in
  if tot <? n then
    let! addr := bmap ip (off / BSIZE) in
    let! dev := ifield ip i_dev in
    let! bp := bread dev addr in
    let m := Z.min (n - tot) (BSIZE - off `mod` BSIZE) in
    let! '(r, bytes) := either_copyin src m in
    bdata bp (λ data, put_bytes data (Z.to_nat (off `mod` BSIZE)) bytes) ;;;
    if r =? -1 then
      brelse bp ;;;
      ret (inr (tot, off))
    else
      log_write bp ;;;
      brelse bp ;;;
      ret (inl (tot + m, off + m, src_add src m))
  else ret (inr (tot, off)).

Definition writei (ip : nat) (src : usrc) (off n : Z) : K Z :=
  let! size := ifield ip i_size in
  if (off >? size) || (u32 (off + n) <? off) then ret (-1) else
  if u32 (off + n) >? MAXFILE * BSIZE then ret (-1) else
  let! '(tot, off) := loop (writei_step ip n) (0, off, src) in
  let! size := ifield ip i_size in
  when (off >? size) (iset ip (set_i_size off)) ;;;
  iupdate ip ;;;
  ret tot.
End fs.
