(* ===== verification/Itable.v ===== *)
(** * The inode table (kernel/fs.c)

    [iget], [idup] and [iput] as functions on the table of inodes in memory. *)

From S2P Require Import Prelude Machine Memory Kstring State Spinlock Kalloc Vm Sched Runs Proc Sleeplock Block Bio Cache.
From S2P Require Import CacheOps Log Fs.

(** The entry [iget] finds for an inode, and the table afterwards: the entry
    that has it already, with one more reference, or the first entry without
    references, given to the inode. *)
Definition refers (dev inum : Z) (i : inode) : Prop := i_ref i > 0 ∧ i_dev i = dev ∧ i_inum i = inum.

#[export] Instance refers_dec dev inum i : Decision (refers dev inum i).
Proof. unfold refers. apply _. Defined.

Definition renewed (dev inum : Z) (i : inode) : inode :=
  set_i_valid false (set_i_ref 1 (set_i_inum inum (set_i_dev dev i))).

Definition igot (dev inum : Z) (l : list inode) : option (nat * list inode) :=
  match list_find (refers dev inum) l with
  | Some (ip, i) => Some (ip, <[ip := set_i_ref (i_ref i + 1) i]> l)
  | None =>
      match list_find (λ i, i_ref i = 0) l with
      | Some (ip, i) => Some (ip, <[ip := renewed dev inum i]> l)
      | None => None
      end
  end.

(** With a free entry there is room. *)
Lemma igot_room dev inum l k x :
  l !! k = Some x → i_ref x = 0 → ∃ ip l' i, igot dev inum l = Some (ip, l') ∧ l' !! ip = Some i ∧ i_inum i = inum.
Proof.
  intros Hx Hr. unfold igot. destruct (list_find (refers dev inum) l) as [[ip i]|] eqn:E1.
  - apply list_find_Some in E1 as (Hi & (_ & _ & Hn) & _). eexists _, _, _. split; [done|].
    split; [apply list_lookup_insert_eq; by eapply lookup_lt_Some|done].
  - destruct (list_find (λ i, i_ref i = 0) l) as [[ip i]|] eqn:E2.
    + apply list_find_Some in E2 as (Hi & _ & _). eexists _, _, _. split; [done|].
      split; [apply list_lookup_insert_eq; by eapply lookup_lt_Some|done].
    + apply list_find_None in E2. by eapply Forall_lookup_1 in E2.
Qed.

Lemma iget_scan_eq dev inum s l0 l empty :
  inodes s = l0 ++ l →
  iget_scan dev inum (seq (length l0) (length l)) empty s =
    match list_find (refers dev inum) l with
    | Some (k, _) => Ret (inl (length l0 + k)%nat) (upd_inode (length l0 + k) (λ i, set_i_ref (i_ref i + 1) i) s)
    | None => Ret (inr (match empty with
                        | Some e => Some e
                        | None => (λ x, (length l0 + x.1)%nat) <$> list_find (λ i, i_ref i = 0) l
                        end)) s
    end.
Proof.
  revert l0 empty. induction l as [|i l IH]; intros l0 empty E; [by destruct empty|]. cbn [length seq iget_scan].
  assert (getinode (length l0) s = i) as Eg.
  { unfold getinode. rewrite E. apply list_lookup_total_correct. by rewrite list_lookup_middle. }
  unfold bind at 1, gets. cbn [obind]. rewrite Eg. cbn [list_find].
  assert ((i_ref i >? 0) && (i_dev i =? dev) && (i_inum i =? inum) = bool_decide (refers dev inum i)) as ->.
  { apply eq_true_iff_eq. rewrite bool_decide_eq_true, !andb_true_iff, !Z.eqb_eq. unfold refers. lia. }
  case_bool_decide as Hr.
  - rewrite decide_True by done. cbn. by rewrite Nat.add_0_r.
  - rewrite (decide_False (P := refers dev inum i)) by done.
    specialize (IH (l0 ++ [i])). rewrite length_app in IH. cbn [length] in IH. rewrite Nat.add_1_r in IH.
    rewrite IH by (by rewrite <- app_assoc). clear IH.
    destruct (list_find (refers dev inum) l) as [[k x]|] eqn:Ef.
    { cbn. by rewrite Nat.add_succ_r. } cbn.
    destruct empty as [e|]; cbn; [done|]. destruct (Z.eqb_spec (i_ref i) 0) as [H0|H0].
    + rewrite decide_True by done. cbn. by rewrite Nat.add_0_r.
    + rewrite decide_False by done. destruct (list_find (λ i, i_ref i = 0) l) as [[k x]|]; cbn; [|done]. do 3 f_equal. lia.
Qed.

Lemma iget_eq p s dev inum :
  thread_ok p s → length (inodes s) = NINODE →
  iget dev inum s =
    match igot dev inum (inodes s) with
    | Some (ip, l) => Ret ip (set_inodes l s)
    | None => Panic "iget: no inodes"
    end.
Proof.
  intros Ht Hlen. pose proof (th_hart _ _ Ht) as Hh.
  assert (lock_free s LkItable) as Hl by (apply (th_locks _ _ Ht), all_locks_named; set_solver).
  unfold iget. rewrite (bind_Ret _ _ _ tt (enter LkItable s)) by by apply acquire_ok.
  pose proof (iget_scan_eq dev inum (enter LkItable s) [] (inodes s) None eq_refl) as E. rewrite Hlen in E. cbn [length Nat.add] in E.
  unfold igot. destruct (list_find (refers dev inum) (inodes s)) as [[k i]|] eqn:Ef.
  - run E. unfold bind. rewrite (release_enter s) by first [assumption|kfield]. cbn. unfold ret. f_equal.
    apply list_find_Some in Ef as (Hi & _ & _).
    unfold upd_inode. cbn [inodes set_inodes set_cpus set_locks enter].
    rewrite (alter_at _ _ _ _ Hi). by destruct s.
  - run E. destruct (list_find (λ i, i_ref i = 0) (inodes s)) as [[k i]|] eqn:E0; cbn [fmap option_fmap option_map fst Nat.add]; [|done].
    unfold bind, iset, modify. cbn [obind]. rewrite (release_enter s) by first [assumption|kfield]. cbn [obind]. unfold ret. f_equal.
    apply list_find_Some in E0 as (Hi & _ & _). unfold upd_inode. cbn [inodes set_inodes set_cpus set_locks enter].
    rewrite !list_alter_alter_eq, (alter_at _ _ _ _ Hi). by destruct s.
Qed.

(** [iput] of an inode that others refer to, or whose contents are not to be
    freed, takes one reference away. *)
Definition iputs (ip : nat) (s : kernel) : kernel := upd_inode ip (λ i, set_i_ref (i_ref i - 1) i) s.

Lemma iput_eq p s ip :
  thread_ok p s → (ip < length (inodes s))%nat →
  (i_ref (getinode ip s) ≠ 1 ∨ i_valid (getinode ip s) = false ∨ i_nlink (getinode ip s) ≠ 0) →
  iput ip s = Ret tt (iputs ip s).
Proof.
  intros Ht Hip Hkeep. pose proof (th_hart _ _ Ht) as Hh.
  assert (lock_free s LkItable) as Hl by (apply (th_locks _ _ Ht), all_locks_named; set_solver).
  unfold iput. rewrite (bind_Ret _ _ _ tt (enter LkItable s)) by by apply acquire_ok.
  unfold bind at 1, gets. cbn [obind]. change (getinode ip (enter LkItable s)) with (getinode ip s).
  assert ((i_ref (getinode ip s) =? 1) && i_valid (getinode ip s) && (i_nlink (getinode ip s) =? 0) = false) as ->.
  { apply not_true_iff_false. rewrite !andb_true_iff, !Z.eqb_eq. intros [[H1 H2] H3]. rewrite H2 in Hkeep. naive_solver. }
  unfold when, bind, iset, modify. cbn [obind ret]. rewrite (release_enter s) by first [assumption|kfield]. by destruct s.
Qed.

(** Another reference to an inode. *)
Lemma idup_eq s ip :
  hart_ok s → lock_free s LkItable → idup ip s = Ret ip (upd_inode ip (λ i, set_i_ref (i_ref i + 1) i) s).
Proof.
  intros Hh Hl. unfold idup. rewrite (bind_Ret _ _ _ tt (enter LkItable s)) by by apply acquire_ok.
  unfold bind, iset, modify. cbn [obind]. rewrite (release_enter s) by first [assumption|kfield]. cbn [obind]. by destruct s.
Qed.

