(* ===== verification/FsLogic.v ===== *)
(** * Rules for the file system inside a transaction

    A thread of the file system works on blocks through [bread], [bdata],
    [log_write] and [brelse], inside a transaction.  Its view is the contents of
    the blocks, the blocks the transaction has logged and the buffers held. *)

From S2P Require Import Prelude Machine Memory Kstring State Spinlock Sched Runs Sleeplock Block Bio Cache.
From S2P Require Import CacheOps CacheLogic Log LogSpec LogOps.

Record txn : Type := mk_txn {
  t_data : Z → list Z;
  t_log : list Z;
  t_held : list (Z * nat)
}.

(** References to a block: the log's and the thread's. *)
Definition t_refs (t : txn) (n : Z) : Z :=
  Z.b2z (bool_decide (n ∈ t_log t)) + Z.b2z (bool_decide (n ∈ (t_held t).*1)).

Definition t_info (pid : Z) (t : txn) (n : Z) : binfo :=
  mk_binfo (t_data t n) (t_refs t n) (if bool_decide (n ∈ (t_held t).*1) then Some pid else None).

(** The buffers in use. *)
Definition t_used (t : txn) : Z :=
  Z.of_nat (length (t_log t) + length (filter (λ x, x.1 ∉ t_log t) (t_held t))).

(** Operations on a view. *)
Definition t_take (n : Z) (i : nat) (t : txn) : txn := mk_txn (t_data t) (t_log t) ((n, i) :: t_held t).
Definition t_put (n : Z) (d : list Z) (t : txn) : txn := mk_txn (set_at n d (t_data t)) (t_log t) (t_held t).
Definition t_enter (n : Z) (t : txn) : txn := mk_txn (t_data t) (add_block n (t_log t)) (t_held t).
Definition t_drop (n : Z) (t : txn) : txn := mk_txn (t_data t) (t_log t) (unheld n (t_held t)).

Ltac tcbn := cbn [t_data t_log t_held t_take t_put t_enter t_drop].

(** Filters that agree on the members of a list. *)
Lemma filter_ext_in {A} (P Q : A → Prop) `{∀ x, Decision (P x)} `{∀ x, Decision (Q x)} (l : list A) :
  (∀ x, x ∈ l → P x ↔ Q x) → filter P l = filter Q l.
Proof.
  induction l as [|x l IH]; intros Hl; [done|]. rewrite !filter_cons.
  pose proof (Hl x (list_elem_of_here x l)) as Hx. rewrite IH by (intros y Hy; apply Hl; by right).
  repeat case_decide; tauto.
Qed.

Lemma filter_id {A} (P : A → Prop) `{∀ x, Decision (P x)} (l : list A) : (∀ x, x ∈ l → P x) → filter P l = l.
Proof.
  induction l as [|x l IH]; intros Hl; [done|]. rewrite filter_cons, decide_True by (apply Hl; left).
  f_equal. apply IH. intros y Hy. apply Hl. by right.
Qed.

(** ** The counts *)

Lemma unheld_perm n i l : NoDup l.*1 → (n, i) ∈ l → l ≡ₚ (n, i) :: unheld n l.
Proof.
  induction l as [|[m j] l IH]; intros Hn Hin; [by apply not_elem_of_nil in Hin|].
  rewrite fmap_cons in Hn. apply NoDup_cons in Hn as [Hm Hn]. cbn [fst] in Hm. unfold unheld. rewrite filter_cons. cbn [fst].
  apply elem_of_cons in Hin as [E|Hin].
  - injection E as -> ->. rewrite decide_False by tauto. constructor.
    assert (filter (λ x : Z * nat, x.1 ≠ m) l = l) as ->; [|done].
    apply filter_id. intros [k q] Hkq E. cbn in E. subst k. apply Hm, list_elem_of_fmap. by exists (m, q).
  - rewrite decide_True.
    + rewrite Permutation_swap. by constructor; apply IH.
    + intros ->. apply Hm, list_elem_of_fmap. by exists (n, i).
Qed.

Lemma unheld_fst n l m : m ∈ (unheld n l).*1 ↔ m ≠ n ∧ m ∈ l.*1.
Proof.
  unfold unheld. rewrite !list_elem_of_fmap. setoid_rewrite list_elem_of_filter. split.
  - intros ([k q] & -> & Hk & Hin). cbn in *. split; [done|]. by exists (k, q).
  - intros (Hne & [k q] & -> & Hin). cbn in *. by exists (k, q).
Qed.

Lemma unheld_nodup n l : NoDup l.*1 → NoDup (unheld n l).*1.
Proof.
  induction l as [|[m j] l IH]; intros Hn; [done|]. rewrite fmap_cons in Hn. apply NoDup_cons in Hn as [Hm Hn].
  unfold unheld. rewrite filter_cons. case_decide; [|by apply IH]. rewrite fmap_cons. constructor; [|by apply IH].
  intros Hin. change (m ∈ (unheld n l).*1) in Hin. by apply unheld_fst in Hin as [_ ?].
Qed.

Lemma unheld_cons n i l : n ∉ l.*1 → unheld n ((n, i) :: l) = l.
Proof.
  intros Hn. unfold unheld. rewrite filter_cons. cbn [fst]. rewrite decide_False by tauto.
  apply filter_id. intros [k q] Hkq E. cbn in E. subst k. apply Hn, list_elem_of_fmap. by exists (n, q).
Qed.

Lemma t_used_take n i t :
  n ∉ (t_held t).*1 → t_used (t_take n i t) = t_used t - used (t_refs t n) + used (t_refs t n + 1).
Proof.
  intros Hn. unfold t_used, t_refs. tcbn. rewrite (bool_decide_false (n ∈ (t_held t).*1)) by done.
  rewrite filter_cons. cbn [fst]. destruct (decide (n ∈ t_log t)) as [Hl|Hl].
  - rewrite bool_decide_true, decide_False by tauto. cbn [Z.b2z]. change (used (1 + 0)) with 1. change (used (1 + 0 + 1)) with 1. lia.
  - rewrite bool_decide_false, decide_True by done. cbn [Z.b2z]. change (used (0 + 0)) with 0.
    change (used (0 + 0 + 1)) with 1. cbn [length]. lia.
Qed.

Lemma t_used_drop n i t :
  NoDup (t_held t).*1 → (n, i) ∈ t_held t → t_used (t_drop n t) = t_used t - used (t_refs t n) + used (t_refs t n - 1).
Proof.
  intros Hnd Hin. unfold t_used, t_refs. tcbn.
  rewrite (bool_decide_true (n ∈ (t_held t).*1)) by (apply list_elem_of_fmap; by exists (n, i)).
  rewrite (unheld_perm n i (t_held t) Hnd Hin) at 2. rewrite filter_cons. cbn [fst].
  destruct (decide (n ∈ t_log t)) as [Hl|Hl].
  - rewrite bool_decide_true, decide_False by tauto. cbn [Z.b2z]. change (used (1 + 1)) with 1. change (used (1 + 1 - 1)) with 1. lia.
  - rewrite bool_decide_false, decide_True by done. cbn [Z.b2z]. change (used (0 + 1)) with 1.
    change (used (0 + 1 - 1)) with 0. cbn [length]. lia.
Qed.

Lemma t_used_enter n i t :
  NoDup (t_held t).*1 → (n, i) ∈ t_held t → t_used (t_enter n t) = t_used t.
Proof.
  intros Hnd Hin. unfold t_used, t_enter, add_block. tcbn. case_decide as Hl; [done|].
  rewrite (unheld_perm n i (t_held t) Hnd Hin), !filter_cons. cbn [fst].
  rewrite decide_False, decide_True by set_solver. rewrite length_app. cbn [length].
  assert (filter (λ x : Z * nat, x.1 ∉ t_log t ++ [n]) (unheld n (t_held t)) =
          filter (λ x : Z * nat, x.1 ∉ t_log t) (unheld n (t_held t))) as ->; [|lia].
  apply filter_ext_in. intros [m j] Hmj. apply elem_of_unheld in Hmj as [Hne _]. cbn. set_solver.
Qed.

Lemma t_used_bound t : t_used t ≤ Z.of_nat (length (t_log t) + length (t_held t)).
Proof. unfold t_used. pose proof (length_filter (λ x : Z * nat, x.1 ∉ t_log t) (t_held t)). lia. Qed.

Section tx.
Context (dv : Z) (p : nat) (start : Z).
Hypothesis Hdv : 0 ≤ dv < 2 ^ 32.

Definition t_view (s : kernel) (t : txn) : cview :=
  mk_cview (t_info (mypid p s) t) (disk s) (disk_writes s) (t_used t) (t_held t).

(** The thread is in a transaction, and nobody else uses the cache. *)
Record tx (s : kernel) (t : txn) : Prop := {
  tx_sees : sees dv p s s (t_view s t);
  tx_hdr : mem_hdr dv s start (t_log t);
  tx_range : Forall (λ b, 0 ≤ b < 2 ^ 31) (t_log t);
  tx_nodup : NoDup (t_log t);
  tx_held : NoDup (t_held t).*1;
  tx_out : 1 ≤ log_outstanding (klog s)
}.

(** What the operations leave alone: all but the buffers, the log's header and
    sleeping processes. *)
Definition fs_frame (s s' : kernel) : Prop :=
  cstep p (set_klog (klog s') s) s' ∧ same_log (klog s) (klog s') ∧
  disk s' = disk s ∧ disk_writes s' = disk_writes s.

Lemma fs_frame_refl s : fs_frame s s.
Proof. split; [|done]. assert (set_klog (klog s) s = s) as -> by by destruct s. apply cstep_refl. Qed.

Lemma fs_frame_trans s1 s2 s3 : fs_frame s1 s2 → fs_frame s2 s3 → fs_frame s1 s3.
Proof.
  intros (C1 & (L1 & L2 & L3) & D1 & W1) (C2 & (M1 & M2 & M3) & D2 & W2).
  split; [|split_and!; congruence || (split_and!; congruence)].
  assert (cstep p (set_klog (klog s3) s1) (set_klog (klog s3) s2)) as C3.
  { destruct C1 as [E W]. split; [|exact W]. rewrite E at 1. by destruct s1. }
  by eapply cstep_trans.
Qed.

Lemma fs_frame_inodes s s' : fs_frame s s' → inodes s' = inodes s.
Proof. intros [C _]. by rewrite (inodes_cstep p _ _ C). Qed.

Lemma fs_frame_sb s s' : fs_frame s s' → sb s' = sb s.
Proof. intros [C _]. by rewrite (sb_cstep p _ _ C). Qed.

(** An operation of the cache, in terms of the view. *)
Lemma tx_step s t s' t' :
  tx s t → sees dv p s s' (t_view s t') → t_log t' = t_log t → NoDup (t_held t').*1 →
  tx s' t' ∧ fs_frame s s'.
Proof.
  intros [H1 H2 H3 H4 H5 H6] Hs El Hh. pose proof (sees_klog _ _ _ _ _ Hs) as Ek. split.
  - split; rewrite ?El; try done.
    + destruct Hs as [A1 A2 A3 A4 A5 A6 A7 A8]. pose proof (mypid_cstep p s s' A2) as Ep.
      split; try done; [apply cstep_refl|]. intros m. rewrite A4. unfold t_view. vcbn. by rewrite Ep.
    + by apply (mem_hdr_klog dv s).
    + by rewrite Ek.
  - split; [|split; [by rewrite Ek|split; apply Hs]]. rewrite Ek.
    assert (set_klog (klog s) s = s) as -> by by destruct s. apply Hs.
Qed.

(** ** The operations *)

Lemma tx_bread s t n :
  tx s t → 0 ≤ n < 2 ^ 31 → n ∉ (t_held t).*1 → t_used t < Z.of_nat NBUF →
  runs (bread dv n) s (λ i s', tx s' (t_take n i t) ∧ fs_frame s s').
Proof using Hdv.
  intros Ht Hn Hh Hu. pose proof (tx_sees _ _ Ht) as Hs.
  assert (bi_refs (cv_info (t_view s t) n) = t_refs t n) as Er by done.
  assert (0 ≤ t_refs t n ≤ 1) as Hr.
  { unfold t_refs. rewrite (bool_decide_false (n ∈ (t_held t).*1)) by done. destruct (bool_decide _); cbn; lia. }
  eapply runs_mono; [apply (sees_bread dv p Hdv s s _ n Hs)|].
  - lia.
  - unfold t_view, t_info. vcbn. by rewrite bool_decide_false.
  - by right.
  - rewrite Er. lia.
  - intros i s' Hs'. cbv beta in Hs'. eapply tx_step; [exact Ht| |done|].
    + eapply sees_ext; [exact Hs'|..]; unfold t_view; vcbn; try done.
      * intros m. unfold set_at, t_info, t_refs. tcbn. rewrite fmap_cons. cbn [fst]. case_decide as E.
        -- subst m. rewrite (bool_decide_false (n ∈ (t_held t).*1)) by done. rewrite (bool_decide_true (n ∈ n :: _)) by left.
           f_equal. cbn. lia.
        -- by rewrite (bool_decide_ext (m ∈ n :: (t_held t).*1) (m ∈ (t_held t).*1)) by set_solver.
      * symmetry. by apply t_used_take.
    + tcbn. rewrite fmap_cons. constructor; [done|apply Ht].
Qed.

Lemma tx_bfield s t n i : tx s t → (n, i) ∈ t_held t → bfield i b_data s = Ret (t_data t n) s.
Proof. intros Ht Hin. exact (sees_data dv p s s _ n i (tx_sees _ _ Ht) Hin). Qed.

Lemma tx_length s t n : tx s t → length (t_data t n) = Z.to_nat BSIZE.
Proof. intros Ht. exact (sees_length dv p s s _ n (tx_sees _ _ Ht)). Qed.

(** A block that is neither logged nor held is as on the disk. *)
Lemma tx_clean s t n : tx s t → n ∉ t_log t → n ∉ (t_held t).*1 → t_data t n = dblock (disk s) n.
Proof.
  intros Ht Hl Hh. pose proof (sees_clean dv p s s _ n (tx_sees _ _ Ht)) as Hc. unfold t_view, t_info, t_refs in Hc. vcbn.
  revert Hc. vcbn. rewrite !bool_decide_false by done. intros Hc. by injection (Hc eq_refl).
Qed.

Lemma tx_bdata s t n i f :
  tx s t → (n, i) ∈ t_held t →
  (∀ l, length l = Z.to_nat BSIZE → length (f l) = Z.to_nat BSIZE) →
  runs (bdata i f) s (λ _ s', tx s' (t_put n (f (t_data t n)) t) ∧ fs_frame s s').
Proof.
  intros Ht Hin Hf. eapply runs_mono; [apply (sees_bdata dv p s s _ n i f (tx_sees _ _ Ht) Hin Hf)|].
  intros [] s' Hs'. cbv beta in Hs'. eapply tx_step; [exact Ht| |done|apply Ht].
  eapply sees_ext; [exact Hs'|..]; unfold t_view; vcbn; try done; [|unfold t_used; tcbn; lia].
  intros m. unfold set_at, t_info, t_refs. tcbn. by case_decide; [subst m; unfold set_at; rewrite decide_True|unfold set_at; rewrite decide_False].
Qed.

Lemma tx_brelse s t n i :
  tx s t → (n, i) ∈ t_held t → (n ∉ t_log t → t_data t n = dblock (disk s) n) →
  runs (brelse i) s (λ _ s', tx s' (t_drop n t) ∧ fs_frame s s').
Proof.
  intros Ht Hin Hc. pose proof (tx_held _ _ Ht) as Hnd.
  assert (n ∈ (t_held t).*1) as Hn by (apply list_elem_of_fmap; by exists (n, i)).
  eapply runs_mono; [apply (sees_brelse dv p s s _ n i (tx_sees _ _ Ht) Hin)|].
  - unfold t_view, t_info, t_refs. vcbn. rewrite (bool_decide_true (n ∈ (t_held t).*1)) by done.
    intros Hr. apply Hc. intros Hl. rewrite bool_decide_true in Hr by done. done.
  - intros [] s' Hs'. cbv beta in Hs'. eapply tx_step; [exact Ht| |done|by apply unheld_nodup].
    eapply sees_ext; [exact Hs'|..]; unfold t_view; vcbn; try done.
    + intros m. unfold set_at, t_info, t_refs. tcbn. case_decide as E.
      * subst m. rewrite (bool_decide_true (n ∈ (t_held t).*1)) by done.
        rewrite (bool_decide_false (n ∈ (unheld n (t_held t)).*1)) by (rewrite unheld_fst; tauto). f_equal. cbn. lia.
      * by rewrite (bool_decide_ext (m ∈ (unheld n (t_held t)).*1) (m ∈ (t_held t).*1)) by (rewrite unheld_fst; tauto).
    + symmetry. by eapply t_used_drop.
Qed.

(** Room for another block in the log. *)
Definition log_room (s : kernel) (t : txn) : Prop :=
  (length (t_log t) < 30)%nat ∧ Z.of_nat (length (t_log t)) < log_size (klog s) - 1.

Lemma tx_log_write s t n i :
  tx s t → (n, i) ∈ t_held t → log_room s t → 0 ≤ n < 2 ^ 31 →
  runs (log_write i) s (λ _ s', tx s' (t_enter n t) ∧ fs_frame s s').
Proof.
  intros Ht Hin [Hlen Hsz] Hn. pose proof Ht as [Hs Hm Hr Hnd Hh Ho].
  assert (n ∈ (t_held t).*1) as Hnh by (apply list_elem_of_fmap; by exists (n, i)).
  eapply runs_mono; [apply (log_write_runs dv p s start (t_log t) i n (se_thread _ _ _ _ _ Hs) Hm Hr); try done|].
  { pose proof (sees_blockno dv p s s _ n i Hs Hin) as E. unfold bfield, gets in E. by injection E. }
  intros [] s' ->. unfold log_write_state. case_decide as Hd.
  { split; [|apply fs_frame_refl]. assert (t_enter n t = t) as ->; [|done].
    unfold t_enter, add_block. rewrite decide_True by done. by destruct t. }
  destruct (sees_bpin dv p s s _ n i Hs Hin) as ([] & s2 & E & Hs2).
  { unfold t_view, t_info, t_refs. vcbn. rewrite bool_decide_false, bool_decide_true by done. cbn. lia. }
  rewrite (bpin_eq p s i (se_thread _ _ _ _ _ Hs)) in E. injection E as <-.
  set (f := λ lg : log, _). assert (t_log (t_enter n t) = t_log t ++ [n]) as El
    by (unfold t_enter, add_block; tcbn; by rewrite decide_False).
  assert (∀ m, m ∈ t_log t ++ [n] ↔ m = n ∨ m ∈ t_log t) as Hmem by set_solver.
  split; [split; rewrite ?El|].
  - apply sees_log. eapply sees_rebase, sees_ext; [exact Hs2|..]; unfold t_view; vcbn; try done.
    + intros m. unfold set_at, t_info, t_refs. rewrite El. tcbn. case_decide as E.
      * subst m. rewrite (bool_decide_false (n ∈ t_log t)), !(bool_decide_true (n ∈ (t_held t).*1)) by done.
        rewrite bool_decide_true by (apply Hmem; by left). done.
      * by rewrite (bool_decide_ext (m ∈ t_log t ++ [n]) (m ∈ t_log t)) by (rewrite Hmem; tauto).
    + symmetry. rewrite (t_used_enter n i) by done. unfold t_info, t_refs. vcbn.
      rewrite bool_decide_false, bool_decide_true by done. cbn [Z.b2z]. change (used (0 + 1)) with 1. change (used (0 + 1 + 1)) with 1. lia.
  - destruct Hm as [M1 M2 M3 M4 M5]. split; cbn; [done|done| | |by rewrite length_insert].
    + rewrite length_app. cbn. lia.
    + rewrite length_app. cbn. rewrite Nat.add_1_r. erewrite take_S_r by (apply list_lookup_insert_eq; lia).
      by rewrite take_insert_ge, M4 by lia.
  - apply Forall_app_2; [done|]. by apply Forall_singleton.
  - apply NoDup_app. split_and!; [done| |apply NoDup_singleton]. intros x Hx ->%list_elem_of_singleton. done.
  - done.
  - done.
  - split; [|split_and!; done]. split; [by destruct s|apply procs_wake_refl].
Qed.

(** ** Whole accesses *)

(** Block [n] rewritten and logged. *)
Definition t_write (n : Z) (d : list Z) (t : txn) : txn :=
  mk_txn (set_at n d (t_data t)) (add_block n (t_log t)) (t_held t).

(** Room for [k] more blocks in the log, and for their buffers in the cache. *)
Definition budget (s : kernel) (t : txn) (k : nat) : Prop :=
  Z.of_nat (length (t_log t) + k) ≤ log_size (klog s) - 1 ∧ (length (t_log t) + length (t_held t) + k < NBUF)%nat.

Lemma add_block_length n bs : (length bs ≤ length (add_block n bs) ≤ length bs + 1)%nat.
Proof. unfold add_block. case_decide; [lia|]. rewrite length_app. cbn. lia. Qed.

Lemma budget_write s s' n d t k :
  same_log (klog s) (klog s') → budget s t (S k) → budget s' (t_write n d t) k.
Proof.
  intros (E & _) [H1 H2]. unfold budget, t_write. tcbn. rewrite E. pose proof (add_block_length n (t_log t)). lia.
Qed.

Lemma budget_mono s s' t k k' : same_log (klog s) (klog s') → budget s t k → (k' ≤ k)%nat → budget s' t k'.
Proof. intros (E & _) [H1 H2] Hk. unfold budget. rewrite E. lia. Qed.

Lemma budget_used s t k : budget s t k → t_used t < Z.of_nat NBUF.
Proof. intros [_ H]. pose proof (t_used_bound t). lia. Qed.

Lemma budget_take s t k n i : budget s t (S k) → budget s (t_take n i t) k.
Proof. intros [H1 H2]. split; tcbn; [lia|]. cbn [length]. lia. Qed.

(** A block that has been read is let go as it was. *)
Lemma tx_release s s1 t n i :
  tx s t → n ∉ (t_held t).*1 → tx s1 (t_take n i t) → disk s1 = disk s →
  runs (brelse i) s1 (λ _ s2, tx s2 t ∧ fs_frame s1 s2).
Proof.
  intros Ht Hn Ht1 Ed. eapply runs_mono; [apply (tx_brelse s1 _ n i Ht1); [by left|]|].
  - tcbn. intros Hl. rewrite Ed. by apply tx_clean.
  - intros [] s2 [H2 F2]. split; [|done]. assert (t_drop n (t_take n i t) = t) as E; [|by rewrite E in H2].
    unfold t_drop, t_take. tcbn. rewrite unheld_cons by done. by destruct t.
Qed.

(** A block that is held is changed, logged and let go. *)
Lemma tx_commit s t n i d k :
  tx s (t_put n d (t_take n i t)) → n ∉ (t_held t).*1 → 0 ≤ n < 2 ^ 31 → budget s t (S k) →
  runs (log_write i ;;; brelse i) s (λ _ s2, tx s2 (t_write n d t) ∧ fs_frame s s2).
Proof.
  intros Ht Hn Hr [B1 B2]. apply runs_bind. eapply runs_mono; [apply (tx_log_write s _ n i Ht)|].
  - by left.
  - unfold log_room. tcbn. change NBUF with 30%nat in B2. split; lia.
  - done.
  - intros [] s1 [H1 F1]. cbv beta. eapply runs_mono; [apply (tx_brelse s1 _ n i H1); [by left|]|].
    + tcbn. unfold add_block. case_decide; [done|]. intros []. set_solver.
    + intros [] s2 [H2 F2]. split; [|by eapply fs_frame_trans].
      assert (t_drop n (t_enter n (t_put n d (t_take n i t))) = t_write n d t) as E; [|by rewrite E in H2].
      unfold t_drop, t_enter, t_put, t_take, t_write. tcbn. by rewrite unheld_cons.
Qed.

(** A block is read, changed, logged and let go. *)
Lemma tx_modify s t n f k :
  tx s t → 0 ≤ n < 2 ^ 31 → n ∉ (t_held t).*1 → budget s t (S k) →
  (∀ l, length l = Z.to_nat BSIZE → length (f l) = Z.to_nat BSIZE) →
  runs (let! bp := bread dv n in bdata bp f ;;; log_write bp ;;; brelse bp) s
    (λ _ s', tx s' (t_write n (f (t_data t n)) t) ∧ fs_frame s s').
Proof using Hdv.
  intros Ht Hr Hn Hb Hf. apply runs_bind.
  eapply runs_mono; [apply (tx_bread s t n Ht Hr Hn); by eapply budget_used|]. intros i s1 [H1 F1]. cbv beta.
  apply runs_bind. eapply runs_mono; [apply (tx_bdata s1 _ n i f H1); [by left|done]|]. intros [] s2 [H2 F2]. cbv beta.
  assert (fs_frame s s2) as F by by eapply fs_frame_trans.
  eapply runs_mono; [apply (tx_commit s2 t n i _ k H2 Hn Hr)|].
  - eapply budget_mono; [apply F|exact Hb|done].
  - intros [] s3 [H3 F3]. split; [done|by eapply fs_frame_trans].
Qed.

End tx.
