(* ===== verification/FsAlloc.v ===== *)
(** * The block allocator

    [balloc] and [bfree] on the bitmap, inside a transaction. *)

From S2P Require Import Prelude Machine Memory Kstring State Spinlock Sched Runs Sleeplock Block Bio Cache.
From S2P Require Import CacheOps CacheLogic Log LogSpec LogOps Fs FsLogic.

(** The bit of block [b] in the bitmap. *)
Definition bit_of (sbk : superblock) (D : Z → list Z) (b : Z) : bool :=
  Z.testbit (D (BBLOCK b sbk) !!! Z.to_nat (b `mod` BPB / 8)) (b `mod` 8).

(** The bitmap block of [b] with its bit set, or cleared. *)
Definition bit_set (b : Z) (d : list Z) : list Z :=
  let i := Z.to_nat (b `mod` BPB / 8) in <[i := Z.lor (d !!! i) (Z.shiftl 1 (b `mod` 8))]> d.
Definition bit_clear (b : Z) (d : list Z) : list Z :=
  let i := Z.to_nat (b `mod` BPB / 8) in <[i := Z.land (d !!! i) (u8 (Z.lnot (Z.shiftl 1 (b `mod` 8))))]> d.

Definition zero_block : list Z := replicate (Z.to_nat BSIZE) 0.

(** Sizes of a file system that fits. *)
Record sb_ok (sbk : superblock) : Prop := {
  so_size : 0 < sb_size sbk < 2 ^ 31 - BPB;
  so_bmap : 0 ≤ sb_bmapstart sbk;
  so_end : sb_bmapstart sbk + sb_size sbk / BPB < 2 ^ 31
}.

Lemma land_shiftl_eqb x k : 0 ≤ k → (Z.land x (Z.shiftl 1 k) =? 0) = negb (Z.testbit x k).
Proof.
  intros Hk. assert (Z.testbit (Z.land x (Z.shiftl 1 k)) k = Z.testbit x k) as Ek.
  { rewrite Z.land_spec, Z.shiftl_1_l, Z.pow2_bits_true by done. apply andb_true_r. }
  destruct (Z.eqb_spec (Z.land x (Z.shiftl 1 k)) 0) as [E|E].
  - rewrite E, Z.bits_0 in Ek. by rewrite <- Ek.
  - destruct (Z.testbit x k) eqn:Et; [done|]. exfalso. apply E. apply Z.bits_inj'. intros n Hn.
    rewrite Z.land_spec, Z.shiftl_1_l, Z.bits_0, Z.pow2_bits_eqb by done. destruct (Z.eqb_spec k n) as [->|]; [by rewrite Et|].
    apply andb_false_r.
Qed.

Lemma bblock_range sbk b : sb_ok sbk → 0 ≤ b < sb_size sbk → 0 ≤ BBLOCK b sbk < 2 ^ 31 ∧ BBLOCK b sbk = b / BPB + sb_bmapstart sbk.
Proof.
  intros [H1 H2 H3] Hb. unfold BBLOCK.
  assert (0 ≤ b / BPB ≤ sb_size sbk / BPB) by (split; [apply Z.div_pos; unfold BPB, BSIZE; lia|apply Z.div_le_mono; unfold BPB, BSIZE; lia]).
  rewrite u32_small by lia. lia.
Qed.

(** The bits of one bitmap block. *)
Lemma bit_in_block b bi : 0 ≤ bi < BPB → b `mod` BPB = 0 →
  (b + bi) `mod` BPB = bi ∧ (b + bi) / BPB = b / BPB ∧ (b + bi) `mod` 8 = bi `mod` 8.
Proof.
  intros Hbi Hb. assert (b = BPB * (b / BPB)) as E by (pose proof (Z.div_mod b BPB ltac:(unfold BPB, BSIZE; lia)); lia).
  set (q := b / BPB) in *. rewrite E. split_and!.
  - rewrite Z.add_comm, Z.mul_comm, Z.mod_add by (unfold BPB, BSIZE; lia). by apply Z.mod_small.
  - rewrite Z.mul_comm, Z.div_add_l by (unfold BPB, BSIZE; lia). rewrite (Z.div_small bi) by done. lia.
  - replace (BPB * q + bi) with (bi + (1024 * q) * 8) by (unfold BPB, BSIZE; lia). by rewrite Z.mod_add.
Qed.

Lemma bit_at sbk D b bi :
  0 ≤ bi < BPB → b `mod` BPB = 0 →
  bit_of sbk D (b + bi) = Z.testbit (D (BBLOCK b sbk) !!! Z.to_nat (bi / 8)) (bi `mod` 8).
Proof.
  intros Hbi Hb. destruct (bit_in_block b bi Hbi Hb) as (E1 & E2 & E3). unfold bit_of, BBLOCK. by rewrite E1, E2, E3.
Qed.

Section alloc.
Context (dv : Z) (p : nat) (start : Z).
Hypothesis Hdv : 0 ≤ dv < 2 ^ 32.
Abbreviation tx := (tx dv p start).
Abbreviation fs_frame := (fs_frame p).

(** The scan of a bitmap block. *)
Lemma balloc_bit_loop s t b i :
  tx s t → sb_ok (sb s) → 0 ≤ b < sb_size (sb s) → b `mod` BPB = 0 → (BBLOCK b (sb s), i) ∈ t_held t →
  let bit := bit_of (sb s) (t_data t) in
  runs (loop (balloc_bit i b) 0) s (λ r s', s' = s ∧
    match r with
    | Some bi => 0 ≤ bi < BPB ∧ b + bi < sb_size (sb s) ∧ bit (b + bi) = false ∧
                 ∀ c, b ≤ c < b + bi → bit c = true
    | None => ∀ c, b ≤ c < sb_size (sb s) → c < b + BPB → bit c = true
    end).
Proof.
  intros Ht Hsb Hb Hm Hin bit.
  apply (runs_loop (λ bi s', s' = s ∧ 0 ≤ bi ≤ BPB ∧ ∀ c, b ≤ c < b + bi → bit c = true) (λ bi, Z.to_nat (BPB - bi))).
  - unfold BPB, BSIZE. lia.
  - split; [done|]. split; [unfold BPB, BSIZE; lia|lia].
  - intros bi s' (-> & Hbi & Hset). unfold balloc_bit. apply runs_gets. cbv beta.
    destruct (Z.ltb_spec bi BPB) as [H1|H1]; [destruct (Z.ltb_spec (b + bi) (sb_size (sb s))) as [H2|H2]|]; cbn [andb].
    + eapply runs_eq; [by eapply tx_bfield|]. rewrite land_shiftl_eqb by (apply Z.mod_pos_bound; lia).
      pose proof (bit_at (sb s) (t_data t) b bi ltac:(lia) Hm) as Eb. fold bit in Eb. rewrite <- Eb.
      destruct (bit (b + bi)) eqn:E; cbn [negb]; apply runs_ret.
      * split; [|lia]. split; [done|]. split; [lia|]. intros c Hc. destruct (decide (c = b + bi)) as [->|]; [done|]. apply Hset. lia.
      * split; [done|]. split; [lia|]. done.
    + apply runs_ret. split; [done|]. intros c Hc1 Hc2. apply Hset. lia.
    + apply runs_ret. split; [done|]. intros c Hc1 Hc2. apply Hset. lia.
Qed.

(** What is held is in use, and is not a block of the bitmap. *)
Definition held_ok (s : kernel) (t : txn) : Prop :=
  ∀ n, n ∈ (t_held t).*1 →
    (0 ≤ n < sb_size (sb s) → bit_of (sb s) (t_data t) n = true) ∧
    (∀ b, 0 ≤ b < sb_size (sb s) → n ≠ BBLOCK b (sb s)).

(** Block [c] taken: its bit set and its contents zeroed. *)
Definition t_alloc (sbk : superblock) (c : Z) (t : txn) : txn :=
  t_write c zero_block (t_write (BBLOCK c sbk) (bit_set c (t_data t (BBLOCK c sbk))) t).

Lemma bzero_runs s t n k :
  tx s t → 0 ≤ n < 2 ^ 31 → n ∉ (t_held t).*1 → budget s t (S k) →
  runs (bzero dv n) s (λ _ s', tx s' (t_write n zero_block t) ∧ fs_frame s s').
Proof using Hdv.
  intros Ht Hn Hh Hb. apply (tx_modify dv p start Hdv s t n (λ _, zero_block) k); try done.
Qed.

Lemma length_bit_set b d : length (bit_set b d) = length d.
Proof. apply length_insert. Qed.

Lemma runs_seq {A} (c1 c2 : K unit) (k : K A) s Q :
  runs (c1 ;;; c2) s (λ _ s', runs k s' Q) → runs (c1 ;;; c2 ;;; k) s Q.
Proof.
  intros ([] & s' & E & HQ). apply runs_Ret in HQ as (a & s2 & E2 & HQ). exists a, s2. split; [|done].
  revert E. unfold bind. destruct (c1 s) as [[] s1| | |]; cbn; [|done..]. destruct (c2 s1) as [[] s3| | |]; cbn; [|done..].
  intros E. injection E as <-. done.
Qed.

(** Taking the block that has been found. *)
Lemma balloc_take {A} (r : A) s t b bi i k :
  tx s (t_take (BBLOCK b (sb s)) i t) → sb_ok (sb s) → 0 ≤ b → b `mod` BPB = 0 → 0 ≤ bi < BPB →
  b + bi < sb_size (sb s) → bit_of (sb s) (t_data t) (b + bi) = false → held_ok s t → budget s t (S (S k)) →
  runs (bdata i (λ data, <[Z.to_nat (bi / 8) := Z.lor (data !!! Z.to_nat (bi / 8)) (Z.shiftl 1 (bi `mod` 8))]> data) ;;;
        log_write i ;;; brelse i ;;; bzero dv (b + bi) ;;; ret r) s
    (λ r' s', r' = r ∧ tx s' (t_alloc (sb s) (b + bi) t) ∧ fs_frame s s').
Proof using Hdv.
  intros Ht Hsb Hb Hm Hbi Hlt Hfree Hh Hbu. destruct (bit_in_block b bi Hbi Hm) as (E1 & E2 & E3).
  assert (BBLOCK (b + bi) (sb s) = BBLOCK b (sb s)) as EB by (unfold BBLOCK; by rewrite E2).
  destruct (bblock_range (sb s) (b + bi) Hsb ltac:(lia)) as [Hr _]. rewrite EB in Hr.
  assert (BBLOCK b (sb s) ∉ (t_held t).*1) as Hnb.
  { intros Hin. destruct (Hh _ Hin) as [_ Hno]. apply (Hno (b + bi)); [lia|]. by rewrite EB. }
  apply runs_bind. eapply runs_mono; [apply (tx_bdata dv p start s _ (BBLOCK b (sb s)) i _ Ht); [by left|]|].
  { intros l Hl. by rewrite length_insert. }
  intros [] s1 [H1 F1]. cbv beta. tcbn.
  assert (t_put (BBLOCK b (sb s)) (bit_set (b + bi) (t_data t (BBLOCK b (sb s)))) (t_take (BBLOCK b (sb s)) i t) =
    t_put (BBLOCK b (sb s)) (<[Z.to_nat (bi / 8):=Z.lor (t_data t (BBLOCK b (sb s)) !!! Z.to_nat (bi / 8))
      (Z.shiftl 1 (bi `mod` 8))]> (t_data t (BBLOCK b (sb s)))) (t_take (BBLOCK b (sb s)) i t)) as Ep
    by (unfold bit_set; by rewrite E1, E3).
  cbn [t_take t_data] in H1. rewrite <- Ep in H1.
  apply (runs_seq (log_write i) (brelse i)). eapply runs_mono; [eapply (tx_commit dv p start Hdv s1 t (BBLOCK b (sb s)) i _ (S k) H1 Hnb Hr); eapply budget_mono; [apply F1|exact Hbu|lia]|].
  intros [] s2 [H2 F2]. cbv beta. assert (fs_frame s s2) as F by by eapply fs_frame_trans.
  apply runs_bind. eapply runs_mono; [apply (bzero_runs s2 _ (b + bi) k H2)|].
  - destruct Hsb as [? _ _]. lia.
  - intros Hin. destruct (Hh _ Hin) as [Hset _]. rewrite Hset in Hfree; [done|lia].
  - eapply budget_write; [apply F|exact Hbu].
  - intros [] s3 [H3 F3]. cbv beta. apply runs_ret. split; [done|]. split; [|by eapply fs_frame_trans]. unfold t_alloc. by rewrite EB.
Qed.

(** The first free block is taken, or there is none. *)
Lemma balloc_runs s t k :
  tx s t → sb_ok (sb s) → held_ok s t → budget s t (S (S k)) →
  let bit := bit_of (sb s) (t_data t) in
  runs (loop (balloc_step dv) 0) s (λ r s', fs_frame s s' ∧
    match r with
    | Some b => 0 ≤ b < sb_size (sb s) ∧ bit b = false ∧ (∀ c, 0 ≤ c < b → bit c = true) ∧
                tx s' (t_alloc (sb s) b t)
    | None => (∀ c, 0 ≤ c < sb_size (sb s) → bit c = true) ∧ tx s' t
    end).
Proof using Hdv.
  intros Ht Hsb Hh Hbu bit. pose proof (so_size _ Hsb) as Hsz. unfold BPB, BSIZE in Hsz.
  apply (runs_loop (λ b s', fs_frame s s' ∧ tx s' t ∧ b `mod` BPB = 0 ∧ 0 ≤ b ∧
      ∀ c, 0 ≤ c < b → c < sb_size (sb s) → bit c = true) (λ b, Z.to_nat (sb_size (sb s) + BPB - b))).
  - unfold BPB, BSIZE. lia.
  - split; [apply fs_frame_refl|]. split_and!; try done. lia.
  - clear Ht. intros b s1 (F1 & Ht & Hm & Hb & Hset). unfold balloc_step. apply runs_gets. cbv beta.
    pose proof (fs_frame_sb p s s1 F1) as Esb. rewrite Esb.
    destruct (Z.ltb_spec b (sb_size (sb s))) as [Hlt|Hge].
    2:{ apply runs_ret. split; [done|]. split; [|done]. intros c Hc. apply Hset; lia. }
    destruct (bblock_range (sb s) b Hsb ltac:(lia)) as [Hr _].
    assert (BBLOCK b (sb s) ∉ (t_held t).*1) as Hnb.
    { intros Hin. destruct (Hh _ Hin) as [_ Hno]. by apply (Hno b); [lia|]. }
    assert (budget s1 t (S (S k))) as Hbu1 by (eapply budget_mono; [apply F1|exact Hbu|lia]).
    apply runs_bind. eapply runs_mono; [apply (tx_bread dv p start Hdv s1 t _ Ht Hr Hnb); by eapply budget_used|].
    intros i s2 [H2 F2]. cbv beta. assert (fs_frame s s2) as F by by eapply fs_frame_trans.
    pose proof (fs_frame_sb p s s2 F) as Esb2.
    apply runs_bind. eapply runs_mono; [apply (balloc_bit_loop s2 _ b i H2); rewrite ?Esb2; [done|lia|done|by left]|].
    rewrite Esb2. intros [bi|] s3 [-> Hbi]; cbv beta.
    + destruct Hbi as (Hbi & Hlt2 & Hf & Hall). cbv zeta.
      eapply runs_mono; [apply (balloc_take (inr (Some (b + bi))) s2 t b bi i k)|]; rewrite ?Esb2; try done.
      * intros n Hn. unfold held_ok in Hh. rewrite Esb2. by apply Hh.
      * eapply budget_mono; [apply F|exact Hbu|lia].
      * intros r s4 [-> [H4 F4]]. split; [by eapply fs_frame_trans|]. split; [lia|]. split; [done|]. split; [|done].
        intros c Hc. destruct (decide (c < b)); [apply Hset; lia|apply Hall; lia].
    + apply runs_bind. eapply runs_mono; [apply (tx_release dv p start Hdv s1 s2 t (BBLOCK b (sb s)) i Ht Hnb H2); apply F2|].
      intros [] s4 [H4 F4]. cbv beta. apply runs_ret. split; [|unfold BPB, BSIZE in *; lia].
      split; [by eapply fs_frame_trans|]. split; [done|].
      split; [by rewrite <- Z.add_mod_idemp_l, Hm by (unfold BPB, BSIZE; lia)|]. split; [unfold BPB, BSIZE in *; lia|].
      intros c Hc Hc2. destruct (decide (c < b)); [apply Hset; lia|]. apply Hbi; lia.
Qed.

Lemma balloc_eq s t k :
  tx s t → sb_ok (sb s) → held_ok s t → budget s t (S (S k)) →
  let bit := bit_of (sb s) (t_data t) in
  (∃ b s', balloc dv s = Ret b s' ∧ fs_frame s s' ∧ tx s' (t_alloc (sb s) b t) ∧ 0 ≤ b < sb_size (sb s) ∧
     bit b = false ∧ ∀ c, 0 ≤ c < b → bit c = true) ∨
  (balloc dv s = Panic "balloc: out of blocks" ∧ ∀ c, 0 ≤ c < sb_size (sb s) → bit c = true).
Proof using Hdv.
  intros Ht Hsb Hh Hbu bit. destruct (balloc_runs s t k Ht Hsb Hh Hbu) as ([b|] & s' & E & F & Hr).
  - left. destruct Hr as (H1 & H2 & H3 & H4). exists b, s'. split_and!; try done; try lia.
    unfold balloc. by run E.
  - right. destruct Hr as (H1 & H2). split; [|done]. unfold balloc. by run E.
Qed.

End alloc.
