(* ===== verification/FsFile.v ===== *)
(** * The contents of files

    A file is the sequence of bytes that its inode's block addresses lead to.
    [bmap] leaves the contents of all files as they are, whether it allocates or
    not, and [readi] and [writei] read and write exactly the bytes they are
    asked for. *)

From S2P Require Import Prelude Machine Memory Kstring State Spinlock Sched Runs Sleeplock Block Bio Cache.
From S2P Require Import CacheOps CacheLogic Log LogSpec LogOps Fs FsLogic FsAlloc.

(** ** The layout of the disk *)

(** Blocks of the bitmap and of inodes. *)
Definition meta (sbk : superblock) (b : Z) : Prop :=
  (∃ c, 0 ≤ c < sb_size sbk ∧ b = BBLOCK c sbk) ∨ (∃ j, 0 ≤ j < sb_ninodes sbk ∧ b = IBLOCK j sbk).

(** The bitmap marks block 0 and the blocks of the file system's own. *)
Record fs_ok (sbk : superblock) (D : Z → list Z) : Prop := {
  fk_sb : sb_ok sbk;
  fk_len : ∀ b, length (D b) = Z.to_nat BSIZE;
  fk_zero : bit_of sbk D 0 = true;
  fk_meta : ∀ b, meta sbk b → 0 ≤ b < sb_size sbk → bit_of sbk D b = true;
  fk_disj : ∀ c j, 0 ≤ c < sb_size sbk → 0 ≤ j < sb_ninodes sbk → IBLOCK j sbk ≠ BBLOCK c sbk;
  fk_istart : 0 ≤ sb_inodestart sbk ∧ sb_inodestart sbk + sb_ninodes sbk / IPB < 2 ^ 31
}.

Lemma iblock_range sbk D j :
  fs_ok sbk D → 0 ≤ j < sb_ninodes sbk → 0 ≤ IBLOCK j sbk < 2 ^ 31 ∧ IBLOCK j sbk = j / IPB + sb_inodestart sbk.
Proof.
  intros Hf Hj. destruct (fk_istart _ _ Hf) as [H1 H2]. unfold IBLOCK. change IPB with 16 in *.
  assert (0 ≤ j / 16 ≤ sb_ninodes sbk / 16) by (split; [apply Z.div_pos; lia|apply Z.div_le_mono; lia]).
  rewrite u32_small by lia. lia.
Qed.

(** Inodes in the same block lie apart. *)
Lemma dinode_apart sbk D i j :
  fs_ok sbk D → 0 ≤ i < sb_ninodes sbk → 0 ≤ j < sb_ninodes sbk → i ≠ j → IBLOCK i sbk = IBLOCK j sbk →
  (dinode_off i + 64 ≤ dinode_off j ∨ dinode_off j + 64 ≤ dinode_off i)%nat.
Proof.
  intros Hf Hi Hj Hne E. destruct (iblock_range _ _ i Hf Hi) as [_ E1]. destruct (iblock_range _ _ j Hf Hj) as [_ E2].
  unfold dinode_off, sizeof_dinode. change IPB with 16 in *. assert (i / 16 = j / 16) as Eq by lia.
  pose proof (Z.div_mod i 16 ltac:(lia)). pose proof (Z.div_mod j 16 ltac:(lia)).
  pose proof (Z.mod_pos_bound i 16 ltac:(lia)). pose proof (Z.mod_pos_bound j 16 ltac:(lia)). lia.
Qed.

Lemma dinode_fits i : (dinode_off i + 64 ≤ Z.to_nat BSIZE)%nat.
Proof.
  unfold dinode_off, sizeof_dinode. change IPB with 16. change (Z.to_nat BSIZE) with 1024%nat.
  pose proof (Z.mod_pos_bound i 16 ltac:(lia)). lia.
Qed.

Lemma meta_bblock sbk c : 0 ≤ c < sb_size sbk → meta sbk (BBLOCK c sbk).
Proof. intros Hc. left. by exists c. Qed.

Lemma free_not_meta sbk D c : fs_ok sbk D → 0 ≤ c < sb_size sbk → bit_of sbk D c = false → ¬ meta sbk c.
Proof. intros Hf Hc Hb Hm. by rewrite (fk_meta _ _ Hf c Hm Hc) in Hb. Qed.

(** A block of the bitmap is changed at one bit. *)
Lemma bit_index b c :
  0 ≤ b → 0 ≤ c → b / BPB = c / BPB → b `mod` BPB / 8 = c `mod` BPB / 8 → b `mod` 8 = c `mod` 8 → b = c.
Proof.
  intros Hb Hc E1 E2 E3. unfold BPB, BSIZE in *.
  assert (∀ x, 0 ≤ x → x `mod` (1024 * 8) `mod` 8 = x `mod` 8) as Hm.
  { intros x _. apply Z.mod_mod_divide. by exists 1024. }
  pose proof (Hm b Hb) as Hmb. pose proof (Hm c Hc) as Hmc.
  pose proof (Z.div_mod b (1024 * 8) ltac:(lia)). pose proof (Z.div_mod c (1024 * 8) ltac:(lia)).
  pose proof (Z.div_mod (b `mod` (1024 * 8)) 8 ltac:(lia)). pose proof (Z.div_mod (c `mod` (1024 * 8)) 8 ltac:(lia)).
  lia.
Qed.

Lemma byte_index b : 0 ≤ b → (Z.to_nat (b `mod` BPB / 8) < Z.to_nat BSIZE)%nat.
Proof.
  intros Hb. pose proof (Z.mod_pos_bound b BPB ltac:(unfold BPB, BSIZE; lia)) as Hm.
  assert (b `mod` BPB / 8 < BSIZE) by (apply Z.div_lt_upper_bound; unfold BPB in *; lia).
  assert (0 ≤ b `mod` BPB / 8) by (apply Z.div_pos; lia). lia.
Qed.

Lemma testbit_set b c d :
  0 ≤ b → 0 ≤ c → length d = Z.to_nat BSIZE → b / BPB = c / BPB →
  Z.testbit (bit_set c d !!! Z.to_nat (b `mod` BPB / 8)) (b `mod` 8) =
  if decide (b = c) then true else Z.testbit (d !!! Z.to_nat (b `mod` BPB / 8)) (b `mod` 8).
Proof.
  intros Hb Hc Hl Eq. unfold bit_set. pose proof (byte_index c Hc) as Hi.
  assert (0 ≤ c `mod` 8 < 8) as Hc8 by (apply Z.mod_pos_bound; lia).
  destruct (decide (Z.to_nat (b `mod` BPB / 8) = Z.to_nat (c `mod` BPB / 8))) as [E|E].
  - rewrite E, list_lookup_total_insert_eq by lia. rewrite Z.lor_spec, Z.shiftl_1_l, Z.pow2_bits_eqb by lia.
    case_decide as Ebc; [subst; by rewrite Z.eqb_refl, orb_true_r|].
    rewrite (proj2 (Z.eqb_neq _ _)); [by rewrite orb_false_r|]. intros E8. apply Ebc. apply bit_index; try done.
    apply (f_equal Z.of_nat) in E. rewrite !Z2Nat.id in E; [done|..]; (apply Z.div_pos; [|lia]; apply Z.mod_pos_bound; unfold BPB, BSIZE; lia).
  - rewrite list_lookup_total_insert_ne by done. case_decide as Ebc; [|done]. by subst.
Qed.

(** The bitmap after a block has been taken. *)
Lemma bit_alloc sbk t c b :
  fs_ok sbk (t_data t) → 0 ≤ c < sb_size sbk → bit_of sbk (t_data t) c = false → 0 ≤ b < sb_size sbk →
  bit_of sbk (t_data (t_alloc sbk c t)) b = if decide (b = c) then true else bit_of sbk (t_data t) b.
Proof.
  intros Hf Hc Hfree Hb. assert (BBLOCK b sbk ≠ c) as Hne.
  { intros E. apply (free_not_meta sbk _ c Hf Hc Hfree). rewrite <- E. by apply meta_bblock. }
  unfold bit_of at 1, t_alloc, t_write. tcbn. rewrite set_at_ne by done. unfold set_at.
  destruct (bblock_range sbk b (fk_sb _ _ Hf) Hb) as [_ Eb]. destruct (bblock_range sbk c (fk_sb _ _ Hf) Hc) as [_ Ec].
  case_decide as E.
  - rewrite testbit_set; [|lia|lia|apply Hf|lia]. case_decide; [done|]. unfold bit_of. by rewrite E.
  - case_decide as Ebc; [by subst|done].
Qed.

(** What allocation leaves alone. *)
Lemma data_alloc sbk t c b :
  0 ≤ c < sb_size sbk → b ≠ c → ¬ meta sbk b → t_data (t_alloc sbk c t) b = t_data t b.
Proof.
  intros Hc Hbc Hm. unfold t_alloc, t_write. tcbn. rewrite !set_at_ne; [done| |done].
  intros ->. by apply Hm, meta_bblock.
Qed.

Lemma fs_ok_alloc sbk t c :
  fs_ok sbk (t_data t) → 0 ≤ c < sb_size sbk → bit_of sbk (t_data t) c = false →
  fs_ok sbk (t_data (t_alloc sbk c t)).
Proof.
  intros Hf Hc Hfree. pose proof (bit_alloc sbk t c) as Hbit. destruct Hf as [F1 F2 F3 F4 F5 F6]. split; [done|..|done|done].
  - intros b. unfold t_alloc, t_write. tcbn. unfold set_at. repeat case_decide; [done|by rewrite length_bit_set|done].
  - rewrite Hbit by (done || lia). by case_decide.
  - intros b Hm Hb. rewrite Hbit by (done || lia). case_decide; [done|]. by apply F4.
Qed.

(** A data block is rewritten. *)
Lemma bit_write sbk t a d b :
  ¬ meta sbk a → 0 ≤ b < sb_size sbk → bit_of sbk (t_data (t_write a d t)) b = bit_of sbk (t_data t) b.
Proof.
  intros Hm Hb. unfold bit_of, t_write. tcbn. rewrite set_at_ne; [done|]. intros <-. by apply Hm, meta_bblock.
Qed.

Lemma fs_ok_write sbk t a d :
  fs_ok sbk (t_data t) → ¬ meta sbk a → 0 < sb_size sbk → length d = Z.to_nat BSIZE → fs_ok sbk (t_data (t_write a d t)).
Proof.
  intros [F1 F2 F3 F4 F5 F6] Hm Hsz Hd. split; [done|..|done|done].
  - intros b. unfold t_write. tcbn. unfold set_at. by case_decide.
  - rewrite bit_write by (done || lia). done.
  - intros b Hmb Hb. rewrite bit_write by done. by apply F4.
Qed.

(** ** The blocks of a file *)

(** Where the addresses [l] of an inode lead: [None] is the indirect block, and
    [Some bn] the block [bn] of the file. *)
Definition addr (D : Z → list Z) (l : list Z) (x : option Z) : Z :=
  match x with
  | None => l !!! 12%nat
  | Some bn =>
      if bn <? NDIRECT then l !!! Z.to_nat bn
      else if l !!! 12%nat =? 0 then 0 else get32 (D (l !!! 12%nat)) (Z.to_nat (4 * (bn - NDIRECT)))
  end.

Definition valid (x : option Z) : Prop := match x with None => True | Some bn => 0 ≤ bn < MAXFILE end.

(** Byte [k] of a file; where there is no block it is zero. *)
Definition fbyte (D : Z → list Z) (l : list Z) (k : Z) : Z :=
  let a := addr D l (Some (k / BSIZE)) in if a =? 0 then 0 else D a !!! Z.to_nat (k `mod` BSIZE).

(** The blocks of a file are its own, in use, and there is one for every byte
    of the file. *)
Record file_ok (sbk : superblock) (D : Z → list Z) (l : list Z) (size : Z) : Prop := {
  fl_len : length l = 13%nat;
  fl_range : ∀ x, valid x → addr D l x ≠ 0 →
    0 < addr D l x < sb_size sbk ∧ bit_of sbk D (addr D l x) = true ∧ ¬ meta sbk (addr D l x);
  fl_inj : ∀ x y, valid x → valid y → addr D l x = addr D l y → addr D l x ≠ 0 → x = y;
  fl_size : 0 ≤ size ≤ MAXFILE * BSIZE;
  fl_full : ∀ bn, 0 ≤ bn → bn * BSIZE < size → addr D l (Some bn) ≠ 0
}.

(** Blocks in use for something else. *)
Definition other (sbk : superblock) (D : Z → list Z) (l : list Z) (b : Z) : Prop :=
  0 ≤ b < sb_size sbk ∧ bit_of sbk D b = true ∧ ¬ meta sbk b ∧ ∀ x, valid x → addr D l x ≠ b.

(** What changes neither the bytes of the file nor anything else that is in
    use. *)
Record grown (sbk : superblock) (D : Z → list Z) (l : list Z) (D' : Z → list Z) (l' : list Z) : Prop := {
  gr_bytes : ∀ k, 0 ≤ k < MAXFILE * BSIZE → fbyte D' l' k = fbyte D l k;
  gr_keep : ∀ bn, 0 ≤ bn < MAXFILE → addr D l (Some bn) ≠ 0 → addr D' l' (Some bn) = addr D l (Some bn);
  gr_other : ∀ b, other sbk D l b → D' b = D b ∧ other sbk D' l' b;
  gr_inodes : ∀ j, 0 ≤ j < sb_ninodes sbk → D' (IBLOCK j sbk) = D (IBLOCK j sbk)
}.

Lemma fgrown_refl sbk D l : grown sbk D l D l.
Proof. by split. Qed.

Lemma fgrown_trans sbk D1 l1 D2 l2 D3 l3 :
  grown sbk D1 l1 D2 l2 → grown sbk D2 l2 D3 l3 → grown sbk D1 l1 D3 l3.
Proof.
  intros [A1 A2 A3 A4] [B1 B2 B3 B4]. split.
  - intros k Hk. by rewrite B1, A1.
  - intros bn Hbn Hne. rewrite B2; [by apply A2|done|]. by rewrite A2.
  - intros b Hb. destruct (A3 b Hb) as [E1 H1]. destruct (B3 b H1) as [E2 H2]. split; [congruence|done].
  - intros j Hj. by rewrite B4, A4.
Qed.

Lemma div_file k : 0 ≤ k < MAXFILE * BSIZE → 0 ≤ k / BSIZE < MAXFILE.
Proof. intros Hk. split; [apply Z.div_pos; unfold BSIZE; lia|]. apply Z.div_lt_upper_bound; unfold BSIZE in *; lia. Qed.

Section grow.
Context (sbk : superblock) (D D' : Z → list Z) (l l' : list Z) (size : Z) (x : option Z) (c : Z).
Context (Hfs : fs_ok sbk D) (Hfile : file_ok sbk D l size) (Hlen : length l' = 13%nat).
Context (Hx : valid x) (Hx0 : addr D l x = 0) (Hc : 0 ≤ c < sb_size sbk) (Hfree : bit_of sbk D c = false).
Context (Haddr : ∀ y, valid y → addr D' l' y = if decide (y = x) then c else addr D l y).
Context (Hbit : ∀ b, 0 ≤ b < sb_size sbk → bit_of sbk D' b = if decide (b = c) then true else bit_of sbk D b).
Context (Hzero : D' c = zero_block).
Context (Hdata : ∀ bn, 0 ≤ bn < MAXFILE → addr D l (Some bn) ≠ 0 → D' (addr D l (Some bn)) = D (addr D l (Some bn))).
Context (Hother : ∀ b, other sbk D l b → D' b = D b).
Context (Hinodes : ∀ j, 0 ≤ j < sb_ninodes sbk → D' (IBLOCK j sbk) = D (IBLOCK j sbk)).

Lemma grow_c : 0 < c.
Proof using All. destruct (decide (c = 0)) as [->|]; [|lia]. by rewrite (fk_zero _ _ Hfs) in Hfree. Qed.

Lemma grow_new y : valid y → addr D l y ≠ c.
Proof using All.
  intros Hy E. pose proof grow_c as H0. destruct (fl_range _ _ _ _ Hfile y Hy) as (_ & Hb & _); [lia|].
  by rewrite E, Hfree in Hb.
Qed.

Lemma grow_file : file_ok sbk D' l' size.
Proof using All.
  pose proof grow_c as H0. split; [done|..].
  - intros y Hy. rewrite Haddr by done. case_decide.
    + intros _. split; [lia|]. split; [rewrite Hbit by done; by rewrite decide_True|]. by eapply free_not_meta.
    + intros Hne. destruct (fl_range _ _ _ _ Hfile y Hy Hne) as (R1 & R2 & R3). split; [done|]. split; [|done].
      rewrite Hbit by lia. case_decide; done.
  - intros y z Hy Hz. rewrite !Haddr by done. repeat case_decide; try congruence.
    + intros E. symmetry in E. by apply grow_new in E.
    + intros E. by apply grow_new in E.
    + by apply Hfile.
  - apply Hfile.
  - intros bn Hbn Hs. pose proof (fl_full _ _ _ _ Hfile bn Hbn Hs) as Hne.
    rewrite Haddr by (pose proof (fl_size _ _ _ _ Hfile); cbn; unfold BSIZE in *; lia). case_decide; [lia|done].
Qed.

Lemma grow_grown : grown sbk D l D' l'.
Proof using All.
  pose proof grow_c as H0. split.
  - intros k Hk. pose proof (div_file k Hk) as Hv. unfold fbyte. rewrite Haddr by done. case_decide as E.
    + rewrite E, Hx0. cbv zeta. rewrite (proj2 (Z.eqb_neq c 0)) by lia. cbn [Z.eqb]. rewrite Hzero.
      assert (0 ≤ k `mod` BSIZE < BSIZE) by (apply Z.mod_pos_bound; unfold BSIZE; lia).
      apply lookup_total_replicate_2. lia.
    + cbv zeta. destruct (Z.eqb_spec (addr D l (Some (k / BSIZE))) 0); [done|]. by rewrite Hdata.
  - intros bn Hbn Hne. rewrite Haddr by done. case_decide as E; [|done]. subst x. congruence.
  - intros b Hb. split; [by apply Hother|]. destruct Hb as (B1 & B2 & B3 & B4).
    assert (b ≠ c) as Hbc by (intros ->; congruence).
    split; [done|]. split; [rewrite Hbit by done; by case_decide|]. split; [done|].
    intros y Hy. rewrite Haddr by done. case_decide; [done|by apply B4].
  - done.
Qed.
End grow.

(** A block is taken for an address in the inode. *)
Definition slot_index (x : option Z) : nat := match x with None => 12%nat | Some bn => Z.to_nat bn end.

Section grow_slot.
Context (sbk : superblock) (t : txn) (l : list Z) (size : Z) (c : Z).
Context (Hfs : fs_ok sbk (t_data t)) (Hfile : file_ok sbk (t_data t) l size).
Context (Hc : 0 ≤ c < sb_size sbk) (Hfree : bit_of sbk (t_data t) c = false).

Lemma talloc_data y :
  valid y → addr (t_data t) l y ≠ 0 → t_data (t_alloc sbk c t) (addr (t_data t) l y) = t_data t (addr (t_data t) l y).
Proof using All.
  intros Hy Hne. destruct (fl_range _ _ _ _ Hfile y Hy Hne) as (R1 & R2 & R3). apply data_alloc; [done| |done].
  intros E. by rewrite E, Hfree in R2.
Qed.

Lemma alloc_other b : other sbk (t_data t) l b → t_data (t_alloc sbk c t) b = t_data t b.
Proof using All.
  intros (B1 & B2 & B3 & _). apply data_alloc; [done| |done]. intros E. by rewrite E, Hfree in B2.
Qed.

Lemma alloc_inodes j :
  0 ≤ j < sb_ninodes sbk → t_data (t_alloc sbk c t) (IBLOCK j sbk) = t_data t (IBLOCK j sbk).
Proof using All.
  intros Hj. unfold t_alloc, t_write. tcbn. rewrite !set_at_ne; [done|..].
  - intros E. by apply (fk_disj _ _ Hfs c j Hc Hj).
  - intros E. apply (free_not_meta sbk _ c Hfs Hc Hfree). right. by exists j.
Qed.

Lemma alloc_zero : t_data (t_alloc sbk c t) c = zero_block.
Proof. unfold t_alloc, t_write. tcbn. apply set_at_eq. Qed.

Lemma get32_zero off : (off + 4 ≤ Z.to_nat BSIZE)%nat → get32 zero_block off = 0.
Proof.
  intros Ho. unfold get32, zero_block. rewrite (le_get_ext 4 _ (replicate (off + 4) 0)).
  - cbn [le_get]. rewrite !lookup_total_replicate_2 by lia. done.
  - intros i Hi. rewrite !lookup_total_replicate_2 by lia. done.
Qed.

Lemma entry_off bn : NDIRECT ≤ bn < MAXFILE → (Z.to_nat (4 * (bn - NDIRECT)) + 4 ≤ Z.to_nat BSIZE)%nat.
Proof. unfold MAXFILE, NINDIRECT, NDIRECT, BSIZE. change (1024 / 4) with 256. lia. Qed.

Lemma addr_slot x y :
  valid x → valid y → (if x is Some bn then bn < NDIRECT else True) → addr (t_data t) l x = 0 →
  addr (t_data (t_alloc sbk c t)) (<[slot_index x := c]> l) y = if decide (y = x) then c else addr (t_data t) l y.
Proof using All.
  intros Hx Hy Hd H0. pose proof (fl_len _ _ _ _ Hfile) as Hl.
  assert (c ≠ 0) as Hc0 by (intros E; pose proof (fk_zero _ _ Hfs) as Hz; by rewrite <- E, Hfree in Hz).
  destruct x as [bn|]; cbn [slot_index].
  - assert ((<[Z.to_nat bn:=c]> l) !!! 12%nat = l !!! 12%nat) as E12
      by (apply list_lookup_total_insert_ne; unfold NDIRECT, valid in *; lia).
    destruct y as [b|]; cbn [addr]; rewrite E12; [|done]. destruct (Z.ltb_spec b NDIRECT) as [Hb|Hb].
    + case_decide as E.
      * injection E as ->. apply list_lookup_total_insert_eq. unfold NDIRECT, valid in *. lia.
      * apply list_lookup_total_insert_ne. unfold valid in *. intros Eb. apply E. f_equal. lia.
    + rewrite decide_False by (intros [=]; lia). destruct (Z.eqb_spec (l !!! 12%nat) 0) as [|Hne]; [done|].
      pose proof (talloc_data None I Hne) as Ed. cbn [addr] in Ed. by rewrite Ed.
  - cbn [addr] in H0. destruct y as [b|]; cbn [addr]; rewrite (list_lookup_total_insert_eq l 12) by lia; [|done].
    destruct (Z.ltb_spec b NDIRECT) as [Hb|Hb].
    + apply list_lookup_total_insert_ne. unfold NDIRECT, valid in *. lia.
    + rewrite H0, (proj2 (Z.eqb_neq c 0) Hc0), alloc_zero. cbn [Z.eqb decide]. apply get32_zero, entry_off. cbn in Hy. lia.
Qed.
End grow_slot.

Section grow_steps.
Context (sbk : superblock) (t : txn) (l : list Z) (size : Z) (c : Z).
Context (Hfs : fs_ok sbk (t_data t)) (Hfile : file_ok sbk (t_data t) l size).
Context (Hc : 0 ≤ c < sb_size sbk) (Hfree : bit_of sbk (t_data t) c = false).

Lemma slot_grow x :
  valid x → (if x is Some bn then bn < NDIRECT else True) → addr (t_data t) l x = 0 →
  let D' := t_data (t_alloc sbk c t) in let l' := <[slot_index x := c]> l in
  fs_ok sbk D' ∧ file_ok sbk D' l' size ∧ grown sbk (t_data t) l D' l' ∧ addr D' l' x = c.
Proof using All.
  intros Hx Hd H0 D' l'.
  assert (length l' = 13%nat) as Hl by (unfold l'; rewrite length_insert; apply Hfile).
  assert (∀ y, valid y → addr D' l' y = if decide (y = x) then c else addr (t_data t) l y) as Ha
    by (intros y Hy; by eapply addr_slot).
  split_and!.
  - by apply fs_ok_alloc.
  - eapply (grow_file sbk (t_data t) D' l l' size x c); try done.
    + intros b Hb. by apply bit_alloc.
    + apply alloc_zero.
    + intros bn Hbn Hne. by eapply talloc_data.
    + intros b Hb. by eapply alloc_other.
    + intros j Hj. by eapply alloc_inodes.
  - eapply (grow_grown sbk (t_data t) D' l l' size x c); try done.
    + intros b Hb. by apply bit_alloc.
    + apply alloc_zero.
    + intros bn Hbn Hne. by eapply talloc_data.
    + intros b Hb. by eapply alloc_other.
    + intros j Hj. by eapply alloc_inodes.
  - rewrite Ha by done. by rewrite decide_True.
Qed.

(** A block is taken for an entry of the indirect block. *)
Context (bn : Z) (Hbn : NDIRECT ≤ bn < MAXFILE) (Hib : l !!! 12%nat ≠ 0).
Context (H0 : addr (t_data t) l (Some bn) = 0).
Abbreviation ib := (l !!! 12%nat).
Abbreviation off := (Z.to_nat (4 * (bn - NDIRECT))).
Definition entry_txn : txn :=
  t_write ib (put32 (t_data (t_alloc sbk c t) ib) off c) (t_alloc sbk c t).

Lemma ib_facts : 0 < ib < sb_size sbk ∧ ¬ meta sbk ib ∧ ib ≠ c ∧ t_data (t_alloc sbk c t) ib = t_data t ib.
Proof using Hfs Hfile Hc Hfree Hib.
  destruct (fl_range _ _ _ _ Hfile None I Hib) as (R1 & R2 & R3). cbn [addr] in *. split; [done|]. split; [done|].
  split; [intros E; by rewrite E, Hfree in R2|]. by apply (talloc_data sbk t l size c Hfs Hfile Hc Hfree None I).
Qed.

Lemma addr_entry y :
  valid y → addr (t_data entry_txn) l y = if decide (y = Some bn) then c else addr (t_data t) l y.
Proof using All.
  intros Hy. destruct ib_facts as (F1 & F2 & F3 & F4). destruct (so_size _ (fk_sb _ _ Hfs)) as [_ Hsz].
  destruct y as [b|]; cbn [addr]; [|by rewrite decide_False].
  destruct (Z.ltb_spec b NDIRECT) as [Hb|Hb]; [by rewrite decide_False by (intros [=]; lia)|].
  rewrite (proj2 (Z.eqb_neq ib 0) Hib). unfold entry_txn, t_write. tcbn. rewrite set_at_eq, F4.
  pose proof (fk_len _ _ Hfs ib) as Hl. pose proof (entry_off bn Hbn) as Ho. cbn in Hy. case_decide as E.
  - injection E as ->. unfold get32, put32. rewrite le_get_put by lia. apply Z.mod_small. unfold BPB, BSIZE in Hsz. lia.
  - unfold get32, put32. apply le_get_put_ne. assert (b ≠ bn) by congruence. unfold NDIRECT in *. lia.
Qed.

Lemma entry_grow :
  fs_ok sbk (t_data entry_txn) ∧ file_ok sbk (t_data entry_txn) l size ∧
  grown sbk (t_data t) l (t_data entry_txn) l ∧ addr (t_data entry_txn) l (Some bn) = c.
Proof using All.
  destruct ib_facts as (F1 & F2 & F3 & F4). pose proof addr_entry as Ha.
  assert (∀ b, b ≠ ib → t_data entry_txn b = t_data (t_alloc sbk c t) b) as Hne
    by (intros b Hb; unfold entry_txn, t_write; tcbn; by apply set_at_ne).
  assert (fs_ok sbk (t_data (t_alloc sbk c t))) as Hfs' by by apply fs_ok_alloc.
  assert (∀ b, 0 ≤ b < sb_size sbk → bit_of sbk (t_data entry_txn) b = if decide (b = c) then true else bit_of sbk (t_data t) b) as Hbit.
  { intros b Hb. unfold entry_txn. rewrite bit_write by done. by apply bit_alloc. }
  assert (t_data entry_txn c = zero_block) as Hz by (rewrite Hne by congruence; apply alloc_zero).
  assert (∀ b, 0 ≤ b < MAXFILE → addr (t_data t) l (Some b) ≠ 0 →
    t_data entry_txn (addr (t_data t) l (Some b)) = t_data t (addr (t_data t) l (Some b))) as Hd.
  { intros b Hb Hn. rewrite Hne; [by eapply talloc_data|]. intros E.
    by pose proof (fl_inj _ _ _ _ Hfile (Some b) None Hb I E Hn). }
  assert (∀ b, other sbk (t_data t) l b → t_data entry_txn b = t_data t b) as Ho.
  { intros b Hb. rewrite Hne; [by eapply alloc_other|]. intros ->. destruct Hb as (_ & _ & _ & Hx). by apply (Hx None). }
  assert (∀ j, 0 ≤ j < sb_ninodes sbk → t_data entry_txn (IBLOCK j sbk) = t_data t (IBLOCK j sbk)) as Hi.
  { intros j Hj. rewrite Hne; [by eapply alloc_inodes|]. intros E. apply F2. right. by exists j. }
  assert (valid (Some bn)) as Hv by (cbn; unfold NDIRECT in *; lia).
  split_and!.
  - apply fs_ok_write; [done|done|lia|]. unfold put32. rewrite length_le_put. apply Hfs'.
  - apply (grow_file sbk (t_data t) (t_data entry_txn) l l size (Some bn) c); try done. apply Hfile.
  - apply (grow_grown sbk (t_data t) (t_data entry_txn) l l size (Some bn) c); try done. apply Hfile.
  - rewrite Ha by done. by rewrite decide_True.
Qed.
End grow_steps.

(** ** Writing a block of a file *)

Section write_block.
Context (sbk : superblock) (t : txn) (l : list Z) (size : Z) (bn : Z) (d : list Z) (a : Z).
Context (Hfs : fs_ok sbk (t_data t)) (Hfile : file_ok sbk (t_data t) l size).
Context (Hbn : 0 ≤ bn < MAXFILE) (Ha : addr (t_data t) l (Some bn) = a) (Hne : a ≠ 0) (Hd : length d = Z.to_nat BSIZE).
Abbreviation D' := (t_data (t_write a d t)).

Lemma write_data b : b ≠ a → D' b = t_data t b.
Proof. intros Hb. unfold t_write. tcbn. by apply set_at_ne. Qed.

Lemma write_range : 0 < a < sb_size sbk ∧ ¬ meta sbk a.
Proof using All. destruct (fl_range _ _ _ _ Hfile (Some bn) Hbn) as (R & _ & Hm); rewrite Ha in *; done. Qed.

Lemma write_addr x : valid x → addr D' l x = addr (t_data t) l x.
Proof using All.
  intros Hx. destruct x as [b|]; [|done]. cbn [addr]. destruct (b <? NDIRECT); [done|].
  destruct (Z.eqb_spec (l !!! 12%nat) 0) as [|H12]; [done|]. rewrite write_data; [done|]. intros E.
  rewrite <- Ha in E. by pose proof (fl_inj _ _ _ _ Hfile None (Some bn) I Hbn E H12).
Qed.

Lemma write_fs : fs_ok sbk D'.
Proof using All. destruct write_range as [R Hm]. apply fs_ok_write; try done. lia. Qed.

Lemma write_file : file_ok sbk D' l size.
Proof using All.
  pose proof Hfile as [F1 F2 F3 F4 F5]. destruct write_range as [_ Hm]. split; [done|..|done|].
  - intros x Hx. rewrite write_addr by done. intros Hx0. destruct (F2 x Hx Hx0) as (R1 & R2 & R3). split; [done|].
    split; [|done]. rewrite bit_write; [done|done|lia].
  - intros x y Hx Hy. rewrite !write_addr by done. by apply F3.
  - intros b Hb Hs. rewrite write_addr by (cbn; unfold BSIZE in *; lia). by apply F5.
Qed.

Lemma write_bytes k :
  0 ≤ k < MAXFILE * BSIZE →
  fbyte D' l k = if decide (k / BSIZE = bn) then d !!! Z.to_nat (k `mod` BSIZE) else fbyte (t_data t) l k.
Proof using All.
  intros Hk. pose proof (div_file k Hk) as Hv. unfold fbyte. rewrite write_addr by done. case_decide as E.
  - rewrite E, Ha. rewrite (proj2 (Z.eqb_neq _ _) Hne). unfold t_write. tcbn. by rewrite set_at_eq.
  - destruct (Z.eqb_spec (addr (t_data t) l (Some (k / BSIZE))) 0) as [|H0]; [done|]. rewrite write_data; [done|].
    intros Ea. apply E. rewrite <- Ha in Ea. by injection (fl_inj _ _ _ _ Hfile (Some (k / BSIZE)) (Some bn) Hv Hbn Ea H0).
Qed.

Lemma write_other b : other sbk (t_data t) l b → D' b = t_data t b ∧ other sbk D' l b.
Proof using All.
  intros (B1 & B2 & B3 & B4). destruct write_range as [_ Hm].
  split; [apply write_data; intros ->; by apply (B4 (Some bn) Hbn)|].
  split; [done|]. split; [by rewrite bit_write|]. split; [done|]. intros x Hx. rewrite write_addr by done. by apply B4.
Qed.

Lemma write_inodes j : 0 ≤ j < sb_ninodes sbk → D' (IBLOCK j sbk) = t_data t (IBLOCK j sbk).
Proof using All. intros Hj. apply write_data. intros E. apply write_range. rewrite <- E. right. by exists j. Qed.
End write_block.

(** ** Inodes on the disk *)

(** An inode's fields fit where they are stored. *)
Record dinode_ok (d : dinode) : Prop := {
  dk_type : - 2 ^ 15 ≤ di_type d < 2 ^ 15;
  dk_major : - 2 ^ 15 ≤ di_major d < 2 ^ 15;
  dk_minor : - 2 ^ 15 ≤ di_minor d < 2 ^ 15;
  dk_nlink : - 2 ^ 15 ≤ di_nlink d < 2 ^ 15;
  dk_size : 0 ≤ di_size d < 2 ^ 32;
  dk_addrs : Forall (λ a, 0 ≤ a < 2 ^ 32) (di_addrs d);
  dk_len : length (di_addrs d) = 13%nat
}.

Lemma put_addrs_lookup n data o (addrs : list Z) i :
  (i < o + 12 ∨ o + 12 + 4 * n ≤ i)%nat →
  foldl (λ data i, put32 data (o + 12 + 4 * i) (addrs !!! i)) data (seq 0 n) !!! i = data !!! i.
Proof.
  induction n as [|n IH]; intros Hi; [done|]. rewrite seq_S, foldl_app. cbn [foldl Nat.add].
  unfold put32. rewrite le_put_lookup_ne by lia. apply IH. lia.
Qed.

Lemma length_put_addrs n data o (addrs : list Z) :
  length (foldl (λ data i, put32 data (o + 12 + 4 * i) (addrs !!! i)) data (seq 0 n)) = length data.
Proof.
  induction n as [|n IH]; [done|]. rewrite seq_S, foldl_app. cbn [foldl]. unfold put32. by rewrite length_le_put.
Qed.

Lemma get_put_addrs n data o (addrs : list Z) j :
  (o + 12 + 4 * n ≤ length data)%nat → (j < n)%nat → (∀ i, (i < n)%nat → 0 ≤ addrs !!! i < 2 ^ 32) →
  get32 (foldl (λ data i, put32 data (o + 12 + 4 * i) (addrs !!! i)) data (seq 0 n)) (o + 12 + 4 * j) = addrs !!! j.
Proof.
  induction n as [|n IH]; intros Hl Hj Ha; [lia|]. rewrite seq_S, foldl_app. cbn [foldl Nat.add]. unfold get32, put32.
  destruct (decide (j = n)) as [->|Hne].
  - rewrite le_get_put by (rewrite length_put_addrs; lia). apply Z.mod_small. apply Ha. lia.
  - rewrite le_get_put_ne by lia. apply IH; [lia|lia|]. intros i Hi. apply Ha. lia.
Qed.

Lemma s16_get_put data o v : (o + 2 ≤ length data)%nat → - 2 ^ 15 ≤ v < 2 ^ 15 → s16 (get16 (put16 data o v) o) = v.
Proof.
  intros Hl Hv. unfold get16, put16. rewrite le_get_put by done. change (8 * Z.of_nat 2) with 16.
  rewrite <- (s16_small v Hv) at 2. unfold s16, u16. by rewrite Z.mod_mod.
Qed.

Lemma length_put_dinode data o d : length (put_dinode data o d) = length data.
Proof.
  unfold put_dinode, put_addrs. rewrite length_put_addrs. unfold put16, put32. by rewrite !length_le_put.
Qed.

(** The other bytes of the block stay. *)
Lemma put_dinode_lookup data o d i :
  (i < o ∨ o + 64 ≤ i)%nat → put_dinode data o d !!! i = data !!! i.
Proof.
  intros Hi. unfold put_dinode, put_addrs. rewrite put_addrs_lookup by lia. unfold put16, put32.
  by rewrite !le_put_lookup_ne by lia.
Qed.

Lemma get_dinode_ext data data' o :
  (∀ i, (o ≤ i < o + 64)%nat → data !!! i = data' !!! i) → get_dinode data o = get_dinode data' o.
Proof.
  intros Hi. unfold get_dinode, get16, get32. f_equal; try (f_equal; apply le_get_ext; intros i Hr; apply Hi; lia).
  - apply le_get_ext. intros i Hr. apply Hi. lia.
  - apply list_fmap_ext. intros k j Hj. apply lookup_seq in Hj as [-> Hk]. apply le_get_ext. intros i Hr. apply Hi. lia.
Qed.

(** An inode that is stored in a block is read back. *)
Lemma get_put_dinode data o d :
  (o + 64 ≤ length data)%nat → dinode_ok d → get_dinode (put_dinode data o d) o = d.
Proof.
  intros Hl [K1 K2 K3 K4 K5 K6 K7]. set (a := put16 data o (di_type d)). set (b := put16 a (o + 2) (di_major d)).
  set (c := put16 b (o + 4) (di_minor d)). set (e := put16 c (o + 6) (di_nlink d)). set (f := put32 e (o + 8) (di_size d)).
  assert (length a = length data ∧ length b = length data ∧ length c = length data ∧ length e = length data ∧ length f = length data)
    as (L1 & L2 & L3 & L4 & L5) by (unfold f, e, c, b, a, put16, put32; by rewrite !length_le_put).
  assert (∀ i, (i < o + 12)%nat → put_dinode data o d !!! i = f !!! i) as Hf by (intros i Hi; apply put_addrs_lookup; lia).
  assert (∀ n k, (k + n ≤ o + 12)%nat → le_get n (put_dinode data o d) k = le_get n f k) as Hg
    by (intros n k Hk; apply le_get_ext; intros i Hi; apply Hf; lia).
  destruct d as [ty ma mi nl sz ad]. cbn [di_type di_major di_minor di_nlink di_size di_addrs] in *.
  unfold get_dinode. f_equal.
  - unfold get16. rewrite Hg by lia. unfold f, e, c, b, put32, put16. rewrite !le_get_put_ne by lia.
    apply (s16_get_put data); [lia|done].
  - unfold get16. rewrite Hg by lia. unfold f, e, c, put32, put16. rewrite !le_get_put_ne by lia. apply (s16_get_put a); [lia|done].
  - unfold get16. rewrite Hg by lia. unfold f, e, put32, put16. rewrite !le_get_put_ne by lia. apply (s16_get_put b); [lia|done].
  - unfold get16. rewrite Hg by lia. unfold f, put32. rewrite le_get_put_ne by lia. apply (s16_get_put c); [lia|done].
  - unfold get32. rewrite Hg by lia. unfold f, put32. rewrite le_get_put by lia. by apply Z.mod_small.
  - apply list_eq_same_length with 13%nat; [done|by rewrite length_fmap, length_seq|]. intros j x y Hj.
    rewrite list_lookup_fmap, lookup_seq_lt by done. cbn [fmap option_fmap option_map]. intros [= <-] Hy.
    unfold put_dinode. cbn [di_type di_major di_minor di_nlink di_size di_addrs]. fold a b c e f. unfold put_addrs.
    change (j + (j + (j + (j + 0))))%nat with (4 * j)%nat. rewrite get_put_addrs; [by apply list_lookup_total_correct|lia|lia|].
    intros i Hi. apply (Forall_lookup_1 _ _ i _ K6), list_lookup_lookup_total_lt. lia.
Qed.

(** A block of inodes is rewritten. *)
Section write_inode.
Context (sbk : superblock) (t : txn) (l : list Z) (size : Z) (inum : Z) (d : list Z).
Context (Hfs : fs_ok sbk (t_data t)) (Hfile : file_ok sbk (t_data t) l size).
Context (Hi : 0 ≤ inum < sb_ninodes sbk) (Hd : length d = Z.to_nat BSIZE).
Abbreviation D' := (t_data (t_write (IBLOCK inum sbk) d t)).

Lemma iwrite_data b : ¬ meta sbk b → D' b = t_data t b.
Proof using All.
  intros Hb. unfold t_write. tcbn. apply set_at_ne. intros ->. apply Hb. right. by exists inum.
Qed.

Lemma iwrite_bit b : 0 ≤ b < sb_size sbk → bit_of sbk D' b = bit_of sbk (t_data t) b.
Proof using All.
  intros Hb. unfold bit_of, t_write. tcbn. rewrite set_at_ne; [done|]. intros E. by apply (fk_disj _ _ Hfs b inum).
Qed.

Lemma iwrite_addr x : valid x → addr D' l x = addr (t_data t) l x.
Proof using All.
  intros Hx. destruct x as [b|]; [|done]. cbn [addr]. destruct (b <? NDIRECT); [done|].
  destruct (Z.eqb_spec (l !!! 12%nat) 0) as [|H12]; [done|]. rewrite iwrite_data; [done|].
  by destruct (fl_range _ _ _ _ Hfile None I H12) as (_ & _ & ?).
Qed.

Lemma iwrite_fs : 0 < sb_size sbk → fs_ok sbk D'.
Proof using All.
  intros Hsz. pose proof Hfs as [F1 F2 F3 F4 F5 F6]. split; [done|..|done|done].
  - intros b. unfold t_write. tcbn. unfold set_at. by case_decide.
  - rewrite iwrite_bit by lia. done.
  - intros b Hm Hb. rewrite iwrite_bit by done. by apply F4.
Qed.

Lemma iwrite_file : file_ok sbk D' l size.
Proof using All.
  pose proof Hfile as [F1 F2 F3 F4 F5]. split; [done|..|done|].
  - intros x Hx. rewrite iwrite_addr by done. intros Hx0. destruct (F2 x Hx Hx0) as (R1 & R2 & R3). split; [done|].
    split; [|done]. rewrite iwrite_bit; [done|lia].
  - intros x y Hx Hy. rewrite !iwrite_addr by done. by apply F3.
  - intros b Hb Hs. rewrite iwrite_addr by (cbn; unfold BSIZE in *; lia). by apply F5.
Qed.

Lemma iwrite_bytes k : 0 ≤ k < MAXFILE * BSIZE → fbyte D' l k = fbyte (t_data t) l k.
Proof using All.
  intros Hk. pose proof (div_file k Hk) as Hv. unfold fbyte. rewrite iwrite_addr by done.
  destruct (Z.eqb_spec (addr (t_data t) l (Some (k / BSIZE))) 0) as [|H0]; [done|]. rewrite iwrite_data; [done|].
  by destruct (fl_range _ _ _ _ Hfile (Some (k / BSIZE)) Hv H0) as (_ & _ & ?).
Qed.

Lemma iwrite_other b : other sbk (t_data t) l b → D' b = t_data t b ∧ other sbk D' l b.
Proof using All.
  intros (B1 & B2 & B3 & B4). split; [by apply iwrite_data|]. split; [done|]. split; [by rewrite iwrite_bit|].
  split; [done|]. intros x Hx. rewrite iwrite_addr by done. by apply B4.
Qed.
End write_inode.
