(* ===== verification/FsIo.v ===== *)
(** * Reading and writing files

    [bmap], [readi] and [writei] on a file, in a transaction that has the blocks
    and the room in the log that they need. *)

From S2P Require Import Prelude Machine Memory Kstring State Spinlock Kalloc Vm Sched Runs Proc Sleeplock Block Bio Cache.
From S2P Require Import CacheOps CacheLogic Log LogSpec LogOps Fs FsLogic FsAlloc FsFile.

(** ** Free blocks *)

(** At least [k] blocks are free. *)
Definition has_free (sbk : superblock) (D : Z → list Z) (k : nat) : Prop :=
  ∃ fr : list Z, NoDup fr ∧ length fr = k ∧ ∀ b, b ∈ fr → 0 ≤ b < sb_size sbk ∧ bit_of sbk D b = false.

Lemma has_free_take sbk D D' c k :
  has_free sbk D (S k) →
  (∀ b, 0 ≤ b < sb_size sbk → bit_of sbk D' b = if decide (b = c) then true else bit_of sbk D b) →
  has_free sbk D' k.
Proof.
  intros (fr & Hn & Hl & Hfr) Hbit. exists (take k (filter (λ b, b ≠ c) fr)).
  assert (k ≤ length (filter (λ b, b ≠ c) fr))%nat as Hk.
  { destruct (decide (c ∈ fr)) as [Hin|Hin].
    - apply list_elem_of_split in Hin as (l1 & l2 & ->). apply NoDup_app in Hn as (_ & Hd & Hn2).
      apply NoDup_cons in Hn2 as [Hc2 _]. rewrite filter_app, filter_cons, decide_False by tauto.
      rewrite !filter_id; [rewrite length_app in *; cbn in Hl; lia|by intros x Hx ->|].
      intros x Hx ->. apply (Hd c Hx). by left.
    - rewrite filter_id; [lia|]. by intros x Hx ->. }
  split_and!.
  - by apply (sublist_NoDup _ _ (NoDup_filter (λ b, b ≠ c) fr Hn)), sublist_take.
  - rewrite length_take. lia.
  - intros b Hb. apply elem_of_take in Hb as (i & Hi & _). apply list_elem_of_lookup_2, list_elem_of_filter in Hi as [Hne Hb].
    destruct (Hfr b Hb) as [H1 H2]. split; [done|]. rewrite Hbit by done. by case_decide.
Qed.

Lemma has_free_mono sbk D k k' : has_free sbk D k → (k' ≤ k)%nat → has_free sbk D k'.
Proof.
  intros (fr & Hn & Hl & Hfr) Hk. exists (take k' fr). split_and!.
  - by apply (sublist_NoDup _ _ Hn), sublist_take.
  - rewrite length_take. lia.
  - intros b Hb. apply Hfr. apply elem_of_take in Hb as (i & Hi & _). by eapply list_elem_of_lookup_2.
Qed.

(** ** The bytes of a file *)

Definition file_bytes (D : Z → list Z) (l : list Z) (off : Z) (n : nat) : list Z :=
  (λ j : nat, fbyte D l (off + Z.of_nat j)) <$> seq 0 n.

Lemma length_file_bytes D l off n : length (file_bytes D l off n) = n.
Proof. unfold file_bytes. by rewrite length_fmap, length_seq. Qed.

Lemma file_bytes_lookup D l off n j : (j < n)%nat → file_bytes D l off n !! j = Some (fbyte D l (off + Z.of_nat j)).
Proof. intros Hj. unfold file_bytes. by rewrite list_lookup_fmap, lookup_seq_lt by done. Qed.

Lemma file_bytes_app D l off a b :
  0 ≤ a → 0 ≤ b → file_bytes D l off (Z.to_nat (a + b)) = file_bytes D l off (Z.to_nat a) ++ file_bytes D l (off + a) (Z.to_nat b).
Proof.
  intros Ha Hb. apply list_eq_same_length with (Z.to_nat (a + b)); [rewrite length_app, !length_file_bytes; lia|by rewrite length_file_bytes|].
  intros j x y Hj. rewrite file_bytes_lookup by done. intros [= <-]. destruct (decide (j < Z.to_nat a)%nat).
  - rewrite lookup_app_l, file_bytes_lookup by (rewrite ?length_file_bytes; lia). by intros [= <-].
  - rewrite lookup_app_r, length_file_bytes, file_bytes_lookup by (rewrite ?length_file_bytes; lia). intros [= <-]. f_equal. lia.
Qed.

(** Within a block. *)
Lemma div_mod_add off j :
  0 ≤ j < BSIZE - off `mod` BSIZE → (off + j) / BSIZE = off / BSIZE ∧ (off + j) `mod` BSIZE = off `mod` BSIZE + j.
Proof.
  intros Hj. pose proof (Z.mod_pos_bound off BSIZE ltac:(unfold BSIZE; lia)) as Hm.
  pose proof (Z.div_mod off BSIZE ltac:(unfold BSIZE; lia)) as Hd.
  assert (off + j = BSIZE * (off / BSIZE) + (off `mod` BSIZE + j)) as E by lia. split.
  - symmetry. by apply (Z.div_unique_pos _ _ _ (off `mod` BSIZE + j)); lia.
  - symmetry. apply (Z.mod_unique_pos _ _ (off / BSIZE)); lia.
Qed.

Lemma block_bytes D l off m :
  addr D l (Some (off / BSIZE)) ≠ 0 → 0 ≤ m → m ≤ BSIZE - off `mod` BSIZE → (∀ b, length (D b) = Z.to_nat BSIZE) →
  get_bytes (D (addr D l (Some (off / BSIZE)))) (Z.to_nat (off `mod` BSIZE)) (Z.to_nat m) = file_bytes D l off (Z.to_nat m).
Proof.
  intros Hne Hm0 Hm Hlen. pose proof (Z.mod_pos_bound off BSIZE ltac:(unfold BSIZE; lia)) as Hmod.
  set (d := D (addr D l (Some (off / BSIZE)))). assert (length d = Z.to_nat BSIZE) as Hd by apply Hlen.
  apply list_eq_same_length with (Z.to_nat m); [by rewrite length_file_bytes|..].
  { unfold get_bytes. rewrite length_take, length_drop. lia. }
  intros j x y Hj. rewrite file_bytes_lookup by done. unfold get_bytes. rewrite lookup_take_lt, lookup_drop by done.
  intros Hx [= <-]. destruct (div_mod_add off (Z.of_nat j)) as [E1 E2]; [lia|]. unfold fbyte. rewrite E1, E2.
  rewrite (proj2 (Z.eqb_neq _ _) Hne). fold d. symmetry. apply list_lookup_total_correct.
  by replace (Z.to_nat (off `mod` BSIZE + Z.of_nat j)) with (Z.to_nat (off `mod` BSIZE) + j)%nat by lia.
Qed.

(** [off + n < off], in unsigned arithmetic. *)
Lemma u32_wraps off n :
  0 ≤ off < 2 ^ 32 → 0 ≤ n < 2 ^ 32 → (u32 (off + n) <? off) = (off + n >=? 2 ^ 32).
Proof.
  intros Ho Hn. unfold u32. destruct (Z.geb_spec (off + n) (2 ^ 32)) as [Hge|Hlt].
  - apply Z.ltb_lt. rewrite <- (Z.mod_unique_pos (off + n) (2 ^ 32) 1 (off + n - 2 ^ 32)) by lia. lia.
  - apply Z.ltb_ge. rewrite Z.mod_small by lia. lia.
Qed.

Section io.
Context (dv : Z) (p : nat) (start : Z).
Hypothesis Hdv : 0 ≤ dv < 2 ^ 32.
Abbreviation tx := (tx dv p start).
Abbreviation fs_frame := (fs_frame p).

(** [balloc] where a block is free. *)
Lemma balloc_ok s t k n :
  tx s t → sb_ok (sb s) → held_ok s t → budget s t (S (S k)) → has_free (sb s) (t_data t) (S n) →
  runs (balloc dv) s (λ b s', fs_frame s s' ∧ tx s' (t_alloc (sb s) b t) ∧ 0 ≤ b < sb_size (sb s) ∧
    bit_of (sb s) (t_data t) b = false).
Proof using Hdv.
  intros Ht Hsb Hh Hb (fr & _ & Hl & Hfr).
  destruct (balloc_eq dv p start Hdv s t k Ht Hsb Hh Hb) as [(b & s' & E & F & H1 & H2 & H3 & _)|[_ Hfull]].
  - exists b, s'. done.
  - destruct fr as [|b fr]; [done|]. destruct (Hfr b ltac:(left)) as [H1 H2]. by rewrite Hfull in H2.
Qed.

(** ** Changing an inode *)

Lemma tx_inodes s t x : tx s t → tx (set_inodes x s) t.
Proof.
  intros [[H1 H2 H3 H4 H5 H6 H7 H8] B C D E F]. split; try done; [|by destruct B; split].
  split; try done.
  - eapply thread_ok_ext; [..|exact H1]; done.
  - apply cstep_refl.
  - destruct H3 as [A1 A2 A3 A4]. by split.
  - intros n i Hin. destruct (H8 n i Hin) as [A1 A2 A3]. by split.
Qed.

(** All but the buffers, the log's header, sleeping processes and the size and
    the addresses of the inode [ip]. *)
Record file_frame (ip : nat) (s s' : kernel) : Prop := {
  ff_frame : fs_frame (set_inodes (inodes s') s) s';
  ff_len : length (inodes s') = length (inodes s);
  ff_others : ∀ j, j ≠ ip → inodes s' !! j = inodes s !! j;
  ff_inode : ∃ l z, getinode ip s' = set_i_size z (set_i_addrs l (getinode ip s))
}.

Lemma frame_inodes x s s' : fs_frame s s' → fs_frame (set_inodes x s) (set_inodes x s').
Proof.
  intros ([E W] & L & Dk & Wr). split; [|done]. split; [|exact W]. rewrite E at 1. by destruct s.
Qed.

Lemma file_frame_fs ip s s' : fs_frame s s' → file_frame ip s s'.
Proof.
  intros F. pose proof (fs_frame_inodes p s s' F) as Ei. split; rewrite ?Ei; try done.
  unfold getinode. rewrite Ei. exists (i_addrs (inodes s !!! ip)), (i_size (inodes s !!! ip)). by destruct (inodes s !!! ip).
Qed.

Lemma file_frame_trans ip s1 s2 s3 : file_frame ip s1 s2 → file_frame ip s2 s3 → file_frame ip s1 s3.
Proof.
  intros [A1 A2 A3 (l & z & A4)] [B1 B2 B3 (l' & z' & B4)]. split.
  - eapply fs_frame_trans; [|exact B1]. by apply (frame_inodes (inodes s3)) in A1.
  - congruence.
  - intros j Hj. by rewrite B3, A3.
  - exists l', z'. rewrite B4, A4. by destruct (getinode ip s1).
Qed.

Lemma getinode_upd ip s f : (ip < length (inodes s))%nat → getinode ip (upd_inode ip f s) = f (getinode ip s).
Proof.
  intros Hip. unfold getinode. cbn [inodes upd_inode set_inodes].
  destruct (lookup_lt_is_Some_2 _ _ Hip) as [i Hi]. by rewrite !list_lookup_total_alt, list_lookup_alter_eq, Hi.
Qed.

Lemma file_frame_upd ip s f :
  (ip < length (inodes s))%nat → (∃ l z, f (getinode ip s) = set_i_size z (set_i_addrs l (getinode ip s))) →
  file_frame ip s (upd_inode ip f s).
Proof.
  intros Hip Hf. split.
  - apply fs_frame_refl.
  - apply length_alter.
  - intros j Hj. by apply list_lookup_alter_ne.
  - by rewrite getinode_upd.
Qed.

(** ** A file that is worked on *)

Abbreviation addrs ip s := (i_addrs (getinode ip s)).
Abbreviation isize ip s := (i_size (getinode ip s)).

Record file_inv (s : kernel) (t : txn) (ip : nat) : Prop := {
  fv_held : t_held t = [];
  fv_fs : fs_ok (sb s) (t_data t);
  fv_file : file_ok (sb s) (t_data t) (addrs ip s) (isize ip s);
  fv_ip : (ip < length (inodes s))%nat;
  fv_dev : i_dev (getinode ip s) = dv
}.

(** The bytes of the file are the same after at most [k] blocks have been
    taken. *)
Record moved (ip : nat) (s : kernel) (t : txn) (s' : kernel) (t' : txn) (k : nat) : Prop := {
  mv_inv : file_inv s' t' ip;
  mv_frame : file_frame ip s s';
  mv_sb : sb s' = sb s;
  mv_size : isize ip s' = isize ip s;
  mv_grown : grown (sb s) (t_data t) (addrs ip s) (t_data t') (addrs ip s');
  mv_budget : ∀ n, budget s t (n + 2 * k) → budget s' t' n;
  mv_free : ∀ n, has_free (sb s) (t_data t) (n + k) → has_free (sb s) (t_data t') n
}.

Lemma file_frame_log ip s s' : file_frame ip s s' → same_log (klog s) (klog s').
Proof. intros [(_ & L & _) _ _ _]. exact L. Qed.

Lemma moved_fs ip s t s' : file_inv s t ip → fs_frame s s' → moved ip s t s' t 0.
Proof.
  intros [V1 V2 V3 V4 V5] F. pose proof (fs_frame_inodes p s s' F) as Ei. pose proof (fs_frame_sb p s s' F) as Es.
  assert (getinode ip s' = getinode ip s) as Eg by (unfold getinode; by rewrite Ei).
  split; rewrite ?Eg.
  - split; rewrite ?Eg, ?Es, ?Ei; done.
  - by apply file_frame_fs.
  - done.
  - done.
  - apply fgrown_refl.
  - intros n Hb. eapply budget_mono; [apply F|exact Hb|lia].
  - intros n Hn. eapply has_free_mono; [exact Hn|lia].
Qed.

Lemma moved_trans ip s1 t1 s2 t2 s3 t3 k1 k2 :
  moved ip s1 t1 s2 t2 k1 → moved ip s2 t2 s3 t3 k2 → moved ip s1 t1 s3 t3 (k1 + k2).
Proof.
  intros [A1 A2 A3 A4 A5 A6 A7] [B1 B2 B3 B4 B5 B6 B7]. rewrite A3 in B5, B7. split; try done; try congruence.
  - by eapply file_frame_trans.
  - by eapply fgrown_trans.
  - intros n Hb. apply B6, A6. by replace (n + 2 * k2 + 2 * k1)%nat with (n + 2 * (k1 + k2))%nat by lia.
  - intros n Hn. apply B7, A7. by replace (n + k2 + k1)%nat with (n + (k1 + k2))%nat by lia.
Qed.

Lemma moved_weaken ip s t s' t' k k' : moved ip s t s' t' k → (k ≤ k')%nat → moved ip s t s' t' k'.
Proof.
  intros [A1 A2 A3 A4 A5 A6 A7] Hk. split; try done.
  - intros n Hb. apply A6. eapply budget_mono; [|exact Hb|lia]. done.
  - intros n Hn. apply A7. eapply has_free_mono; [exact Hn|lia].
Qed.

Lemma budget_alloc s s' t c n : same_log (klog s) (klog s') → budget s t (n + 2) → budget s' (t_alloc (sb s) c t) n.
Proof.
  intros L Hb. unfold t_alloc. eapply (budget_write s' s'); [done|]. eapply budget_write; [exact L|].
  by replace (S (S n)) with (n + 2)%nat by lia.
Qed.

Lemma held_ok_none s t : t_held t = [] → held_ok s t.
Proof. intros E n Hn. rewrite E in Hn. by apply not_elem_of_nil in Hn. Qed.

(** A block is taken for an address of the inode. *)
Lemma slot_runs s t ip x k n :
  tx s t → file_inv s t ip → valid x → (if x is Some bn then bn < NDIRECT else True) →
  addr (t_data t) (addrs ip s) x = 0 → budget s t (S (S k)) → has_free (sb s) (t_data t) (S n) →
  runs (let! a := balloc dv in
        iset ip (λ i, set_i_addrs (<[slot_index x := a]> (i_addrs i)) i) ;;; ret a) s
    (λ a s', a ≠ 0 ∧ ∃ t', tx s' t' ∧ moved ip s t s' t' 1 ∧ addr (t_data t') (addrs ip s') x = a).
Proof using Hdv.
  intros Ht Hv Hx Hd H0 Hb Hn. pose proof Hv as [V1 V2 V3 V4 V5]. apply runs_bind.
  eapply runs_mono; [apply (balloc_ok s t k n Ht (fk_sb _ _ V2) (held_ok_none s t V1) Hb Hn)|].
  intros c s1 (F & H1 & Hc & Hfree). cbv beta. apply runs_modify. apply runs_ret.
  destruct (slot_grow (sb s) t (addrs ip s) (isize ip s) c V2 V3 Hc Hfree x Hx Hd H0) as (G1 & G2 & G3 & G4).
  pose proof (fs_frame_inodes p s s1 F) as Ei. pose proof (fs_frame_sb p s s1 F) as Es.
  assert (getinode ip s1 = getinode ip s) as Eg by (unfold getinode; by rewrite Ei).
  set (f := λ i : inode, _). assert (getinode ip (upd_inode ip f s1) = f (getinode ip s)) as Ef
    by (rewrite getinode_upd, Eg by (by rewrite Ei); done).
  split; [intros ->; by rewrite (fk_zero _ _ V2) in Hfree|]. exists (t_alloc (sb s) c t).
  split; [by apply tx_inodes|]. rewrite Ef. split; [|exact G4]. split; rewrite ?Ef.
  - split; rewrite ?Ef; cbn [sb upd_inode set_inodes inodes]; rewrite ?Es; try done. by rewrite length_alter, Ei.
  - eapply file_frame_trans; [by apply file_frame_fs|]. apply file_frame_upd; [by rewrite Ei|].
    rewrite Eg. exists (<[slot_index x := c]> (addrs ip s)), (isize ip s). unfold f. by destruct (getinode ip s).
  - exact Es.
  - done.
  - exact G3.
  - intros m Hm. eapply budget_alloc; [|exact Hm]. apply F.
  - intros m Hm. eapply (has_free_take _ (t_data t) _ c); [by replace (S m) with (m + 1)%nat by lia|].
    intros b Hb'. by apply bit_alloc.
Qed.

(** ** bmap *)

Lemma ib_range s t ip :
  file_inv s t ip → addr (t_data t) (addrs ip s) None ≠ 0 →
  0 ≤ addr (t_data t) (addrs ip s) None < 2 ^ 31 ∧ addr (t_data t) (addrs ip s) None ∉ (t_held t).*1.
Proof.
  intros [V1 V2 V3 V4 V5] Hne. destruct (fl_range _ _ _ _ V3 None I Hne) as ((R1 & R2) & _).
  pose proof (so_size _ (fk_sb _ _ V2)). split; [unfold BPB, BSIZE in *; lia|]. rewrite V1. apply not_elem_of_nil.
Qed.

(** The entry of the indirect block, with a block taken for it when it is 0. *)
Lemma entry_held s t ip bn i k n :
  let ib := addr (t_data t) (addrs ip s) None in
  let off := Z.to_nat (4 * (bn - NDIRECT)) in
  let a := get32 (t_data t ib) off in
  tx s (t_take ib i t) → file_inv s t ip → ib ≠ 0 → NDIRECT ≤ bn < MAXFILE →
  budget s t (S (S (S k))) → has_free (sb s) (t_data t) (S n) → a = 0 →
  runs (let! addr := balloc dv in
        bdata i (λ d, put32 d off addr) ;;; log_write i ;;; ret addr) s
    (λ c s', c ≠ 0 ∧ ∃ t', tx s' (t_take ib i t') ∧ ib ∈ t_log t' ∧ moved ip s t s' t' 2 ∧
       addr (t_data t') (addrs ip s') (Some bn) = c).
Proof using Hdv.
  intros ib off a Ht Hv Hib Hbn Hb Hn Ha. pose proof Hv as [V1 V2 V3 V4 V5].
  destruct (fl_range _ _ _ _ V3 None I Hib) as (R1 & R2 & R3). fold ib in R1, R2, R3.
  destruct (ib_range s t ip Hv Hib) as [Hr _]. fold ib in Hr.
  assert (addr (t_data t) (addrs ip s) (Some bn) = 0) as H0.
  { cbn [addr]. rewrite (proj2 (Z.ltb_ge _ _)) by lia. by destruct (_ =? 0). }
  apply runs_bind. eapply runs_mono; [apply (balloc_ok s (t_take ib i t) k n Ht (fk_sb _ _ V2))|].
  { intros m Hm. cbn [t_take t_held t_data] in *. rewrite V1 in Hm. apply list_elem_of_singleton in Hm. cbn [fst] in Hm. rewrite Hm.
    split; [done|]. intros b Hb' E. apply R3. rewrite E. by apply meta_bblock. }
  { by apply budget_take. }
  { done. }
  intros c s1 (F1 & H1 & Hc & Hfree). cbv beta.
  change (t_alloc (sb s) c (t_take ib i t)) with (t_take ib i (t_alloc (sb s) c t)) in H1.
  change (bit_of (sb s) (t_data t) c = false) in Hfree.
  apply runs_bind. eapply runs_mono; [apply (tx_bdata dv p start s1 _ ib i (λ d, put32 d off c) H1); [by left|]|].
  { intros l Hl. unfold put32. by rewrite length_le_put. }
  intros [] s2 [H2 F2]. cbv beta. cbn [t_take t_data] in H2.
  assert (fs_frame s s2) as F by by eapply fs_frame_trans.
  apply runs_bind. eapply runs_mono; [apply (tx_log_write dv p start Hdv s2 _ ib i H2); [by left| |done]|].
  { assert (budget s2 (t_alloc (sb s) c t) (S k)) as [B1 B2].
    { eapply budget_alloc; [apply F|]. by replace (S k + 2)%nat with (S (S (S k))) by lia. }
    unfold log_room. tcbn. change NBUF with 30%nat in B2. lia. }
  intros [] s3 [H3 F3]. cbv beta. apply runs_ret. assert (fs_frame s s3) as F' by by eapply fs_frame_trans.
  split; [intros ->; by rewrite (fk_zero _ _ V2) in Hfree|].
  exists (entry_txn (sb s) t (addrs ip s) c bn). split; [exact H3|].
  split; [unfold entry_txn, t_write; tcbn; unfold add_block; case_decide; [done|set_solver]|].
  destruct (entry_grow (sb s) t (addrs ip s) (isize ip s) c V2 V3 Hc Hfree bn Hbn Hib H0) as (G1 & G2 & G3 & G4).
  pose proof (fs_frame_inodes p s s3 F') as Ei. pose proof (fs_frame_sb p s s3 F') as Es.
  assert (getinode ip s3 = getinode ip s) as Eg by (unfold getinode; by rewrite Ei). rewrite Eg. split; [|exact G4].
  split; rewrite ?Eg.
  - split; rewrite ?Eg, ?Es, ?Ei; done.
  - by apply file_frame_fs.
  - done.
  - done.
  - done.
  - intros m Hm. unfold entry_txn. eapply budget_write; [|eapply budget_alloc; [|]]; [apply F'|done|].
    eapply budget_mono; [done|exact Hm|lia].
  - intros m Hm. eapply (has_free_take _ (t_data t) _ c); [eapply has_free_mono; [exact Hm|lia]|].
    intros b Hb'. unfold entry_txn. rewrite bit_write by done. by apply bit_alloc.
Qed.

(** Enough for a block to be taken, unless the address is there. *)
Definition can_take (s : kernel) (t : txn) (a : Z) (k : nat) : Prop :=
  budget s t 0 ∧ (a = 0 → budget s t (2 * k) ∧ has_free (sb s) (t_data t) k).

(** What [bmap] promises for block [bn]. *)
Definition mapped (ip : nat) (bn : Z) (s : kernel) (t : txn) (a : Z) (s' : kernel) : Prop :=
  a ≠ 0 ∧ ∃ t', tx s' t' ∧ moved ip s t s' t' 3 ∧ addr (t_data t') (addrs ip s') (Some bn) = a ∧
  (addr (t_data t) (addrs ip s) (Some bn) ≠ 0 → t' = t ∧ fs_frame s s').

Lemma indirect_runs s t ip bn :
  let ib := addr (t_data t) (addrs ip s) None in
  let off := Z.to_nat (4 * (bn - NDIRECT)) in
  tx s t → file_inv s t ip → ib ≠ 0 → NDIRECT ≤ bn < MAXFILE →
  can_take s t (addr (t_data t) (addrs ip s) (Some bn)) 2 →
  runs (let! bp := bread dv ib in
        let! a := bfield bp b_data in
        let addr := get32 a off in
        let! addr := (if addr =? 0 then
                        let! addr := balloc dv in
                        bdata bp (λ d, put32 d off addr) ;;; log_write bp ;;; ret addr
                      else ret addr) in
        brelse bp ;;; ret addr) s
    (λ a s', a ≠ 0 ∧ ∃ t', tx s' t' ∧ moved ip s t s' t' 2 ∧ addr (t_data t') (addrs ip s') (Some bn) = a ∧
       (addr (t_data t) (addrs ip s) (Some bn) ≠ 0 → t' = t ∧ fs_frame s s')).
Proof using Hdv.
  intros ib off Ht Hv Hib Hbn [Hb Hcan]. destruct (ib_range s t ip Hv Hib) as [Hr Hnh]. fold ib in Hr, Hnh.
  assert (addr (t_data t) (addrs ip s) (Some bn) = get32 (t_data t ib) off) as Ea.
  { cbn [addr]. rewrite (proj2 (Z.ltb_ge _ _)) by lia. destruct (Z.eqb_spec (addrs ip s !!! 12%nat) 0); [done|]. done. }
  rewrite Ea in *. apply runs_bind. eapply runs_mono; [apply (tx_bread dv p start Hdv s t ib Ht Hr Hnh); by eapply budget_used|].
  intros i s1 [H1 F1]. cbv beta. eapply runs_eq; [eapply (tx_bfield dv p start s1 _ ib i H1); by left|].
  cbn [t_take t_data]. pose proof (moved_fs ip s t s1 Hv F1) as M1. pose proof (fs_frame_inodes p s s1 F1) as Ei.
  assert (getinode ip s1 = getinode ip s) as Eg by (unfold getinode; by rewrite Ei).
  pose proof (fs_frame_sb p s s1 F1) as Es.
  destruct (Z.eqb_spec (get32 (t_data t ib) off) 0) as [E0|E0].
  - destruct (Hcan E0) as [Hb4 Hfree]. apply runs_bind. eapply runs_mono.
    { apply (entry_held s1 t ip bn i 1 1); rewrite ?Eg, ?Es; try done; [apply M1|].
      eapply budget_mono; [apply F1|exact Hb4|lia]. }
    intros c s2 (Hc & t2 & H2 & Hin & M2 & Ha). cbv beta. rewrite Eg in H2, Hin. fold ib in H2, Hin.
    apply runs_bind. eapply runs_mono; [apply (tx_brelse dv p start Hdv s2 _ ib i H2); [by left|]|].
    { intros Hnot. by destruct Hnot. }
    intros [] s3 [H3 F3]. cbv beta. apply runs_ret. split; [done|].
    assert (t_drop ib (t_take ib i t2) = t2) as Ed.
    { unfold t_drop, t_take. tcbn. rewrite unheld_cons by (rewrite (fv_held _ _ _ (mv_inv _ _ _ _ _ _ M2)); apply not_elem_of_nil).
      by destruct t2. }
    rewrite Ed in H3. pose proof (moved_fs ip s2 t2 s3 (mv_inv _ _ _ _ _ _ M2) F3) as M3.
    exists t2. split; [done|]. split; [exact (moved_trans _ _ _ _ _ _ _ _ _ M1 (moved_trans _ _ _ _ _ _ _ _ _ M2 M3))|].
    assert (getinode ip s3 = getinode ip s2) as Eg3 by (unfold getinode; by rewrite (fs_frame_inodes p s2 s3 F3)).
    rewrite Eg3. split; [done|]. by intros.
  - rewrite bind_ret_l. apply runs_bind.
    eapply runs_mono; [apply (tx_release dv p start Hdv s s1 t ib i Ht Hnh H1); apply F1|].
    intros [] s2 [H2 F2]. cbv beta. apply runs_ret. split; [done|]. exists t.
    assert (fs_frame s s2) as F by by eapply fs_frame_trans. split; [done|].
    split; [eapply moved_weaken; [by apply moved_fs|lia]|].
    assert (getinode ip s2 = getinode ip s) as Eg2 by (unfold getinode; by rewrite (fs_frame_inodes p s s2 F)).
    rewrite Eg2. split; [done|]. done.
Qed.

Lemma bmap_runs s t ip bn :
  tx s t → file_inv s t ip → 0 ≤ bn < MAXFILE → can_take s t (addr (t_data t) (addrs ip s) (Some bn)) 3 →
  runs (bmap ip bn) s (mapped ip bn s t).
Proof using Hdv.
  intros Ht Hv Hbn Hcan. pose proof Hv as [V1 V2 V3 V4 V5]. unfold bmap. apply runs_gets. cbv beta. rewrite V5.
  destruct (Z.ltb_spec bn NDIRECT) as [Hd|Hd].
  - assert (addr (t_data t) (addrs ip s) (Some bn) = addrs ip s !!! Z.to_nat bn) as Ea
      by (cbn [addr]; by rewrite (proj2 (Z.ltb_lt _ _) Hd)).
    rewrite Ea in Hcan. destruct (Z.eqb_spec (addrs ip s !!! Z.to_nat bn) 0) as [E|E].
    + destruct Hcan as [_ Hcan]. destruct (Hcan E) as [Hb Hf].
      eapply runs_mono; [apply (slot_runs s t ip (Some bn) 4 2 Ht Hv Hbn Hd); [congruence|done|done]|].
      intros a s' (Ha & t' & H1 & M & Eq). split; [done|]. exists t'. split; [done|].
      split; [eapply moved_weaken; [exact M|lia]|]. split; [done|]. intros Hne. congruence.
    + apply runs_ret. split; [done|]. exists t. split; [done|].
      split; [eapply moved_weaken; [apply moved_fs; [done|apply fs_frame_refl]|lia]|]. split; [done|]. intros _. split; [done|apply fs_frame_refl].
  - change (Z.to_nat NDIRECT) with 12%nat. assert (bn - NDIRECT <? NINDIRECT = true) as -> by (apply Z.ltb_lt; unfold MAXFILE in *; lia).
    destruct Hcan as [Hb0 Hcan]. destruct (Z.eqb_spec (addrs ip s !!! 12%nat) 0) as [E|E].
    + assert (addr (t_data t) (addrs ip s) (Some bn) = 0) as E0.
      { cbn [addr]. rewrite (proj2 (Z.ltb_ge _ _)) by lia. by rewrite E. }
      destruct (Hcan E0) as [Hb Hf]. apply runs_bind.
      eapply runs_mono; [apply (slot_runs s t ip None 4 2 Ht Hv I I E Hb Hf)|].
      intros a s1 (Ha & t1 & H1 & M1 & Eq). cbv beta. rewrite <- Eq in Ha |- *.
      eapply runs_mono; [apply (indirect_runs s1 t1 ip bn H1 (mv_inv _ _ _ _ _ _ M1) Ha ltac:(lia))|].
      { split; [apply M1; eapply budget_mono; [done|exact Hb|lia]|]. intros _. rewrite (mv_sb _ _ _ _ _ _ M1).
        split; [by apply M1|]. by apply (mv_free _ _ _ _ _ _ M1). }
      intros a' s2 (Ha' & t2 & H2 & M2 & Eq2 & _). split; [done|]. exists t2. split; [done|].
      split; [exact (moved_trans _ _ _ _ _ _ _ _ _ M1 M2)|]. split; [done|]. by intros.
    + rewrite bind_ret_l. eapply runs_mono; [apply (indirect_runs s t ip bn Ht Hv E ltac:(lia))|].
      { split; [done|]. intros E0. destruct (Hcan E0) as [Hb Hf]. split; [eapply budget_mono; [done|exact Hb|lia]|].
        eapply has_free_mono; [exact Hf|lia]. }
      intros a' s2 (Ha' & t2 & H2 & M2 & Eq2 & Hsame). split; [done|]. exists t2. split; [done|].
      split; [eapply moved_weaken; [exact M2|lia]|]. done.
Qed.

(** ** readi *)

Lemma block_range s t ip bn :
  file_inv s t ip → 0 ≤ bn < MAXFILE → addr (t_data t) (addrs ip s) (Some bn) ≠ 0 →
  0 ≤ addr (t_data t) (addrs ip s) (Some bn) < 2 ^ 31 ∧ addr (t_data t) (addrs ip s) (Some bn) ∉ (t_held t).*1.
Proof.
  intros [V1 V2 V3 V4 V5] Hbn Hne. destruct (fl_range _ _ _ _ V3 (Some bn) Hbn Hne) as ((R1 & R2) & _).
  pose proof (so_size _ (fk_sb _ _ V2)). split; [unfold BPB, BSIZE in *; lia|]. rewrite V1. apply not_elem_of_nil.
Qed.

Lemma readi_turn s t ip n tot off got :
  tx s t → file_inv s t ip → budget s t 0 → 0 ≤ tot < n → 0 ≤ off < isize ip s → n - tot ≤ isize ip s - off →
  let m := Z.min (n - tot) (BSIZE - off `mod` BSIZE) in
  runs (readi_step ip n (tot, off, DstLocal, got)) s (λ r s', tx s' t ∧ fs_frame s s' ∧ 0 < m ∧
    r = inl (tot + m, off + m, DstLocal, got ++ file_bytes (t_data t) (addrs ip s) off (Z.to_nat m))).
Proof using Hdv.
  intros Ht Hv Hb Htot Hoff Hrest m. pose proof Hv as [V1 V2 V3 V4 V5]. pose proof (fl_size _ _ _ _ V3) as Hsz.
  unfold readi_step. rewrite (proj2 (Z.ltb_lt _ _)) by lia.
  pose proof (div_file off ltac:(lia)) as Hbn. pose proof (Z.mod_pos_bound off BSIZE ltac:(unfold BSIZE; lia)) as Hmod.
  assert (addr (t_data t) (addrs ip s) (Some (off / BSIZE)) ≠ 0) as Hne.
  { apply (fl_full _ _ _ _ V3); [lia|]. pose proof (Z.div_mod off BSIZE ltac:(unfold BSIZE; lia)). lia. }
  apply runs_bind. eapply runs_mono; [apply (bmap_runs s t ip _ Ht Hv Hbn); by split|].
  intros a s1 (Ha & t1 & H1 & _ & Ea & Hsame). cbv beta. destruct (Hsame Hne) as [-> F1].
  assert (getinode ip s1 = getinode ip s) as Eg by (unfold getinode; by rewrite (fs_frame_inodes p s s1 F1)).
  unfold ifield. apply runs_gets. cbv beta. rewrite Eg, V5. rewrite Eg in Ea. subst a.
  destruct (block_range s t ip _ Hv Hbn Hne) as [Hr Hnh].
  apply runs_bind. eapply runs_mono; [apply (tx_bread dv p start Hdv s1 t _ H1 Hr Hnh); by eapply budget_used|].
  intros i s2 [H2 F2]. cbv beta. assert (fs_frame s s2) as F by by eapply fs_frame_trans.
  eapply runs_eq; [eapply (tx_bfield dv p start s2 _ _ i H2); by left|]. cbn [t_take t_data].
  unfold either_copyout. rewrite bind_assoc. pose proof (se_thread _ _ _ _ _ (tx_sees _ _ _ _ _ H2)) as Hth.
  eapply runs_eq; [by apply myproc_eq, (th_hart p)|]. rewrite bind_ret_l. cbn [Z.eqb].
  apply runs_bind. eapply runs_mono; [apply (tx_release dv p start Hdv s1 s2 t _ i H1 Hnh H2); apply F2|].
  intros [] s3 [H3 F3]. cbv beta. apply runs_ret. split; [done|]. split; [by eapply fs_frame_trans|]. split; [unfold m; lia|].
  fold m. do 2 f_equal. f_equal. apply block_bytes; [done|lia|unfold m; lia|apply V2].
Qed.

(** [readi] into a variable of the kernel. *)
Lemma readi_runs s t ip off n :
  tx s t → file_inv s t ip → budget s t 0 → 0 ≤ off < 2 ^ 32 → 0 ≤ n < 2 ^ 32 →
  runs (readi ip DstLocal off n) s (λ r s', tx s' t ∧ fs_frame s s' ∧
    let k := if (off >? isize ip s) || (off + n >=? 2 ^ 32) then 0 else Z.min n (isize ip s - off) in
    r = (k, file_bytes (t_data t) (addrs ip s) off (Z.to_nat k))).
Proof using Hdv.
  intros Ht Hv Hb Hoff Hn. pose proof (fl_size _ _ _ _ (fv_file _ _ _ Hv)) as Hsz.
  unfold readi, ifield. apply runs_gets. cbv beta.
  rewrite u32_wraps by done. destruct (Z.gtb_spec off (isize ip s)) as [H1|H1]; [|destruct (Z.geb_spec (off + n) (2 ^ 32)) as [H2|H2]]; cbn [orb].
  1,2: apply runs_ret; split; [done|]; split; [apply fs_frame_refl|done].
  assert (u32 (off + n) = off + n) as -> by (apply u32_small; lia).
  set (k := if off + n >? isize ip s then _ else _).
  assert (k = Z.min n (isize ip s - off)) as Ek by (unfold k; destruct (Z.gtb_spec (off + n) (isize ip s)); lia).
  rewrite <- Ek.
  apply (runs_loop (λ v s', tx s' t ∧ fs_frame s s' ∧ ∃ tot, 0 ≤ tot ≤ k ∧
    v = (tot, off + tot, DstLocal, file_bytes (t_data t) (addrs ip s) off (Z.to_nat tot))) (λ v, Z.to_nat (k - v.1.1.1))).
  - cbn [fst]. lia.
  - split; [done|]. split; [apply fs_frame_refl|]. exists 0. split; [lia|]. by rewrite Z.add_0_r.
  - intros v s1 (Ht1 & F1 & tot & Htot & ->). pose proof (moved_fs ip s t s1 Hv F1) as [Hv1 _ _ _ _ Hb1 _].
    assert (getinode ip s1 = getinode ip s) as Eg by (unfold getinode; by rewrite (fs_frame_inodes p s s1 F1)).
    destruct (decide (tot < k)) as [Hlt|Hge].
    + eapply runs_mono; [apply (readi_turn s1 t ip k tot (off + tot)); rewrite ?Eg; try done; [by apply Hb1|lia|lia|lia]|].
      intros r s2 (Ht2 & F2 & Hm & ->). rewrite Eg. set (m := Z.min (k - tot) _) in *. assert (m ≤ k - tot) by (unfold m; lia).
      cbn [fst]. split; [|lia]. split; [done|]. split; [by eapply fs_frame_trans|].
      exists (tot + m). split; [lia|]. by rewrite file_bytes_app, Z.add_assoc by lia.
    + unfold readi_step. rewrite (proj2 (Z.ltb_ge _ _)) by lia. apply runs_ret. split; [done|]. split; [done|].
      assert (tot = k) as -> by lia. done.
Qed.

(** ** writei *)

(** The state of [writei] after [tot] bytes of [src] have been written at
    [off]. *)
Record wstate (ip : nat) (off : Z) (src : list Z) (s : kernel) (t : txn) (tot : Z) (s' : kernel) (t' : txn) : Prop := {
  ws_tx : tx s' t';
  ws_inv : file_inv s' t' ip;
  ws_frame : file_frame ip s s';
  ws_sb : sb s' = sb s;
  ws_size : isize ip s' = isize ip s;
  ws_bytes : ∀ k, 0 ≤ k < MAXFILE * BSIZE → fbyte (t_data t') (addrs ip s') k =
    if decide (off ≤ k < off + tot) then src !!! Z.to_nat (k - off) else fbyte (t_data t) (addrs ip s) k;
  ws_full : ∀ bn, 0 ≤ bn → bn * BSIZE < off + tot → addr (t_data t') (addrs ip s') (Some bn) ≠ 0;
  ws_other : ∀ b, other (sb s) (t_data t) (addrs ip s) b → t_data t' b = t_data t b ∧
    other (sb s) (t_data t') (addrs ip s') b;
  ws_inodes : ∀ j, 0 ≤ j < sb_ninodes (sb s) → t_data t' (IBLOCK j (sb s)) = t_data t (IBLOCK j (sb s))
}.

(** The bytes of a block after [m] of them have been replaced. *)
Lemma put_bytes_file (d src : list Z) off tot m k :
  length d = Z.to_nat BSIZE → 0 ≤ tot → 0 ≤ m ≤ BSIZE - (off + tot) `mod` BSIZE → tot + m ≤ Z.of_nat (length src) →
  k / BSIZE = (off + tot) / BSIZE →
  put_bytes d (Z.to_nat ((off + tot) `mod` BSIZE)) (take (Z.to_nat m) (drop (Z.to_nat tot) src)) !!! Z.to_nat (k `mod` BSIZE) =
  if decide (off + tot ≤ k < off + tot + m) then src !!! Z.to_nat (k - off) else d !!! Z.to_nat (k `mod` BSIZE).
Proof.
  intros Hd Ht Hm Hs Ek. set (o := off + tot) in *.
  pose proof (Z.mod_pos_bound o BSIZE ltac:(unfold BSIZE; lia)) as Ho. pose proof (Z.mod_pos_bound k BSIZE ltac:(unfold BSIZE; lia)) as Hk.
  pose proof (Z.div_mod o BSIZE ltac:(unfold BSIZE; lia)) as Eo. pose proof (Z.div_mod k BSIZE ltac:(unfold BSIZE; lia)) as Ek2.
  rewrite Ek in Ek2. assert (length (take (Z.to_nat m) (drop (Z.to_nat tot) src)) = Z.to_nat m) as El
    by (rewrite length_take, length_drop; lia).
  rewrite put_bytes_lookup by (rewrite El; lia). rewrite El. repeat case_decide; try lia.
  rewrite !list_lookup_total_alt, lookup_take_lt, lookup_drop by lia. f_equal. f_equal. unfold o in *. lia.
Qed.

Lemma wstate_write ip off src s t tot s1 t1 s2 t2 s3 a m :
  wstate ip off src s t tot s1 t1 → moved ip s1 t1 s2 t2 3 →
  addr (t_data t2) (addrs ip s2) (Some ((off + tot) / BSIZE)) = a → a ≠ 0 → 0 ≤ tot →
  0 < m ≤ BSIZE - (off + tot) `mod` BSIZE → tot + m ≤ Z.of_nat (length src) → 0 ≤ off →
  off + Z.of_nat (length src) ≤ MAXFILE * BSIZE →
  let d := put_bytes (t_data t2 a) (Z.to_nat ((off + tot) `mod` BSIZE)) (take (Z.to_nat m) (drop (Z.to_nat tot) src)) in
  tx s3 (t_write a d t2) → fs_frame s2 s3 → wstate ip off src s t (tot + m) s3 (t_write a d t2).
Proof.
  intros [W1 W2 W3 W4 W5 W6 W7 W8 W9] [V2 Fr2 Esb2 Esz2 G2 B2 N2] Ea Ha Ht Hm Hs Hoff Hmax d H3 F.
  rewrite W4 in Esb2, G2, N2. set (o := off + tot) in *. pose proof (div_file o ltac:(lia)) as Hbn.
  assert (length d = Z.to_nat BSIZE) as Hd by (unfold d; rewrite length_put_bytes; apply V2).
  pose proof V2 as [U1 U2 U3 U4 U5]. rewrite Esb2 in U2, U3. pose proof (fs_frame_inodes p s2 s3 F) as Ei.
  assert (getinode ip s3 = getinode ip s2) as Eg by (unfold getinode; by rewrite Ei).
  assert (sb s3 = sb s) as Es by (rewrite (fs_frame_sb p s2 s3 F); done).
  pose proof (λ k, write_bytes (sb s) t2 (addrs ip s2) (isize ip s2) (o / BSIZE) d a U2 U3 Hbn Ea Ha Hd k) as Hbytes.
  pose proof (λ x, write_addr (sb s) t2 (addrs ip s2) (isize ip s2) (o / BSIZE) d a U2 U3 Hbn Ea Ha Hd x) as Haddr.
  split; rewrite ?Eg, ?Es; try done.
  - split; rewrite ?Eg, ?Es, ?Ei; try done.
    + by eapply write_fs.
    + by eapply write_file.
  - eapply file_frame_trans; [exact W3|]. eapply file_frame_trans; [exact Fr2|]. by apply file_frame_fs.
  - congruence.
  - intros k Hk. rewrite Hbytes by done. case_decide as Ek.
    + unfold d, o. unfold o in *. rewrite put_bytes_file; [|apply U2|done|lia|done|done]. repeat case_decide; try lia; try done.
      * assert (t_data t2 a !!! Z.to_nat (k `mod` BSIZE) = fbyte (t_data t2) (addrs ip s2) k) as ->.
        { unfold fbyte. rewrite Ek, Ea. by rewrite (proj2 (Z.eqb_neq a 0) Ha). }
        rewrite (gr_bytes _ _ _ _ _ G2), W6 by done. rewrite decide_True by lia. done.
      * assert (t_data t2 a !!! Z.to_nat (k `mod` BSIZE) = fbyte (t_data t2) (addrs ip s2) k) as ->.
        { unfold fbyte. rewrite Ek, Ea. by rewrite (proj2 (Z.eqb_neq a 0) Ha). }
        rewrite (gr_bytes _ _ _ _ _ G2), W6 by done. by rewrite decide_False by lia.
    + rewrite (gr_bytes _ _ _ _ _ G2), W6 by done. unfold o in *.
      assert (¬ (off + tot ≤ k < off + tot + m)) as Hout.
      { intros Hin. apply Ek. destruct (div_mod_add (off + tot) (k - (off + tot)) ltac:(lia)) as [E _].
        by replace (off + tot + (k - (off + tot))) with k in E by lia. }
      repeat case_decide; try lia; done.
  - intros bn Hb Hlt. rewrite Haddr by (cbn; unfold o, BSIZE in *; lia). destruct (decide (bn = o / BSIZE)) as [->|Hne]; [by rewrite Ea|].
    assert (addr (t_data t1) (addrs ip s1) (Some bn) ≠ 0) as Hn.
    { apply W7; [done|]. fold o. pose proof (Z.div_mod o BSIZE ltac:(unfold BSIZE; lia)).
      pose proof (Z.mod_pos_bound o BSIZE ltac:(unfold BSIZE; lia)). unfold o, BSIZE in *. lia. }
    rewrite (gr_keep _ _ _ _ _ G2); [done|unfold o, BSIZE in *; lia|done].
  - intros b Hb'. destruct (W8 b Hb') as [E1 O1]. destruct (gr_other _ _ _ _ _ G2 b O1) as [E2 O2].
    destruct (write_other (sb s) t2 (addrs ip s2) (isize ip s2) (o / BSIZE) d a U2 U3 Hbn Ea Ha Hd b O2) as [E3 O3].
    split; [congruence|done].
  - intros j Hj. rewrite (write_inodes (sb s) t2 (addrs ip s2) (isize ip s2) (o / BSIZE) d a U2 U3 Hbn Ea Ha Hd j Hj).
    rewrite (gr_inodes _ _ _ _ _ G2) by done. by apply W9.
Qed.

Lemma writei_turn ip off src s t tot s1 t1 :
  let n := Z.of_nat (length src) in
  wstate ip off src s t tot s1 t1 → 0 ≤ off → 0 ≤ tot < n → off + n ≤ MAXFILE * BSIZE →
  budget s1 t1 7 → has_free (sb s) (t_data t1) 3 →
  let m := Z.min (n - tot) (BSIZE - (off + tot) `mod` BSIZE) in
  runs (writei_step ip n (tot, off + tot, SrcKernel (drop (Z.to_nat tot) src))) s1 (λ r s2, 0 < m ∧
    r = inl (tot + m, off + (tot + m), SrcKernel (drop (Z.to_nat (tot + m)) src)) ∧
    ∃ t2, wstate ip off src s t (tot + m) s2 t2 ∧ (∀ q, budget s1 t1 (q + 7) → budget s2 t2 q) ∧
      (∀ q, has_free (sb s) (t_data t1) (q + 3) → has_free (sb s) (t_data t2) q)).
Proof using Hdv.
  intros n W Hoff Htot Hmax Hb Hfree m. pose proof W as [W1 W2 W3 W4 W5 W6 W7 W8 W9].
  set (o := off + tot) in *. pose proof (div_file o ltac:(lia)) as Hbn.
  pose proof (Z.mod_pos_bound o BSIZE ltac:(unfold BSIZE; lia)) as Hmod.
  pose proof (Z.div_mod o BSIZE ltac:(unfold BSIZE; lia)) as Eo.
  unfold writei_step. rewrite (proj2 (Z.ltb_lt _ _)) by lia. apply runs_bind.
  eapply runs_mono; [apply (bmap_runs s1 t1 ip _ W1 W2 Hbn)|].
  { split; [eapply budget_mono; [done|exact Hb|lia]|]. intros _. rewrite W4. split; [|done]. eapply budget_mono; [done|exact Hb|lia]. }
  intros a s2 (Ha & t2 & H2 & M & Ea & _). cbv beta. pose proof M as [V2 Fr2 Esb2 Esz2 G2 B2 N2]. rewrite W4 in Esb2, G2, N2.
  unfold ifield. apply runs_gets. cbv beta. rewrite (fv_dev _ _ _ V2).
  destruct (block_range s2 t2 ip _ V2 Hbn) as [Hr Hnh]; [by rewrite Ea|]. rewrite Ea in Hr, Hnh.
  assert (budget s2 t2 1) as Hb2 by (by apply B2).
  apply runs_bind. eapply runs_mono; [apply (tx_bread dv p start Hdv s2 t2 a H2 Hr Hnh); by eapply budget_used|].
  intros i s3 [H3 F3]. cbv beta zeta. unfold either_copyin. rewrite bind_assoc.
  pose proof (se_thread _ _ _ _ _ (tx_sees _ _ _ _ _ H3)) as Hth.
  eapply runs_eq; [by apply myproc_eq, (th_hart p)|]. rewrite bind_ret_l. fold m.
  set (bytes := take (Z.to_nat m) (drop (Z.to_nat tot) src)). set (ow := Z.to_nat (o `mod` BSIZE)).
  apply runs_bind. eapply runs_mono; [apply (tx_bdata dv p start s3 _ a i (λ data, put_bytes data ow bytes) H3); [by left|]|].
  { intros x Hx. by rewrite length_put_bytes. }
  intros [] s4 [H4 F4]. cbv beta. cbn [t_take t_data Z.eqb]. cbn [t_take t_data] in H4.
  assert (fs_frame s2 s4) as F by by eapply fs_frame_trans.
  set (d := put_bytes (t_data t2 a) ow bytes) in *.
  assert (length d = Z.to_nat BSIZE) as Hd by (unfold d; rewrite length_put_bytes; apply V2).
  apply (runs_seq (log_write i) (brelse i)).
  eapply runs_mono; [apply (tx_commit dv p start Hdv s4 t2 a i d 0 H4 Hnh Hr); eapply budget_mono; [apply F|exact Hb2|lia]|].
  intros [] s5 [H5 F5]. cbv beta. apply runs_ret. assert (fs_frame s2 s5) as F' by by eapply fs_frame_trans.
  split; [unfold m; lia|]. split; [do 3 f_equal; [unfold o; lia|cbn [src_add]; f_equal; rewrite drop_drop; f_equal; unfold m; lia]|].
  exists (t_write a d t2). split; [|split].
  - eapply wstate_write; [exact W|exact M|exact Ea|exact Ha|lia|unfold m, o in *; lia|unfold m, n; lia|lia|exact Hmax|exact H5|exact F'].
  - intros q Hq. eapply budget_write; [apply F'|]. apply B2. by replace (S q + 2 * 3)%nat with (q + 7)%nat by lia.
  - intros q Hq. destruct (N2 q Hq) as (fr & Hnd & Hl & Hfr). exists fr. split; [done|]. split; [done|].
    intros b Hb'. destruct (Hfr b Hb') as [R1 R2]. split; [done|]. rewrite bit_write; [done| |done]. rewrite <- Esb2.
    by apply (write_range (sb s2) t2 (addrs ip s2) (isize ip s2) (o / BSIZE) d a (fv_fs _ _ _ V2) (fv_file _ _ _ V2) Hbn Ea Ha).
Qed.

(** The inode as it is stored. *)
Definition dinode_of (i : inode) : dinode :=
  mk_dinode (i_type i) (i_major i) (i_minor i) (i_nlink i) (i_size i) (i_addrs i).

Lemma iupdate_runs s t ip k :
  tx s t → file_inv s t ip → 0 ≤ i_inum (getinode ip s) < sb_ninodes (sb s) → budget s t (S k) →
  let b := IBLOCK (i_inum (getinode ip s)) (sb s) in
  let d := put_dinode (t_data t b) (dinode_off (i_inum (getinode ip s))) (dinode_of (getinode ip s)) in
  runs (iupdate ip) s (λ _ s', tx s' (t_write b d t) ∧ fs_frame s s').
Proof using Hdv.
  intros Ht Hv Hi Hb b d. pose proof Hv as [V1 V2 V3 V4 V5]. destruct (iblock_range _ _ _ V2 Hi) as [Hr _]. fold b in Hr.
  assert (b ∉ (t_held t).*1) as Hnh by (rewrite V1; apply not_elem_of_nil).
  unfold iupdate. apply runs_gets. cbv beta. apply runs_gets. cbv beta. rewrite V5. fold b.
  apply runs_bind. eapply runs_mono; [apply (tx_bread dv p start Hdv s t b Ht Hr Hnh); by eapply budget_used|].
  intros i s1 [H1 F1]. cbv beta. apply runs_gets. cbv beta.
  assert (getinode ip s1 = getinode ip s) as Eg by (unfold getinode; by rewrite (fs_frame_inodes p s s1 F1)). rewrite Eg.
  apply runs_bind. eapply runs_mono; [apply (tx_bdata dv p start s1 _ b i (λ data, put_dinode data _ _) H1); [by left|]|].
  { intros x Hx. by rewrite length_put_dinode. }
  intros [] s2 [H2 F2]. cbv beta. cbn [t_take t_data] in H2. fold (dinode_of (getinode ip s)) in H2. fold d in H2.
  assert (fs_frame s s2) as F by by eapply fs_frame_trans.
  eapply runs_mono; [apply (tx_commit dv p start Hdv s2 t b i d k H2 Hnh Hr); eapply budget_mono; [apply F|exact Hb|lia]|].
  intros [] s3 [H3 F3]. split; [done|by eapply fs_frame_trans].
Qed.

(** The number of blocks that [n] bytes at [off] lie in. *)
Definition touched (off n : Z) : nat := Z.to_nat ((off + n - 1) / BSIZE - off / BSIZE + 1).

Lemma touched_pos off n : 0 ≤ off → 0 < n → (1 ≤ touched off n)%nat.
Proof.
  intros Ho Hn. unfold touched. assert (off / BSIZE ≤ (off + n - 1) / BSIZE) by (apply Z.div_le_mono; unfold BSIZE; lia). lia.
Qed.

(** After a turn one block less is left. *)
Lemma touched_next off n m :
  0 ≤ off → 0 < m < n → m = BSIZE - off `mod` BSIZE → S (touched (off + m) (n - m)) = touched off n.
Proof.
  intros Ho Hm E. unfold touched. assert ((off + m) / BSIZE = off / BSIZE + 1) as ->.
  { symmetry. apply (Z.div_unique_pos _ _ _ 0); [unfold BSIZE; lia|]. pose proof (Z.div_mod off BSIZE ltac:(unfold BSIZE; lia)).
    unfold BSIZE in *. lia. }
  replace (off + m + (n - m) - 1) with (off + n - 1) by lia.
  assert (off / BSIZE + 1 ≤ (off + n - 1) / BSIZE); [|lia].
  apply Z.div_le_lower_bound; [unfold BSIZE; lia|]. pose proof (Z.div_mod off BSIZE ltac:(unfold BSIZE; lia)). unfold BSIZE in *. lia.
Qed.

Lemma writei_loop ip off src s t :
  let n := Z.of_nat (length src) in
  tx s t → file_inv s t ip → 0 ≤ off ≤ isize ip s → off + n ≤ MAXFILE * BSIZE →
  budget s t (7 * touched off n + 1) → has_free (sb s) (t_data t) (3 * touched off n) →
  runs (loop (writei_step ip n) (0, off, SrcKernel src)) s (λ r s', r = (n, off + n) ∧
    ∃ t', wstate ip off src s t n s' t' ∧ budget s' t' 1).
Proof using Hdv.
  intros n Ht Hv Hoff Hmax Hb Hfree. pose proof Hv as [V1 V2 V3 V4 V5].
  apply (runs_loop (λ v s1, ∃ tot t1 q, v = (tot, off + tot, SrcKernel (drop (Z.to_nat tot) src)) ∧ 0 ≤ tot ≤ n ∧
    wstate ip off src s t tot s1 t1 ∧ (tot < n → (touched (off + tot)%Z (n - tot)%Z ≤ q)%nat) ∧
    budget s1 t1 (7 * q + 1) ∧ has_free (sb s) (t_data t1) (3 * q)) (λ v, Z.to_nat (n - v.1.1))).
  - cbn [fst]. unfold MAXFILE, NINDIRECT, NDIRECT, BSIZE in Hmax. change (1024 / 4) with 256 in Hmax. lia.
  - exists 0, t, (touched off n). rewrite Z.add_0_r, Z.sub_0_r. split; [done|]. split; [lia|]. split; [|done].
    split; [done|done|by apply file_frame_fs, fs_frame_refl|done|done|..|by split|done].
    + intros k Hk. by rewrite decide_False by lia.
    + intros bn H1 H2. apply (fl_full _ _ _ _ V3); lia.
  - intros v s1 (tot & t1 & q & -> & Htot & W & Hq & Hb1 & Hf1). destruct (decide (tot < n)) as [Hlt|Hge].
    + specialize (Hq Hlt). pose proof (touched_pos (off + tot) (n - tot) ltac:(lia) ltac:(lia)) as Hpos.
      eapply runs_mono; [apply (writei_turn ip off src s t tot s1 t1 W); fold n; [lia|lia|done|..]|].
      { eapply budget_mono; [done|exact Hb1|lia]. }
      { eapply has_free_mono; [exact Hf1|lia]. }
      fold n. set (m := Z.min (n - tot) (BSIZE - (off + tot) `mod` BSIZE)). intros r s2 (Hm & -> & t2 & W2 & B2 & N2).
      cbn [fst]. split; [|lia]. exists (tot + m), t2, (q - 1)%nat. split; [done|]. split; [unfold m in *; lia|]. split; [done|].
      split; [|split; [apply B2|apply N2]; [eapply budget_mono; [done|exact Hb1|lia]|eapply has_free_mono; [exact Hf1|lia]]].
      intros Hlt2. pose proof (touched_next (off + tot) (n - tot) m ltac:(lia) ltac:(lia) ltac:(unfold m in *; lia)) as Hn.
      replace (off + (tot + m)) with (off + tot + m) by lia. replace (n - (tot + m)) with (n - tot - m) by lia. lia.
    + assert (tot = n) as -> by lia. unfold writei_step. rewrite (proj2 (Z.ltb_ge _ _)) by lia. apply runs_ret.
      split; [done|]. exists t1. split; [done|]. eapply budget_mono; [done|exact Hb1|lia].
Qed.

(** The fields of an inode that are not changed by writing fit. *)
Definition inode_fits (i : inode) : Prop :=
  - 2 ^ 15 ≤ i_type i < 2 ^ 15 ∧ - 2 ^ 15 ≤ i_major i < 2 ^ 15 ∧ - 2 ^ 15 ≤ i_minor i < 2 ^ 15 ∧ - 2 ^ 15 ≤ i_nlink i < 2 ^ 15.

Lemma dinode_of_ok s t ip : file_inv s t ip → inode_fits (getinode ip s) → dinode_ok (dinode_of (getinode ip s)).
Proof.
  intros [V1 V2 V3 V4 V5] (T1 & T2 & T3 & T4). pose proof (so_size _ (fk_sb _ _ V2)) as Hsz. unfold BPB, BSIZE in Hsz.
  split; cbn; try done.
  - pose proof (fl_size _ _ _ _ V3) as Hs. unfold MAXFILE, NINDIRECT, NDIRECT, BSIZE in Hs. change (1024 / 4) with 256 in Hs. lia.
  - apply Forall_lookup_2. intros i a Ha. pose proof (fl_len _ _ _ _ V3) as Hl. pose proof (lookup_lt_Some _ _ _ Ha) as Hi.
    assert (∃ x, valid x ∧ addr (t_data t) (addrs ip s) x = a) as (x & Hx & Ex).
    { apply list_lookup_total_correct in Ha. destruct (decide (i = 12%nat)) as [->|Hne]; [by exists None|].
      exists (Some (Z.of_nat i)). cbn. unfold MAXFILE, NINDIRECT, NDIRECT, BSIZE. change (1024 / 4) with 256.
      split; [lia|]. by rewrite (proj2 (Z.ltb_lt _ _)), Nat2Z.id by lia. }
    destruct (decide (a = 0)) as [->|Hne]; [lia|]. rewrite <- Ex in Hne |- *.
    destruct (fl_range _ _ _ _ V3 x Hx Hne) as [R _]. lia.
  - apply V3.
Qed.

(** The end of [writei]: the new size, and the inode on the disk. *)
Lemma writei_end ip off src s t s1 t1 :
  let n := Z.of_nat (length src) in
  wstate ip off src s t n s1 t1 → budget s1 t1 1 → 0 ≤ off ≤ isize ip s → off + n ≤ MAXFILE * BSIZE →
  0 ≤ i_inum (getinode ip s) < sb_ninodes (sb s) → inode_fits (getinode ip s) → file_inv s t ip →
  runs (let! size := ifield ip i_size in
        when (off + n >? size) (iset ip (set_i_size (off + n))) ;;; iupdate ip ;;; ret n) s1
    (λ r s', r = n ∧ ∃ t', tx s' t' ∧ file_inv s' t' ip ∧ file_frame ip s s' ∧ sb s' = sb s ∧
      isize ip s' = Z.max (isize ip s) (off + n) ∧
      (∀ k, 0 ≤ k < MAXFILE * BSIZE → fbyte (t_data t') (addrs ip s') k =
        if decide (off ≤ k < off + n) then src !!! Z.to_nat (k - off) else fbyte (t_data t) (addrs ip s) k) ∧
      (∀ b, other (sb s) (t_data t) (addrs ip s) b → t_data t' b = t_data t b) ∧
      (∀ j, 0 ≤ j < sb_ninodes (sb s) → get_dinode (t_data t' (IBLOCK j (sb s))) (dinode_off j) =
        if decide (j = i_inum (getinode ip s)) then dinode_of (getinode ip s')
        else get_dinode (t_data t (IBLOCK j (sb s))) (dinode_off j)) ∧ budget s' t' 0).
Proof using Hdv.
  intros n [W1 W2 W3 W4 W5 W6 W7 W8 W9] Hb Hoff Hmax Hi Hfit Hv. pose proof W2 as [U1 U2 U3 U4 U5].
  unfold ifield. apply runs_gets. cbv beta.
  set (s2 := if off + n >? isize ip s1 then upd_inode ip (set_i_size (off + n)) s1 else s1).
  assert (when (off + n >? isize ip s1) (iset ip (set_i_size (off + n))) s1 = Ret tt s2) as Ew
    by (unfold s2, when; by destruct (off + n >? isize ip s1)).
  eapply runs_eq; [exact Ew|].
  assert (getinode ip s2 = set_i_size (Z.max (isize ip s) (off + n)) (getinode ip s1)) as Eg.
  { unfold s2. rewrite W5. destruct (Z.gtb_spec (off + n) (isize ip s)) as [Hgt|Hle].
    - rewrite getinode_upd by done. by rewrite Z.max_r by lia.
    - rewrite Z.max_l by lia. rewrite <- W5. by destruct (getinode ip s1). }
  assert (sb s2 = sb s) as Es2 by (unfold s2; by destruct (off + n >? _)).
  assert (tx s2 t1) as H2 by (unfold s2; destruct (off + n >? _); [by apply tx_inodes|done]).
  assert (budget s2 t1 1) as Hb2 by (unfold s2; by destruct (off + n >? _)).
  assert (file_frame ip s s2) as F2.
  { eapply file_frame_trans; [exact W3|]. unfold s2. destruct (off + n >? _); [|by apply file_frame_fs, fs_frame_refl].
    apply file_frame_upd; [done|]. exists (addrs ip s1), (off + n). by destruct (getinode ip s1). }
  assert (file_inv s2 t1 ip) as V2.
  { split; rewrite ?Eg, ?Es2; cbn [i_size i_addrs i_dev set_i_size]; try done; [by rewrite <- W4| |].
    - rewrite <- W4. pose proof U3 as [L1 L2 L3 L4 L5]. split; try done.
      + pose proof (fl_size _ _ _ _ (fv_file _ _ _ Hv)). lia.
      + intros bn Hbn Hlt. destruct (decide (bn * BSIZE < off + n)) as [H1|H1]; [by apply W7|].
        apply L5; [done|]. rewrite W5. lia.
    - rewrite (ff_len _ _ _ F2). apply Hv. }
  assert (i_inum (getinode ip s2) = i_inum (getinode ip s)) as En
    by (destruct (ff_inode _ _ _ F2) as (l & z & ->); by destruct (getinode ip s)).
  assert (inode_fits (getinode ip s2)) as Hfit2 by (destruct (ff_inode _ _ _ F2) as (l & z & ->); exact Hfit).
  apply runs_bind. eapply runs_mono; [apply (iupdate_runs s2 t1 ip 0 H2 V2); [by rewrite En, Es2|done]|].
  rewrite En, Es2. set (ib := IBLOCK _ (sb s)). set (d := put_dinode _ _ _). intros [] s3 [H3 F3]. cbv beta. apply runs_ret.
  assert (length d = Z.to_nat BSIZE) as Hd by (unfold d; rewrite length_put_dinode; apply U2).
  split; [done|]. exists (t_write ib d t1). pose proof V2 as [X1 X2 X3 X4 X5]. rewrite Es2 in X2, X3.
  assert (getinode ip s3 = getinode ip s2) as Eg3 by (unfold getinode; by rewrite (fs_frame_inodes p s2 s3 F3)).
  assert (sb s3 = sb s) as Es3 by (by rewrite (fs_frame_sb p s2 s3 F3)). rewrite !Eg3.
  assert (i_addrs (getinode ip s2) = addrs ip s1) as Ea by by rewrite Eg.
  assert (i_size (getinode ip s2) = Z.max (isize ip s) (off + n)) as Ez by by rewrite Eg.
  split; [done|]. split.
  { split; rewrite ?Eg3, ?Es3; try done; [|by eapply iwrite_file|by rewrite (fs_frame_inodes p s2 s3 F3)].
    eapply iwrite_fs; try done. apply X2. }
  split; [eapply file_frame_trans; [exact F2|by apply file_frame_fs]|]. split; [done|]. split; [done|]. split.
  { intros k Hk. rewrite <- W6 by done. rewrite <- Ea. by eapply iwrite_bytes. }
  split.
  { intros b Hb'. destruct (W8 b Hb') as [E1 O1]. rewrite <- E1. rewrite <- Ea in O1. by eapply iwrite_other. }
  split; [|eapply budget_write; [apply F3|done]].
  intros j Hj. unfold t_write. tcbn. unfold set_at. case_decide as Ej.
  - unfold d, ib. rewrite W9 by done. case_decide as Eij.
    + subst j. apply get_put_dinode; [rewrite (fk_len _ _ (fv_fs _ _ _ Hv)); apply dinode_fits|]. by eapply dinode_of_ok.
    + rewrite Ej. apply get_dinode_ext. intros q Hq. apply put_dinode_lookup.
      destruct (dinode_apart (sb s) (t_data t) (i_inum (getinode ip s)) j) as [Hap|Hap]; try done; [apply Hv|lia|lia].
  - case_decide as Eij; [by subst j|]. by rewrite W9.
Qed.
End io.
