(* ===== verification/FsSpec.v ===== *)
(** * What the file system promises

    The block allocator, and the contents of files as [readi] and [writei] read
    and write them, inside a transaction. *)

From S2P Require Import Prelude Machine Memory Kstring State Spinlock Kalloc Vm Sched Runs Proc Sleeplock Block Bio Cache.
From S2P Require Import CacheOps CacheLogic CacheSpec Log LogSpec LogOps Fs FsLogic FsAlloc FsFile FsIo.

(** C22: [balloc] takes the first block whose bit in the bitmap is
    clear: it sets the bit, fills the block with zeroes, enters both blocks in
    the log and changes nothing else; it panics exactly when every bit below
    the size of the file system is set. *)
Theorem balloc_spec dv p start s t k :
  0 ≤ dv < 2 ^ 32 → tx dv p start s t → sb_ok (sb s) → held_ok s t → budget s t (S (S k)) →
  let bit := bit_of (sb s) (t_data t) in
  (∃ b s', balloc dv s = Ret b s' ∧ fs_frame p s s' ∧ tx dv p start s' (t_alloc (sb s) b t) ∧
     0 ≤ b < sb_size (sb s) ∧ bit b = false ∧ ∀ c, 0 ≤ c < b → bit c = true) ∨
  (balloc dv s = Panic "balloc: out of blocks" ∧ ∀ c, 0 ≤ c < sb_size (sb s) → bit c = true).
Proof. intros Hdv. by apply balloc_eq. Qed.

Section write.
Context (dv : Z) (p : nat) (start : Z).
Hypothesis Hdv : 0 ≤ dv < 2 ^ 32.

(** What [writei] has done. *)
Record wrote_file (ip : nat) (off : Z) (src : list Z) (s : kernel) (t : txn) (s' : kernel) (t' : txn) : Prop := {
  wf_tx : tx dv p start s' t';
  wf_inv : file_inv dv s' t' ip;
  wf_frame : file_frame p ip s s';
  wf_sb : sb s' = sb s;
  wf_size : i_size (getinode ip s') = Z.max (i_size (getinode ip s)) (off + Z.of_nat (length src));
  wf_bytes : ∀ k, 0 ≤ k < MAXFILE * BSIZE → fbyte (t_data t') (i_addrs (getinode ip s')) k =
    if decide (off ≤ k < off + Z.of_nat (length src)) then src !!! Z.to_nat (k - off)
    else fbyte (t_data t) (i_addrs (getinode ip s)) k;
  wf_other : ∀ b, other (sb s) (t_data t) (i_addrs (getinode ip s)) b → t_data t' b = t_data t b;
  wf_inodes : ∀ j, 0 ≤ j < sb_ninodes (sb s) → get_dinode (t_data t' (IBLOCK j (sb s))) (dinode_off j) =
    if decide (j = i_inum (getinode ip s)) then dinode_of (getinode ip s')
    else get_dinode (t_data t (IBLOCK j (sb s))) (dinode_off j);
  wf_budget : budget s' t' 0
}.

(** What [writei] needs to write [n] bytes at [off]. *)
Record can_write (ip : nat) (off n : Z) (s : kernel) (t : txn) : Prop := {
  cw_tx : tx dv p start s t;
  cw_inv : file_inv dv s t ip;
  cw_inum : 0 ≤ i_inum (getinode ip s) < sb_ninodes (sb s);
  cw_fits : inode_fits (getinode ip s);
  cw_budget : budget s t (7 * touched off n + 1);
  cw_free : has_free (sb s) (t_data t) (3 * touched off n)
}.

Lemma writei_ok ip off src s t :
  let n := Z.of_nat (length src) in
  can_write ip off n s t → 0 ≤ off ≤ i_size (getinode ip s) → off + n ≤ MAXFILE * BSIZE →
  ∃ s' t', writei ip (SrcKernel src) off n s = Ret n s' ∧ wrote_file ip off src s t s' t'.
Proof using Hdv.
  intros n [C1 C2 C3 C4 C5 C6] Hoff Hmax.
  assert (MAXFILE * BSIZE < 2 ^ 32) as Hm by done.
  assert (runs (writei ip (SrcKernel src) off n) s (λ r s', r = n ∧ ∃ t', wrote_file ip off src s t s' t')) as (r & s' & E & -> & t' & H).
  { unfold writei, ifield. apply runs_gets. cbv beta. rewrite u32_wraps, u32_small by lia.
    rewrite Z.gtb_ltb, (proj2 (Z.ltb_ge _ _)), Z.geb_leb, (proj2 (Z.leb_gt _ _)) by lia. cbn [orb].
    rewrite Z.gtb_ltb, (proj2 (Z.ltb_ge _ _)) by lia. apply runs_bind.
    eapply runs_mono; [by apply (writei_loop dv p start Hdv ip off src s t)|].
    intros r s1 (-> & t1 & W & Hb). cbv beta iota.
    eapply runs_mono; [by apply (writei_end dv p start Hdv ip off src s t s1 t1)|].
    intros r s' (-> & t' & R1 & R2 & R3 & R4 & R5 & R6 & R7 & R8 & R9). split; [done|]. exists t'. by split. }
  by exists s', t'.
Qed.
End write.

(** C3: [writei] of [n] bytes to a file, from memory of the kernel,
    in a transaction with room for the blocks it touches and enough free
    blocks: unless it starts past the end of the file or would make it larger
    than MAXFILE blocks, where it returns -1 and does nothing, it returns [n]; the
    bytes of the file are then the new ones at [off] and the old ones
    elsewhere, whether their blocks were there or had to be allocated, direct
    or through the indirect block; the size is the larger of the old one and
    [off + n]; the inode on the disk is the inode in memory; and no other inode
    and no block in use for something else has changed. *)
Theorem writei_spec dv p start ip off src s t :
  let n := Z.of_nat (length src) in
  0 ≤ dv < 2 ^ 32 → can_write dv p start ip off n s t → 0 ≤ off < 2 ^ 32 → n < 2 ^ 32 →
  if decide (off ≤ i_size (getinode ip s) ∧ off + n ≤ MAXFILE * BSIZE)
  then ∃ s' t', writei ip (SrcKernel src) off n s = Ret n s' ∧ wrote_file dv p start ip off src s t s' t'
  else writei ip (SrcKernel src) off n s = Ret (-1) s.
Proof.
  intros n Hdv Hc Hoff Hn. case_decide as Hd; [apply writei_ok; [done|done|lia|lia]|].
  unfold writei, ifield, bind at 1, gets. cbn [obind]. rewrite u32_wraps by lia.
  destruct (Z.gtb_spec off (i_size (getinode ip s))) as [H1|H1]; [done|].
  destruct (Z.geb_spec (off + n) (2 ^ 32)) as [H2|H2]; [done|]. cbn [orb]. rewrite u32_small by lia.
  destruct (Z.gtb_spec (off + n) (MAXFILE * BSIZE)) as [H3|H3]; [done|]. lia.
Qed.

(** [readi] into a variable of the kernel returns the bytes of
    the file from [off] on, as many as were asked for and as there are up to
    the end of the file; it allocates nothing and changes neither the file nor
    the log.  Past the end, and where [off + n] does not fit in 32 bits, it
    returns 0. *)
Theorem readi_spec dv p start ip off n s t :
  0 ≤ dv < 2 ^ 32 → tx dv p start s t → file_inv dv s t ip → budget s t 0 → 0 ≤ off < 2 ^ 32 → 0 ≤ n < 2 ^ 32 →
  let size := i_size (getinode ip s) in
  let k := if (off >? size) || (off + n >=? 2 ^ 32) then 0 else Z.min n (size - off) in
  ∃ s', readi ip DstLocal off n s = Ret (k, file_bytes (t_data t) (i_addrs (getinode ip s)) off (Z.to_nat k)) s' ∧
    tx dv p start s' t ∧ fs_frame p s s'.
Proof.
  intros Hdv Ht Hv Hb Hoff Hn size k. destruct (readi_runs dv p start Hdv s t ip off n Ht Hv Hb Hoff Hn) as (r & s' & E & H1 & H2 & ->).
  by exists s'.
Qed.

(** C23: what has been written to a file is read back from it. *)
Theorem file_write_read dv p start ip off src s t :
  let n := Z.of_nat (length src) in
  0 ≤ dv < 2 ^ 32 → can_write dv p start ip off n s t → 0 ≤ off ≤ i_size (getinode ip s) → off + n ≤ MAXFILE * BSIZE →
  ∃ s' s'', writei ip (SrcKernel src) off n s = Ret n s' ∧ readi ip DstLocal off n s' = Ret (n, src) s''.
Proof.
  intros n Hdv Hc Hoff Hmax. destruct (writei_ok dv p start Hdv ip off src s t Hc Hoff Hmax) as (s' & t' & E & [H1 H2 _ _ H5 H6 _ _ H9]).
  fold n in E, H5, H6. assert (MAXFILE * BSIZE < 2 ^ 32) as Hm by done.
  destruct (readi_runs dv p start Hdv s' t' ip off n H1 H2 H9) as (r & s'' & E2 & _ & _ & Er); [lia|lia|].
  exists s', s''. split; [done|]. rewrite E2, Er. rewrite H5.
  rewrite Z.gtb_ltb, (proj2 (Z.ltb_ge _ _)), Z.geb_leb, (proj2 (Z.leb_gt _ _)) by lia. cbn [orb].
  rewrite Z.min_l by lia. do 2 f_equal. unfold n. rewrite Nat2Z.id.
  apply list_eq_same_length with (length src); [done|by rewrite length_file_bytes|]. intros j x y Hj.
  rewrite file_bytes_lookup by done. intros [= <-] Hy. rewrite H6 by lia. rewrite decide_True by lia.
  apply list_lookup_total_correct. by replace (Z.to_nat (off + Z.of_nat j - off)) with j by lia.
Qed.

(** ** A sample file system *)

(** A transaction begins on an idle cache. *)
Lemma tx_begin dv p start s :
  thread_ok p s → cache_ok dv s → log_idle dv start s → nused (bufs s) = 0 →
  (∀ n, info dv s n = mk_binfo (dblock (disk s) n) 0 None) →
  tx dv p start (upd_log (set_log_outstanding 1) s) (mk_txn (dblock (disk s)) [] []).
Proof.
  intros Ht Hc Hl Hu Hi. split; try (by constructor).
  - apply sees_log. eapply sees_ext; [by apply (sees_self dv p s)|..]; done.
  - destruct (li_hdr _ _ _ Hl) as [M1 M2 M3 M4 M5]. by split.
  - done.
Qed.

Lemma tx_sb dv p start s t x : tx dv p start s t → tx dv p start (set_sb x s) t.
Proof.
  intros [[H1 H2 H3 H4 H5 H6 H7 H8] B C D E F]. split; try done; [|by destruct B; split].
  split; try done.
  - eapply thread_ok_ext; [..|exact H1]; done.
  - apply cstep_refl.
  - destruct H3 as [A1 A2 A3 A4]. by split.
  - intros n i Hin. destruct (H8 n i Hin) as [A1 A2 A3]. by split.
Qed.

(** 200 blocks, of which 0 to 47 are in use; the inodes are in blocks 32 and 33
    and the bitmap is block 45. *)
Definition sample_sb : superblock :=
  {| sb_magic := FSMAGIC; sb_size := 200; sb_nblocks := 154; sb_ninodes := 32; sb_nlog := 30; sb_logstart := 2;
     sb_inodestart := 32; sb_bmapstart := 45 |}.

Definition sample_bitmap : list Z := replicate 6 255 ++ replicate 1018 0.

(** An empty file. *)
Definition sample_inode : inode :=
  mk_inode ROOTDEV 1 1 (mk_sleeplock false "inode" 0) true T_FILE 0 0 1 0 (replicate 13 0).

Definition sample_data : Z → list Z := set_at 45 sample_bitmap (dblock ∅).
Definition sample_txn : txn := mk_txn sample_data [45] [].

Lemma sample_bit b : 0 ≤ b < 200 → bit_of sample_sb sample_data b = (b <? 48).
Proof.
  intros Hb. unfold bit_of, BBLOCK, BPB, BSIZE. cbn [sb_bmapstart sample_sb]. rewrite (Z.div_small b) by lia.
  change (u32 (0 + 45)) with 45. rewrite (Z.mod_small b) by lia. unfold sample_data. rewrite set_at_eq.
  assert (0 ≤ b `mod` 8 < 8) as Hm by (apply Z.mod_pos_bound; lia). pose proof (Z.div_mod b 8 ltac:(lia)) as Hd.
  rewrite list_lookup_total_alt. unfold sample_bitmap. destruct (Z.ltb_spec b 48) as [H|H].
  - rewrite lookup_app_l, lookup_replicate_2 by (rewrite ?length_replicate; lia). cbn [default].
    change 255 with (Z.ones 8). by apply Z.ones_spec_low.
  - rewrite lookup_app_r, lookup_replicate_2 by (rewrite ?length_replicate; lia). apply Z.bits_0.
Qed.

Lemma sample_meta b : meta sample_sb b → b = 45 ∨ b = 32 ∨ b = 33.
Proof.
  intros [(c & Hc & ->)|(j & Hj & ->)]; cbn in *.
  - left. unfold BBLOCK, BPB, BSIZE. rewrite Z.div_small by lia. done.
  - right. unfold IBLOCK. change IPB with 16. cbn [sb_inodestart sample_sb].
    assert (j / 16 = 0 ∨ j / 16 = 1) as [-> | ->]; [|by left|by right].
    assert (0 ≤ j / 16 < 2) by (split; [apply Z.div_pos; lia|apply Z.div_lt_upper_bound; lia]). lia.
Qed.

Lemma sample_fs_ok : fs_ok sample_sb sample_data.
Proof.
  split.
  - split; cbn; unfold BPB, BSIZE; lia || done.
  - intros b. unfold sample_data, set_at. case_decide; [done|]. rewrite dblock_empty. done.
  - by rewrite sample_bit.
  - intros b Hm Hb. rewrite sample_bit by done. apply Z.ltb_lt. destruct (sample_meta b Hm); lia.
  - intros c j Hc Hj E. destruct (sample_meta (IBLOCK j sample_sb)) as [H|H]; [right; by exists j| |].
    + assert (j / 16 = 0 ∨ j / 16 = 1) as Hj2.
      { assert (0 ≤ j / 16 < 2) by (cbn in Hj; split; [apply Z.div_pos; lia|apply Z.div_lt_upper_bound; lia]). lia. }
      unfold IBLOCK in H. change IPB with 16 in H. destruct Hj2 as [Ej|Ej]; rewrite Ej in H; done.
    + rewrite E in H. unfold BBLOCK, BPB, BSIZE in H. cbn in Hc. rewrite Z.div_small in H by lia. destruct H; done.
  - done.
Qed.

Lemma sample_file_ok : file_ok sample_sb sample_data (replicate 13 0) 0.
Proof.
  assert (∀ x, valid x → addr sample_data (replicate 13 0) x = 0) as H0.
  { intros [bn|] Hx; [|done]. cbn [addr]. destruct (Z.ltb_spec bn NDIRECT) as [H|H]; [|done].
    apply lookup_total_replicate_2. unfold NDIRECT, valid in *. lia. }
  split; [done|..].
  - intros x Hx Hne. by rewrite H0 in Hne.
  - intros x y Hx Hy _ Hne. by rewrite H0 in Hne.
  - done.
  - intros bn H1 H2. unfold BSIZE in H2. lia.
Qed.

Lemma sample_state :
  ∃ s, tx ROOTDEV 0 2 s sample_txn ∧ sb s = sample_sb ∧ inodes s = [sample_inode] ∧ log_size (klog s) = 31.
Proof.
  destruct boot_log as (s & E & Ht & Hc & Hli & Hu & Hd & Hi). set (s1 := upd_log sample_log s) in *.
  pose proof (tx_begin ROOTDEV 0 2 s1 Ht Hc Hli Hu) as H1. change (disk s1) with (disk s) in H1. rewrite Hd in H1.
  specialize (H1 Hi). apply (tx_sb _ _ _ _ _ sample_sb), (tx_inodes _ _ _ _ _ [sample_inode]) in H1.
  set (s2 := set_inodes _ _) in H1.
  destruct (tx_modify ROOTDEV 0 2 ltac:(done) s2 _ 45 (λ _, sample_bitmap) 0 H1) as ([] & s3 & _ & H3 & F3).
  - done.
  - apply not_elem_of_nil.
  - split; [change (log_size (klog s2)) with 31; cbn; lia|by apply Nat.ltb_lt].
  - done.
  - exists s3. split; [exact H3|]. rewrite (fs_frame_sb 0 s2 s3 F3), (fs_frame_inodes 0 s2 s3 F3).
    split; [done|]. split; [done|]. by destruct F3 as (_ & (-> & _) & _).
Qed.

(** The first inode in memory is the sample file, of any type. *)
Definition sample_at (ty : Z) (s : kernel) : Prop :=
  sb s = sample_sb ∧ inodes s !! 0%nat = Some (set_i_type ty sample_inode) ∧ - 2 ^ 15 ≤ ty < 2 ^ 15.

Lemma sample_getinode ty s : sample_at ty s → getinode 0 s = set_i_type ty sample_inode.
Proof. intros (_ & E & _). by apply list_lookup_total_correct. Qed.

Lemma sample_inv ty s : sample_at ty s → file_inv ROOTDEV s sample_txn 0.
Proof.
  intros Ha. pose proof (sample_getinode ty s Ha) as Eg. destruct Ha as (Es & Ei & _).
  split; rewrite ?Eg, ?Es; try done; [apply sample_fs_ok|apply sample_file_ok|by eapply lookup_lt_Some].
Qed.

Lemma sample_can_write ty s n :
  tx ROOTDEV 0 2 s sample_txn → sample_at ty s → log_size (klog s) = 31 → touched 0 n = 1%nat →
  can_write ROOTDEV 0 2 0 0 n s sample_txn.
Proof.
  intros Ht Ha Ez Hn. pose proof (sample_getinode ty s Ha) as Eg. pose proof Ha as (Es & Ei & Hty).
  split; rewrite ?Eg, ?Es, ?Hn; [done|by eapply sample_inv|cbn; lia|split; [exact Hty|by repeat split]|split; [rewrite Ez; by apply Z.leb_le|by apply Nat.ltb_lt]|].
  exists [50; 51; 52]. split; [|split; [done|]].
  - by repeat (constructor; [set_solver by lia|]); constructor.
  - intros b Hb. assert (50 ≤ b < 53) by set_solver by lia. split; [cbn; lia|]. rewrite sample_bit by lia. apply Z.ltb_ge. lia.
Qed.

Lemma sample_budget s : log_size (klog s) = 31 → budget s sample_txn 20.
Proof. intros Ez. split; [rewrite Ez; cbn; lia|by apply Nat.ltb_lt]. Qed.

Lemma balloc_spec_witness :
  ∃ s b s', balloc ROOTDEV s = Ret b s' ∧ b = 48.
Proof.
  destruct sample_state as (s & Ht & Es & Ei & Ez).
  destruct (balloc_spec ROOTDEV 0 2 s sample_txn 18) as [(b & s' & E & _ & _ & Hb & Hf & Hall)|[_ Hfull]]; [done|done|..].
  - rewrite Es. apply sample_fs_ok.
  - intros n Hn. by apply not_elem_of_nil in Hn.
  - by apply sample_budget.
  - exists s, b, s'. split; [done|]. rewrite Es in Hb, Hf, Hall. cbn [sb_size sample_sb t_data sample_txn] in *.
    rewrite sample_bit in Hf by done. apply Z.ltb_ge in Hf. destruct (decide (b = 48)) as [|Hne]; [done|].
    specialize (Hall 48 ltac:(lia)). by rewrite sample_bit in Hall.
  - specialize (Hfull 48). rewrite Es in Hfull. cbn [sb_size sample_sb t_data sample_txn] in Hfull.
    rewrite sample_bit in Hfull by lia. by specialize (Hfull ltac:(lia)).
Defined.

Lemma writei_spec_witness :
  ∃ s s' t', writei 0 (SrcKernel [104; 105]) 0 2 s = Ret 2 s' ∧ fbyte (t_data t') (i_addrs (getinode 0 s')) 1 = 105 ∧
    i_size (getinode 0 s') = 2.
Proof.
  destruct sample_state as (s & Ht & Es & Ei & Ez). assert (sample_at T_FILE s) as Ha by (split; [done|]; by rewrite Ei).
  pose proof (sample_can_write T_FILE s 2 Ht Ha Ez eq_refl) as Hc.
  assert (getinode 0 s = sample_inode) as Eg by (unfold getinode; by rewrite Ei).
  pose proof (writei_spec ROOTDEV 0 2 0 0 [104; 105] s sample_txn ltac:(done) Hc ltac:(done) ltac:(done)) as H.
  rewrite decide_True in H by (rewrite Eg; done). destruct H as (s' & t' & E & [W1 W2 W3 W4 W5 W6 W7 W8 W9]).
  exists s, s', t'. split; [exact E|]. split; [by rewrite (W6 1) by done|]. by rewrite W5, Eg.
Defined.

Lemma readi_spec_witness : ∃ s s', readi 0 DstLocal 0 10 s = Ret (0, []) s'.
Proof.
  destruct sample_state as (s & Ht & Es & Ei & Ez).
  assert (getinode 0 s = sample_inode) as Eg by (unfold getinode; by rewrite Ei).
  destruct (readi_spec ROOTDEV 0 2 0 0 10 s sample_txn) as (s' & E & _ & _); [done|done|apply (sample_inv T_FILE); split; [done|]; by rewrite Ei| |done|done|].
  - eapply budget_mono; [done|by apply sample_budget|lia].
  - exists s, s'. rewrite E, Eg. done.
Defined.

Lemma file_write_read_witness :
  ∃ s s' s'', writei 0 (SrcKernel [104; 105]) 0 2 s = Ret 2 s' ∧ readi 0 DstLocal 0 2 s' = Ret (2, [104; 105]) s''.
Proof.
  destruct sample_state as (s & Ht & Es & Ei & Ez). assert (sample_at T_FILE s) as Ha by (split; [done|]; by rewrite Ei).
  pose proof (sample_can_write T_FILE s 2 Ht Ha Ez eq_refl) as Hc.
  assert (getinode 0 s = sample_inode) as Eg by (unfold getinode; by rewrite Ei).
  destruct (file_write_read ROOTDEV 0 2 0 0 [104; 105] s sample_txn) as (s' & s'' & E1 & E2); [done|done|by rewrite Eg|done|].
  by exists s, s', s''.
Defined.
