(* ===== verification/Dir.v ===== *)
(** * kernel/fs.c: directories and paths

    A path and a path element are the lists of their characters; the element
    buffer [name] has DIRSIZ bytes and need not end in a NUL. *)

From S2P Require Import Prelude Machine Memory Kstring State Spinlock Kalloc Vm Sched Ring Uart.
From S2P Require Import Printf Proc Sleeplock Block Bio Log Fs.

Definition DIRSIZ : Z := 14.

(** [struct dirent] *)
Definition sizeof_dirent : Z := 16.
Definition de_inum (de : list Z) : Z := get16 de 0.
Definition de_name (de : list Z) : list Z := drop 2 de.
Definition mk_dirent (inum : Z) (name : list Z) : list Z :=
  put16 (replicate 2 0 ++ name) 0 inum.

Definition namecmp (s t : list Z) : Z := bytes_strncmp s t DIRSIZ.

(** ** Path elements *)

(** [while( *path == '/') path++;] *)
Fixpoint skip_slashes (path : list Z) : list Z :=
  match path with
  | c :: path' => if c =? 47 then skip_slashes path' else path
  | [] => []
  end.

(** [while( *path != '/' && *path != 0) path++;]: the element and the rest. *)
Fixpoint split_elem (path : list Z) : list Z * list Z :=
  match path with
  | c :: path' =>
      if (c =? 47) || (c =? 0) then ([], path)
      else let '(s, rest) := split_elem path' in (c :: s, rest)
  | [] => ([], [])
  end.

(** The end of a path is its NUL, or the end of the list. *)
Definition at_end (path : list Z) : bool :=
  match path with
  | [] => true
  | c :: _ => c =? 0
  end.

(** [skipelem(path, name)]: [None] when it returns 0, otherwise the path after
    the element and the new contents of [name]. *)
Definition skipelem (path name : list Z) : option (list Z * list Z) :=
  let path := skip_slashes path in
  if at_end path then None else
  let '(s, path) := split_elem path in
  let len := Z.of_nat (length s) in
  let name :=
    if len >=? DIRSIZ then put_bytes name 0 (take (Z.to_nat DIRSIZ) s)
    else <[length s := 0]> (put_bytes name 0 s) in
  Some (skip_slashes path, name).

Section dir.
Context `{KernelLayout} `{BlockDriver}.

Definition dirlookup_step (dp : nat) (name : list Z) (off : Z) : K (Z + option (nat * Z)) :=
  let! size := ifield dp i_size in
  if off <? size then
    let! '(r, de) := readi dp DstLocal off sizeof_dirent in
    if negb (r =? sizeof_dirent) then panic "dirlookup read" else
    if de_inum de =? 0 then ret (inl (off + sizeof_dirent)) else
    if namecmp name (de_name de) =? 0 then
      let! dev := ifield dp i_dev in
      let! ip := iget dev (de_inum de) in
      ret (inr (Some (ip, off)))
    else ret (inl (off + sizeof_dirent))
  else ret (inr None).

(** [dirlookup(dp, name, poff)]: the inode and the offset stored through [poff]. *)
Definition dirlookup (dp : nat) (name : list Z) : K (option (nat * Z)) :=
  let! type := ifield dp i_type in
  if negb (type =? T_DIR) then panic "dirlookup not DIR" else
  loop (dirlookup_step dp name) 0.

(** The search for an empty entry: the offset and what [de] holds. *)
Definition dirlink_step (dp : nat) (v : Z * list Z) : K (Z * list Z + Z * list Z) :=
  let '(off, de) := v in
  let! size := ifield dp i_size in
  if off <? size then
    let! '(r, de) := readi dp DstLocal off sizeof_dirent in
    if negb (r =? sizeof_dirent) then panic "dirlink read" else
    if de_inum de =? 0 then ret (inr (off, de))
    else ret (inl (off + sizeof_dirent, de))
  else ret (inr (off, de)).

Definition dirlink (dp : nat) (name : list Z) (inum : Z) : K Z :=
  let! r := dirlookup dp name in
  match r with
  | Some (ip, _) => iput ip ;;; ret (-1)
  | None =>
      let! '(off, de) := loop (dirlink_step dp) (0, replicate (Z.to_nat sizeof_dirent) 0) in
      let de := mk_dirent inum (bytes_strncpy (de_name de) name DIRSIZ) in
      let! r := writei dp (SrcKernel de) off sizeof_dirent in
      if negb (r =? sizeof_dirent) then panic "dirlink" else
      ret 0
  end.

(** One turn of the loop of [namex]; the variables are [ip], [path] and [name].
    The answer is the inode, or [None] for 0, with the contents of [name]. *)
Definition namex_step (nameiparent : bool) (v : nat * list Z * list Z)
    : K (nat * list Z * list Z + option nat * list Z) :=
  let '(ip, path, name) := v in
  match skipelem path name with
  | None =>
      if nameiparent then iput ip ;;; ret (inr (None, name))
      else ret (inr (Some ip, name))
  | Some (path, name) =>
      ilock ip ;;;
      let! type := ifield ip i_type in
      if negb (type =? T_DIR) then iunlockput ip ;;; ret (inr (None, name)) else
      if nameiparent && at_end path then iunlock ip ;;; ret (inr (Some ip, name)) else
      let! next := dirlookup ip name in
      match next with
      | None => iunlockput ip ;;; ret (inr (None, name))
      | Some (next, _) => iunlockput ip ;;; ret (inl (next, path, name))
      end
  end.

Definition namex (path : list Z) (nameiparent : bool) : K (option nat * list Z) :=
  let! ip :=
    (if bool_decide (head path = Some 47) then iget ROOTDEV ROOTINO
     else
       let! p := curproc in
       let! cwd := pget p p_cwd in
       let! cwd := deref cwd in
       idup cwd) in
  loop (namex_step nameiparent) (ip, path, replicate (Z.to_nat DIRSIZ) 0).

Definition namei (path : list Z) : K (option nat) :=
  let! r := namex path false in
  ret r.1.

(** [nameiparent(path, name)]: the directory and the contents of [name]. *)
Definition nameiparent (path : list Z) : K (option nat * list Z) := namex path true.
End dir.
