(* ===== verification/NameSpec.v ===== *)
(** * Strings, names and paths

    The string routines as operations on C strings, the names in directory
    entries, and [skipelem] as the iterator over the elements of a path. *)

From S2P Require Import Prelude Machine Memory Kstring State Block Dir.

(** ** string.c *)

(** [memmove] copies [n] bytes as if all of them were read
    before any is written, for ranges that overlap in either direction, and
    changes no other byte. *)
Theorem memmove_spec m dst src n x :
  ld (memmove m dst src n) x =
    if decide (dst ≤ x < dst + n) then ld m (src + (x - dst)) else ld m x.
Proof. apply ld_memmove. Qed.

(** [safestrcpy] into a buffer of [n] bytes stores the
    source string, cut off after [n]-1 characters, always with a NUL at its
    end; it writes only to the buffer, and [strlen] of the result is the
    number of characters kept. *)
Theorem safestrcpy_spec {S : Type} m s t n (st : S) :
  0 < n < 2 ^ 31 → (t + n ≤ s ∨ s + n ≤ t) →
  let m' := safestrcpy m s t n in let str := cprefix (Z.to_nat (n - 1)) m t in
  cstr m' s str ∧ (∀ x, x < s ∨ s + n ≤ x → ld m' x = ld m x) ∧
  strlen m' s st = Ret (Z.of_nat (length str)) st.
Proof.
  intros Hn Ho m' str. unfold m', safestrcpy. destruct (Z.leb_spec n 0); [lia|].
  assert (cstr (safestrcpy_loop (Z.to_nat (n - 1)) m s t) s str) as Hc by (apply safestrcpy_loop_cstr; lia).
  split_and!; [done| |].
  - intros x Hx. apply safestrcpy_loop_frame. lia.
  - pose proof (length_cprefix (Z.to_nat (n - 1)) m t) as Hl. fold str in Hl.
    apply (loop_Ret _ (Datatypes.S (length str - 0))); [lia|]. by apply (strlen_run _ _ _ _ 0 Hc); lia.
Qed.

Lemma safestrcpy_spec_witness :
  strlen (safestrcpy (stbytes ∅ 100 [104; 105; 33; 0]) 200 100 3) 200 tt = Ret 2 tt.
Proof.
  destruct (safestrcpy_spec (stbytes ∅ 100 [104; 105; 33; 0]) 200 100 3 tt ltac:(lia) ltac:(lia)) as (_ & _ & E).
  exact E.
Defined.

(** ** Names *)

(** The name in an array of DIRSIZ bytes: up to a NUL, if there is one. *)
Definition cname (l : list Z) : list Z := until_nul (take (Z.to_nat DIRSIZ) l).

(** An array of bytes as the string routines see it. *)
Lemma ld_stbytes m a l x :
  ld (stbytes m a l) x = if decide (a ≤ x < a + Z.of_nat (length l)) then u8 (l !!! Z.to_nat (x - a)) else ld m x.
Proof.
  revert m a. induction l as [|b l IH]; intros m a; cbn [stbytes length].
  - rewrite decide_False by lia. done.
  - rewrite IH, ld_st. destruct (decide (a = x)) as [<-|Hne].
    + rewrite decide_False by lia. rewrite decide_True by lia. by rewrite Z.sub_diag.
    + destruct (decide (a + 1 ≤ x < a + 1 + Z.of_nat (length l))).
      * rewrite decide_True by lia. replace (Z.to_nat (x - a)) with (S (Z.to_nat (x - (a + 1)))) by lia. done.
      * by rewrite decide_False by lia.
Qed.

Lemma cprefix_bytes n m a l :
  Forall is_byte l → (∀ i, ld m (a + Z.of_nat i) = if decide (i < length l)%nat then l !!! i else 0) →
  cprefix n m a = until_nul (take n l).
Proof.
  revert m a l. induction n as [|n IH]; intros m a l Hb Hl; [done|]. cbn [cprefix].
  pose proof (Hl 0%nat) as H0. rewrite Z.add_0_r in H0. rewrite H0. destruct l as [|c l].
  - rewrite decide_False by (cbn; lia). done.
  - rewrite decide_True by (cbn; lia). cbn. destruct (c =? 0); [done|]. f_equal.
    apply Forall_cons in Hb as [_ Hb]. apply IH; [done|]. intros i.
    replace (a + 1 + Z.of_nat i) with (a + Z.of_nat (S i)) by lia. rewrite Hl. cbn [length].
    destruct (decide (i < length l)%nat); [by rewrite decide_True by lia|by rewrite decide_False by lia].
Qed.

Lemma byte_at l i : Forall is_byte l → u8 (l !!! i) = l !!! i.
Proof.
  intros Hb. destruct (decide (i < length l)%nat) as [Hi|Hi].
  - destruct (lookup_lt_is_Some_2 l i Hi) as [c Hc]. rewrite (list_lookup_total_correct _ _ _ Hc).
    apply u8_small. by eapply Forall_lookup_1 in Hb.
  - rewrite list_lookup_total_alt, lookup_ge_None_2 by lia. done.
Qed.

Section bufs.
Context (a b : list Z).
Hypothesis (Ha : Forall is_byte a) (Hb : Forall is_byte b).
Hypothesis (La : Z.of_nat (length a) < BUF2).

Lemma ld_first i : (Z.of_nat i < BUF2) →
  ld (two_bufs a b) (Z.of_nat i) = if decide (i < length a)%nat then a !!! i else 0.
Proof.
  intros Hi. unfold two_bufs. rewrite ld_stbytes, decide_False by lia. rewrite ld_stbytes.
  destruct (decide (i < length a)%nat).
  - rewrite decide_True by lia. rewrite Z.sub_0_r, Nat2Z.id. by apply byte_at.
  - rewrite decide_False by lia. done.
Qed.

Lemma ld_second i : ld (two_bufs a b) (BUF2 + Z.of_nat i) = if decide (i < length b)%nat then b !!! i else 0.
Proof using Hb La.
  unfold two_bufs. rewrite ld_stbytes. destruct (decide (i < length b)%nat).
  - rewrite decide_True by lia. replace (Z.to_nat (BUF2 + Z.of_nat i - BUF2)) with i by lia. by apply byte_at.
  - rewrite decide_False by lia. rewrite ld_stbytes, decide_False by lia. done.
Qed.
End bufs.

(** [namecmp] compares the names. *)
Lemma namecmp_zero s t :
  Forall is_byte s → Forall is_byte t → Z.of_nat (length s) < BUF2 →
  namecmp s t = 0 ↔ cname s = cname t.
Proof.
  intros Hs Ht Ls. unfold namecmp, bytes_strncmp, strncmp, cname. rewrite strncmp_loop_zero.
  rewrite (cprefix_bytes _ _ BUF2 t Ht) by (intros i; by apply ld_second).
  assert (cprefix (Z.to_nat DIRSIZ) (two_bufs s t) 0 = until_nul (take (Z.to_nat DIRSIZ) s)) as ->; [|done].
  rewrite <- (cprefix_bytes _ (stbytes ∅ 0 s) 0 s Hs).
  - apply cprefix_ext. intros x Hx. unfold two_bufs. rewrite (ld_stbytes (stbytes ∅ 0 s)), decide_False; [done|].
    unfold BUF2. change (Z.of_nat (Z.to_nat DIRSIZ)) with 14 in Hx. lia.
  - intros i. rewrite ld_stbytes, Z.add_0_l, Z.sub_0_r, Nat2Z.id. destruct (decide (i < length s)%nat).
    + rewrite decide_True by lia. by apply byte_at.
    + by rewrite decide_False by lia.
Qed.

Lemma until_nul_length l : (length (until_nul l) ≤ length l)%nat.
Proof. induction l as [|c l IH]; cbn; [done|]. destruct (c =? 0); cbn; lia. Qed.

(** What [strncpy] leaves in an array of DIRSIZ bytes. *)
Lemma strncpy_name old nm :
  length old = Z.to_nat DIRSIZ → Forall is_byte old → Forall is_byte nm →
  bytes_strncpy old nm DIRSIZ = (λ i, nth i (cname nm) 0) <$> seq 0 (Z.to_nat DIRSIZ).
Proof.
  intros Ho Hob Hnb. unfold bytes_strncpy. rewrite Ho. unfold ldbytes. apply list_fmap_ext. intros i k Hk.
  apply lookup_seq in Hk as [-> Hk]. cbn [Nat.add]. unfold strncpy.
  change (Z.to_nat DIRSIZ) with 14%nat in *.
  rewrite ld_strncpy_loop by (unfold BUF2; lia). rewrite decide_True by lia.
  rewrite (cprefix_bytes 14 _ BUF2 nm Hnb) by (intros j; apply ld_second; [done|rewrite Ho; unfold BUF2; lia]).
  f_equal. lia.
Qed.

Lemma until_nul_pad l n :
  (length l ≤ n)%nat → 0 ∉ l → until_nul ((λ i, nth i l 0) <$> seq 0 n) = l.
Proof.
  revert n. induction l as [|c l IH]; intros n Hn H0.
  - destruct n; [done|]. done.
  - destruct n as [|n]; [cbn in Hn; lia|]. cbn in Hn. apply not_elem_of_cons in H0 as [Hc H0].
    cbn [seq fmap list_fmap until_nul nth]. rewrite (proj2 (Z.eqb_neq _ _)) by congruence. f_equal.
    rewrite <- fmap_S_seq, <- list_fmap_compose. by apply IH; [lia|].
Qed.

Lemma until_nul_no_nul l : 0 ∉ until_nul l.
Proof.
  induction l as [|c l IH]; cbn; [apply not_elem_of_nil|]. destruct (Z.eqb_spec c 0); [apply not_elem_of_nil|].
  apply not_elem_of_cons. split; [congruence|done].
Qed.

Lemma cname_length l : (length (cname l) ≤ 14)%nat.
Proof.
  unfold cname. pose proof (until_nul_length (take (Z.to_nat DIRSIZ) l)) as Hl. rewrite length_take in Hl.
  change (Z.to_nat DIRSIZ) with 14%nat in Hl |- *. lia.
Qed.

Lemma until_nul_bytes l : Forall is_byte l → Forall is_byte (until_nul l).
Proof.
  intros H. induction H as [|c l Hc Hl IH]; cbn; [constructor|]. destruct (c =? 0); [constructor|by constructor].
Qed.

(** The inode number and the name in an entry. *)
Definition dent_of (de : list Z) : Z * list Z := (de_inum de, cname (de_name de)).

(** The entry [dirlink] builds. *)
Lemma dirent_fields old nm inum :
  length old = Z.to_nat DIRSIZ → Forall is_byte old → Forall is_byte nm → 0 ≤ inum < 2 ^ 16 →
  let de := mk_dirent inum (bytes_strncpy old nm DIRSIZ) in
  length de = 16%nat ∧ Forall is_byte de ∧ dent_of de = (inum, cname nm).
Proof.
  intros Ho Hob Hnb Hi. rewrite (strncpy_name old nm Ho Hob Hnb).
  set (l := (λ i, nth i (cname nm) 0) <$> seq 0 (Z.to_nat DIRSIZ)). intros de.
  assert (length l = 14%nat) as Hll by (unfold l; by rewrite length_fmap, length_seq).
  assert (Forall is_byte l) as Hlb.
  { unfold l. apply Forall_fmap, Forall_forall. intros i _. cbn.
    destruct (nth_in_or_default i (cname nm) 0) as [Hin| ->]; [|done]. apply list_elem_of_In in Hin.
    eapply Forall_elem; [|exact Hin]. by apply until_nul_bytes, Forall_take. }
  split_and!.
  - unfold de, mk_dirent, put16. rewrite length_le_put, length_app, Hll. done.
  - unfold de, mk_dirent, put16. cbn [le_put replicate app insert list_insert].
    by repeat (constructor; [by apply Z.mod_pos_bound|]).
  - unfold dent_of. f_equal.
    + unfold de_inum, de, mk_dirent, get16, put16. rewrite le_get_put by (rewrite length_app; cbn; lia).
      by rewrite Z.mod_small.
    + change (de_name de) with l. unfold cname at 1. rewrite take_ge by (rewrite Hll; done). unfold l.
      apply until_nul_pad; [apply cname_length|apply until_nul_no_nul].
Qed.

(** In the directory entry [dirlink] builds from a name
    and an inode number, [dirlookup] finds this number, and finds the name
    exactly when it is asked for one with the same first DIRSIZ characters. *)
Theorem dirent_roundtrip old nm nm' inum :
  length old = Z.to_nat DIRSIZ → Forall is_byte old → Forall is_byte nm → Forall is_byte nm' →
  Z.of_nat (length nm') < BUF2 → 0 ≤ inum < 2 ^ 16 →
  let de := mk_dirent inum (bytes_strncpy old nm DIRSIZ) in
  length de = Z.to_nat sizeof_dirent ∧ de_inum de = inum ∧ (namecmp nm' (de_name de) = 0 ↔ cname nm' = cname nm).
Proof.
  intros Ho Hob Hnb Hnb' Hl Hi de. destruct (dirent_fields old nm inum Ho Hob Hnb Hi) as (H1 & H2 & [= H3 H4]). fold de in H1, H2, H3, H4.
  split_and!; [done|done|]. rewrite namecmp_zero, H4; [done|done|by apply Forall_drop|done].
Qed.

Lemma dirent_roundtrip_witness :
  let de := mk_dirent 7 (bytes_strncpy (replicate 14 0) [97; 98; 0] DIRSIZ) in
  length de = 16%nat ∧ de_inum de = 7 ∧ (namecmp [97; 98] (de_name de) = 0 ↔ [97; 98] = [97; 98]).
Proof.
  apply (dirent_roundtrip (replicate 14 0) [97; 98; 0] [97; 98] 7).
  - reflexivity.
  - apply Forall_replicate. unfold is_byte. lia.
  - repeat (apply Forall_cons; split; [unfold is_byte; lia|]). constructor.
  - repeat (apply Forall_cons; split; [unfold is_byte; lia|]). constructor.
  - reflexivity.
  - lia.
Defined.

(** ** Paths *)

(** The characters before the first slash, and the elements after it. *)
Fixpoint words (p : list Z) : list Z * list (list Z) :=
  match p with
  | [] => ([], [])
  | c :: p' =>
      let '(w, ws) := words p' in
      if c =? 47 then ([], if decide (w = []) then ws else w :: ws) else (c :: w, ws)
  end.

(** The elements of a path. *)
Definition elems (p : list Z) : list (list Z) :=
  let '(w, ws) := words p in if decide (w = []) then ws else w :: ws.

Lemma elems_slash p : elems (47 :: p) = elems p.
Proof. unfold elems. cbn. by destruct (words p) as [w ws]. Qed.

Lemma skip_slashes_elems p : elems (skip_slashes p) = elems p.
Proof.
  induction p as [|c p IH]; [done|]. cbn [skip_slashes].
  destruct (Z.eqb_spec c 47) as [->|]; [by rewrite elems_slash|done].
Qed.

Lemma skip_slashes_head p c p' : skip_slashes p = c :: p' → c ≠ 47.
Proof.
  induction p as [|d p IH]; [done|]. cbn [skip_slashes].
  destruct (Z.eqb_spec d 47); [done|]. congruence.
Qed.

Lemma skip_slashes_sub p c : c ∈ skip_slashes p → c ∈ p.
Proof.
  induction p as [|d p IH]; [done|]. cbn [skip_slashes]. destruct (d =? 47); [|done].
  intros Hc. right. by apply IH.
Qed.

Lemma split_elem_words p s rest :
  0 ∉ p → split_elem p = (s, rest) → (words p).1 = s ∧ elems rest = (words p).2 ∧ 0 ∉ rest ∧ 0 ∉ s.
Proof.
  revert s rest. induction p as [|c p IH]; intros s rest H0 E; cbn [split_elem] in E.
  - injection E as <- <-. split_and!; try done; apply not_elem_of_nil.
  - pose proof H0 as [Hc H0']%not_elem_of_cons. cbn [words]. destruct (Z.eqb_spec c 47) as [->|Hc47].
    + cbn [orb] in E. injection E as <- <-. destruct (words p) as [w ws] eqn:Ew. split_and!; [done| |done|apply not_elem_of_nil].
      rewrite elems_slash. unfold elems. by rewrite Ew.
    + rewrite (proj2 (Z.eqb_neq c 0)) in E by congruence. cbn [orb] in E.
      destruct (split_elem p) as [s' rest'] eqn:Es. injection E as <- <-.
      destruct (IH s' rest' H0' eq_refl) as (I1 & I2 & I3 & I4). destruct (words p) as [w ws]. cbn in *. subst w.
      split_and!; try done. apply not_elem_of_cons. split; [congruence|done].
Qed.

Lemma put_bytes_eq l off src :
  (off + length src ≤ length l)%nat → put_bytes l off src = take off l ++ src ++ drop (off + length src) l.
Proof.
  revert l off. induction src as [|b src IH]; intros l off Hl; cbn [put_bytes length app] in *.
  - by rewrite Nat.add_0_r, take_drop.
  - rewrite IH by (rewrite length_insert; lia). rewrite drop_insert_lt by lia.
    replace (off + S (length src))%nat with (S off + length src)%nat by lia.
    erewrite take_S_r by (apply list_lookup_insert_eq; lia). rewrite take_insert_ge by lia.
    by rewrite <- app_assoc.
Qed.

Lemma until_nul_app s r : 0 ∉ s → until_nul (s ++ 0 :: r) = s.
Proof.
  induction s as [|c s IH]; intros Hz; [done|]. apply not_elem_of_cons in Hz as [Hc Hz]. cbn.
  rewrite (proj2 (Z.eqb_neq c 0)) by congruence. by rewrite IH.
Qed.

(** The name stored in the buffer is the element, cut off after DIRSIZ
    characters. *)
Lemma elem_name s name :
  length name = Z.to_nat DIRSIZ → 0 ∉ s →
  let name' := if Z.of_nat (length s) >=? DIRSIZ then put_bytes name 0 (take (Z.to_nat DIRSIZ) s)
               else <[length s := 0]> (put_bytes name 0 s) in
  cname name' = take (Z.to_nat DIRSIZ) s ∧ length name' = Z.to_nat DIRSIZ.
Proof.
  intros Hn H0 name'. assert (length name' = Z.to_nat DIRSIZ) as Hl.
  { unfold name'. destruct (_ >=? _); rewrite ?length_insert, length_put_bytes; done. }
  split; [|done]. unfold cname. rewrite take_ge by (by rewrite Hl). unfold name'. clear name' Hl.
  change (Z.to_nat DIRSIZ) with 14%nat in *. rewrite Z.geb_leb. destruct (Z.leb_spec DIRSIZ (Z.of_nat (length s))) as [Hs|Hs];
    unfold DIRSIZ in Hs.
  - rewrite put_bytes_eq by (rewrite length_take; lia). rewrite length_take, Nat.min_l by lia.
    rewrite drop_ge, app_nil_r by lia. apply until_nul_id. intros (i & Hi & _)%elem_of_take. by apply H0, (list_elem_of_lookup_2 _ i).
  - rewrite put_bytes_eq by lia. cbn [take app Nat.add]. rewrite (take_ge s) by lia.
    destruct (drop (length s) name) as [|b r] eqn:Ed; [apply (f_equal length) in Ed; rewrite length_drop in Ed; cbn in Ed; lia|].
    rewrite (insert_app_r_alt s (b :: r) (length s)) by done. rewrite Nat.sub_diag. by apply until_nul_app.
Qed.

(** repeated, [skipelem] yields the elements of a path one
    after the other: it returns 0 exactly when there are none left, and
    otherwise stores the first one, cut off after DIRSIZ characters, and
    returns a path with the others, which is at its end exactly when there is
    no other. *)
Theorem skipelem_spec path name :
  0 ∉ path → length name = Z.to_nat DIRSIZ →
  match elems path with
  | [] => skipelem path name = None
  | e :: es => ∃ path' name', skipelem path name = Some (path', name') ∧
      elems path' = es ∧ cname name' = take (Z.to_nat DIRSIZ) e ∧
      (at_end path' = true ↔ es = []) ∧ 0 ∉ path' ∧ length name' = Z.to_nat DIRSIZ
  end.
Proof.
  intros H0 Hn. unfold skipelem. rewrite <- (skip_slashes_elems path).
  assert (0 ∉ skip_slashes path) as H0' by (intros Hc; by apply H0, skip_slashes_sub).
  destruct (skip_slashes path) as [|c p] eqn:Ep; [done|].
  pose proof (skip_slashes_head _ _ _ Ep) as Hc. cbn [at_end].
  rewrite (proj2 (Z.eqb_neq c 0)) by (intros ->; apply H0'; by left).
  destruct (split_elem (c :: p)) as [s rest] eqn:Es.
  destruct (split_elem_words _ _ _ H0' Es) as (W1 & W2 & W3 & W4).
  assert (elems (c :: p) = s :: elems rest) as ->.
  { unfold elems at 1. destruct (words (c :: p)) as [w ws] eqn:Ew. cbn in W1, W2. subst w ws.
    rewrite decide_False; [done|]. intros ->. cbn in Ew. rewrite (proj2 (Z.eqb_neq c 47)) in Ew by done.
    by destruct (words p). }
  destruct (elem_name s name Hn W4) as [Hcn Hln]. eexists _, _. split; [reflexivity|].
  split_and!; [apply skip_slashes_elems|done| |intros Hx; by apply W3, skip_slashes_sub|done].
  rewrite <- (skip_slashes_elems rest). destruct (skip_slashes rest) as [|d r] eqn:Er; [done|].
  pose proof (skip_slashes_head _ _ _ Er) as Hd.
  assert (d ≠ 0) as Hd0 by (intros ->; apply W3, skip_slashes_sub; rewrite Er; by left).
  cbn [at_end]. rewrite (proj2 (Z.eqb_neq d 0)) by done. split; [done|]. unfold elems. cbn.
  destruct (words r) as [w ws]. rewrite (proj2 (Z.eqb_neq d 47)) by done. by rewrite decide_False.
Qed.

Lemma skipelem_spec_witness :
  ∃ path' name', skipelem (bytes_of "//usr/bin") (replicate 14 0) = Some (path', name') ∧
    elems path' = [bytes_of "bin"] ∧ cname name' = bytes_of "usr".
Proof.
  assert (0 ∉ bytes_of "//usr/bin") as H0.
  { intros Hin. vm_compute in Hin. repeat (apply elem_of_cons in Hin as [Hin|Hin]; [discriminate Hin|]).
    exact (not_elem_of_nil _ Hin). }
  pose proof (skipelem_spec (bytes_of "//usr/bin") (replicate 14 0) H0 eq_refl) as H.
  destruct H as (path' & name' & E & He & Hn & _). exists path', name'. exact (conj E (conj He Hn)).
Defined.
