(* ===== verification/DirSpec.v ===== *)
(** * Directories (kernel/fs.c)

    A directory is a map from names to inode numbers, kept in a file of
    entries of 16 bytes: [dirlookup] looks a name up in it, and [dirlink] adds
    one. *)

From S2P Require Import Prelude Machine Memory Kstring State Spinlock Kalloc Vm Sched Runs Proc Sleeplock Block Bio Cache.
From S2P Require Import CacheOps CacheLogic CacheSpec Log LogSpec LogOps Fs Itable FsLogic FsAlloc FsFile FsIo FsSpec Dir NameSpec.

(** ** Entries *)

(** An entry is an inode number, 0 when the entry is free, and a name. *)
Definition dent_bytes (D : Z → list Z) (l : list Z) (k : nat) : list Z := file_bytes D l (16 * Z.of_nat k) 16.
Definition dents (D : Z → list Z) (l : list Z) (size : Z) : list (Z * list Z) :=
  (λ k, dent_of (dent_bytes D l k)) <$> seq 0 (Z.to_nat (size / 16)).

Definition named (nm : list Z) (e : Z * list Z) : Prop := e.1 ≠ 0 ∧ e.2 = nm.

#[export] Instance named_dec nm e : Decision (named nm e).
Proof. unfold named. apply _. Defined.

Definition unused (e : Z * list Z) : Prop := e.1 = 0.

#[export] Instance unused_dec e : Decision (unused e).
Proof. unfold unused. apply _. Defined.

(** The directory as a map from names to inode numbers. *)
Fixpoint dmap (es : list (Z * list Z)) (nm : list Z) : option Z :=
  match es with
  | [] => None
  | e :: es => if decide (named nm e) then Some e.1 else dmap es nm
  end.

(** A new entry takes the place of the first free one, or goes to the end. *)
Fixpoint dadd (es : list (Z * list Z)) (e : Z * list Z) : list (Z * list Z) :=
  match es with
  | [] => [e]
  | x :: es => if decide (unused x) then e :: es else x :: dadd es e
  end.

(** The position of the first entry with a property, or the end. *)
Fixpoint first (P : Z * list Z → Prop) `{∀ e, Decision (P e)} (es : list (Z * list Z)) : nat :=
  match es with
  | [] => O
  | e :: es => if decide (P e) then O else S (first P es)
  end.

Lemma dmap_add es inum nm nm' :
  inum ≠ 0 → dmap es nm = None → dmap (dadd es (inum, nm)) nm' = if decide (nm' = nm) then Some inum else dmap es nm'.
Proof.
  intros Hi. induction es as [|x es IH]; cbn [dmap dadd]; intros Hn.
  - cbn [dmap]. unfold named. cbn. destruct (decide (nm' = nm)) as [->|Hne]; [by rewrite decide_True by done|].
    rewrite decide_False; [done|]. intros [_ E]. cbn in E. congruence.
  - destruct (decide (named nm x)) as [|Hx]; [done|]. destruct (decide (unused x)) as [H0|H0]; cbn [dmap].
    + rewrite (decide_False (P := named nm' x)) by (by intros [? _]). unfold named at 1. cbn.
      destruct (decide (nm' = nm)) as [->|Hne]; [by rewrite decide_True by done|].
      rewrite decide_False; [done|]. intros [_ E]. cbn in E. congruence.
    + destruct (decide (named nm' x)) as [Hx'|Hx']; [|by apply IH].
      rewrite decide_False; [done|]. by intros ->.
Qed.

Lemma dmap_first es nm :
  dmap es nm = fst <$> es !! first (named nm) es.
Proof. induction es as [|x es IH]; [done|]. cbn [dmap first]. by case_decide. Qed.

Lemma dadd_first es e :
  dadd es e = if decide (first unused es < length es)%nat then <[first unused es := e]> es else es ++ [e].
Proof.
  induction es as [|x es IH]; [done|]. cbn [dadd first length]. destruct (decide (unused x)) as [H0|H0]; [by rewrite decide_True by lia|]. rewrite IH.
  do 2 case_decide; first [lia|reflexivity].
Qed.

Lemma first_le P `{∀ e, Decision (P e)} es : (first P es ≤ length es)%nat.
Proof. induction es; cbn; [lia|]. case_decide; lia. Qed.

Lemma first_before P `{∀ e, Decision (P e)} es j e : (j < first P es)%nat → es !! j = Some e → ¬ P e.
Proof.
  revert j. induction es as [|x es IH]; intros j Hj He; [done|]. cbn [first] in Hj. case_decide; [lia|].
  destruct j as [|j]; [by injection He as <-|]. apply (IH j); [lia|done].
Qed.

Lemma first_at P `{∀ e, Decision (P e)} es e : es !! first P es = Some e → P e.
Proof. induction es as [|x es IH]; [done|]. cbn [first]. case_decide; [by intros [= <-]|apply IH]. Qed.

Lemma length_dents D l size : length (dents D l size) = Z.to_nat (size / 16).
Proof. unfold dents. by rewrite length_fmap, length_seq. Qed.

Lemma dents_lookup D l size k :
  (k < Z.to_nat (size / 16))%nat → dents D l size !! k = Some (dent_of (dent_bytes D l k)).
Proof. intros Hk. unfold dents. by rewrite list_lookup_fmap, lookup_seq_lt by done. Qed.

Section dir.
Context (dv : Z) (p : nat) (start : Z).
Hypothesis Hdv : 0 ≤ dv < 2 ^ 32.
Abbreviation tx := (tx dv p start).
Abbreviation fs_frame := (fs_frame p).

(** A directory that is worked on, in a transaction. *)
Record dir_inv (s : kernel) (t : txn) (dp : nat) : Prop := {
  dr_tx : tx s t;
  dr_file : file_inv dv s t dp;
  dr_type : i_type (getinode dp s) = T_DIR;
  dr_size : i_size (getinode dp s) `mod` 16 = 0;
  dr_bytes : ∀ k, 0 ≤ k < MAXFILE * BSIZE → is_byte (fbyte (t_data t) (i_addrs (getinode dp s)) k);
  dr_table : length (inodes s) = NINODE;
  dr_ref : i_ref (getinode dp s) > 0;
  dr_budget : budget s t 0
}.

Definition entries (s : kernel) (t : txn) (dp : nat) : list (Z * list Z) :=
  dents (t_data t) (i_addrs (getinode dp s)) (i_size (getinode dp s)).

Lemma dir_inv_frame s t dp s' : dir_inv s t dp → tx s' t → fs_frame s s' → dir_inv s' t dp ∧ entries s' t dp = entries s t dp.
Proof.
  intros [H1 H2 H3 H4 H5 H6 H7 H8] Ht F. pose proof (fs_frame_inodes p s s' F) as Ei.
  assert (getinode dp s' = getinode dp s) as Eg by (unfold getinode; by rewrite Ei).
  split; [|unfold entries; by rewrite Eg]. split; rewrite ?Eg, ?Ei; try done.
  - by destruct (moved_fs dv p dp s t s' H2 F).
  - eapply budget_mono; [apply F|exact H8|lia].
Qed.

Lemma dir_size s t dp :
  dir_inv s t dp → i_size (getinode dp s) = 16 * Z.of_nat (length (entries s t dp)) ∧
    i_size (getinode dp s) ≤ MAXFILE * BSIZE ∧ 16 * Z.of_nat (length (entries s t dp)) < 2 ^ 32.
Proof.
  intros [_ H2 _ H4 _ _ _ _]. unfold entries. rewrite length_dents. pose proof (fl_size _ _ _ _ (fv_file _ _ _ _ H2)) as Hsz.
  unfold MAXFILE, NINDIRECT, NDIRECT, BSIZE in *. change (1024 / 4) with 256 in *. Z.to_euclidean_division_equations. lia.
Qed.

(** Reading one entry. *)
Lemma read_entry s t dp k :
  dir_inv s t dp → (k < length (entries s t dp))%nat →
  ∃ s', readi dp DstLocal (16 * Z.of_nat k) sizeof_dirent s =
          Ret (sizeof_dirent, dent_bytes (t_data t) (i_addrs (getinode dp s)) k) s' ∧ tx s' t ∧ fs_frame s s'.
Proof using Hdv.
  intros Hd Hk. destruct (dir_size s t dp Hd) as (E & Hm & Hl).
  assert (i_size (getinode dp s) < 2 ^ 32) by lia.
  destruct (readi_runs dv p start Hdv s t dp (16 * Z.of_nat k) sizeof_dirent) as (r & s' & Er & H1 & H2 & ->);
    [apply Hd..|unfold sizeof_dirent; lia|done|].
  exists s'. split; [|done]. rewrite Er. unfold sizeof_dirent in *.
  rewrite Z.gtb_ltb, (proj2 (Z.ltb_ge _ _)), Z.geb_leb, (proj2 (Z.leb_gt _ _)) by lia. cbn [orb].
  rewrite Z.min_l by lia. done.
Qed.

Lemma entry_bytes s t dp k :
  dir_inv s t dp → (k < length (entries s t dp))%nat →
  Forall is_byte (dent_bytes (t_data t) (i_addrs (getinode dp s)) k).
Proof.
  intros Hd Hk. destruct (dir_size s t dp Hd) as (E & Hm & Hl). apply Forall_lookup_2. intros j b Hj.
  assert (j < 16)%nat as H16 by (apply lookup_lt_Some in Hj; unfold dent_bytes in Hj; by rewrite length_file_bytes in Hj).
  unfold dent_bytes in Hj. rewrite file_bytes_lookup in Hj by done. injection Hj as <-.
  apply (dr_bytes _ _ _ Hd). lia.
Qed.
(** ** dirlookup *)

Lemma entries_lookup s t dp k :
  (k < length (entries s t dp))%nat →
  entries s t dp !! k = Some (dent_of (dent_bytes (t_data t) (i_addrs (getinode dp s)) k)).
Proof. unfold entries. rewrite length_dents. apply dents_lookup. Qed.

Lemma names_equal nm de :
  Forall is_byte nm → Z.of_nat (length nm) < BUF2 → Forall is_byte de →
  (namecmp nm (de_name de) =? 0) = bool_decide (cname nm = cname (de_name de)).
Proof.
  intros Hn Hl Hd. apply eq_true_iff_eq. rewrite Z.eqb_eq, bool_decide_eq_true. apply namecmp_zero; [done| |done].
  by apply Forall_drop.
Qed.

Lemma lookup_entry s t dp nm k :
  dir_inv s t dp → Forall is_byte nm → Z.of_nat (length nm) < BUF2 → (k < length (entries s t dp))%nat →
  ∃ e s', entries s t dp !! k = Some e ∧ tx s' t ∧ fs_frame s s' ∧
    dirlookup_step dp nm (16 * Z.of_nat k) s =
      if decide (named (cname nm) e) then
        (let! ip := iget dv e.1 in ret (inr (Some (ip, 16 * Z.of_nat k)))) s'
      else Ret (inl (16 * Z.of_nat (S k))) s'.
Proof using Hdv.
  intros Hd Hn Hl Hk. destruct (read_entry s t dp k Hd Hk) as (s' & E & H1 & H2).
  set (de := dent_bytes (t_data t) (i_addrs (getinode dp s)) k) in *. exists (dent_of de), s'. split; [by apply entries_lookup|].
  split; [done|]. split; [done|]. unfold dirlookup_step, ifield. unfold bind at 1, gets at 1. cbn [obind].
  destruct (dir_size s t dp Hd) as (Es & _ & _). rewrite (proj2 (Z.ltb_lt _ _)) by lia. run E. cbn [negb Z.eqb sizeof_dirent Pos.eqb].
  unfold named, dent_of at 1 2. cbn [fst snd]. rewrite names_equal by (done || by apply entry_bytes).
  replace (16 * Z.of_nat k + sizeof_dirent) with (16 * Z.of_nat (S k)) by (unfold sizeof_dirent; lia).
  destruct (Z.eqb_spec (de_inum de) 0) as [H0|H0]; [by rewrite decide_False by tauto|]. case_bool_decide as Hc.
  - rewrite decide_True by done. unfold bind at 1, gets. cbn [obind].
    assert (i_dev (getinode dp s') = dv) as ->; [|done]. unfold getinode. rewrite (fs_frame_inodes p s s' H2). apply (dr_file _ _ _ Hd).
  - rewrite decide_False; [done|]. intros [_ Hx]. by apply Hc.
Qed.

(** A scan that does not find the name. *)
Lemma lookup_scan s t dp nm k :
  dir_inv s t dp → Forall is_byte nm → Z.of_nat (length nm) < BUF2 → (k ≤ first (named (cname nm)) (entries s t dp))%nat →
  ∃ s', run_n k (dirlookup_step dp nm) 0 s = Ret (inl (16 * Z.of_nat k)) s' ∧ tx s' t ∧ fs_frame s s'.
Proof using Hdv.
  intros Hd Hn Hl Hk.
  destruct (run_n_inv (λ _ s', tx s' t ∧ fs_frame s s') (dirlookup_step dp nm) (λ j, 16 * Z.of_nat j) k s) as (s' & E & H); [|..|by exists s'].
  { split; [apply Hd|apply fs_frame_refl]. }
  intros j s1 Hj [H1 F1]. destruct (dir_inv_frame s t dp s1 Hd H1 F1) as [Hd1 Ee].
  pose proof (first_le (named (cname nm)) (entries s t dp)) as Hf.
  destruct (lookup_entry s1 t dp nm j Hd1 Hn Hl) as (e & s2 & He & H2 & F2 & E2); [rewrite Ee; lia|].
  exists s2. rewrite E2. rewrite Ee in He. rewrite decide_False; [|by apply (first_before (named (cname nm)) (entries s t dp) j); [lia|]].
  split; [done|]. split; [done|]. by eapply fs_frame_trans.
Qed.

(** What [dirlookup] does. *)
Definition looked_up (s : kernel) (t : txn) (dp : nat) (nm : list Z) (r : outcome kernel (option (nat * Z))) : Prop :=
  let k := first (named (cname nm)) (entries s t dp) in
  match dmap (entries s t dp) (cname nm) with
  | Some inum =>
      match igot dv inum (inodes s) with
      | Some (ip, l) => ∃ s', r = Ret (Some (ip, 16 * Z.of_nat k)) s' ∧ tx s' t ∧ fs_frame (set_inodes l s) s'
      | None => r = Panic "iget: no inodes"
      end
  | None => ∃ s', r = Ret None s' ∧ tx s' t ∧ fs_frame s s'
  end.

Lemma dirlookup_eq s t dp nm :
  dir_inv s t dp → Forall is_byte nm → Z.of_nat (length nm) < BUF2 → looked_up s t dp nm (dirlookup dp nm s).
Proof using Hdv.
  intros Hd Hn Hl. assert (dirlookup dp nm s = loop (dirlookup_step dp nm) 0 s) as ->.
  { unfold dirlookup, ifield, bind, gets. cbn [obind]. by rewrite (dr_type _ _ _ Hd). }
  unfold looked_up.
  destruct (lookup_scan s t dp nm _ Hd Hn Hl (le_n _)) as (s1 & E1 & H1 & F1).
  destruct (dir_inv_frame s t dp s1 Hd H1 F1) as [Hd1 Ee]. pose proof (dir_size s t dp Hd) as (Es & _ & Hs).
  set (k := first _ _) in *. pose proof (first_le (named (cname nm)) (entries s t dp)) as Hf. fold k in Hf.
  rewrite dmap_first. fold k. destruct (decide (k < length (entries s t dp))%nat) as [Hk|Hk].
  - destruct (lookup_entry s1 t dp nm k Hd1 Hn Hl) as (e & s2 & He & H2 & F2 & E2); [by rewrite Ee|].
    rewrite Ee in He. rewrite He. cbn [fmap option_fmap option_map].
    rewrite decide_True in E2 by (by eapply first_at).
    pose proof (fs_frame_trans p s s1 s2 F1 F2) as F. pose proof (fs_frame_inodes p s s2 F) as Ei.
    pose proof (iget_eq p s2 dv e.1 ltac:(apply H2)) as Eg. rewrite Ei in Eg. specialize (Eg (dr_table _ _ _ Hd)).
    destruct (igot dv e.1 (inodes s)) as [[ip l]|].
    + exists (set_inodes l s2). split; [|split; [by apply tx_inodes|by apply frame_inodes]].
      apply (loop_at _ k 0 s (16 * Z.of_nat k) s1); [lia|done|]. rewrite E2. by run Eg.
    + apply (loop_at_panic _ k 0 s (16 * Z.of_nat k) s1); [lia|done|]. rewrite E2. by rewrite (bind_Panic _ _ _ _ Eg).
  - rewrite lookup_ge_None_2 by lia. cbn [fmap option_fmap option_map]. exists s1. split; [|done].
    apply (loop_at _ k 0 s (16 * Z.of_nat k) s1); [lia|done|]. unfold dirlookup_step, ifield. unfold bind, gets. cbn [obind].
    destruct (dir_size s1 t dp Hd1) as (Es1 & _ & _). rewrite (proj2 (Z.ltb_ge _ _)); [done|]. rewrite Es1, Ee. lia.
Qed.
(** ** dirlink *)

(** What the buffer for an entry holds after [j] entries have been read. *)
Definition last_read (D : Z → list Z) (l : list Z) (j : nat) : list Z :=
  match j with O => replicate 16 0 | S j => dent_bytes D l j end.

Lemma link_entry s t dp de k :
  dir_inv s t dp → (k < length (entries s t dp))%nat →
  let de' := dent_bytes (t_data t) (i_addrs (getinode dp s)) k in
  ∃ e s', entries s t dp !! k = Some e ∧ tx s' t ∧ fs_frame s s' ∧
    dirlink_step dp (16 * Z.of_nat k, de) s =
      Ret (if decide (unused e) then inr (16 * Z.of_nat k, de') else inl (16 * Z.of_nat (S k), de')) s'.
Proof using Hdv.
  intros Hd Hk de'. destruct (read_entry s t dp k Hd Hk) as (s' & E & H1 & H2). fold de' in E.
  exists (dent_of de'), s'. split; [by apply entries_lookup|]. split; [done|]. split; [done|].
  unfold dirlink_step, ifield. unfold bind at 1, gets at 1. cbn [obind].
  destruct (dir_size s t dp Hd) as (Es & _ & _). rewrite (proj2 (Z.ltb_lt _ _)) by lia. run E.
  cbn [negb Z.eqb sizeof_dirent Pos.eqb]. unfold unused, dent_of. cbn [fst].
  replace (16 * Z.of_nat k + sizeof_dirent) with (16 * Z.of_nat (S k)) by (unfold sizeof_dirent; lia).
  destruct (Z.eqb_spec (de_inum de') 0); [by rewrite decide_True by done|by rewrite decide_False by done].
Qed.

(** The place of the new entry, and what the buffer then holds. *)
Lemma link_place s t dp :
  dir_inv s t dp →
  ∃ de s', loop (dirlink_step dp) (0, replicate (Z.to_nat sizeof_dirent) 0) s =
             Ret (16 * Z.of_nat (first unused (entries s t dp)), de) s' ∧
    tx s' t ∧ fs_frame s s' ∧ length de = 16%nat ∧ Forall is_byte de.
Proof using Hdv.
  intros Hd. set (k := first unused (entries s t dp)). pose proof (first_le unused (entries s t dp)) as Hf. fold k in Hf.
  set (A := i_addrs (getinode dp s)). pose proof (dir_size s t dp Hd) as (Es & _ & Hs).
  destruct (run_n_inv (λ _ s', tx s' t ∧ fs_frame s s') (dirlink_step dp) (λ j, (16 * Z.of_nat j, last_read (t_data t) A j)) k s)
    as (s1 & E1 & H1 & F1).
  { split; [apply Hd|apply fs_frame_refl]. }
  { intros j s1 Hj [H1 F1]. destruct (dir_inv_frame s t dp s1 Hd H1 F1) as [Hd1 Ee].
    destruct (link_entry s1 t dp (last_read (t_data t) A j) j Hd1) as (e & s2 & He & H2 & F2 & E2); [rewrite Ee; lia|].
    exists s2. rewrite E2. rewrite Ee in He. rewrite decide_False by (by apply (first_before unused (entries s t dp) j)).
    split; [|split; [done|by eapply fs_frame_trans]]. unfold A, getinode. by rewrite (fs_frame_inodes p s s1 F1). }
  destruct (dir_inv_frame s t dp s1 Hd H1 F1) as [Hd1 Ee].
  destruct (decide (k < length (entries s t dp))%nat) as [Hk|Hk].
  - destruct (link_entry s1 t dp (last_read (t_data t) A k) k Hd1) as (e & s2 & He & H2 & F2 & E2); [by rewrite Ee|].
    rewrite Ee in He. rewrite decide_True in E2 by (by eapply first_at).
    exists (dent_bytes (t_data t) (i_addrs (getinode dp s1)) k), s2. split; [|split; [done|split; [by eapply fs_frame_trans|]]].
    + eapply loop_at; [|exact E1|exact E2]. lia.
    + split; [apply length_file_bytes|]. apply (entry_bytes s1 t dp k Hd1). by rewrite Ee.
  - exists (last_read (t_data t) A k), s1. split; [|split; [done|split; [done|]]].
    + eapply loop_at; [|exact E1|]; [lia|]. unfold dirlink_step, ifield. unfold bind, gets. cbn [obind].
      destruct (dir_size s1 t dp Hd1) as (Es1 & _ & _). rewrite (proj2 (Z.ltb_ge _ _)); [done|]. rewrite Es1, Ee. lia.
    + destruct k as [|j] eqn:Ek; cbn [last_read]; [split; [done|]; by apply Forall_replicate|].
      split; [apply length_file_bytes|]. apply (entry_bytes s t dp j Hd). lia.
Qed.
Section linked.
Context (s : kernel) (t : txn) (dp : nat) (Hd : dir_inv s t dp).
Abbreviation k := (first unused (entries s t dp)).
Context (de : list Z) (Hlen : length de = 16%nat) (Hbytes : Forall is_byte de).
Context (s' : kernel) (t' : txn) (Hw : wrote_file dv p start dp (16 * Z.of_nat k) de s t s' t').
Context (Hmax : 16 * Z.of_nat k + 16 ≤ MAXFILE * BSIZE).

Lemma dent_written j :
  16 * Z.of_nat j + 16 ≤ MAXFILE * BSIZE →
  dent_bytes (t_data t') (i_addrs (getinode dp s')) j =
    if decide (j = k) then de else dent_bytes (t_data t) (i_addrs (getinode dp s)) j.
Proof using Hlen Hw.
  intros Hj. apply list_eq_same_length with 16%nat; [case_decide; [done|apply length_file_bytes]|apply length_file_bytes|].
  intros i x y Hi. unfold dent_bytes at 1. rewrite file_bytes_lookup by done. intros [= <-].
  rewrite (wf_bytes _ _ _ _ _ _ _ _ _ _ Hw) by lia. rewrite Hlen. case_decide as Ej.
  - rewrite decide_True by lia. intros Hy. apply list_lookup_total_correct. rewrite <- Hy. f_equal. lia.
  - rewrite decide_False by lia. unfold dent_bytes. rewrite file_bytes_lookup by done. by intros [= <-].
Qed.

Lemma entries_written : entries s' t' dp = dadd (entries s t dp) (dent_of de).
Proof using Hdv Hd Hlen Hw Hmax.
  destruct (dir_size s t dp Hd) as (Es & Hm & Hl). pose proof (first_le unused (entries s t dp)) as Hf.
  pose proof (wf_size _ _ _ _ _ _ _ _ _ _ Hw) as Ez. rewrite Es, Hlen in Ez.
  assert (length (entries s' t' dp) = Nat.max (length (entries s t dp)) (S k)) as El.
  { unfold entries at 1. rewrite length_dents, Ez. Z.to_euclidean_division_equations. lia. }
  assert (∀ j, (j < length (entries s' t' dp))%nat → entries s' t' dp !! j =
            Some (dent_of (if decide (j = k) then de else dent_bytes (t_data t) (i_addrs (getinode dp s)) j))) as Elk.
  { intros j Hj. rewrite entries_lookup by done. rewrite dent_written; [done|]. lia. }
  rewrite dadd_first. apply list_eq. intros j. destruct (decide (j < length (entries s' t' dp))%nat) as [Hj|Hj].
  - rewrite Elk by done. destruct (decide (j = k)) as [Ek|Ek]; case_decide as Hk.
    + subst j. by rewrite list_lookup_insert_eq.
    + subst j. rewrite lookup_app_r by lia. by replace (k - length (entries s t dp))%nat with O by lia.
    + rewrite list_lookup_insert_ne, entries_lookup by lia. done.
    + rewrite lookup_app_l, entries_lookup by lia. done.
  - rewrite !lookup_ge_None_2; [done| |lia]. case_decide; [rewrite length_insert; lia|rewrite length_app; cbn; lia].
Qed.

Lemma dir_inv_written : dir_inv s' t' dp.
Proof using All.
  pose proof Hw as [W1 W2 [_ W3 _ (l & z & W4)] W5 W6 W7 _ _ W8]. destruct Hd as [_ _ D1 D2 D3 D4 D5 _]. rewrite Hlen in W6.
  split; try done; rewrite ?W4; try done.
  - rewrite W4 in W6. cbn in W6 |- *. rewrite W6. Z.to_euclidean_division_equations. lia.
  - intros j Hj. rewrite <- W4, W7 by done. case_decide as Hb; [|by apply D3].
    rewrite Hlen in Hb. destruct (lookup_lt_is_Some_2 de (Z.to_nat (j - 16 * Z.of_nat k))) as [b E]; [lia|].
    rewrite (list_lookup_total_correct _ _ _ E). by eapply Forall_lookup_1.
  - by rewrite W3.
Qed.
End linked.

(** Entries of the inode table that are in use stay as they are. *)
Definition keeps_inodes (l l' : list inode) : Prop :=
  length l' = length l ∧ ∀ j i, l !! j = Some i → i_ref i > 0 → l' !! j = Some i.

Lemma igot_put inum l ip l' :
  igot dv inum l = Some (ip, l') →
  keeps_inodes l (alter (λ i, set_i_ref (i_ref i - 1) i) ip l') ∧ length l' = length l ∧
  ∃ i, l' !! ip = Some i ∧ (i_ref i ≠ 1 ∨ i_valid i = false).
Proof.
  unfold igot, keeps_inodes. destruct (list_find (refers dv inum) l) as [[k i]|] eqn:E1.
  - intros [= <- <-]. apply list_find_Some in E1 as (Hi & Hr & _). pose proof (lookup_lt_Some _ _ _ Hi) as Hk.
    rewrite length_alter, length_insert. split_and!; [done| |done|].
    + intros j x Hx Hx0. destruct (decide (j = k)) as [->|Hj].
      * rewrite list_lookup_alter_eq, list_lookup_insert_eq by done. rewrite Hx in Hi. injection Hi as ->. cbn. f_equal.
        rewrite Z.add_simpl_r. by destruct i.
      * by rewrite list_lookup_alter_ne, list_lookup_insert_ne.
    + exists (set_i_ref (i_ref i + 1) i). split; [by apply list_lookup_insert_eq|]. left. destruct Hr as [Hr _]. cbn. lia.
  - destruct (list_find (λ i, i_ref i = 0) l) as [[k i]|] eqn:E2; [|done].
    intros [= <- <-]. apply list_find_Some in E2 as (Hi & Hr & _). pose proof (lookup_lt_Some _ _ _ Hi) as Hk.
    rewrite length_alter, length_insert. split_and!; [done| |done|].
    + intros j x Hx Hx0. destruct (decide (j = k)) as [->|Hj]; [rewrite Hx in Hi; injection Hi as ->; lia|].
      by rewrite list_lookup_alter_ne, list_lookup_insert_ne.
    + exists (renewed dv inum i). split; [by apply list_lookup_insert_eq|]. by right.
Qed.

Lemma dir_inv_table s t dp s' :
  dir_inv s t dp → tx s' t → sb s' = sb s → same_log (klog s) (klog s') → keeps_inodes (inodes s) (inodes s') →
  dir_inv s' t dp ∧ entries s' t dp = entries s t dp.
Proof.
  intros [H1 [V1 V2 V3 V4 V5] H3 H4 H5 H6 H7 H8] Ht Es L [Kl K].
  assert (getinode dp s' = getinode dp s) as Eg.
  { destruct (lookup_lt_is_Some_2 _ _ V4) as [i Hi]. assert (getinode dp s = i) as Ei by (by apply list_lookup_total_correct).
    rewrite Ei in *. apply list_lookup_total_correct. by apply K. }
  split; [|unfold entries; by rewrite Eg]. split; rewrite ?Eg; try done.
  - split; rewrite ?Eg, ?Es, ?Kl; done.
  - by rewrite Kl.
  - eapply budget_mono; [exact L|exact H8|lia].
Qed.

(** A name that is there already. *)
Lemma dirlink_found s t dp nm inum i :
  dir_inv s t dp → Forall is_byte nm → Z.of_nat (length nm) < BUF2 →
  dmap (entries s t dp) (cname nm) = Some i → igot dv i (inodes s) ≠ None →
  ∃ s', dirlink dp nm inum s = Ret (-1) s' ∧ dir_inv s' t dp ∧ entries s' t dp = entries s t dp ∧
    keeps_inodes (inodes s) (inodes s').
Proof using Hdv.
  intros Hd Hn Hl Em Hg. pose proof (dirlookup_eq s t dp nm Hd Hn Hl) as H. unfold looked_up in H. rewrite Em in H.
  destruct (igot dv i (inodes s)) as [[ip l]|] eqn:Eg; [|done]. destruct H as (s1 & E & H1 & F1).
  pose proof (fs_frame_inodes p _ _ F1) as Ei. cbn in Ei. destruct (igot_put i (inodes s) ip l Eg) as (K & Kl & x & Hx & Hkeep).
  assert (getinode ip s1 = x) as Ex by (unfold getinode; rewrite Ei; by apply list_lookup_total_correct).
  exists (iputs ip s1). unfold dirlink. run E.
  run (iput_eq p s1 ip ltac:(apply H1) ltac:(rewrite Ei; by eapply lookup_lt_Some) ltac:(rewrite Ex; tauto)).
  split; [done|].
  assert (keeps_inodes (inodes s) (inodes (iputs ip s1))) as K' by (unfold iputs, upd_inode; cbn; by rewrite Ei).
  destruct (dir_inv_table s t dp (iputs ip s1) Hd) as [Hd' Ee]; [by apply tx_inodes|..|done|done].
  - exact (fs_frame_sb p _ _ F1).
  - exact (proj1 (proj2 F1)).
Qed.

(** A new name. *)
Lemma can_write_frame s t ip off n s' :
  can_write dv p start ip off n s t → tx s' t → fs_frame s s' → can_write dv p start ip off n s' t.
Proof.
  intros [C1 C2 C3 C4 C5 C6] Ht F. pose proof (fs_frame_inodes p s s' F) as Ei. pose proof (fs_frame_sb p s s' F) as Es.
  assert (getinode ip s' = getinode ip s) as Eg by (unfold getinode; by rewrite Ei).
  split; rewrite ?Eg, ?Es; try done; [by destruct (moved_fs dv p ip s t s' C2 F)|]. eapply budget_mono; [apply F|exact C5|lia].
Qed.
Lemma dirlink_new s t dp nm inum :
  dir_inv s t dp → Forall is_byte nm → Z.of_nat (length nm) < BUF2 → 0 < inum < 2 ^ 16 →
  dmap (entries s t dp) (cname nm) = None →
  let off := 16 * Z.of_nat (first unused (entries s t dp)) in
  can_write dv p start dp off 16 s t → off + 16 ≤ MAXFILE * BSIZE →
  ∃ s' t', dirlink dp nm inum s = Ret 0 s' ∧ dir_inv s' t' dp ∧
    entries s' t' dp = dadd (entries s t dp) (inum, cname nm) ∧
    (∀ j, j ≠ dp → inodes s' !! j = inodes s !! j) ∧
    (∀ b, other (sb s) (t_data t) (i_addrs (getinode dp s)) b → t_data t' b = t_data t b) ∧
    (∀ j, 0 ≤ j < sb_ninodes (sb s) → j ≠ i_inum (getinode dp s) →
       get_dinode (t_data t' (IBLOCK j (sb s))) (dinode_off j) = get_dinode (t_data t (IBLOCK j (sb s))) (dinode_off j)).
Proof using Hdv.
  intros Hd Hn Hl Hi Em off Hc Hmax. pose proof (dirlookup_eq s t dp nm Hd Hn Hl) as H. unfold looked_up in H. rewrite Em in H.
  destruct H as (s1 & E1 & H1 & F1). destruct (dir_inv_frame s t dp s1 Hd H1 F1) as [Hd1 Ee1].
  destruct (link_place s1 t dp Hd1) as (old & s2 & E2 & H2 & F2 & Ho1 & Ho2).
  destruct (dir_inv_frame s1 t dp s2 Hd1 H2 F2) as [Hd2 Ee2]. rewrite Ee1 in E2, Ee2.
  pose proof (fs_frame_trans p s s1 s2 F1 F2) as F. pose proof (fs_frame_inodes p s s2 F) as Ei. pose proof (fs_frame_sb p s s2 F) as Es.
  assert (getinode dp s2 = getinode dp s) as Eg by (unfold getinode; by rewrite Ei).
  destruct (dirent_fields (de_name old) nm inum) as (G1 & G2 & G3);
    [unfold de_name; rewrite length_drop, Ho1; done|by apply Forall_drop|done|lia|].
  set (de := mk_dirent inum (bytes_strncpy (de_name old) nm DIRSIZ)) in *.
  destruct (dir_size s2 t dp Hd2) as (Es2 & _ & _). pose proof (first_le unused (entries s2 t dp)) as Hf.
  pose proof (can_write_frame s t dp off 16 s2 Hc H2 F) as Hc2.
  assert (off = 16 * Z.of_nat (first unused (entries s2 t dp))) as Eo by (by rewrite Ee2).
  destruct (writei_ok dv p start Hdv dp off de s2 t) as (s' & t' & Ew & W); [by rewrite G1|lia|rewrite G1; lia|].
  rewrite Eo in W. exists s', t'. split_and!.
  - unfold dirlink. run E1, E2. fold de off. rewrite G1 in Ew.
    by run Ew.
  - apply (dir_inv_written s2 t dp Hd2 de G1 G2 s' t' W). by rewrite <- Eo.
  - rewrite <- Ee2, <- G3. apply (entries_written s2 t dp Hd2 de G1 s' t' W). by rewrite <- Eo.
  - intros j Hj. by rewrite (ff_others _ _ _ _ (wf_frame _ _ _ _ _ _ _ _ _ _ W)), Ei.
  - intros b Hb. apply (wf_other _ _ _ _ _ _ _ _ _ _ W). by rewrite Es, Eg.
  - intros j Hj Hne. pose proof (wf_inodes _ _ _ _ _ _ _ _ _ _ W j) as Hw. rewrite Es, Eg in Hw. rewrite Hw by done. by rewrite decide_False.
Qed.
End dir.

(** C10: [dirlookup] looks a name up in the map the directory
    holds: with an entry in use whose first DIRSIZ characters are those of the
    name, it returns the offset of the first such entry and the inode of its
    number, to which the inode table has one more reference (or it panics, when
    the table has no room for the inode); with none, it returns 0.  It changes
    neither the directory nor the log. *)
Theorem dirlookup_spec dv p start s t dp nm :
  0 ≤ dv < 2 ^ 32 → dir_inv dv p start s t dp → Forall is_byte nm → Z.of_nat (length nm) < BUF2 →
  looked_up dv p start s t dp nm (dirlookup dp nm s).
Proof. intros Hdv. by apply dirlookup_eq. Qed.

(** C9: [dirlink] adds a name to the map the directory holds: a
    name that is there already makes it return -1 with the directory and the
    inodes in use as they were; otherwise, with room to write one entry, it
    returns 0, the new name leads to the inode number, every other name to
    what it led to before, and no other inode and no block in use for something
    else has changed. *)
Theorem dirlink_spec dv p start s t dp nm inum :
  0 ≤ dv < 2 ^ 32 → dir_inv dv p start s t dp → Forall is_byte nm → Z.of_nat (length nm) < BUF2 → 0 < inum < 2 ^ 16 →
  let es := entries s t dp in
  let off := 16 * Z.of_nat (first unused es) in
  match dmap es (cname nm) with
  | Some i =>
      igot dv i (inodes s) ≠ None →
      ∃ s', dirlink dp nm inum s = Ret (-1) s' ∧ dir_inv dv p start s' t dp ∧ entries s' t dp = es ∧
        keeps_inodes (inodes s) (inodes s')
  | None =>
      can_write dv p start dp off 16 s t → off + 16 ≤ MAXFILE * BSIZE →
      ∃ s' t', dirlink dp nm inum s = Ret 0 s' ∧ dir_inv dv p start s' t' dp ∧
        (∀ nm', dmap (entries s' t' dp) nm' = if decide (nm' = cname nm) then Some inum else dmap es nm') ∧
        (∀ j, j ≠ dp → inodes s' !! j = inodes s !! j) ∧
        (∀ b, other (sb s) (t_data t) (i_addrs (getinode dp s)) b → t_data t' b = t_data t b) ∧
        (∀ j, 0 ≤ j < sb_ninodes (sb s) → j ≠ i_inum (getinode dp s) →
           get_dinode (t_data t' (IBLOCK j (sb s))) (dinode_off j) = get_dinode (t_data t (IBLOCK j (sb s))) (dinode_off j))
  end.
Proof.
  intros Hdv Hd Hn Hl Hi es off. destruct (dmap es (cname nm)) as [i|] eqn:Em.
  - intros Hg. by apply (dirlink_found dv p start Hdv s t dp nm inum i).
  - intros Hc Hmax. destruct (dirlink_new dv p start Hdv s t dp nm inum Hd Hn Hl Hi Em Hc Hmax) as (s' & t' & E & Hd' & Ee & Ht & Ho & Hj).
    exists s', t'. split_and!; try done. intros nm'. rewrite Ee. apply dmap_add; [lia|done].
Qed.

(** ** A sample directory *)

(** An empty directory, in a table of inodes that has room. *)
Lemma sample_dir :
  ∃ s, dir_inv ROOTDEV 0 2 s sample_txn 0 ∧ can_write ROOTDEV 0 2 0 0 16 s sample_txn ∧ entries s sample_txn 0 = [] ∧
    inodes s !! 1%nat = Some (set_i_ref 0 sample_inode).
Proof.
  destruct sample_state as (s & Ht & Es & Ei & Ez).
  set (s1 := set_inodes (set_i_type T_DIR sample_inode :: replicate 49 (set_i_ref 0 sample_inode)) s).
  assert (tx ROOTDEV 0 2 s1 sample_txn) as Ht1 by by apply tx_inodes.
  assert (sample_at T_DIR s1) as Ha by done. pose proof (sample_getinode T_DIR s1 Ha) as Eg.
  exists s1. split; [|split; [by apply (sample_can_write T_DIR)|split; [unfold entries; by rewrite Eg|done]]].
  split; rewrite ?Eg; try done; [by apply (sample_inv T_DIR)| |].
  - intros k Hk. assert (fbyte (t_data sample_txn) (i_addrs (set_i_type T_DIR sample_inode)) k = 0) as ->; [|done].
    unfold fbyte. destruct (Z.eqb_spec (addr (t_data sample_txn) (i_addrs (set_i_type T_DIR sample_inode)) (Some (k / BSIZE))) 0) as [|H]; [done|].
    exfalso. apply H. cbn [addr i_addrs set_i_type sample_inode]. destruct (Z.ltb_spec (k / BSIZE) NDIRECT) as [H1|H1]; [|done].
    apply lookup_total_replicate_2. unfold NDIRECT, BSIZE in *. Z.to_euclidean_division_equations. lia.
  - split; [|by apply Nat.ltb_lt]. change (klog s1) with (klog s). rewrite Ez. by apply Z.leb_le.
Qed.

Lemma dirlink_spec_witness :
  ∃ s s' t', dirlink 0 [97] 7 s = Ret 0 s' ∧ dmap (entries s' t' 0) [97] = Some 7 ∧ dmap (entries s' t' 0) [98] = None.
Proof.
  destruct sample_dir as (s & Hd & Hc & Ee & _).
  pose proof (dirlink_spec ROOTDEV 0 2 s sample_txn 0 [97] 7 ltac:(done) Hd ltac:(by constructor) ltac:(done) ltac:(done)) as H.
  cbv zeta in H. rewrite Ee in H. destruct (H Hc ltac:(done)) as (s' & t' & E & _ & Hm & _ & _ & _).
  exists s, s', t'. split; [done|]. by rewrite !Hm.
Defined.

(** The name that has been added is found. *)
Lemma dirlookup_spec_witness :
  ∃ s s' s'' ip, dirlink 0 [97] 7 s = Ret 0 s' ∧ dirlookup 0 [97] s' = Ret (Some (ip, 0)) s'' ∧ i_inum (getinode ip s'') = 7.
Proof.
  destruct sample_dir as (s & Hd & Hc & Ee & Hfree).
  destruct (dirlink_new ROOTDEV 0 2 ltac:(done) s sample_txn 0 [97] 7 Hd) as (s' & t' & E & Hd' & Ee' & Ht & _ & _);
    [by constructor|done|done|by rewrite Ee|by rewrite Ee|by rewrite Ee|].
  pose proof (dirlookup_spec ROOTDEV 0 2 s' t' 0 [97] ltac:(done) Hd' ltac:(by constructor) ltac:(done)) as H.
  unfold looked_up in H. rewrite Ee', Ee in H. change (dmap (dadd [] (7, cname [97])) (cname [97])) with (Some 7) in H. cbv iota in H.
  destruct (igot_room ROOTDEV 7 (inodes s') 1 (set_i_ref 0 sample_inode)) as (ip & l & i & Eg & Hi & Hi7); [by rewrite Ht|done|].
  rewrite Eg in H. destruct H as (s'' & E2 & _ & F). exists s, s', s'', ip. split; [done|]. split; [done|].
  assert (getinode ip s'' = i) as ->; [|done]. unfold getinode. rewrite (fs_frame_inodes 0 _ _ F). by apply list_lookup_total_correct.
Defined.
