(* ===== verification/Mkfs.v ===== *)
(** * mkfs/mkfs.c: the builder of the file system image

    The program runs on the build machine and writes the disk the kernel boots
    from.  The image is a file of sectors; what the build machine does (whether
    files can be opened and written, and the pieces in which [read] returns
    their contents) is a parameter.  The messages are not modelled, and the
    build machine is little-endian. *)

From S2P Require Import Prelude Machine Memory Kstring State Block Fs Dir.

Definition NINODES : Z := 200.
Definition nbitmap : Z := FSSIZE / (BSIZE * 8) + 1.
Definition ninodeblocks : Z := NINODES / IPB + 1.
Definition nlog : Z := LOGSIZE.
Definition nmeta : Z := 2 + nlog + ninodeblocks + nbitmap.
Definition nblocks : Z := FSSIZE - nmeta.
Definition zeroes : list Z := replicate (Z.to_nat BSIZE) 0.

(** The global variables, and the file [fsfd]: the sectors that have been
    written, and its length in sectors. *)
Record builder : Type := mk_builder {
  sectors : gmap Z (list Z);
  nsectors : Z;
  msb : superblock;
  freeinode : Z;
  freeblock : Z
}.

Definition set_sectors (m : gmap Z (list Z)) (n : Z) (s : builder) : builder :=
  mk_builder m n (msb s) (freeinode s) (freeblock s).
Definition set_msb (b : superblock) (s : builder) : builder :=
  mk_builder (sectors s) (nsectors s) b (freeinode s) (freeblock s).
Definition set_freeinode (n : Z) (s : builder) : builder :=
  mk_builder (sectors s) (nsectors s) (msb s) n (freeblock s).
Definition set_freeblock (n : Z) (s : builder) : builder :=
  mk_builder (sectors s) (nsectors s) (msb s) (freeinode s) n.

(** [fsfd] just after it has been created, and the globals at the start. *)
Definition start : builder := mk_builder ∅ 0 (mk_superblock 0 0 0 0 0 0 0 0) 1 0.

(** A sector of the file; what has been skipped by seeking is zero. *)
Definition sector (s : builder) (n : Z) : list Z := default zeroes (sectors s !! n).

Abbreviation B := (M builder).

(** [die] prints a message and exits with status 1; a failed [assert] aborts. *)
Definition die {A} (msg : string) : B A := panic msg.
Definition assert (b : bool) : B unit := if b then ret tt else panic "assert".

(** What the build machine does: whether the image can be created, whether a
    seek to an offset and a write there succeed, and for the name of a file
    what successive calls of [read] return, when the file can be opened. *)
Record host : Type := mk_host {
  h_create : bool;
  h_seek : Z → bool;
  h_write : Z → bool;
  h_open : list Z → option (list (list Z))
}.

(** Byte order: the bytes are stored one by one, and read as an integer. *)
Definition xshort (x : Z) : Z := get16 [u8 x; u8 (Z.shiftr x 8)] 0.
Definition xint (x : Z) : Z := get32 [u8 x; u8 (Z.shiftr x 8); u8 (Z.shiftr x 16); u8 (Z.shiftr x 24)] 0.

(** [struct superblock], as it lies in memory. *)
Definition put_sb (buf : list Z) (b : superblock) : list Z :=
  put32 (put32 (put32 (put32 (put32 (put32 (put32 (put32 buf 0 (sb_magic b)) 4 (sb_size b)) 8 (sb_nblocks b))
    12 (sb_ninodes b)) 16 (sb_nlog b)) 20 (sb_logstart b)) 24 (sb_inodestart b)) 28 (sb_bmapstart b).

Section mkfs.
Context (h : host).

Definition wsect (sec : Z) (buf : list Z) : B unit :=
  let off := u32 (sec * BSIZE) in
  if negb (h_seek h off) then die "lseek" else
  if negb (h_write h off) then die "write" else
  let n := off / BSIZE in
  modify (λ s, set_sectors (<[n := buf]> (sectors s)) (Z.max (nsectors s) (n + 1)) s).

Definition rsect (sec : Z) : B (list Z) :=
  let off := u32 (sec * BSIZE) in
  if negb (h_seek h off) then die "lseek" else
  let n := off / BSIZE in
  let! len := gets nsectors in
  if n <? len then gets (λ s, sector s n) else die "read".

Definition winode (inum : Z) (ip : dinode) : B unit :=
  let! sb := gets msb in
  let bn := IBLOCK inum sb in
  let! buf := rsect bn in
  wsect bn (put_dinode buf (dinode_off inum) ip).

Definition rinode (inum : Z) : B dinode :=
  let! sb := gets msb in
  let bn := IBLOCK inum sb in
  let! buf := rsect bn in
  ret (get_dinode buf (dinode_off inum)).

Definition ialloc (type : Z) : B Z :=
  let! inum := gets freeinode in
  modify (λ s, set_freeinode (u32 (freeinode s + 1)) s) ;;;
  let din := mk_dinode (s16 (xshort type)) 0 0 (s16 (xshort 1)) (xint 0) (replicate 13 0) in
  winode inum din ;;;
  ret inum.

(** [for(i = 0; i < used; i++) buf[i/8] = buf[i/8] | (0x1 << (i%8))] *)
Fixpoint mark_blocks (used : nat) (buf : list Z) : list Z :=
  match used with
  | O => buf
  | S n =>
      let buf := mark_blocks n buf in
      let i := Z.of_nat n in
      <[Z.to_nat (i / 8) := u8 (Z.lor (buf !!! Z.to_nat (i / 8)) (Z.shiftl 1 (i `mod` 8)))]> buf
  end.

Definition balloc (used : Z) : B unit :=
  assert (used <? BSIZE * 8) ;;;
  let buf := mark_blocks (Z.to_nat used) zeroes in
  let! sb := gets msb in
  wsect (sb_bmapstart sb) buf.

(** [freeblock++] *)
Definition next_block : B Z :=
  let! b := gets freeblock in
  modify (λ s, set_freeblock (u32 (freeblock s + 1)) s) ;;;
  ret b.

(** [if(xint(din.addrs[i]) == 0) din.addrs[i] = xint(freeblock++)] *)
Definition fill_addr (i : nat) (addrs : list Z) : B (list Z) :=
  if xint (addrs !!! i) =? 0 then
    let! b := next_block in
    ret (<[i := xint b]> addrs)
  else ret addrs.

(** The same for the entry of [fbn] in the indirect block [ind]. *)
Definition fill_entry (ind fbn : Z) (addrs : list Z) : B (Z * list Z) :=
  let! indirect := rsect ind in
  let i := Z.to_nat (4 * (fbn - NDIRECT)) in
  if get32 indirect i =? 0 then
    let! b := next_block in
    let indirect := put32 indirect i (xint b) in
    wsect ind indirect ;;;
    ret (xint (get32 indirect i), addrs)
  else ret (xint (get32 indirect i), addrs).

(** The block [fbn] of the file, and the addresses of the inode. *)
Definition append_block (fbn : Z) (addrs : list Z) : B (Z * list Z) :=
  if fbn <? NDIRECT then
    let! addrs := fill_addr (Z.to_nat fbn) addrs in
    ret (xint (addrs !!! Z.to_nat fbn), addrs)
  else
    let! addrs := fill_addr (Z.to_nat NDIRECT) addrs in
    let ind := xint (addrs !!! Z.to_nat NDIRECT) in
    fill_entry ind fbn addrs.

(** One turn of the loop of [iappend], with the addresses of the inode, the
    offset in the file and the bytes that are left. *)
Definition iappend_step (v : list Z * Z * list Z) : B (list Z * Z * list Z + list Z * Z) :=
  let '(addrs, off, p) := v in
  let n := Z.of_nat (length p) in
  if 0 <? n then
    let fbn := off / BSIZE in
    assert (fbn <? MAXFILE) ;;;
    let! '(x, addrs) := append_block fbn addrs in
    let n1 := Z.min n (u32 ((fbn + 1) * BSIZE - off)) in
    let! buf := rsect x in
    wsect x (put_bytes buf (Z.to_nat (off - fbn * BSIZE)) (take (Z.to_nat n1) p)) ;;;
    ret (inl (addrs, u32 (off + n1), drop (Z.to_nat n1) p))
  else ret (inr (addrs, off)).

Definition iappend (inum : Z) (p : list Z) : B unit :=
  let! din := rinode inum in
  let off := xint (di_size din) in
  let! '(addrs, off) := loop iappend_step (di_addrs din, off, p) in
  winode inum (mk_dinode (di_type din) (di_major din) (di_minor din) (di_nlink din) (xint off) addrs).

(** [while((cc = read(fd, buf, sizeof(buf))) > 0) iappend(inum, buf, cc);] *)
Fixpoint append_pieces (inum : Z) (pieces : list (list Z)) : B unit :=
  match pieces with
  | [] => ret tt
  | p :: ps => if 0 <? Z.of_nat (length p) then iappend inum p ;;; append_pieces inum ps else ret tt
  end.

Definition shortname (arg : list Z) : list Z :=
  if decide (take 5 arg = bytes_of "user/") then drop 5 arg else arg.

(** Skip leading _ in name when writing to file system. *)
Definition skip_underscore (name : list Z) : list Z :=
  match name with
  | c :: name' => if c =? 95 then name' else name
  | [] => []
  end.

(** A directory entry: [bzero], [de.inum = xshort(inum)] and [strncpy]. *)
Definition dirent_for (inum : Z) (name : list Z) : list Z :=
  mk_dirent (xshort (u16 inum)) (bytes_strncpy (replicate (Z.to_nat DIRSIZ) 0) name DIRSIZ).

Definition add_file (rootino : Z) (arg : list Z) : B unit :=
  let name := shortname arg in
  assert (negb (existsb (λ c, c =? 47) name)) ;;;
  match h_open h arg with
  | None => die "open"
  | Some pieces =>
      let name := skip_underscore name in
      let! inum := ialloc T_FILE in
      iappend rootino (dirent_for inum name) ;;;
      append_pieces inum pieces
  end.

(** [sb], which the program fills in. *)
Definition new_sb : superblock :=
  mk_superblock FSMAGIC (xint FSSIZE) (xint nblocks) (xint NINODES) (xint nlog) (xint 2) (xint (2 + nlog))
    (xint (2 + nlog + ninodeblocks)).

(** fix size of root inode dir *)
Definition round_root (rootino : Z) : B unit :=
  let! din := rinode rootino in
  let off := xint (di_size din) in
  let off := u32 ((off / BSIZE + 1) * BSIZE) in
  winode rootino (mk_dinode (di_type din) (di_major din) (di_minor din) (di_nlink din) (xint off) (di_addrs din)).

Definition main (argv : list (list Z)) : B Z :=
  if (length argv <? 2)%nat then die "Usage: mkfs fs.img files..." else
  assert (BSIZE `mod` sizeof_dinode =? 0) ;;;
  assert (BSIZE `mod` sizeof_dirent =? 0) ;;;
  if negb (h_create h) then die "open" else
  modify (set_msb new_sb) ;;;
  modify (set_freeblock nmeta) ;;;
  for_up 0 (ret FSSIZE) (λ i, wsect i zeroes) ;;;
  let! sb := gets msb in
  wsect 1 (put_sb zeroes sb) ;;;
  let! rootino := ialloc T_DIR in
  assert (rootino =? ROOTINO) ;;;
  iappend rootino (dirent_for rootino (bytes_of ".")) ;;;
  iappend rootino (dirent_for rootino (bytes_of "..")) ;;;
  for_each (drop 2 argv) (add_file rootino) ;;;
  round_root rootino ;;;
  let! used := gets freeblock in
  balloc (s32 used) ;;;
  ret 0.
End mkfs.
