(* ===== verification/MkfsSpec.v ===== *)
(** * The file system image (mkfs/mkfs.c)

    The image that [mkfs] writes is one the kernel's file system theorems start
    from: its super block, bitmap and inodes are as [fs_ok] and [file_ok] want
    them, and the files it holds are those it was given. *)

From Stdlib Require Import FunctionalExtensionality.
From S2P Require Import Prelude Machine Memory Kstring State Sched Runs Block Bio Log Fs FsLogic FsAlloc FsFile FsIo Dir.
From S2P Require Import CacheLogic NameSpec DirSpec Mkfs.

(** ** Numbers *)

Lemma xint_small x : 0 ≤ x < 2 ^ 32 → xint x = x.
Proof.
  intros Hx. unfold xint, get32. cbn [le_get]. rewrite !list_lookup_total_alt. cbn. rewrite !Z.shiftr_div_pow2 by lia.
  unfold u8. Z.to_euclidean_division_equations. lia.
Qed.

Lemma new_sb_eq : new_sb = mk_superblock FSMAGIC 1000 954 200 30 2 32 45.
Proof. reflexivity. Qed.

Lemma iblock_eq j : 0 ≤ j < 200 → IBLOCK j new_sb = j / 16 + 32 ∧ 32 ≤ IBLOCK j new_sb < 45.
Proof.
  intros Hj. unfold IBLOCK. change IPB with 16. change (sb_inodestart new_sb) with 32.
  assert (0 ≤ j / 16 < 13) by (split; [apply Z.div_pos; lia|apply Z.div_lt_upper_bound; lia]).
  rewrite u32_small by lia. lia.
Qed.

Lemma bblock_eq c : 0 ≤ c < 1000 → BBLOCK c new_sb = 45.
Proof. intros Hc. unfold BBLOCK, BPB, BSIZE. rewrite Z.div_small by lia. reflexivity. Qed.

Lemma new_sb_meta b : meta new_sb b → 32 ≤ b ≤ 45.
Proof.
  intros [(c & Hc & ->)|(j & Hj & ->)].
  - change (sb_size new_sb) with 1000 in Hc. rewrite bblock_eq by done. lia.
  - change (sb_ninodes new_sb) with 200 in Hj. pose proof (iblock_eq j Hj). lia.
Qed.

(** ** The bitmap *)

Definition bitmap (n : Z) : list Z := mark_blocks (Z.to_nat n) zeroes.

Lemma mark_blocks_ok n : Z.of_nat n ≤ 8192 → length (mark_blocks n zeroes) = Z.to_nat BSIZE ∧ Forall is_byte (mark_blocks n zeroes).
Proof.
  induction n as [|n IH]; intros Hn; cbn [mark_blocks]; [split; [done|]; by apply Forall_replicate|].
  destruct IH as [Hl Hb]; [lia|]. rewrite length_insert. split; [done|]. apply Forall_insert; [done|]. by apply Z.mod_pos_bound.
Qed.

Lemma bitmap_next n : 0 ≤ n < 8192 → bitmap (n + 1) = bit_set n (bitmap n).
Proof.
  intros Hn. unfold bitmap. replace (Z.to_nat (n + 1)) with (S (Z.to_nat n)) by lia. cbn [mark_blocks]. rewrite Z2Nat.id by lia.
  destruct (mark_blocks_ok (Z.to_nat n)) as [Hl Hb]; [lia|]. unfold bit_set, BPB, BSIZE in *. rewrite (Z.mod_small n (1024 * 8)) by lia.
  f_equal. apply Z.mod_small. assert (0 ≤ n `mod` 8 < 8) by (apply Z.mod_pos_bound; lia). apply (lor_range _ _ 8); [lia|..].
  - apply (Forall_lookup_1 _ _ (Z.to_nat (n / 8)) _ Hb), list_lookup_lookup_total_lt. rewrite Hl.
    assert (n / 8 < 1024) by (apply Z.div_lt_upper_bound; lia). lia.
  - rewrite Z.shiftl_1_l. split; [lia|]. apply Z.pow_lt_mono_r; lia.
Qed.

Lemma bitmap_bit n b :
  0 ≤ n ≤ 1000 → 0 ≤ b < 1000 → Z.testbit (bitmap n !!! Z.to_nat (b `mod` BPB / 8)) (b `mod` 8) = (b <? n).
Proof.
  intros Hn Hb. rewrite <- (Z2Nat.id n) by lia. assert (Z.of_nat (Z.to_nat n) ≤ 1000) as Hk by lia. revert Hk. clear Hn.
  induction (Z.to_nat n) as [|k IH]; intros Hk.
  - change (bitmap (Z.of_nat 0)) with (replicate (Z.to_nat BSIZE) 0). rewrite lookup_total_replicate_2 by (apply byte_index; lia).
    rewrite Z.bits_0. symmetry. apply Z.ltb_ge. lia.
  - rewrite Nat2Z.inj_succ, <- Z.add_1_r, bitmap_next, testbit_set; try lia.
    + rewrite IH by lia. case_decide; [subst; symmetry; apply Z.ltb_lt; lia|].
      destruct (Z.ltb_spec b (Z.of_nat k)), (Z.ltb_spec b (Z.of_nat k + 1)); lia || done.
    + apply (mark_blocks_ok (Z.to_nat (Z.of_nat k))). lia.
    + unfold BPB, BSIZE. by rewrite !Z.div_small by lia.
Qed.

(** ** The image as the kernel will see it *)

(** The contents of the blocks, with the bitmap [balloc] writes at the end. *)
Definition view (s : builder) : Z → list Z := set_at 45 (bitmap (freeblock s)) (sector s).

(** What holds of the image all along. *)
Record built (s : builder) : Prop := {
  bt_len : nsectors s = FSSIZE;
  bt_sb : msb s = new_sb;
  bt_free : nmeta ≤ freeblock s ≤ FSSIZE;
  bt_sect : ∀ b, length (sector s b) = Z.to_nat BSIZE;
  bt_low : ∀ b, 0 ≤ b < 32 → sector s b = if decide (b = 1) then put_sb zeroes new_sb else zeroes;
  bt_zero : ∀ b, freeblock s ≤ b < FSSIZE → sector s b = zeroes
}.

Definition vt (D : Z → list Z) : txn := mk_txn D [] [].

Lemma view_ne s b : b ≠ 45 → view s b = sector s b.
Proof. intros Hb. by apply set_at_ne. Qed.

Lemma view_bit s b : 0 ≤ freeblock s ≤ 1000 → 0 ≤ b < 1000 → bit_of new_sb (view s) b = (b <? freeblock s).
Proof. intros Hf Hb. unfold bit_of. rewrite bblock_eq by done. unfold view. rewrite set_at_eq. by apply bitmap_bit. Qed.

Lemma built_fs s : built s → fs_ok new_sb (view s).
Proof.
  intros [B1 B2 B3 B4 B5 B6]. change nmeta with 46 in B3. unfold FSSIZE in *. split.
  - by split; cbn.
  - intros b. unfold view, set_at. case_decide; [|done]. apply mark_blocks_ok. lia.
  - rewrite view_bit by lia. apply Z.ltb_lt. lia.
  - intros b Hm Hb. rewrite view_bit by lia || done. apply new_sb_meta in Hm. apply Z.ltb_lt. lia.
  - intros c j Hc Hj. change (sb_size new_sb) with 1000 in Hc. change (sb_ninodes new_sb) with 200 in Hj.
    rewrite bblock_eq by done. pose proof (iblock_eq j Hj). lia.
  - done.
Qed.

(** [freeblock++] takes a block as [balloc] of the kernel does. *)
Lemma view_alloc s :
  built s → freeblock s < FSSIZE →
  let s' := set_freeblock (freeblock s + 1) s in
  built s' ∧ view s' = t_data (t_alloc new_sb (freeblock s) (vt (view s))).
Proof.
  intros [B1 B2 B3 B4 B5 B6] Hc s'. change nmeta with 46 in B3. unfold FSSIZE in *. split.
  - split; try done; cbn [freeblock set_freeblock s']; unfold FSSIZE; change nmeta with 46; [lia|]. intros b Hb. apply B6. lia.
  - apply functional_extensionality. intros b. unfold t_alloc, t_write. cbn [t_data vt]. rewrite bblock_eq by lia.
    unfold view, s'. cbn [freeblock set_freeblock]. rewrite set_at_eq, <- bitmap_next by lia. unfold set_at.
    repeat case_decide; subst; try lia; try done. apply B6. lia.
Qed.

(** ** Sectors *)

Definition put_sector (b : Z) (d : list Z) (s : builder) : builder := set_sectors (<[b := d]> (sectors s)) (nsectors s) s.

Lemma sector_put b d s : sector (put_sector b d s) = set_at b d (sector s).
Proof.
  apply functional_extensionality. intros n. unfold sector, put_sector, set_at. cbn. destruct (decide (n = b)) as [->|Hn].
  - by rewrite lookup_insert_eq.
  - by rewrite lookup_insert_ne.
Qed.

Lemma view_write s b d :
  built s → 32 ≤ b < freeblock s → b ≠ 45 → length d = Z.to_nat BSIZE →
  built (put_sector b d s) ∧ view (put_sector b d s) = t_data (t_write b d (vt (view s))).
Proof.
  intros [B1 B2 B3 B4 B5 B6] Hb H45 Hd. split.
  - split; try done; rewrite sector_put.
    + intros c. unfold set_at. by case_decide.
    + intros c Hc. rewrite set_at_ne by lia. by apply B5.
    + intros c Hc. cbn in Hc. rewrite set_at_ne by lia. by apply B6.
  - apply functional_extensionality. intros c. unfold view. rewrite sector_put. cbn [t_data t_write vt freeblock put_sector set_sectors].
    unfold set_at. repeat case_decide; congruence.
Qed.

(** ** Allocating for a file *)

(** There are blocks for exactly the bytes of the file. *)
Record blocks_exact (D : Z → list Z) (l : list Z) (size : Z) : Prop := {
  ex_data : ∀ bn, 0 ≤ bn < MAXFILE → (addr D l (Some bn) ≠ 0 ↔ bn * BSIZE < size);
  ex_ind : l !!! 12%nat ≠ 0 ↔ NDIRECT * BSIZE < size
}.

(** The number of these blocks. *)
Definition cost (size : Z) : Z := (size + 1023) / 1024 + (if NDIRECT * BSIZE <? size then 1 else 0).

(** A block has been found or taken for the address [x] of a file. *)
Record reserved (x : option Z) (size : Z) (s : builder) (l : list Z) (s' : builder) (l' : list Z) : Prop := {
  rv_built : built s';
  rv_file : file_ok new_sb (view s') l' size;
  rv_grown : grown new_sb (view s) l (view s') l';
  rv_addr : ∀ y, valid y → addr (view s') l' y =
    if decide (y = x) then (if addr (view s) l x =? 0 then freeblock s else addr (view s) l x) else addr (view s) l y;
  rv_free : freeblock s' = freeblock s + (if addr (view s) l x =? 0 then 1 else 0);
  rv_inode : freeinode s' = freeinode s
}.

(** The blocks of a file lie after those of the file system's own. *)
Definition placed (D : Z → list Z) (l : list Z) : Prop := ∀ x, valid x → addr D l x ≠ 0 → nmeta ≤ addr D l x.

Lemma file_range s l size x :
  built s → file_ok new_sb (view s) l size → placed (view s) l → valid x → addr (view s) l x ≠ 0 →
  nmeta ≤ addr (view s) l x < freeblock s.
Proof.
  intros Hb Hf Hp Hx Hne. split; [by apply Hp|]. destruct (fl_range _ _ _ _ Hf x Hx Hne) as (R1 & R2 & R3).
  change (sb_size new_sb) with 1000 in R1. pose proof (bt_free _ Hb) as Hfb. change nmeta with 46 in Hfb. unfold FSSIZE in Hfb.
  rewrite view_bit in R2 by lia. by apply Z.ltb_lt.
Qed.

Lemma addr_range D l size x : file_ok new_sb D l size → valid x → 0 ≤ addr D l x < 1000.
Proof.
  intros Hf Hx. destruct (decide (addr D l x = 0)) as [->|Hne]; [lia|].
  destruct (fl_range _ _ _ _ Hf x Hx Hne) as (R & _). change (sb_size new_sb) with 1000 in R. lia.
Qed.

Lemma reserved_placed x size s l s' l' : built s → placed (view s) l → reserved x size s l s' l' → placed (view s') l'.
Proof.
  intros Hb Hp R y Hy. rewrite (rv_addr _ _ _ _ _ _ R y Hy). pose proof (bt_free _ Hb). case_decide as E; [subst y|by apply Hp].
  destruct (Z.eqb_spec (addr (view s) l x) 0); [lia|by apply Hp].
Qed.

(** Nothing has to be done for an address that is there. *)
Lemma reserved_refl x size s l :
  built s → file_ok new_sb (view s) l size → addr (view s) l x ≠ 0 → reserved x size s l s l.
Proof.
  intros Hb Hf Hne. rewrite <- Z.eqb_neq in Hne. split; try done.
  - intros y Hy. rewrite Hne. by case_decide; subst.
  - rewrite Hne. lia.
Qed.

Section build.
Context (h : host) (Hseek : ∀ o, h_seek h o = true) (Hwrite : ∀ o, h_write h o = true).

Lemma sect_index b : 0 ≤ b < FSSIZE → u32 (b * BSIZE) / BSIZE = b.
Proof. intros Hb. unfold FSSIZE, BSIZE in *. rewrite u32_small by lia. apply Z.div_mul. lia. Qed.

Lemma rsect_eq s b : built s → 0 ≤ b < FSSIZE → rsect h b s = Ret (sector s b) s.
Proof using Hseek.
  intros Hb H. unfold rsect. rewrite Hseek, sect_index by done. cbn [negb]. rewrite (bind_Ret _ _ s (nsectors s) s) by done.
  rewrite (bt_len _ Hb), (proj2 (Z.ltb_lt _ _)) by lia. done.
Qed.

Lemma wsect_eq s b d : built s → 0 ≤ b < FSSIZE → wsect h b d s = Ret tt (put_sector b d s).
Proof using Hseek Hwrite.
  intros Hb H. unfold wsect. rewrite Hseek, Hwrite, sect_index by done. cbn [negb]. unfold modify, put_sector. do 2 f_equal.
  rewrite (bt_len _ Hb). lia.
Qed.

Lemma next_block_eq s :
  built s → freeblock s < FSSIZE → next_block s = Ret (freeblock s) (set_freeblock (freeblock s + 1) s).
Proof.
  intros Hb Hf. pose proof (bt_free _ Hb) as Hfb. change nmeta with 46 in Hfb. unfold FSSIZE in *.
  unfold next_block. rewrite (bind_Ret _ _ s (freeblock s) s) by done. unfold bind, modify, ret. cbn [obind].
  by rewrite u32_small by lia.
Qed.

(** A slot of the inode. *)
Lemma fill_addr_ok s l size x :
  built s → file_ok new_sb (view s) l size → placed (view s) l → valid x → (if x is Some bn then bn < NDIRECT else True) →
  (addr (view s) l x = 0 → freeblock s < FSSIZE) →
  ∃ s' l', fill_addr (slot_index x) l s = Ret l' s' ∧ reserved x size s l s' l'.
Proof.
  intros Hb Hf Hp Hx Hd Hroom.
  assert (l !!! slot_index x = addr (view s) l x) as Ea.
  { destruct x as [bn|]; [|done]. cbn [addr slot_index]. by rewrite (proj2 (Z.ltb_lt _ _) Hd). }
  pose proof (bt_free _ Hb) as Hfb. change nmeta with 46 in Hfb. unfold FSSIZE in *.
  pose proof (addr_range _ l size x Hf Hx) as Ha.
  unfold fill_addr. rewrite Ea, xint_small by lia. destruct (Z.eqb_spec (addr (view s) l x) 0) as [E0|Hne].
  2:{ exists s, l. split; [done|]. by apply reserved_refl. }
  specialize (Hroom E0). exists (set_freeblock (freeblock s + 1) s), (<[slot_index x := freeblock s]> l).
  rewrite (bind_Ret _ _ _ _ _ (next_block_eq s Hb Hroom)), xint_small by lia. split; [done|].
  destruct (view_alloc s Hb Hroom) as [Hb' Ev]. pose proof (built_fs s Hb) as Hfs.
  assert (bit_of new_sb (view s) (freeblock s) = false) as Hfree by (rewrite view_bit by lia; apply Z.ltb_irrefl).
  assert (0 ≤ freeblock s < sb_size new_sb) as Hc by (change (sb_size new_sb) with 1000; lia).
  destruct (slot_grow new_sb (vt (view s)) l size (freeblock s) Hfs Hf Hc Hfree x Hx Hd E0) as (G1 & G2 & G3 & G4).
  split; try done; rewrite ?Ev; try done.
  - intros y Hy. rewrite (addr_slot new_sb (vt (view s)) l size (freeblock s) Hfs Hf Hc Hfree x y Hx Hy Hd E0).
    case_decide; [|done]. by rewrite E0.
  - by rewrite E0.
Qed.

Lemma fill_entry_ok s l size bn :
  built s → file_ok new_sb (view s) l size → placed (view s) l → NDIRECT ≤ bn < MAXFILE → l !!! 12%nat ≠ 0 →
  (addr (view s) l (Some bn) = 0 → freeblock s < FSSIZE) →
  ∃ s', fill_entry h (l !!! 12%nat) bn l s = Ret (addr (view s') l (Some bn), l) s' ∧ reserved (Some bn) size s l s' l.
Proof using Hseek Hwrite.
  intros Hb Hf Hp Hbn H12 Hroom. set (ib := l !!! 12%nat) in *. pose proof (bt_free _ Hb) as Hfb.
  pose proof (file_range s l size None Hb Hf Hp I H12) as Hib. cbn [addr] in Hib. fold ib in Hib. change nmeta with 46 in *. unfold FSSIZE in *.
  assert (addr (view s) l (Some bn) = get32 (sector s ib) (Z.to_nat (4 * (bn - NDIRECT)))) as Ea.
  { cbn [addr]. rewrite (proj2 (Z.ltb_ge _ _)) by lia. fold ib. rewrite (proj2 (Z.eqb_neq _ _) H12), view_ne by lia. done. }
  assert (valid (Some bn)) as Hv by (cbn; unfold NDIRECT in *; lia).
  unfold fill_entry. rewrite (bind_Ret _ _ _ _ _ (rsect_eq s ib Hb ltac:(unfold FSSIZE; lia))), <- Ea.
  destruct (Z.eqb_spec (addr (view s) l (Some bn)) 0) as [E0|Hne].
  2:{ exists s. pose proof (file_range s l size (Some bn) Hb Hf Hp Hv Hne). change nmeta with 46 in *. rewrite xint_small by lia.
      split; [done|]. by apply reserved_refl. }
  specialize (Hroom E0). rewrite (bind_Ret _ _ _ _ _ (next_block_eq s Hb Hroom)), (xint_small (freeblock s)) by lia.
  destruct (view_alloc s Hb Hroom) as [Hb1 Ev1]. set (s1 := set_freeblock (freeblock s + 1) s) in *.
  set (d := put32 (sector s ib) (Z.to_nat (4 * (bn - NDIRECT))) (freeblock s)).
  assert (length d = Z.to_nat BSIZE) as Hd by (unfold d, put32; rewrite length_le_put; apply Hb).
  run (wsect_eq s1 ib d Hb1 ltac:(unfold FSSIZE; lia)).
  destruct (view_write s1 ib d Hb1) as [Hb2 Ev2]; [cbn; lia|lia|done|].
  assert (bit_of new_sb (view s) (freeblock s) = false) as Hfree by (rewrite view_bit by lia; apply Z.ltb_irrefl).
  assert (0 ≤ freeblock s < sb_size new_sb) as Hc by (change (sb_size new_sb) with 1000; lia).
  pose proof (built_fs s Hb) as Hfs.
  assert (view (put_sector ib d s1) = t_data (entry_txn new_sb (vt (view s)) l (freeblock s) bn)) as Ev.
  { rewrite Ev2, Ev1. unfold entry_txn. fold ib. unfold t_write. cbn [t_data vt]. f_equal. unfold d. f_equal.
    rewrite <- Ev1. symmetry. apply (view_ne s1). lia. }
  destruct (entry_grow new_sb (vt (view s)) l size (freeblock s) Hfs Hf Hc Hfree bn Hbn H12 E0) as (G1 & G2 & G3 & G4).
  exists (put_sector ib d s1). rewrite Ev, G4. split.
  - unfold ret. do 2 f_equal. unfold d, get32, put32. rewrite le_get_put by (rewrite (bt_sect _ Hb); by apply entry_off).
    rewrite Z.mod_small by (cbn; lia). apply xint_small. lia.
  - split; try done; rewrite ?Ev; try done.
    + intros y Hy. rewrite (addr_entry new_sb (vt (view s)) l size (freeblock s) Hfs Hf Hc Hfree bn Hbn H12 E0 y Hy), E0. done.
    + rewrite E0. done.
Qed.

(** ** Appending to a file *)

(** The blocks of a file hold [c], and zeros after it. *)
Record holds (s : builder) (l c : list Z) : Prop := {
  hd_file : file_ok new_sb (view s) l (Z.of_nat (length c));
  hd_exact : blocks_exact (view s) l (Z.of_nat (length c));
  hd_placed : placed (view s) l;
  hd_bytes : ∀ k, 0 ≤ k < MAXFILE * BSIZE → fbyte (view s) l k = nth (Z.to_nat k) c 0
}.

(** Nothing else that is in use has changed. *)
Record keeps (s : builder) (l : list Z) (s' : builder) (l' : list Z) : Prop := {
  kp_other : ∀ b, other new_sb (view s) l b → view s' b = view s b ∧ other new_sb (view s') l' b;
  kp_inodes : ∀ j, 0 ≤ j < NINODES → view s' (IBLOCK j new_sb) = view s (IBLOCK j new_sb);
  kp_next : freeinode s' = freeinode s
}.

Lemma keeps_refl s l : keeps s l s l.
Proof. by split. Qed.

Lemma keeps_trans s1 l1 s2 l2 s3 l3 : keeps s1 l1 s2 l2 → keeps s2 l2 s3 l3 → keeps s1 l1 s3 l3.
Proof.
  intros [A1 A2 A3] [B1 B2 B3]. split; [|intros j Hj; by rewrite B2, A2|congruence].
  intros b Hb. destruct (A1 b Hb) as [E1 H1]. destruct (B1 b H1) as [E2 H2]. split; [congruence|done].
Qed.

Lemma reserved_keeps x size s l s' l' : reserved x size s l s' l' → keeps s l s' l'.
Proof. intros R. destruct (rv_grown _ _ _ _ _ _ R) as [G1 G2 G3 G4]. split; [done|done|by apply R]. Qed.

(** The block for the next byte of a file. *)
Record next_ready (s : builder) (l c : list Z) (a : Z) (s' : builder) (l' : list Z) : Prop := {
  nr_built : built s';
  nr_file : file_ok new_sb (view s') l' (Z.of_nat (length c));
  nr_placed : placed (view s') l';
  nr_bytes : ∀ k, 0 ≤ k < MAXFILE * BSIZE → fbyte (view s') l' k = fbyte (view s) l k;
  nr_keeps : keeps s l s' l';
  nr_addr : addr (view s') l' (Some (Z.of_nat (length c) / BSIZE)) = a;
  nr_free : freeblock s' = freeblock s + cost (Z.of_nat (length c) + 1) - cost (Z.of_nat (length c));
  nr_exact : blocks_exact (view s') l' (Z.of_nat (length c) + 1)
}.

Lemma cost_next off :
  0 ≤ off →
  cost (off + 1) - cost off = (if off `mod` BSIZE =? 0 then 1 else 0) + (if off =? NDIRECT * BSIZE then 1 else 0).
Proof.
  intros Ho. unfold cost, BSIZE, NDIRECT. destruct (Z.eqb_spec (off `mod` 1024) 0), (Z.eqb_spec off (12 * 1024)),
    (Z.ltb_spec (12 * 1024) off), (Z.ltb_spec (12 * 1024) (off + 1)); Z.to_euclidean_division_equations; lia.
Qed.

Lemma exact_next D l D' l' off :
  0 ≤ off → blocks_exact D l off →
  (∀ y, valid y → addr D' l' y ≠ 0 ↔ addr D l y ≠ 0 ∨ y = Some (off / BSIZE) ∨ (y = None ∧ NDIRECT ≤ off / BSIZE)) →
  blocks_exact D' l' (off + 1).
Proof.
  intros Ho [Hx Hi] Ha. change (l !!! 12%nat) with (addr D l None) in Hi. split.
  - intros bn Hbn. rewrite Ha, Hx by done.
    assert (Some bn = Some (off / BSIZE) ↔ bn = off / BSIZE) as -> by (split; [by intros [=]|by intros ->]).
    unfold BSIZE in *. split; [|intros H; destruct (decide (bn * 1024 < off)); [by left|right; left]; Z.to_euclidean_division_equations; lia].
    intros [H|[->|[H _]]]; [lia| |done]. Z.to_euclidean_division_equations; lia.
  - change (l' !!! 12%nat) with (addr D' l' None). rewrite Ha, Hi by done. unfold BSIZE, NDIRECT in *.
    split; [intros [H|[H|[_ H]]]; [lia|done|]; Z.to_euclidean_division_equations; lia|].
    intros H. right. right. split; [done|]. Z.to_euclidean_division_equations; lia.
Qed.

Lemma data_zero s l c :
  holds s l c → Z.of_nat (length c) < MAXFILE * BSIZE →
  let off := Z.of_nat (length c) in
  valid (Some (off / BSIZE)) ∧ (addr (view s) l (Some (off / BSIZE)) = 0 ↔ off `mod` BSIZE = 0) ∧
  (l !!! 12%nat = 0 → NDIRECT ≤ off / BSIZE → off = NDIRECT * BSIZE) ∧ (off = NDIRECT * BSIZE → l !!! 12%nat = 0).
Proof.
  intros [Hf [Hx Hi] Hp Hc] Hlt off. assert (valid (Some (off / BSIZE))) as Hv by (apply div_file; lia). split; [done|].
  specialize (Hx _ Hv). fold off in Hx, Hi. unfold BSIZE, NDIRECT in *. split_and!.
  - destruct (decide (addr (view s) l (Some (off / 1024)) = 0)); Z.to_euclidean_division_equations; lia.
  - intros H H2. destruct (decide (12 * 1024 < off)); [lia|]. Z.to_euclidean_division_equations; lia.
  - lia.
Qed.

(** A direct block is found or taken. *)
Lemma next_direct s l c :
  let off := Z.of_nat (length c) in
  built s → holds s l c → off / BSIZE < NDIRECT → freeblock s + cost (off + 1) - cost off ≤ FSSIZE →
  ∃ a s' l', append_block h (off / BSIZE) l s = Ret (a, l') s' ∧ next_ready s l c a s' l'.
Proof.
  intros off Hb Hh Hlt Hroom. pose proof Hh as [Hf Hx Hp Hc]. set (bn := off / BSIZE) in *.
  assert (off < NDIRECT * BSIZE) as Hoff by (unfold bn, NDIRECT, BSIZE in *; Z.to_euclidean_division_equations; lia).
  destruct (data_zero s l c Hh) as (Hv & Hz & _ & _); [change MAXFILE with 268; unfold NDIRECT, BSIZE in *; lia|]. fold off bn in Hv, Hz.
  pose proof (cost_next off ltac:(lia)) as Hcost. rewrite (proj2 (Z.eqb_neq off _)) in Hcost by lia.
  destruct (fill_addr_ok s l (Z.of_nat (length c)) (Some bn) Hb Hf Hp Hv Hlt) as (s' & l' & E & R).
  { intros H0. apply Hz, Z.eqb_eq in H0. rewrite H0 in Hcost. lia. }
  pose proof (rv_addr _ _ _ _ _ _ R) as Ha. pose proof (bt_free _ Hb) as Hfb. change nmeta with 46 in Hfb.
  exists (addr (view s') l' (Some bn)), s', l'. unfold append_block. rewrite (proj2 (Z.ltb_lt _ _) Hlt).
  change (Z.to_nat bn) with (slot_index (Some bn)). run E. split.
  { unfold ret. do 2 f_equal. cbn [addr slot_index]. rewrite (proj2 (Z.ltb_lt _ _) Hlt). apply xint_small.
    pose proof (addr_range _ l' _ (Some bn) (rv_file _ _ _ _ _ _ R) Hv) as Hr. cbn [addr] in Hr.
    rewrite (proj2 (Z.ltb_lt _ _) Hlt) in Hr. lia. }
  split; [apply R|apply R|by eapply reserved_placed|apply R|by eapply reserved_keeps|done|..].
  - rewrite (rv_free _ _ _ _ _ _ R). fold off. unfold Z.sub in *. rewrite <- Z.add_assoc, Hcost, Z.add_0_r. f_equal.
    destruct (Z.eqb_spec (addr (view s) l (Some bn)) 0) as [H|H], (Z.eqb_spec (off `mod` BSIZE) 0); tauto.
  - apply (exact_next (view s) l); [lia|done|]. fold off bn. intros y Hy. rewrite Ha by done. case_decide as Ey.
    + destruct (Z.eqb_spec (addr (view s) l (Some bn)) 0); split; intros _; (lia || by right; left).
    + split; [by left|]. intros [H|[H|[_ H]]]; [done|done|lia].
Qed.

(** A block behind the indirect block is found or taken. *)
Lemma next_indirect s l c :
  let off := Z.of_nat (length c) in
  built s → holds s l c → NDIRECT ≤ off / BSIZE → off < MAXFILE * BSIZE → freeblock s + cost (off + 1) - cost off ≤ FSSIZE →
  ∃ a s' l', append_block h (off / BSIZE) l s = Ret (a, l') s' ∧ next_ready s l c a s' l'.
Proof using Hseek Hwrite.
  intros off Hb Hh Hge Hmax Hroom. pose proof Hh as [Hf Hx Hp Hc]. set (bn := off / BSIZE) in *.
  destruct (data_zero s l c Hh Hmax) as (Hv & Hz & Hi1 & Hi2). fold off bn in Hv, Hz, Hi1, Hi2.
  pose proof (cost_next off ltac:(lia)) as Hcost. pose proof (bt_free _ Hb) as Hfb. change nmeta with 46 in Hfb.
  destruct (fill_addr_ok s l (Z.of_nat (length c)) None Hb Hf Hp I I) as (s1 & l1 & E1 & R1).
  { cbn [addr]. intros H0. specialize (Hi1 H0 Hge). apply Z.eqb_eq in Hi1. rewrite Hi1 in Hcost. destruct (_ =? 0) in Hcost; lia. }
  pose proof (rv_addr _ _ _ _ _ _ R1) as Ha1. pose proof (rv_free _ _ _ _ _ _ R1) as Hf1. cbn [addr] in Hf1.
  assert (l1 !!! 12%nat ≠ 0) as H12.
  { change (l1 !!! 12%nat) with (addr (view s1) l1 None). rewrite Ha1 by done. rewrite decide_True by done.
    destruct (Z.eqb_spec (addr (view s) l None) 0); lia. }
  assert (addr (view s1) l1 (Some bn) = addr (view s) l (Some bn)) as Eb by (rewrite Ha1 by done; by rewrite decide_False).
  assert ((l !!! 12%nat =? 0) = (off =? NDIRECT * BSIZE)) as E12.
  { destruct (Z.eqb_spec (l !!! 12%nat) 0), (Z.eqb_spec off (NDIRECT * BSIZE)); tauto. }
  assert ((addr (view s) l (Some bn) =? 0) = (off `mod` BSIZE =? 0)) as Em.
  { destruct (Z.eqb_spec (addr (view s) l (Some bn)) 0), (Z.eqb_spec (off `mod` BSIZE) 0); tauto. }
  pose proof (reserved_placed _ _ _ _ _ _ Hb Hp R1) as Hp1. rewrite E12 in Hf1.
  destruct (fill_entry_ok s1 l1 (Z.of_nat (length c)) bn (rv_built _ _ _ _ _ _ R1) (rv_file _ _ _ _ _ _ R1) Hp1) as (s2 & E2 & R2);
    [split; [done|apply Hv]|done|..].
  { rewrite Eb. intros H0. apply Z.eqb_eq in H0. rewrite Em in H0. rewrite H0 in Hcost. lia. }
  pose proof (rv_addr _ _ _ _ _ _ R2) as Ha2. pose proof (rv_free _ _ _ _ _ _ R2) as Hf2. rewrite Eb, Em in Hf2.
  exists (addr (view s2) l1 (Some bn)), s2, l1. unfold append_block. rewrite (proj2 (Z.ltb_ge _ _) Hge).
  change (Z.to_nat NDIRECT) with (slot_index None). run E1.
  pose proof (addr_range _ l1 _ None (rv_file _ _ _ _ _ _ R1) I) as Hr. cbn [addr] in Hr. cbn [slot_index]. rewrite xint_small by lia.
  split; [done|]. split; [apply R2|apply R2|eapply reserved_placed; [apply R1|done|done]|..|done|fold off; lia|].
  - intros k Hk. rewrite (gr_bytes _ _ _ _ _ (rv_grown _ _ _ _ _ _ R2)) by done. by apply R1.
  - eapply keeps_trans; by eapply reserved_keeps.
  - apply (exact_next (view s) l); [lia|done|]. fold off bn. intros y Hy. rewrite Ha2 by done. case_decide as Ey.
    + subst y. pose proof (rv_built _ _ _ _ _ _ R1) as Hb1. pose proof (bt_free _ Hb1) as Hfb1. change nmeta with 46 in Hfb1.
      split; [by right; left|]. intros _. destruct (Z.eqb_spec (addr (view s1) l1 (Some bn)) 0); lia.
    + rewrite Ha1 by done. case_decide as En; [subst y|split; [by left|]; intros [H|[H|[H _]]]; done].
      split; [by right; right|]. intros _. destruct (Z.eqb_spec (addr (view s) l None) 0); lia.
Qed.

Lemma next_block_ready s l c :
  let off := Z.of_nat (length c) in
  built s → holds s l c → off < MAXFILE * BSIZE → freeblock s + cost (off + 1) - cost off ≤ FSSIZE →
  ∃ a s' l', append_block h (off / BSIZE) l s = Ret (a, l') s' ∧ next_ready s l c a s' l'.
Proof using Hseek Hwrite.
  intros off Hb Hh Hmax Hroom. destruct (decide (off / BSIZE < NDIRECT)); [by apply next_direct|].
  apply next_indirect; try done. by apply Z.nlt_ge.
Qed.

(** The bytes that fit in the block, [m] of them. *)
Lemma cost_block off m : 0 ≤ off → 1 ≤ m ≤ BSIZE - off `mod` BSIZE → cost (off + m) = cost (off + 1).
Proof.
  intros Ho Hm. unfold cost, BSIZE, NDIRECT in *.
  destruct (Z.ltb_spec (12 * 1024) (off + m)), (Z.ltb_spec (12 * 1024) (off + 1)); Z.to_euclidean_division_equations; lia.
Qed.

Lemma exact_block D l off m : 0 ≤ off → 1 ≤ m ≤ BSIZE - off `mod` BSIZE → blocks_exact D l (off + 1) → blocks_exact D l (off + m).
Proof.
  intros Ho Hm [Hx Hi]. split; [intros bn Hbn; rewrite Hx by done|rewrite Hi]; unfold BSIZE, NDIRECT in *;
    split; Z.to_euclidean_division_equations; lia.
Qed.

Lemma append_nth (c p : list Z) m k :
  0 ≤ k → 0 ≤ m ≤ Z.of_nat (length p) →
  nth (Z.to_nat k) (c ++ take (Z.to_nat m) p) 0 =
  if decide (Z.of_nat (length c) ≤ k < Z.of_nat (length c) + m) then p !!! Z.to_nat (k - Z.of_nat (length c)) else nth (Z.to_nat k) c 0.
Proof.
  intros Hk Hm. case_decide as Hd.
  - rewrite app_nth2 by lia. rewrite nth_lookup, lookup_take_lt, list_lookup_total_alt by lia.
    replace (Z.to_nat (k - Z.of_nat (length c))) with (Z.to_nat k - length c)%nat by lia.
    destruct (lookup_lt_is_Some_2 p (Z.to_nat k - length c)) as [x Hx]; [lia|]. by rewrite Hx.
  - destruct (decide (k < Z.of_nat (length c))); [by rewrite app_nth1 by lia|].
    rewrite !nth_overflow; [done|lia|]. rewrite length_app, length_take. lia.
Qed.

(** The bytes are written into it. *)
Lemma write_next s l c a s1 l1 p m :
  let off := Z.of_nat (length c) in
  next_ready s l c a s1 l1 → holds s l c → off + m ≤ MAXFILE * BSIZE → 1 ≤ m ≤ BSIZE - off `mod` BSIZE → m ≤ Z.of_nat (length p) →
  let d := put_bytes (sector s1 a) (Z.to_nat (off `mod` BSIZE)) (take (Z.to_nat m) p) in
  nmeta ≤ a < FSSIZE ∧ built (put_sector a d s1) ∧ holds (put_sector a d s1) l1 (c ++ take (Z.to_nat m) p) ∧ keeps s l (put_sector a d s1) l1.
Proof.
  intros off [Nb Nf Np Ny Nk Na Nfr Nx] Hh Hmax Hm Hp d. pose proof (bt_free _ Nb) as Hfb. fold off in Na, Nx.
  assert (0 ≤ off / BSIZE < MAXFILE) as Hv by (apply div_file; lia).
  assert (a ≠ 0) as Ha0. { rewrite <- Na. apply (ex_data _ _ _ Nx _ Hv). unfold BSIZE. Z.to_euclidean_division_equations; lia. }
  assert (nmeta ≤ a < freeblock s1) as Har. { rewrite <- Na. eapply file_range; try done. by rewrite Na. }
  change nmeta with 46 in *. assert (length d = Z.to_nat BSIZE) as Hd by (unfold d; rewrite length_put_bytes; apply Nb).
  destruct (view_write s1 a d Nb) as [Hb' Ev]; [lia|lia|done|]. pose proof (built_fs s1 Nb) as Hfs.
  pose proof (write_addr new_sb (vt (view s1)) l1 _ (off / BSIZE) d a Hfs Nf Hv Na Ha0 Hd) as Wa.
  assert (Z.of_nat (length (c ++ take (Z.to_nat m) p)) = off + m) as El by (rewrite length_app, length_take; lia).
  split; [lia|]. split; [done|]. split; [split; rewrite ?El, Ev|].
  - destruct (write_file new_sb (vt (view s1)) l1 _ (off / BSIZE) d a Hfs Nf Hv Na Ha0 Hd) as [F1 F2 F3 F4 F5].
    split; try done; [lia|]. intros bn H0 Hs. assert (0 ≤ bn < MAXFILE) as Hbn by (unfold BSIZE in *; lia).
    rewrite (Wa (Some bn)) by done. by apply (ex_data _ _ _ (exact_block _ _ off m ltac:(lia) Hm Nx)).
  - destruct (exact_block _ _ off m ltac:(lia) Hm Nx) as [Hx Hi]. split; [|done]. intros bn Hbn. rewrite (Wa (Some bn)) by done. by apply Hx.
  - intros x Hx. rewrite (Wa x) by done. by apply Np.
  - intros k Hk. rewrite (write_bytes new_sb (vt (view s1)) l1 _ (off / BSIZE) d a Hfs Nf Hv Na Ha0 Hd k Hk). cbn [t_data vt].
    rewrite Ny, (hd_bytes _ _ _ Hh) by done. destruct (decide (k / BSIZE = off / BSIZE)) as [Ek|Ek].
    + unfold d. pose proof (put_bytes_file (sector s1 a) p off 0 m k (bt_sect _ Nb a) ltac:(lia)) as Hput.
      rewrite drop_0, !Z.add_0_r in Hput. rewrite Hput; [|lia|lia|done]. rewrite append_nth by lia. fold off. case_decide; [done|].
      rewrite <- (hd_bytes _ _ _ Hh), <- Ny by done. unfold fbyte. rewrite Ek, Na, (proj2 (Z.eqb_neq _ _) Ha0), view_ne by lia. done.
    + rewrite append_nth by lia. rewrite decide_False; [done|]. intros Hk2. apply Ek. fold off in Hk2. unfold BSIZE in *.
      Z.to_euclidean_division_equations; lia.
  - eapply keeps_trans; [exact Nk|]. split; [|intros j Hj|done]; rewrite Ev.
    + by apply (write_other new_sb (vt (view s1)) l1 _ (off / BSIZE) d a Hfs Nf Hv Na Ha0 Hd).
    + by apply (write_inodes new_sb (vt (view s1)) l1 _ (off / BSIZE) d a Hfs Nf Hv Na Ha0 Hd).
Qed.

(** One turn of the loop, and the whole loop. *)
Record appended (s : builder) (l c p : list Z) (s' : builder) (l' : list Z) : Prop := {
  ap_built : built s';
  ap_holds : holds s' l' (c ++ p);
  ap_keeps : keeps s l s' l';
  ap_free : freeblock s' = freeblock s + cost (Z.of_nat (length (c ++ p))) - cost (Z.of_nat (length c))
}.

Lemma iappend_turn s l c p :
  let off := Z.of_nat (length c) in
  let m := Z.min (Z.of_nat (length p)) (BSIZE - off `mod` BSIZE) in
  built s → holds s l c → p ≠ [] → off + Z.of_nat (length p) ≤ MAXFILE * BSIZE →
  freeblock s + cost (off + m) - cost off ≤ FSSIZE →
  ∃ s' l', iappend_step h (l, off, p) s = Ret (inl (l', off + m, drop (Z.to_nat m) p)) s' ∧
    appended s l c (take (Z.to_nat m) p) s' l'.
Proof using Hseek Hwrite.
  intros off m Hb Hh Hp Hmax Hroom. assert (0 < Z.of_nat (length p)) as Hlen by (destruct p; [done|cbn; lia]).
  assert (0 ≤ off `mod` BSIZE < BSIZE) as Hmod by (apply Z.mod_pos_bound; unfold BSIZE; lia).
  assert (1 ≤ m ≤ BSIZE - off `mod` BSIZE) as Hm by lia. rewrite (cost_block off m) in Hroom by lia.
  destruct (next_block_ready s l c Hb Hh) as (a & s1 & l1 & E1 & N); [lia|done|].
  destruct (write_next s l c a s1 l1 p m N Hh) as (Ha & Hb' & Hh' & Hk); [lia|done|lia|].
  fold off in Hb', Hh', Hk. set (d := put_bytes _ _ _) in Hb', Hh', Hk.
  assert (off / BSIZE < MAXFILE) as Hbn by (apply div_file; lia). change (MAXFILE * BSIZE) with 274432 in *. change nmeta with 46 in Ha.
  exists (put_sector a d s1), l1. split.
  - unfold iappend_step. cbv zeta beta iota. rewrite (proj2 (Z.ltb_lt _ _) Hlen), (proj2 (Z.ltb_lt _ _) Hbn).
    cbn [assert]. rewrite (bind_Ret _ _ s tt s) by done. fold off in E1. run E1.
    assert (u32 ((off / BSIZE + 1) * BSIZE - off) = BSIZE - off `mod` BSIZE) as ->.
    { pose proof (Z.div_mod off BSIZE ltac:(unfold BSIZE; lia)). rewrite u32_small; unfold BSIZE in *; lia. }
    fold m. run (rsect_eq s1 a (nr_built _ _ _ _ _ _ N) ltac:(lia)).
    assert (off - off / BSIZE * BSIZE = off `mod` BSIZE) as ->.
    { pose proof (Z.div_mod off BSIZE ltac:(unfold BSIZE; lia)). lia. }
    fold d. run (wsect_eq s1 a d (nr_built _ _ _ _ _ _ N) ltac:(lia)).
    rewrite u32_small by lia. done.
  - split; try done. cbn [freeblock put_sector set_sectors]. rewrite (nr_free _ _ _ _ _ _ N), length_app, length_take.
    fold off. rewrite <- (cost_block off m) by lia. do 3 f_equal. lia.
Qed.

Lemma cost_mono a b : 0 ≤ a ≤ b → cost a ≤ cost b.
Proof.
  intros H. unfold cost. assert ((a + 1023) / 1024 ≤ (b + 1023) / 1024) by (apply Z.div_le_mono; lia).
  destruct (Z.ltb_spec (NDIRECT * BSIZE) a), (Z.ltb_spec (NDIRECT * BSIZE) b); lia.
Qed.

Lemma appended_nil s l c : built s → holds s l c → appended s l c [] s l.
Proof. intros Hb Hh. split; rewrite ?app_nil_r; [done|done|apply keeps_refl|lia]. Qed.

Lemma iappend_loop n s l c p :
  (length p ≤ n)%nat → built s → holds s l c → Z.of_nat (length (c ++ p)) ≤ MAXFILE * BSIZE →
  freeblock s + cost (Z.of_nat (length (c ++ p))) - cost (Z.of_nat (length c)) ≤ FSSIZE →
  ∃ k s' l', (k ≤ S (length p))%nat ∧
    run_n k (iappend_step h) (l, Z.of_nat (length c), p) s = Ret (inr (l', Z.of_nat (length (c ++ p)))) s' ∧ appended s l c p s' l'.
Proof using Hseek Hwrite.
  revert s l c p. induction n as [|n IH]; intros s l c p Hn Hb Hh Hmax Hroom.
  all: destruct p as [|x p']; [exists 1%nat, s, l; rewrite app_nil_r; split; [cbn; lia|]; split; [done|]; by apply appended_nil|].
  { cbn in Hn. lia. }
  set (p := x :: p') in *. assert (0 < Z.of_nat (length p)) as Hlen by (unfold p; cbn; lia). set (off := Z.of_nat (length c)) in *.
  set (m := Z.min (Z.of_nat (length p)) (BSIZE - off `mod` BSIZE)).
  assert (0 ≤ off `mod` BSIZE < BSIZE) as Hmod by (apply Z.mod_pos_bound; unfold BSIZE; lia).
  assert (Z.of_nat (length (c ++ p)) = off + Z.of_nat (length p)) as El by (rewrite length_app; lia). rewrite El in Hmax, Hroom.
  assert (cost (off + m) ≤ cost (off + Z.of_nat (length p))) as Hcm by (apply cost_mono; lia).
  destruct (iappend_turn s l c p Hb Hh) as (s1 & l1 & E1 & A1); [done|lia|fold off m; lia|]. fold off m in E1, A1.
  assert (Z.of_nat (length (c ++ take (Z.to_nat m) p)) = off + m) as El1 by (rewrite length_app, length_take; lia).
  assert ((c ++ take (Z.to_nat m) p) ++ drop (Z.to_nat m) p = c ++ p) as Ec by (rewrite <- app_assoc, take_drop; done).
  destruct A1 as [P1 P2 P3 P4]. rewrite El1 in P4. fold off in P4.
  destruct (IH s1 l1 (c ++ take (Z.to_nat m) p) (drop (Z.to_nat m) p)) as (k & s2 & l2 & Hk & E2 & [Q1 Q2 Q3 Q4]);
    [rewrite length_drop; lia|done|done|rewrite Ec, El; lia|rewrite Ec, El, El1, P4; lia|].
  rewrite Ec in *. exists (S k), s2, l2. split; [rewrite length_drop in Hk; lia|]. split.
  - rewrite (run_n_next _ _ _ _ _ _ E1). by rewrite <- El1.
  - split; [done|done|by eapply keeps_trans|]. rewrite Q4, P4, El1. fold off. lia.
Qed.

(** ** Files beside each other *)

(** What does not touch a file's blocks keeps the file. *)
Lemma holds_same s s' m c :
  holds s m c →
  (∀ x, valid x → addr (view s) m x ≠ 0 →
    view s' (addr (view s) m x) = view s (addr (view s) m x) ∧ bit_of new_sb (view s') (addr (view s) m x) = true) →
  holds s' m c ∧ ∀ x, valid x → addr (view s') m x = addr (view s) m x.
Proof.
  intros [[F1 F2 F3 F4 F5] [Hx Hi] Hp Hc] Hs.
  assert (∀ x, valid x → addr (view s') m x = addr (view s) m x) as Ha.
  { intros [bn|] Hv; [|done]. cbn [addr]. destruct (bn <? NDIRECT); [done|]. destruct (Z.eqb_spec (m !!! 12%nat) 0) as [|H]; [done|].
    destruct (Hs None I H) as [E _]. cbn [addr] in E. by rewrite E. }
  split; [|done]. split; [split|split| |]; try done.
  - intros x Hv. rewrite Ha by done. intros Hne. destruct (F2 x Hv Hne) as (R1 & _ & R3). split; [done|]. split; [|done]. by apply Hs.
  - intros x y Hv Hw. rewrite !Ha by done. by apply F3.
  - intros bn H0 Hsz. rewrite Ha by (cbn; unfold BSIZE in *; lia). by apply F5.
  - intros bn Hbn. rewrite Ha by done. by apply Hx.
  - intros x Hv. rewrite Ha by done. by apply Hp.
  - intros k Hk. rewrite <- Hc by done. unfold fbyte. rewrite Ha by by apply div_file.
    destruct (Z.eqb_spec (addr (view s) m (Some (k / BSIZE))) 0) as [|H]; [done|].
    by rewrite (proj1 (Hs (Some (k / BSIZE)) (div_file k Hk) H)).
Qed.

(** Two files have no block in common. *)
Definition apart (D : Z → list Z) (l m : list Z) : Prop :=
  ∀ x y, valid x → valid y → addr D l x = addr D m y → addr D l x = 0.

Lemma apart_sym D l m : apart D l m → apart D m l.
Proof. intros H x y Hx Hy E. rewrite E. by apply (H y x). Qed.

Lemma apart_other s l m c x :
  holds s m c → apart (view s) l m → valid x → addr (view s) m x ≠ 0 → other new_sb (view s) l (addr (view s) m x).
Proof.
  intros Hh Ha Hx Hne. destruct (fl_range _ _ _ _ (hd_file _ _ _ Hh) x Hx Hne) as (R1 & R2 & R3).
  split; [change (sb_size new_sb) with 1000 in *; lia|]. split; [done|]. split; [done|]. intros y Hy E. apply Hne.
  rewrite <- E. by apply (Ha y x).
Qed.

Lemma apart_same D D' l m :
  (∀ x, valid x → addr D' l x = addr D l x) → (∀ x, valid x → addr D' m x = addr D m x) → apart D l m → apart D' l m.
Proof. intros Hl Hm Ha x y Hx Hy. rewrite Hl, Hm by done. by apply Ha. Qed.

(** Another file stays, and stays apart, when a file grows. *)
Lemma holds_beside s l s' l' m c :
  keeps s l s' l' → holds s m c → apart (view s) l m →
  holds s' m c ∧ (∀ x, valid x → addr (view s') m x = addr (view s) m x) ∧ apart (view s') l' m.
Proof.
  intros K Hh Ha. destruct (holds_same s s' m c Hh) as [Hh' Hm].
  { intros x Hx Hne. destruct (kp_other _ _ _ _ K _ (apart_other s l m c x Hh Ha Hx Hne)) as (E & _ & B & _). done. }
  split; [done|]. split; [done|]. intros x y Hx Hy E. rewrite E, Hm by done. destruct (decide (addr (view s) m y = 0)) as [|Hne]; [done|].
  destruct (kp_other _ _ _ _ K _ (apart_other s l m c y Hh Ha Hy Hne)) as (_ & _ & _ & _ & Ho). exfalso.
  apply (Ho x Hx). by rewrite E, Hm.
Qed.

(** ** Inodes *)

Definition dinode_at (s : builder) (j : Z) : dinode := get_dinode (view s (IBLOCK j new_sb)) (dinode_off j).

Lemma view_iblock s j : 0 ≤ j < NINODES → view s (IBLOCK j new_sb) = sector s (IBLOCK j new_sb).
Proof. intros Hj. apply view_ne. pose proof (iblock_eq j Hj). lia. Qed.

Lemma rinode_eq s inum : built s → 0 ≤ inum < NINODES → rinode h inum s = Ret (dinode_at s inum) s.
Proof using Hseek.
  intros Hb Hi. unfold rinode. rewrite (bind_Ret _ _ s (msb s) s), (bt_sb _ Hb) by done. pose proof (iblock_eq inum Hi).
  run (rsect_eq s (IBLOCK inum new_sb) Hb ltac:(unfold FSSIZE; lia)).
  unfold dinode_at. by rewrite view_iblock.
Qed.

Definition put_inode (inum : Z) (d : dinode) (s : builder) : builder :=
  put_sector (IBLOCK inum new_sb) (put_dinode (sector s (IBLOCK inum new_sb)) (dinode_off inum) d) s.

Lemma winode_eq s inum d : built s → 0 ≤ inum < NINODES → winode h inum d s = Ret tt (put_inode inum d s).
Proof using Hseek Hwrite.
  intros Hb Hi. unfold winode. rewrite (bind_Ret _ _ s (msb s) s), (bt_sb _ Hb) by done. pose proof (iblock_eq inum Hi).
  run (rsect_eq s (IBLOCK inum new_sb) Hb ltac:(unfold FSSIZE; lia)).
  by apply wsect_eq; [|unfold FSSIZE; lia].
Qed.

Lemma put_inode_ok s inum d :
  built s → 0 ≤ inum < NINODES → dinode_ok d →
  built (put_inode inum d s) ∧
  (∀ j, 0 ≤ j < NINODES → dinode_at (put_inode inum d s) j = if decide (j = inum) then d else dinode_at s j) ∧
  (∀ m c, holds s m c → holds (put_inode inum d s) m c ∧ ∀ x, valid x → addr (view (put_inode inum d s)) m x = addr (view s) m x).
Proof.
  intros Hb Hi Hd. pose proof (iblock_eq inum Hi) as [_ Hib]. pose proof (bt_free _ Hb) as Hfb. change nmeta with 46 in Hfb.
  set (d' := put_dinode (sector s (IBLOCK inum new_sb)) (dinode_off inum) d).
  assert (length d' = Z.to_nat BSIZE) as Hl by (unfold d'; rewrite length_put_dinode; apply Hb).
  destruct (view_write s (IBLOCK inum new_sb) d' Hb) as [Hb' Ev]; [lia|lia|done|]. split; [done|].
  assert (∀ b, b ≠ IBLOCK inum new_sb → view (put_inode inum d s) b = view s b) as Hne.
  { intros b Hbn. unfold put_inode. fold d'. rewrite Ev. cbn [t_data t_write vt]. by apply set_at_ne. }
  split.
  - intros j Hj. unfold dinode_at. destruct (decide (IBLOCK j new_sb = IBLOCK inum new_sb)) as [E|E].
    2:{ rewrite Hne by done. rewrite decide_False; [done|congruence]. }
    unfold put_inode at 1. fold d'. rewrite Ev, E. cbn [t_data t_write vt]. rewrite set_at_eq. unfold d'. case_decide as Ej.
    + subst j. apply get_put_dinode; [|done]. rewrite (bt_sect _ Hb). apply dinode_fits.
    + rewrite view_iblock by done. apply get_dinode_ext. intros i Hr. apply put_dinode_lookup.
      destruct (dinode_apart new_sb (view s) inum j (built_fs s Hb) Hi Hj) as [H|H]; [done|done|lia|lia].
  - intros m c Hh. apply holds_same; [done|]. intros x Hx Hx0.
    pose proof (file_range s m _ x Hb (hd_file _ _ _ Hh) (hd_placed _ _ _ Hh) Hx Hx0) as Hr. change nmeta with 46 in Hr.
    rewrite Hne by lia. split; [done|]. unfold FSSIZE in Hfb.
    rewrite view_bit by (cbn; lia). apply Z.ltb_lt. apply Hr.
Qed.

(** ** The image, inode by inode *)

(** An inode in use: its type, the bytes of its file, and its addresses. *)
Record node : Type := mk_node { n_type : Z; n_data : list Z; n_addrs : list Z }.

Definition node_dinode (n : node) : dinode :=
  mk_dinode (n_type n) 0 0 1 (Z.of_nat (length (n_data n))) (n_addrs n).

Definition used (ds : list (list Z)) : Z := foldr (λ d, Z.add (cost (Z.of_nat (length d)))) 0 ds.

Record image (s : builder) (ns : list node) : Prop := {
  im_built : built s;
  im_next : freeinode s = 1 + Z.of_nat (length ns);
  im_room : Z.of_nat (length ns) < NINODES;
  im_node : ∀ i n, ns !! i = Some n → dinode_at s (1 + Z.of_nat i) = node_dinode n ∧ holds s (n_addrs n) (n_data n) ∧ 0 ≤ n_type n < 2 ^ 15;
  im_apart : ∀ i j n m, i ≠ j → ns !! i = Some n → ns !! j = Some m → apart (view s) (n_addrs n) (n_addrs m);
  im_free : freeblock s = nmeta + used (n_data <$> ns);
  im_rest : ∀ j, 0 ≤ j < NINODES → j = 0 ∨ Z.of_nat (length ns) < j → di_type (dinode_at s j) = 0
}.

Lemma node_dinode_ok s n : holds s (n_addrs n) (n_data n) → 0 ≤ n_type n < 2 ^ 15 → dinode_ok (node_dinode n).
Proof.
  intros Hh Ht. pose proof (hd_file _ _ _ Hh) as Hf. pose proof (fl_size _ _ _ _ Hf) as Hs. change (MAXFILE * BSIZE) with 274432 in Hs.
  pose proof (fl_len _ _ _ _ Hf) as Hl. split; cbn; try lia. apply Forall_lookup. intros i a Hi.
  assert (0 ≤ n_addrs n !!! i < 1000) as Hr; [|by rewrite (list_lookup_total_correct _ _ _ Hi) in Hr; lia].
  pose proof (lookup_lt_Some _ _ _ Hi) as Hlt. destruct (decide (i = 12%nat)) as [->|]; [by apply (addr_range _ _ _ None Hf)|].
  pose proof (addr_range _ _ _ (Some (Z.of_nat i)) Hf) as Hr. cbn [addr] in Hr.
  rewrite (proj2 (Z.ltb_lt _ _)) in Hr by (unfold NDIRECT; lia). rewrite Nat2Z.id in Hr. apply Hr. cbn [valid]. change MAXFILE with 268. lia.
Qed.

Lemma used_cons d ds : used (d :: ds) = cost (Z.of_nat (length d)) + used ds.
Proof. done. Qed.

Lemma used_insert ns i n d :
  ns !! i = Some n → used (<[i := d]> (n_data <$> ns)) = used (n_data <$> ns) - cost (Z.of_nat (length (n_data n))) + cost (Z.of_nat (length d)).
Proof.
  revert i. induction ns as [|m ns IH]; intros [|i] Hi; try done.
  - injection Hi as ->. change (<[0%nat := d]> (n_data <$> n :: ns)) with (d :: (n_data <$> ns)). rewrite fmap_cons, !used_cons. lia.
  - change (<[S i := d]> (n_data <$> m :: ns)) with (n_data m :: <[i := d]> (n_data <$> ns)). rewrite fmap_cons, !used_cons, (IH i Hi). lia.
Qed.

(** The image after one file has grown and its inode has been written. *)
Lemma image_grown s ns i n p s1 l :
  let n' := mk_node (n_type n) (n_data n ++ p) l in
  image s ns → ns !! i = Some n → appended s (n_addrs n) (n_data n) p s1 l →
  image (put_inode (1 + Z.of_nat i) (node_dinode n') s1) (<[i := n']> ns).
Proof.
  intros n' [Hb Hnx Hrm Hnd Hap Hfr Hrs] Hi [A1 A2 A3 A4]. destruct (Hnd i n Hi) as (Ed & Hh & Ht). pose proof (lookup_lt_Some _ _ _ Hi) as Hlt.
  assert (0 ≤ 1 + Z.of_nat i < NINODES) as Hj by (unfold NINODES in *; lia).
  destruct (put_inode_ok s1 (1 + Z.of_nat i) (node_dinode n') A1 Hj (node_dinode_ok s1 n' A2 Ht)) as (P1 & P2 & P3).
  set (s2 := put_inode _ _ _) in *.
  assert (∀ j, 0 ≤ j < NINODES → j ≠ 1 + Z.of_nat i → dinode_at s2 j = dinode_at s j) as Hdi.
  { intros j Hj2 Hne. rewrite P2, decide_False by done. unfold dinode_at. by rewrite (kp_inodes _ _ _ _ A3). }
  assert (∀ j m, j ≠ i → ns !! j = Some m → holds s1 (n_addrs m) (n_data m) ∧
      (∀ x, valid x → addr (view s1) (n_addrs m) x = addr (view s) (n_addrs m) x) ∧ apart (view s1) l (n_addrs m)) as Hoth.
  { intros j m Hne Hm. apply (holds_beside s (n_addrs n)); [done|by apply (Hnd j m Hm)|by apply (Hap i j)]. }
  split; [done|by rewrite length_insert, <- Hnx; apply A3|by rewrite length_insert|..].
  - intros j m Hm. destruct (decide (j = i)) as [->|Hne].
    + rewrite list_lookup_insert_eq in Hm by done. injection Hm as <-. rewrite P2, decide_True by done. split; [done|]. split; [by apply P3|done].
    + rewrite list_lookup_insert_ne in Hm by done. destruct (Hnd j m Hm) as (Em & Hhm & Htm). pose proof (lookup_lt_Some _ _ _ Hm).
      rewrite Hdi by (unfold NINODES in *; lia). split; [done|]. split; [|done]. by apply P3, (Hoth j m).
  - assert (∀ j m, j ≠ i → ns !! j = Some m → apart (view s2) l (n_addrs m)) as Hi2.
    { intros j m Hne Hm. destruct (Hoth j m Hne Hm) as (H1 & _ & H3). by apply (apart_same (view s1)); [apply (P3 _ _ A2)|apply (P3 _ _ H1)|]. }
    intros j1 j2 n1 n2 Hne H1 H2. destruct (decide (j1 = i)) as [->|Hn1]; [|destruct (decide (j2 = i)) as [->|Hn2]].
    + rewrite list_lookup_insert_eq in H1 by done. injection H1 as <-. rewrite list_lookup_insert_ne in H2 by done. by apply (Hi2 j2).
    + rewrite list_lookup_insert_eq in H2 by done. injection H2 as <-. rewrite list_lookup_insert_ne in H1 by done. by apply apart_sym, (Hi2 j1).
    + rewrite list_lookup_insert_ne in H1, H2 by done. destruct (Hoth j1 n1 Hn1 H1) as (B1 & B2 & _). destruct (Hoth j2 n2 Hn2 H2) as (C1 & C2 & _).
      apply (apart_same (view s)); [..|by apply (Hap j1 j2)]; intros x Hx.
      * by rewrite (proj2 (P3 _ _ B1)), B2.
      * by rewrite (proj2 (P3 _ _ C1)), C2.
  - rewrite list_fmap_insert. cbn [n_data n']. rewrite (used_insert _ _ _ _ Hi). change (freeblock s2) with (freeblock s1). lia.
  - intros j Hj2 Hor. rewrite length_insert in Hor. rewrite Hdi by lia. by apply Hrs.
Qed.

(** [iappend] adds bytes to the end of one file. *)
Lemma iappend_ok s ns i n p :
  image s ns → ns !! i = Some n → Z.of_nat (length (n_data n ++ p)) ≤ MAXFILE * BSIZE →
  nmeta + used (<[i := n_data n ++ p]> (n_data <$> ns)) ≤ FSSIZE →
  ∃ s' l, iappend h (1 + Z.of_nat i) p s = Ret tt s' ∧ image s' (<[i := mk_node (n_type n) (n_data n ++ p) l]> ns).
Proof using Hseek Hwrite.
  intros Him Hi Hmax Hroom. pose proof Him as [Hb Hnx Hrm Hnd Hap Hfr Hrs]. destruct (Hnd i n Hi) as (Ed & Hh & Ht).
  pose proof (lookup_lt_Some _ _ _ Hi) as Hlt. rewrite (used_insert _ _ _ _ Hi) in Hroom.
  assert (0 ≤ 1 + Z.of_nat i < NINODES) as Hj by (unfold NINODES in *; lia).
  destruct (iappend_loop (length p) s (n_addrs n) (n_data n) p) as (k & s1 & l & Hk & E & A); [done|done|done|done|lia|].
  exists (put_inode (1 + Z.of_nat i) (node_dinode (mk_node (n_type n) (n_data n ++ p) l)) s1), l. split; [|by apply (image_grown s)]. change (MAXFILE * BSIZE) with 274432 in Hmax.
  unfold iappend. rewrite (bind_Ret _ _ _ _ _ (rinode_eq s _ Hb Hj)), Ed. cbn [node_dinode di_size di_addrs di_type di_major di_minor di_nlink].
  rewrite length_app in Hmax. rewrite xint_small by lia.
  rewrite (bind_Ret _ _ s (l, Z.of_nat (length (n_data n ++ p))) s1) by (apply (loop_Ret _ k); [lia|done]).
  rewrite xint_small by (rewrite length_app; lia). apply winode_eq; [apply A|done].
Qed.

(** [ialloc] makes an empty file. *)
Lemma addr_empty D x : valid x → addr D (replicate 13 0) x = 0.
Proof.
  intros Hx. destruct x as [bn|]; [|done]. cbn [addr]. destruct (Z.ltb_spec bn NDIRECT); [|done].
  apply lookup_total_replicate_2. unfold NDIRECT, valid in *. lia.
Qed.

Lemma holds_empty s : holds s (replicate 13 0) [].
Proof.
  split; [split|split| |]; cbn [length].
  - done.
  - intros x Hx Hne. by rewrite addr_empty in Hne.
  - intros x y Hx _ _ Hne. by rewrite addr_empty in Hne.
  - change (MAXFILE * BSIZE) with 274432. lia.
  - intros bn H0. unfold BSIZE. lia.
  - intros bn Hbn. rewrite addr_empty by done. unfold BSIZE. lia.
  - change (replicate 13 0 !!! 12%nat) with 0. unfold NDIRECT, BSIZE. lia.
  - intros x Hx Hne. by rewrite addr_empty in Hne.
  - intros k Hk. unfold fbyte. rewrite addr_empty by by apply div_file. by destruct (Z.to_nat k).
Qed.

Lemma lookup_snoc_Some {A} (l : list A) x i y :
  (l ++ [x]) !! i = Some y → l !! i = Some y ∧ (i < length l)%nat ∨ i = length l ∧ y = x.
Proof.
  intros H. destruct (decide (i < length l)%nat); [left; by rewrite lookup_app_l in H|right].
  rewrite lookup_app_r in H by lia. destruct (i - length l)%nat as [|k] eqn:E; [|by destruct k]. injection H as <-. split; [lia|done].
Qed.

Lemma used_snoc ds d : used (ds ++ [d]) = used ds + cost (Z.of_nat (length d)).
Proof. induction ds as [|e ds IH]; [cbn; lia|]. cbn [app]. rewrite !used_cons, IH. lia. Qed.

Lemma image_new s ns ty :
  let n := mk_node ty [] (replicate 13 0) in
  image s ns → 1 + Z.of_nat (length ns) < NINODES → 0 ≤ ty < 2 ^ 15 →
  image (put_inode (1 + Z.of_nat (length ns)) (node_dinode n) (set_freeinode (2 + Z.of_nat (length ns)) s)) (ns ++ [n]).
Proof.
  intros n [Hb Hnx Hrm Hnd Hap Hfr Hrs] Hroom Ht. set (s1 := set_freeinode _ s).
  assert (built s1) as Hb1 by (destruct Hb; by split). assert (0 ≤ 1 + Z.of_nat (length ns) < NINODES) as Hj by lia.
  assert (∀ m c, holds s m c → holds s1 m c) as Hh1 by (intros m c []; by split).
  destruct (put_inode_ok s1 _ (node_dinode n) Hb1 Hj (node_dinode_ok s1 n (holds_empty s1) Ht)) as (P1 & P2 & P3).
  split; [done|rewrite length_app; cbn; lia|rewrite length_app; cbn; lia|..].
  - intros i m [[Hm Hi]|[-> ->]]%lookup_snoc_Some.
    + destruct (Hnd i m Hm) as (E & Hm1 & Hm2). rewrite P2 by lia. rewrite decide_False by lia. split; [done|]. split; [|done]. by apply P3, Hh1.
    + rewrite P2 by lia. rewrite decide_True by done. split; [done|]. split; [|done]. apply holds_empty.
  - intros i j m1 m2 Hne [[H1 Hi]|[-> ->]]%lookup_snoc_Some [[H2 Hj2]|[-> ->]]%lookup_snoc_Some; [..|lia].
    + destruct (Hnd i m1 H1) as (_ & B1 & _). destruct (Hnd j m2 H2) as (_ & B2 & _).
      apply (apart_same (view s1)); [apply (P3 _ _ (Hh1 _ _ B1))|apply (P3 _ _ (Hh1 _ _ B2))|by apply (Hap i j)].
    + apply apart_sym. intros x y Hx Hy _. by apply addr_empty.
    + intros x y Hx Hy _. by apply addr_empty.
  - rewrite fmap_app. cbn [fmap list_fmap n_data n]. rewrite used_snoc. cbn [length]. change (cost (Z.of_nat 0)) with 0.
    change (freeblock (put_inode _ _ s1)) with (freeblock s). lia.
  - intros j Hj2 Hor. rewrite length_app in Hor. cbn [length] in Hor. rewrite P2 by lia. rewrite decide_False by lia. apply Hrs; [done|lia].
Qed.

Lemma ialloc_ok s ns ty :
  image s ns → 1 + Z.of_nat (length ns) < NINODES → ty = T_DIR ∨ ty = T_FILE →
  ∃ s', ialloc h ty s = Ret (1 + Z.of_nat (length ns)) s' ∧ image s' (ns ++ [mk_node ty [] (replicate 13 0)]).
Proof using Hseek Hwrite.
  intros Him Hroom Hty. pose proof (im_next _ _ Him) as Hnx. pose proof (im_built _ _ Him) as Hb.
  eexists. split; [|apply image_new; [done|done|destruct Hty as [-> | ->]; done]].
  unfold ialloc. rewrite (bind_Ret _ _ s (freeinode s) s) by done.
  assert (built (set_freeinode (1 + Z.of_nat (length ns) + 1) s)) as Hb1 by (destruct Hb; by split).
  rewrite (bind_Ret _ _ s tt (set_freeinode (1 + Z.of_nat (length ns) + 1) s)), Hnx
    by (unfold modify; rewrite Hnx, u32_small by (unfold NINODES in *; lia); done).
  run (winode_eq _ (1 + Z.of_nat (length ns)) _ Hb1 ltac:(lia)). unfold ret. f_equal.
  replace (2 + Z.of_nat (length ns)) with (1 + Z.of_nat (length ns) + 1) by lia. by destruct Hty as [-> | ->].
Qed.

(** The pieces of a file, one after the other. *)
Lemma append_pieces_ok ps s ns i n :
  image s ns → ns !! i = Some n → Forall (λ p, p ≠ []) ps → Z.of_nat (length (n_data n ++ concat ps)) ≤ MAXFILE * BSIZE →
  nmeta + used (<[i := n_data n ++ concat ps]> (n_data <$> ns)) ≤ FSSIZE →
  ∃ s' l, append_pieces h (1 + Z.of_nat i) ps s = Ret tt s' ∧
    image s' (<[i := mk_node (n_type n) (n_data n ++ concat ps) l]> ns).
Proof using Hseek Hwrite.
  revert s ns n. induction ps as [|p ps IH]; intros s ns n Him Hi Hps Hmax Hroom.
  { exists s, (n_addrs n). split; [done|]. cbn [concat]. rewrite app_nil_r. replace (mk_node _ _ _) with n by by destruct n.
    by rewrite list_insert_id. }
  apply Forall_cons in Hps as [Hp Hps]. cbn [concat] in *. rewrite (app_assoc (n_data n)) in *. pose proof (lookup_lt_Some _ _ _ Hi) as Hlt.
  assert (Z.of_nat (length (n_data n ++ p)) ≤ Z.of_nat (length ((n_data n ++ p) ++ concat ps))) as Hle by (rewrite !length_app; lia).
  assert (0 < Z.of_nat (length p)) as Hlen by (destruct p; [done|cbn; lia]).
  pose proof (cost_mono (Z.of_nat (length (n_data n ++ p))) (Z.of_nat (length ((n_data n ++ p) ++ concat ps))) ltac:(lia)) as Hc.
  rewrite (used_insert _ _ _ _ Hi) in Hroom.
  destruct (iappend_ok s ns i n p Him Hi) as (s1 & l1 & E1 & Him1); [lia|rewrite (used_insert _ _ _ _ Hi); lia|].
  set (n1 := mk_node (n_type n) (n_data n ++ p) l1) in *.
  assert (<[i := n1]> ns !! i = Some n1) as Hi1 by by apply list_lookup_insert_eq.
  destruct (IH s1 (<[i := n1]> ns) n1 Him1 Hi1 Hps Hmax) as (s2 & l2 & E2 & Him2).
  { rewrite (used_insert _ _ _ _ Hi1), list_fmap_insert. cbn [n_data n1]. rewrite (used_insert _ _ _ _ Hi). lia. }
  exists s2, l2. rewrite list_insert_insert_eq in Him2. split; [|done]. cbn [append_pieces].
  rewrite (proj2 (Z.ltb_lt _ _) Hlen), (bind_Ret _ _ _ _ _ E1). done.
Qed.

(** ** The files of the command line *)

(** The name an argument gets in the file system, and what the file holds. *)
Definition file_name (arg : list Z) : list Z := skip_underscore (shortname arg).
Definition file_data (arg : list Z) : list Z := concat (default [] (h_open h arg)).

(** Arguments that name files which can be read. *)
Record good_arg (arg : list Z) : Prop := {
  ga_name : existsb (λ c, c =? 47) (shortname arg) = false;
  ga_bytes : Forall is_byte arg;
  ga_open : ∃ ps, h_open h arg = Some ps ∧ Forall (λ p, p ≠ []) ps;
  ga_size : Z.of_nat (length (file_data arg)) ≤ MAXFILE * BSIZE
}.

(** The root directory: entries of 16 bytes. *)
Definition root_entries (args : list (list Z)) : list (Z * list Z) :=
  (ROOTINO, bytes_of ".") :: (ROOTINO, bytes_of "..") :: imap (λ i a, (2 + Z.of_nat i, file_name a)) args.
Definition root_data (args : list (list Z)) : list Z := concat ((λ e, dirent_for e.1 e.2) <$> root_entries args).

(** The types and contents of the inodes from 1 on. *)
Definition contents (args : list (list Z)) : list (Z * list Z) :=
  (T_DIR, root_data args) :: ((λ a, (T_FILE, file_data a)) <$> args).

Definition nodes (ns : list node) : list (Z * list Z) := (λ n, (n_type n, n_data n)) <$> ns.

Lemma nodes_data ns : n_data <$> ns = (nodes ns).*2.
Proof. unfold nodes. by rewrite <- list_fmap_compose. Qed.

Lemma root_data_snoc args a :
  root_data (args ++ [a]) = root_data args ++ dirent_for (2 + Z.of_nat (length args)) (file_name a).
Proof.
  unfold root_data, root_entries. rewrite imap_app. cbn [imap]. rewrite Nat.add_0_r.
  change (?a :: ?b :: ?l ++ ?k) with ((a :: b :: l) ++ k). rewrite fmap_app, concat_app. cbn [fmap list_fmap concat]. by rewrite app_nil_r.
Qed.

Lemma dirent_for_ok inum nm :
  Forall is_byte nm → 0 ≤ inum < 2 ^ 16 → length (dirent_for inum nm) = 16%nat ∧ dent_of (dirent_for inum nm) = (inum, cname nm).
Proof.
  intros Hnm Hi. unfold dirent_for. assert (xshort (u16 inum) = inum) as ->.
  { rewrite u16_small by lia. unfold xshort, get16. cbn [le_get]. rewrite !list_lookup_total_alt. cbn. rewrite Z.shiftr_div_pow2 by lia.
    unfold u8. Z.to_euclidean_division_equations. lia. }
  destruct (dirent_fields (replicate (Z.to_nat DIRSIZ) 0) nm inum) as (L & _ & E); [done|by apply Forall_replicate|done|lia|]. done.
Qed.

Lemma skip_bytes nm : Forall is_byte nm → Forall is_byte (skip_underscore nm).
Proof. intros [|c nm' Hc Hn]; [constructor|]. cbn. destruct (c =? 95); [done|by constructor]. Qed.

Lemma file_name_bytes arg : good_arg arg → Forall is_byte (file_name arg).
Proof.
  intros G. apply skip_bytes. unfold shortname. case_decide; [by apply Forall_drop, G|by apply G].
Qed.

(** Room for the files on the disk. *)
Record fits (args : list (list Z)) : Prop := {
  ft_good : Forall good_arg args;
  ft_inodes : 1 + Z.of_nat (length args) < NINODES;
  ft_blocks : nmeta + used (contents args).*2 ≤ FSSIZE
}.

Lemma entry_ok args e :
  Forall good_arg args → 1 + Z.of_nat (length args) < NINODES → e ∈ root_entries args → Forall is_byte e.2 ∧ 0 < e.1 < 2 ^ 16.
Proof.
  intros Hg Hn. unfold NINODES in Hn. unfold root_entries. rewrite !elem_of_cons. intros [->|[->|Hin]]; [by repeat constructor|by repeat constructor|].
  apply elem_of_lookup_imap in Hin as (i & a & -> & Ha). pose proof (lookup_lt_Some _ _ _ Ha). split; [|cbn; lia].
  apply file_name_bytes. by apply (Forall_lookup_1 _ _ _ _ Hg Ha).
Qed.

Lemma concat_length16 {A} (ls : list (list A)) : Forall (λ l, length l = 16%nat) ls → length (concat ls) = (16 * length ls)%nat.
Proof. intros H. induction H as [|l ls Hl Hls IH]; [done|]. cbn [concat length]. rewrite length_app. lia. Qed.

Lemma root_dirents args :
  Forall good_arg args → 1 + Z.of_nat (length args) < NINODES →
  Forall (λ l, length l = 16%nat) ((λ e, dirent_for e.1 e.2) <$> root_entries args).
Proof.
  intros Hg Hn. apply Forall_fmap, Forall_forall. intros e He. destruct (entry_ok args e Hg Hn He).
  apply dirent_for_ok; [done|lia].
Qed.

Lemma root_length args :
  Forall good_arg args → 1 + Z.of_nat (length args) < NINODES → length (root_data args) = (16 * (2 + length args))%nat.
Proof.
  intros Hg Hn. unfold root_data. rewrite concat_length16 by by apply root_dirents. rewrite length_fmap. unfold root_entries. cbn [length].
  by rewrite length_imap.
Qed.

Lemma cost_nonneg n : 0 ≤ n → 0 ≤ cost n.
Proof. intros H. apply (cost_mono 0). lia. Qed.

Lemma contents_snoc args a :
  (contents (args ++ [a])).*2 = root_data (args ++ [a]) :: ((file_data <$> args) ++ [file_data a]).
Proof. unfold contents. rewrite fmap_cons. cbn [snd]. f_equal. rewrite <- list_fmap_compose, fmap_app. done. Qed.

(** An inode and a directory entry for a new file. *)
Lemma add_entry_ok s n0 ns args a :
  image s (n0 :: ns) → n_data n0 = root_data args → n_data <$> ns = file_data <$> args → Forall good_arg (args ++ [a]) →
  2 + Z.of_nat (length args) < NINODES → nmeta + (cost (Z.of_nat (length (root_data (args ++ [a])))) + used (file_data <$> args)) ≤ FSSIZE →
  let inum := 2 + Z.of_nat (length args) in
  ∃ s1 s2 l, ialloc h T_FILE s = Ret inum s1 ∧ iappend h ROOTINO (dirent_for inum (file_name a)) s1 = Ret tt s2 ∧
    image s2 (mk_node (n_type n0) (root_data (args ++ [a])) l :: ns ++ [mk_node T_FILE [] (replicate 13 0)]).
Proof using Hseek Hwrite.
  intros Him Ed Eds Hg Hn Hu inum.
  assert (length ns = length args) as El by (apply (f_equal length) in Eds; by rewrite !length_fmap in Eds).
  pose proof (root_length (args ++ [a]) Hg ltac:(rewrite length_app; cbn; lia)) as Hrl. unfold NINODES in Hn.
  destruct (ialloc_ok s (n0 :: ns) T_FILE Him) as (s1 & E1 & Him1); [cbn [length]; unfold NINODES; lia|by right|].
  replace (1 + Z.of_nat (length (n0 :: ns))) with inum in E1 by (cbn [length]; lia).
  set (nf := mk_node T_FILE [] (replicate 13 0)) in *. cbn [app] in Him1. rewrite root_data_snoc, <- Ed in Hu, Hrl |- *. fold inum in Hu, Hrl |- *.
  destruct (iappend_ok s1 (n0 :: ns ++ [nf]) 0 n0 (dirent_for inum (file_name a)) Him1 eq_refl) as (s2 & l2 & E2 & Him2).
  - rewrite Hrl, length_app. change (MAXFILE * BSIZE) with 274432. cbn. lia.
  - change (<[0%nat := ?d]> (n_data <$> n0 :: ns ++ [nf])) with (d :: (n_data <$> ns ++ [nf])).
    rewrite used_cons, fmap_app, Eds. cbn [fmap list_fmap]. rewrite used_snoc. change (cost (Z.of_nat (length (n_data nf)))) with 0. lia.
  - by exists s1, s2, l2.
Qed.

(** A file is added. *)
Lemma add_file_ok s ns args a :
  image s ns → nodes ns = contents args → fits (args ++ [a]) →
  ∃ s' ns', add_file h ROOTINO a s = Ret tt s' ∧ image s' ns' ∧ nodes ns' = contents (args ++ [a]).
Proof using Hseek Hwrite.
  intros Him En [Hg Hn Hu]. rewrite length_app in Hn. cbn [length] in Hn.
  pose proof Hg as [_ [[Gn Gb (ps & Go & Gp) Gs] _]%Forall_cons]%Forall_app.
  assert (file_data a = concat ps) as Ef by (unfold file_data; by rewrite Go).
  rewrite contents_snoc, used_cons, used_snoc, Ef in Hu. rewrite Ef in Gs.
  destruct ns as [|n0 ns]; [done|]. unfold nodes, contents in En. cbn [fmap list_fmap] in En. injection En as Et Ed En.
  assert (n_data <$> ns = file_data <$> args) as Eds.
  { change (n_data <$> ns) with ((snd ∘ λ n, (n_type n, n_data n)) <$> ns). rewrite list_fmap_compose, En, <- list_fmap_compose. done. }
  assert (length ns = length args) as El by (apply (f_equal length) in Eds; by rewrite !length_fmap in Eds).
  pose proof (cost_nonneg (Z.of_nat (length (concat ps))) ltac:(lia)) as Hc0.
  destruct (add_entry_ok s n0 ns args a Him Ed Eds Hg) as (s1 & s2 & l & E1 & E2 & Him2); [lia|lia|].
  set (nf := mk_node T_FILE [] _) in Him2. set (n0' := mk_node _ _ l) in Him2.
  assert (∀ n, <[S (length ns) := n]> (n0' :: ns ++ [nf]) = n0' :: ns ++ [n]) as Hins.
  { intros n. change (<[S (length ns) := n]> (n0' :: ns ++ [nf])) with (n0' :: <[length ns := n]> (ns ++ [nf])).
    by rewrite insert_app_r_alt, Nat.sub_diag. }
  destruct (append_pieces_ok ps s2 (n0' :: ns ++ [nf]) (S (length ns)) nf Him2) as (s3 & l3 & E3 & Him3); [|done|done|..].
  { change ((ns ++ [nf]) !! length ns = Some nf). by rewrite lookup_app_r, Nat.sub_diag. }
  { change (n_data nf ++ concat ps) with (n_data (mk_node T_FILE (concat ps) [])). rewrite <- list_fmap_insert, Hins, fmap_cons, fmap_app.
    cbn [fmap list_fmap n_data n0']. rewrite used_cons, used_snoc, Eds. done. }
  rewrite Hins in Him3. eexists s3, _. split; [|split; [exact Him3|]].
  - unfold add_file. cbv zeta. rewrite Gn, Go. cbn [negb assert]. rewrite (bind_Ret _ _ s tt s) by done. fold (file_name a).
    run E1, E2.
    replace (2 + Z.of_nat (length args)) with (1 + Z.of_nat (S (length ns))) by lia. done.
  - unfold nodes, contents. rewrite fmap_cons, fmap_app, En, fmap_app. cbn [n_type n_data n0' fmap list_fmap nf app]. by rewrite Et, Ef.
Qed.

Lemma used_prefix ds ds' : used ds ≤ used (ds ++ ds').
Proof.
  induction ds as [|d ds IH]; cbn [app]; [|rewrite !used_cons; lia]. induction ds' as [|d ds' IH]; [done|]. rewrite used_cons.
  pose proof (cost_nonneg (Z.of_nat (length d)) ltac:(lia)). change (used []) with 0 in *. lia.
Qed.

Lemma fits_prefix args rest : fits (args ++ rest) → fits args.
Proof.
  intros [Hg Hn Hu]. pose proof Hg as [Hg1 _]%Forall_app. assert (1 + Z.of_nat (length args) < NINODES) as Hn1 by (rewrite length_app in Hn; lia).
  split; [done|done|]. revert Hu. unfold contents. rewrite !fmap_cons, !used_cons, fmap_app, fmap_app. cbn [snd].
  rewrite !root_length by done. pose proof (used_prefix ((λ a, (T_FILE, file_data a)) <$> args).*2 ((λ a, (T_FILE, file_data a)) <$> rest).*2).
  pose proof (cost_mono (Z.of_nat (16 * (2 + length args))) (Z.of_nat (16 * (2 + length (args ++ rest)))) ltac:(rewrite length_app; lia)). lia.
Qed.

Lemma add_files_ok rest s ns args :
  image s ns → nodes ns = contents args → fits (args ++ rest) →
  ∃ s' ns', for_each rest (add_file h ROOTINO) s = Ret tt s' ∧ image s' ns' ∧ nodes ns' = contents (args ++ rest).
Proof using Hseek Hwrite.
  revert s ns args. induction rest as [|a rest IH]; intros s ns args Him En Hf.
  { exists s, ns. rewrite app_nil_r. done. }
  replace (args ++ a :: rest) with ((args ++ [a]) ++ rest) in Hf |- * by by rewrite <- app_assoc. destruct (add_file_ok s ns args a Him En (fits_prefix _ _ Hf)) as (s1 & ns1 & E1 & Him1 & En1).
  destruct (IH s1 ns1 (args ++ [a]) Him1 En1 Hf) as (s2 & ns2 & E2 & Him2 & En2). exists s2, ns2. split; [|done].
  cbn [for_each]. by run E1.
Qed.

(** ** An empty file system *)

Lemma wsect_raw s b d :
  0 ≤ b < FSSIZE → wsect h b d s = Ret tt (set_sectors (<[b := d]> (sectors s)) (Z.max (nsectors s) (b + 1)) s).
Proof using Hseek Hwrite. intros H. unfold wsect. by rewrite Hseek, Hwrite, sect_index. Qed.

Lemma format_eq s :
  sectors s = ∅ → nsectors s = 0 →
  ∃ s', for_up 0 (ret FSSIZE) (λ i, wsect h i zeroes) s = Ret tt s' ∧ sector s' = (λ _, zeroes) ∧ nsectors s' = FSSIZE ∧
    msb s' = msb s ∧ freeinode s' = freeinode s ∧ freeblock s' = freeblock s.
Proof using Hseek Hwrite.
  intros H0 H1.
  destruct (for_up_inv (λ i s', sector s' = (λ _, zeroes) ∧ nsectors s' = i ∧ msb s' = msb s ∧ freeinode s' = freeinode s ∧ freeblock s' = freeblock s)
    (ret FSSIZE) (λ i, wsect h i zeroes) 0 FSSIZE s) as (s' & E & I); [done|done|done|..|by exists s'].
  - intros j s1 Hj (I1 & I2 & I3 & I4 & I5). eexists. split; [by apply wsect_raw|]. split_and!; try done; [|cbn; lia].
    apply functional_extensionality. intros n. unfold sector. cbn. destruct (decide (n = j)) as [->|Hne]; [by rewrite lookup_insert_eq|].
    rewrite lookup_insert_ne by done. apply (equal_f I1 n).
  - split_and!; try done. apply functional_extensionality. intros n. unfold sector. by rewrite H0, lookup_empty.
Qed.

Lemma get16_zero off : (off + 2 ≤ Z.to_nat BSIZE)%nat → get16 zeroes off = 0.
Proof.
  intros Ho. unfold get16, zeroes. cbn [le_get]. rewrite !lookup_total_replicate_2 by lia. done.
Qed.

(** The super block is written. *)
Lemma image_empty s :
  sector s = (λ _, zeroes) → nsectors s = FSSIZE → msb s = new_sb → freeinode s = 1 → freeblock s = nmeta →
  ∃ s', wsect h 1 (put_sb zeroes new_sb) s = Ret tt s' ∧ image s' [].
Proof using Hseek Hwrite.
  intros H1 H2 H3 H4 H5. eexists. split; [by apply wsect_raw|]. rewrite H2. change (Z.max FSSIZE (1 + 1)) with FSSIZE.
  set (s' := set_sectors _ _ _). assert (sector s' = set_at 1 (put_sb zeroes new_sb) (λ _, zeroes)) as Es.
  { apply functional_extensionality. intros n. unfold sector, set_at, s'. cbn. case_decide as E; [subst; by rewrite lookup_insert_eq|].
    rewrite lookup_insert_ne by done. apply (equal_f H1 n). }
  split.
  - split; try done; [cbn; rewrite H5; change nmeta with 46; unfold FSSIZE; lia|..]; rewrite ?Es.
    + intros b. unfold set_at. by case_decide.
    + intros b Hb. unfold set_at. by case_decide.
    + intros b Hb. cbn in Hb. rewrite H5 in Hb. change nmeta with 46 in Hb. apply set_at_ne. lia.
  - done.
  - done.
  - done.
  - done.
  - done.
  - intros j Hj _. unfold dinode_at. pose proof (iblock_eq j Hj). rewrite view_ne, Es, set_at_ne by lia. cbn [get_dinode di_type].
    pose proof (dinode_fits j). by rewrite get16_zero by lia.
Qed.

(** The root directory with its two first entries. *)
Lemma root_ok s :
  image s [] → ∃ s1 s2 s3 ns, ialloc h T_DIR s = Ret ROOTINO s1 ∧ iappend h ROOTINO (dirent_for ROOTINO (bytes_of ".")) s1 = Ret tt s2 ∧
    iappend h ROOTINO (dirent_for ROOTINO (bytes_of "..")) s2 = Ret tt s3 ∧ image s3 ns ∧ nodes ns = contents [].
Proof using Hseek Hwrite.
  intros Him. destruct (ialloc_ok s [] T_DIR Him) as (s1 & E1 & Him1); [done|by left|].
  destruct (iappend_ok s1 _ 0 _ (dirent_for ROOTINO (bytes_of ".")) Him1 eq_refl) as (s2 & l2 & E2 & Him2); [done|done|].
  destruct (iappend_ok s2 _ 0 _ (dirent_for ROOTINO (bytes_of "..")) Him2 eq_refl) as (s3 & l3 & E3 & Him3); [done|done|].
  eexists s1, s2, s3, _. by split_and!.
Qed.

(** ** The finished image *)

(** The size the root directory gets: up to the end of the block after the
    last one that is full. *)
Definition root_size (args : list (list Z)) : Z := (16 * (2 + Z.of_nat (length args)) / BSIZE + 1) * BSIZE.

(** The image [D] for the files [args], with the addresses [ls] of the inodes
    from 1 on. *)
Record mkfs_image (D : Z → list Z) (args ls : list (list Z)) : Prop := {
  mi_sb : sb_of (D 1) = new_sb;
  mi_log : ∀ b, 2 ≤ b < 2 + LOGSIZE → D b = zero_block;
  mi_fs : fs_ok new_sb D;
  mi_bits : ∀ b, 0 ≤ b < FSSIZE → bit_of new_sb D b = (b <? nmeta + used (contents args).*2);
  mi_len : length ls = S (length args);
  mi_inode : ∀ i l ty c, ls !! i = Some l → contents args !! i = Some (ty, c) →
    get_dinode (D (IBLOCK (1 + Z.of_nat i) new_sb)) (dinode_off (1 + Z.of_nat i)) =
      mk_dinode ty 0 0 1 (if decide (i = O) then root_size args else Z.of_nat (length c)) l;
  mi_file : ∀ i l ty c, ls !! i = Some l → contents args !! i = Some (ty, c) →
    file_ok new_sb D l (Z.of_nat (length c)) ∧ ∀ k, 0 ≤ k < MAXFILE * BSIZE → fbyte D l k = nth (Z.to_nat k) c 0;
  mi_apart : ∀ i j l m, i ≠ j → ls !! i = Some l → ls !! j = Some m → apart D l m;
  mi_unused : ∀ j, 0 ≤ j < NINODES → j = 0 ∨ Z.of_nat (length ls) < j →
    di_type (get_dinode (D (IBLOCK j new_sb)) (dinode_off j)) = 0;
  mi_root : ∀ l, ls !! 0%nat = Some l →
    dents D l (root_size args) = ((λ e, (e.1, cname e.2)) <$> root_entries args) ++
      replicate (Z.to_nat (root_size args / 16) - (2 + length args)) (0, []);
  mi_last : ∀ l, ls !! 0%nat = Some l →
    (addr D l (Some (root_size args / BSIZE - 1)) = 0 ↔ (2 + Z.of_nat (length args)) `mod` 64 = 0)
}.

Lemma concat16_nth (ls : list (list Z)) k x j :
  Forall (λ l, length l = 16%nat) ls → ls !! k = Some x → (j < 16)%nat → nth (16 * k + j) (concat ls) 0 = nth j x 0.
Proof.
  revert k. induction ls as [|y ls IH]; intros k HF Hk Hj; [done|]. apply Forall_cons in HF as [Hy Hls]. cbn [concat]. destruct k as [|k].
  - injection Hk as ->. rewrite app_nth1 by lia. done.
  - rewrite app_nth2 by lia. rewrite Hy. replace (16 * S k + j - 16)%nat with (16 * k + j)%nat by lia. by apply IH.
Qed.

Lemma root_dents D l args :
  Forall good_arg args → 1 + Z.of_nat (length args) < NINODES →
  (∀ k, 0 ≤ k < MAXFILE * BSIZE → fbyte D l k = nth (Z.to_nat k) (root_data args) 0) →
  dents D l (root_size args) = ((λ e, (e.1, cname e.2)) <$> root_entries args) ++
    replicate (Z.to_nat (root_size args / 16) - (2 + length args)) (0, []).
Proof.
  intros Hg Hn Hb. assert (length (root_entries args) = 2 + length args)%nat as El by (unfold root_entries; cbn; by rewrite length_imap).
  assert (16 * (2 + Z.of_nat (length args)) < root_size args ≤ MAXFILE * BSIZE ∧ root_size args `mod` 16 = 0) as [Hr H16].
  { unfold root_size. change (MAXFILE * BSIZE) with 274432. unfold BSIZE, NINODES in *. split; Z.to_euclidean_division_equations; lia. }
  apply list_eq_same_length with (Z.to_nat (root_size args / 16)).
  { rewrite length_app, length_fmap, length_replicate, El. Z.to_euclidean_division_equations; lia. }
  { by rewrite length_dents. }
  intros k x y Hk. rewrite dents_lookup by done. intros [= <-] Hy.
  assert (∀ j, (j < 16)%nat → fbyte D l (16 * Z.of_nat k + Z.of_nat j) = nth (16 * k + j) (root_data args) 0) as Hf.
  { intros j Hj. rewrite Hb by (Z.to_euclidean_division_equations; lia). f_equal. lia. }
  assert (dent_bytes D l k = (λ j, nth (16 * k + j) (root_data args) 0) <$> seq 0 16) as ->.
  { unfold dent_bytes, file_bytes. apply list_fmap_ext. intros j z Hz. apply lookup_seq in Hz as [-> Hz]. by apply Hf. }
  apply lookup_app_Some in Hy as [Hy|[Hge Hy]].
  - rewrite list_lookup_fmap in Hy. destruct (root_entries args !! k) as [e|] eqn:Ee; [|done]. injection Hy as <-.
    destruct (entry_ok args e Hg Hn) as [Hnm Hi]; [by eapply list_elem_of_lookup_2|].
    destruct (dirent_for_ok e.1 e.2 Hnm ltac:(lia)) as [L <-]. f_equal.
    apply list_eq_same_length with 16%nat; [done|done|]. intros j u v Hj. rewrite list_lookup_fmap, lookup_seq_lt by done.
    change (Some (nth (16 * k + j) (root_data args) 0) = Some u → dirent_for e.1 e.2 !! j = Some v → u = v). intros <-%(inj Some) Hv. unfold root_data.
    rewrite (concat16_nth _ k (dirent_for e.1 e.2)); [|by apply root_dirents|by rewrite list_lookup_fmap, Ee|done]. by rewrite nth_lookup, Hv.
  - apply lookup_replicate in Hy as [-> _]. rewrite length_fmap, El in Hge.
    rewrite (list_fmap_ext _ (λ _, 0) (seq 0 16)); [done|]. intros j z Hz. apply nth_overflow.
    rewrite root_length by done. lia.
Qed.

Lemma builder_balloc_eq s : built s → balloc h (s32 (freeblock s)) s = Ret tt (put_sector 45 (bitmap (freeblock s)) s).
Proof using Hseek Hwrite.
  intros Hb. pose proof (bt_free _ Hb) as Hfb. change nmeta with 46 in Hfb. unfold FSSIZE in Hfb. unfold balloc. rewrite s32_small by lia.
  rewrite (proj2 (Z.ltb_lt _ _)) by (unfold BSIZE; lia). cbn [assert]. rewrite (bind_Ret _ _ s tt s), (bind_Ret _ _ s (msb s) s), (bt_sb _ Hb) by done.
  by apply wsect_eq.
Qed.

Lemma root_inode s ns args n0 :
  image s ns → nodes ns = contents args → fits args → ns !! 0%nat = Some n0 →
  let d := mk_dinode T_DIR 0 0 1 (root_size args) (n_addrs n0) in
  round_root h ROOTINO s = Ret tt (put_inode ROOTINO d s) ∧ dinode_ok d.
Proof using Hseek Hwrite.
  intros Him En [Hg Hn _] H0 d. destruct (im_node _ _ Him 0%nat n0 H0) as (Ed & Hh & Ht). change (1 + Z.of_nat 0) with ROOTINO in Ed.
  assert (n_type n0 = T_DIR ∧ n_data n0 = root_data args) as [Et Er].
  { assert (nodes ns !! 0%nat = Some (n_type n0, n_data n0)) as E by (unfold nodes; by rewrite list_lookup_fmap, H0).
    rewrite En in E. by injection E. }
  pose proof (root_length args Hg Hn) as Hl. unfold NINODES in Hn.
  assert (0 ≤ root_size args < 2 ^ 32 ∧ Z.of_nat (length (n_data n0)) = 16 * (2 + Z.of_nat (length args))) as [Hr El].
  { rewrite Er, Hl. unfold root_size, BSIZE. split; Z.to_euclidean_division_equations; lia. }
  split.
  - unfold round_root. rewrite (bind_Ret _ _ _ _ _ (rinode_eq s ROOTINO (im_built _ _ Him) ltac:(done))), Ed.
    cbn [node_dinode di_type di_major di_minor di_nlink di_size di_addrs]. rewrite El, Et, (xint_small (16 * _)) by lia.
    fold (root_size args). rewrite u32_small, xint_small by lia. apply winode_eq; [apply Him|done].
  - pose proof (node_dinode_ok s n0 Hh Ht) as [K1 K2 K3 K4 K5 K6 K7]. by split.
Qed.

Lemma sb_of_put : sb_of (put_sb zeroes new_sb) = new_sb.
Proof. vm_compute. reflexivity. Qed.

(** The inodes of the finished image. *)
Lemma finished_inodes s ns args n0 :
  let d := mk_dinode T_DIR 0 0 1 (root_size args) (n_addrs n0) in
  let s' := put_inode ROOTINO d s in
  image s ns → nodes ns = contents args → ns !! 0%nat = Some n0 → dinode_ok d →
  (∀ i n ty c, ns !! i = Some n → contents args !! i = Some (ty, c) →
    dinode_at s' (1 + Z.of_nat i) = mk_dinode ty 0 0 1 (if decide (i = O) then root_size args else Z.of_nat (length c)) (n_addrs n) ∧
    holds s' (n_addrs n) c) ∧
  (∀ i j n m, i ≠ j → ns !! i = Some n → ns !! j = Some m → apart (view s') (n_addrs n) (n_addrs m)) ∧
  (∀ j, 0 ≤ j < NINODES → j = 0 ∨ Z.of_nat (length ns) < j → di_type (dinode_at s' j) = 0).
Proof.
  intros d s' Him En H0 Hd. destruct (put_inode_ok s ROOTINO d (im_built _ _ Him) ltac:(done) Hd) as (P1 & P2 & P3).
  pose proof (im_room _ _ Him) as Hr. fold s' in P1, P2, P3. split_and!.
  - intros i n ty c Hi Hc. destruct (im_node _ _ Him i n Hi) as (Ed & Hh & Ht). pose proof (lookup_lt_Some _ _ _ Hi) as Hlt.
    rewrite <- En in Hc. unfold nodes in Hc. rewrite list_lookup_fmap, Hi in Hc. injection Hc as <- <-.
    split; [|by apply P3]. rewrite P2 by lia. unfold ROOTINO. destruct (decide (i = 0%nat)) as [->|Hne].
    + rewrite decide_True by done. rewrite H0 in Hi. injection Hi as <-. unfold d.
      assert (nodes ns !! 0%nat = Some (n_type n0, n_data n0)) as E by (unfold nodes; by rewrite list_lookup_fmap, H0).
      rewrite En in E. injection E as <- _. done.
    + rewrite decide_False by lia. done.
  - intros i j n m Hne Hi Hj. destruct (im_node _ _ Him i n Hi) as (_ & B1 & _). destruct (im_node _ _ Him j m Hj) as (_ & B2 & _).
    apply (apart_same (view s)); [by apply (P3 _ _ B1)|by apply (P3 _ _ B2)|by apply (im_apart _ _ Him i j)].
  - intros j Hj Hor. pose proof (lookup_lt_Some _ _ _ H0). rewrite P2, decide_False by (unfold ROOTINO; lia). by apply Him.
Qed.

Lemma finished s ns args n0 :
  let d := mk_dinode T_DIR 0 0 1 (root_size args) (n_addrs n0) in
  image s ns → nodes ns = contents args → fits args → ns !! 0%nat = Some n0 → dinode_ok d →
  mkfs_image (view (put_inode ROOTINO d s)) args (n_addrs <$> ns).
Proof.
  intros d Him En [Hg Hn Hu] H0 Hd. destruct (put_inode_ok s ROOTINO d (im_built _ _ Him) ltac:(done) Hd) as (P1 & P2 & P3).
  destruct (finished_inodes s ns args n0 Him En H0 Hd) as (Q1 & Q2 & Q3). fold d in Q1, Q2, Q3. set (s' := put_inode ROOTINO d s) in *.
  assert (length ns = S (length args)) as El.
  { apply (f_equal length) in En. unfold nodes, contents in En. cbn [length] in En. by rewrite !length_fmap in En. }
  assert (∀ i l, (n_addrs <$> ns) !! i = Some l → ∃ n, ns !! i = Some n ∧ l = n_addrs n) as Hl.
  { intros i l Hi. rewrite list_lookup_fmap in Hi. destruct (ns !! i) as [n|]; [|done]. injection Hi as <-. by exists n. }
  assert (contents args !! 0%nat = Some (T_DIR, root_data args)) as Hc0 by done.
  pose proof (bt_free _ P1) as Hfb. pose proof (root_length args Hg Hn) as Hrl. destruct (Q1 0%nat n0 _ _ H0 Hc0) as [_ Hr0].
  split; [|..].
  - rewrite view_ne by lia. rewrite (bt_low _ P1) by lia. apply sb_of_put.
  - intros b Hb. change (2 + LOGSIZE) with 32 in Hb. rewrite view_ne, (bt_low _ P1) by lia. rewrite decide_False by lia. done.
  - by apply built_fs.
  - intros b Hb. unfold FSSIZE in *. change nmeta with 46 in Hfb. rewrite view_bit by lia. change (freeblock s') with (freeblock s).
    by rewrite (im_free _ _ Him), nodes_data, En.
  - by rewrite length_fmap.
  - intros i l ty c (n & Hi & ->)%Hl Hc. by apply Q1.
  - intros i l ty c (n & Hi & ->)%Hl Hc. destruct (Q1 i n ty c Hi Hc) as [_ Hh]. split; apply Hh.
  - intros i j l m Hne (n & Hi & ->)%Hl (n2 & Hj & ->)%Hl. by apply (Q2 i j).
  - intros j Hj. rewrite length_fmap. by apply Q3.
  - intros l (n & Hi & ->)%Hl. rewrite H0 in Hi. injection Hi as <-. apply root_dents; [done|done|apply Hr0].
  - intros l (n & Hi & ->)%Hl. rewrite H0 in Hi. injection Hi as <-. pose proof (ex_data _ _ _ (hd_exact _ _ _ Hr0) (root_size args / BSIZE - 1)) as Hx.
    rewrite Hrl in Hx. unfold root_size, NINODES, BSIZE in *. change MAXFILE with 268 in Hx.
    destruct (decide (addr (view s') (n_addrs n0) (Some ((16 * (2 + Z.of_nat (length args)) / 1024 + 1) * 1024 / 1024 - 1)) = 0)); 
    Z.to_euclidean_division_equations; lia.
Qed.

Lemma mkfs_ok prog img args :
  h_create h = true → fits args → ∃ s ls, main h (prog :: img :: args) start = Ret 0 s ∧ mkfs_image (sector s) args ls.
Proof using Hseek Hwrite.
  intros Hc Hf. unfold main. cbn [length Nat.ltb Nat.leb drop].
  rewrite (bind_Ret _ _ start tt start), (bind_Ret _ _ start tt start) by done. rewrite Hc. cbn [negb].
  rewrite (bind_Ret _ _ start tt (set_msb new_sb start)), (bind_Ret _ _ _ tt (set_freeblock nmeta (set_msb new_sb start))) by done.
  destruct (format_eq (set_freeblock nmeta (set_msb new_sb start)) eq_refl eq_refl) as (s1 & E1 & F1 & F2 & F3 & F4 & F5).
  rewrite (bind_Ret _ _ _ _ _ E1), (bind_Ret _ _ s1 (msb s1) s1), F3 by done.
  destruct (image_empty s1 F1 F2 F3 F4 F5) as (s2 & E2 & Him2). run E2.
  destruct (root_ok s2 Him2) as (s3 & s4 & s5 & ns5 & E3 & E4 & E5 & Him5 & En5).
  rewrite (bind_Ret _ _ _ _ _ E3), (bind_Ret _ _ s3 tt s3), (bind_Ret _ _ _ _ _ E4), (bind_Ret _ _ _ _ _ E5) by done.
  destruct (add_files_ok args s5 ns5 [] Him5 En5 Hf) as (s6 & ns & E6 & Him & En). run E6. cbn [app] in En.
  destruct ns as [|n0 ns']; [done|]. set (ns := n0 :: ns') in *.
  destruct (root_inode s6 ns args n0 Him En Hf eq_refl) as [E7 Hd]. run E7. set (d := mk_dinode T_DIR _ _ _ _ _) in *.
  destruct (put_inode_ok s6 ROOTINO d (im_built _ _ Him) ltac:(done) Hd) as (P1 & P2 & P3). set (s7 := put_inode ROOTINO d s6) in *.
  rewrite (bind_Ret _ _ s7 (freeblock s7) s7), (bind_Ret _ _ _ _ _ (builder_balloc_eq s7 P1)) by done. eexists _, (n_addrs <$> ns). split; [done|].
  rewrite sector_put. by apply (finished s6 ns args n0).
Qed.
End build.

(** C4: When the files can be read and fit (fewer inodes than
    [NINODES] and blocks than [FSSIZE], counting the indirect blocks), [mkfs]
    exits with 0 and writes an image in which the super block is read back, the
    log is empty, the bitmap marks exactly the blocks in use, and the kernel's
    invariants hold: inode [2 + i] is a file with the bytes of argument [i],
    inode 1 a directory that leads [.] and [..] to itself and the name of each
    argument to its inode, no two of them share a block, and all other inodes
    are free.  The size of the root directory covers a block that is not
    allocated exactly when its entries fill whole blocks. *)
Theorem mkfs_spec h prog img args :
  (∀ o, h_seek h o = true) → (∀ o, h_write h o = true) → h_create h = true → fits h args →
  ∃ s ls, main h (prog :: img :: args) start = Ret 0 s ∧ mkfs_image h (sector s) args ls.
Proof. intros H1 H2. by apply mkfs_ok. Qed.

(** A program and a text of more than twelve blocks. *)
Definition sample_host : host :=
  mk_host true (λ _, true) (λ _, true) (λ a,
    if decide (a = bytes_of "user/_cat") then Some [[127; 69; 76]; [70]]
    else if decide (a = bytes_of "README") then Some (replicate 13 (replicate 1024 120)) else None).

Lemma sample_fits : fits sample_host [bytes_of "user/_cat"; bytes_of "README"].
Proof.
  split; [|done|apply Z.leb_le; vm_compute; reflexivity].
  assert (∀ a ps, h_open sample_host a = Some ps → Forall (λ p, p ≠ []) ps → existsb (λ c, c =? 47) (shortname a) = false →
    Forall is_byte a → Z.of_nat (length (concat ps)) ≤ MAXFILE * BSIZE → good_arg sample_host a) as Hg.
  { intros a ps Ho Hp Hs Hb Hl. split; [done|done|by exists ps|]. unfold file_data. by rewrite Ho. }
  apply Forall_cons. split; [|apply Forall_cons; split; [|by apply Forall_nil]].
  - apply (Hg _ [[127; 69; 76]; [70]]); [reflexivity|by repeat constructor|reflexivity|by repeat constructor|].
    apply Z.leb_le. vm_compute. reflexivity.
  - apply (Hg _ (replicate 13 (replicate 1024 120))); [reflexivity|by apply Forall_replicate|reflexivity|by repeat constructor|].
    apply Z.leb_le. vm_compute. reflexivity.
Qed.

Lemma mkfs_spec_witness :
  ∃ s (ls : list (list Z)) l, main sample_host [bytes_of "mkfs"; bytes_of "fs.img"; bytes_of "user/_cat"; bytes_of "README"] start = Ret 0 s ∧
    ls !! 1%nat = Some l ∧ fbyte (sector s) l 3 = 70.
Proof.
  destruct (mkfs_spec sample_host (bytes_of "mkfs") (bytes_of "fs.img") [bytes_of "user/_cat"; bytes_of "README"])
    as (s & ls & E & M); [done|done|done|exact sample_fits|].
  destruct (lookup_lt_is_Some_2 ls 1) as [l Hl]; [rewrite (mi_len _ _ _ _ M); cbn; lia|].
  exists s, ls, l. split; [exact E|]. split; [exact Hl|].
  destruct (mi_file _ _ _ _ M 1%nat l T_FILE [127; 69; 76; 70] Hl eq_refl) as [_ Hb].
  rewrite Hb by (change (MAXFILE * BSIZE) with 274432; lia). reflexivity.
Defined.
