(* ===== verification/Pipe.v ===== *)
(** * kernel/pipe.c

    A pipe is a ring of PIPESIZE bytes in a page of its own; [pipes] keeps the
    structures by the address of the page. *)

From S2P Require Import Prelude Machine Memory Kstring State Spinlock Kalloc Vm Sched Ring.

Definition PIPESIZE : Z := 512.

Definition getpipe (pi : Z) (s : kernel) : pipe := pipes s !!! pi.
Definition upd_pipe (pi : Z) (f : pipe → pipe) (s : kernel) : kernel :=
  set_pipes (<[pi := f (getpipe pi s)]> (pipes s)) s.
Definition piset (pi : Z) (f : pipe → pipe) : K unit := modify (upd_pipe pi f).

Section pipe.
Context `{KernelLayout}.

Definition pipeclose (pi : Z) (writable : bool) : K unit :=
  acquire (LkPipe pi) ;;;
  (if writable then
     piset pi (set_pi_writeopen false) ;;;
     wakeup (Some (ChPipeRead pi))
   else
     piset pi (set_pi_readopen false) ;;;
     wakeup (Some (ChPipeWrite pi))) ;;;
  let! q := gets (getpipe pi) in
  if negb (pi_readopen q) && negb (pi_writeopen q) then
    release (LkPipe pi) ;;;
    kfree pi
  else release (LkPipe pi).

(** One turn of the loop of [pipewrite]; [inr None] is the [return -1] inside
    it, and [inr (Some i)] the end of the loop. *)
Definition pipewrite_step (pi : Z) (pr : nat) (addr n i : Z) : K (Z + option Z) :=
  if i <? n then
    let! q := gets (getpipe pi) in
    let! killed := pget pr p_killed in
    if negb (pi_readopen q) || negb (killed =? 0) then
      release (LkPipe pi) ;;;
      ret (inr None)
    else if pi_nwrite q =? u32 (pi_nread q + PIPESIZE) then
      wakeup (Some (ChPipeRead pi)) ;;;
      sleep (ChPipeWrite pi) (LkPipe pi) ;;;
      ret (inl i)
    else
      let! pagetable := pget pr p_pagetable in
      let! '(r, ch) := copyin pagetable (u64 (addr + i)) 1 in
      if r =? -1 then ret (inr (Some i)) else
      piset pi (λ q, set_pi_data
        (<[Z.to_nat (pi_nwrite q `mod` PIPESIZE) := ch !!! 0%nat]> (pi_data q)) q) ;;;
      piset pi (λ q, set_pi_nwrite (u32 (pi_nwrite q + 1)) q) ;;;
      ret (inl (i + 1))
  else ret (inr (Some i)).

Definition pipewrite (pi addr n : Z) : K Z :=
  let! pr := curproc in
  acquire (LkPipe pi) ;;;
  let! r := loop (pipewrite_step pi pr addr n) 0 in
  match r with
  | None => ret (-1)
  | Some i =>
      wakeup (Some (ChPipeRead pi)) ;;;
      release (LkPipe pi) ;;;
      ret i
  end.

(** [while(pi->nread == pi->nwrite && pi->writeopen)]: [true] for the
    [return -1] inside it. *)
Definition piperead_wait (pi : Z) (pr : nat) (_ : unit) : K (unit + bool) :=
  let! q := gets (getpipe pi) in
  if (pi_nread q =? pi_nwrite q) && pi_writeopen q then
    let! killed := pget pr p_killed in
    if negb (killed =? 0) then
      release (LkPipe pi) ;;;
      ret (inr true)
    else
      sleep (ChPipeRead pi) (LkPipe pi) ;;;
      ret (inl tt)
  else ret (inr false).

(** One turn of the copying loop. *)
Definition piperead_step (pi : Z) (pr : nat) (addr n i : Z) : K (Z + Z) :=
  if i <? n then
    let! q := gets (getpipe pi) in
    if pi_nread q =? pi_nwrite q then ret (inr i) else
    let ch := pi_data q !!! Z.to_nat (pi_nread q `mod` PIPESIZE) in
    piset pi (λ q, set_pi_nread (u32 (pi_nread q + 1)) q) ;;;
    let! pagetable := pget pr p_pagetable in
    let! r := copyout pagetable (u64 (addr + i)) [ch] in
    if r =? -1 then ret (inr i) else ret (inl (i + 1))
  else ret (inr i).

Definition piperead (pi addr n : Z) : K Z :=
  let! pr := curproc in
  acquire (LkPipe pi) ;;;
  let! killed := loop (piperead_wait pi pr) tt in
  if (killed : bool) then ret (-1) else
  let! i := loop (piperead_step pi pr addr n) 0 in
  wakeup (Some (ChPipeWrite pi)) ;;;
  release (LkPipe pi) ;;;
  ret i.
End pipe.
