(* ===== verification/PipeSpec.v ===== *)
(** * What pipes promise

    A pipe is a first-in first-out queue of at most PIPESIZE bytes: a write
    appends the bytes it can read from the user and sleeps while the pipe is
    full, a read removes the bytes it delivers, and what one process writes,
    others read in the same order, however often the writer has to sleep. *)

From S2P Require Import Prelude Machine Memory Kstring State Spinlock Kalloc Vm VmTables VmMap VmSpace.
From S2P Require Import VmCopy VmSpec Sched Runs Sleeping Ring Pipe.

(** ** The queue of a pipe *)

Definition pqueue (q : pipe) : list Z := rqueue 32 9 (pi_data q) (pi_nread q) (pi_nwrite q).

Record pipe_ok (q : pipe) : Prop := {
  po_len : Z.of_nat (length (pi_data q)) = PIPESIZE;
  po_read : 0 ≤ pi_nread q < 2 ^ 32;
  po_write : 0 ≤ pi_nwrite q < 2 ^ 32;
  po_count : rcount 32 (pi_nread q) (pi_nwrite q) ≤ PIPESIZE
}.

Lemma ring32 : 0 ≤ 9 ≤ 32. Proof. lia. Qed.

Lemma pqueue_length q : Z.of_nat (length (pqueue q)) = rcount 32 (pi_nread q) (pi_nwrite q).
Proof. apply (length_rqueue 32 9 ring32). Qed.

(** [pi->data[pi->nwrite++ % PIPESIZE] = ch] *)
Definition push_byte (b : Z) (q : pipe) : pipe :=
  set_pi_nwrite (u32 (pi_nwrite q + 1))
    (set_pi_data (<[Z.to_nat (pi_nwrite q `mod` PIPESIZE) := b]> (pi_data q)) q).

Lemma push_byte_ok b q :
  pipe_ok q → Z.of_nat (length (pqueue q)) < PIPESIZE →
  pipe_ok (push_byte b q) ∧ pqueue (push_byte b q) = pqueue q ++ [b].
Proof.
  intros [P1 P2 P3 P4]. rewrite pqueue_length. unfold PIPESIZE in *. intros Hr.
  assert (u32 (pi_nwrite q + 1) = (pi_nwrite q + 1) `mod` 2 ^ 32) as E by done. split.
  - split; cbn; [by rewrite length_insert|done|rewrite E; apply Z.mod_pos_bound; lia|].
    rewrite E, rcount_wrap_r, (rcount_push 32 9 ring32) by lia. unfold PIPESIZE. lia.
  - unfold pqueue, push_byte. cbn. rewrite E, rqueue_wrap_r. change 512 with (2 ^ 9).
    fold (rslot 9 (pi_nwrite q)). apply (rqueue_push 32 9 ring32); lia.
Qed.

(** [ch = pi->data[pi->nread++ % PIPESIZE]] *)
Definition pop_byte (q : pipe) : pipe := set_pi_nread (u32 (pi_nread q + 1)) q.

Lemma pop_byte_ok q :
  pipe_ok q → pi_nread q ≠ pi_nwrite q →
  pipe_ok (pop_byte q) ∧
  pqueue q = pi_data q !!! Z.to_nat (pi_nread q `mod` PIPESIZE) :: pqueue (pop_byte q).
Proof.
  intros [P1 P2 P3 P4] Hne. pose proof (rcount_range 32 9 ring32 (pi_nread q) (pi_nwrite q)) as Hrg.
  assert (0 < rcount 32 (pi_nread q) (pi_nwrite q)) as Hc.
  { destruct (Z.eq_dec (rcount 32 (pi_nread q) (pi_nwrite q)) 0) as [E|]; [|lia].
    destruct Hne. by apply (rcount_zero 32 9 ring32). }
  assert (u32 (pi_nread q + 1) = (pi_nread q + 1) `mod` 2 ^ 32) as E by done. split.
  - split; cbn; [done|rewrite E; apply Z.mod_pos_bound; lia|done|].
    rewrite E, rcount_wrap_l, (rcount_pop 32 9 ring32) by done. lia.
  - unfold pqueue, pop_byte. cbn. rewrite E, (rqueue_wrap_l 32 9 ring32).
    change PIPESIZE with (2 ^ 9). fold (rslot 9 (pi_nread q)). by apply (rqueue_pop 32 9 ring32).
Qed.

Lemma pipe_empty q : pipe_ok q → pi_nread q = pi_nwrite q ↔ pqueue q = [].
Proof.
  intros [P1 P2 P3 P4]. rewrite <- (rcount_zero 32 9 ring32) by done. rewrite <- pqueue_length.
  destruct (pqueue q); cbn; [done|]. split; [lia|done].
Qed.

Lemma pipe_full q :
  pipe_ok q → pi_nwrite q = u32 (pi_nread q + PIPESIZE) ↔ Z.of_nat (length (pqueue q)) = PIPESIZE.
Proof.
  intros [P1 P2 P3 P4]. rewrite pqueue_length. apply (rcount_full 32 9 ring32); [|done].
  unfold PIPESIZE. lia.
Qed.

(** ** The bytes a user can read *)

Lemma uread_prefix m root va n r bs :
  uread m root va n = (r, bs) →
  (length bs ≤ n)%nat ∧
  (∀ i b, bs !! i = Some b → upa m root (va + Z.of_nat i) ≠ 0 ∧
     ld m (upa m root (va + Z.of_nat i) + (va + Z.of_nat i) mod PGSIZE) = b) ∧
  ((length bs < n)%nat → upa m root (va + Z.of_nat (length bs)) = 0).
Proof.
  revert va r bs. induction n as [|n IH]; intros va r bs E; cbn [uread] in E.
  - injection E as <- <-. cbn. split_and!; [lia|done|lia].
  - destruct (Z.eqb_spec (upa m root va) 0) as [E0|E0].
    { injection E as <- <-. cbn. split_and!; [lia|done|]. intros _. by rewrite Z.add_0_r. }
    destruct (uread m root (va + 1) n) as [r1 l1] eqn:E1. injection E as <- <-.
    destruct (IH _ _ _ E1) as (H1 & H2 & H3). cbn [length]. split_and!.
    + lia.
    + intros [|i] b Hb; [injection Hb as <-; by rewrite Z.add_0_r|].
      replace (va + Z.of_nat (S i)) with (va + 1 + Z.of_nat i) by lia. by apply H2.
    + intros Hl. replace (va + Z.of_nat (S (length l1))) with (va + 1 + Z.of_nat (length l1)) by lia.
      apply H3. lia.
Qed.

Lemma uread_one m root va : upa m root va ≠ 0 → uread m root va 1 = (0, [ld m (upa m root va + va mod PGSIZE)]).
Proof. intros H. cbn [uread]. by rewrite (proj2 (Z.eqb_neq _ _) H). Qed.

Lemma uread_none m root va : upa m root va = 0 → uread m root va 1 = (-1, []).
Proof. intros H. cbn [uread]. by rewrite H. Qed.

Lemma upa_MAXVA m root va : upa m root va ≠ 0 → va < MAXVA.
Proof. unfold upa. destruct (Z.ltb_spec va MAXVA); done. Qed.

Section pipes.
Context `{KernelLayout} `{!LayoutOk}.

(** The state in which only the pipe [pi] differs. *)
Definition with_pipe (pi : Z) (q : pipe) (s : kernel) : kernel := set_pipes (<[pi := q]> (pipes s)) s.

Lemma getpipe_with pi q s : getpipe pi (with_pipe pi q s) = q.
Proof. unfold getpipe, with_pipe. cbn. apply lookup_total_insert_eq. Qed.

Lemma with_pipe_id pi q s : pipes s !! pi = Some q → with_pipe pi q s = s.
Proof. intros E. unfold with_pipe. rewrite insert_id by done. by destruct s. Qed.

Lemma upd_with_pipe pi f q s : upd_pipe pi f (with_pipe pi q s) = with_pipe pi (f q) s.
Proof.
  unfold upd_pipe. rewrite getpipe_with. unfold with_pipe. cbn. by rewrite insert_insert_eq.
Qed.

(** ** pipewrite *)

(** The part of the code that copies one byte. *)
Lemma pipewrite_step_byte s pi pr root fl l np addr n i q :
  uspace (physmem s) fl root l np → 0 ≤ addr + i < 2 ^ 64 → i < n →
  p_pagetable (getproc pr s) = root → p_killed (getproc pr s) = 0 →
  pipe_ok q → pi_readopen q = true → Z.of_nat (length (pqueue q)) < PIPESIZE →
  pipewrite_step pi pr addr n i (with_pipe pi q s) =
    let '(r, bs) := uread (physmem s) root (addr + i) 1 in
    if r =? -1 then Ret (inr (Some i)) (with_pipe pi q s)
    else Ret (inl (i + 1)) (with_pipe pi (push_byte (bs !!! 0%nat) q) s).
Proof.
  intros Hus Ha Hi Hpt Hk Hok Hro Hroom. unfold pipewrite_step.
  rewrite (proj2 (Z.ltb_lt _ _) Hi). unfold pget, bind at 1, gets. cbn [obind]. rewrite getpipe_with.
  unfold bind at 1. cbn [obind]. change (getproc pr (with_pipe pi q s)) with (getproc pr s). rewrite Hk, Hro.
  cbn [negb orb Z.eqb]. destruct (Z.eqb_spec (pi_nwrite q) (u32 (pi_nread q + PIPESIZE))) as [E|_].
  { apply (pipe_full q Hok) in E. lia. }
  unfold bind at 1. cbn [obind]. change (getproc pr (with_pipe pi q s)) with (getproc pr s). rewrite Hpt.
  rewrite u64_small by done.
  run (copyin_eq (with_pipe pi q s) fl root l np (addr + i) 1 Hus Ha ltac:(lia)).
  change (physmem (with_pipe pi q s)) with (physmem s). change (Z.to_nat 1) with 1%nat.
  destruct (uread (physmem s) root (addr + i) 1) as [r bs]. cbv beta iota.
  destruct (r =? -1); [done|]. unfold piset, modify, bind, ret. cbn [obind]. by rewrite !upd_with_pipe.
Qed.

(** [q'] is [q] with [bs] appended. *)
Definition appended (q : pipe) (bs : list Z) (q' : pipe) : Prop :=
  pipe_ok q' ∧ pqueue q' = pqueue q ++ bs ∧ pi_readopen q' = pi_readopen q ∧ pi_writeopen q' = pi_writeopen q.

Lemma appended_push q bs q1 b :
  appended q bs q1 → Z.of_nat (length (pqueue q) + length bs) < PIPESIZE → appended q (bs ++ [b]) (push_byte b q1).
Proof.
  intros (Hok & Hq & Hr & Hw) Hroom.
  destruct (push_byte_ok b q1 Hok) as [Hok2 Hq2]; [rewrite Hq, length_app; lia|].
  split_and!; [done| |done|done]. by rewrite Hq2, Hq, app_assoc.
Qed.

(** As many bytes as the user can read and the pipe has room for. *)
Lemma pipewrite_push s pi pr root fl l np addr n i q r0 bs k :
  uspace (physmem s) fl root l np → 0 ≤ addr + i < 2 ^ 64 → 0 ≤ i →
  uread (physmem s) root (addr + i) (Z.to_nat (n - i)) = (r0, bs) →
  p_pagetable (getproc pr s) = root → p_killed (getproc pr s) = 0 →
  pipe_ok q → pi_readopen q = true → (k ≤ length bs)%nat → Z.of_nat (length (pqueue q) + k) ≤ PIPESIZE →
  ∃ q', run_n k (pipewrite_step pi pr addr n) i (with_pipe pi q s) = Ret (inl (i + Z.of_nat k)) (with_pipe pi q' s) ∧
    appended q (take k bs) q'.
Proof.
  intros Hus Ha Hi Eu Hpt Hk Hok Hro Hkl Hroom. destruct (uread_prefix _ _ _ _ _ _ Eu) as (Hlen & Hbs & _).
  destruct (run_n_inv (λ j s2, ∃ q', s2 = with_pipe pi q' s ∧ appended q (take j bs) q') (pipewrite_step pi pr addr n)
    (λ j, i + Z.of_nat j) k (with_pipe pi q s)) as (s' & E & q' & -> & Hq').
  - exists q. rewrite take_0. unfold appended. by rewrite app_nil_r.
  - intros j s2 Hj (q1 & -> & Hq1). destruct (lookup_lt_is_Some_2 bs j) as [b Hb]; [lia|].
    destruct (Hbs _ _ Hb) as [Hu Hl]. rewrite <- Z.add_assoc in Hu, Hl. pose proof (upa_MAXVA _ _ _ Hu) as Hm.
    assert (MAXVA < 2 ^ 64) by done. assert (length (take j bs) = j) as Ht by (rewrite length_take; lia).
    pose proof Hq1 as (Hok1 & Eq1 & Hro1 & _).
    pose proof (pipewrite_step_byte s pi pr root fl l np addr n (i + Z.of_nat j) q1 Hus ltac:(lia) ltac:(lia) Hpt Hk Hok1
      ltac:(congruence) ltac:(rewrite Eq1, length_app, Ht; lia)) as Est.
    rewrite uread_one, Hl in Est by done. exists (with_pipe pi (push_byte b q1) s).
    replace (i + Z.of_nat (S j)) with (i + Z.of_nat j + 1) by lia. split; [exact Est|].
    exists (push_byte b q1). split; [done|]. rewrite (take_S_r _ _ _ Hb). apply appended_push; [done|]. rewrite Ht. lia.
  - exists q'. by rewrite Z.add_0_r in E.
Qed.

(** The end of the loop: all bytes are written, or the next one cannot be read. *)
Lemma pipewrite_step_end s pi pr root fl l np addr n i q r0 bs q1 :
  uspace (physmem s) fl root l np → 0 ≤ addr + i < 2 ^ 64 → 0 ≤ i →
  uread (physmem s) root (addr + i) (Z.to_nat (n - i)) = (r0, bs) →
  p_pagetable (getproc pr s) = root → p_killed (getproc pr s) = 0 → pi_readopen q = true →
  n - i ≤ PIPESIZE - Z.of_nat (length (pqueue q)) ∨ Z.of_nat (length bs) < PIPESIZE - Z.of_nat (length (pqueue q)) →
  appended q bs q1 →
  pipewrite_step pi pr addr n (i + Z.of_nat (length bs)) (with_pipe pi q1 s) =
    Ret (inr (Some (i + Z.of_nat (length bs)))) (with_pipe pi q1 s).
Proof.
  intros Hus Ha Hi Eu Hpt Hk Hro Hroom (Hok1 & Eq1 & Hro1 & _).
  destruct (uread_prefix _ _ _ _ _ _ Eu) as (Hlen & Hbs & Hend).
  destruct (decide (n ≤ i + Z.of_nat (length bs))) as [Hn|Hn].
  { unfold pipewrite_step. by rewrite (proj2 (Z.ltb_ge _ _) Hn). }
  assert (0 ≤ addr + (i + Z.of_nat (length bs)) < 2 ^ 64) as Ha2.
  { destruct (decide (length bs = 0%nat)) as [->|]; [lia|]. destruct (lookup_lt_is_Some_2 bs (length bs - 1)) as [b Hb]; [lia|].
    destruct (Hbs _ _ Hb) as [Hu%upa_MAXVA _]. assert (MAXVA + 1 < 2 ^ 64) by done. lia. }
  pose proof (pipewrite_step_byte s pi pr root fl l np addr n (i + Z.of_nat (length bs)) q1 Hus Ha2 ltac:(lia) Hpt Hk Hok1
    ltac:(congruence) ltac:(rewrite Eq1, length_app; lia)) as Est.
  rewrite uread_none in Est; [exact Est|]. rewrite Z.add_assoc. apply Hend. lia.
Qed.

(** A full pipe: the readers are woken and the writer sleeps. *)
Lemma pipewrite_step_full p s pi addr n i q :
  thread_ok p s → c_noff (mycpu s) = 0 → lock_free s (LkPipe pi) → i < n →
  p_killed (getproc p s) = 0 → pipe_ok q → pi_readopen q = true → Z.of_nat (length (pqueue q)) = PIPESIZE →
  let s1 := set_procs (woken (Some (ChPipeRead pi)) (Some p) (procs s)) (with_pipe pi q (enter (LkPipe pi) s)) in
  ∃ k, pipewrite_step pi p addr n i (with_pipe pi q (enter (LkPipe pi) s)) = Switch (asleep (ChPipeWrite pi) (LkPipe pi) p s1) k ∧
    ∀ s', resumed p s' → lock_free s' (LkPipe pi) → k s' = Ret (inl i) (enter (LkPipe pi) (woke p (c_intena (mycpu s)) s')).
Proof.
  intros Ht Hn0 Hl Hi Hk Hok Hro Hfull s1. set (L := LkPipe pi) in *. unfold pipewrite_step.
  rewrite (proj2 (Z.ltb_lt _ _) Hi). unfold pget, bind at 1, gets. cbn [obind]. rewrite getpipe_with.
  unfold bind at 1. cbn [obind]. change (getproc p (with_pipe pi q (enter L s))) with (getproc p s). rewrite Hk, Hro.
  cbn [negb orb Z.eqb]. rewrite (proj2 (Z.eqb_eq _ _) (proj2 (pipe_full q Hok) Hfull)).
  run (wakeup_inside p L s (with_pipe pi q (enter L s)) (Some (ChPipeRead pi)) Ht ltac:(done) ltac:(done) (th_len p s Ht)).
  change (set_procs _ _) with s1.
  destruct (sleep_locked p L s s1 (ChPipeWrite pi) Ht Hn0 Hl ltac:(done)) as (k & Es & _ & _ & Hres);
    [done|unfold s1, woken; cbn; rewrite length_imap; apply Ht|].
  rewrite (bind_Switch _ _ _ _ _ Es). eexists. split; [done|]. intros s' R Hf. cbn beta. by rewrite (Hres s' R Hf).
Qed.

(** The process [p] runs with the address space at [root] and may use the
    pipe [pi], which holds [q]. *)
Record pipe_user (p : nat) (pi root : Z) (l : list Z) (np : nat) (q : pipe) (s : kernel) : Prop := {
  pu_thread : thread_ok p s;
  pu_lock : lock_free s (LkPipe pi);
  pu_pipe : pipes s !! pi = Some q;
  pu_ok : pipe_ok q;
  pu_root : p_pagetable (getproc p s) = root;
  pu_space : uspace (physmem s) (freelist s) root l np
}.

Lemma enter_with_pipe l pi q s :
  pipes s !! pi = Some q → with_pipe pi q (enter l s) = enter l s.
Proof. intros E. by apply with_pipe_id. Qed.

(** What [pipewrite] does from a state in which [p] does not hold the lock and
    [i] bytes have been written: it ends, or it fills the pipe and sleeps; then
    [next] holds of the number of bytes written and of the rest of the code. *)
Definition write_part (p : nat) (pi root addr n i : Z) (s : kernel) (o : outcome kernel Z)
    (next : Z → (kernel → outcome kernel Z) → Prop) : Prop :=
  let q := getpipe pi s in
  let bs := (uread (physmem s) root (addr + i) (Z.to_nat (n - i))).2 in
  let room := PIPESIZE - Z.of_nat (length (pqueue q)) in
  let readers_woken := woken (Some (ChPipeRead pi)) (Some p) (procs s) in
  if (i <? n) && (negb (pi_readopen q) || negb (p_killed (getproc p s) =? 0)) then o = Ret (-1) s
  else if (n - i <=? room) || (Z.of_nat (length bs) <? room) then
    ∃ q', o = Ret (i + Z.of_nat (length bs)) (set_procs readers_woken (with_pipe pi q' s)) ∧ appended q bs q'
  else
    ∃ q' k, o = Switch (asleep (ChPipeWrite pi) (LkPipe pi) p
                         (set_procs readers_woken (with_pipe pi q' (enter (LkPipe pi) s)))) k ∧
      appended q (take (Z.to_nat room) bs) q' ∧ next (i + room) k.

(** The whole write, when the scheduler resumes [p] in the states [sched], one
    for each time it has gone to sleep. *)
Fixpoint pipe_writes (p : nat) (pi root addr n : Z) (sched : list kernel) (i : Z) (s : kernel) (o : outcome kernel Z) : Prop :=
  write_part p pi root addr n i s o (λ i' k,
    match sched with
    | [] => True
    | s' :: sched' =>
        resumed p s' → let t := woke p (c_intena (mycpu s)) s' in
        (∃ l np q, pipe_user p pi root l np q t) → pipe_writes p pi root addr n sched' i' t (k s')
    end).

(** [pipewrite] inside its critical section, with [i] bytes written and [f]
    turns of its loop left. *)
Definition pipewrite_from (pi : Z) (p : nat) (addr n : Z) (f : nat) (i : Z) : K Z :=
  let! r := (let! r := run_n f (pipewrite_step pi p addr n) i in finish r) in
  match r with
  | None => ret (-1)
  | Some i =>
      wakeup (Some (ChPipeRead pi)) ;;;
      release (LkPipe pi) ;;;
      ret i
  end.

Lemma pipewrite_from_more pi p addr n f k i s i' s' :
  run_n k (pipewrite_step pi p addr n) i s = Ret (inl i') s' →
  pipewrite_from pi p addr n (k + f) i s = pipewrite_from pi p addr n f i' s'.
Proof.
  intros E. unfold pipewrite_from. rewrite run_n_add, !bind_assoc. unfold bind at 1. rewrite E. done.
Qed.

Lemma pipewrite_from_stop pi p addr n f i s r s' :
  pipewrite_step pi p addr n i s = Ret (inr r) s' →
  pipewrite_from pi p addr n (S f) i s =
    match r with
    | None => ret (-1)
    | Some i => wakeup (Some (ChPipeRead pi)) ;;; release (LkPipe pi) ;;; ret i
    end s'.
Proof.
  intros E. unfold pipewrite_from. rewrite bind_assoc. by run (run_n_stop _ f _ _ _ _ E).
Qed.

Lemma pipewrite_from_switch pi p addr n f i s s1 k :
  pipewrite_step pi p addr n i s = Switch s1 k →
  ∃ k', pipewrite_from pi p addr n (S f) i s = Switch s1 k' ∧
    ∀ s' i' s2, k s' = Ret (inl i') s2 → k' s' = pipewrite_from pi p addr n f i' s2.
Proof.
  intros E. unfold pipewrite_from. rewrite run_n_S, !bind_assoc, (bind_Switch _ _ _ _ _ E). eexists. split; [done|].
  intros s' i' s2 Ek. cbn beta. rewrite Ek. cbn [obind continue]. by rewrite bind_assoc.
Qed.

Lemma pipewrite_loop_eq p pi addr n s :
  thread_ok p s → lock_free s (LkPipe pi) →
  ∃ f, 2 ^ 64 ≤ Z.of_nat f ∧ pipewrite pi addr n s = pipewrite_from pi p addr n f 0 (enter (LkPipe pi) s).
Proof.
  intros Ht Hl. unfold pipewrite. run (thread_curproc p s Ht). run (acquire_ok s _ (th_hart p s Ht) Hl).
  rewrite loop_run_n. assert (2 ^ 64 ≤ Z.of_nat (2 ^ 64)) as Hf by (rewrite Nat2Z.inj_pow; reflexivity).
  revert Hf. generalize (2 ^ 64)%nat. intros f Hf. by exists f.
Qed.

(** The first turn finds the pipe closed or the process killed. *)
Lemma pipewrite_from_closed p pi root l np q s addr n i f :
  pipe_user p pi root l np q s → i < n → negb (pi_readopen q) || negb (p_killed (getproc p s) =? 0) = true →
  pipewrite_from pi p addr n (S f) i (enter (LkPipe pi) s) = Ret (-1) s.
Proof.
  intros [Ht Hl Hpi Hok Hroot Hus] Hi Hc. rewrite (pipewrite_from_stop _ _ _ _ _ _ _ None s); [done|].
  unfold pipewrite_step. rewrite (proj2 (Z.ltb_lt _ _) Hi). unfold pget, bind at 1 2, gets. cbn [obind].
  unfold getpipe. change (pipes (enter (LkPipe pi) s)) with (pipes s).
  rewrite (lookup_total_correct _ _ _ Hpi). change (getproc p (enter (LkPipe pi) s)) with (getproc p s). rewrite Hc.
  run (release_enter s (enter (LkPipe pi) s) _ (th_hart p s Ht) Hl eq_refl eq_refl eq_refl).
  fold (unlocked s (enter (LkPipe pi) s)). by rewrite unlocked_enter.
Qed.

(** The last part of a write. *)
Lemma pipewrite_from_end p pi root l np q s addr n i r0 bs f :
  pipe_user p pi root l np q s → 0 ≤ addr + i < 2 ^ 64 → 0 ≤ i →
  uread (physmem s) root (addr + i) (Z.to_nat (n - i)) = (r0, bs) →
  p_killed (getproc p s) = 0 ∧ pi_readopen q = true ∨ n ≤ i →
  n - i ≤ PIPESIZE - Z.of_nat (length (pqueue q)) ∨ Z.of_nat (length bs) < PIPESIZE - Z.of_nat (length (pqueue q)) →
  ∃ q', pipewrite_from pi p addr n (length bs + S f) i (enter (LkPipe pi) s) =
      Ret (i + Z.of_nat (length bs)) (set_procs (woken (Some (ChPipeRead pi)) (Some p) (procs s)) (with_pipe pi q' s)) ∧
    appended q bs q'.
Proof.
  intros [Ht Hl Hpi Hok Hroot Hus] Ha Hi Eu Hk Hroom. set (L := LkPipe pi) in *. pose proof (th_hart p s Ht) as Hh.
  assert (∃ q', run_n (length bs) (pipewrite_step pi p addr n) i (enter L s) =
      Ret (inl (i + Z.of_nat (length bs))) (with_pipe pi q' (enter L s)) ∧ appended q bs q' ∧
    pipewrite_step pi p addr n (i + Z.of_nat (length bs)) (with_pipe pi q' (enter L s)) =
      Ret (inr (Some (i + Z.of_nat (length bs)))) (with_pipe pi q' (enter L s))) as (q' & E1 & Hq' & E2).
  { destruct (uread_prefix _ _ _ _ _ _ Eu) as (Hlen & _). pose proof (enter_with_pipe L pi q s Hpi) as Ew.
    pose proof (po_count _ Hok) as Hc. rewrite <- pqueue_length in Hc.
    destruct Hk as [[Hk Hro]|Hn].
    - destruct (pipewrite_push (enter L s) pi p root (freelist s) l np addr n i q r0 bs (length bs)) as (q' & E & Hq'); try done; [lia|].
      rewrite Ew in E. rewrite firstn_all in Hq'. exists q'. split; [done|]. split; [done|].
      by apply (pipewrite_step_end (enter L s) pi p root (freelist s) l np addr n i q r0 bs q').
    - assert (bs = []) as -> by (destruct bs; [done|]; cbn in Hlen; lia). cbn [length run_n]. rewrite Z.add_0_r.
      exists q. split; [by rewrite Ew|]. split; [split_and!; [done|by rewrite app_nil_r|done|done]|].
      unfold pipewrite_step. by rewrite (proj2 (Z.ltb_ge _ _) Hn). }
  exists q'. split; [|done]. rewrite (pipewrite_from_more _ _ _ _ _ _ _ _ _ _ E1), (pipewrite_from_stop _ _ _ _ _ _ _ _ _ E2).
  run (wakeup_inside p L s (with_pipe pi q' (enter L s)) (Some (ChPipeRead pi)) Ht ltac:(done) ltac:(done) (th_len p s Ht)).
  set (s3 := set_procs _ _). run (release_enter s s3 L Hh Hl eq_refl eq_refl eq_refl). unfold ret, s3. f_equal.
Qed.

(** The part of a write that fills the pipe, and the sleep after it. *)
Lemma pipewrite_from_full p pi root l np q s addr n i r0 bs f :
  pipe_user p pi root l np q s → c_noff (mycpu s) = 0 → 0 ≤ addr + i < 2 ^ 64 → 0 ≤ i →
  uread (physmem s) root (addr + i) (Z.to_nat (n - i)) = (r0, bs) →
  p_killed (getproc p s) = 0 → pi_readopen q = true →
  let room := PIPESIZE - Z.of_nat (length (pqueue q)) in
  room < n - i → room ≤ Z.of_nat (length bs) →
  ∃ q' k, pipewrite_from pi p addr n (Z.to_nat room + S f) i (enter (LkPipe pi) s) =
      Switch (asleep (ChPipeWrite pi) (LkPipe pi) p
        (set_procs (woken (Some (ChPipeRead pi)) (Some p) (procs s)) (with_pipe pi q' (enter (LkPipe pi) s)))) k ∧
    appended q (take (Z.to_nat room) bs) q' ∧
    ∀ s', resumed p s' → lock_free s' (LkPipe pi) →
      k s' = pipewrite_from pi p addr n f (i + room) (enter (LkPipe pi) (woke p (c_intena (mycpu s)) s')).
Proof.
  intros [Ht Hl Hpi Hok Hroot Hus] Hn0 Ha Hi Eu Hk Hro room Hlt Hle. set (L := LkPipe pi) in *.
  pose proof (po_count _ Hok) as Hc. rewrite <- pqueue_length in Hc.
  destruct (pipewrite_push (enter L s) pi p root (freelist s) l np addr n i q r0 bs (Z.to_nat room)) as (q' & E1 & Hq');
    try done; [lia|lia|]. rewrite (enter_with_pipe L pi q s Hpi), Z2Nat.id in E1 by lia.
  pose proof Hq' as (Hok' & Eq' & Hro' & _).
  destruct (pipewrite_step_full p s pi addr n (i + room) q' Ht Hn0 Hl) as (k & E2 & Hres); [lia|done|done|congruence| |].
  { rewrite Eq', length_app, length_take. lia. }
  destruct (pipewrite_from_switch _ _ _ _ f _ _ _ _ E2) as (k' & E3 & Hk').
  exists q', k'. split; [|split; [done|]].
  - by rewrite (pipewrite_from_more _ _ _ _ _ _ _ _ _ _ E1).
  - intros s' R Hf. apply Hk'. by apply Hres.
Qed.

Lemma woke_lock p pi intena s : lock_free (woke p intena s) (LkPipe pi) → lock_free s (LkPipe pi).
Proof. intros [nm E]. exists nm. cbn in E. by rewrite lookup_insert_ne in E. Qed.

(** Bytes that have been read lie below the top of the address space. *)
Lemma uread_range m root va k r bs j :
  uread m root va k = (r, bs) → 0 ≤ va < 2 ^ 64 → 0 ≤ j ≤ Z.of_nat (length bs) → 0 ≤ va + j < 2 ^ 64.
Proof.
  intros Eu Hva Hj. destruct (uread_prefix _ _ _ _ _ _ Eu) as (_ & Hbs & _).
  destruct (decide (j = 0)) as [->|]; [lia|]. destruct (lookup_lt_is_Some_2 bs (Z.to_nat (j - 1))) as [b Hb]; [lia|].
  destruct (Hbs _ _ Hb) as [Hu%upa_MAXVA _]. assert (MAXVA + 1 < 2 ^ 64) by done. lia.
Qed.

Lemma pipewrite_from_part p pi root l np q addr n i s f (next : Z → (kernel → outcome kernel Z) → Prop) :
  pipe_user p pi root l np q s → c_noff (mycpu s) = 0 → 0 ≤ addr + i < 2 ^ 64 → 0 ≤ i → (Z.to_nat (n - i) < f)%nat →
  (∀ i' k f', i ≤ i' < n → (f ≤ f' + S (Z.to_nat (i' - i)))%nat → 0 ≤ addr + i' < 2 ^ 64 →
     (∀ s', resumed p s' → lock_free s' (LkPipe pi) →
        k s' = pipewrite_from pi p addr n f' i' (enter (LkPipe pi) (woke p (c_intena (mycpu s)) s'))) → next i' k) →
  write_part p pi root addr n i s (pipewrite_from pi p addr n f i (enter (LkPipe pi) s)) next.
Proof.
  intros Hpu Hn0 Ha Hi Hf Hnext. unfold write_part. assert (getpipe pi s = q) as -> by (apply lookup_total_correct, Hpu).
  destruct (uread (physmem s) root (addr + i) (Z.to_nat (n - i))) as [r0 bs] eqn:Eu. cbn [snd].
  destruct (uread_prefix _ _ _ _ _ _ Eu) as (Hlen & _ & _). pose proof (po_count _ (pu_ok _ _ _ _ _ _ _ Hpu)) as Hc.
  rewrite <- pqueue_length in Hc. set (room := PIPESIZE - Z.of_nat (length (pqueue q))).
  destruct ((i <? n) && _) eqn:E1.
  { apply andb_true_iff in E1 as [Hin%Z.ltb_lt E1]. destruct f as [|f]; [lia|]. by eapply pipewrite_from_closed. }
  assert (p_killed (getproc p s) = 0 ∧ pi_readopen q = true ∨ n ≤ i) as Hopen.
  { destruct (Z.ltb_spec i n); [left|by right]. cbn [andb] in E1.
    apply orb_false_iff in E1 as [E1%negb_false_iff E2%negb_false_iff%Z.eqb_eq]. done. }
  destruct ((n - i <=? room) || _) eqn:E2.
  { replace f with (length bs + S (f - S (length bs)))%nat by lia. eapply pipewrite_from_end; try done.
    by apply orb_true_iff in E2 as [E2%Z.leb_le|E2%Z.ltb_lt]; [left|right]. }
  apply orb_false_iff in E2 as [E2%Z.leb_gt E3%Z.ltb_ge]. destruct Hopen as [[Hk Hro]|]; [|unfold room in E2; lia].
  replace f with (Z.to_nat room + S (f - S (Z.to_nat room)))%nat by lia.
  destruct (pipewrite_from_full p pi root l np q s addr n i r0 bs (f - S (Z.to_nat room)) Hpu Hn0 Ha Hi Eu Hk Hro E2 E3)
    as (q' & k & E & Hq' & Hres). exists q', k. split; [exact E|]. split; [exact Hq'|].
  apply (Hnext _ _ (f - S (Z.to_nat room))%nat); [unfold room in *; lia|lia| |exact Hres].
  rewrite Z.add_assoc. eapply uread_range; [exact Eu|done|unfold room in *; lia].
Qed.

Lemma pipe_writes_from p pi root addr n sched l np q i s f :
  pipe_user p pi root l np q s → c_noff (mycpu s) = 0 → 0 ≤ addr + i < 2 ^ 64 → 0 ≤ i →
  (Z.to_nat (n - i) + length sched < f)%nat →
  pipe_writes p pi root addr n sched i s (pipewrite_from pi p addr n f i (enter (LkPipe pi) s)).
Proof.
  revert l np q i s f. induction sched as [|s' sched IH]; intros l np q i s f Hpu Hn0 Ha Hi Hf; cbn [length] in Hf;
    (eapply pipewrite_from_part; [exact Hpu|done|done|done|lia|]); intros i' k f' Hi' Hf' Ha' Hk; [done|].
  intros R t (l' & np' & q2 & Hpu'). rewrite Hk; [|done|exact (woke_lock _ _ _ _ (pu_lock _ _ _ _ _ _ _ Hpu'))].
  apply (IH l' np' q2); [done|by rewrite (woke_cpu _ _ _ R)|done|lia|lia].
Qed.

Lemma pipewrite_parts p pi root l np q s addr n sched :
  pipe_user p pi root l np q s → c_noff (mycpu s) = 0 → 0 ≤ addr < 2 ^ 64 → - 2 ^ 31 ≤ n < 2 ^ 31 →
  Z.of_nat (length sched) < 2 ^ 32 →
  pipe_writes p pi root addr n sched 0 s (pipewrite pi addr n s).
Proof.
  intros Hpu Hn0 Ha Hn Hs.
  destruct (pipewrite_loop_eq p pi addr n s (pu_thread _ _ _ _ _ _ _ Hpu) (pu_lock _ _ _ _ _ _ _ Hpu)) as (f & Hf & ->).
  eapply pipe_writes_from; [exact Hpu|done|lia|lia|lia].
Qed.

(** C35: [pipewrite], whatever the state of the pipe and however
    often it has to sleep.  In a killed process, or when the read end is
    closed, it returns -1, and what it has written before stays in the pipe.
    When the rest of the bytes fits, or an address cannot be read before the
    pipe is full, it appends the bytes it can read, in order, returns the
    number of bytes written in all and wakes the readers.  Otherwise it fills
    the pipe with the next bytes, wakes the readers and sleeps on the write
    channel with the lock released; resumed, with the pipe and the memory as
    others have left them by then, it goes on with the byte after the last one
    it wrote. *)
Theorem pipewrite_spec p pi root l np q s addr n sched :
  pipe_user p pi root l np q s → c_noff (mycpu s) = 0 → 0 ≤ addr < 2 ^ 64 → - 2 ^ 31 ≤ n < 2 ^ 31 →
  Z.of_nat (length sched) < 2 ^ 32 →
  pipe_writes p pi root addr n sched 0 s (pipewrite pi addr n s).
Proof. apply pipewrite_parts. Qed.

Lemma getpipe_proc pi q s ps : getpipe pi (set_procs ps (with_pipe pi q s)) = q.
Proof. exact (getpipe_with pi q s). Qed.

(** ** piperead *)

Lemma uwrite_app m root va l1 l2 :
  uwrite m root va (l1 ++ l2) =
    if fst (uwrite m root va l1) =? 0
    then uwrite (snd (uwrite m root va l1)) root (va + Z.of_nat (length l1)) l2
    else uwrite m root va l1.
Proof.
  revert m va. induction l1 as [|b l1 IH]; intros m va; cbn [uwrite app fst snd length].
  - by rewrite Z.add_0_r.
  - destruct (upa m root va =? 0); [done|]. rewrite IH.
    by replace (va + 1 + Z.of_nat (length l1)) with (va + Z.of_nat (Datatypes.S (length l1))) by lia.
Qed.

Lemma uwrite_next m root va bs i b m' :
  uwrite m root va (take i bs) = (0, m') → bs !! i = Some b →
  uwrite m root va (take (Datatypes.S i) bs) = uwrite m' root (va + Z.of_nat i) [b].
Proof.
  intros E Hb. apply lookup_lt_Some in Hb as Hlt. rewrite (take_S_r _ _ _ Hb), uwrite_app, E. cbn [fst snd Z.eqb].
  by rewrite length_take, Nat.min_l by lia.
Qed.

Lemma uwrite_stop m root va bs i b m' :
  uwrite m root va (take i bs) = (0, m') → bs !! i = Some b → upa m' root (va + Z.of_nat i) = 0 →
  uwrite m root va bs = (-1, m').
Proof.
  intros E Hb Hu. apply lookup_lt_Some in Hb as Hlt. rewrite <- (take_drop i bs), uwrite_app, E. cbn [fst snd Z.eqb].
  rewrite length_take, Nat.min_l by lia. rewrite (drop_S _ _ _ Hb). cbn [uwrite]. by rewrite Hu.
Qed.

(** How many of [k] bytes from [va] on the user can reach. *)
Definition reach (m : mem) (root va : Z) (k : nat) : nat := length (uread m root va k).2.

Lemma reach_spec m root va k :
  (reach m root va k ≤ k)%nat ∧
  (∀ i, (i < reach m root va k)%nat → upa m root (va + Z.of_nat i) ≠ 0) ∧
  ((reach m root va k < k)%nat → upa m root (va + Z.of_nat (reach m root va k)) = 0).
Proof.
  unfold reach. destruct (uread m root va k) as [r bs] eqn:E.
  destruct (uread_prefix _ _ _ _ _ _ E) as (H1 & H2 & H3). cbn. split_and!; [done| |done].
  intros i Hi. destruct (lookup_lt_is_Some_2 bs i Hi) as [b Hb]. by apply (H2 i b).
Qed.

(** The bytes that were written are there. *)
Lemma uwrite_reach m fl root l np va bs i b :
  uspace m fl root l np → 0 ≤ va → (i < reach m root va (length bs))%nat → bs !! i = Some b →
  ld (uwrite m root va bs).2 (uaddr m root (va + Z.of_nat i)) = u8 b.
Proof.
  intros Hus Hva Hi Hb. destruct (reach_spec m root va (length bs)) as (Hj & Hin & Hend).
  set (j := reach _ _ _ _) in *.
  destruct (uwrite m root va (take j bs)) as [r m'] eqn:Ew.
  destruct (uwrite_spec _ fl root l np va _ r m' Hus Hva Ew) as (_ & Hleaf & _ & [[-> Hw]|(_ & k & Hk & Hk0)]).
  - assert ((uwrite m root va bs).2 = m') as ->.
    { destruct (decide (j = length bs)) as [E|]; [by rewrite take_ge in Ew by lia; rewrite Ew|].
      destruct (lookup_lt_is_Some_2 bs j) as [c Hc]; [lia|].
      rewrite (uwrite_stop _ _ _ _ _ _ _ Ew Hc); [done|]. rewrite (upa_leaf _ _ _ Hleaf). apply Hend. lia. }
    apply (Hw i). by rewrite lookup_take_lt.
  - rewrite length_take in Hk. by destruct (Hin k); [lia|].
Qed.

(** The part of the code that delivers one byte. *)
Lemma piperead_step_byte s pi pr root l np addr n i q :
  uspace (physmem s) (freelist s) root l np → 0 ≤ addr + i < 2 ^ 64 → i < n →
  p_pagetable (getproc pr s) = root → pipe_ok q → pi_nread q ≠ pi_nwrite q →
  let b := pi_data q !!! Z.to_nat (pi_nread q `mod` PIPESIZE) in
  piperead_step pi pr addr n i (with_pipe pi q s) =
    Ret (if fst (uwrite (physmem s) root (addr + i) [b]) =? -1 then inr i else inl (i + 1))
      (with_pipe pi (pop_byte q) (with_mem s (snd (uwrite (physmem s) root (addr + i) [b])) (freelist s))).
Proof.
  intros Hus Ha Hi Hpt Hok Hne b. unfold piperead_step.
  rewrite (proj2 (Z.ltb_lt _ _) Hi). unfold pget, bind at 1, gets. cbn [obind]. rewrite getpipe_with.
  rewrite (proj2 (Z.eqb_neq _ _) Hne). unfold piset, modify, bind at 1 2. cbn [obind].
  rewrite upd_with_pipe. fold (pop_byte q). change (getproc pr (with_pipe pi (pop_byte q) s)) with (getproc pr s).
  rewrite Hpt. rewrite u64_small by done. fold b.
  run (copyout_eq (with_pipe pi (pop_byte q) s) root l np (addr + i) [b] Hus Ha ltac:(cbn; lia)).
  change (physmem (with_pipe pi (pop_byte q) s)) with (physmem s).
  destruct (fst _ =? -1); done.
Qed.

(** All bytes asked for have been delivered, or the queue is empty. *)
Lemma piperead_step_end s pi pr addr n i q :
  pipe_ok q → i = n ∨ pqueue q = [] →
  piperead_step pi pr addr n i (with_pipe pi q s) = Ret (inr i) (with_pipe pi q s).
Proof.
  intros Hok Hi. unfold piperead_step. destruct (Z.ltb_spec i n) as [Hlt|]; [|done].
  destruct Hi as [->|Eq]; [lia|]. unfold bind, gets. cbn [obind]. rewrite getpipe_with.
  apply (pipe_empty q Hok) in Eq. by rewrite (proj2 (Z.eqb_eq _ _) Eq).
Qed.

(** Delivering the bytes at the head of the queue. *)
Lemma piperead_loop s pi pr root l np addr n q :
  uspace (physmem s) (freelist s) root l np → 0 ≤ addr < 2 ^ 64 → 0 ≤ n < 2 ^ 32 →
  p_pagetable (getproc pr s) = root → pipe_ok q →
  let bs := take (Z.to_nat n) (pqueue q) in
  let j := reach (physmem s) root addr (length bs) in
  runs (loop (piperead_step pi pr addr n) 0) (with_pipe pi q s) (λ i s2,
    i = Z.of_nat j ∧ ∃ q', s2 = with_pipe pi q' (with_mem s (uwrite (physmem s) root addr bs).2 (freelist s)) ∧
      pipe_ok q' ∧ pi_readopen q' = pi_readopen q ∧ pi_writeopen q' = pi_writeopen q ∧
      pqueue q' = drop (if decide (j = length bs) then j else Datatypes.S j) (pqueue q)).
Proof.
  intros Hus Ha Hn Hpt Hok bs j. destruct (reach_spec (physmem s) root addr (length bs)) as (Hj & Hin & Hend).
  fold j in Hj, Hin, Hend.
  assert (length bs ≤ Z.to_nat n)%nat as Hbn by (unfold bs; rewrite length_take; lia).
  apply (runs_loop (λ i s2, 0 ≤ i ≤ Z.of_nat j ∧ ∃ q' m',
    s2 = with_pipe pi q' (with_mem s m' (freelist s)) ∧ pipe_ok q' ∧
    uwrite (physmem s) root addr (take (Z.to_nat i) bs) = (0, m') ∧
    pi_readopen q' = pi_readopen q ∧ pi_writeopen q' = pi_writeopen q ∧
    pqueue q' = drop (Z.to_nat i) (pqueue q)) (λ i, Z.to_nat (n - i))).
  - lia.
  - split; [lia|]. exists q, (physmem s). split_and!; done.
  - intros i s2 (Hi & q' & m' & -> & Hok' & Ew & Hro & Hwo & Hq).
    destruct (uwrite_spec _ (freelist s) root l np addr _ 0 m' Hus ltac:(lia) Ew) as (Hus' & Hleaf & _ & _).
    pose proof (upa_leaf _ _ _ Hleaf) as Hupa.
    assert (length (take (Z.to_nat i) bs) = Z.to_nat i) as Hti by (rewrite length_take; lia).
    destruct (decide (i = Z.of_nat (length bs))) as [Hib|Hib].
    { assert (Z.of_nat j = i) as Hji by lia. rewrite decide_True by lia.
      assert (take (Z.to_nat i) bs = bs) as Etb by (apply take_ge; lia). rewrite Etb in Ew.
      eapply runs_eq_last; [apply piperead_step_end; [done|]|].
      { rewrite Hq. unfold bs in Hib. rewrite length_take in Hib.
        destruct (decide (i = n)); [by left|right]. apply drop_ge. lia. }
      split; [done|]. exists q'. rewrite Ew. split_and!; try done.
      rewrite Hq. f_equal. lia. }
    assert (pi_nread q' ≠ pi_nwrite q') as Hne.
    { intros E. apply (pipe_empty q' Hok') in E. rewrite Hq in E. apply (f_equal length) in E.
      rewrite length_drop in E. cbn in E. unfold bs in Hib, Hi, Hj. rewrite length_take in *. lia. }
    destruct (pop_byte_ok q' Hok' Hne) as [Hok2 Hpop]. set (b := pi_data q' !!! _) in Hpop.
    assert (bs !! Z.to_nat i = Some b) as Hb.
    { unfold bs. rewrite lookup_take_lt by lia. rewrite <- (Nat.add_0_r (Z.to_nat i)), <- lookup_drop, <- Hq, Hpop. done. }
    assert (pqueue (pop_byte q') = drop (Datatypes.S (Z.to_nat i)) (pqueue q)) as Hq2.
    { rewrite Hpop in Hq. rewrite <- (Nat.add_1_r (Z.to_nat i)), <- drop_drop, <- Hq. done. }
    assert (0 ≤ addr + i < 2 ^ 64) as Hai.
    { destruct (decide (i = 0)) as [->|]; [lia|]. assert (MAXVA + 1 < 2 ^ 64) by done.
      specialize (Hin (Z.to_nat (i - 1)) ltac:(lia)). apply upa_MAXVA in Hin. lia. }
    pose proof (piperead_step_byte (with_mem s m' (freelist s)) pi pr root l np addr n i q' Hus' Hai ltac:(lia) Hpt Hok' Hne) as Est.
    cbv zeta in Est. fold b in Est. change (physmem (with_mem s m' (freelist s))) with m' in Est.
    change (freelist (with_mem s m' (freelist s))) with (freelist s) in Est. rewrite with_mem_with_mem in Est.
    destruct (decide (i = Z.of_nat j)) as [Hij|Hij].
    + cbn [uwrite] in Est. rewrite Hupa, Hij, Hend in Est by lia. eapply runs_eq_last; [rewrite Hij; exact Est|].
      rewrite (uwrite_stop _ _ _ _ _ _ _ Ew Hb) by (rewrite Hupa, Hij, Nat2Z.id; apply Hend; lia).
      split; [done|]. exists (pop_byte q'). split_and!; try done.
      rewrite decide_False by lia. by rewrite Hq2, Hij, Nat2Z.id.
    + pose proof (uwrite_next _ _ _ _ _ _ _ Ew Hb) as Ew2. rewrite Z2Nat.id in Ew2 by lia.
      assert (upa m' root (addr + i) ≠ 0) as Hne2.
      { rewrite Hupa. specialize (Hin (Z.to_nat i) ltac:(lia)). by rewrite Z2Nat.id in Hin by lia. }
      cbn [uwrite] in Est, Ew2. rewrite (proj2 (Z.eqb_neq _ _) Hne2) in Est, Ew2.
      eapply runs_eq_last; [exact Est|]. split; [|lia]. split; [lia|].
      exists (pop_byte q'). eexists. replace (Z.to_nat (i + 1)) with (Datatypes.S (Z.to_nat i)) by lia.
      split_and!; [reflexivity|done|exact Ew2|done..].
Qed.

Lemma piperead_runs p pi root l np q s addr n :
  pipe_user p pi root l np q s → 0 ≤ addr < 2 ^ 64 → 0 ≤ n < 2 ^ 32 →
  pqueue q ≠ [] ∨ pi_writeopen q = false →
  let bs := take (Z.to_nat n) (pqueue q) in
  let j := reach (physmem s) root addr (length bs) in
  ∃ q', piperead pi addr n s =
      Ret (Z.of_nat j) (set_procs (woken (Some (ChPipeWrite pi)) (Some p) (procs s))
        (with_pipe pi q' (with_mem s (uwrite (physmem s) root addr bs).2 (freelist s)))) ∧
    pipe_ok q' ∧ pi_readopen q' = pi_readopen q ∧ pi_writeopen q' = pi_writeopen q ∧
    pqueue q' = drop (if decide (j = length bs) then j else Datatypes.S j) (pqueue q).
Proof.
  intros [Ht Hl Hpi Hok Hroot Hus] Ha Hn Hrd bs j. pose proof (th_hart p s Ht) as Hh. set (L := LkPipe pi) in *.
  destruct (piperead_loop (enter L s) pi p root l np addr n q Hus Ha Hn Hroot Hok)
    as (i & s2 & E2 & -> & q' & -> & Hq'). rewrite (enter_with_pipe L pi q s Hpi) in E2.
  exists q'. split; [|exact Hq']. unfold piperead. run (thread_curproc p s Ht).
  fold L. run (acquire_ok s _ Hh Hl). rewrite (bind_Ret _ _ _ false (enter L s)).
  2:{ apply (loop_Ret _ 1); [lia|]. apply run_n_stop. unfold piperead_wait, bind at 1, gets. cbn [obind].
      unfold getpipe. change (pipes (enter L s)) with (pipes s). rewrite (lookup_total_correct _ _ _ Hpi).
      destruct (Z.eqb_spec (pi_nread q) (pi_nwrite q)) as [E|]; [|done].
      apply (pipe_empty q Hok) in E. destruct Hrd as [|Hw]; [done|]. by rewrite Hw. }
  cbv beta iota. run E2. fold bs j. set (s3 := with_pipe pi q' _).
  run (wakeup_inside p L s s3 _ Ht ltac:(done) ltac:(done) (th_len p s Ht)).
  set (s4 := set_procs _ _).
  run (release_enter s s4 L Hh Hl eq_refl eq_refl eq_refl).
  unfold ret, s4, s3. f_equal.
Qed.

(** C34: when the pipe holds bytes, or its write end is closed,
    [piperead] delivers the oldest bytes in order, at most [n] of them, to the
    addresses it can write, returns their number and wakes the writers.  What
    it delivered is gone from the queue, and so is one further byte when the
    next address cannot be written. *)
Theorem piperead_spec p pi root l np q s addr n :
  pipe_user p pi root l np q s → 0 ≤ addr < 2 ^ 64 → 0 ≤ n < 2 ^ 32 →
  pqueue q ≠ [] ∨ pi_writeopen q = false →
  let bs := take (Z.to_nat n) (pqueue q) in
  ∃ (j : nat) q' m', piperead pi addr n s =
      Ret (Z.of_nat j) (set_procs (woken (Some (ChPipeWrite pi)) (Some p) (procs s))
        (with_pipe pi q' (with_mem s m' (freelist s)))) ∧
    pipe_ok q' ∧ pi_readopen q' = pi_readopen q ∧ pi_writeopen q' = pi_writeopen q ∧
    (∀ (i : nat) b, (i < j)%nat → bs !! i = Some b →
       ld m' (uaddr (physmem s) root (addr + Z.of_nat i)) = u8 b) ∧
    (j = length bs ∧ pqueue q' = drop (length bs) (pqueue q) ∨
     (j < length bs)%nat ∧ upa (physmem s) root (addr + Z.of_nat j) = 0 ∧
     pqueue q' = drop (Datatypes.S j) (pqueue q)).
Proof.
  intros Hpu Ha Hn Hrd bs. destruct (piperead_runs p pi root l np q s addr n Hpu Ha Hn Hrd)
    as (q' & E & Hok & Hro & Hwo & Hq). fold bs in E, Hq.
  destruct (reach_spec (physmem s) root addr (length bs)) as (Hj & Hin & Hend).
  set (j := reach _ _ _ _) in *. exists j, q', (uwrite (physmem s) root addr bs).2. split_and!; try done.
  - intros i b Hi Hb. by eapply uwrite_reach; [apply Hpu|lia| |].
  - case_decide as Ej; [left; by rewrite <- Ej|right]. split_and!; [lia|apply Hend; lia|done].
Qed.

(** ** One process writes and others read *)

(** Reads by processes other than [w] that take the pipe from [q] to [q'];
    the bytes are those they find in their own memory afterwards. *)
Inductive drained (w : nat) (pi : Z) : pipe → list Z → pipe → Prop :=
  | dr_none q : drained w pi q [] q
  | dr_read r root l np q s b m j s' ys q' :
      pipe_user r pi root l np q s → r ≠ w → 0 ≤ b < 2 ^ 64 → 0 ≤ m < 2 ^ 32 →
      pqueue q ≠ [] ∨ pi_writeopen q = false →
      (∀ i, 0 ≤ i < m → upa (physmem s) root (b + i) ≠ 0) →
      piperead pi b m s = Ret j s' →
      drained w pi (getpipe pi s') ys q' →
      drained w pi q ((uread (physmem s') root b (Z.to_nat j)).2 ++ ys) q'.

(** A write by [w] of the bytes [bs] at [a], from its outcome [o] so far on:
    while [w] sleeps others read, then [w] is resumed with the pipe as they
    have left it, and so on until the write has returned [v]. *)
Inductive conversation (w : nat) (pi root a : Z) (bs : list Z) (intena : bool) :
    nat → outcome kernel Z → Z → list Z → pipe → Prop :=
  | cv_end v s ys q' :
      drained w pi (getpipe pi s) ys q' → conversation w pi root a bs intena 0 (Ret v s) v ys q'
  | cv_round c s1 k ys q2 s' l np v ys' q' :
      drained w pi (getpipe pi s1) ys q2 →
      resumed w s' → pipe_user w pi root l np q2 (woke w intena s') → p_killed (getproc w (woke w intena s')) = 0 →
      uread (physmem s') root a (length bs) = (0, bs) →
      conversation w pi root a bs intena c (k s') v ys' q' →
      conversation w pi root a bs intena (S c) (Switch s1 k) v (ys ++ ys') q'.

(** What has been written to addresses that can be reached is read back. *)
Lemma uwrite_uread m fl root l np b xs :
  uspace m fl root l np → 0 ≤ b → reach m root b (length xs) = length xs →
  (uread (uwrite m root b xs).2 root b (length xs)).2 = u8 <$> xs.
Proof.
  intros Hus Hb Ej. replace (length xs) with (length (u8 <$> xs)) by apply length_fmap. erewrite uread_ok; [done|].
  intros i c Hc. apply list_lookup_fmap_Some in Hc as (c' & -> & Hc). pose proof (lookup_lt_Some _ _ _ Hc) as Hi.
  destruct (reach_spec m root b (length xs)) as (_ & Hin & _).
  pose proof (uwrite_reach m fl root l np b xs i c' Hus Hb ltac:(lia) Hc) as Hl.
  destruct (uwrite m root b xs) as [r0 m'] eqn:Ew.
  destruct (uwrite_spec _ fl root l np b xs r0 m' Hus ltac:(lia) Ew) as (_ & Hleaf & _ & _).
  unfold uaddr in *. cbn [snd] in *. rewrite (upa_leaf _ _ _ Hleaf). split; [|done]. apply Hin. lia.
Qed.

Lemma drained_queue w pi q ys q' :
  drained w pi q ys q' → pipe_ok q →
  pipe_ok q' ∧ u8 <$> pqueue q = ys ++ (u8 <$> pqueue q') ∧ pi_readopen q' = pi_readopen q.
Proof.
  induction 1 as [q|r root l np q s b m j s' ys q' Hpu _ Hb Hm Hrd Hacc E _ IH]; intros Hok; [done|].
  destruct (piperead_runs r pi root l np q s b m Hpu Hb Hm Hrd) as (q1 & E1 & Hok1 & Hro1 & _ & Hq1).
  rewrite E in E1. injection E1 as -> ->. rewrite getpipe_proc in IH. destruct (IH Hok1) as (H1 & H2 & H3).
  set (xs := take (Z.to_nat m) (pqueue q)) in *.
  assert (reach (physmem s) root b (length xs) = length xs) as Ej.
  { destruct (reach_spec (physmem s) root b (length xs)) as (Hj & _ & Hend).
    destruct (decide (reach (physmem s) root b (length xs) < length xs)%nat) as [Hlt|]; [|lia].
    exfalso. assert (length xs ≤ Z.to_nat m)%nat by (unfold xs; rewrite length_take; lia).
    eapply Hacc; [|by apply Hend]. lia. }
  rewrite Ej, decide_True in Hq1 by done. split; [done|]. split; [|congruence].
  pose proof (uwrite_uread _ _ _ _ _ b xs (pu_space _ _ _ _ _ _ _ Hpu) ltac:(lia) Ej) as Er.
  rewrite Ej, Nat2Z.id.
  match goal with |- context [uread (physmem ?x) _ _ _] => change (physmem x) with ((uwrite (physmem s) root b xs).2) end.
  rewrite Er, <- app_assoc, <- H2, Hq1, <- fmap_app. f_equal.
  assert (length xs = length (take (Z.to_nat m) (pqueue q))) as -> by done. unfold xs.
  rewrite length_take. destruct (decide (Z.to_nat m ≤ length (pqueue q))%nat).
  - by rewrite Nat.min_l, take_drop by lia.
  - rewrite take_ge, drop_ge by lia. by rewrite app_nil_r.
Qed.

Lemma uread_drop m root va k bs i :
  uread m root va k = (0, bs) → (i ≤ k)%nat → uread m root (va + Z.of_nat i) (k - i) = (0, drop i bs).
Proof.
  revert va k bs. induction i as [|i IH]; intros va k bs E Hi; [by rewrite Z.add_0_r, Nat.sub_0_r|].
  destruct k as [|k]; [lia|]. cbn [uread] in E. destruct (upa m root va =? 0); [done|].
  destruct (uread m root (va + 1) k) as [r l] eqn:E1. injection E as -> <-.
  replace (va + Z.of_nat (S i)) with (va + 1 + Z.of_nat i) by lia. apply (IH _ _ _ E1). lia.
Qed.

(** One part of a write whose bytes can all be read. *)
Lemma write_part_open w pi root l np q s a n bs i o next :
  pipe_user w pi root l np q s → p_killed (getproc w s) = 0 → pi_readopen q = true →
  uread (physmem s) root a (length bs) = (0, bs) → Z.of_nat (length bs) = n → 0 ≤ i ≤ n →
  write_part w pi root a n i s o next →
  let j := i + (PIPESIZE - Z.of_nat (length (pqueue q))) in
  (∃ s', o = Ret n s' ∧ appended q (drop (Z.to_nat i) bs) (getpipe pi s')) ∨
  (∃ s1 k, o = Switch s1 k ∧ i ≤ j < n ∧ appended q (take (Z.to_nat (j - i)) (drop (Z.to_nat i) bs)) (getpipe pi s1) ∧ next j k).
Proof.
  intros Hpu Hk Hro Eu Hn Hi. unfold write_part. assert (getpipe pi s = q) as -> by (apply lookup_total_correct, Hpu).
  pose proof (uread_drop _ _ _ _ _ (Z.to_nat i) Eu ltac:(lia)) as Ed. rewrite Z2Nat.id in Ed by lia.
  replace (Z.to_nat (n - i)) with (length bs - Z.to_nat i)%nat by lia. rewrite Ed, Hk, Hro. cbn [snd negb orb Z.eqb].
  rewrite andb_false_r. assert (Z.of_nat (length (drop (Z.to_nat i) bs)) = n - i) as -> by (rewrite length_drop; lia).
  pose proof (po_count _ (pu_ok _ _ _ _ _ _ _ Hpu)) as Hc. rewrite <- pqueue_length in Hc.
  set (room := PIPESIZE - Z.of_nat (length (pqueue q))). destruct (_ || _) eqn:E2.
  - intros (q' & -> & Hq'). left. eexists. split; [f_equal; lia|]. by rewrite getpipe_proc.
  - apply orb_false_iff in E2 as [E2%Z.leb_gt _]. intros (q' & k & -> & Hq' & Hnx). right. eexists _, k.
    split; [done|]. split; [unfold room in *; lia|]. split; [|done]. replace (i + room - i) with room by lia.
    change (getpipe pi _) with (getpipe pi (with_pipe pi q' (enter (LkPipe pi) s))). by rewrite getpipe_with.
Qed.

Lemma conversation_bytes w pi root a n bs intena c o v ys q' :
  conversation w pi root a bs intena c o v ys q' → Z.of_nat (length bs) = n →
  ∀ l np q i s, pipe_user w pi root l np q s → c_intena (mycpu s) = intena → p_killed (getproc w s) = 0 →
    pi_readopen q = true → uread (physmem s) root a (length bs) = (0, bs) → 0 ≤ i ≤ n →
    (∀ sched, (length sched ≤ c)%nat → pipe_writes w pi root a n sched i s o) →
    v = n ∧ ys ++ (u8 <$> pqueue q') = u8 <$> pqueue q ++ drop (Z.to_nat i) bs.
Proof.
  intros C Hn. induction C as [v s1 ys q' Hd|c s1 k ys q2 s' l1 np1 v ys' q' Hd R Hpu2 Hk2 Eu2 _ IH];
    intros l np q i s Hpu Hie Hk Hro Eu Hi HW.
  - specialize (HW [] ltac:(done)). cbn [pipe_writes] in HW.
    destruct (write_part_open _ _ _ _ _ _ _ _ _ _ _ _ _ Hpu Hk Hro Eu Hn Hi HW) as [(s2 & E & Hok & Hq & _)|(s2 & k & E & _)];
      [|done]. injection E as -> ->. destruct (drained_queue _ _ _ _ _ Hd Hok) as (_ & Hy & _). by rewrite <- Hy, Hq.
  - set (j := i + (PIPESIZE - Z.of_nat (length (pqueue q)))).
    assert (∀ sched, (length sched ≤ c)%nat → i ≤ j < n ∧
      appended q (take (Z.to_nat (j - i)) (drop (Z.to_nat i) bs)) (getpipe pi s1) ∧
      pipe_writes w pi root a n sched j (woke w intena s') (k s')) as HW'.
    { intros sched Hs. specialize (HW (s' :: sched) ltac:(cbn; lia)). cbn [pipe_writes] in HW.
      destruct (write_part_open _ _ _ _ _ _ _ _ _ _ _ _ _ Hpu Hk Hro Eu Hn Hi HW) as [(s2 & E & _)|(s2 & k2 & E & Hj & Ha & Hnx)];
        [done|]. injection E as -> ->. fold j in Hj, Ha, Hnx. split; [done|]. split; [done|].
      rewrite Hie in Hnx. apply Hnx; [done|]. by exists l1, np1, q2. }
    destruct (HW' [] ltac:(cbn; lia)) as (Hj & (Hok & Hq & Hro1 & _) & _).
    destruct (drained_queue _ _ _ _ _ Hd Hok) as (Hok2 & Hy & Hro2).
    destruct (IH l1 np1 q2 j (woke w intena s')) as [-> Hys]; try done.
    { by rewrite (woke_cpu _ _ _ R). }
    { congruence. }
    { lia. }
    { intros sched Hs. by apply HW'. }
    split; [done|]. rewrite <- app_assoc, Hys, fmap_app, app_assoc, <- Hy, Hq, <- fmap_app, <- app_assoc. do 2 f_equal.
    replace (Z.to_nat j) with (Z.to_nat i + Z.to_nat (j - i))%nat by lia. by rewrite <- drop_drop, take_drop.
Qed.

(** C16: a process writes [n] bytes, however many, to a pipe; as
    often as the pipe is full it sleeps while other processes, with address
    spaces of their own, read from the pipe in pieces of any size.  The write
    returns [n], and the bytes that the readers find in their memory, one read
    after the other, followed by what is left in the pipe, are the bytes that
    were in the pipe before followed by those in the writer's memory: none is
    lost, doubled or out of order. *)
Theorem pipe_transfer w pi root l np q s a n bs c v ys q' :
  pipe_user w pi root l np q s → c_noff (mycpu s) = 0 → p_killed (getproc w s) = 0 → pi_readopen q = true →
  0 ≤ a < 2 ^ 64 → Z.of_nat (length bs) = n → n < 2 ^ 31 → uread (physmem s) root a (length bs) = (0, bs) →
  Z.of_nat c < 2 ^ 32 → conversation w pi root a bs (c_intena (mycpu s)) c (pipewrite pi a n s) v ys q' →
  v = n ∧ ys ++ (u8 <$> pqueue q') = u8 <$> pqueue q ++ bs.
Proof.
  intros Hpu Hn0 Hk Hro Ha Hn Hlt Eu Hc C.
  eapply (conversation_bytes _ _ _ _ n _ _ _ _ _ _ _ C Hn l np q 0 s); try done; [lia|].
  intros sched Hs. eapply pipewrite_parts; [exact Hpu|done|lia|lia|lia].
Qed.

(** A byte that is written to a full pipe, when there is room in it on
    the writer's return. *)
Lemma write_sleeps w pi root l np q l2 np2 q2 s s' a bs intena o :
  pipe_writes w pi root a 1 [s'] 0 s o → pipe_user w pi root l np q s → c_intena (mycpu s) = intena →
  p_killed (getproc w s) = 0 → pi_readopen q = true → length (pqueue q) = 512%nat →
  resumed w s' → pipe_user w pi root l2 np2 q2 (woke w intena s') → p_killed (getproc w (woke w intena s')) = 0 →
  pi_readopen q2 = true → Z.of_nat (length (pqueue q2)) < PIPESIZE → length bs = 1%nat →
  uread (physmem s) root a 1 = (0, bs) → uread (physmem s') root a 1 = (0, bs) →
  ∃ s1 k s2, o = Switch s1 k ∧ appended q [] (getpipe pi s1) ∧ k s' = Ret 1 s2 ∧ appended q2 bs (getpipe pi s2).
Proof.
  intros W Hpu Hi Hk Hro Hq R Hpu2 Hk2 Hro2 Hq2 Hbs Eu Eu2. rewrite <- Hbs in Eu, Eu2. cbn [pipe_writes] in W.
  assert (0 + (PIPESIZE - Z.of_nat (length (pqueue q))) = 0) as Ej by (rewrite Hq; reflexivity).
  destruct (write_part_open _ _ _ _ _ _ _ _ 1 _ 0 _ _ Hpu Hk Hro Eu ltac:(lia) ltac:(lia) W)
    as [(s2 & _ & Hok & Eq & _)|(s1 & k & E & _ & Ha & Hn)]; rewrite ?Ej in *.
  { exfalso. pose proof (po_count _ Hok) as Hc. rewrite <- pqueue_length, Eq, length_app, Hq in Hc.
    change (drop (Z.to_nat 0) bs) with bs in Hc. rewrite Hbs in Hc. unfold PIPESIZE in Hc. lia. }
  rewrite Hi in Hn. specialize (Hn R (ex_intro _ l2 (ex_intro _ np2 (ex_intro _ q2 Hpu2)))). cbn [pipe_writes] in Hn.
  destruct (write_part_open _ _ _ _ _ _ _ _ 1 _ 0 _ _ Hpu2 Hk2 Hro2 Eu2 ltac:(lia) ltac:(lia) Hn)
    as [(s2 & E2 & Ha2)|(s3 & k3 & _ & Hj & _)]; [by exists s1, k, s2|]. exfalso. lia.
Qed.

Lemma resumed_with_pipe p pi q s : resumed p s → resumed p (with_pipe pi q s).
Proof. generalize (<[pi := q]> (pipes s)). intros m [R1 R2 R3 R4 R5 R6 R7 R8]. unfold with_pipe. by split. Qed.

(** A writer that sleeps, once the pipe is [q2], is resumed at once. *)
Lemma sleeper_resumed w pi root l np q q1 q2 s intena :
  pipe_user w pi root l np q s → c_noff (mycpu s) = 0 → pipe_ok q2 →
  let s1 := asleep (ChPipeWrite pi) (LkPipe pi) w
              (set_procs (woken (Some (ChPipeRead pi)) (Some w) (procs s)) (with_pipe pi q1 (enter (LkPipe pi) s))) in
  let s' := with_pipe pi q2 s1 in
  resumed w s' ∧ pipe_user w pi root l np q2 (woke w intena s') ∧
  p_killed (getproc w (woke w intena s')) = p_killed (getproc w s).
Proof.
  intros [Ht Hl Hpi Hok Hroot Hus] Hn0 Hok2 s1 s'. set (L := LkPipe pi) in *.
  set (s0 := set_procs (woken _ _ _) _) in s1.
  assert (length (procs s0) = NPROC) as Hlen by (unfold s0, woken; cbn; rewrite length_imap; apply Ht).
  assert (resumed w s') as R.
  { by apply resumed_with_pipe, (asleep_resumed w L s s0). }
  destruct (sleep_locked w L s s0 (ChPipeWrite pi) Ht Hn0 Hl ltac:(done) ltac:(done) Hlen) as (_ & _ & _ & Hf & _).
  assert (∃ P, procs s !! w = Some P ∧ procs (woke w intena s') !! w = Some (set_p_chan None (set_p_state SLEEPING (set_p_chan (Some (ChPipeWrite pi)) P))))
    as (P & E1 & E2).
  { destruct (lookup_lt_is_Some_2 (procs s) w) as [P E]; [rewrite (th_len _ _ Ht); apply Ht|]. exists P. split; [done|].
    cbn. rewrite !list_lookup_alter_eq. unfold woken. rewrite list_lookup_imap, E. cbn. by rewrite bool_decide_eq_true_2. }
  rewrite (getproc_lookup s w P E1) in *. rewrite (getproc_lookup _ w _ E2). split; [done|]. split; [|done].
  split; [by apply woke_thread|by apply lock_free_leave_ne|apply lookup_insert_eq|done| |done].
  by rewrite (getproc_lookup _ w _ E2).
Qed.
End pipes.

(** ** A machine with a pipe *)

Definition sample_pipe_page : Z := PHYSTOP - PGSIZE.
Definition empty_pipe : pipe := mk_pipe (replicate 512 0) 0 0 true true.
Definition full_pipe : pipe := mk_pipe (replicate 512 7) 0 512 true true.

(** The process [p] runs. *)
Definition pipe_boot (p : nat) (q : pipe) (root : Z) (m : mem) (fl : Z) : kernel :=
  with_pipe sample_pipe_page q
    (set_locks (<[LkPipe sample_pipe_page := mk_spinlock false "pipe" None]> (locks boot))
      (with_mem (upd_proc p (set_p_pagetable root)
         (set_cpus (<[0%nat := mk_cpu (Some p) 0 false false]> (cpus boot)) boot)) m fl)).

Definition is_pipe_lock (l : lockid) : bool := match l with LkPipe _ => true | _ => false end.

Lemma all_locks_no_pipe l pi : l ∈ all_locks → LkPipe pi ≠ l.
Proof.
  assert (forallb (λ l, negb (is_pipe_lock l)) all_locks = true) as Hall by reflexivity.
  intros Hl <-. rewrite forallb_forall in Hall. apply list_elem_of_In in Hl.
  discriminate (Hall (LkPipe pi) Hl).
Qed.

Lemma pipe_boot_user p q root m fl l np :
  (p < NPROC)%nat → pipe_ok q → uspace m fl root l np →
  pipe_user p sample_pipe_page root l np q (pipe_boot p q root m fl).
Proof.
  intros Hp Hq Hus. split; [|by eexists; apply lookup_insert_eq|apply lookup_insert_eq|done| |exact Hus].
  - split; [|done|cbn; by rewrite length_alter|done|].
    + split_and!; cbn; [lia|lia|done|done].
    + intros k Hk. destruct (lock_free_boot k Hk) as [name Hn]. exists name. unfold pipe_boot. cbn [locks with_pipe set_pipes set_locks].
      rewrite lookup_insert_ne; [exact Hn|]. by apply all_locks_no_pipe.
  - destruct (lookup_lt_is_Some_2 (procs boot) p) as [P E]; [done|]. rewrite (getproc_lookup _ p (set_p_pagetable root P)); [done|].
    change (procs (pipe_boot p q root m fl)) with (alter (set_p_pagetable root) p (procs boot)). by rewrite list_lookup_alter_eq, E.
Qed.

Lemma empty_pipe_ok : pipe_ok empty_pipe.
Proof. split; [reflexivity|split; [done|reflexivity]..|by apply Zle_bool_imp_le]. Qed.

Lemma full_pipe_ok : pipe_ok full_pipe.
Proof. split; [reflexivity|split; [done|reflexivity]..|by apply Zle_bool_imp_le]. Qed.

Lemma full_pipe_length : length (pqueue full_pipe) = 512%nat.
Proof. reflexivity. Qed.

Lemma empty_pipe_room : Z.of_nat (length (pqueue empty_pipe)) < PIPESIZE.
Proof. reflexivity. Qed.

(** A writer of one byte with a pipe that is full, and the pipe that it is
    resumed with. *)
Lemma sample_sleeper :
  ∃ m fl l, uspace m fl rootA l 1 ∧ (∀ i, 0 ≤ i < 1 → upa m rootA (200 + i) ≠ 0) ∧
    let s := pipe_boot 0 full_pipe rootA m fl in
    ∃ bs, length bs = 1%nat ∧ uread m rootA 100 1 = (0, bs) ∧
    pipe_user 0 sample_pipe_page rootA l 1 full_pipe s ∧
    c_intena (mycpu s) = false ∧ c_noff (mycpu s) = 0 ∧ p_killed (getproc 0 s) = 0 ∧ physmem s = m ∧
    ∀ q, pipe_ok q → ∃ s', resumed 0 s' ∧ pipe_user 0 sample_pipe_page rootA l 1 q (woke 0 false s') ∧
      p_killed (getproc 0 (woke 0 false s')) = 0 ∧ physmem s' = m.
Proof.
  destruct sample_user as (m & fl & l & US & _ & _ & Hacc & _). exists m, fl, l. split; [done|].
  split; [intros i Hi; apply Hacc; mlia|].
  pose proof (pipe_boot_user 0 full_pipe rootA m fl l 1 ltac:(unfold NPROC; lia) full_pipe_ok US) as Hpu.
  eexists. split; [|split; [apply uread_one, Hacc; mlia|]]; [done|]. split; [done|]. do 4 (split; [done|]). intros q Hq.
  destruct (sleeper_resumed 0 sample_pipe_page rootA l 1 full_pipe full_pipe q _ false Hpu eq_refl Hq) as (R & Hpu' & Hk).
  eexists. split; [exact R|]. split; [exact Hpu'|]. split; [by rewrite Hk|done].
Qed.

(** The writer sleeps; resumed when the pipe is empty, it returns. *)
Lemma pipewrite_spec_witness :
  ∃ s s1 k s' s2, pipewrite sample_pipe_page 100 1 s = Switch s1 k ∧ k s' = Ret 1 s2 ∧
    length (pqueue (getpipe sample_pipe_page s2)) = 1%nat.
Proof.
  destruct sample_sleeper as (m & fl & l & _ & _ & bs & Hbs & Eu & Hpu & Hi & Hn0 & Hk0 & Hm0 & Hres).
  destruct (Hres empty_pipe empty_pipe_ok) as (s' & R & Hpu' & Hk & Hm). revert Hpu Hi Hn0 Hk0 Hm0.
  generalize (pipe_boot 0 full_pipe rootA m fl). intros s Hpu Hi Hn0 Hk0 Hm0.
  pose proof (pipewrite_spec 0 sample_pipe_page rootA l 1 full_pipe s 100 1 [s'] Hpu Hn0 ltac:(lia) ltac:(lia) ltac:(cbn; lia)) as W.
  destruct (write_sleeps _ _ _ _ _ _ _ _ _ _ _ _ _ _ _ W Hpu Hi Hk0 eq_refl full_pipe_length R Hpu' Hk eq_refl empty_pipe_room Hbs)
    as (s1 & k & s2 & E & _ & E2 & _ & Hq & _); [by rewrite Hm0|by rewrite Hm|].
  exists s, s1, k, s', s2. split; [exact E|]. split; [exact E2|]. rewrite Hq. exact Hbs.
Defined.

(** A write end that is closed: the read returns at once. *)
Definition closed_pipe : pipe := set_pi_writeopen false empty_pipe.

Lemma closed_pipe_ok : pipe_ok closed_pipe.
Proof. destruct empty_pipe_ok as [P1 P2 P3 P4]. split; assumption. Qed.

Lemma piperead_spec_witness :
  ∃ s j q' m', piperead sample_pipe_page 100 3 s =
      Ret (Z.of_nat j) (set_procs (woken (Some (ChPipeWrite sample_pipe_page)) (Some 0%nat) (procs s))
        (with_pipe sample_pipe_page q' (with_mem s m' (freelist s)))) ∧ j = 0%nat.
Proof.
  destruct sample_user as (m & fl & l & US & _ & _ & _ & _).
  destruct (piperead_spec 0 sample_pipe_page rootA l 1 closed_pipe (pipe_boot 0 closed_pipe rootA m fl) 100 3
    (pipe_boot_user 0 closed_pipe rootA m fl l 1 ltac:(unfold NPROC; lia) closed_pipe_ok US)) as (j & q' & m' & E & _ & _ & _ & _ & Hj).
  - lia.
  - lia.
  - right. reflexivity.
  - exists (pipe_boot 0 closed_pipe rootA m fl), j, q', m'. split; [exact E|].
    assert (pqueue closed_pipe = []) as Eq by reflexivity. rewrite Eq, take_nil in Hj.
    destruct Hj as [[Hj _]|[Hj _]]; [exact Hj|]. cbn in Hj. lia.
Defined.

(** Process 1 takes a byte from a pipe. *)
Lemma sample_read m fl l q :
  uspace m fl rootA l 1 → (∀ i, 0 ≤ i < 1 → upa m rootA (200 + i) ≠ 0) → pipe_ok q → pqueue q ≠ [] →
  ∃ ys q2, drained 0 sample_pipe_page q ys q2 ∧ pipe_ok q2 ∧ pi_readopen q2 = pi_readopen q ∧
    (length (pqueue q2) < length (pqueue q))%nat.
Proof.
  intros US Hacc Hok Hne. set (s := pipe_boot 1 q rootA m fl).
  pose proof (pipe_boot_user 1 q rootA m fl l 1 ltac:(unfold NPROC; lia) Hok US : pipe_user _ _ _ _ _ _ s) as Hpu.
  destruct (piperead_runs 1 sample_pipe_page rootA l 1 q s 200 1 Hpu ltac:(lia) ltac:(lia) (or_introl Hne)) as (q2 & E & Hok2 & Hro2 & _ & Hq2).
  eexists _, q2. split; [|split; [done|split; [done|]]].
  - eapply (dr_read _ _ 1 rootA l 1 q s 200 1); [exact Hpu|done|lia|lia|by left|exact Hacc|exact E|]. rewrite getpipe_proc. apply dr_none.
  - assert (1 ≤ length (pqueue q))%nat as Hl by (destruct (pqueue q); [done|cbn; lia]).
    rewrite Hq2, length_drop. change (Z.to_nat 1) with 1%nat.
    assert (length (take 1 (pqueue q)) = 1%nat) as -> by (rewrite length_take; lia). clear Hq2. generalize (reach (physmem s) rootA 200 1). intros j. destruct (decide (j = 1%nat)); lia.
Qed.

(** The writer of a byte sleeps on a full pipe; while it does, process 1 reads. *)
Lemma sample_conversation m fl l bs s :
  uspace m fl rootA l 1 → (∀ i, 0 ≤ i < 1 → upa m rootA (200 + i) ≠ 0) → length bs = 1%nat → uread m rootA 100 1 = (0, bs) →
  pipe_user 0 sample_pipe_page rootA l 1 full_pipe s → c_intena (mycpu s) = false → c_noff (mycpu s) = 0 →
  p_killed (getproc 0 s) = 0 → physmem s = m →
  (∀ q, pipe_ok q → ∃ s', resumed 0 s' ∧ pipe_user 0 sample_pipe_page rootA l 1 q (woke 0 false s') ∧
      p_killed (getproc 0 (woke 0 false s')) = 0 ∧ physmem s' = m) →
  ∃ ys q', conversation 0 sample_pipe_page rootA 100 bs false 1 (pipewrite sample_pipe_page 100 1 s) 1 ys q'.
Proof.
  intros US Hacc Hbs Eu Hpu Hi Hn0 Hk0 Hm0 Hres.
  pose proof (λ sched, pipewrite_parts 0 sample_pipe_page rootA l 1 full_pipe s 100 1 sched Hpu Hn0 ltac:(lia) ltac:(lia)) as W.
  destruct (Hres empty_pipe empty_pipe_ok) as (s0 & R0 & Hpu0 & Hke & Hme).
  destruct (write_sleeps _ _ _ _ _ _ _ _ _ _ _ _ _ _ _ (W [s0] ltac:(cbn; lia)) Hpu Hi Hk0 eq_refl full_pipe_length R0 Hpu0 Hke eq_refl empty_pipe_room Hbs)
    as (s1 & k & s2 & E & (Hok & Hq & Hro & _) & _); [by rewrite Hm0|by rewrite Hme|]. rewrite app_nil_r in Hq.
  pose proof full_pipe_length as Hfl.
  destruct (sample_read m fl l (getpipe sample_pipe_page s1) US Hacc Hok) as (ys & q2 & Hd & Hok2 & Hro2 & Hlt).
  { rewrite Hq. by intros E0%(f_equal length). }
  rewrite Hq, Hfl in Hlt. destruct (Hres q2 Hok2) as (s' & R & Hpu2 & Hk2 & Hm2).
  destruct (write_sleeps _ _ _ _ _ _ _ _ _ _ _ _ bs _ _ (W [s'] ltac:(cbn; lia)) Hpu Hi Hk0 eq_refl full_pipe_length R Hpu2 Hk2)
    as (s1' & k' & s3 & E' & _ & E3 & _); [by rewrite Hro2, Hro|unfold PIPESIZE; lia|done|by rewrite Hm0|by rewrite Hm2|].
  rewrite E in E' |- *. injection E' as <- <-. eexists _, _.
  eapply (cv_round _ _ _ _ _ _ 0 s1 k ys q2 s' l 1); [exact Hd|exact R|exact Hpu2|exact Hk2|by rewrite Hbs, Hm2|].
  rewrite E3. apply cv_end, dr_none.
Qed.

Lemma pipe_transfer_witness :
  ∃ s ys q' bs, conversation 0 sample_pipe_page rootA 100 bs false 1 (pipewrite sample_pipe_page 100 1 s) 1 ys q' ∧
    ys ++ (u8 <$> pqueue q') = u8 <$> pqueue full_pipe ++ bs ∧ length bs = 1%nat.
Proof.
  destruct sample_sleeper as (m & fl & l & US & Hacc & bs & Hbs & Eu & Hpu & Hi & Hn0 & Hk0 & Hm0 & Hres). revert Hpu Hi Hn0 Hk0 Hm0.
  generalize (pipe_boot 0 full_pipe rootA m fl). intros s Hpu Hi Hn0 Hk0 Hm0.
  assert (∃ ys q', conversation 0 sample_pipe_page rootA 100 bs (c_intena (mycpu s)) 1 (pipewrite sample_pipe_page 100 1 s) 1 ys q') as (ys & q' & C).
  { rewrite Hi. apply (sample_conversation m fl l bs s); assumption. }
  exists s, ys, q', bs. split; [rewrite <- Hi; exact C|]. split; [|exact Hbs].
  rewrite <- Hm0, <- Hbs in Eu.
  apply (pipe_transfer 0 sample_pipe_page rootA l 1 full_pipe s 100 1 bs 1 1 ys q' Hpu Hn0 Hk0 eq_refl); [lia|lia|lia|exact Eu|lia|exact C].
Defined.
