(* ===== verification/File.v ===== *)
(** * kernel/file.c

    The table of open files and the operations on them, with [pipealloc] of
    kernel/pipe.c.  A [struct file *] is the file's index in [ftable]. *)

From S2P Require Import Prelude Machine Memory Kstring State Spinlock Kalloc Vm Sched Ring Uart.
From S2P Require Import Printf Proc Console Sleeplock Block Bio Log Fs Pipe.

Definition getfile (f : nat) (s : kernel) : file := files s !!! f.
Definition upd_file (f : nat) (g : file → file) (s : kernel) : kernel :=
  set_files (alter g f (files s)) s.
Definition ffield {A} (f : nat) (g : file → A) : K A := gets (λ s, g (getfile f s)).
Definition fset (f : nat) (g : file → file) : K unit := modify (upd_file f g).

(** The bytes of a [struct stat], with its padding. *)
Definition stat_bytes (st : stat) : list Z :=
  let l := replicate 24 0 in
  let l := put32 l 0 (st_dev st) in
  let l := put32 l 4 (st_ino st) in
  let l := put16 l 8 (st_type st) in
  let l := put16 l 10 (st_nlink st) in
  le_put 8 l 16 (st_size st).

Section file.
Context `{KernelLayout} `{BlockDriver}.

Definition fileinit : K unit := initlock LkFtable "ftable".

Definition filealloc_one (f : nat) : K (option nat) :=
  let! ref := ffield f f_ref in
  if ref =? 0 then fset f (set_f_ref 1) ;;; ret (Some f) else ret None.

Definition filealloc : K (option nat) :=
  acquire LkFtable ;;;
  let! r := for_find (seq 0 NFILE) filealloc_one in
  release LkFtable ;;;
  ret r.

Definition filedup (f : nat) : K nat :=
  acquire LkFtable ;;;
  let! ref := ffield f f_ref in
  if ref <? 1 then panic "filedup" else
  fset f (λ fl, set_f_ref (f_ref fl + 1) fl) ;;;
  release LkFtable ;;;
  ret f.

Definition fileclose (f : nat) : K unit :=
  acquire LkFtable ;;;
  let! ref := ffield f f_ref in
  if ref <? 1 then panic "fileclose" else
  fset f (λ fl, set_f_ref (f_ref fl - 1) fl) ;;;
  let! ff := gets (getfile f) in
  if f_ref ff >? 0 then release LkFtable else
  fset f (set_f_ref 0) ;;;
  fset f (set_f_type FD_NONE) ;;;
  release LkFtable ;;;
  match f_type ff with
  | FD_PIPE => pipeclose (f_pipe ff) (f_writable ff)
  | FD_INODE | FD_DEVICE =>
      begin_op ;;;
      let! ip := deref (f_ip ff) in
      iput ip ;;;
      end_op
  | FD_NONE => ret tt
  end.

Definition filestat (f : nat) (addr : Z) : K Z :=
  let! p := curproc in
  let! fl := gets (getfile f) in
  match f_type fl with
  | FD_INODE | FD_DEVICE =>
      let! ip := deref (f_ip fl) in
      ilock ip ;;;
      let! st := stati ip in
      iunlock ip ;;;
      let! pagetable := pget p p_pagetable in
      let! r := copyout pagetable addr (stat_bytes st) in
      if r <? 0 then ret (-1) else ret 0
  | _ => ret (-1)
  end.

(** [f->major < 0 || f->major >= NDEV || !devsw[f->major].read] *)
Definition devsw_entry (sw : list (option devfn)) (major : Z) : option devfn :=
  if (major <? 0) || (major >=? NDEV) then None else sw !!! Z.to_nat major.

Definition fileread (f : nat) (addr n : Z) : K Z :=
  let! fl := gets (getfile f) in
  if negb (f_readable fl) then ret (-1) else
  match f_type fl with
  | FD_PIPE => piperead (f_pipe fl) addr n
  | FD_DEVICE =>
      let! sw := gets devsw_read in
      match devsw_entry sw (f_major fl) with
      | None => ret (-1)
      | Some ConsoleDev => consoleread (DstUser addr) n
      end
  | FD_INODE =>
      let! ip := deref (f_ip fl) in
      ilock ip ;;;
      let! off := ffield f f_off in
      let! '(r, _) := readi ip (DstUser addr) off (u32 n) in
      let r := s32 r in
      when (r >? 0) (fset f (λ fl, set_f_off (u32 (f_off fl + r)) fl)) ;;;
      iunlock ip ;;;
      ret r
  | FD_NONE => panic "fileread"
  end.

(** One turn of the loop that writes a file; the variable is [i]. *)
Definition filewrite_step (f ip : nat) (addr n i : Z) : K (Z + Z) :=
  if i <? n then
    let max := (MAXOPBLOCKS - 1 - 1 - 2) / 2 * BSIZE in
    let n1 := n - i in
    let n1 := if n1 >? max then max else n1 in
    begin_op ;;;
    ilock ip ;;;
    let! off := ffield f f_off in
    let! r := writei ip (SrcUser (u64 (addr + i))) off n1 in
    when (r >? 0) (fset f (λ fl, set_f_off (u32 (f_off fl + r)) fl)) ;;;
    iunlock ip ;;;
    end_op ;;;
    if negb (r =? n1) then ret (inr i) else ret (inl (i + r))
  else ret (inr i).

Definition filewrite (f : nat) (addr n : Z) : K Z :=
  let! fl := gets (getfile f) in
  if negb (f_writable fl) then ret (-1) else
  match f_type fl with
  | FD_PIPE => pipewrite (f_pipe fl) addr n
  | FD_DEVICE =>
      let! sw := gets devsw_write in
      match devsw_entry sw (f_major fl) with
      | None => ret (-1)
      | Some ConsoleDev => consolewrite (SrcUser addr) n
      end
  | FD_INODE =>
      let! ip := deref (f_ip fl) in
      let! i := loop (filewrite_step f ip addr n) 0 in
      ret (if i =? n then n else -1)
  | FD_NONE => panic "filewrite"
  end.

(** ** pipealloc (kernel/pipe.c) *)

(** The label [bad]. *)
Definition pipealloc_bad (f0 f1 : option nat) : K (option (nat * nat)) :=
  match f0 with Some f => fileclose f | None => ret tt end ;;;
  match f1 with Some f => fileclose f | None => ret tt end ;;;
  ret None.

(** The result is the pair of files, or [None] for -1. *)
Definition pipealloc : K (option (nat * nat)) :=
  let! f0 := filealloc in
  match f0 with
  | None => pipealloc_bad None None
  | Some f0 =>
      let! f1 := filealloc in
      match f1 with
      | None => pipealloc_bad (Some f0) None
      | Some f1 =>
          let! pi := kalloc in
          if pi =? 0 then pipealloc_bad (Some f0) (Some f1) else
          let! junk := gets (λ s, ldbytes (physmem s) pi (Z.to_nat PIPESIZE)) in
          piset pi (λ _, mk_pipe junk 0 0 true true) ;;;
          initlock (LkPipe pi) "pipe" ;;;
          fset f0 (set_f_type FD_PIPE) ;;;
          fset f0 (set_f_readable true) ;;;
          fset f0 (set_f_writable false) ;;;
          fset f0 (set_f_pipe pi) ;;;
          fset f1 (set_f_type FD_PIPE) ;;;
          fset f1 (set_f_readable false) ;;;
          fset f1 (set_f_writable true) ;;;
          fset f1 (set_f_pipe pi) ;;;
          ret (Some (f0, f1))
      end
  end.
End file.
