(* ===== verification/Life.v ===== *)
(** * kernel/proc.c: the life of a process

    The first process, fork, exit and wait, and the way to user space
    (forkret, with usertrapret of kernel/trap.c). *)

From S2P Require Import Prelude Machine Memory Kstring State Spinlock Kalloc Vm Sched Ring Uart.
From S2P Require Import Printf Proc Console Sleeplock Block Bio Log Fs Dir Pipe File.

(** ** The trapframe (kernel/proc.h): offsets of its fields *)

Definition TF_kernel_satp : Z := 0.
Definition TF_kernel_sp : Z := 8.
Definition TF_kernel_trap : Z := 16.
Definition TF_epc : Z := 24.
Definition TF_kernel_hartid : Z := 32.
Definition TF_sp : Z := 48.
Definition TF_a0 : Z := 112.
Definition TF_a1 : Z := 120.
Definition TF_a2 : Z := 128.
Definition TF_a3 : Z := 136.
Definition TF_a4 : Z := 144.
Definition TF_a5 : Z := 152.
Definition TF_a7 : Z := 168.
Definition sizeof_trapframe : Z := 288.

(** [p->trapframe->field], read and written. *)
Definition tfget (p : nat) (field : Z) : K Z :=
  let! tf := pget p p_trapframe in
  load64 (tf + field).

Definition tfset (p : nat) (field v : Z) : K unit :=
  let! tf := pget p p_trapframe in
  store64 (tf + field) v.

(** The bytes of an [int]. *)
Definition int_bytes (x : Z) : list Z := le_put 4 (replicate 4 0) 0 x.

Definition initcode : list Z := [
  0x17; 0x05; 0x00; 0x00; 0x13; 0x05; 0x45; 0x02;
  0x97; 0x05; 0x00; 0x00; 0x93; 0x85; 0x35; 0x02;
  0x93; 0x08; 0x70; 0x00; 0x73; 0x00; 0x00; 0x00;
  0x93; 0x08; 0x20; 0x00; 0x73; 0x00; 0x00; 0x00;
  0xef; 0xf0; 0x9f; 0xff; 0x2f; 0x69; 0x6e; 0x69;
  0x74; 0x00; 0x00; 0x24; 0x00; 0x00; 0x00; 0x00;
  0x00; 0x00; 0x00; 0x00].

Section life.
Context `{KernelLayout} `{BlockDriver}.

Definition userinit : K unit :=
  let! p := allocproc in
  modify (set_initproc p) ;;;
  let! p := deref p in
  let! pagetable := pget p p_pagetable in
  uvminit pagetable initcode ;;;
  pset p (set_p_sz PGSIZE) ;;;
  tfset p TF_epc 0 ;;;
  tfset p TF_sp PGSIZE ;;;
  pset p (λ q, set_p_name (bytes_safestrcpy (p_name q) (bytes_of "initcode") 16) q) ;;;
  let! cwd := namei (bytes_of "/") in
  pset p (set_p_cwd cwd) ;;;
  pset p (set_p_state RUNNABLE) ;;;
  release (LkProc p).

(** [if(p->ofile[i]) np->ofile[i] = filedup(p->ofile[i]);] *)
Definition fork_ofile (p np : nat) (i : nat) : K unit :=
  let! ofile := pget p p_ofile in
  match ofile !!! i with
  | Some f =>
      let! f := filedup f in
      pset np (λ q, set_p_ofile (<[i := Some f]> (p_ofile q)) q)
  | None => ret tt
  end.

Definition fork : K Z :=
  let! p := curproc in
  let! np := allocproc in
  match np with
  | None => ret (-1)
  | Some np =>
      let! q := gets (getproc p) in
      let! npt := pget np p_pagetable in
      let! r := uvmcopy (p_pagetable q) npt (p_sz q) in
      if r <? 0 then
        freeproc np ;;;
        release (LkProc np) ;;;
        ret (-1)
      else
      pset np (set_p_sz (p_sz q)) ;;;
      let! tf := pget np p_trapframe in
      kmemmove tf (p_trapframe q) sizeof_trapframe ;;;
      tfset np TF_a0 0 ;;;
      for_each (seq 0 NOFILE) (fork_ofile p np) ;;;
      let! cwd := pget p p_cwd in
      let! cwd := deref cwd in
      let! cwd := idup cwd in
      pset np (set_p_cwd (Some cwd)) ;;;
      let! name := pget p p_name in
      pset np (λ q, set_p_name (bytes_safestrcpy (p_name q) name 16) q) ;;;
      let! mask := pget p p_trace_mask in
      pset np (set_p_trace_mask mask) ;;;
      let! pid := pget np p_pid in
      release (LkProc np) ;;;
      acquire LkWait ;;;
      pset np (set_p_parent (Some p)) ;;;
      release LkWait ;;;
      acquire (LkProc np) ;;;
      pset np (set_p_state RUNNABLE) ;;;
      release (LkProc np) ;;;
      ret pid
  end.

Definition reparent_one (p pp : nat) : K unit :=
  let! parent := pget pp p_parent in
  when (bool_decide (parent = Some p))
    (let! init := gets initproc in
     pset pp (set_p_parent init) ;;;
     wakeup (ChProc <$> init)).

Definition reparent (p : nat) : K unit := for_each (seq 0 NPROC) (reparent_one p).

Definition exit_file (p fd : nat) : K unit :=
  let! ofile := pget p p_ofile in
  match ofile !!! fd with
  | Some f =>
      fileclose f ;;;
      pset p (λ q, set_p_ofile (<[fd := None]> (p_ofile q)) q)
  | None => ret tt
  end.

Definition exit (status : Z) : K unit :=
  let! p := curproc in
  let! init := gets initproc in
  if bool_decide (Some p = init) then panic "init exiting" else
  for_each (seq 0 NOFILE) (exit_file p) ;;;
  begin_op ;;;
  let! cwd := pget p p_cwd in
  let! cwd := deref cwd in
  iput cwd ;;;
  end_op ;;;
  pset p (set_p_cwd None) ;;;
  acquire LkWait ;;;
  reparent p ;;;
  let! parent := pget p p_parent in
  wakeup (ChProc <$> parent) ;;;
  acquire (LkProc p) ;;;
  pset p (set_p_xstate status) ;;;
  pset p (set_p_state ZOMBIE) ;;;
  release LkWait ;;;
  sched ;;;
  panic "zombie exit".

(** The scan of [wait]: [inl] is a [return] inside it, [inr] the value of
    [havekids] at its end. *)
Fixpoint wait_scan (p : nat) (addr : Z) (l : list nat) (havekids : bool) : K (Z + bool) :=
  match l with
  | [] => ret (inr havekids)
  | np :: l' =>
      let! parent := pget np p_parent in
      if bool_decide (parent = Some p) then
        acquire (LkProc np) ;;;
        let! c := gets (getproc np) in
        if bool_decide (p_state c = ZOMBIE) then
          let pid := p_pid c in
          let! r :=
            (if negb (addr =? 0) then
               let! pagetable := pget p p_pagetable in
               copyout pagetable addr (int_bytes (p_xstate c))
             else ret 0) in
          if r <? 0 then
            release (LkProc np) ;;;
            release LkWait ;;;
            ret (inl (-1))
          else
            freeproc np ;;;
            release (LkProc np) ;;;
            release LkWait ;;;
            ret (inl pid)
        else
          release (LkProc np) ;;;
          wait_scan p addr l' true
      else wait_scan p addr l' havekids
  end.

Definition wait_step (p : nat) (addr : Z) (_ : unit) : K (unit + Z) :=
  let! r := wait_scan p addr (seq 0 NPROC) false in
  match r with
  | inl v => ret (inr v)
  | inr havekids =>
      let! killed := pget p p_killed in
      if negb havekids || negb (killed =? 0) then
        release LkWait ;;;
        ret (inr (-1))
      else
        sleep (ChProc p) LkWait ;;;
        ret (inl tt)
  end.

Definition wait (addr : Z) : K Z :=
  let! p := curproc in
  acquire LkWait ;;;
  loop (wait_step p addr) tt.

(** ** To user space *)

(** [usertrapret] of kernel/trap.c: the answer is the address jumped to and
    the two arguments it is given. *)
Definition usertrapret : K (Z * Z * Z) :=
  let! p := curproc in
  intr_off ;;;
  modify (upd_csr (set_stvec (TRAMPOLINE + (uservec_addr - trampoline)))) ;;;
  let! c := gets csr in
  tfset p TF_kernel_satp (satp c) ;;;
  let! kstack := pget p p_kstack in
  tfset p TF_kernel_sp (kstack + PGSIZE) ;;;
  tfset p TF_kernel_trap usertrap_addr ;;;
  let! id := gets tp in
  tfset p TF_kernel_hartid (Z.of_nat id) ;;;
  modify (upd_csr (set_spp false)) ;;;
  modify (upd_csr (set_spie true)) ;;;
  let! epc := tfget p TF_epc in
  modify (upd_csr (set_sepc epc)) ;;;
  let! pagetable := pget p p_pagetable in
  let satp := MAKE_SATP pagetable in
  let fn := TRAMPOLINE + (userret_addr - trampoline) in
  ret (fn, TRAPFRAME, satp).

Definition forkret : K (Z * Z * Z) :=
  let! p := curproc in
  release (LkProc p) ;;;
  let! first := gets forkret_first in
  when first
    (modify (set_forkret_first false) ;;;
     fsinit ROOTDEV) ;;;
  usertrapret.
End life.
