(* ===== verification/ForkSpec.v ===== *)
(** * Creating processes (kernel/proc.c)

    [allocproc] takes a free entry of the process table and gives it a
    trapframe and an address space, or leaves no trace; [freeproc] undoes it;
    [fork] makes a copy of the calling process. *)

From S2P Require Import Prelude Machine Memory Kstring State Spinlock Kalloc Vm VmTables VmMap VmSpace VmFree Sched Runs Proc AllocSpec.
From S2P Require Import VmCopy VmSpec Sleeplock Block Bio Log Fs Itable Dir Pipe File Life.

(** The state with the entry [np] of the process table, the memory and the next
    pid replaced. *)
Definition child (s : kernel) (np : nat) (q : proc) (m : mem) (fl pid : Z) : kernel :=
  set_procs (<[np := q]> (procs s)) (set_nextpid pid (with_mem s m fl)).

Lemma child_pset s np q m fl pid g :
  (np < length (procs s))%nat → pset np g (child s np q m fl pid) = Ret tt (child s np (g q) m fl pid).
Proof.
  intros Hn. unfold pset, modify, upd_proc, child. kred.
  rewrite (alter_at g np _ q) by (by apply list_lookup_insert_eq). by rewrite list_insert_insert_eq.
Qed.

Lemma child_get s np q m fl pid : (np < length (procs s))%nat → getproc np (child s np q m fl pid) = q.
Proof. intros Hn. unfold getproc, child. kred. by apply list_lookup_total_insert_eq. Qed.

Lemma child_other s np q m fl pid p : p ≠ np → getproc p (child s np q m fl pid) = getproc p s.
Proof. intros Hn. unfold getproc, child. kred. by apply list_lookup_total_insert_ne. Qed.

Lemma child_pget {A B} s np q m fl pid (f : proc → A) (k : A → K B) :
  (np < length (procs s))%nat → bind (pget np f) k (child s np q m fl pid) = k (f q) (child s np q m fl pid).
Proof. intros Hn. unfold bind, pget, gets. cbn [obind]. by rewrite child_get. Qed.

Lemma child_pget_other {A B} s np q m fl pid p (f : proc → A) (k : A → K B) :
  p ≠ np → bind (pget p f) k (child s np q m fl pid) = k (f (getproc p s)) (child s np q m fl pid).
Proof. intros Hn. unfold bind, pget, gets. cbn [obind]. by rewrite child_other. Qed.

Lemma child_bind_pset {B} s np q m fl pid g (k : unit → K B) :
  (np < length (procs s))%nat → bind (pset np g) k (child s np q m fl pid) = k tt (child s np (g q) m fl pid).
Proof. intros Hn. by run (child_pset s np q m fl pid g Hn). Qed.

Lemma child_self s np q n : procs s !! np = Some q → set_nextpid n s = child s np q (physmem s) (freelist s) n.
Proof. intros Hq. unfold child. rewrite list_insert_id by done. by destruct s. Qed.

Lemma child_with_mem s np q m fl pid m' fl' : with_mem (child s np q m fl pid) m' fl' = child s np q m' fl' pid.
Proof. done. Qed.

Lemma child_physmem s np q m fl pid : physmem (child s np q m fl pid) = m.
Proof. done. Qed.

Lemma child_freelist s np q m fl pid : freelist (child s np q m fl pid) = fl.
Proof. done. Qed.

Section alloc.
Context `{LayoutOk}.

(** ** freeproc *)

(** What [freeproc] makes of an entry. *)
Definition freed_entry (q : proc) : proc :=
  mk_proc UNUSED None 0 0 0 None (p_kstack q) 0 0 0 (p_context q) (p_ofile q) (p_cwd q) (<[0%nat := 0]> (p_name q)) 0.

Lemma freeproc_eq s np q m fl pid m1 fl1 m2 fl2 :
  (np < length (procs s))%nat →
  when (negb (p_trapframe q =? 0)) (kfree (p_trapframe q)) (child s np q m fl pid) = Ret tt (child s np q m1 fl1 pid) →
  when (negb (p_pagetable q =? 0)) (proc_freepagetable (p_pagetable q) (p_sz q))
    (child s np (set_p_trapframe 0 q) m1 fl1 pid) = Ret tt (child s np (set_p_trapframe 0 q) m2 fl2 pid) →
  freeproc np (child s np q m fl pid) = Ret tt (child s np (freed_entry q) m2 fl2 pid).
Proof.
  intros Hn E1 E2. unfold freeproc. rewrite child_pget by done. run E1.
  rewrite child_bind_pset by done. unfold bind at 1, gets. cbn [obind]. rewrite child_get by done.
  run E2. by rewrite !child_bind_pset, child_pset by done.
Qed.

(** ** allocproc *)

Lemma for_find_unused s ps qs k :
  hart_ok s → locks_free s → procs s = qs ++ ps → length qs = k → (k + length ps = NPROC)%nat →
  for_find (seq k (length ps)) find_unused s =
    match list_find (λ q, p_state q = UNUSED) ps with
    | Some (i, _) => Ret (Some (k + i)%nat) (enter (LkProc (k + i)) s)
    | None => Ret None s
    end.
Proof.
  intros Hh Hl. revert qs k. induction ps as [|q ps IH]; intros qs k Hp Hk Hn; [done|].
  cbn [length seq for_find list_find]. assert (procs s !! k = Some q) as Hq by (rewrite Hp; subst k; apply list_lookup_middle; done).
  cbn [length] in Hn.
  assert (find_unused k s = if decide (p_state q = UNUSED) then Ret (Some k) (enter (LkProc k) s) else Ret None s) as E.
  { unfold find_unused. rewrite (bind_Ret _ _ _ tt (enter (LkProc k) s)) by (apply acquire_ok; [done|apply Hl; lia]).
    unfold bind at 1, pget, gets. cbn [obind]. change (getproc k (enter (LkProc k) s)) with (getproc k s).
    rewrite (getproc_lookup s k q Hq). destruct (decide (p_state q = UNUSED)) as [Eu|Eu].
    - by rewrite bool_decide_eq_true_2.
    - rewrite bool_decide_eq_false_2 by done.
      run (release_enter s (enter (LkProc k) s) _ Hh (Hl k ltac:(lia)) eq_refl eq_refl eq_refl).
      fold (unlocked s (enter (LkProc k) s)). by rewrite unlocked_enter. }
  destruct (decide (p_state q = UNUSED)) as [Eu|Eu]; run E.
  - by rewrite Nat.add_0_r.
  - rewrite (IH (qs ++ [q]) (S k)); [|by rewrite <- app_assoc|rewrite length_app; cbn; lia|lia].
    destruct (list_find _ ps) as [[i q']|]; cbn; [|done]. by rewrite Nat.add_succ_r.
Qed.

Lemma allocpid_eq s :
  hart_ok s → lock_free s LkPid → allocpid s = Ret (nextpid s) (set_nextpid (s32 (nextpid s + 1)) s).
Proof.
  intros Hh Hl. unfold allocpid. rewrite (bind_Ret _ _ _ tt (enter LkPid s)) by by apply acquire_ok.
  unfold bind at 1, gets. cbn [obind]. unfold bind, modify. cbn [obind].
  rewrite (release_enter s) by first [assumption|kfield]. by destruct s.
Qed.

(** A new process: its entry, and where its pages came from. *)
Definition newborn (pid tf root : Z) (q : proc) : proc :=
  mk_proc USED (p_chan q) (p_killed q) (p_xstate q) pid (p_parent q) (p_kstack q) (p_sz q) root tf
    (mk_context forkret_addr (p_kstack q + PGSIZE) (replicate 12 0)) (p_ofile q) (p_cwd q) (p_name q) 0.

Record birth (m m' : mem) (fl' root tf : Z) (l l' : list Z) : Prop := {
  bi_root : root ≠ 0;
  bi_tf : tf ≠ 0 ∧ valid_page tf;
  bi_space : space m' fl' root l' 0 tf;
  bi_pages : ∃ l1, l = tf :: l1 ∧ built (kalloc_mem m tf) m' root l1 l';
  bi_count : (length l ≤ length l' + 6)%nat
}.

(** Giving the trapframe page back to what is left of the free pages. *)
Lemma kfree_restored s m tf l1 m1 fl1 :
  hart_ok s → lock_free s LkKmem → free_list m tf (tf :: l1) →
  physmem s = m1 → freelist s = fl1 → restored (kalloc_mem m tf) m1 fl1 l1 →
  ∃ m2 fl2, kfree tf s = Ret tt (with_mem s m2 fl2) ∧ restored m m2 fl2 (tf :: l1).
Proof.
  intros Hh Hk Hf <- <- (l' & Hf' & Hp & Hm). destruct (free_list_cons _ _ _ _ Hf) as (_ & _ & Hv & Hn).
  eexists _, _. split; [by apply kfree_eq|]. exists (tf :: l'). split; [|split].
  - apply kfree_free_list; [done|done|]. by rewrite Hp.
  - by rewrite Hp.
  - intros x Hx. rewrite ld_kfree_mem; [|intros Hin; by apply (Hx tf); [left|]].
    rewrite Hm by (intros q Hq; apply Hx; by right). rewrite ld_kalloc_mem, decide_False; [done|]. apply Hx. by left.
Qed.

(** What [allocproc_found] does with the entry [np], whose lock is held. *)
Definition born (s : kernel) (np : nat) (q : proc) (l : list Z) (r : outcome kernel (option nat)) : Prop :=
  let npid := s32 (nextpid s + 1) in
  (∃ tf root m' fl' l', r = Ret (Some np) (child (enter (LkProc np) s) np (newborn (nextpid s) tf root q) m' fl' npid) ∧
     birth (physmem s) m' fl' root tf l l') ∨
  (∃ m' fl', r = Ret None (child s np (freed_entry q) m' fl' npid) ∧ restored (physmem s) m' fl' l ∧ (length l < 6)%nat).

Lemma release_child k s np q m fl pid :
  hart_ok s → lock_free s k →
  release k (child (enter k s) np q m fl pid) = Ret tt (child s np q m fl pid).
Proof. intros Hh Hl. rewrite (release_enter s) by first [assumption|kfield]. by destruct s. Qed.

Lemma allocproc_found_eq s np q l :
  hart_ok s → lock_free s (LkProc np) → lock_free s LkKmem → lock_free s LkPid →
  procs s !! np = Some q → p_pagetable q = 0 → free_pages s l →
  born s np q l (allocproc_found np (enter (LkProc np) s)).
Proof.
  intros Hh Hlp Hk Hi Hq Hpt Hf. pose proof (lookup_lt_Some _ _ _ Hq) as Hn. set (s1 := enter (LkProc np) s).
  assert (hart_ok s1) as Hh1 by by apply hart_ok_enter.
  assert (lock_free s1 LkKmem) as Hk1 by by apply lock_free_enter.
  assert (lock_free s1 LkPid) as Hi1 by by apply lock_free_enter.
  unfold born, allocproc_found. run (allocpid_eq s1 Hh1 Hi1).
  rewrite (child_self s1 np q _ Hq). change (nextpid s1) with (nextpid s). change (physmem s1) with (physmem s). change (freelist s1) with (freelist s).
  set (npid := s32 (nextpid s + 1)). rewrite !child_bind_pset by done.
  set (q1 := set_p_state USED (set_p_pid (nextpid s) q)).
  destruct (kalloc_cases (child s1 np q1 (physmem s) (freelist s) npid) l Hh1 Hk1 Hf) as [[-> E]|(tf & l1 & -> & Efl & Htf & E)];
    run E; clear E.
  { right. exists (physmem s), (freelist s). split; [|split; [by apply restored_refl|cbn; lia]]. rewrite child_bind_pset by done. rewrite Z.eqb_refl.
    run (freeproc_eq s1 np (set_p_trapframe 0 q1) _ _ npid _ _ (physmem s) (freelist s) Hn eq_refl
      ltac:(cbn; by rewrite Hpt)).
    by run (release_child _ s np _ _ _ _ Hh Hlp). }
  rewrite child_with_mem, child_bind_pset by done. rewrite (proj2 (Z.eqb_neq _ _) Htf).
  cbn in Efl. unfold free_pages in Hf. rewrite Efl in Hf. destruct (free_list_cons _ _ _ _ Hf) as (_ & _ & Hv & Hnin).
  pose proof (kalloc_free_list _ _ _ Hf) as Hf1. cbn [physmem child set_procs set_nextpid with_mem set_freelist set_physmem].
  set (q2 := set_p_trapframe tf q1). set (s2 := child s1 np q2 _ _ npid).
  destruct (proc_pagetable_eq s2 l1 np tf Hh1 Hk1 Hf1) as (root & m' & fl' & E & R).
  { unfold s2. by rewrite child_get. }
  { apply valid_page_range in Hv. lia. }
  { apply valid_page_range in Hv. unfold PHYSTOP, KERNBASE in Hv. lia. }
  run E. unfold s2. rewrite child_with_mem, child_bind_pset by done.
  destruct R as [(Hr & l' & Sp & B & C)|(-> & R & C)].
  - left. exists tf, root, m', fl', l'. rewrite (proj2 (Z.eqb_neq _ _) Hr). rewrite !child_bind_pset by done.
    split; [done|]. split; [done|done|done|by exists l1|cbn; lia].
  - right. cbn [Z.eqb]. set (q3 := set_p_pagetable 0 q2).
    destruct (kfree_restored (child s1 np q3 m' fl' npid) (physmem s) tf l1 m' fl' Hh1 Hk1 Hf eq_refl eq_refl R) as (m2 & fl2 & Ek & R2).
    exists m2, fl2. split; [|split; [done|cbn; lia]].
    run (freeproc_eq s1 np q3 m' fl' npid m2 fl2 m2 fl2 Hn
      ltac:(cbn; rewrite (proj2 (Z.eqb_neq _ _) Htf); exact Ek) eq_refl).
    by run (release_child _ s np _ _ _ _ Hh Hlp).
Qed.

Lemma allocproc_eq s l :
  hart_ok s → locks_free s → lock_free s LkKmem → lock_free s LkPid → length (procs s) = NPROC →
  (∀ q, q ∈ procs s → p_state q = UNUSED → p_pagetable q = 0) → free_pages s l →
  match list_find (λ q, p_state q = UNUSED) (procs s) with
  | Some (np, q) => born s np q l (allocproc s)
  | None => allocproc s = Ret None s
  end.
Proof.
  intros Hh Hl Hk Hi Hn Hu Hf. unfold allocproc.
  pose proof (for_find_unused s (procs s) [] 0 Hh Hl eq_refl eq_refl Hn) as E. rewrite Hn in E.
  destruct (list_find (λ q, p_state q = UNUSED) (procs s)) as [[np q]|] eqn:Ef; run E; [|done].
  apply list_find_Some in Ef as (Hq & Hs & _). cbn [Nat.add]. apply allocproc_found_eq; try done.
  - apply Hl. rewrite <- Hn. by eapply lookup_lt_Some.
  - apply Hu; [by eapply list_elem_of_lookup_2|done].
Qed.

(** ** The memory of the child *)

Lemma off_table m fl root l x : vm_inv m fl root l → in_table m root x → off_pages l x.
Proof.
  intros I Hx q Hq Hin. by apply (free_not_table m fl root l q x I Hq).
Qed.

(** An address space none of whose pages is touched. *)
Lemma uvm_elsewhere m fl root l n m1 fl1 l1 :
  uvm m fl root l n → free_list m1 fl1 l1 → (∀ q, q ∈ l1 → q ∈ l) → (∀ x, off_pages l x → ld m1 x = ld m x) →
  uvm m1 fl1 root l1 n ∧ (∀ va, leaf m1 root va = leaf m root va) ∧
  (∀ q, is_table m1 root q → is_table m root q) ∧
  (∀ va, 0 ≤ va < Z.of_nat n * PGSIZE → uview m1 root va = uview m root va).
Proof.
  intros U Hf Hs Hm. pose proof (u_inv _ _ _ _ _ U) as I.
  assert (∀ x, in_table m root x → ld m1 x = ld m x) as Ht by (intros x Hx; apply Hm; by eapply off_table).
  assert (∀ p, path_ok p → tbl m1 root p = tbl m root p) as E.
  { intros p Hp. apply tbl_ext; [done|]. intros q t x Hq' _ Et Hx. apply Ht. by exists q, t. }
  assert (∀ va, leaf m1 root va = leaf m root va) as L by (intros va; by apply leaf_ext).
  split_and!; [|done| |].
  - apply (uvm_same m m1 fl fl1 root l l1); try done.
    + split; [done| |].
      * apply pt_wf_ext with m; [apply I|]. intros q t x Hq' _ Et Hx. apply Ht. by exists q, t.
      * intros p t Hp. rewrite E by done. intros Et Hin. by apply (vm_disj _ _ _ _ I p t Hp Et), Hs.
    + intros p t Hp. rewrite E by done. by left.
  - intros q (p & Hp & Et). exists p. by rewrite <- E.
  - intros va Hva. unfold uview. rewrite L. apply Hm. pose proof (u_size _ _ _ _ _ U) as Hsz.
    assert (PTE2PA (leaf m root va) ∈ upages m root 0 n) as Hin by (apply elem_upages; mlia).
    pose proof (Forall_elem _ _ _ (ow_valid _ _ _ _ _ (u_owned _ _ _ _ _ U)) Hin) as [Hal _].
    intros q Hq Hx. pose proof (free_list_valid _ _ _ q (vm_free _ _ _ _ I) Hq) as [Hqa _].
    apply (page_disjoint q (PTE2PA (leaf m root va)) (PTE2PA (leaf m root va) + va mod PGSIZE) (PTE2PA (leaf m root va) + va mod PGSIZE)); try done; [|mlia].
    intros ->. by apply (ow_free _ _ _ _ _ (u_owned _ _ _ _ _ U) _ Hin).
Qed.

Section copy.
Context (m : mem) (fl old : Z) (l : list Z) (n : nat) (U : uvm m fl old l n).
Context (m1 : mem) (fl1 root tf : Z) (l' : list Z) (B : birth m m1 fl1 root tf l l').

Lemma birth_sub q : q ∈ l' ∨ is_table m1 root q → q ∈ l ∧ q ≠ tf.
Proof using B U.
  destruct B as [_ _ _ (l1 & -> & [T S _ _]) _]. pose proof (u_inv _ _ _ _ _ U) as I.
  destruct (vm_free _ _ _ _ I) as (_ & Hd & _). apply NoDup_cons in Hd as [Hn _].
  intros [Hq|Hq]; [apply S in Hq|apply T in Hq]; (split; [by right|by intros ->]).
Qed.

Lemma birth_mem x : off_pages l x → ld m1 x = ld m x.
Proof using B U.
  destruct B as [_ _ _ (l1 & -> & [_ _ _ M]) _]. intros Hx. rewrite M by (intros q Hq; apply Hx; by right).
  rewrite ld_kalloc_mem, decide_False; [done|]. apply Hx. by left.
Qed.

Lemma birth_old :
  uvm m1 fl1 old l' n ∧ (∀ va, leaf m1 old va = leaf m old va) ∧
  (∀ q, is_table m1 old q → is_table m old q) ∧
  (∀ va, 0 ≤ va < Z.of_nat n * PGSIZE → uview m1 old va = uview m old va).
Proof using B U.
  apply (uvm_elsewhere m fl old l n m1 fl1 l' U); [apply (bi_space _ _ _ _ _ _ _ B)| |apply birth_mem].
  intros q Hq. apply birth_sub. by left.
Qed.

Lemma birth_apart : apart m1 fl1 old root l' n.
Proof using B U.
  destruct birth_old as (U1 & L1 & T1 & _). split; [done| |].
  - intros q Hq%T1 Hr. destruct Hq as (p & Hp & Et). apply (vm_disj _ _ _ _ (u_inv _ _ _ _ _ U) p q Hp Et).
    apply birth_sub. by right.
  - intros q Hq Hr. rewrite (upages_ext m m1) in Hq by (intros; apply L1).
    apply (ow_free _ _ _ _ _ (u_owned _ _ _ _ _ U) q Hq). apply birth_sub. by right.
Qed.

(** What [uvmcopy] leaves: memory outside the free pages as it was, and in the
    new address space a copy of the old one, or nothing. *)
Record copied_space (m2 : mem) (fl2 : Z) (l2 : list Z) : Prop := {
  co_space : space m2 fl2 root l2 n tf;
  co_view : ∀ va, 0 ≤ va < Z.of_nat n * PGSIZE →
    uview m2 root va = uview m old va ∧ PTE_FLAGS (leaf m2 root va) = PTE_FLAGS (leaf m old va);
  co_sub : ∀ q, q ∈ l2 → q ∈ l;
  co_tf : tf ∉ l2 ∧ ¬ is_table m2 root tf ∧ tf ∉ upages m2 root 0 n
}.

Lemma copy_child s sz :
  hart_ok s → lock_free s LkKmem → physmem s = m1 → freelist s = fl1 → 0 ≤ sz ≤ TRAPFRAME → n = pgs sz →
  ∃ r m2 fl2 l2, uvmcopy old root sz s = Ret r (with_mem s m2 fl2) ∧ (∀ x, off_pages l x → ld m2 x = ld m x) ∧
    ((r = 0 ∧ copied_space m2 fl2 l2) ∨
     (r = -1 ∧ space m2 fl2 root l2 0 tf ∧ (length l < 3 * n + 6)%nat ∧
      ∃ l1, l = tf :: l1 ∧ built (kalloc_mem m tf) m2 root l1 l2)).
Proof using All.
  intros Hh Hk Em Ef Hsz En. pose proof (bi_space _ _ _ _ _ _ _ B) as [U0 LT LF].
  destruct (uvmcopy_eq s old root l' sz Hh Hk Hsz) as (r & m2 & fl2 & l2 & E & R).
  { rewrite Em, Ef, <- En. apply birth_apart. }
  { by rewrite Em, Ef. }
  rewrite Em, <- En in R.
  assert (evolves m1 m2 root l' l2) as V by (destruct R as [[_ G]|(_ & G & _)]; apply G).
  assert (∀ x, off_pages l x → ld m2 x = ld m x) as Hm.
  { intros x Hx. rewrite (ev_mem _ _ _ _ _ V); [by apply birth_mem| |].
    - intros (p & t & Hp & Et & Hin). apply (Hx t); [|done]. apply birth_sub. right. by exists p.
    - intros q Hq. apply Hx. apply birth_sub. by left. }
  exists r, m2, fl2, l2. split; [done|]. split; [done|].
  assert (∀ k perm content, growing m1 root l' 0 perm content m2 fl2 l2 k → space m2 fl2 root l2 k tf) as Hsp.
  { intros k perm content G. split; [apply G| |]; rewrite (gr_old _ _ _ _ _ _ _ _ _ _ G); (done || by right). }
  destruct R as [[-> G]|(-> & G & Hlen)]; [left|right]; (split; [done|]).
  - destruct (growing_view _ _ _ _ _ _ _ _ _ _ _ U0 G) as [_ Vw]. destruct birth_old as (U1 & L1 & _ & V1). split.
    + by eapply Hsp.
    + intros va Hva. destruct (Vw va ltac:(lia)) as [-> ->]. pose proof (u_size _ _ _ _ _ U) as Hmax.
      assert (Z.of_nat (Z.to_nat (va / PGSIZE)) = va / PGSIZE) as Ei by (apply Z2Nat.id; mlia).
      destruct (uview_page m1 old (Z.to_nat (va / PGSIZE)) va) as [E1 E2]; [mlia|mlia|]. rewrite <- E1. split.
      * rewrite E1, <- E2. by apply V1.
      * rewrite PTE_FLAGS_V; [by rewrite L1|]. rewrite E1. apply (u_mapped _ _ _ _ _ U1 (Z.to_nat (va / PGSIZE))). mlia.
    + intros q Hq%(ev_sub _ _ _ _ _ V). apply birth_sub. by left.
    + split_and!.
      * intros Hq%(ev_sub _ _ _ _ _ V). by destruct (birth_sub tf (or_introl Hq)) as [_ ?].
      * intros (p & Hp & Et). destruct (ev_new _ _ _ _ _ V p tf Hp Et) as [Et'|Hq].
        -- by destruct (birth_sub tf) as [_ ?]; [right; exists p|].
        -- by destruct (birth_sub tf (or_introl Hq)) as [_ ?].
      * intros Hq. pose proof (gr_own _ _ _ _ _ _ _ _ _ _ G tf) as Ho. rewrite Nat.sub_0_r in Ho. specialize (Ho Hq).
        by destruct (birth_sub tf (or_introl Ho)) as [_ ?].
  - split; [by eapply Hsp|]. split; [pose proof (bi_count _ _ _ _ _ _ _ B); lia|]. destruct B as [_ _ _ (l1 & El & Bu) Hc]. exists l1. split; [done|].
    apply (built_evolves _ _ _ _ _ _ _ Bu V). by eapply growing_no_leak.
Qed.
End copy.

(** Writing to the trapframe page changes nothing the child maps. *)
Lemma space_tf m fl root l n tf m' :
  space m fl root l n tf → valid_page tf → tf ∉ l → ¬ is_table m root tf → tf ∉ upages m root 0 n →
  (∀ x, ¬ (tf ≤ x < tf + PGSIZE) → ld m' x = ld m x) →
  space m' fl root l n tf ∧ ∀ va, 0 ≤ va < Z.of_nat n * PGSIZE → leaf m' root va = leaf m root va ∧ uview m' root va = uview m root va.
Proof.
  intros [U LT LF] [Ha _] Hl Ht Hu Hm. pose proof (u_inv _ _ _ _ _ U) as I.
  assert (∀ q x, q mod PGSIZE = 0 → q ≠ tf → q ≤ x < q + PGSIZE → ld m' x = ld m x) as Hq.
  { intros q x Hqa Hne Hx. apply Hm. intros Hin. by apply (page_disjoint q tf x x). }
  destruct (vm_ext m m' fl root l I) as (I' & T & L).
  { intros x (p & t & Hp & Et & Hin). apply (Hq t); [|intros ->; apply Ht; by exists p|done].
    apply (wf_page _ _ (vm_wf _ _ _ _ I) p t Hp Et). }
  { intros q x Hql Hx. apply (Hq q); [|by intros ->|done]. by destruct (free_list_valid _ _ _ _ (vm_free _ _ _ _ I) Hql). }
  split.
  - split; [|by rewrite L|by rewrite L]. apply (uvm_same m m' fl fl root l l); try done. intros p t Hp. rewrite T by done. by left.
  - intros va Hva. split; [apply L|]. unfold uview. rewrite L. pose proof (u_size _ _ _ _ _ U) as Hsz.
    assert (PTE2PA (leaf m root va) ∈ upages m root 0 n) as Hin by (apply elem_upages; mlia).
    apply (Hq (PTE2PA (leaf m root va))); [|by intros E; rewrite E in Hin|mlia].
    by destruct (Forall_elem _ _ _ (ow_valid _ _ _ _ _ (u_owned _ _ _ _ _ U)) Hin).
Qed.

(** ** Open files *)

Definition dup_file (fs : list file) (o : option nat) : list file :=
  match o with Some f => alter (λ x, set_f_ref (f_ref x + 1) x) f fs | None => fs end.

Lemma filedup_eq s f :
  hart_ok s → lock_free s LkFtable → 1 ≤ f_ref (getfile f s) →
  filedup f s = Ret f (set_files (dup_file (files s) (Some f)) s).
Proof.
  intros Hh Hl Hr. unfold filedup. rewrite (bind_Ret _ _ _ tt (enter LkFtable s)) by by apply acquire_ok.
  unfold bind at 1, ffield, gets. cbn [obind]. change (getfile f (enter LkFtable s)) with (getfile f s).
  rewrite (proj2 (Z.ltb_ge _ _)) by done. unfold bind, fset, modify. cbn [obind].
  rewrite (release_enter s) by first [assumption|kfield]. by destruct s.
Qed.

(** Every open file has been counted. *)
Definition files_ok (fs : list file) (os : list (option nat)) : Prop := ∀ f, Some f ∈ os → 1 ≤ f_ref (fs !!! f).

Lemma files_ok_dup fs o os : files_ok fs os → files_ok (dup_file fs o) os.
Proof.
  intros Hf f Hin. specialize (Hf f Hin). destruct o as [g|]; cbn; [|done]. destruct (decide (f = g)) as [->|Hne].
  - rewrite list_lookup_total_alt, list_lookup_alter_eq. rewrite list_lookup_total_alt in Hf. destruct (fs !! g); cbn in *; lia.
  - rewrite list_lookup_total_alt, list_lookup_alter_ne by done. by rewrite <- list_lookup_total_alt.
Qed.

Lemma fork_files p np parent q s m fl pid pre rest fs :
  hart_ok s → lock_free s LkFtable → (np < length (procs s))%nat → p ≠ np → getproc p s = parent →
  p_ofile parent = pre ++ rest → files_ok fs (p_ofile parent) →
  for_each (seq (length pre) (length rest)) (fork_ofile p np)
    (child (set_files fs s) np (set_p_ofile (pre ++ replicate (length rest) None) q) m fl pid) =
  Ret tt (child (set_files (foldl dup_file fs rest) s) np (set_p_ofile (p_ofile parent) q) m fl pid).
Proof.
  intros Hh Hl Hn Hne Ep. revert pre fs. induction rest as [|o rest IH]; intros pre fs Eo Hf; cbn [length seq for_each foldl].
  { cbn [replicate]. by rewrite Eo. }
  assert (∀ fs, files_ok fs (p_ofile parent) → for_each (seq (S (length pre)) (length rest)) (fork_ofile p np)
    (child (set_files fs s) np (set_p_ofile (pre ++ o :: replicate (length rest) None) q) m fl pid) =
    Ret tt (child (set_files (foldl dup_file fs rest) s) np (set_p_ofile (p_ofile parent) q) m fl pid)) as IH'.
  { intros fs' Hf'. specialize (IH (pre ++ [o]) fs'). rewrite length_app, <- !app_assoc in IH. cbn [length app] in IH.
    rewrite Nat.add_1_r in IH. by apply IH. }
  clear IH. cbn [replicate]. set (q1 := set_p_ofile (pre ++ None :: replicate (length rest) None) q).
  assert (p_ofile parent !!! length pre = o) as Elk.
  { rewrite Eo. apply list_lookup_total_correct. by rewrite list_lookup_middle. }
  assert (getproc p (child (set_files fs s) np q1 m fl pid) = parent) as Eg by (rewrite child_other by done; exact Ep).
  destruct o as [f|].
  - assert (1 ≤ f_ref (fs !!! f)) as Hr by (apply Hf; rewrite Eo; set_solver).
    assert (fork_ofile p np (length pre) (child (set_files fs s) np q1 m fl pid) =
      Ret tt (child (set_files (dup_file fs (Some f)) s) np (set_p_ofile (pre ++ Some f :: replicate (length rest) None) q) m fl pid)) as E.
    { unfold fork_ofile, bind at 1, pget, gets. cbn [obind]. rewrite Eg, Elk.
      run (filedup_eq (child (set_files fs s) np q1 m fl pid) f Hh Hl Hr).
      change (set_files (dup_file (files (child (set_files fs s) np q1 m fl pid)) (Some f)) (child (set_files fs s) np q1 m fl pid))
        with (child (set_files (dup_file fs (Some f)) s) np q1 m fl pid).
      rewrite child_pset by done. unfold q1. cbn. by rewrite insert_app_r_alt, Nat.sub_diag by done. }
    run E. apply IH'. by apply files_ok_dup.
  - assert (fork_ofile p np (length pre) (child (set_files fs s) np q1 m fl pid) = Ret tt (child (set_files fs s) np q1 m fl pid)) as E.
    { unfold fork_ofile, bind, pget, gets. cbn [obind]. by rewrite Eg, Elk. }
    run E. by apply IH'.
Qed.

(** ** fork *)

Lemma child_kmemmove s np q m fl pid d a n :
  kmemmove d a n (child s np q m fl pid) = Ret tt (child s np q (memmove m d a n) fl pid).
Proof. done. Qed.

Lemma child_tfset s np q m fl pid field v :
  (np < length (procs s))%nat →
  tfset np field v (child s np q m fl pid) = Ret tt (child s np q (st64 m (p_trapframe q + field) v) fl pid).
Proof. intros Hn. unfold tfset. by rewrite child_pget. Qed.

(** An assignment to a field of the child in a critical section. *)
Lemma child_section {B} k g s np q m fl pid (c : K B) :
  hart_ok s → lock_free s k → (np < length (procs s))%nat →
  (acquire k ;;; pset np g ;;; release k ;;; c) (child s np q m fl pid) = c (child s np (g q) m fl pid).
Proof.
  intros Hh Hl Hn. rewrite (bind_Ret _ _ _ tt (enter k (child s np q m fl pid))) by by apply acquire_ok.
  change (enter k (child s np q m fl pid)) with (child (enter k s) np q m fl pid).
  rewrite child_bind_pset by done. by run (release_child k s np (g q) m fl pid Hh Hl).
Qed.

Lemma space_kfree m fl root l n tf :
  space m fl root l n tf → valid_page tf → tf ∉ l → ¬ is_table m root tf → tf ∉ upages m root 0 n →
  space (kfree_mem m fl tf) tf root (tf :: l) n tf ∧ ∀ q, is_table (kfree_mem m fl tf) root q ↔ is_table m root q.
Proof.
  intros [U LT LF] Hv Hl Ht Hu. pose proof (u_inv _ _ _ _ _ U) as I.
  assert (∀ q x, q mod PGSIZE = 0 → q ≠ tf → q ≤ x < q + PGSIZE → ld (kfree_mem m fl tf) x = ld m x) as Hq.
  { intros q x Hqa Hne Hx. apply ld_kfree_mem. intros Hin. apply (page_disjoint q tf x x); try done. apply Hv. }
  destruct (vm_ext m (kfree_mem m fl tf) fl root l I) as (I' & T & L).
  { intros x (p & t & Hp & Et & Hin). apply (Hq t); [|intros ->; apply Ht; by exists p|done].
    apply (wf_page _ _ (vm_wf _ _ _ _ I) p t Hp Et). }
  { intros q x Hql Hx. apply (Hq q); [|by intros ->|done]. by destruct (free_list_valid _ _ _ _ (vm_free _ _ _ _ I) Hql). }
  assert (∀ q, is_table (kfree_mem m fl tf) root q ↔ is_table m root q) as IT.
  { intros q. unfold is_table. split; intros (p & Hp & E); exists p; (split; [done|]); [by rewrite <- T|by rewrite T]. }
  split; [|done]. split; [|by rewrite L|by rewrite L]. destruct U as [_ Hm Ho Ha Hsz].
  assert (upages (kfree_mem m fl tf) root 0 n = upages m root 0 n) as Eu by (apply upages_ext; intros; apply L).
  split; [| | | |done].
  - split; [apply kfree_free_list; [apply I|done|done]|apply I'|].
    intros p t Hp. rewrite T by done. intros Et [->|Hin]%elem_of_cons; [apply Ht; by exists p|by apply (vm_disj _ _ _ _ I p t Hp Et)].
  - intros i Hi. cbv zeta. rewrite L. by apply Hm.
  - destruct Ho as [Hd Hva Hf Htb]. split; rewrite Eu; try done.
    + intros q Hin [->|Hin']%elem_of_cons; [done|by apply (Hf q)].
    + intros p t Hp. rewrite T by done. by apply Htb.
  - intros va Hva. rewrite L. by apply Ha.
Qed.

(** Undoing [allocproc] when the memory cannot be copied. *)
Lemma freeproc_child s np q m m2 fl2 pid root tf l l2 :
  hart_ok s → lock_free s LkKmem → (np < length (procs s))%nat →
  p_trapframe q = tf → p_pagetable q = root → p_sz q = 0 → tf ≠ 0 → root ≠ 0 → valid_page tf → NoDup l →
  space m2 fl2 root l2 0 tf → (∃ l1, l = tf :: l1 ∧ built (kalloc_mem m tf) m2 root l1 l2) →
  (∀ x, off_pages l x → ld m2 x = ld m x) →
  ∃ m' fl', freeproc np (child s np q m2 fl2 pid) = Ret tt (child s np (freed_entry q) m' fl' pid) ∧ restored m m' fl' l.
Proof.
  intros Hh Hk Hn Etf Ert Esz Htf Hrt Hv Hnd Sp (l1 & -> & [T S A M]) Hm. apply NoDup_cons in Hnd as [Hn1 Hnd1].
  destruct (space_kfree m2 fl2 root l2 0 tf Sp Hv) as [Sp3 IT]; [by intros Hin%S|by intros Hin%T|apply not_elem_of_nil|].
  pose proof (valid_page_range _ Hv) as Hvr.
  pose proof (kfree_eq (child s np q m2 fl2 pid) tf Hh Hk Hv) as Ek.
  rewrite child_with_mem, child_physmem, child_freelist in Ek.
  pose proof (ld_kfree_mem m2 fl2 tf) as Hm3. set (m3 := kfree_mem m2 fl2 tf) in *. clearbody m3.
  destruct (proc_freepagetable_eq (child s np (set_p_trapframe 0 q) m3 tf pid) root (tf :: l2) 0 tf) as (m' & fl' & l'' & E & Hf & Hq & Hm');
    [done|done|done|lia|unfold PHYSTOP, KERNBASE in Hvr; lia|exact Sp3|].
  cbn [physmem child set_procs set_nextpid with_mem set_freelist set_physmem] in Hq, Hm'. change (pgs 0) with 0%nat in Hq, Hm'.
  exists m', fl'. split.
  - apply (freeproc_eq s np q m2 fl2 pid m3 tf m' fl' Hn); rewrite ?Etf, ?Ert, ?Esz.
    + rewrite (proj2 (Z.eqb_neq _ _) Htf). exact Ek.
    + rewrite (proj2 (Z.eqb_neq _ _) Hrt). cbn [negb when]. exact E.
  - exists l''. split; [done|]. split.
    + apply NoDup_Permutation; [apply Hf|by constructor|]. intros q'. rewrite Hq, IT, !elem_of_cons. unfold upages. cbn. split.
      * intros [[?|Hin]|[Hin|Hin]]; [by left|right; by apply S|by apply elem_of_nil in Hin|right; by apply T].
      * intros [?|Hin]; [tauto|]. destruct (A q' Hin); tauto.
    + intros x Hx. rewrite Hm'.
      * rewrite Hm3; [by apply Hm|]. apply Hx. by left.
      * intros q' Hin. by apply elem_of_nil in Hin.
      * intros (p & t & Hp & Et & Hin). apply (Hx t); [right; apply T, IT; by exists p|done].
Qed.

(** The saved registers of the child: those of the parent, with a0 cleared. *)
Definition copy_regs (m : mem) (tf tf0 : Z) : mem := st64 (memmove m tf tf0 sizeof_trapframe) (tf + TF_a0) 0.

Lemma ldn_shift n m m' a b : (∀ i, 0 ≤ i < Z.of_nat n → ld m' (b + i) = ld m (a + i)) → ldn n m' b = ldn n m a.
Proof.
  revert a b. induction n as [|n IH]; intros a b Hi; [done|]. cbn [ldn]. f_equal.
  - specialize (Hi 0 ltac:(lia)). by rewrite !Z.add_0_r in Hi.
  - f_equal. apply IH. intros i Hb. specialize (Hi (i + 1) ltac:(lia)).
    by replace (a + 1 + i) with (a + (i + 1)) by lia; replace (b + 1 + i) with (b + (i + 1)) by lia.
Qed.

Lemma ld_copy_regs m tf tf0 x : ¬ (tf ≤ x < tf + PGSIZE) → ld (copy_regs m tf tf0) x = ld m x.
Proof.
  intros Hx. unfold copy_regs, TF_a0, sizeof_trapframe. unfold PGSIZE in Hx. rewrite ld_st64_ne by lia.
  rewrite ld_memmove, decide_False by lia. done.
Qed.

Lemma copy_regs_word m tf tf0 k :
  0 ≤ k < 36 → ld64 (copy_regs m tf tf0) (tf + 8 * k) = if k =? 14 then 0 else ld64 m (tf0 + 8 * k).
Proof.
  intros Hk. unfold copy_regs, TF_a0, sizeof_trapframe. destruct (Z.eqb_spec k 14) as [->|Hne].
  - change (8 * 14) with 112. by rewrite ld64_st64.
  - rewrite ld64_st64_ne by lia. apply (ldn_shift 8). intros i Hi. rewrite ld_memmove, decide_True by lia. f_equal. lia.
Qed.

(** The memory after [fork]: the child's address space is a copy of the
    parent's, the parent's is untouched, and the child's registers are the
    parent's but for a0. *)
Record cloned (m m' : mem) (fl' old root tf0 tf : Z) (n : nat) (l' : list Z) : Prop := {
  cl_child : space m' fl' root l' n tf;
  cl_view : ∀ va, 0 ≤ va < Z.of_nat n * PGSIZE →
    uview m' root va = uview m old va ∧ PTE_FLAGS (leaf m' root va) = PTE_FLAGS (leaf m old va);
  cl_parent : uvm m' fl' old l' n;
  cl_same : ∀ va, 0 ≤ va < Z.of_nat n * PGSIZE → leaf m' old va = leaf m old va ∧ uview m' old va = uview m old va;
  cl_regs : ∀ k, 0 ≤ k < 36 → ld64 m' (tf + 8 * k) = if k =? 14 then 0 else ld64 m (tf0 + 8 * k)
}.

Lemma cloned_regs m fl old l n root tf tf0 m2 fl2 l2 :
  uvm m fl old l n → valid_page tf → tf ∈ l → valid_page tf0 → tf0 ∉ l →
  copied_space m old l n root tf m2 fl2 l2 → (∀ x, off_pages l x → ld m2 x = ld m x) →
  cloned m (copy_regs m2 tf tf0) fl2 old root tf0 tf n l2.
Proof.
  intros U Hv Hin Hv0 Hn0 [C1 C2 C3 (C4 & C5 & C6)] Hm.
  destruct (space_tf m2 fl2 root l2 n tf (copy_regs m2 tf tf0) C1 Hv C4 C5 C6) as [Sp V]; [apply ld_copy_regs|].
  destruct (uvm_elsewhere m fl old l n (copy_regs m2 tf tf0) fl2 l2 U) as (U' & L' & _ & V'); [apply Sp|done| |].
  { intros x Hx. rewrite ld_copy_regs; [by apply Hm|]. by apply Hx. }
  split; [done| |done| |].
  - intros va Hva. destruct (V va Hva) as [-> ->]. by apply C2.
  - intros va Hva. split; [apply L'|by apply V'].
  - intros k Hk. rewrite copy_regs_word by done. case_match; [done|]. apply ld64_ext. intros x Hx. apply Hm.
    intros q Hq Hx'. pose proof (free_list_valid _ _ _ q (vm_free _ _ _ _ (u_inv _ _ _ _ _ U)) Hq) as [Hqa _].
    destruct Hv0 as [Hva0 _]. apply (page_disjoint q tf0 x x); try done; [by intros ->|mlia].
Qed.

(** A process that may call [fork]: it is in use, its memory is an address
    space next to the free pages [l], its open files are counted, and entries
    of the process table that are not in use have been cleared. *)
Record forker (p : nat) (l : list Z) (s : kernel) : Prop := {
  fo_thread : thread_ok p s;
  fo_used : p_state (getproc p s) ≠ UNUSED;
  fo_size : 0 ≤ p_sz (getproc p s) ≤ TRAPFRAME;
  fo_uvm : uvm (physmem s) (freelist s) (p_pagetable (getproc p s)) l (pgs (p_sz (getproc p s)));
  fo_tf : valid_page (p_trapframe (getproc p s)) ∧ p_trapframe (getproc p s) ∉ l;
  fo_files : length (p_ofile (getproc p s)) = NOFILE ∧ files_ok (files s) (p_ofile (getproc p s));
  fo_cwd : is_Some (p_cwd (getproc p s));
  fo_unused : ∀ q, q ∈ procs s → p_state q = UNUSED → p_pagetable q = 0 ∧ p_sz q = 0 ∧ p_ofile q = replicate NOFILE None
}.

(** The child's entry. *)
Definition forked (p : nat) (parent q : proc) (pid tf root : Z) : proc :=
  mk_proc RUNNABLE (p_chan q) (p_killed q) (p_xstate q) pid (Some p) (p_kstack q) (p_sz parent) root tf
    (mk_context forkret_addr (p_kstack q + PGSIZE) (replicate 12 0)) (p_ofile parent) (p_cwd parent)
    (bytes_safestrcpy (p_name q) (p_name parent) 16) (p_trace_mask parent).

(** The rest of [fork] once the memory has been copied. *)
Lemma fork_finish p np q s m2 fl2 npid pid tf root cwd :
  thread_ok p s → p ≠ np → procs s !! np = Some q → p_ofile q = replicate NOFILE None →
  length (p_ofile (getproc p s)) = NOFILE → files_ok (files s) (p_ofile (getproc p s)) → p_cwd (getproc p s) = Some cwd →
  let s1 := enter (LkProc np) s in
  let parent := getproc p s in
  (pset np (set_p_sz (p_sz parent)) ;;;
   let! tf := pget np p_trapframe in
   kmemmove tf (p_trapframe parent) sizeof_trapframe ;;;
   tfset np TF_a0 0 ;;;
   for_each (seq 0 NOFILE) (fork_ofile p np) ;;;
   let! cwd := pget p p_cwd in
   let! cwd := deref cwd in
   let! cwd := idup cwd in
   pset np (set_p_cwd (Some cwd)) ;;;
   let! name := pget p p_name in
   pset np (λ q, set_p_name (bytes_safestrcpy (p_name q) name 16) q) ;;;
   let! mask := pget p p_trace_mask in
   pset np (set_p_trace_mask mask) ;;;
   let! pid := pget np p_pid in
   release (LkProc np) ;;;
   acquire LkWait ;;;
   pset np (set_p_parent (Some p)) ;;;
   release LkWait ;;;
   acquire (LkProc np) ;;;
   pset np (set_p_state RUNNABLE) ;;;
   release (LkProc np) ;;;
   ret pid) (child s1 np (newborn pid tf root q) m2 fl2 npid) =
  Ret pid (child (set_inodes (alter (λ i, set_i_ref (i_ref i + 1) i) cwd (inodes s))
                    (set_files (foldl dup_file (files s) (p_ofile parent)) s))
             np (forked p parent q pid tf root) (copy_regs m2 tf (p_trapframe parent)) fl2 npid).
Proof.
  intros Ht Hne Hq Hof Hlen Hfs Hcwd s1 parent. pose proof (th_hart _ _ Ht) as Hh. pose proof (lookup_lt_Some _ _ _ Hq) as Hn.
  assert (∀ l, l ∈ all_locks → lock_free s l) as Hl by apply Ht.
  assert (hart_ok s1) as Hh1 by by apply hart_ok_enter.
  assert (∀ l, l ∈ [LkFtable; LkItable] → lock_free s1 l) as Hl1.
  { intros l Hin. apply lock_free_enter; [set_solver|]. apply Hl, all_locks_named. set_solver. }
  assert (lock_free s (LkProc np)) as Hp by (apply Hl, all_locks_proc; rewrite <- (th_len _ _ Ht); done).
  rewrite child_bind_pset, child_pget by done. run (child_kmemmove _ _ _ _ _ _ _ _ _).
  run (child_tfset s1 _ _ _ _ _ _ _ Hn). cbn [newborn p_trapframe set_p_sz].
  change (st64 (memmove m2 tf (p_trapframe parent) sizeof_trapframe) (tf + TF_a0) 0) with (copy_regs m2 tf (p_trapframe parent)).
  set (m3 := copy_regs m2 tf (p_trapframe parent)). clearbody m3.
  pose proof (fork_files p np parent (set_p_sz (p_sz parent) (newborn pid tf root q)) s1 m3 fl2 npid [] (p_ofile parent) (files s)
    Hh1 (Hl1 LkFtable ltac:(set_solver)) Hn Hne eq_refl eq_refl Hfs) as Ef.
  fold parent in Hlen. rewrite Hlen in Ef. cbn [app length] in Ef.
  match type of Ef with for_each _ _ ?x = _ => match goal with |- context [bind (for_each _ _) _ ?y] => assert (y = x) as -> end end.
  { rewrite <- Hof. done. }
  run Ef.
  set (F := foldl dup_file (files s) (p_ofile parent)). set (q1 := set_p_ofile _ _).
  set (I := alter (λ i, set_i_ref (i_ref i + 1) i) cwd (inodes s)). set (s5 := set_inodes I (set_files F s)).
  rewrite child_pget_other by done. change (getproc p (set_files F s1)) with parent. fold parent in Hcwd. rewrite Hcwd.
  cbn [deref]. rewrite bind_ret_l.
  assert (idup cwd (child (set_files F s1) np q1 m3 fl2 npid) = Ret cwd (child (enter (LkProc np) s5) np q1 m3 fl2 npid)) as Ei.
  { rewrite idup_eq; [done|exact Hh1|apply (Hl1 LkItable); set_solver]. }
  run Ei. rewrite child_bind_pset, child_pget_other, child_bind_pset, child_pget_other, child_bind_pset, child_pget by done.
  change (getproc p (enter (LkProc np) s5)) with parent.
  run (release_child (LkProc np) s5 np _ _ _ _ Hh Hp).
  rewrite (child_section LkWait (set_p_parent (Some p)) s5 np) by (done || (apply Hl, all_locks_named; set_solver)).
  rewrite (child_section (LkProc np) (set_p_state RUNNABLE) s5 np) by done.
  unfold ret. cbn [p_pid]. f_equal. unfold forked. by rewrite Hcwd.
Qed.

(** What [fork] does with the free entry [np]. *)
Definition fork_result (p np : nat) (q : proc) (l : list Z) (s : kernel) (r : outcome kernel Z) : Prop :=
  let parent := getproc p s in
  let n := pgs (p_sz parent) in
  let npid := s32 (nextpid s + 1) in
  (∃ tf root m' fl' l' cwd, p_cwd parent = Some cwd ∧
     r = Ret (nextpid s)
       (child (set_inodes (alter (λ i, set_i_ref (i_ref i + 1) i) cwd (inodes s))
                 (set_files (foldl dup_file (files s) (p_ofile parent)) s))
          np (forked p parent q (nextpid s) tf root) m' fl' npid) ∧
     cloned (physmem s) m' fl' (p_pagetable parent) root (p_trapframe parent) tf n l') ∨
  (∃ m' fl' c, r = Ret (-1) (child s np (set_p_context c (freed_entry q)) m' fl' npid) ∧ restored (physmem s) m' fl' l ∧
     (length l < 3 * n + 6)%nat).

Lemma fork_eq p l s :
  forker p l s →
  match list_find (λ q, p_state q = UNUSED) (procs s) with
  | Some (np, q) => fork_result p np q l s (fork s)
  | None => fork s = Ret (-1) s
  end.
Proof.
  intros [Ht Hus Hsz U [Htv Htl] [Hlen Hfs] [cwd Hcwd] Hun]. pose proof (th_hart _ _ Ht) as Hh.
  assert (∀ k, k ∈ [LkKmem; LkPid] → lock_free s k) as Hl.
  { intros k Hk. apply Ht, all_locks_named. set_solver. }
  assert (free_pages s l) as Hf by apply U.
  pose proof (allocproc_eq s l Hh (λ i Hi, th_locks _ _ Ht _ (all_locks_proc i Hi)) (Hl LkKmem ltac:(set_solver)) (Hl LkPid ltac:(set_solver))
    (th_len _ _ Ht) (λ q Hq Hs, proj1 (Hun q Hq Hs)) Hf) as Ha.
  unfold fork. run (thread_curproc p s Ht).
  destruct (list_find (λ q, p_state q = UNUSED) (procs s)) as [[np q]|] eqn:Ef; [|by run Ha].
  apply list_find_Some in Ef as (Hq & Hqs & _). pose proof (lookup_lt_Some _ _ _ Hq) as Hn.
  destruct (Hun q (list_elem_of_lookup_2 _ _ _ Hq) Hqs) as (_ & Hqz & Hqo).
  assert (p ≠ np) as Hne by (intros ->; by rewrite (getproc_lookup s np q Hq) in Hus).
  assert (lock_free s (LkProc np)) as Hp by (apply Ht, all_locks_proc; rewrite <- (th_len _ _ Ht); done).
  unfold fork_result. destruct Ha as [(tf & root & m1 & fl1 & l1 & E & B)|(m' & fl' & E & R & C)]; run E.
  2:{ right. exists m', fl', (p_context q). split; [done|]. split; [done|lia]. }
  set (s1 := enter (LkProc np) s) in *. set (npid := s32 (nextpid s + 1)) in *. set (nb := newborn (nextpid s) tf root q) in *.
  set (S1 := child s1 np nb m1 fl1 npid). set (parent := getproc p s) in *.
  rewrite (bind_Ret _ _ S1 parent S1) by (unfold gets; f_equal; by apply child_other). unfold S1. rewrite child_pget by done.
  change (p_pagetable nb) with root.
  destruct (copy_child (physmem s) (freelist s) (p_pagetable parent) l (pgs (p_sz parent)) U m1 fl1 root tf l1 B
    (child s1 np nb m1 fl1 npid) (p_sz parent)) as (r & m2 & fl2 & l2 & Ec & Hm & Rc);
    [by apply hart_ok_enter|by apply (lock_free_enter s (LkProc np)), Hl; set_solver|done|done|done|done|].
  rewrite (bind_Ret _ _ _ _ _ Ec), child_with_mem. pose proof (bi_tf _ _ _ _ _ _ _ B) as [Htf0 Htfv].
  destruct Rc as [[-> C]|(-> & Sp & Hlt & Bu)]; cbn [Z.ltb Z.compare].
  - left. exists tf, root, (copy_regs m2 tf (p_trapframe parent)), fl2, l2, cwd. split; [done|]. split.
    + by apply (fork_finish p np q s m2 fl2 npid (nextpid s) tf root cwd).
    + apply (cloned_regs (physmem s) (freelist s) (p_pagetable parent) l (pgs (p_sz parent)) root tf); try done.
      destruct (bi_pages _ _ _ _ _ _ _ B) as (l0 & -> & _). by left.
  - right. destruct (freeproc_child s1 np nb (physmem s) m2 fl2 npid root tf l l2) as (m' & fl' & Efr & R); try done.
    + by apply hart_ok_enter.
    + apply (lock_free_enter s (LkProc np)), Hl; [done|set_solver].
    + by apply B.
    + apply Hf.
    + exists m', fl', (p_context nb). run Efr.
      run (release_child (LkProc np) s np _ _ _ _ Hh Hp). done.
Qed.
End alloc.

(** C5: [fork] with a free entry in the process table either returns
    the pid of a new process that is runnable, has the caller as its parent and
    the caller's size, open files, working directory, name and trace mask, sees
    in its own frames the bytes and permissions the caller sees, and will
    return 0 with the caller's other registers, while the caller's memory is as
    it was and the open files and the working directory have one more reference
    each; or it returns -1, which happens only with fewer than three free
    pages for each page to copy and six more, and leaves the entry free, every
    page that was free free again and the rest of memory as it was.  Without a
    free entry it returns -1 and does nothing.  (The new process takes
    [killed] over from the entry.) *)
Theorem fork_spec `{LayoutOk} p l s :
  forker p l s →
  match list_find (λ q, p_state q = UNUSED) (procs s) with
  | Some (np, q) => fork_result p np q l s (fork s)
  | None => fork s = Ret (-1) s
  end.
Proof. apply fork_eq. Qed.

(** A process without memory, which forks with eight free pages. *)
Definition sample_forker (m : mem) (fl : Z) : kernel :=
  upd_proc 0 (λ q, set_p_state RUNNING (set_p_pagetable rootA (set_p_trapframe rootB (set_p_cwd (Some 0%nat) q))))
    (with_mem boot_thread m fl).

Lemma sample_forker_ok m fl : uvm m fl rootA spages 0 → forker 0 spages (sample_forker m fl).
Proof.
  intros U. split; [|done|done|exact U| | | |].
  - by apply (thread_ok_ext 0 boot_thread), boot_thread_ok.
  - split; [apply (spage_valid 9); lia|]. intros (j & E & Hj)%elem_of_spages. apply (spage_inj 9) in E. lia.
  - split; [done|]. intros f Hin. by apply elem_of_replicate in Hin as [? _].
  - by eexists.
  - intros q Hq Hs. change (procs (sample_forker m fl)) with (getproc 0 (sample_forker m fl) :: replicate 63 (procs boot !!! 0%nat)) in Hq.
    apply elem_of_cons in Hq as [->|Hq]; [done|]. by apply elem_of_replicate in Hq as [-> _].
Qed.

Lemma fork_spec_witness :
  ∃ s s', fork s = Ret 1 s' ∧ p_state (getproc 1 s') = RUNNABLE ∧ p_parent (getproc 1 s') = Some 0%nat.
Proof.
  destruct (sample_root 8 ltac:(lia)) as (U & _ & _). revert U. generalize sample_mem (snd (freed_mem spages)). intros m fl U.
  pose proof (fork_spec 0 spages (sample_forker m fl) (sample_forker_ok m fl U)) as H.
  change (list_find (λ q, p_state q = UNUSED) (procs (sample_forker m fl))) with (Some (1%nat, procs boot !!! 1%nat)) in H.
  exists (sample_forker m fl). destruct H as [(tf & root & m' & fl' & l' & cwd & _ & E & _)|(m' & fl' & c & _ & _ & Hlen)].
  - eexists. split; [exact E|]. split; rewrite child_get; [reflexivity|apply Nat.ltb_lt; reflexivity|reflexivity|apply Nat.ltb_lt; reflexivity].
  - exfalso. change (length spages) with 8%nat in Hlen. change (pgs (p_sz (getproc 0 (sample_forker m fl)))) with 0%nat in Hlen. lia.
Defined.
