(* ===== verification/WaitSpec.v ===== *)
(** * Waiting for children (kernel/proc.c)

    [wait] looks for a child that has exited: it hands over the exit status,
    takes the child's entry and pages back, and returns its pid; with children
    that all run it sleeps. *)

From S2P Require Import Prelude Machine Memory Kstring State Spinlock Kalloc Vm VmTables VmMap VmSpace VmCopy VmFree.
From S2P Require Import VmSpec Sched Runs Sleeping Proc AllocSpec Sleeplock Block Bio Log Fs Itable Dir Pipe File Life ForkSpec.

(** A child of [p] that has exited. *)
Definition is_dead (p : nat) (q : proc) : Prop := p_parent q = Some p ∧ p_state q = ZOMBIE.

#[export] Instance is_dead_dec p q : Decision (is_dead p q) := decide (p_parent q = Some p ∧ p_state q = ZOMBIE).

(** The child that [wait] finds first. *)
Definition dead_kid (p : nat) (s : kernel) : option (nat * proc) := list_find (is_dead p) (procs s).

(** [p] has children, none of which has exited, and has not been killed. *)
Definition must_wait (p : nat) (s : kernel) : bool :=
  match dead_kid p s with
  | Some _ => false
  | None => existsb (λ q, bool_decide (p_parent q = Some p)) (procs s) && (p_killed (getproc p s) =? 0)
  end.

Section reap.
Context `{LayoutOk}.

(** The pages that belong to a process: its trapframe, the pages it can use
    and those of its page table. *)
Definition holds_page (m : mem) (q : proc) (x : Z) : Prop :=
  x = p_trapframe q ∨ x ∈ upages m (p_pagetable q) 0 (pgs (p_sz q)) ∨ is_table m (p_pagetable q) x.

(** The memory of a process that has exited, next to the free pages [l]. *)
Record corpse (m : mem) (fl : Z) (l : list Z) (q : proc) : Prop := {
  z_size : 0 ≤ p_sz q ≤ TRAPFRAME;
  z_root : p_pagetable q ≠ 0;
  z_space : space m fl (p_pagetable q) l (pgs (p_sz q)) (p_trapframe q);
  z_valid : valid_page (p_trapframe q);
  z_tf : p_trapframe q ∉ l ∧ ¬ is_table m (p_pagetable q) (p_trapframe q) ∧
         p_trapframe q ∉ upages m (p_pagetable q) 0 (pgs (p_sz q))
}.

Lemma holds_aligned m fl l q x : corpse m fl l q → holds_page m q x → x mod PGSIZE = 0.
Proof.
  intros [_ _ [U _ _] Hv _] [->|[Hx|(p & Hp & Et)]].
  - apply Hv.
  - by destruct (Forall_elem _ _ _ (ow_valid _ _ _ _ _ (u_owned _ _ _ _ _ U)) Hx).
  - apply (wf_page _ _ (vm_wf _ _ _ _ (u_inv _ _ _ _ _ U)) p x Hp Et).
Qed.

(** Writing to other pages changes nothing. *)
Lemma corpse_ext m m' fl l q :
  corpse m fl l q → (∀ y x, y ∈ l ∨ holds_page m q y → y ≤ x < y + PGSIZE → ld m' x = ld m x) →
  corpse m' fl l q ∧ ∀ x, holds_page m' q x ↔ holds_page m q x.
Proof.
  intros [Hsz Hr [U LT LF] Hv (Z1 & Z2 & Z3)] Hm.
  destruct (vm_ext m m' fl (p_pagetable q) l (u_inv _ _ _ _ _ U)) as (I & T & L).
  { intros x (p & t & Hp & Et & Hin). apply (Hm t); [|done]. right; right; right. by exists p. }
  { intros y x Hy Hx. apply (Hm y); [by left|done]. }
  assert (∀ x, is_table m' (p_pagetable q) x ↔ is_table m (p_pagetable q) x) as IT.
  { intros x. unfold is_table. split; intros (p & Hp & E); exists p; (split; [done|]); [by rewrite <- T|by rewrite T]. }
  assert (upages m' (p_pagetable q) 0 (pgs (p_sz q)) = upages m (p_pagetable q) 0 (pgs (p_sz q))) as Eu
    by (apply upages_ext; intros; apply L).
  split; [|intros x; unfold holds_page; by rewrite Eu, IT].
  split; [done|done| |done|by rewrite Eu, IT].
  split; [|by rewrite L|by rewrite L]. apply (uvm_same m m' fl fl (p_pagetable q) l l); try done.
  intros p t Hp. rewrite T by done. by left.
Qed.

(** The child's pages are free, and no other page has been written to. *)
Definition reaped (m m' : mem) (fl' : Z) (l : list Z) (q : proc) : Prop :=
  ∃ l', free_list m' fl' l' ∧ (∀ x, x ∈ l' ↔ x ∈ l ∨ holds_page m q x) ∧
    ∀ x, (∀ y, holds_page m q y → ¬ (y ≤ x < y + PGSIZE)) → ld m' x = ld m x.

Lemma freeproc_corpse s np q m fl pid l :
  hart_ok s → lock_free s LkKmem → (np < length (procs s))%nat → corpse m fl l q →
  ∃ m' fl', freeproc np (child s np q m fl pid) = Ret tt (child s np (freed_entry q) m' fl' pid) ∧ reaped m m' fl' l q.
Proof.
  intros Hh Hk Hn [Hsz Hr Sp Hv (Z1 & Z2 & Z3)]. set (tf := p_trapframe q) in *. set (root := p_pagetable q) in *.
  destruct (space_kfree m fl root l (pgs (p_sz q)) tf Sp Hv Z1 Z2 Z3) as [Sp3 IT]. pose proof (valid_page_range _ Hv) as Hvr.
  pose proof (kfree_eq (child s np q m fl pid) tf Hh Hk Hv) as Ek. rewrite child_with_mem, child_physmem, child_freelist in Ek.
  assert (upages (kfree_mem m fl tf) root 0 (pgs (p_sz q)) = upages m root 0 (pgs (p_sz q))) as Eu.
  { apply upages_ext. intros i Hi. apply leaf_ext. intros x (p & t & Hp & Et & Hin). apply ld_kfree_mem. intros Hx.
    apply (page_disjoint t tf x x); try done; [|by apply Hv|].
    - apply (wf_page _ _ (vm_wf _ _ _ _ (u_inv _ _ _ _ _ (sp_uvm _ _ _ _ _ _ Sp))) p t Hp Et).
    - intros ->. apply Z2. by exists p. }
  pose proof (ld_kfree_mem m fl tf) as Hm3. set (m3 := kfree_mem m fl tf) in *. clearbody m3.
  destruct (proc_freepagetable_eq (child s np (set_p_trapframe 0 q) m3 tf pid) root (tf :: l) (p_sz q) tf) as (m' & fl' & l' & E & Hf & Hq & Hm');
    [done|done|done|lia|unfold PHYSTOP, KERNBASE in Hvr; lia|exact Sp3|].
  rewrite child_physmem, Eu in Hq, Hm'. exists m', fl'. split.
  - apply (freeproc_eq s np q m fl pid m3 tf m' fl' Hn); fold tf root.
    + rewrite (proj2 (Z.eqb_neq tf 0)); [exact Ek|]. unfold KERNBASE in Hvr. lia.
    + rewrite (proj2 (Z.eqb_neq _ _) Hr). exact E.
  - exists l'. split; [done|]. unfold holds_page. fold tf root. split.
    + intros x. rewrite Hq, IT, elem_of_cons. tauto.
    + intros x Hx. rewrite Hm'.
      * apply Hm3. apply Hx. by left.
      * intros y Hy. apply Hx. tauto.
      * intros (p & t & Hp & Et & Hin). apply (Hx t); [|done]. right; right. apply IT. by exists p.
Qed.

(** ** The scan *)

(** What [wait] does with the dead child [np], whose entry is [c]. *)
Definition reap (p np : nat) (addr : Z) (c : proc) : K (Z + bool) :=
  let pid := p_pid c in
  let! r :=
    (if negb (addr =? 0) then
       let! pagetable := pget p p_pagetable in
       copyout pagetable addr (int_bytes (p_xstate c))
     else ret 0) in
  if r <? 0 then release (LkProc np) ;;; release LkWait ;;; ret (inl (-1))
  else freeproc np ;;; release (LkProc np) ;;; release LkWait ;;; ret (inl pid).

Lemma wait_scan_eq p addr s ps qs k hk :
  hart_ok s → (∀ i, (i < NPROC)%nat → lock_free s (LkProc i)) → procs s = qs ++ ps → length qs = k → (k + length ps = NPROC)%nat →
  wait_scan p addr (seq k (length ps)) hk s =
    match list_find (is_dead p) ps with
    | Some (i, q) => reap p (k + i) addr q (enter (LkProc (k + i)) s)
    | None => Ret (inr (hk || existsb (λ q, bool_decide (p_parent q = Some p)) ps)) s
    end.
Proof.
  intros Hh Hl. revert qs k hk. induction ps as [|q ps IH]; intros qs k hk Hp Hk Hn; [by rewrite orb_false_r|].
  cbn [length seq wait_scan list_find existsb]. cbn [length] in Hn.
  assert (procs s !! k = Some q) as Hq by (rewrite Hp; subst k; apply list_lookup_middle; done).
  assert (∀ hk', wait_scan p addr (seq (S k) (length ps)) hk' s =
    match list_find (is_dead p) ps with
    | Some (i, q) => reap p (k + S i) addr q (enter (LkProc (k + S i)) s)
    | None => Ret (inr (hk' || existsb (λ q, bool_decide (p_parent q = Some p)) ps)) s
    end) as IH'.
  { intros hk'. rewrite (IH (qs ++ [q]) (S k)); [|by rewrite <- app_assoc|rewrite length_app; cbn; lia|lia].
    destruct (list_find _ ps) as [[i q']|]; [|done]. by rewrite Nat.add_succ_r. }
  clear IH. unfold bind at 1, pget, gets. cbn [obind]. rewrite (getproc_lookup s k q Hq).
  destruct (decide (p_parent q = Some p)) as [Ek|Ek].
  - rewrite (bool_decide_eq_true_2 _ Ek), orb_true_r.
    rewrite (bind_Ret _ _ _ tt (enter (LkProc k) s)) by (apply acquire_ok; [done|apply Hl; lia]).
    unfold bind at 1, gets. cbn [obind]. change (getproc k (enter (LkProc k) s)) with (getproc k s). rewrite (getproc_lookup s k q Hq).
    destruct (decide (p_state q = ZOMBIE)) as [Ez|Ez].
    + rewrite (bool_decide_eq_true_2 _ Ez), decide_True by by split. by rewrite Nat.add_0_r.
    + rewrite (bool_decide_eq_false_2 _ Ez), decide_False by by intros [].
      run (release_enter s (enter (LkProc k) s) _ Hh (Hl k ltac:(lia)) eq_refl eq_refl eq_refl).
      fold (unlocked s (enter (LkProc k) s)). rewrite unlocked_enter, IH'. by destruct (list_find _ ps) as [[]|].
  - rewrite !(bool_decide_eq_false_2 _ Ek), orb_false_l, decide_False by by intros []. rewrite IH'. by destruct (list_find _ ps) as [[]|].
Qed.

(** ** wait *)

(** A thread that may call [wait]: its own memory is an address space next to
    the free pages [l], and its dead children hold pages of their own. *)
Record waiter (p : nat) (l : list Z) (s : kernel) : Prop := {
  wa_thread : thread_ok p s;
  wa_noff : c_noff (mycpu s) = 0;
  wa_space : uspace (physmem s) (freelist s) (p_pagetable (getproc p s)) l (pgs (p_sz (getproc p s)));
  wa_dead : ∀ q, q ∈ procs s → is_dead p q → corpse (physmem s) (freelist s) l q;
  wa_apart : ∀ q x, q ∈ procs s → is_dead p q → holds_page (physmem s) q x →
    x ∉ upages (physmem s) (p_pagetable (getproc p s)) 0 (pgs (p_sz (getproc p s)))
}.

(** The exit status as it is copied out: nowhere when [addr] is 0. *)
Definition hand_over (m : mem) (root addr status : Z) : Z * mem :=
  if addr =? 0 then (0, m) else uwrite m root addr (int_bytes status).

Lemma uwrite_frame m fl root l n va src y x :
  uspace m fl root l n → 0 ≤ va → y mod PGSIZE = 0 → y ∉ upages m root 0 n → y ≤ x < y + PGSIZE →
  ld (snd (uwrite m root va src)) x = ld m x.
Proof.
  intros S Hva Hy Hn Hx. destruct (uwrite m root va src) as [r m'] eqn:Ew.
  destruct (uwrite_spec m fl root l n va src r m' S Hva Ew) as (_ & _ & F & _). apply F. intros i Hi Hne ->.
  destruct (upa_inv m fl root l n (va + i) S ltac:(lia) Hne) as [Hlt E]. unfold uaddr in Hx. rewrite E in Hx.
  pose proof (u_size _ _ _ _ _ (us_uvm _ _ _ _ _ S)) as Hsz.
  assert (PTE2PA (leaf m root (va + i)) ∈ upages m root 0 n) as Hin by (apply elem_upages; mlia).
  destruct (Forall_elem _ _ _ (ow_valid _ _ _ _ _ (u_owned _ _ _ _ _ (us_uvm _ _ _ _ _ S))) Hin) as [Hal _].
  refine (page_disjoint y (PTE2PA (leaf m root (va + i))) _ _ Hy Hal _ Hx _ eq_refl); [by intros ->|mlia].
Qed.

Lemma hand_over_eq p s s1 l n addr status :
  uspace (physmem s) (freelist s) (p_pagetable (getproc p s)) l n → 0 ≤ addr < 2 ^ 64 →
  physmem s1 = physmem s → freelist s1 = freelist s → getproc p s1 = getproc p s →
  let r := hand_over (physmem s) (p_pagetable (getproc p s)) addr status in
  (if negb (addr =? 0) then
     let! pagetable := pget p p_pagetable in
     copyout pagetable addr (int_bytes status)
   else ret 0) s1 = Ret (fst r) (with_mem s1 (snd r) (freelist s)).
Proof.
  intros S Ha Em Ef Ep. unfold hand_over. destruct (addr =? 0); cbn [negb fst snd].
  - unfold ret. by rewrite <- Em, <- Ef, with_mem_id.
  - unfold bind, pget, gets. cbn [obind]. rewrite Ep, (copyout_eq s1 _ l n); rewrite ?Em, ?Ef; done.
Qed.

(** What [wait] answers when it does not sleep. *)
Definition wait_end (p : nat) (addr : Z) (l : list Z) (s : kernel) (r : outcome kernel Z) : Prop :=
  match dead_kid p s with
  | Some (np, q) =>
      let (c, m1) := hand_over (physmem s) (p_pagetable (getproc p s)) addr (p_xstate q) in
      if c <? 0 then r = Ret (-1) (with_mem s m1 (freelist s))
      else ∃ m' fl', r = Ret (p_pid q) (child s np (freed_entry q) m' fl' (nextpid s)) ∧ reaped m1 m' fl' l q
  | None => r = Ret (-1) s
  end.

(** Without an address for the status nothing can fail. *)
Lemma wait_end_found p l s r np q :
  wait_end p 0 l s r → dead_kid p s = Some (np, q) →
  ∃ m' fl', r = Ret (p_pid q) (child s np (freed_entry q) m' fl' (nextpid s)).
Proof. unfold wait_end. intros W E. rewrite E in W. destruct W as (m' & fl' & Er & _). by exists m', fl'. Qed.

Lemma child_id s np q m : procs s !! np = Some q → with_mem s m (freelist s) = child s np q m (freelist s) (nextpid s).
Proof. intros Hq. unfold child. rewrite list_insert_id by done. by destruct s. Qed.

Lemma hand_over_corpse p l s np q addr :
  waiter p l s → 0 ≤ addr < 2 ^ 64 → dead_kid p s = Some (np, q) →
  corpse (snd (hand_over (physmem s) (p_pagetable (getproc p s)) addr (p_xstate q))) (freelist s) l q.
Proof.
  intros [Ht _ S Hd Ha] Haddr (Hq & Hz & _)%list_find_Some. apply list_elem_of_lookup_2 in Hq. specialize (Hd q Hq Hz).
  unfold hand_over. destruct (addr =? 0); [done|]. apply (corpse_ext (physmem s)); [done|].
  intros y x Hy Hx. apply (uwrite_frame _ (freelist s) _ l (pgs (p_sz (getproc p s))) _ _ y); try done; [lia| |].
  - destruct Hy as [Hy|Hy]; [|by eapply holds_aligned].
    by destruct (free_list_valid _ _ _ y (vm_free _ _ _ _ (u_inv _ _ _ _ _ (us_uvm _ _ _ _ _ S))) Hy).
  - destruct Hy as [Hy|Hy]; [|by eapply Ha]. intros Hin. by apply (ow_free _ _ _ _ _ (u_owned _ _ _ _ _ (us_uvm _ _ _ _ _ S)) y).
Qed.

Lemma wait_lock : LkWait ∈ all_locks.
Proof. apply all_locks_named. set_solver. Qed.

Lemma wait_locks p s : thread_ok p s → lock_free s LkKmem ∧ lock_free s LkWait ∧ ∀ i, (i < NPROC)%nat → lock_free s (LkProc i).
Proof. intros T. split_and!; [| |intros i Hi; by apply T, all_locks_proc]; apply T, all_locks_named; set_solver. Qed.

Lemma reap_end p l s np q addr :
  waiter p l s → 0 ≤ addr < 2 ^ 64 → dead_kid p s = Some (np, q) →
  ∃ r s', reap p np addr q (enter (LkProc np) (enter LkWait s)) = Ret (inl r) s' ∧ wait_end p addr l s (Ret r s').
Proof.
  intros W Haddr Ez. pose proof (wa_thread _ _ _ W) as Ht. pose proof (th_hart _ _ Ht) as Hh.
  destruct (wait_locks p s Ht) as (Hk & Hw & Hl). pose proof (hand_over_corpse p l s np q addr W Haddr Ez) as Hc.
  unfold wait_end. rewrite Ez. apply list_find_Some in Ez as (Hq & Hz & _). pose proof (lookup_lt_Some _ _ _ Hq) as Hn.
  set (s1 := enter LkWait s). set (s2 := enter (LkProc np) s1).
  assert (hart_ok s1) as Hh1 by by apply hart_ok_enter. assert (hart_ok s2) as Hh2 by by apply hart_ok_enter.
  assert (lock_free s1 (LkProc np)) as Hp by (apply lock_free_enter; [done|]; apply Hl; rewrite <- (th_len _ _ Ht); done).
  unfold reap. run (hand_over_eq p s s2 l _ addr (p_xstate q) (wa_space _ _ _ W) Haddr eq_refl eq_refl eq_refl).
  destruct (hand_over _ _ addr (p_xstate q)) as [c m1]. cbn [fst snd] in *.
  change (with_mem s2 m1 (freelist s)) with (with_mem s2 m1 (freelist s2)). rewrite (child_id s2 np q m1 Hq).
  change (freelist s2) with (freelist s). change (nextpid s2) with (nextpid s). destruct (c <? 0).
  - exists (-1), (with_mem s m1 (freelist s)). split; [|done]. rewrite (child_id s np q m1 Hq).
    run (release_child (LkProc np) s1 np q m1 (freelist s) (nextpid s) Hh1 Hp), (release_child LkWait s np q m1 (freelist s) (nextpid s) Hh Hw). done.
  - destruct (freeproc_corpse s2 np q m1 (freelist s) (nextpid s) l) as (m' & fl' & E & R); try done.
    { by do 2 (apply lock_free_enter; [done|]). }
    exists (p_pid q), (child s np (freed_entry q) m' fl' (nextpid s)). split; [|by exists m', fl'].
    run E, (release_child (LkProc np) s1 np (freed_entry q) m' fl' (nextpid s) Hh1 Hp), (release_child LkWait s np (freed_entry q) m' fl' (nextpid s) Hh Hw). done.
Qed.

Lemma wait_scan_table p addr s :
  thread_ok p s →
  wait_scan p addr (seq 0 NPROC) false (enter LkWait s) =
    match dead_kid p s with
    | Some (np, q) => reap p np addr q (enter (LkProc np) (enter LkWait s))
    | None => Ret (inr (existsb (λ q, bool_decide (p_parent q = Some p)) (procs s))) (enter LkWait s)
    end.
Proof.
  intros Ht. destruct (wait_locks p s Ht) as (_ & _ & Hl).
  pose proof (wait_scan_eq p addr (enter LkWait s) (procs s) [] 0 false (hart_ok_enter _ _ (th_hart _ _ Ht))) as E.
  rewrite (th_len _ _ Ht) in E. apply E; [|done|done|done]. intros i Hi. apply lock_free_enter; [done|]. by apply Hl.
Qed.

(** One turn of the loop, when [p] need not wait: it is the last. *)
Lemma wait_step_end p addr l s :
  waiter p l s → 0 ≤ addr < 2 ^ 64 → must_wait p s = false →
  ∃ r s', wait_step p addr tt (enter LkWait s) = Ret (inr r) s' ∧ wait_end p addr l s (Ret r s').
Proof.
  intros W Haddr Hm. pose proof (wa_thread _ _ _ W) as Ht. pose proof (wait_scan_table p addr s Ht) as E.
  unfold must_wait in Hm. destruct (dead_kid p s) as [[np q]|] eqn:Ez.
  - destruct (reap_end p l s np q addr W Haddr Ez) as (r & s' & Er & R). rewrite Er in E.
    exists r, s'. split; [|done]. unfold wait_step. by run E.
  - exists (-1), s. unfold wait_end. rewrite Ez. split; [|done]. unfold wait_step. run E.
    unfold bind at 1, pget, gets. cbn [obind]. change (getproc p (enter LkWait s)) with (getproc p s).
    assert (negb (existsb (λ q, bool_decide (p_parent q = Some p)) (procs s)) || negb (p_killed (getproc p s) =? 0) = true) as ->.
    { by rewrite <- negb_andb, Hm. }
    destruct (wait_locks p s Ht) as (_ & Hw & _).
    run (release_enter s (enter LkWait s) _ (th_hart _ _ Ht) Hw eq_refl eq_refl eq_refl).
    fold (unlocked s (enter LkWait s)). by rewrite unlocked_enter.
Qed.

(** Otherwise it sleeps, and on being resumed turns once more. *)
Lemma wait_step_sleep p addr s :
  thread_ok p s → c_noff (mycpu s) = 0 → must_wait p s = true →
  ∃ k, wait_step p addr tt (enter LkWait s) = Switch (asleep (ChProc p) LkWait p (enter LkWait s)) k ∧
    ∀ s', resumed p s' → k s' = Ret (inl tt) (enter LkWait (woke p (c_intena (mycpu s)) s')).
Proof.
  intros Ht Hn Hm. pose proof (wait_scan_table p addr s Ht) as E. unfold must_wait in Hm.
  destruct (dead_kid p s) as [[np q]|] eqn:Ez; [done|].
  apply andb_true_iff in Hm as [Hkid Hkill]. unfold wait_step. run E.
  unfold bind at 1, pget, gets. cbn [obind]. change (getproc p (enter LkWait s)) with (getproc p s). rewrite Hkid, Hkill. cbn [negb orb].
  destruct (sleep_inside p LkWait s (enter LkWait s) (ChProc p) Ht Hn wait_lock) as (k & Es & _ & _ & Hk); [done|done|apply Ht|].
  rewrite (bind_Switch _ _ _ _ _ Es). eexists. split; [done|]. intros s' R. cbn beta. by rewrite (Hk s' R).
Qed.

Lemma wait_eq p addr l s :
  waiter p l s → 0 ≤ addr < 2 ^ 64 →
  if must_wait p s
  then ∃ k, wait addr s = Switch (asleep (ChProc p) LkWait p (enter LkWait s)) k ∧
         ∀ s' l', resumed p s' → let t := woke p (c_intena (mycpu s)) s' in
           waiter p l' t → must_wait p t = false → wait_end p addr l' t (k s')
  else wait_end p addr l s (wait addr s).
Proof.
  intros W Haddr. pose proof (wa_thread _ _ _ W) as Ht. destruct (wait_locks p s Ht) as (_ & Hw & _).
  unfold wait. run (thread_curproc p s Ht). rewrite (bind_Ret _ _ _ tt (enter LkWait s)) by (apply acquire_ok; [apply Ht|done]).
  destruct (must_wait p s) eqn:Hm.
  - destruct (wait_step_sleep p addr s Ht (wa_noff _ _ _ W) Hm) as (k & Es & Hk).
    destruct (loop_Switch _ _ _ _ _ Es) as (k' & El & Hk'). exists k'. split; [done|]. intros s' l' R W' Hm'.
    destruct (wait_step_end p addr l' _ W' Haddr Hm') as (r & s3 & E3 & R3). by rewrite (Hk' s' tt _ r s3 (Hk s' R) E3).
  - destruct (wait_step_end p addr l s W Haddr Hm) as (r & s' & E & R).
    rewrite (loop_Ret _ 1 tt _ r s'); [done|lia|by apply run_n_stop].
Qed.
End reap.

(** C6: [wait] called by a process with a child that has exited
    writes the exit status of the first such child in the table to the
    address given, if there is one, and either fails with -1 because that
    address is not mapped, or clears the child's entry, returns its pid, and
    gives its trapframe, its memory and its page table back to the free pages
    without writing to any other page.  With no child at all, or when it has
    been killed, and no child has exited, it returns -1 and changes nothing.
    In the remaining case it goes to sleep on its own channel, with the wait
    lock released; woken up, it does the same again. *)
Theorem wait_spec `{LayoutOk} p addr l s :
  waiter p l s → 0 ≤ addr < 2 ^ 64 →
  if must_wait p s
  then ∃ k, wait addr s = Switch (asleep (ChProc p) LkWait p (enter LkWait s)) k ∧
         ∀ s' l', resumed p s' → let t := woke p (c_intena (mycpu s)) s' in
           waiter p l' t → must_wait p t = false → wait_end p addr l' t (k s')
  else wait_end p addr l s (wait addr s).
Proof. apply wait_eq. Qed.

(** Process 0 has a child, process 1, which has exited. *)
Definition sample_waiter (m m' : mem) (fl fl' tf root : Z) : kernel :=
  child (sample_forker m fl) 1
    (set_p_state ZOMBIE (set_p_parent (Some 0%nat) (newborn 7 tf root (procs boot !!! 1%nat)))) m' fl' 8.

Lemma sample_waiter_ok m m' fl fl' tf root l' :
  uvm m fl rootA spages 0 → (∀ va, leaf m rootA va = 0) → birth m m' fl' root tf spages l' →
  waiter 0 l' (sample_waiter m m' fl fl' tf root).
Proof.
  intros U L B. destruct (birth_old m fl rootA spages 0 U m' fl' root tf l' B) as (U' & L' & _).
  pose proof (birth_sub m fl rootA spages 0 U m' fl' root tf l' B) as Hs.
  assert (∀ q, q ∈ procs (sample_waiter m m' fl fl' tf root) → is_dead 0 q →
    q = set_p_state ZOMBIE (set_p_parent (Some 0%nat) (newborn 7 tf root (procs boot !!! 1%nat)))) as Hq.
  { intros q Hq [Hp _].
    change (procs (sample_waiter m m' fl fl' tf root)) with
      (getproc 0 (sample_forker m fl) :: set_p_state ZOMBIE (set_p_parent (Some 0%nat) (newborn 7 tf root (procs boot !!! 1%nat)))
         :: replicate 62 (procs boot !!! 0%nat)) in Hq.
    apply elem_of_cons in Hq as [->|Hq]; [done|]. apply elem_of_cons in Hq as [->|Hq]; [done|].
    by apply elem_of_replicate in Hq as [-> _]. }
  split.
  - by apply (thread_ok_ext 0 boot_thread), boot_thread_ok.
  - done.
  - split; [exact U'|]. intros va Hva. unfold user_pa. change (physmem (sample_waiter m m' fl fl' tf root)) with m'.
    change (p_pagetable (getproc 0 (sample_waiter m m' fl fl' tf root))) with rootA. by rewrite L', L.
  - intros q Hin Hd. rewrite (Hq q Hin Hd). destruct B as [B1 [B2 B3] B4 _ _]. split; [done|exact B1|exact B4|exact B3|].
    split_and!; [intros Ht|intros Ht|apply not_elem_of_nil]; [by destruct (Hs tf (or_introl Ht))|by destruct (Hs tf (or_intror Ht))].
  - intros q x _ _ _. apply not_elem_of_nil.
Qed.

Lemma sample_waiter_dead m m' fl fl' tf root :
  dead_kid 0 (sample_waiter m m' fl fl' tf root) =
  Some (1%nat, set_p_state ZOMBIE (set_p_parent (Some 0%nat) (newborn 7 tf root (procs boot !!! 1%nat)))).
Proof. reflexivity. Qed.

Lemma sample_waiter_ends m m' fl fl' tf root : must_wait 0 (sample_waiter m m' fl fl' tf root) = false.
Proof. unfold must_wait. by rewrite sample_waiter_dead. Qed.

Lemma sample_birth :
  ∃ m fl m' fl' root tf l', uvm m fl rootA spages 0 ∧ (∀ va, leaf m rootA va = 0) ∧ birth m m' fl' root tf spages l'.
Proof.
  destruct (sample_root 8 ltac:(lia)) as (U & L & _). revert U L. generalize sample_mem (snd (freed_mem spages)). intros m fl U L.
  pose proof (sample_forker_ok m fl U) as F. pose proof (fo_thread _ _ _ F) as T. destruct (wait_locks _ _ T) as (Hk & _ & Hl).
  assert (lock_free (sample_forker m fl) LkPid) as Hi by (apply T, all_locks_named; set_solver).
  destruct (allocproc_found_eq (sample_forker m fl) 1 (procs boot !!! 1%nat) spages (th_hart _ _ T) (Hl 1%nat ltac:(unfold NPROC; lia)) Hk Hi)
    as [(tf & root & m' & fl' & l' & _ & B)|(m' & fl' & _ & _ & Hlen)]; [reflexivity|reflexivity|apply (fo_uvm _ _ _ F)| |].
  - by exists m, fl, m', fl', root, tf, l'.
  - exfalso. change (length spages) with 8%nat in Hlen. lia.
Qed.

Lemma wait_spec_witness :
  ∃ s s', wait 0 s = Ret 7 s' ∧ p_state (getproc 1 s') = UNUSED.
Proof.
  destruct sample_birth as (m & fl & m' & fl' & root & tf & l' & U & L & B). exists (sample_waiter m m' fl fl' tf root).
  pose proof (wait_spec 0 0 l' (sample_waiter m m' fl fl' tf root) (sample_waiter_ok m m' fl fl' tf root l' U L B) ltac:(lia)) as W.
  rewrite sample_waiter_ends in W. destruct (wait_end_found _ _ _ _ _ _ W (sample_waiter_dead _ _ _ _ _ _)) as (m2 & fl2 & E).
  eexists. split; [exact E|]. rewrite child_get; [reflexivity|apply Nat.ltb_lt; reflexivity].
Defined.
