(* ===== verification/Exec.v ===== *)
(** * kernel/exec.c, and the arguments of system calls (kernel/syscall.c)

    [exec] builds a new address space from an ELF file, pushes the arguments on
    its stack and gives it to the process.  The argument strings lie in pages
    of their own, whose addresses are [argv]. *)

From S2P Require Import Prelude Machine Memory Kstring State Spinlock Kalloc Vm Sched Ring Uart.
From S2P Require Import Printf Proc Console Sleeplock Block Bio Log Fs Dir Pipe File Life.

Definition ELF_MAGIC : Z := 0x464C457F.
Definition ELF_PROG_LOAD : Z := 1.
Definition sizeof_elfhdr : Z := 64.
Definition sizeof_proghdr : Z := 56.

(** Fields of [struct elfhdr]. *)
Definition elf_magic (e : list Z) : Z := get32 e 0.
Definition elf_entry (e : list Z) : Z := le_get 8 e 24.
Definition elf_phoff (e : list Z) : Z := le_get 8 e 32.
Definition elf_phnum (e : list Z) : Z := get16 e 56.

(** Fields of [struct proghdr]. *)
Definition ph_type (h : list Z) : Z := get32 h 0.
Definition ph_off (h : list Z) : Z := le_get 8 h 8.
Definition ph_vaddr (h : list Z) : Z := le_get 8 h 16.
Definition ph_filesz (h : list Z) : Z := le_get 8 h 32.
Definition ph_memsz (h : list Z) : Z := le_get 8 h 40.

Section exec.
Context `{KernelLayout} `{BlockDriver}.

(** ** Arguments of system calls *)

(** [fetchaddr(addr, ip)]: the result and the value stored. *)
Definition fetchaddr (addr : Z) : K (Z * Z) :=
  let! p := curproc in
  let! q := gets (getproc p) in
  if (addr >=? p_sz q) || (u64 (addr + 8) >? p_sz q) then ret (-1, 0) else
  let! '(r, bytes) := copyin (p_pagetable q) addr 8 in
  if negb (r =? 0) then ret (-1, 0) else
  ret (0, le_get 8 bytes 0).

(** [fetchstr(addr, buf, max)]: the result and the bytes stored in [buf]. *)
Definition fetchstr (addr max : Z) : K (Z * list Z) :=
  let! p := curproc in
  let! pagetable := pget p p_pagetable in
  let! '(err, bytes) := copyinstr pagetable addr max in
  if err <? 0 then ret (err, bytes) else
  ret (Z.of_nat (length (cstring bytes)), bytes).

Definition argraw (n : Z) : K Z :=
  let! p := curproc in
  if n =? 0 then tfget p TF_a0
  else if n =? 1 then tfget p TF_a1
  else if n =? 2 then tfget p TF_a2
  else if n =? 3 then tfget p TF_a3
  else if n =? 4 then tfget p TF_a4
  else if n =? 5 then tfget p TF_a5
  else panic "argraw".

(** [argint] and [argaddr] always return 0; the answer is the value stored. *)
Definition argint (n : Z) : K Z := let! v := argraw n in ret (s32 v).
Definition argaddr (n : Z) : K Z := argraw n.

Definition argstr (n max : Z) : K (Z * list Z) :=
  let! addr := argaddr n in
  fetchstr addr max.

(** ** exec *)

(** One turn of the loop of [loadseg]; the variable is [i]. *)
Definition loadseg_step (pagetable va : Z) (ip : nat) (offset sz i : Z) : K (Z + Z) :=
  if i <? sz then
    let! pa := walkaddr pagetable (u64 (va + i)) in
    if pa =? 0 then panic "loadseg: address should exist" else
    let n := if sz - i <? PGSIZE then sz - i else PGSIZE in
    let! '(r, _) := readi ip (DstPhys pa) (u32 (offset + i)) n in
    if negb (r =? n) then ret (inr (-1)) else ret (inl (u32 (i + PGSIZE)))
  else ret (inr 0).

Definition loadseg (pagetable va : Z) (ip : nat) (offset sz : Z) : K Z :=
  loop (loadseg_step pagetable va ip offset sz) 0.

(** The label [bad]: [ip] is the inode that is still locked, if any. *)
Definition exec_bad (pagetable sz : Z) (ip : option nat) : K Z :=
  when (negb (pagetable =? 0)) (proc_freepagetable pagetable sz) ;;;
  match ip with
  | Some ip => iunlockput ip ;;; end_op
  | None => ret tt
  end ;;;
  ret (-1).

(** One turn of the loop that loads the segments; the variables are [i],
    [off] and [sz].  The loop ends with [sz], and [false] for [goto bad]. *)
Definition exec_seg (ip : nat) (pagetable phnum : Z) (v : Z * Z * Z)
    : K (Z * Z * Z + bool * Z) :=
  let '(i, off, sz) := v in
  if i <? phnum then
    let! '(r, ph) := readi ip DstLocal (u32 off) sizeof_proghdr in
    if negb (r =? sizeof_proghdr) then ret (inr (false, sz)) else
    let next := s32 (off + sizeof_proghdr) in
    if negb (ph_type ph =? ELF_PROG_LOAD) then ret (inl (i + 1, next, sz)) else
    if ph_memsz ph <? ph_filesz ph then ret (inr (false, sz)) else
    if u64 (ph_vaddr ph + ph_memsz ph) <? ph_vaddr ph then ret (inr (false, sz)) else
    let! sz1 := uvmalloc pagetable sz (u64 (ph_vaddr ph + ph_memsz ph)) in
    if sz1 =? 0 then ret (inr (false, sz)) else
    let sz := sz1 in
    if negb (ph_vaddr ph `mod` PGSIZE =? 0) then ret (inr (false, sz)) else
    let! r := loadseg pagetable (ph_vaddr ph) ip (u32 (ph_off ph)) (u32 (ph_filesz ph)) in
    if r <? 0 then ret (inr (false, sz)) else ret (inl (i + 1, next, sz))
  else ret (inr (true, sz)).

(** One turn of the loop that pushes the argument strings; the variables are
    [argv] from [argc] on, [argc], [sp] and [ustack].  [None] is [goto bad]. *)
Definition exec_arg (pagetable stackbase : Z) (v : list Z * Z * Z * list Z)
    : K (list Z * Z * Z * list Z + option (Z * Z * list Z)) :=
  let '(argv, argc, sp, ustack) := v in
  match argv with
  | [] => ret (inr (Some (argc, sp, ustack)))
  | a :: argv =>
      if a =? 0 then ret (inr (Some (argc, sp, ustack))) else
      if argc >=? Z.of_nat MAXARG then ret (inr None) else
      let! m := gets physmem in
      let! len := strlen m a in
      let sp := u64 (sp - (len + 1)) in
      let sp := sp - sp `mod` 16 in
      if sp <? stackbase then ret (inr None) else
      let! r := copyout pagetable sp (ldbytes m a (Z.to_nat (len + 1))) in
      if r <? 0 then ret (inr None) else
      ret (inl (argv, argc + 1, sp, ustack ++ [sp]))
  end.

(** The bytes of an array of [uint64]. *)
Definition u64_bytes (l : list Z) : list Z :=
  l ≫= λ x, le_put 8 (replicate 8 0) 0 x.

(** The loop that leaves [last] after the last slash of the path. *)
Fixpoint last_elem (last s : list Z) : list Z :=
  match s with
  | [] => last
  | c :: s' => last_elem (if c =? 47 then s' else last) s'
  end.

(** From the stack on: [pagetable] holds the program, [sz] bytes of it. *)
Definition exec_stack (p : nat) (path argv : list Z) (elf : list Z) (pagetable sz : Z) : K Z :=
  let! oldsz := pget p p_sz in
  let sz := PGROUNDUP sz in
  let! sz1 := uvmalloc pagetable sz (u64 (sz + 2 * PGSIZE)) in
  if sz1 =? 0 then exec_bad pagetable sz None else
  let sz := sz1 in
  uvmclear pagetable (u64 (sz - 2 * PGSIZE)) ;;;
  let stackbase := u64 (sz - PGSIZE) in
  let! r := loop (exec_arg pagetable stackbase) (argv, 0, sz, []) in
  match r with
  | None => exec_bad pagetable sz None
  | Some (argc, sp, ustack) =>
      let ustack := ustack ++ [0] in
      let sp := u64 (sp - (argc + 1) * 8) in
      let sp := sp - sp `mod` 16 in
      if sp <? stackbase then exec_bad pagetable sz None else
      let! r := copyout pagetable sp (u64_bytes ustack) in
      if r <? 0 then exec_bad pagetable sz None else
      tfset p TF_a1 sp ;;;
      pset p (λ q, set_p_name (bytes_safestrcpy (p_name q) (last_elem path path) 16) q) ;;;
      let! oldpagetable := pget p p_pagetable in
      pset p (set_p_pagetable pagetable) ;;;
      pset p (set_p_sz sz) ;;;
      tfset p TF_epc (elf_entry elf) ;;;
      tfset p TF_sp sp ;;;
      proc_freepagetable oldpagetable oldsz ;;;
      ret (s32 argc)
  end.

Definition exec (path argv : list Z) : K Z :=
  let! p := curproc in
  begin_op ;;;
  let! ip := namei path in
  match ip with
  | None => end_op ;;; ret (-1)
  | Some ip =>
      ilock ip ;;;
      let! '(r, elf) := readi ip DstLocal 0 sizeof_elfhdr in
      if negb (r =? sizeof_elfhdr) then exec_bad 0 0 (Some ip) else
      if negb (elf_magic elf =? ELF_MAGIC) then exec_bad 0 0 (Some ip) else
      let! pagetable := proc_pagetable p in
      if pagetable =? 0 then exec_bad 0 0 (Some ip) else
      let! '(ok, sz) := loop (exec_seg ip pagetable (elf_phnum elf)) (0, s32 (elf_phoff elf), 0) in
      if negb ok then exec_bad pagetable sz (Some ip) else
      iunlockput ip ;;;
      end_op ;;;
      exec_stack p path argv elf pagetable sz
  end.
End exec.
