(* ===== verification/Sysfile.v ===== *)
(** * kernel/sysfile.c and kernel/sysproc.c

    The system calls.  Their arguments come from the trapframe of the calling
    process; a user pointer is checked when it is used. *)

From S2P Require Import Prelude Machine Memory Kstring State Spinlock Kalloc Vm Sched Ring Uart.
From S2P Require Import Printf Proc Console Sleeplock Block Bio Log Fs Dir Pipe File Life Exec.

Definition O_RDONLY : Z := 0x000.
Definition O_WRONLY : Z := 0x001.
Definition O_RDWR : Z := 0x002.
Definition O_CREATE : Z := 0x200.
Definition O_TRUNC : Z := 0x400.

Section sysfile.
Context `{KernelLayout} `{BlockDriver}.

(** [argfd(n, pfd, pf)]: the descriptor and its file, or [None] for -1. *)
Definition argfd (n : Z) : K (option (nat * nat)) :=
  let! fd := argint n in
  if (fd <? 0) || (fd >=? Z.of_nat NOFILE) then ret None else
  let! p := curproc in
  let! ofile := pget p p_ofile in
  match ofile !!! Z.to_nat fd with
  | None => ret None
  | Some f => ret (Some (Z.to_nat fd, f))
  end.

Definition set_ofile (p fd : nat) (f : option nat) : K unit :=
  pset p (λ q, set_p_ofile (<[fd := f]> (p_ofile q)) q).

Definition fdalloc_one (p f fd : nat) : K (option nat) :=
  let! ofile := pget p p_ofile in
  if bool_decide (ofile !!! fd = None)
  then set_ofile p fd (Some f) ;;; ret (Some fd)
  else ret None.

(** [fdalloc]: [None] for -1. *)
Definition fdalloc (f : nat) : K (option nat) :=
  let! p := curproc in
  for_find (seq 0 NOFILE) (fdalloc_one p f).

Definition sys_dup : K Z :=
  let! r := argfd 0 in
  match r with
  | None => ret (-1)
  | Some (_, f) =>
      let! fd := fdalloc f in
      match fd with
      | None => ret (-1)
      | Some fd => let! _ := filedup f in ret (Z.of_nat fd)
      end
  end.

Definition sys_read : K Z :=
  let! r := argfd 0 in
  match r with
  | None => ret (-1)
  | Some (_, f) =>
      let! n := argint 2 in
      let! p := argaddr 1 in
      fileread f p n
  end.

Definition sys_write : K Z :=
  let! r := argfd 0 in
  match r with
  | None => ret (-1)
  | Some (_, f) =>
      let! n := argint 2 in
      let! p := argaddr 1 in
      filewrite f p n
  end.

Definition sys_close : K Z :=
  let! r := argfd 0 in
  match r with
  | None => ret (-1)
  | Some (fd, f) =>
      let! p := curproc in
      set_ofile p fd None ;;;
      fileclose f ;;;
      ret 0
  end.

Definition sys_fstat : K Z :=
  let! r := argfd 0 in
  match r with
  | None => ret (-1)
  | Some (_, f) =>
      let! st := argaddr 1 in
      filestat f st
  end.

(** The label [bad] of [sys_link]. *)
Definition sys_link_bad (ip : nat) : K Z :=
  ilock ip ;;;
  iset ip (λ i, set_i_nlink (s16 (i_nlink i - 1)) i) ;;;
  iupdate ip ;;;
  iunlockput ip ;;;
  end_op ;;;
  ret (-1).

Definition sys_link : K Z :=
  let! '(r, old) := argstr 0 MAXPATH in
  if r <? 0 then ret (-1) else
  let! '(r, new) := argstr 1 MAXPATH in
  if r <? 0 then ret (-1) else
  begin_op ;;;
  let! ip := namei old in
  match ip with
  | None => end_op ;;; ret (-1)
  | Some ip =>
      ilock ip ;;;
      let! type := ifield ip i_type in
      if type =? T_DIR then iunlockput ip ;;; end_op ;;; ret (-1) else
      iset ip (λ i, set_i_nlink (s16 (i_nlink i + 1)) i) ;;;
      iupdate ip ;;;
      iunlock ip ;;;
      let! '(dp, name) := nameiparent new in
      match dp with
      | None => sys_link_bad ip
      | Some dp =>
          ilock dp ;;;
          let! ddev := ifield dp i_dev in
          let! idev := ifield ip i_dev in
          let! r :=
            (if negb (ddev =? idev) then ret (-1)
             else let! inum := ifield ip i_inum in dirlink dp name inum) in
          if r <? 0 then iunlockput dp ;;; sys_link_bad ip else
          iunlockput dp ;;;
          iput ip ;;;
          end_op ;;;
          ret 0
      end
  end.

Definition isdirempty_step (dp : nat) (off : Z) : K (Z + bool) :=
  let! size := ifield dp i_size in
  if off <? size then
    let! '(r, de) := readi dp DstLocal off sizeof_dirent in
    if negb (r =? sizeof_dirent) then panic "isdirempty: readi" else
    if negb (de_inum de =? 0) then ret (inr false) else ret (inl (off + sizeof_dirent))
  else ret (inr true).

Definition isdirempty (dp : nat) : K bool := loop (isdirempty_step dp) (2 * sizeof_dirent).

(** The label [bad] of [sys_unlink]. *)
Definition sys_unlink_bad (dp : nat) : K Z :=
  iunlockput dp ;;;
  end_op ;;;
  ret (-1).

(** [sys_unlink] from the entry found at [off] on. *)
Definition unlink_entry (dp ip : nat) (off : Z) : K Z :=
  ilock ip ;;;
  let! i := gets (getinode ip) in
  if i_nlink i <? 1 then panic "unlink: nlink < 1" else
  let! busy := (if i_type i =? T_DIR then let! e := isdirempty ip in ret (negb e)
                else ret false) in
  if (busy : bool) then iunlockput ip ;;; sys_unlink_bad dp else
  let! r := writei dp (SrcKernel (replicate (Z.to_nat sizeof_dirent) 0)) off sizeof_dirent in
  if negb (r =? sizeof_dirent) then panic "unlink: writei" else
  let! type := ifield ip i_type in
  when (type =? T_DIR)
    (iset dp (λ i, set_i_nlink (s16 (i_nlink i - 1)) i) ;;;
     iupdate dp) ;;;
  iunlockput dp ;;;
  iset ip (λ i, set_i_nlink (s16 (i_nlink i - 1)) i) ;;;
  iupdate ip ;;;
  iunlockput ip ;;;
  end_op ;;;
  ret 0.

Definition sys_unlink : K Z :=
  let! '(r, path) := argstr 0 MAXPATH in
  if r <? 0 then ret (-1) else
  begin_op ;;;
  let! '(dp, name) := nameiparent path in
  match dp with
  | None => end_op ;;; ret (-1)
  | Some dp =>
      ilock dp ;;;
      if (namecmp name (bytes_of ".") =? 0) || (namecmp name (bytes_of "..") =? 0)
      then sys_unlink_bad dp else
      let! r := dirlookup dp name in
      match r with
      | None => sys_unlink_bad dp
      | Some (ip, off) => unlink_entry dp ip off
      end
  end.

(** [create] when the name is new: the inode comes back locked. *)
Definition create_new (dp : nat) (name : list Z) (type major minor : Z) : K nat :=
  let! dev := ifield dp i_dev in
  let! ip := ialloc dev type in
  ilock ip ;;;
  iset ip (set_i_major major) ;;;
  iset ip (set_i_minor minor) ;;;
  iset ip (set_i_nlink 1) ;;;
  iupdate ip ;;;
  let! inum := ifield ip i_inum in
  when (type =? T_DIR)
    (iset dp (λ i, set_i_nlink (s16 (i_nlink i + 1)) i) ;;;
     iupdate dp ;;;
     let! r := dirlink ip (bytes_of ".") inum in
     if r <? 0 then panic "create dots" else
     let! dinum := ifield dp i_inum in
     let! r := dirlink ip (bytes_of "..") dinum in
     if r <? 0 then panic "create dots" else ret tt) ;;;
  let! r := dirlink dp name inum in
  if r <? 0 then panic "create: dirlink" else
  iunlockput dp ;;;
  ret ip.

Definition create (path : list Z) (type major minor : Z) : K (option nat) :=
  let! '(dp, name) := nameiparent path in
  match dp with
  | None => ret None
  | Some dp =>
      ilock dp ;;;
      let! r := dirlookup dp name in
      match r with
      | Some (ip, _) =>
          iunlockput dp ;;;
          ilock ip ;;;
          let! itype := ifield ip i_type in
          if (type =? T_FILE) && ((itype =? T_FILE) || (itype =? T_DEVICE))
          then ret (Some ip)
          else iunlockput ip ;;; ret None
      | None =>
          let! ip := create_new dp name type major minor in
          ret (Some ip)
      end
  end.

(** [sys_open] once the inode is found and locked. *)
Definition open_file (ip : nat) (omode : Z) : K Z :=
  let! i := gets (getinode ip) in
  if (i_type i =? T_DEVICE) && ((i_major i <? 0) || (i_major i >=? NDEV)) then
    iunlockput ip ;;; end_op ;;; ret (-1)
  else
  let! f := filealloc in
  let! fd := (match f with
              | None => ret None
              | Some f => let! fd := fdalloc f in ret (pair f <$> fd)
              end) in
  match fd with
  | None =>
      match f with Some f => fileclose f | None => ret tt end ;;;
      iunlockput ip ;;;
      end_op ;;;
      ret (-1)
  | Some (f, fd) =>
      (if i_type i =? T_DEVICE then
         fset f (set_f_type FD_DEVICE) ;;;
         fset f (set_f_major (i_major i))
       else
         fset f (set_f_type FD_INODE) ;;;
         fset f (set_f_off 0)) ;;;
      fset f (set_f_ip (Some ip)) ;;;
      fset f (set_f_readable (Z.land omode O_WRONLY =? 0)) ;;;
      fset f (set_f_writable
        (negb (Z.land omode O_WRONLY =? 0) || negb (Z.land omode O_RDWR =? 0))) ;;;
      when (negb (Z.land omode O_TRUNC =? 0) && (i_type i =? T_FILE)) (itrunc ip) ;;;
      iunlock ip ;;;
      end_op ;;;
      ret (Z.of_nat fd)
  end.

Definition sys_open : K Z :=
  let! '(n, path) := argstr 0 MAXPATH in
  if n <? 0 then ret (-1) else
  let! omode := argint 1 in
  begin_op ;;;
  if negb (Z.land omode O_CREATE =? 0) then
    let! ip := create path T_FILE 0 0 in
    match ip with
    | None => end_op ;;; ret (-1)
    | Some ip => open_file ip omode
    end
  else
    let! ip := namei path in
    match ip with
    | None => end_op ;;; ret (-1)
    | Some ip =>
        ilock ip ;;;
        let! type := ifield ip i_type in
        if (type =? T_DIR) && negb (omode =? O_RDONLY)
        then iunlockput ip ;;; end_op ;;; ret (-1)
        else open_file ip omode
    end.

Definition sys_mkdir : K Z :=
  begin_op ;;;
  let! '(r, path) := argstr 0 MAXPATH in
  let! ip := (if r <? 0 then ret None else create path T_DIR 0 0) in
  match ip with
  | None => end_op ;;; ret (-1)
  | Some ip => iunlockput ip ;;; end_op ;;; ret 0
  end.

Definition sys_mknod : K Z :=
  begin_op ;;;
  let! '(r, path) := argstr 0 MAXPATH in
  let! ip := (if r <? 0 then ret None else
              let! major := argint 1 in
              let! minor := argint 2 in
              create path T_DEVICE (s16 major) (s16 minor)) in
  match ip with
  | None => end_op ;;; ret (-1)
  | Some ip => iunlockput ip ;;; end_op ;;; ret 0
  end.

Definition sys_chdir : K Z :=
  let! p := curproc in
  begin_op ;;;
  let! '(r, path) := argstr 0 MAXPATH in
  let! ip := (if r <? 0 then ret None else namei path) in
  match ip with
  | None => end_op ;;; ret (-1)
  | Some ip =>
      ilock ip ;;;
      let! type := ifield ip i_type in
      if negb (type =? T_DIR) then iunlockput ip ;;; end_op ;;; ret (-1) else
      iunlock ip ;;;
      let! cwd := pget p p_cwd in
      let! cwd := deref cwd in
      iput cwd ;;;
      end_op ;;;
      pset p (set_p_cwd (Some ip)) ;;;
      ret 0
  end.

(** One turn of the loop of [sys_exec] that copies the arguments; the variable
    is the list of the pages filled so far.  [false] is [goto bad]. *)
Definition sys_exec_arg (uargv : Z) (argv : list Z) : K (list Z + bool * list Z) :=
  let i := Z.of_nat (length argv) in
  if i >=? Z.of_nat MAXARG then ret (inr (false, argv)) else
  let! '(r, uarg) := fetchaddr (u64 (uargv + 8 * i)) in
  if r <? 0 then ret (inr (false, argv)) else
  if uarg =? 0 then ret (inr (true, argv)) else
  let! page := kalloc in
  if page =? 0 then ret (inr (false, argv)) else
  let! '(r, bytes) := fetchstr uarg PGSIZE in
  modify (upd_mem (λ m, stbytes m page bytes)) ;;;
  if r <? 0 then ret (inr (false, argv ++ [page])) else ret (inl (argv ++ [page])).

Definition sys_exec : K Z :=
  let! '(r, path) := argstr 0 MAXPATH in
  if r <? 0 then ret (-1) else
  let! uargv := argaddr 1 in
  let! '(ok, argv) := loop (sys_exec_arg uargv) [] in
  if (ok : bool) then
    let! r := exec (cstring path) (argv ++ [0]) in
    for_each argv kfree ;;;
    ret r
  else
    for_each argv kfree ;;;
    ret (-1).

(** [sys_pipe] once both descriptors are allocated. *)
Definition pipe_copyout (p : nat) (fdarray : Z) (rf wf fd0 fd1 : nat) : K Z :=
  let! pagetable := pget p p_pagetable in
  let! r := copyout pagetable fdarray (int_bytes (Z.of_nat fd0)) in
  let! r := (if r <? 0 then ret r
             else copyout pagetable (u64 (fdarray + 4)) (int_bytes (Z.of_nat fd1))) in
  if r <? 0 then
    set_ofile p fd0 None ;;;
    set_ofile p fd1 None ;;;
    fileclose rf ;;;
    fileclose wf ;;;
    ret (-1)
  else ret 0.

Definition sys_pipe : K Z :=
  let! p := curproc in
  let! fdarray := argaddr 0 in
  let! r := pipealloc in
  match r with
  | None => ret (-1)
  | Some (rf, wf) =>
      let! fd0 := fdalloc rf in
      match fd0 with
      | None => fileclose rf ;;; fileclose wf ;;; ret (-1)
      | Some fd0 =>
          let! fd1 := fdalloc wf in
          match fd1 with
          | None =>
              set_ofile p fd0 None ;;;
              fileclose rf ;;;
              fileclose wf ;;;
              ret (-1)
          | Some fd1 => pipe_copyout p fdarray rf wf fd0 fd1
          end
      end
  end.

(** ** kernel/sysproc.c *)

Definition sys_exit : K Z :=
  let! n := argint 0 in
  exit n ;;;
  ret 0.

Definition sys_getpid : K Z :=
  let! p := curproc in
  pget p p_pid.

Definition sys_fork : K Z := fork.

Definition sys_wait : K Z :=
  let! p := argaddr 0 in
  wait p.

Definition sys_sbrk : K Z :=
  let! n := argint 0 in
  let! p := curproc in
  let! sz := pget p p_sz in
  let addr := s32 sz in
  let! r := growproc n in
  if r <? 0 then ret (-1) else ret addr.

(** One turn of the loop of [sys_sleep]: the comparison is of [uint]s. *)
Definition sys_sleep_step (ticks0 n : Z) (_ : unit) : K (unit + Z) :=
  let! t := gets ticks in
  if u32 (t - ticks0) <? u32 n then
    let! p := curproc in
    let! killed := pget p p_killed in
    if negb (killed =? 0) then release LkTicks ;;; ret (inr (-1))
    else sleep ChTicks LkTicks ;;; ret (inl tt)
  else release LkTicks ;;; ret (inr 0).

Definition sys_sleep : K Z :=
  let! n := argint 0 in
  acquire LkTicks ;;;
  let! ticks0 := gets ticks in
  loop (sys_sleep_step ticks0 n) tt.

Definition sys_kill : K Z :=
  let! pid := argint 0 in
  kill pid.

Definition sys_uptime : K Z :=
  acquire LkTicks ;;;
  let! xticks := gets ticks in
  release LkTicks ;;;
  ret xticks.

Definition sys_trace : K Z :=
  let! mask := argint 0 in
  let! p := curproc in
  pset p (set_p_trace_mask mask) ;;;
  ret 0.

(** The bytes of a [struct sysinfo]. *)
Definition sysinfo_bytes (freemem nproc : Z) : list Z := u64_bytes [freemem; nproc].

Definition sys_sysinfo : K Z :=
  let! addr := argaddr 0 in
  let! freemem := kfreemem in
  let freemem := s32 freemem in
  let! n := nproc in
  let! p := curproc in
  let! pagetable := pget p p_pagetable in
  let! r := copyout pagetable addr (sysinfo_bytes (u64 freemem) n) in
  if r <? 0 then ret (-1) else ret 0.
End sysfile.
