(* ===== verification/Syscall.v ===== *)
(** * kernel/syscall.c: dispatch and tracing *)

From S2P Require Import Prelude Machine Memory Kstring State Spinlock Kalloc Vm Sched Ring Uart.
From S2P Require Import Printf Proc Console Sleeplock Block Bio Log Fs Dir Pipe File Life Exec.
From S2P Require Import Sysfile.

(** kernel/syscall.h *)
Definition SYS_fork : Z := 1.
Definition SYS_exit : Z := 2.
Definition SYS_wait : Z := 3.
Definition SYS_pipe : Z := 4.
Definition SYS_read : Z := 5.
Definition SYS_kill : Z := 6.
Definition SYS_exec : Z := 7.
Definition SYS_fstat : Z := 8.
Definition SYS_chdir : Z := 9.
Definition SYS_dup : Z := 10.
Definition SYS_getpid : Z := 11.
Definition SYS_sbrk : Z := 12.
Definition SYS_sleep : Z := 13.
Definition SYS_uptime : Z := 14.
Definition SYS_open : Z := 15.
Definition SYS_write : Z := 16.
Definition SYS_mknod : Z := 17.
Definition SYS_unlink : Z := 18.
Definition SYS_link : Z := 19.
Definition SYS_mkdir : Z := 20.
Definition SYS_close : Z := 21.
Definition SYS_trace : Z := 22.
Definition SYS_sysinfo : Z := 23.

(** The table [syscall_names]. *)
Definition syscall_names : list (Z * string) := [
  (SYS_fork, "fork"); (SYS_exit, "exit"); (SYS_wait, "wait"); (SYS_pipe, "pipe");
  (SYS_read, "read"); (SYS_kill, "kill"); (SYS_exec, "exec"); (SYS_fstat, "fstat");
  (SYS_chdir, "chdir"); (SYS_dup, "dup"); (SYS_getpid, "getpid"); (SYS_sbrk, "sbrk");
  (SYS_sleep, "sleep"); (SYS_uptime, "uptime"); (SYS_open, "open"); (SYS_write, "write");
  (SYS_mknod, "mknod"); (SYS_unlink, "unlink"); (SYS_link, "link"); (SYS_mkdir, "mkdir");
  (SYS_close, "close"); (SYS_trace, "trace"); (SYS_sysinfo, "sysinfo")]%string.

Fixpoint assoc {A} (n : Z) (l : list (Z * A)) : option A :=
  match l with
  | [] => None
  | (k, v) :: l' => if n =? k then Some v else assoc n l'
  end.

Section syscall.
Context `{KernelLayout} `{BlockDriver}.

(** The table [syscalls]; an entry that is not given is null. *)
Definition syscalls : list (Z * K Z) := [
  (SYS_fork, sys_fork); (SYS_exit, sys_exit); (SYS_wait, sys_wait); (SYS_pipe, sys_pipe);
  (SYS_read, sys_read); (SYS_kill, sys_kill); (SYS_exec, sys_exec); (SYS_fstat, sys_fstat);
  (SYS_chdir, sys_chdir); (SYS_dup, sys_dup); (SYS_getpid, sys_getpid);
  (SYS_sbrk, sys_sbrk); (SYS_sleep, sys_sleep); (SYS_uptime, sys_uptime);
  (SYS_open, sys_open); (SYS_write, sys_write); (SYS_mknod, sys_mknod);
  (SYS_unlink, sys_unlink); (SYS_link, sys_link); (SYS_mkdir, sys_mkdir);
  (SYS_close, sys_close); (SYS_trace, sys_trace); (SYS_sysinfo, sys_sysinfo)].

(** [mask & (1 << num)] *)
Definition traced (mask num : Z) : bool := negb (Z.land mask (s32 (Z.shiftl 1 num)) =? 0).

Definition trace_enter (p : nat) (num : Z) : K unit :=
  let! pid := pget p p_pid in
  printf "%d: syscall %s -> " [AInt pid; AStr (bytes_of <$> assoc num syscall_names)].

Definition trace_leave (p : nat) : K unit :=
  let! a0 := tfget p TF_a0 in
  printf ("%d" ++ nl) [AInt (s32 a0)].

(** The call itself: its result goes to the user's a0. *)
Definition do_syscall (p : nat) (call : K Z) : K unit :=
  let! r := call in
  tfset p TF_a0 (u64 r).

Definition syscall : K unit :=
  let! p := curproc in
  let! a7 := tfget p TF_a7 in
  let num := s32 a7 in
  match assoc num syscalls with
  | Some call =>
      if num =? SYS_trace then
        let! mask := argint 0 in
        when (traced mask SYS_trace) (trace_enter p num) ;;;
        do_syscall p call ;;;
        when (traced mask SYS_trace) (trace_leave p)
      else
        let! mask := pget p p_trace_mask in
        when (traced mask num) (trace_enter p num) ;;;
        do_syscall p call ;;;
        let! mask := pget p p_trace_mask in
        when (traced mask num) (trace_leave p)
  | None =>
      let! q := gets (getproc p) in
      printf ("%d %s: unknown sys call %d" ++ nl)
        [AInt (p_pid q); AStr (Some (cstring (p_name q))); AInt num] ;;;
      tfset p TF_a0 (u64 (-1))
  end.
End syscall.
