(* ===== verification/SyscallSpec.v ===== *)
(** * System calls: dispatch, tracing and sysinfo

    [syscall] of kernel/syscall.c runs the entry of the table for the number in a7 and puts its
    result in a0.  A call whose bit is set in the trace mask prints one line
    with the process, the name and the result; the [trace] call itself goes by
    the mask it is given.  [sysinfo] reports the free pages and the processes
    in use to the user. *)

From S2P Require Import Prelude Machine Memory Kstring State Spinlock Kalloc Vm VmTables VmMap VmSpace VmCopy VmSpec.
From S2P Require Import Sched Runs Uart Printf Proc Console.
From S2P Require Import UartSpec ConsoleSpec PrintSpec Sleeplock Block Bio Log Fs Dir Pipe File Life Exec Sysfile Syscall.

(** ** What is printed *)

Definition number (x : Z) : list Z := reverse (printint_buf x 10 true).

Definition call_name (num : Z) : list Z := default (bytes_of "(null)") (bytes_of <$> assoc num syscall_names).

Definition trace_head (pid num : Z) : list Z := number pid ++ bytes_of ": syscall " ++ call_name num ++ bytes_of " -> ".
Definition trace_result (r : Z) : list Z := number (s32 r) ++ [10].
Definition unknown_call (pid : Z) (name : list Z) (num : Z) : list Z :=
  number pid ++ [32] ++ cstring name ++ bytes_of ": unknown sys call " ++ number num ++ [10].

Lemma s32_range x : - 2 ^ 31 ≤ s32 x < 2 ^ 31.
Proof. unfold s32. pose proof (u32_range x). destruct (Z.ltb_spec (u32 x) (2 ^ 31)); lia. Qed.

Lemma bytes_of_bytes t : Forall is_byte (bytes_of t).
Proof.
  induction t as [|a t IH]; cbn [bytes_of]; constructor; [|done]. pose proof (Ascii.N_ascii_bounded a). unfold is_byte. lia.
Qed.

Lemma cstring_bytes l : Forall is_byte l → Forall is_byte (cstring l).
Proof. intros H. induction H as [|c l Hc Hl IH]; cbn [cstring]; [done|]. destruct (c =? 0); auto with bytes. Qed.

(** ** The calling process *)

Record caller (p : nat) (s : kernel) : Prop := {
  ca_thread : thread_ok p s;
  ca_dev : dev_ok s;
  ca_pid : - 2 ^ 31 ≤ p_pid (getproc p s) < 2 ^ 31;
  ca_name : Forall is_byte (p_name (getproc p s))
}.

(** A register of the user, and the state with a result in a0. *)
Definition reg (p : nat) (field : Z) (s : kernel) : Z := ld64 (physmem s) (p_trapframe (getproc p s) + field).
Definition returned (p : nat) (r : Z) (s : kernel) : kernel :=
  upd_mem (λ m, st64 m (p_trapframe (getproc p s) + TF_a0) (u64 r)) s.

(** The formats of syscall.c. *)
Lemma enter_text pid o :
  fmt_out (bytes_of "%d: syscall %s -> ") [AInt pid; AStr o] =
  number pid ++ bytes_of ": syscall " ++ default (bytes_of "(null)") o ++ bytes_of " -> ".
Proof. reflexivity. Qed.

Lemma leave_text x : fmt_out (bytes_of ("%d" ++ nl)) [AInt x] = number x ++ [10].
Proof. reflexivity. Qed.

Lemma unknown_text pid name num :
  fmt_out (bytes_of ("%d %s: unknown sys call %d" ++ nl)) [AInt pid; AStr (Some (cstring name)); AInt num] = unknown_call pid name num.
Proof. reflexivity. Qed.

Lemma s32_u64 x : s32 (u64 x) = s32 x.
Proof. unfold s32, u32, u64. rewrite Z.mod_mod_divide by (by exists (2 ^ 32)). done. Qed.

Lemma result_text p r s : trace_result (reg p TF_a0 (returned p r s)) = trace_result r.
Proof.
  unfold reg, returned. cbn. rewrite ld64_st64. unfold trace_result, u64. rewrite Z.mod_mod by lia. fold (u64 r). by rewrite s32_u64.
Qed.

Section trace.
Context `{KernelLayout} `{BlockDriver}.

Lemma caller_printf p fmt ap s :
  caller p s → Forall arg_ok ap →
  ∃ u, printf fmt ap s = Ret tt (set_uart0 u s) ∧ wrote_bytes (fmt_out (bytes_of fmt) ap) (uart0 s) u.
Proof.
  intros C Ha. pose proof (ca_thread _ _ C) as T. apply printf_eq; [apply T|apply C| |apply bytes_of_bytes|done].
  apply (th_locks _ _ T), all_locks_named. repeat constructor.
Qed.

Lemma caller_uart p u bs s : caller p s → wrote_bytes bs (uart0 s) u → caller p (set_uart0 u s).
Proof. intros [[T1 T2 T3 T4 T5] D P N] W. split; [by split|by eapply dev_ok_wrote|done|done]. Qed.

Lemma caller_returned p r s : caller p s → caller p (returned p r s).
Proof. intros [[T1 T2 T3 T4 T5] D P N]. by split. Qed.

(** The first half of a line, and the second. *)
Lemma trace_enter_eq p num b s :
  caller p s →
  ∃ u, when b (trace_enter p num) s = Ret tt (set_uart0 u s) ∧
    wrote_bytes (if b then trace_head (p_pid (getproc p s)) num else []) (uart0 s) u.
Proof.
  intros C. destruct b; cbn [when]; [|exists (uart0 s); split; [by rewrite set_uart0_id|apply wrote_bytes_nil]].
  unfold trace_enter. rewrite (bind_Ret _ _ s (p_pid (getproc p s)) s) by done.
  destruct (caller_printf p "%d: syscall %s -> " [AInt (p_pid (getproc p s)); AStr (bytes_of <$> assoc num syscall_names)] s C) as (u & E & W).
  - repeat constructor; [apply C|apply C|]. destruct (assoc num syscall_names); [apply bytes_of_bytes|constructor].
  - exists u. split; [done|]. by rewrite enter_text in W.
Qed.

Lemma trace_leave_eq p b s :
  caller p s →
  ∃ u, when b (trace_leave p) s = Ret tt (set_uart0 u s) ∧
    wrote_bytes (if b then trace_result (reg p TF_a0 s) else []) (uart0 s) u.
Proof.
  intros C. destruct b; cbn [when]; [|exists (uart0 s); split; [by rewrite set_uart0_id|apply wrote_bytes_nil]].
  unfold trace_leave. rewrite (bind_Ret _ _ s (reg p TF_a0 s) s) by done.
  destruct (caller_printf p ("%d" ++ nl) [AInt (s32 (reg p TF_a0 s))] s C) as (u & E & W); [by repeat constructor; apply s32_range|].
  exists u. split; [done|]. by rewrite leave_text in W.
Qed.

(** The mask a call goes by when it starts, and when it has returned. *)
Definition mask_before (p : nat) (num : Z) (s : kernel) : Z :=
  if num =? SYS_trace then s32 (reg p TF_a0 s) else p_trace_mask (getproc p s).
Definition mask_after (p : nat) (num mask : Z) (s : kernel) : Z :=
  if num =? SYS_trace then mask else p_trace_mask (getproc p s).

(** What is left of [syscall] when the call has returned [r]. *)
Definition finish (p : nat) (num mask r : Z) : K unit :=
  tfset p TF_a0 (u64 r) ;;;
  let! after := gets (mask_after p num mask) in
  when (traced after num) (trace_leave p).

Lemma finish_eq p num mask r s :
  caller p s →
  ∃ u, finish p num mask r s = Ret tt (set_uart0 u (returned p r s)) ∧
    wrote_bytes (if traced (mask_after p num mask s) num then trace_result r else []) (uart0 s) u.
Proof.
  intros C. unfold finish. rewrite (bind_Ret _ _ s tt (returned p r s)) by done.
  rewrite (bind_Ret _ _ _ (mask_after p num mask s) (returned p r s)) by done.
  destruct (trace_leave_eq p (traced (mask_after p num mask s) num) _ (caller_returned p r s C)) as (u & E & W).
  exists u. split; [done|]. by rewrite result_text in W.
Qed.

Lemma syscall_found p num call s :
  caller p s → s32 (reg p TF_a7 s) = num → assoc num syscalls = Some call →
  ∃ u, wrote_bytes (if traced (mask_before p num s) num then trace_head (p_pid (getproc p s)) num else []) (uart0 s) u ∧
    syscall s = bind call (finish p num (mask_before p num s)) (set_uart0 u s).
Proof.
  intros C Hn Hc. unfold syscall. pose proof (ca_thread _ _ C) as T. run (thread_curproc p s T).
  rewrite (bind_Ret _ _ s (reg p TF_a7 s) s) by done. cbv zeta. rewrite Hn, Hc. unfold mask_before, finish, mask_after.
  destruct (Z.eqb_spec num SYS_trace) as [->|Hne].
  - assert (argint 0 s = Ret (s32 (reg p TF_a0 s)) s) as Ea.
    { unfold argint, argraw. rewrite (bind_Ret _ _ s (reg p TF_a0 s) s); [done|]. by run (thread_curproc p s T). }
    run Ea. destruct (trace_enter_eq p SYS_trace (traced (s32 (reg p TF_a0 s)) SYS_trace) s C) as (u & E & W). run E.
    exists u. split; [done|]. unfold do_syscall. rewrite !bind_assoc. done.
  - rewrite (bind_Ret _ _ s (p_trace_mask (getproc p s)) s) by done.
    destruct (trace_enter_eq p num (traced (p_trace_mask (getproc p s)) num) s C) as (u & E & W). run E.
    exists u. split; [done|]. unfold do_syscall. rewrite !bind_assoc. done.
Qed.

Lemma syscall_unknown p num s :
  caller p s → s32 (reg p TF_a7 s) = num → assoc num syscalls = None →
  ∃ u, syscall s = Ret tt (returned p (-1) (set_uart0 u s)) ∧
    wrote_bytes (unknown_call (p_pid (getproc p s)) (p_name (getproc p s)) num) (uart0 s) u.
Proof.
  intros C Hn Hc. unfold syscall. pose proof (ca_thread _ _ C) as T. run (thread_curproc p s T).
  rewrite (bind_Ret _ _ s (reg p TF_a7 s) s) by done. cbv zeta. rewrite Hn, Hc. rewrite (bind_Ret _ _ s (getproc p s) s) by done.
  destruct (caller_printf p ("%d %s: unknown sys call %d" ++ nl)
    [AInt (p_pid (getproc p s)); AStr (Some (cstring (p_name (getproc p s)))); AInt num] s C) as (u & E & W).
  - repeat constructor; [apply C|apply C|apply cstring_bytes, C|rewrite <- Hn; apply s32_range..].
  - run E. exists u. split; [done|]. by rewrite unknown_text in W.
Qed.

(** The numbers of the system calls, and their bits in a mask. *)
Lemma call_number num call : assoc num syscalls = Some call → 0 ≤ num < 31.
Proof.
  assert (Forall (λ e, 0 ≤ e.1 < 31) syscalls) as F by (unfold syscalls; repeat (apply List.Forall_cons; [by cbn|]); apply List.Forall_nil).
  induction F as [|[n c] l Hn _ IH]; cbn [assoc]; [done|]. destruct (Z.eqb_spec num n) as [->|_]; [done|exact IH].
Qed.

Lemma traced_bit mask num : 0 ≤ num < 31 → traced mask num = Z.testbit mask num.
Proof.
  intros Hn. assert (2 ^ num < 2 ^ 31) by (apply Z.pow_lt_mono_r; lia). assert (0 < 2 ^ num) by (apply Z.pow_pos_nonneg; lia).
  unfold traced. rewrite Z.shiftl_1_l, s32_small by lia. destruct (Z.testbit mask num) eqn:E.
  - apply negb_true_iff, Z.eqb_neq. intros E0. apply (f_equal (λ x, Z.testbit x num)) in E0.
    by rewrite Z.land_spec, E, Z.pow2_bits_true, Z.bits_0 in E0 by lia.
  - apply negb_false_iff, Z.eqb_eq. apply Z.bits_inj'. intros i Hi. rewrite Z.land_spec, Z.bits_0, Z.pow2_bits_eqb by lia.
    destruct (Z.eqb_spec num i) as [<-|_]; [by rewrite E|apply andb_false_r].
Qed.
End trace.

(** C7: For a number in the table, [syscall] runs that entry and
    returns with its result in the caller's a0.  Exactly when the bit of the
    call is set in the process's trace mask (for [trace], in the new mask) it
    prints the pid and the name before the call and the result after it, which
    make up one line; otherwise it prints nothing.  The mask is read again
    after the call.  A call that sleeps, panics or does not return ends
    [syscall] in the same way.  For any other number it prints a message and
    the caller gets -1. *)
Theorem syscall_spec `{KernelLayout} `{BlockDriver} p num s :
  caller p s → s32 (reg p TF_a7 s) = num →
  let pid := p_pid (getproc p s) in
  let mask := mask_before p num s in
  match assoc num syscalls with
  | Some call =>
      ∃ u, wrote_bytes (if Z.testbit mask num then trace_head pid num else []) (uart0 s) u ∧
      match call (set_uart0 u s) with
      | Ret r s' =>
          caller p s' →
          ∃ u', syscall s = Ret tt (set_uart0 u' (returned p r s')) ∧
            wrote_bytes (if Z.testbit (mask_after p num mask s') num then trace_result r else []) (uart0 s') u'
      | Switch s' k => syscall s = Switch s' (λ s1, obind (k s1) (finish p num mask))
      | Panic msg => syscall s = Panic msg
      | Hang => syscall s = Hang
      end
  | None =>
      ∃ u, syscall s = Ret tt (returned p (-1) (set_uart0 u s)) ∧
        wrote_bytes (unknown_call pid (p_name (getproc p s)) num) (uart0 s) u
  end.
Proof.
  intros C Hn pid mask. destruct (assoc num syscalls) as [call|] eqn:Hc; [|by apply syscall_unknown].
  pose proof (call_number num call Hc) as Hb. destruct (syscall_found p num call s C Hn Hc) as (u & W & E).
  rewrite traced_bit in W by done. exists u. split; [exact W|]. rewrite E. unfold bind.
  destruct (call (set_uart0 u s)) as [r s'|msg| |s' k]; cbn [obind]; try done. intros C'.
  rewrite <- traced_bit by done. by apply finish_eq.
Qed.

(** Process 3 calls getpid, which is traced. *)
Definition sample_caller : kernel :=
  upd_mem (λ m, st64 m (0x80000000 + TF_a7) SYS_getpid)
    (upd_proc 0 (λ q, set_p_pid 3 (set_p_trapframe 0x80000000 (set_p_trace_mask 2048 q))) boot_thread).

Lemma sample_caller_ok : caller 0 sample_caller.
Proof.
  split; [by apply (thread_ok_ext 0 boot_thread), boot_thread_ok|by split|done|].
  change (p_name (getproc 0 sample_caller)) with (p_name (getproc 0 boot_thread)). by repeat constructor.
Qed.

Lemma syscall_spec_witness :
  ∃ u s', @syscall _ sync_driver sample_caller = Ret tt (set_uart0 u s') ∧
    thr u = bytes_of ("3: syscall getpid -> 3" ++ nl) ∧ reg 0 TF_a0 s' = 3.
Proof.
  destruct (@syscall_spec _ sync_driver 0 SYS_getpid sample_caller sample_caller_ok eq_refl) as (u & W & Hr).
  pose proof (caller_uart _ _ _ _ sample_caller_ok W) as C1.
  assert (sys_getpid (set_uart0 u sample_caller) = Ret 3 (set_uart0 u sample_caller)) as Eg.
  { unfold sys_getpid. run (thread_curproc _ _ (ca_thread _ _ C1)). reflexivity. }
  rewrite Eg in Hr. destruct (Hr C1) as (u' & E & W'). exists u', (returned 0 3 (set_uart0 u sample_caller)).
  split; [exact E|]. split; [|unfold reg, returned; cbn; by rewrite ld64_st64].
  rewrite (proj1 W'). change (thr (uart0 (set_uart0 u sample_caller))) with (thr u). rewrite (proj1 W). reflexivity.
Defined.

(** ** sysinfo *)

(** The process table entries in use. *)
Definition live (s : kernel) : nat := length (filter (λ q, p_state q ≠ UNUSED) (procs s)).

Lemma info_bytes a b :
  0 ≤ a < 2 ^ 64 → 0 ≤ b < 2 ^ 64 →
  let l := sysinfo_bytes a b in
  length l = 16%nat ∧ u8 <$> l = l ∧ le_get 8 l 0 = a ∧ le_get 8 l 8 = b.
Proof.
  intros Ha Hb l. pose proof (le_get_put 8 (replicate 8 0) 0 a ltac:(cbn; lia)) as Ea. pose proof (le_get_put 8 (replicate 8 0) 0 b ltac:(cbn; lia)) as Eb.
  rewrite Z.mod_small in Ea, Eb by (cbn; lia). split; [done|]. split; [|split].
  - unfold l, sysinfo_bytes, u64_bytes. cbn [mbind list_bind le_put replicate insert list_insert app fmap list_fmap]. unfold u8. by rewrite !Z.mod_mod by lia.
  - rewrite <- Ea. reflexivity.
  - rewrite <- Eb. reflexivity.
Qed.

Section sysinfo.
Context `{LayoutOk}.

Lemma sysinfo_eq p l n s :
  thread_ok p s → uspace (physmem s) (freelist s) (p_pagetable (getproc p s)) l n →
  let info := sysinfo_bytes (Z.of_nat (length l) * PGSIZE) (Z.of_nat (live s)) in
  let '(r, m') := uwrite (physmem s) (p_pagetable (getproc p s)) (reg p TF_a0 s) info in
  sys_sysinfo s = Ret (if r <? 0 then -1 else 0) (with_mem s m' (freelist s)).
Proof.
  intros T U info. pose proof (th_hart _ _ T) as Hh. pose proof (vm_free _ _ _ _ (u_inv _ _ _ _ _ (us_uvm _ _ _ _ _ U))) as Hf.
  destruct (uwrite _ _ _ info) as [r m'] eqn:Ew. unfold sys_sysinfo.
  assert (argaddr 0 s = Ret (reg p TF_a0 s) s) as Ea by (unfold argaddr, argraw; by run (thread_curproc p s T)).
  assert (lock_free s LkKmem) as Hk by (apply (th_locks _ _ T), all_locks_named; repeat constructor).
  run Ea, (kfreemem_spec s l Hh Hk Hf).
  rewrite (bind_Ret _ _ s (Z.of_nat (live s)) s).
  2:{ apply nproc_spec; [done|apply T|]. intros i Hi. by apply (th_locks _ _ T), all_locks_proc. }
  run (thread_curproc p s T). rewrite (bind_Ret _ _ s (p_pagetable (getproc p s)) s) by done.
  pose proof (free_pages_length s l Hf) as Hl. change (PHYSTOP - KERNBASE) with 134217728 in Hl. unfold PGSIZE in *.
  rewrite s32_small, u64_small by lia. fold info.
  run (copyout_eq s _ l n (reg p TF_a0 s) info U (ld64_range _ _) ltac:(reflexivity)). rewrite Ew. cbn [fst snd]. by destruct (r <? 0).
Qed.
End sysinfo.

(** C8: [sysinfo] gives the user, in the 16 bytes at the address in
    a0, the number of bytes of free memory (the pages on the free list times
    the page size) and the number of process table entries in use, and returns
    0; when some of these bytes are not the user's to write it returns -1.
    Nothing but the user's memory at that address changes. *)
Theorem sysinfo_spec `{LayoutOk} p l n s :
  thread_ok p s → uspace (physmem s) (freelist s) (p_pagetable (getproc p s)) l n →
  let root := p_pagetable (getproc p s) in
  let addr := reg p TF_a0 s in
  ∃ r m', let s' := with_mem s m' (freelist s) in
    sys_sysinfo s = Ret r s' ∧ uspace m' (freelist s) root l n ∧
    (∀ x, (∀ i, 0 ≤ i < 16 → upa (physmem s) root (addr + i) ≠ 0 → x ≠ uaddr (physmem s) root (addr + i)) → ld m' x = ld (physmem s) x) ∧
    ((r = 0 ∧ ∃ bs, copyin root addr 16 s' = Ret (0, bs) s' ∧
        le_get 8 bs 0 = Z.of_nat (length l) * PGSIZE ∧ le_get 8 bs 8 = Z.of_nat (live s)) ∨
     (r = -1 ∧ ∃ i : nat, (i < 16)%nat ∧ upa (physmem s) root (addr + Z.of_nat i) = 0)).
Proof.
  intros T U root addr. pose proof (sysinfo_eq p l n s T U) as E. cbv zeta in E. fold root addr in E.
  pose proof (vm_free _ _ _ _ (u_inv _ _ _ _ _ (us_uvm _ _ _ _ _ U))) as Hf. pose proof (free_pages_length s l Hf) as Hl.
  change (PHYSTOP - KERNBASE) with 134217728 in Hl. pose proof (ld64_range (physmem s) (p_trapframe (getproc p s) + TF_a0)) as Ha.
  assert (Z.of_nat (live s) < 2 ^ 64) as Hlive.
  { unfold live. pose proof (length_filter (λ q, p_state q ≠ UNUSED) (procs s)) as Hle. rewrite (th_len _ _ T) in Hle. unfold NPROC in Hle. lia. }
  destruct (info_bytes (Z.of_nat (length l) * PGSIZE) (Z.of_nat (live s))) as (L & B & G1 & G2); [unfold PGSIZE in *; lia|lia|].
  set (info := sysinfo_bytes _ _) in *. destruct (uwrite (physmem s) root addr info) as [r m'] eqn:Ew.
  destruct (uwrite_spec _ (freelist s) root l n addr info r m' U ltac:(apply Ha) Ew) as (U' & Lf & Fr & Res). rewrite L in Fr, Res.
  exists (if r <? 0 then -1 else 0), m'. split; [exact E|]. split; [done|]. split; [done|]. destruct Res as [[-> R]|[-> Hi]]; [left|by right].
  split; [done|]. exists info. split_and!; [|done|done].
  rewrite (copyin_eq _ (freelist s) root l n) by (done || lia). rewrite physmem_with_mem. change (Z.to_nat 16) with 16%nat. rewrite <- L.
  rewrite uread_ok; [done|]. intros i b Hb. destruct (R i b Hb) as [Hu Hw]. unfold uaddr in *. rewrite (upa_leaf _ _ _ Lf). split; [done|].
  rewrite Hw. rewrite <- B in Hb. apply list_lookup_fmap_Some in Hb as (b' & -> & _). unfold u8. by rewrite Z.mod_mod.
Qed.

(** A process with one page of zeros, whose a0 is one of them. *)
Lemma sysinfo_spec_witness :
  ∃ s s' bs, sys_sysinfo s = Ret 0 s' ∧ copyin rootA 0 16 s' = Ret (0, bs) s' ∧ le_get 8 bs 8 = Z.of_nat (live s).
Proof.
  destruct sample_user as (m & fl & l & US & _ & _ & Hacc & _). set (pa := PTE2PA (leaf m rootA 0)).
  assert (∀ i, 0 ≤ i < 8 → ld m (pa + i) = 0) as Hz.
  { intros i Hi. destruct (Hacc i) as [_ Hv]; [mlia|]. unfold uview in Hv. rewrite (leaf_page m rootA i 0) in Hv by mlia.
    by rewrite Z.mod_small in Hv by mlia. }
  assert (ld64 m pa = 0) as H0.
  { apply ld64_zero. intros x Hx. replace x with (pa + (x - pa)) by lia. apply Hz. lia. }
  set (s := with_mem (upd_proc 0 (λ q, set_p_trapframe (pa - TF_a0) (set_p_pagetable rootA q)) boot_thread) m fl).
  destruct (sysinfo_spec 0 l 1 s) as (r & m' & E & _ & _ & Hr).
  - eapply thread_ok_ext; [..|exact boot_thread_ok]; reflexivity.
  - exact US.
  - assert (reg 0 TF_a0 s = 0) as Er.
    { unfold reg. change (physmem s) with m. change (p_trapframe (getproc 0 s)) with (pa - TF_a0). by rewrite Z.sub_add. }
    rewrite Er in Hr. destruct Hr as [[-> (bs & Ec & _ & Hb)]|[_ (i & Hi & Hu)]].
    + exists s, (with_mem s m' (freelist s)), bs. exact (conj E (conj Ec Hb)).
    + exfalso. apply (proj1 (Hacc (Z.of_nat i) ltac:(mlia))). exact Hu.
Defined.
