(* ===== verification/Virtio.v ===== *)
(** * kernel/virtio_disk.c

    The driver of the virtio block device: a request takes three descriptors,
    is handed to the device through the avail ring and comes back through the
    used ring, where the interrupt handler finds it. *)

From S2P Require Import Prelude Machine Memory State Spinlock Sched Sleeplock Block.

(** kernel/virtio.h *)
Definition NUM : nat := 8.
Definition VIRTIO_MMIO_MAGIC_VALUE : Z := 0x000.
Definition VIRTIO_MMIO_VERSION : Z := 0x004.
Definition VIRTIO_MMIO_DEVICE_ID : Z := 0x008.
Definition VIRTIO_MMIO_VENDOR_ID : Z := 0x00c.
Definition VIRTIO_MMIO_DEVICE_FEATURES : Z := 0x010.
Definition VIRTIO_MMIO_DRIVER_FEATURES : Z := 0x020.
Definition VIRTIO_MMIO_GUEST_PAGE_SIZE : Z := 0x028.
Definition VIRTIO_MMIO_QUEUE_SEL : Z := 0x030.
Definition VIRTIO_MMIO_QUEUE_NUM_MAX : Z := 0x034.
Definition VIRTIO_MMIO_QUEUE_NUM : Z := 0x038.
Definition VIRTIO_MMIO_QUEUE_PFN : Z := 0x040.
Definition VIRTIO_MMIO_QUEUE_NOTIFY : Z := 0x050.
Definition VIRTIO_MMIO_INTERRUPT_STATUS : Z := 0x060.
Definition VIRTIO_MMIO_INTERRUPT_ACK : Z := 0x064.
Definition VIRTIO_MMIO_STATUS : Z := 0x070.
Definition VIRTIO_CONFIG_S_ACKNOWLEDGE : Z := 1.
Definition VIRTIO_CONFIG_S_DRIVER : Z := 2.
Definition VIRTIO_CONFIG_S_DRIVER_OK : Z := 4.
Definition VIRTIO_CONFIG_S_FEATURES_OK : Z := 8.
Definition VIRTIO_BLK_F_RO : Z := 5.
Definition VIRTIO_BLK_F_SCSI : Z := 7.
Definition VIRTIO_BLK_F_CONFIG_WCE : Z := 11.
Definition VIRTIO_BLK_F_MQ : Z := 12.
Definition VIRTIO_F_ANY_LAYOUT : Z := 27.
Definition VIRTIO_RING_F_INDIRECT_DESC : Z := 28.
Definition VIRTIO_RING_F_EVENT_IDX : Z := 29.
Definition VRING_DESC_F_NEXT : Z := 1.
Definition VRING_DESC_F_WRITE : Z := 2.
Definition VIRTIO_BLK_T_IN : Z := 0.
Definition VIRTIO_BLK_T_OUT : Z := 1.

Definition upd_vd (f : vdisk → vdisk) (s : kernel) : kernel := set_vdisk0 (f (vdisk0 s)) s.
Definition vget {A} (f : vdisk → A) : K A := gets (λ s, f (vdisk0 s)).
Definition vset (f : vdisk → vdisk) : K unit := modify (upd_vd f).
Definition set_desc (i : nat) (f : virtq_desc → virtq_desc) : K unit :=
  vset (λ v, set_vd_desc (alter f i (vd_desc v)) v).

(** [*R(r) = v] *)
Definition mmio_write (a v : Z) : K unit :=
  modify (λ s, set_mmio_writes (mmio_writes s ++ [(a, v)]) s).
Definition W (r v : Z) : K unit := mmio_write (VIRTIO0 + r) v.

(** What the device answers to a read of a register, and the address of the
    driver's [disk.pages]. *)
Class VirtioDevice : Type := {
  mmio_read : Z → Z;
  disk_pages : Z
}.

Section virtio.
Context `{VirtioDevice}.

Definition R (r : Z) : Z := u32 (mmio_read (VIRTIO0 + r)).

Definition clear_bit (features bit : Z) : Z := Z.land features (u64 (Z.lnot (Z.shiftl 1 bit))).

Definition virtio_disk_init : K unit :=
  initlock LkVdisk "virtio_disk" ;;;
  if negb (R VIRTIO_MMIO_MAGIC_VALUE =? 0x74726976) || negb (R VIRTIO_MMIO_VERSION =? 1) ||
     negb (R VIRTIO_MMIO_DEVICE_ID =? 2) || negb (R VIRTIO_MMIO_VENDOR_ID =? 0x554d4551)
  then panic "could not find virtio disk" else
  let status := Z.lor 0 VIRTIO_CONFIG_S_ACKNOWLEDGE in
  W VIRTIO_MMIO_STATUS status ;;;
  let status := Z.lor status VIRTIO_CONFIG_S_DRIVER in
  W VIRTIO_MMIO_STATUS status ;;;
  let features := R VIRTIO_MMIO_DEVICE_FEATURES in
  let features := clear_bit features VIRTIO_BLK_F_RO in
  let features := clear_bit features VIRTIO_BLK_F_SCSI in
  let features := clear_bit features VIRTIO_BLK_F_CONFIG_WCE in
  let features := clear_bit features VIRTIO_BLK_F_MQ in
  let features := clear_bit features VIRTIO_F_ANY_LAYOUT in
  let features := clear_bit features VIRTIO_RING_F_EVENT_IDX in
  let features := clear_bit features VIRTIO_RING_F_INDIRECT_DESC in
  W VIRTIO_MMIO_DRIVER_FEATURES (u32 features) ;;;
  let status := Z.lor status VIRTIO_CONFIG_S_FEATURES_OK in
  W VIRTIO_MMIO_STATUS status ;;;
  let status := Z.lor status VIRTIO_CONFIG_S_DRIVER_OK in
  W VIRTIO_MMIO_STATUS status ;;;
  W VIRTIO_MMIO_GUEST_PAGE_SIZE PGSIZE ;;;
  W VIRTIO_MMIO_QUEUE_SEL 0 ;;;
  let max := R VIRTIO_MMIO_QUEUE_NUM_MAX in
  if max =? 0 then panic "virtio disk has no queue 0" else
  if max <? Z.of_nat NUM then panic "virtio disk max queue too short" else
  W VIRTIO_MMIO_QUEUE_NUM (Z.of_nat NUM) ;;;
  vset (λ v, set_vd_desc (replicate NUM inhabitant) (set_avail_idx 0
    (set_avail_ring (replicate NUM 0) (set_dev_used_idx 0
      (set_dev_used_ring (replicate NUM 0) v))))) ;;;
  W VIRTIO_MMIO_QUEUE_PFN (u32 (Z.shiftr disk_pages PGSHIFT)) ;;;
  vset (set_vd_free (replicate NUM true)).

(** ** Descriptors *)

Definition alloc_desc_one (i : nat) : K (option nat) :=
  let! free := vget vd_free in
  if (free !!! i : bool) then
    vset (λ v, set_vd_free (<[i := false]> (vd_free v)) v) ;;;
    ret (Some i)
  else ret None.

(** [None] for -1. *)
Definition alloc_desc : K (option nat) := for_find (seq 0 NUM) alloc_desc_one.

Definition free_desc (i : nat) : K unit :=
  if (NUM <=? i)%nat then panic "free_desc 1" else
  let! free := vget vd_free in
  if (free !!! i : bool) then panic "free_desc 2" else
  set_desc i (set_d_addr DNull) ;;;
  set_desc i (set_d_len 0) ;;;
  set_desc i (set_d_flags 0) ;;;
  set_desc i (set_d_next 0) ;;;
  vset (λ v, set_vd_free (<[i := true]> (vd_free v)) v) ;;;
  wakeup (Some ChDisk).

Definition free_chain_step (i : nat) : K (nat + unit) :=
  let! descs := vget vd_desc in
  let flag := d_flags (descs !!! i) in
  let nxt := d_next (descs !!! i) in
  free_desc i ;;;
  if negb (Z.land flag VRING_DESC_F_NEXT =? 0) then ret (inl (Z.to_nat nxt)) else ret (inr tt).

Definition free_chain (i : nat) : K unit := loop free_chain_step i.

(** [for(int i = 0; i < 3; i++) ...]: the descriptors already in [idx] are freed
    when one is missing. *)
Fixpoint alloc3_loop (n : nat) (idx : list nat) : K (option (list nat)) :=
  match n with
  | O => ret (Some idx)
  | S n' =>
      let! i := alloc_desc in
      match i with
      | None => for_each idx free_desc ;;; ret None
      | Some i => alloc3_loop n' (idx ++ [i])
      end
  end.

Definition alloc3_desc : K (option (list nat)) := alloc3_loop 3 [].

(** ** Requests *)

Definition wait_desc (_ : unit) : K (unit + list nat) :=
  let! idx := alloc3_desc in
  match idx with
  | Some idx => ret (inr idx)
  | None => sleep ChDisk LkVdisk ;;; ret (inl tt)
  end.

(** The three descriptors of a request for [b]. *)
Definition format_desc (b : nat) (write : bool) (sector : Z) (idx : list nat) : K unit :=
  let i0 := idx !!! 0%nat in
  let i1 := idx !!! 1%nat in
  let i2 := idx !!! 2%nat in
  vset (λ v, set_vd_ops (<[i0 := mk_virtio_blk_req
    (if write then VIRTIO_BLK_T_OUT else VIRTIO_BLK_T_IN) 0 sector]> (vd_ops v)) v) ;;;
  set_desc i0 (λ _, mk_virtq_desc (DOps (Z.of_nat i0)) 16 VRING_DESC_F_NEXT (Z.of_nat i1)) ;;;
  set_desc i1 (λ _, mk_virtq_desc (DData b) BSIZE
    (Z.lor (if write then 0 else VRING_DESC_F_WRITE) VRING_DESC_F_NEXT) (Z.of_nat i2)) ;;;
  vset (λ v, set_info_status (<[i0 := 0xff]> (info_status v)) v) ;;;
  set_desc i2 (λ _, mk_virtq_desc (DStatus (Z.of_nat i0)) 1 VRING_DESC_F_WRITE 0).

Definition wait_done (b : nat) (_ : unit) : K (unit + unit) :=
  let! busy := bfield b b_disk in
  if (busy : bool) then sleep (ChBuf b) LkVdisk ;;; ret (inl tt) else ret (inr tt).

Definition virtio_disk_rw (b : nat) (write : bool) : K unit :=
  let! blockno := bfield b b_blockno in
  let sector := u32 (blockno * (BSIZE / 512)) in
  acquire LkVdisk ;;;
  let! idx := loop wait_desc tt in
  format_desc b write sector idx ;;;
  let i0 := idx !!! 0%nat in
  bset b (set_b_disk true) ;;;
  vset (λ v, set_info_b (<[i0 := Some b]> (info_b v)) v) ;;;
  vset (λ v, set_avail_ring
    (<[Z.to_nat (avail_idx v `mod` Z.of_nat NUM) := Z.of_nat i0]> (avail_ring v)) v) ;;;
  vset (λ v, set_avail_idx (u16 (avail_idx v + 1)) v) ;;;
  W VIRTIO_MMIO_QUEUE_NOTIFY 0 ;;;
  loop (wait_done b) tt ;;;
  vset (λ v, set_info_b (<[i0 := None]> (info_b v)) v) ;;;
  free_chain i0 ;;;
  release LkVdisk.

Definition virtio_intr_step (_ : unit) : K (unit + unit) :=
  let! v := gets vdisk0 in
  if vd_used_idx v =? dev_used_idx v then ret (inr tt) else
  let id := Z.to_nat (dev_used_ring v !!! Z.to_nat (vd_used_idx v `mod` Z.of_nat NUM)) in
  if negb (info_status v !!! id =? 0) then panic "virtio_disk_intr status" else
  let! b := deref (info_b v !!! id) in
  bset b (set_b_disk false) ;;;
  wakeup (Some (ChBuf b)) ;;;
  vset (λ v, set_vd_used_idx (u16 (vd_used_idx v + 1)) v) ;;;
  ret (inl tt).

Definition virtio_disk_intr : K unit :=
  acquire LkVdisk ;;;
  W VIRTIO_MMIO_INTERRUPT_ACK (Z.land (R VIRTIO_MMIO_INTERRUPT_STATUS) 3) ;;;
  loop virtio_intr_step tt ;;;
  release LkVdisk.

(** The kernel's disk driver. *)
Definition virtio_driver : BlockDriver := {| disk_rw := virtio_disk_rw |}.
End virtio.
