(* ===== verification/VirtioSpec.v ===== *)
(** * Disk requests (kernel/virtio_disk.c)

    The life of a request: the descriptors it takes and what the device reads
    in them, the interrupt that completes it, and the return of the
    descriptors. *)

From S2P Require Import Prelude Machine Memory State Spinlock Sched Runs Sleeping Sleeplock Block Virtio UartSpec.

Lemma bind_modify {B} (f : kernel → kernel) (k : K B) s : (modify f ;;; k) s = k (f s).
Proof. done. Qed.

Lemma upd_vd_upd_vd f g s : upd_vd f (upd_vd g s) = upd_vd (λ v, f (g v)) s.
Proof. done. Qed.

(** ** Descriptors *)

(** The arrays shared with the device have their sizes. *)
Record vd_ok (v : vdisk) : Prop := {
  vo_desc : length (vd_desc v) = NUM;
  vo_ring : length (avail_ring v) = NUM;
  vo_free : length (vd_free v) = NUM;
  vo_info : length (info_b v) = NUM;
  vo_status : length (info_status v) = NUM;
  vo_ops : length (vd_ops v) = NUM
}.

(** The number of free descriptors. *)
Definition nfree (free : list bool) : nat := length (filter (λ b, b = true) free).

Lemma nfree_split free :
  (0 < nfree free)%nat → ∃ l1 l2, free = replicate l1 false ++ true :: l2.
Proof.
  induction free as [|b free IH]; intros Hn; [cbn in Hn; lia|]. destruct b.
  - by exists 0%nat, free.
  - destruct IH as (l1 & l2 & ->); [done|]. by exists (S l1), l2.
Qed.

Lemma nfree_take l1 l2 :
  nfree (replicate l1 false ++ true :: l2) = S (nfree (replicate l1 false ++ false :: l2)).
Proof. unfold nfree. induction l1 as [|l1 IH]; [done|]. exact IH. Qed.

(** The free map after the descriptors [ds] have been taken or given back. *)
Fixpoint mark (x : bool) (ds : list nat) (free : list bool) : list bool :=
  match ds with
  | [] => free
  | i :: ds' => mark x ds' (<[i := x]> free)
  end.

Lemma length_mark x ds free : length (mark x ds free) = length free.
Proof. revert free. induction ds as [|i ds IH]; intros free; cbn; [done|]. by rewrite IH, length_insert. Qed.

Lemma mark_ne x ds free i : i ∉ ds → mark x ds free !!! i = free !!! i.
Proof.
  revert free. induction ds as [|j ds IH]; intros free Hi; cbn; [done|].
  apply not_elem_of_cons in Hi as [Hne Hi]. rewrite IH by done. by rewrite list_lookup_total_insert_ne.
Qed.

Lemma mark_eq x ds free i : i ∈ ds → (i < length free)%nat → mark x ds free !!! i = x.
Proof.
  revert free. induction ds as [|j ds IH]; intros free Hi Hlt; cbn; [by apply elem_of_nil in Hi|].
  destruct (decide (i ∈ ds)) as [Hin|Hin]; [apply IH; [done|by rewrite length_insert]|].
  apply elem_of_cons in Hi as [->|Hi]; [|done]. rewrite mark_ne by done.
  by apply list_lookup_total_insert_eq.
Qed.

Section virtio_spec.
Context `{VirtioDevice}.

Lemma alloc_desc_skip s n k :
  (∀ i, (k ≤ i < k + n)%nat → vd_free (vdisk0 s) !!! i = false) →
  for_find (seq k n) alloc_desc_one s = Ret None s.
Proof.
  revert k. induction n as [|n IH]; intros k Hf; [done|]. cbn [seq for_find].
  rewrite (bind_Ret _ _ s None s); [apply IH; intros i Hi; apply Hf; lia|].
  unfold alloc_desc_one, vget. rewrite (bind_Ret _ _ s (vd_free (vdisk0 s)) s) by done.
  by rewrite Hf by lia.
Qed.

(** [alloc_desc] takes the first free descriptor. *)
Lemma alloc_desc_eq s :
  length (vd_free (vdisk0 s)) = NUM → (0 < nfree (vd_free (vdisk0 s)))%nat →
  ∃ i, alloc_desc s = Ret (Some i) (upd_vd (λ v, set_vd_free (<[i := false]> (vd_free v)) v) s) ∧
    (i < NUM)%nat ∧ vd_free (vdisk0 s) !!! i = true ∧
    nfree (vd_free (vdisk0 s)) = S (nfree (<[i := false]> (vd_free (vdisk0 s)))).
Proof.
  intros Hlen Hn. destruct (nfree_split _ Hn) as (i & l2 & E). exists i.
  rewrite E in Hlen. rewrite length_app, length_replicate in Hlen. cbn [length] in Hlen.
  assert (vd_free (vdisk0 s) !!! i = true) as Hi.
  { rewrite E, lookup_total_app_r by (rewrite length_replicate; lia).
    by rewrite length_replicate, Nat.sub_diag. }
  split; [|split; [lia|split; [done|]]].
  - unfold alloc_desc. rewrite <- Hlen, seq_app. cbn [seq].
    rewrite (for_find_app _ _ _ s s).
    2:{ apply alloc_desc_skip. intros j Hj. rewrite E, lookup_total_app_l by (rewrite length_replicate; lia).
        apply lookup_total_replicate_2. lia. }
    cbn [for_find Nat.add]. unfold alloc_desc_one at 1, vget. unfold bind at 1 2, gets. cbn [obind].
    rewrite Hi. done.
  - rewrite E. rewrite insert_app_r_alt by (rewrite length_replicate; lia).
    rewrite length_replicate, Nat.sub_diag. apply nfree_take.
Qed.

Definition take_descs (ds : list nat) : kernel → kernel :=
  upd_vd (λ v, set_vd_free (mark false ds (vd_free v)) v).

Lemma alloc3_loop_eq n idx s :
  length (vd_free (vdisk0 s)) = NUM → (n ≤ nfree (vd_free (vdisk0 s)))%nat →
  ∃ ds, alloc3_loop n idx s = Ret (Some (idx ++ ds)) (take_descs ds s) ∧ length ds = n ∧ NoDup ds ∧
    ∀ i, i ∈ ds → (i < NUM)%nat ∧ vd_free (vdisk0 s) !!! i = true.
Proof.
  revert idx s. induction n as [|n IH]; intros idx s Hlen Hn.
  { exists []. rewrite app_nil_r. split; [|split; [done|split; [apply NoDup_nil_2|]]].
    - cbn. unfold ret. f_equal. transitivity (set_vdisk0 (vdisk0 s) s); [by destruct s|].
      unfold take_descs, upd_vd. f_equal. by destruct (vdisk0 s).
    - intros i Hi. by apply elem_of_nil in Hi. }
  destruct (alloc_desc_eq s Hlen ltac:(lia)) as (i & E & Hi & Hf & Hnf).
  set (s1 := upd_vd _ s) in E.
  destruct (IH (idx ++ [i]) s1) as (ds & E1 & Hl & Hd & Hds).
  { cbn. by rewrite length_insert. }
  { change (vd_free (vdisk0 s1)) with (<[i:=false]> (vd_free (vdisk0 s))). lia. }
  exists (i :: ds). split; [|split; [cbn; lia|split]].
  - cbn [alloc3_loop]. run E. by rewrite E1, <- app_assoc.
  - apply NoDup_cons. split; [|done]. intros Hin. destruct (Hds i Hin) as [_ Hfi]. cbn in Hfi.
    by rewrite list_lookup_total_insert_eq in Hfi by lia.
  - intros j [->|Hj]%elem_of_cons; [done|]. destruct (Hds j Hj) as [Hlt Hfj]. split; [done|].
    cbn in Hfj. destruct (decide (j = i)) as [->|Hne]; [done|].
    by rewrite list_lookup_total_insert_ne in Hfj.
Qed.

Lemma alloc3_desc_eq s :
  length (vd_free (vdisk0 s)) = NUM → (3 ≤ nfree (vd_free (vdisk0 s)))%nat →
  ∃ i0 i1 i2, let ds := [i0; i1; i2] in
    alloc3_desc s = Ret (Some ds) (take_descs ds s) ∧ NoDup ds ∧
    ∀ i, i ∈ ds → (i < NUM)%nat ∧ vd_free (vdisk0 s) !!! i = true.
Proof.
  intros Hlen Hn. destruct (alloc3_loop_eq 3 [] s Hlen Hn) as (ds & E & Hl & Hd & Hds).
  destruct ds as [|i0 [|i1 [|i2 [|]]]]; try done. by exists i0, i1, i2.
Qed.

(** ** Returning descriptors *)

(** Only the driver's state has changed, and processes have been woken. *)
Definition driver_step (p : nat) (s1 s2 : kernel) : Prop :=
  ∃ v ps, s2 = set_procs ps (set_vdisk0 v s1) ∧ procs_wake p (procs s1) ps.

Lemma driver_step_refl p s : driver_step p s s.
Proof. exists (vdisk0 s), (procs s). split; [by destruct s|apply procs_wake_refl]. Qed.

Lemma driver_step_trans p s1 s2 s3 : driver_step p s1 s2 → driver_step p s2 s3 → driver_step p s1 s3.
Proof.
  intros (v2 & ps2 & -> & W2) (v3 & ps3 & -> & W3). exists v3, ps3. split; [done|].
  by eapply procs_wake_trans.
Qed.

Lemma driver_step_inside p l s s1 s2 : driver_step p s1 s2 → inside l s s1 → inside l s s2.
Proof. intros (v & ps & -> & _) Hi. exact Hi. Qed.

(** The descriptors [ds] given back, and the others untouched. *)
Record returned (ds : list nat) (v v' : vdisk) : Prop := {
  rt_free : vd_free v' = mark true ds (vd_free v);
  rt_desc : ∀ j, j ∉ ds → vd_desc v' !!! j = vd_desc v !!! j;
  rt_len : length (vd_desc v') = length (vd_desc v);
  rt_info : info_b v' = info_b v;
  rt_rings : avail_idx v' = avail_idx v ∧ avail_ring v' = avail_ring v ∧ vd_used_idx v' = vd_used_idx v
}.

Lemma free_desc_inside p s s1 i :
  thread_ok p s → inside LkVdisk s s1 → length (procs s1) = NPROC →
  (i < NUM)%nat → vd_free (vdisk0 s1) !!! i = false →
  ∃ s2, free_desc i s1 = Ret tt s2 ∧ driver_step p s1 s2 ∧ returned [i] (vdisk0 s1) (vdisk0 s2).
Proof.
  intros T Hi Hlen Hlt Hf. unfold free_desc. rewrite (proj2 (Nat.leb_gt _ _) Hlt).
  unfold vget. rewrite (bind_Ret _ _ s1 (vd_free (vdisk0 s1)) s1) by done. rewrite Hf.
  unfold set_desc, vset. rewrite !bind_modify.
  rewrite (wakeup_inside p LkVdisk s) by (done || apply Hi). eexists. split; [done|]. split.
  - eexists _, _. split; [|apply (woken_wake p (Some ChDisk))]. by destruct s1.
  - split; cbn; [done| |by rewrite !length_alter|done|done].
    intros j Hj. rewrite list_elem_of_singleton in Hj. by rewrite !list_lookup_total_alter_ne.
Qed.

Definition has_next (d : virtq_desc) : bool := negb (Z.land (d_flags d) VRING_DESC_F_NEXT =? 0).

(** The descriptors linked from [i] are [i :: ds]. *)
Fixpoint chain (desc : list virtq_desc) (i : nat) (ds : list nat) : Prop :=
  match ds with
  | [] => has_next (desc !!! i) = false
  | j :: ds' => has_next (desc !!! i) = true ∧ d_next (desc !!! i) = Z.of_nat j ∧ chain desc j ds'
  end.

Lemma desc_chain_ext desc desc' i ds :
  (∀ j, j ∈ i :: ds → desc' !!! j = desc !!! j) → chain desc i ds → chain desc' i ds.
Proof.
  revert i. induction ds as [|j ds IH]; intros i He; cbn; rewrite (He i) by (by left); [done|].
  intros (Hn & Hj & Hc). split; [done|]. split; [done|]. apply IH; [|done].
  intros k Hk. apply He. by right.
Qed.

Lemma returned_cons i ds v1 v2 v3 : returned [i] v1 v2 → returned ds v2 v3 → returned (i :: ds) v1 v3.
Proof.
  intros [F1 D1 L1 I1 (A1 & R1 & U1)] [F2 D2 L2 I2 (A2 & R2 & U2)]. split.
  - by rewrite F2, F1.
  - intros j [Hne Hj]%not_elem_of_cons. rewrite D2 by done. apply D1. by rewrite list_elem_of_singleton.
  - congruence.
  - congruence.
  - split; [congruence|]. split; congruence.
Qed.

Lemma free_chain_run p s s1 i ds :
  thread_ok p s → inside LkVdisk s s1 → length (procs s1) = NPROC →
  chain (vd_desc (vdisk0 s1)) i ds → NoDup (i :: ds) →
  (∀ j, j ∈ i :: ds → (j < NUM)%nat ∧ vd_free (vdisk0 s1) !!! j = false) →
  ∃ s2, run_n (S (length ds)) free_chain_step i s1 = Ret (inr tt) s2 ∧
    driver_step p s1 s2 ∧ returned (i :: ds) (vdisk0 s1) (vdisk0 s2).
Proof.
  revert s1 i. induction ds as [|j ds IH]; intros s1 i T Hi Hlen Hc [Hni Hnd]%NoDup_cons Hall;
    destruct (Hall i ltac:(by left)) as [Hlt Hf];
    destruct (free_desc_inside p s s1 i T Hi Hlen Hlt Hf) as (s2 & E2 & D2 & R2).
  - exists s2. split; [|done]. apply run_n_stop. unfold free_chain_step, vget.
    rewrite (bind_Ret _ _ s1 (vd_desc (vdisk0 s1)) s1) by done. run E2.
    cbn in Hc. unfold has_next in Hc. by rewrite Hc.
  - destruct Hc as (Hn & Hj & Hc). destruct (IH s2 j) as (s3 & E3 & D3 & R3).
    + done.
    + by eapply driver_step_inside.
    + destruct D2 as (v & ps & -> & (L & _)). cbn. congruence.
    + eapply desc_chain_ext; [|exact Hc]. intros k Hk. apply (rt_desc _ _ _ R2).
      rewrite list_elem_of_singleton. by intros ->.
    + done.
    + intros k Hk. destruct (Hall k ltac:(by right)) as [Hk1 Hk2]. split; [done|].
      rewrite (rt_free _ _ _ R2). rewrite mark_ne; [done|]. rewrite list_elem_of_singleton. by intros ->.
    + exists s3. split; [|split; [by eapply driver_step_trans|by eapply returned_cons]].
      cbn [length]. rewrite (run_n_next _ _ _ _ j s2); [done|]. unfold free_chain_step, vget.
      rewrite (bind_Ret _ _ s1 (vd_desc (vdisk0 s1)) s1) by done. run E2.
      unfold has_next in Hn. rewrite Hn, Hj, Nat2Z.id. done.
Qed.

(** ** Requests *)

(** What the device finds in a chain of descriptors. *)
Record request : Type := mk_request {
  rq_type : Z;           (** VIRTIO_BLK_T_IN or VIRTIO_BLK_T_OUT *)
  rq_sector : Z;
  rq_buf : nat;          (** the buffer with the data *)
  rq_len : Z;
  rq_filled : bool;      (** the device fills the buffer *)
  rq_status : Z          (** where it puts the status *)
}.

Definition has_flag (f : Z) (d : virtq_desc) : bool := negb (Z.land (d_flags d) f =? 0).

Definition read_request (v : vdisk) (i : nat) : option request :=
  let d0 := vd_desc v !!! i in
  let d1 := vd_desc v !!! Z.to_nat (d_next d0) in
  let d2 := vd_desc v !!! Z.to_nat (d_next d1) in
  match d_addr d0, d_addr d1, d_addr d2 with
  | DOps o, DData b, DStatus st =>
      if has_next d0 && has_next d1 && negb (has_next d2) &&
         (d_len d0 =? 16) && negb (has_flag VRING_DESC_F_WRITE d0) &&
         (d_len d2 =? 1) && has_flag VRING_DESC_F_WRITE d2
      then let r := vd_ops v !!! Z.to_nat o in
           Some (mk_request (req_type r) (req_sector r) b (d_len d1) (has_flag VRING_DESC_F_WRITE d1) st)
      else None
  | _, _, _ => None
  end.

Definition formatted (b : nat) (write : bool) (sector : Z) (i0 i1 i2 : nat) (v : vdisk) : vdisk :=
  set_vd_desc
    (alter (λ _, mk_virtq_desc (DStatus (Z.of_nat i0)) 1 VRING_DESC_F_WRITE 0) i2
    (alter (λ _, mk_virtq_desc (DData b) BSIZE
       (Z.lor (if write then 0 else VRING_DESC_F_WRITE) VRING_DESC_F_NEXT) (Z.of_nat i2)) i1
    (alter (λ _, mk_virtq_desc (DOps (Z.of_nat i0)) 16 VRING_DESC_F_NEXT (Z.of_nat i1)) i0 (vd_desc v))))
  (set_info_status (<[i0 := 0xff]> (info_status v))
  (set_vd_ops (<[i0 := mk_virtio_blk_req (if write then VIRTIO_BLK_T_OUT else VIRTIO_BLK_T_IN) 0 sector]>
     (vd_ops v)) v)).

Definition submitted (b i0 : nat) (v : vdisk) : vdisk :=
  set_avail_idx (u16 (avail_idx v + 1))
  (set_avail_ring (<[Z.to_nat (avail_idx v `mod` Z.of_nat NUM) := Z.of_nat i0]> (avail_ring v))
  (set_info_b (<[i0 := Some b]> (info_b v)) v)).

(** The driver after a request for [b] with the descriptors [i0 :: ds] has been
    handed to the device. *)
Record queued (b : nat) (write : bool) (sector : Z) (i0 : nat) (ds : list nat) (v v1 : vdisk) : Prop := {
  qd_taken : ∀ i, i ∈ i0 :: ds → (i < NUM)%nat ∧ vd_free v !!! i = true;
  qd_nodup : NoDup (i0 :: ds);
  qd_free : vd_free v1 = mark false (i0 :: ds) (vd_free v);
  qd_request : read_request v1 i0 = Some (mk_request
    (if write then VIRTIO_BLK_T_OUT else VIRTIO_BLK_T_IN) sector b BSIZE (negb write) (Z.of_nat i0));
  qd_chain : chain (vd_desc v1) i0 ds;
  qd_desc : ∀ i, i ∉ i0 :: ds → vd_desc v1 !!! i = vd_desc v !!! i;
  qd_info : info_b v1 = <[i0 := Some b]> (info_b v);
  qd_status : info_status v1 = <[i0 := 0xff]> (info_status v);
  qd_ring : avail_ring v1 = <[Z.to_nat (avail_idx v `mod` Z.of_nat NUM) := Z.of_nat i0]> (avail_ring v);
  qd_idx : avail_idx v1 = u16 (avail_idx v + 1)
}.

Lemma queued_intro b write sector i0 i1 i2 v :
  vd_ok v → NoDup [i0; i1; i2] → (∀ i, i ∈ [i0; i1; i2] → (i < NUM)%nat ∧ vd_free v !!! i = true) →
  queued b write sector i0 [i1; i2] v
    (submitted b i0 (formatted b write sector i0 i1 i2 (set_vd_free (mark false [i0; i1; i2] (vd_free v)) v))).
Proof.
  intros [Ld Lr Lf Li Ls Lo] Hnd Hall.
  destruct (Hall i0) as [H0 _]; [by left|]. destruct (Hall i1) as [H1 _]; [by right; left|].
  destruct (Hall i2) as [H2 _]; [by right; right; left|].
  apply NoDup_cons in Hnd as Hn. destruct Hn as [N0 Hn]. apply NoDup_cons in Hn as [N1 _].
  assert (i0 ≠ i1 ∧ i0 ≠ i2 ∧ i1 ≠ i2) as (N01 & N02 & N12) by set_solver.
  set (v1 := submitted b i0 _). set (desc := vd_desc v1).
  assert (desc !!! i0 = mk_virtq_desc (DOps (Z.of_nat i0)) 16 VRING_DESC_F_NEXT (Z.of_nat i1)) as D0.
  { subst desc v1. cbn. rewrite !list_lookup_total_alter_ne by done. by rewrite list_lookup_total_alter_eq by lia. }
  assert (desc !!! i1 = mk_virtq_desc (DData b) BSIZE
       (Z.lor (if write then 0 else VRING_DESC_F_WRITE) VRING_DESC_F_NEXT) (Z.of_nat i2)) as D1.
  { subst desc v1. cbn. rewrite list_lookup_total_alter_ne by done.
    by rewrite list_lookup_total_alter_eq by (rewrite length_alter; lia). }
  assert (desc !!! i2 = mk_virtq_desc (DStatus (Z.of_nat i0)) 1 VRING_DESC_F_WRITE 0) as D2.
  { subst desc v1. cbn. by rewrite list_lookup_total_alter_eq by (rewrite !length_alter; lia). }
  split; try done.
  - unfold read_request. fold desc. rewrite D0. cbn [d_next]. rewrite Nat2Z.id, D1.
    cbn [d_next]. rewrite Nat2Z.id, D2. cbn [d_addr]. rewrite Nat2Z.id.
    cbn. rewrite list_lookup_total_insert_eq by lia. by destruct write.
  - fold desc. cbn [chain]. rewrite D0, D1, D2. split; [done|]. split; [done|]. split; [by destruct write|done].
  - intros i Hi. cbn. rewrite !list_lookup_total_alter_ne; [done|set_solver..].
Qed.

(** The sector of a buffer's block, computed with 32 bits. *)
Definition sector_of (b : nat) (s : kernel) : Z := u32 (b_blockno (getbuf b s) * (BSIZE / 512)).

(** The kernel with a request handed to the device, in the critical section. *)
Definition issued (b : nat) (write : bool) (i0 i1 i2 : nat) (s : kernel) : kernel :=
  let s1 := upd_buf b (set_b_disk true)
    (upd_vd (formatted b write (sector_of b s) i0 i1 i2) (take_descs [i0; i1; i2] (enter LkVdisk s))) in
  let s2 := upd_vd (submitted b i0) s1 in
  set_mmio_writes (mmio_writes s2 ++ [(VIRTIO0 + VIRTIO_MMIO_QUEUE_NOTIFY, 0)]) s2.

(** What [virtio_disk_rw] does once the request has been completed. *)
Definition finish_rw (i0 : nat) : K unit :=
  vset (λ v, set_info_b (<[i0 := None]> (info_b v)) v) ;;;
  free_chain i0 ;;;
  release LkVdisk.

Lemma virtio_rw_issue p b write s :
  thread_ok p s → vd_ok (vdisk0 s) → (3 ≤ nfree (vd_free (vdisk0 s)))%nat →
  ∃ i0 i1 i2, NoDup [i0; i1; i2] ∧
    (∀ i, i ∈ [i0; i1; i2] → (i < NUM)%nat ∧ vd_free (vdisk0 s) !!! i = true) ∧
    virtio_disk_rw b write s = (loop (wait_done b) tt ;;; finish_rw i0) (issued b write i0 i1 i2 s).
Proof.
  intros T V Hn. destruct (alloc3_desc_eq (enter LkVdisk s) (vo_free _ V) Hn) as (i0 & i1 & i2 & E & Hnd & Hall).
  exists i0, i1, i2. split; [done|]. split; [done|]. unfold virtio_disk_rw, bfield.
  rewrite (bind_Ret _ _ s (b_blockno (getbuf b s)) s) by done. fold (sector_of b s).
  rewrite (bind_Ret _ _ _ tt (enter LkVdisk s))
    by (apply acquire_ok; [apply T|apply T, all_locks_named; set_solver]).
  rewrite (bind_Ret _ _ _ [i0; i1; i2] (take_descs [i0; i1; i2] (enter LkVdisk s))).
  2:{ apply (loop_Ret _ 1); [done|]. apply run_n_stop. unfold wait_desc. by run E. }
  cbn [lookup_total list_lookup_total].
  rewrite (bind_Ret _ _ _ tt (upd_vd (formatted b write (sector_of b s) i0 i1 i2)
             (take_descs [i0; i1; i2] (enter LkVdisk s)))) by done.
  unfold bset, vset at 1 2 3, W, mmio_write. do 5 rewrite bind_modify.
  rewrite !upd_vd_upd_vd. exact (f_equal (loop (wait_done b) tt ;;; finish_rw i0) eq_refl).
Qed.

(** The state the thread is resumed in finds the request completed. *)
Definition completed (b i0 : nat) (ds : list nat) (v1 : vdisk) (s' : kernel) : Prop :=
  b_disk (getbuf b s') = false ∧
  ∀ i, i ∈ i0 :: ds → vd_desc (vdisk0 s') !!! i = vd_desc v1 !!! i ∧ vd_free (vdisk0 s') !!! i = false.

Lemma finish_rw_eq p s i0 ds v1 b s' intena :
  resumed p s' → s = woke p intena s' → completed b i0 ds v1 s' → (length ds < 8)%nat →
  chain (vd_desc v1) i0 ds → NoDup (i0 :: ds) → (∀ i, i ∈ i0 :: ds → (i < NUM)%nat) →
  ∃ s2, finish_rw i0 (enter LkVdisk s) = Ret tt s2 ∧ thread_ok p s2 ∧ bufs s2 = bufs s' ∧
    vd_free (vdisk0 s2) = mark true (i0 :: ds) (vd_free (vdisk0 s')) ∧
    info_b (vdisk0 s2) = <[i0 := None]> (info_b (vdisk0 s')) ∧
    procs_wake p (alter (set_p_chan None) p (procs s')) (procs s2) ∧ disk s2 = disk s' ∧ disk_writes s2 = disk_writes s'.
Proof.
  intros R Es [_ Hc] Hds Hch Hnd Hlt. pose proof (woke_thread p intena s' R) as T. rewrite <- Es in T.
  assert (lock_free s LkVdisk) as Hl by (apply T, all_locks_named; set_solver).
  set (sa := upd_vd (λ v, set_info_b (<[i0 := None]> (info_b v)) v) (enter LkVdisk s)).
  assert (vd_desc (vdisk0 sa) = vd_desc (vdisk0 s') ∧ vd_free (vdisk0 sa) = vd_free (vdisk0 s')) as [Ed Ef]
    by (by subst sa s).
  destruct (free_chain_run p s sa i0 ds T) as (sb & Eb & Db & Rb).
  - done.
  - apply T.
  - rewrite Ed. eapply desc_chain_ext; [|exact Hch]. intros j Hj. by apply Hc.
  - done.
  - intros j Hj. split; [by apply Hlt|]. rewrite Ef. by apply Hc.
  - pose proof (driver_step_inside p LkVdisk s sa sb Db ltac:(done)) as Hi.
    exists (unlocked s sb). split.
    { unfold finish_rw, vset. rewrite bind_modify. fold sa.
      rewrite (bind_Ret _ _ _ tt sb) by (eapply loop_Ret; [|exact Eb]; lia).
      apply (release_enter s); [apply T|done|apply Hi..]. }
    destruct Db as (v & ps & -> & W). cbn [vdisk0 set_procs set_vdisk0] in Rb.
    assert (procs_wake p (procs s) ps) as W' by exact W. clear W. split; [|split; [|split; [|split; [|split]]]].
    + apply (thread_ok_ext p s); [done..| |done]. cbn. by destruct W'.
    + cbn. by rewrite Es.
    + cbn. rewrite (rt_free _ _ _ Rb). by rewrite Ef.
    + cbn. rewrite (rt_info _ _ _ Rb). by subst sa s.
    + cbn. rewrite Es in W'. exact W'.
    + cbn. by rewrite Es.
Qed.

(** Handing a request over leaves the disk and the used ring alone. *)
Record request_only (p : nat) (s s1 : kernel) : Prop := {
  ro_disk : disk s1 = disk s;
  ro_writes : disk_writes s1 = disk_writes s;
  ro_used : dev_used_idx (vdisk0 s1) = dev_used_idx (vdisk0 s) ∧ dev_used_ring (vdisk0 s1) = dev_used_ring (vdisk0 s) ∧
            vd_used_idx (vdisk0 s1) = vd_used_idx (vdisk0 s);
  ro_asleep : p_state (getproc p s1) = SLEEPING
}.

Lemma virtio_rw_runs p b write s :
  thread_ok p s → c_noff (mycpu s) = 0 → vd_ok (vdisk0 s) → (b < length (bufs s))%nat →
  (3 ≤ nfree (vd_free (vdisk0 s)))%nat →
  ∃ i0 ds s1 k, virtio_disk_rw b write s = Switch s1 k ∧
    queued b write (sector_of b s) i0 ds (vdisk0 s) (vdisk0 s1) ∧
    mmio_writes s1 = mmio_writes s ++ [(VIRTIO0 + VIRTIO_MMIO_QUEUE_NOTIFY, 0)] ∧
    bufs s1 = alter (set_b_disk true) b (bufs s) ∧
    request_only p s s1 ∧ switch_ok s1 p ∧ resumed p s1 ∧ p_chan (getproc p s1) = Some (ChBuf b) ∧
    ∀ s', resumed p s' → completed b i0 ds (vdisk0 s1) s' →
      ∃ s2, k s' = Ret tt s2 ∧ thread_ok p s2 ∧ bufs s2 = bufs s' ∧
        vd_free (vdisk0 s2) = mark true (i0 :: ds) (vd_free (vdisk0 s')) ∧
        info_b (vdisk0 s2) = <[i0 := None]> (info_b (vdisk0 s')) ∧
        procs_wake p (alter (set_p_chan None) p (procs s')) (procs s2) ∧ disk s2 = disk s' ∧ disk_writes s2 = disk_writes s'.
Proof.
  intros T Hn0 V Hb Hn. destruct (virtio_rw_issue p b write s T V Hn) as (i0 & i1 & i2 & Hnd & Hall & E).
  set (si := issued b write i0 i1 i2 s) in E.
  assert (LkVdisk ∈ all_locks) as Hvl by (apply all_locks_named; set_solver).
  pose proof (th_len _ _ T : length (procs si) = NPROC) as Hlen.
  pose proof (conj eq_refl (conj eq_refl eq_refl) : inside LkVdisk s si) as Hi.
  destruct (sleep_inside p LkVdisk s si (ChBuf b) T Hn0 Hvl ltac:(done) Hi Hlen) as (k & Es & Hsw & _ & Hk).
  destruct (loop_Switch (wait_done b) tt si (asleep (ChBuf b) LkVdisk p si)
              (λ s', obind (k s') (λ _, ret (inl tt)))) as (k1 & El & Hk1).
  { unfold wait_done, bfield. rewrite (bind_Ret _ _ si (b_disk (getbuf b si)) si) by done.
    assert (b_disk (getbuf b si) = true) as ->.
    { unfold getbuf. cbn. by rewrite list_lookup_total_alter_eq. }
    by rewrite (bind_Switch _ _ _ _ _ Es). }
  exists i0, [i1; i2], (asleep (ChBuf b) LkVdisk p si), (λ s', obind (k1 s') (λ _, finish_rw i0)).
  split; [by rewrite E, (bind_Switch _ _ _ _ _ El)|]. split; [by apply queued_intro|].
  split; [done|]. split; [done|]. split.
  { split; try done. unfold getproc. cbn. by rewrite list_lookup_total_alter_eq by (rewrite (th_len _ _ T); apply T). }
  split; [done|]. split; [eapply asleep_resumed; try done; by apply T|]. split.
  { unfold getproc. cbn. by rewrite list_lookup_total_alter_eq by (rewrite (th_len _ _ T); apply T). }
  intros s' R C. pose proof C as [Hbd _].
  rewrite (Hk1 s' tt (enter LkVdisk (woke p (c_intena (mycpu s)) s')) tt (enter LkVdisk (woke p (c_intena (mycpu s)) s'))).
  - pose proof (queued_intro b write (sector_of b s) i0 i1 i2 (vdisk0 s) V Hnd Hall) as Q.
    eapply finish_rw_eq; [exact R|done|exact C|cbn; lia|apply Q|done|apply Hall].
  - by rewrite (Hk s' R).
  - unfold wait_done, bfield. rewrite (bind_Ret _ _ _ false (enter LkVdisk (woke p (c_intena (mycpu s)) s'))); [done|].
    exact (f_equal (λ x, Ret x _) Hbd).
Qed.


(** ** Completion *)

(** The used ring holds the requests [cs], each the first descriptor of its
    chain and its buffer, which the handler has not seen yet. *)
Record pending (v : vdisk) (cs : list (nat * nat)) : Prop := {
  pd_idx : 0 ≤ vd_used_idx v < 2 ^ 16;
  pd_len : Z.of_nat (length cs) < 2 ^ 16;
  pd_used : dev_used_idx v = u16 (vd_used_idx v + Z.of_nat (length cs));
  pd_ring : ∀ j id b, cs !! j = Some (id, b) →
    dev_used_ring v !!! Z.to_nat (u16 (vd_used_idx v + Z.of_nat j) `mod` Z.of_nat NUM) = Z.of_nat id ∧
    info_status v !!! id = 0 ∧ info_b v !!! id = Some b
}.

(** The handler's effect on the buffers and on the process table. *)
Definition disk_done (bs : list nat) (l : list buf) : list buf :=
  foldl (λ l b, alter (set_b_disk false) b l) l bs.
Definition wake_all (me : option nat) (bs : list nat) (ps : list proc) : list proc :=
  foldl (λ ps b, woken (Some (ChBuf b)) me ps) ps bs.

Definition intr_state (me : option nat) (bs : list nat) (s : kernel) : kernel :=
  set_procs (wake_all me bs (procs s)) (set_bufs (disk_done bs (bufs s))
    (upd_vd (set_vd_used_idx (u16 (vd_used_idx (vdisk0 s) + Z.of_nat (length bs)))) s)).

Lemma u16_succ x n : u16 (u16 (x + 1) + Z.of_nat n) = u16 (x + Z.of_nat (S n)).
Proof. unfold u16. rewrite Zplus_mod_idemp_l. f_equal. lia. Qed.

Lemma pending_cons v id b cs :
  pending v ((id, b) :: cs) → pending (set_vd_used_idx (u16 (vd_used_idx v + 1)) v) cs.
Proof.
  intros [Hi Hl Hu Hr]. split.
  - apply Z.mod_pos_bound. lia.
  - cbn in Hl. lia.
  - cbn in *. by rewrite Hu, u16_succ.
  - intros j id' b' Hj. destruct (Hr (S j) id' b' Hj) as (H1 & H2 & H3). split; [|done].
    rewrite <- H1. cbn. by rewrite u16_succ.
Qed.

Lemma pending_head v id b cs :
  pending v ((id, b) :: cs) →
  vd_used_idx v ≠ dev_used_idx v ∧
  dev_used_ring v !!! Z.to_nat (vd_used_idx v `mod` Z.of_nat NUM) = Z.of_nat id ∧
  info_status v !!! id = 0 ∧ info_b v !!! id = Some b.
Proof.
  intros [Hi Hl Hu Hr]. destruct (Hr 0%nat id b eq_refl) as (H1 & H2 & H3).
  rewrite Z.add_0_r in H1. unfold u16 in H1 at 1. rewrite (Z.mod_small (vd_used_idx v)) in H1 by lia.
  split; [|done]. rewrite Hu. cbn [length] in *. unfold u16. Z.to_euclidean_division_equations; lia.
Qed.

Lemma virtio_intr_loop s s1 cs :
  hart_free s → inside LkVdisk s s1 → length (procs s1) = NPROC → pending (vdisk0 s1) cs →
  run_n (S (length cs)) virtio_intr_step tt s1 = Ret (inr tt) (intr_state (me s) cs.*2 s1).
Proof.
  revert s1. induction cs as [|[id b] cs IH]; intros s1 Hf Hi Hlen P.
  - apply run_n_stop. unfold virtio_intr_step. rewrite (bind_Ret _ _ s1 (vdisk0 s1) s1) by done.
    pose proof P as [Hx _ Hu _]. cbn in Hu. rewrite Z.add_0_r in Hu. unfold u16 in Hu.
    rewrite Z.mod_small in Hu by lia. rewrite Hu, Z.eqb_refl. unfold ret. f_equal.
    transitivity (set_vdisk0 (vdisk0 s1) s1); [by destruct s1|].
    unfold intr_state, upd_vd. cbn. rewrite Z.add_0_r. unfold u16. rewrite Z.mod_small by lia.
    destruct s1. cbn. f_equal. by destruct vdisk0.
  - destruct (pending_head _ _ _ _ P) as (Hne & Hid & Hst & Hb).
    set (s2 := upd_buf b (set_b_disk false) s1).
    set (s3 := upd_vd (set_vd_used_idx (u16 (vd_used_idx (vdisk0 s1) + 1)))
                 (set_procs (woken (Some (ChBuf b)) (me s) (procs s1)) s2)).
    cbn [length]. rewrite (run_n_next _ _ _ _ tt s3).
    + rewrite (IH s3); [|done|exact Hi| |by apply pending_cons in P].
      * f_equal. unfold intr_state. subst s3 s2. unfold upd_vd, upd_buf. cbn.
        rewrite u16_succ. done.
      * cbn. unfold woken. by rewrite length_imap.
    + unfold virtio_intr_step. rewrite (bind_Ret _ _ s1 (vdisk0 s1) s1) by done.
      rewrite (proj2 (Z.eqb_neq _ _) Hne). cbv zeta. rewrite Hid, Nat2Z.id, Hst, Hb.
      unfold bset, vset. cbn [negb Z.eqb]. rewrite (bind_Ret _ _ s1 b s1) by done. rewrite bind_modify.
      by run (wakeup_hart LkVdisk s s2 (Some (ChBuf b)) Hf ltac:(done) Hi Hlen).
Qed.

Lemma virtio_intr_eq s cs :
  hart_free s → pending (vdisk0 s) cs →
  virtio_disk_intr s = Ret tt (intr_state (me s) cs.*2 (set_mmio_writes (mmio_writes s ++
    [(VIRTIO0 + VIRTIO_MMIO_INTERRUPT_ACK, Z.land (R VIRTIO_MMIO_INTERRUPT_STATUS) 3)]) s)).
Proof.
  intros Hf P. assert (lock_free s LkVdisk) as Hl by (apply Hf, all_locks_named; set_solver).
  unfold virtio_disk_intr. rewrite (bind_Ret _ _ _ tt (enter LkVdisk s)) by (apply acquire_ok; [apply Hf|done]).
  unfold W, mmio_write. rewrite bind_modify. set (s1 := set_mmio_writes _ _).
  assert (inside LkVdisk s s1) as Hi by done.
  rewrite (bind_Ret _ _ _ tt (intr_state (me s) cs.*2 s1)).
  - rewrite (release_enter s); [by destruct s|apply Hf|exact Hl|apply Hi..].
  - apply (loop_Ret _ (S (length cs))); [pose proof (pd_len _ _ P); lia|].
    apply virtio_intr_loop; [done|done|apply Hf|done].
Qed.

(** C28: [virtio_disk_intr] takes exactly the completed
    requests from the used ring, in order and across the wrap of the 16-bit
    index: it marks their buffers as no longer owned by the disk, wakes the
    threads that wait for them, and acknowledges the interrupt. *)
Theorem virtio_intr_spec s cs :
  hart_free s → pending (vdisk0 s) cs →
  virtio_disk_intr s = Ret tt (intr_state (me s) cs.*2 (set_mmio_writes (mmio_writes s ++
    [(VIRTIO0 + VIRTIO_MMIO_INTERRUPT_ACK, Z.land (R VIRTIO_MMIO_INTERRUPT_STATUS) 3)]) s)).
Proof. apply virtio_intr_eq. Qed.

End virtio_spec.

(** A disk whose registers read as zero, with all descriptors free. *)
#[local] Instance sample_device : VirtioDevice := {| mmio_read := λ _, 0; disk_pages := 0 |}.

Definition sample_vdisk : vdisk :=
  mk_vdisk (replicate NUM inhabitant) 0 (replicate NUM 0) 0 (replicate NUM 0) (replicate NUM true) 0
    (replicate NUM None) (replicate NUM 0) (replicate NUM inhabitant).


(** Two requests were completed while the index wraps. *)
Lemma virtio_intr_spec_witness :
  ∃ s s', virtio_disk_intr s = Ret tt s' ∧ vd_used_idx (vdisk0 s') = 1.
Proof.
  set (v := set_vd_used_idx 65535 (set_dev_used_idx 1 (set_dev_used_ring [3; 0; 0; 0; 0; 0; 0; 0]
    (set_info_b [Some 7%nat; None; None; Some 5%nat; None; None; None; None] sample_vdisk)))).
  exists (set_vdisk0 v boot). eexists. split.
  - apply (virtio_intr_spec (set_vdisk0 v boot) [(0, 7); (3, 5)]%nat).
    + eapply hart_free_ext; [..|exact boot_hart_free]; reflexivity.
    + split; [done|done|done|]. intros [|[|j]] id b Hj; cbn in Hj; [|simplify_eq; done..].
      simplify_eq. done.
  - done.
Defined.
