(* ===== verification/VirtioSync.v ===== *)
(** * Disk requests as transfers (kernel/virtio_disk.c)

    The buffer cache and the log are verified with a driver that transfers a
    block at once ([sync_rw]).  Here: what [virtio_disk_rw], the device and
    [virtio_disk_intr] do together to the disk and to the buffers is what
    [sync_rw] does, while no other request is outstanding. *)

From S2P Require Import Prelude Machine Memory State Spinlock Sched Runs Sleeping Sleeplock Block Virtio UartSpec VirtioSpec.

Section virtio_sync.
Context `{VirtioDevice}.

(** The block that begins at a sector. *)
Definition block_of (sector : Z) : Z := sector / (BSIZE / 512).

(** What the device does with the request whose chain begins with the
    descriptor [i]: it transfers the sectors, puts 0 into the status byte and
    adds the descriptor to the used ring. *)
Record served (i : nat) (r : request) (s s' : kernel) : Prop := {
  sv_out : rq_type r = VIRTIO_BLK_T_OUT →
    disk s' = <[block_of (rq_sector r) := b_data (getbuf (rq_buf r) s)]> (disk s) ∧
    disk_writes s' = disk_writes s ++ [(block_of (rq_sector r), b_data (getbuf (rq_buf r) s))] ∧
    bufs s' = bufs s;
  sv_in : rq_type r = VIRTIO_BLK_T_IN →
    disk s' = disk s ∧ disk_writes s' = disk_writes s ∧
    bufs s' = alter (set_b_data (dblock (disk s) (block_of (rq_sector r)))) (rq_buf r) (bufs s);
  sv_vdisk : vdisk0 s' = set_info_status (<[Z.to_nat (rq_status r) := 0]> (info_status (vdisk0 s)))
    (set_dev_used_idx (u16 (dev_used_idx (vdisk0 s) + 1))
    (set_dev_used_ring (<[Z.to_nat (dev_used_idx (vdisk0 s) `mod` Z.of_nat NUM) := Z.of_nat i]>
       (dev_used_ring (vdisk0 s))) (vdisk0 s)));
  sv_procs : procs s' = procs s
}.

(** The device takes the chain of descriptors last put into the avail ring. *)
Definition last_avail (v : vdisk) : nat :=
  Z.to_nat (avail_ring v !!! Z.to_nat ((avail_idx v - 1) `mod` Z.of_nat NUM)).

Definition device_step (s s' : kernel) : Prop :=
  ∃ r, read_request (vdisk0 s) (last_avail (vdisk0 s)) = Some r ∧ served (last_avail (vdisk0 s)) r s s'.

(** Other threads and harts have run, and left the disk, the buffers, the
    driver and the process [p] alone. *)
Record undisturbed (p : nat) (s s' : kernel) : Prop := {
  un_disk : disk s' = disk s;
  un_writes : disk_writes s' = disk_writes s;
  un_bufs : bufs s' = bufs s;
  un_vdisk : vdisk0 s' = vdisk0 s;
  un_proc : procs s' !! p = procs s !! p
}.

(** The disk, as the rest of the kernel sees it. *)
Record same_disk (s s' : kernel) : Prop := {
  sd_disk : disk s' = disk s;
  sd_writes : disk_writes s' = disk_writes s;
  sd_bufs : bufs s' = bufs s
}.

Lemma mark_back ds free :
  (∀ i, i ∈ ds → (i < length free)%nat ∧ free !!! i = true) → mark true ds (mark false ds free) = free.
Proof.
  intros Hd. apply list_eq_same_length with (length free); [done|by rewrite !length_mark|].
  intros i x y Hi Hx Hy. apply list_lookup_total_correct in Hx as <-, Hy as <-.
  destruct (decide (i ∈ ds)) as [Hin|Hin]; [|by rewrite !mark_ne].
  rewrite mark_eq by (try done; by rewrite length_mark). symmetry. by apply Hd.
Qed.

Lemma block_of_sector n : 0 ≤ n < 2 ^ 31 → block_of (u32 (n * (BSIZE / 512))) = n.
Proof.
  intros Hn. change (BSIZE / 512) with 2. unfold block_of, u32. change (BSIZE / 512) with 2.
  rewrite Z.mod_small by lia. by apply Z.div_mul.
Qed.

Lemma queued_last b write sector i ds v v1 : vd_ok v → queued b write sector i ds v v1 → last_avail v1 = i.
Proof.
  intros V Q. unfold last_avail. rewrite (qd_ring _ _ _ _ _ _ _ Q), (qd_idx _ _ _ _ _ _ _ Q).
  assert ((u16 (avail_idx v + 1) - 1) `mod` Z.of_nat NUM = avail_idx v `mod` Z.of_nat NUM) as ->.
  { change (Z.of_nat NUM) with 8. unfold u16. Z.to_euclidean_division_equations. lia. }
  rewrite list_lookup_total_insert_eq; [apply Nat2Z.id|]. rewrite (vo_ring _ V).
  change (Z.of_nat NUM) with 8. unfold NUM. pose proof (Z.mod_pos_bound (avail_idx v) 8). lia.
Qed.

(** Requests that are not yet completed put nothing into the used ring. *)
Lemma served_pending b write sector i ds v v1 s s' r :
  vd_ok v → length (dev_used_ring v) = NUM → pending v [] → queued b write sector i ds v v1 →
  dev_used_idx v1 = dev_used_idx v → dev_used_ring v1 = dev_used_ring v → vd_used_idx v1 = vd_used_idx v →
  vdisk0 s = v1 → rq_status r = Z.of_nat i → served i r s s' → pending (vdisk0 s') [(i, b)].
Proof.
  intros V Lr [P1 _ P3 _] Q U1 U2 U3 <- Er [_ _ Ev _]. cbn in P3.
  rewrite Z.add_0_r in P3. unfold u16 in P3. rewrite Z.mod_small in P3 by lia.
  destruct (qd_taken _ _ _ _ _ _ _ Q i) as [Hi _]; [by left|].
  assert (vd_used_idx (vdisk0 s') = vd_used_idx v) as E1 by (by rewrite Ev, <- U3).
  split; rewrite ?E1; [done|done| |].
  - rewrite Ev. cbn. by rewrite U1, P3.
  - intros [|j] id b' Hj; cbn in Hj; [|done]. simplify_eq. rewrite Ev, Er, Nat2Z.id, U1, U2, P3, Z.add_0_r.
    unfold u16. rewrite (Z.mod_small (vd_used_idx v)) by lia. cbn. split_and!.
    + apply list_lookup_total_insert_eq. rewrite Lr. unfold NUM.
      pose proof (Z.mod_pos_bound (vd_used_idx v) 8). lia.
    + apply list_lookup_total_insert_eq. rewrite (qd_status _ _ _ _ _ _ _ Q), length_insert. by rewrite (vo_status _ V).
    + rewrite (qd_info _ _ _ _ _ _ _ Q). apply list_lookup_total_insert_eq. by rewrite (vo_info _ V).
Qed.

(** The transfer does to the disk and the buffer what [sync_rw] does, apart from
    the flag [b->disk]. *)
Lemma served_transfer b (write : bool) i s sd sd' :
  (b < length (bufs s))%nat → b_disk (getbuf b s) = false → 0 ≤ b_blockno (getbuf b s) < 2 ^ 31 →
  disk sd = disk s → disk_writes sd = disk_writes s → bufs sd = alter (set_b_disk true) b (bufs s) →
  served i (mk_request (if write then VIRTIO_BLK_T_OUT else VIRTIO_BLK_T_IN) (sector_of b s) b BSIZE (negb write)
    (Z.of_nat i)) sd sd' →
  ∃ s3, sync_rw b write s = Ret tt s3 ∧ disk sd' = disk s3 ∧ disk_writes sd' = disk_writes s3 ∧
    alter (set_b_disk false) b (bufs sd') = bufs s3 ∧ length (bufs sd') = length (bufs s).
Proof.
  intros Hb Hd Hn E1 E2 E3 [So Si _ _]. unfold sector_of in *. cbn [rq_type rq_sector rq_buf] in *.
  rewrite (block_of_sector _ Hn) in So, Si.
  assert (b_data (getbuf b sd) = b_data (getbuf b s)) as Hdat.
  { unfold getbuf. rewrite E3. by rewrite list_lookup_total_alter_eq. }
  rewrite Hdat, E1, E2, E3 in So. rewrite E1, E2, E3 in Si.
  destruct (lookup_lt_is_Some_2 _ _ Hb) as [bf Ebf].
  assert (getbuf b s = bf) as Ebf' by (by apply list_lookup_total_correct).
  destruct write; eexists; (split; [reflexivity|]).
  - destruct (So eq_refl) as (-> & -> & ->). split_and!; try done; [|by rewrite !length_alter].
    rewrite list_alter_alter_eq. etransitivity; [|by apply (list_alter_id (λ x, x))].
    apply list_alter_ext; [|done]. intros x Hx. rewrite Ebf in Hx. injection Hx as <-.
    rewrite Ebf' in Hd. destruct bf. cbn in *. by subst.
  - destruct (Si eq_refl) as (-> & -> & ->). split_and!; try done; [|by rewrite !length_alter].
    rewrite !list_alter_alter_eq. unfold upd_buf. cbn. apply list_alter_ext; [|done].
    intros x Hx. rewrite Ebf in Hx. injection Hx as <-. rewrite Ebf' in Hd |- *. destruct bf. cbn in *. by subst.
Qed.

(** The handler makes the process that waits for the buffer runnable. *)
Lemma intr_wakes m p q b s :
  m ≠ Some p → procs s !! p = Some q → p_state q = SLEEPING → p_chan q = Some (ChBuf b) →
  p_state (getproc p (intr_state m [b] s)) = RUNNABLE.
Proof.
  intros Hm Hq Hs Hc. unfold getproc, intr_state. cbn. erewrite list_lookup_total_correct.
  2:{ unfold woken. rewrite list_lookup_imap, Hq. cbn. done. }
  rewrite bool_decide_eq_false_2 by (intros E; by apply Hm). unfold wake.
  by rewrite !bool_decide_eq_true_2.
Qed.

(** [virtio_disk_rw] is a transfer.  With no other request
    outstanding, it sleeps once; when the device has served the request, the
    interrupt handler, on whatever hart it runs, makes the sleeping process
    runnable; when that is resumed, [virtio_disk_rw] returns, the disk, the
    order of writes and the buffers are those [sync_rw] leaves, and all
    descriptors are free as before. *)
Theorem virtio_rw_sync p b write s :
  thread_ok p s → c_noff (mycpu s) = 0 → vd_ok (vdisk0 s) → length (dev_used_ring (vdisk0 s)) = NUM →
  pending (vdisk0 s) [] → (3 ≤ nfree (vd_free (vdisk0 s)))%nat →
  (b < length (bufs s))%nat → b_disk (getbuf b s) = false → 0 ≤ b_blockno (getbuf b s) < 2 ^ 31 →
  ∃ s1 k s3, virtio_disk_rw b write s = Switch s1 k ∧ switch_ok s1 p ∧ resumed p s1 ∧
    is_Some (read_request (vdisk0 s1) (last_avail (vdisk0 s1))) ∧ sync_rw b write s = Ret tt s3 ∧
    ∀ sd sd' si, undisturbed p s1 sd → device_step sd sd' →
      undisturbed p sd' si → hart_free si → me si ≠ Some p →
      ∃ si', virtio_disk_intr si = Ret tt si' ∧ hart_free si' ∧ p_state (getproc p si') = RUNNABLE ∧
        ∀ sr, undisturbed p si' sr → resumed p sr →
          ∃ s2, k sr = Ret tt s2 ∧ thread_ok p s2 ∧ same_disk s3 s2 ∧ vd_free (vdisk0 s2) = vd_free (vdisk0 s).
Proof.
  intros T Hn0 V Lr P Hn Hb Hd Hbn.
  destruct (virtio_rw_runs p b write s T Hn0 V Hb Hn) as (i & ds & s1 & k & E & Q & _ & Eb & RO & Hsw & R1 & Hch & Hk).
  destruct RO as [Ed Ew (U1 & U2 & U3) Hsl].
  assert (∃ s3, sync_rw b write s = Ret tt s3) as [s3 E3] by (destruct write; by eexists).
  exists s1, k, s3. split; [done|]. split; [done|]. split; [done|]. split.
  { rewrite (queued_last _ _ _ _ _ _ _ V Q), (qd_request _ _ _ _ _ _ _ Q). done. }
  split; [done|].
  intros sd sd' si [A1 A2 A3 A4 A5] (r & Er & Sv) [B1 B2 B3 B4 B5] Hf Hme.
  rewrite A4, (queued_last _ _ _ _ _ _ _ V Q) in Er, Sv.
  rewrite (qd_request _ _ _ _ _ _ _ Q) in Er. injection Er as <-.
  assert (pending (vdisk0 si) [(i, b)]) as Pi.
  { rewrite B4. eapply served_pending; [exact V|exact Lr|exact P|exact Q|exact U1|exact U2|exact U3|exact A4| |exact Sv]. done. }
  destruct (served_transfer b write i s sd sd' Hb Hd Hbn) as (s3' & E3' & F1 & F2 & F3 & F4);
    [congruence|congruence|congruence|exact Sv|].
  rewrite E3 in E3'. injection E3' as <-.
  eexists. split; [by apply virtio_intr_eq|]. split.
  { apply (hart_free_ext si); [done|done|done| |exact Hf]. cbn. unfold woken. by rewrite length_imap. }
  split.
  { eapply (intr_wakes _ p (getproc p s1)); [exact Hme| |exact Hsl|exact Hch].
    change (procs si !! p = Some (getproc p s1)). rewrite B5, (sv_procs _ _ _ _ Sv), A5.
    apply list_lookup_lookup_total_lt. rewrite (rs_len _ _ R1). apply R1. }
  intros sr [C1 C2 C3 C4 C5] R. cbn in C1, C2, C3.
  assert (vd_desc (vdisk0 sr) = vd_desc (vdisk0 s1) ∧ vd_free (vdisk0 sr) = vd_free (vdisk0 s1)) as [Dd Df].
  { rewrite C4. cbn. by rewrite B4, (sv_vdisk _ _ _ _ Sv), A4. }
  destruct (Hk sr R) as (s2 & E2 & T2 & G1 & G2 & _ & _ & G3 & G4).
  - split.
    + unfold getbuf. rewrite C3, list_lookup_total_alter_eq; [done|]. by rewrite B3, F4.
    + intros j Hj. rewrite Dd, Df, (qd_free _ _ _ _ _ _ _ Q). split; [done|]. apply mark_eq; [done|].
      rewrite (vo_free _ V). by apply (qd_taken _ _ _ _ _ _ _ Q).
  - exists s2. split; [done|]. split; [done|]. split; [split; congruence|].
    rewrite G2, Df, (qd_free _ _ _ _ _ _ _ Q). apply mark_back. rewrite (vo_free _ V). apply Q.
Qed.
End virtio_sync.

(** A device that serves the last request, and the other states of a hart on
    which the handler runs and the thread is resumed. *)
Definition serve (s : kernel) : kernel :=
  let v := vdisk0 s in
  let i := last_avail v in
  match read_request v i with
  | None => s
  | Some r =>
      let n := block_of (rq_sector r) in
      let s' := set_vdisk0 (set_info_status (<[Z.to_nat (rq_status r) := 0]> (info_status v))
        (set_dev_used_idx (u16 (dev_used_idx v + 1))
        (set_dev_used_ring (<[Z.to_nat (dev_used_idx v `mod` Z.of_nat NUM) := Z.of_nat i]> (dev_used_ring v)) v))) s in
      if rq_type r =? VIRTIO_BLK_T_OUT
      then set_disk_writes (disk_writes s ++ [(n, b_data (getbuf (rq_buf r) s))])
             (set_disk (<[n := b_data (getbuf (rq_buf r) s)]> (disk s)) s')
      else set_bufs (alter (set_b_data (dblock (disk s) n)) (rq_buf r) (bufs s)) s'
  end.

Lemma serve_step s : is_Some (read_request (vdisk0 s) (last_avail (vdisk0 s))) → device_step s (serve s).
Proof.
  intros [r Er]. exists r. split; [done|]. unfold serve. rewrite Er.
  destruct (Z.eqb_spec (rq_type r) VIRTIO_BLK_T_OUT) as [E|E]; split; try done; intros E'; by rewrite E' in E.
Qed.

Definition on_hart (h s : kernel) : kernel := set_locks (locks h) (set_cpus (cpus h) (set_tp (tp h) s)).

#[local] Existing Instance sample_device.

(** A write of block 0 through the driver, the device and the handler. *)
Lemma virtio_rw_sync_sample :
  ∃ s s1 k si s2 s3, virtio_disk_rw 3 true s = Switch s1 k ∧
    virtio_disk_intr (on_hart boot (serve s1)) = Ret tt si ∧ k (on_hart s1 si) = Ret tt s2 ∧
    sync_rw 3 true s = Ret tt s3 ∧ same_disk s3 s2.
Proof.
  set (s := set_vdisk0 sample_vdisk boot_thread).
  assert (thread_ok 0 s) as T by by apply (thread_ok_ext 0 boot_thread), boot_thread_ok.
  destruct (virtio_rw_sync 0 3 true s T) as (s1 & k & s3 & E1 & _ & R & Hr & E3 & Hd).
  - done.
  - by split.
  - done.
  - by split.
  - apply Nat.leb_le. reflexivity.
  - apply Nat.ltb_lt. reflexivity.
  - reflexivity.
  - by vm_compute.
  - clearbody s. destruct (Hd s1 (serve s1) (on_hart boot (serve s1))) as (si & Ei & Fi & _ & Hi); 
      [by split|by apply serve_step|by split| |done|].
    + apply (hart_free_ext boot); [done..| |exact boot_hart_free].
      destruct (serve_step s1 Hr) as (r & _ & Sv). cbn. rewrite (sv_procs _ _ _ _ Sv). apply R.
    + destruct (Hi (on_hart s1 si)) as (s2 & E2 & _ & D & _).
      * by split.
      * destruct R as [R1 R2 R3 R4 R5 R6 R7 R8]. split; [exact R1|exact R2|exact R3|exact R4|apply Fi|exact R6|exact R7|exact R8].
      * exists s, s1, k, si, s2, s3. exact (conj E1 (conj Ei (conj E2 (conj E3 D)))).
Qed.
