(* ===== verification/Trap.v ===== *)
(** * kernel/trap.c, kernel/plic.c and kernel/main.c

    Traps from user space and from the kernel, device interrupts and the start
    of the kernel.  The interrupt controller answers a claim with the next of
    the interrupts that are pending. *)

From S2P Require Import Prelude Machine Memory Kstring State Spinlock Kalloc Vm Sched Ring Uart.
From S2P Require Import Printf Proc Console Sleeplock Block Bio Log Fs Dir Pipe File Life Exec.
From S2P Require Import Sysfile Syscall Virtio.

Definition UART0_IRQ : Z := 10.
Definition VIRTIO0_IRQ : Z := 1.
Definition PLIC_SENABLE (hart : Z) : Z := PLIC + 0x2080 + hart * 0x100.
Definition PLIC_SPRIORITY (hart : Z) : Z := PLIC + 0x201000 + hart * 0x2000.
Definition PLIC_SCLAIM (hart : Z) : Z := PLIC + 0x201004 + hart * 0x2000.

(** ** kernel/plic.c *)

Definition plicinit : K unit :=
  mmio_write (PLIC + UART0_IRQ * 4) 1 ;;;
  mmio_write (PLIC + VIRTIO0_IRQ * 4) 1.

Definition plicinithart : K unit :=
  let! hart := cpuid in
  mmio_write (PLIC_SENABLE (Z.of_nat hart))
    (Z.lor (Z.shiftl 1 UART0_IRQ) (Z.shiftl 1 VIRTIO0_IRQ)) ;;;
  mmio_write (PLIC_SPRIORITY (Z.of_nat hart)) 0.

Definition plic_claim : K Z := λ s,
  match plic_claims s with
  | [] => Ret 0 s
  | irq :: l => Ret irq (set_plic_claims l s)
  end.

Definition plic_complete (irq : Z) : K unit :=
  let! hart := cpuid in
  mmio_write (PLIC_SCLAIM (Z.of_nat hart)) irq.

Section trap.
Context `{KernelLayout} `{VirtioDevice}.
#[local] Existing Instance virtio_driver.

Definition trapinit : K unit := initlock LkTicks "time".

Definition trapinithart : K unit := modify (upd_csr (set_stvec kernelvec_addr)).

Definition clockintr : K unit :=
  acquire LkTicks ;;;
  modify (λ s, set_ticks (u32 (ticks s + 1)) s) ;;;
  wakeup (Some ChTicks) ;;;
  release LkTicks.

(** [devintr]: 2 for a timer interrupt, 1 for another device, 0 otherwise. *)
Definition devintr : K Z :=
  let! c := gets csr in
  if negb (Z.land (scause c) 0x8000000000000000 =? 0) && (Z.land (scause c) 0xff =? 9) then
    let! irq := plic_claim in
    (if irq =? UART0_IRQ then uartintr
     else if irq =? VIRTIO0_IRQ then virtio_disk_intr
     else when (negb (irq =? 0)) (printf ("unexpected interrupt irq=%d" ++ nl) [AInt irq])) ;;;
    when (negb (irq =? 0)) (plic_complete irq) ;;;
    ret 1
  else if scause c =? 0x8000000000000001 then
    let! id := cpuid in
    when (bool_decide (id = 0%nat)) clockintr ;;;
    modify (upd_csr (λ c, set_sip (Z.land (sip c) (Z.lnot 2)) c)) ;;;
    ret 2
  else ret 0.

(** [usertrap]: the answer is where it jumps to ([usertrapret]). *)
Definition usertrap : K (Z * Z * Z) :=
  let! c := gets csr in
  if spp c then panic "usertrap: not from user mode" else
  modify (upd_csr (set_stvec kernelvec_addr)) ;;;
  let! p := curproc in
  tfset p TF_epc (sepc c) ;;;
  let! which_dev :=
    (if scause c =? 8 then
       let! killed := pget p p_killed in
       when (negb (killed =? 0)) (exit (-1)) ;;;
       let! epc := tfget p TF_epc in
       tfset p TF_epc (u64 (epc + 4)) ;;;
       intr_on ;;;
       syscall ;;;
       ret 0
     else
       let! d := devintr in
       if negb (d =? 0) then ret d
       else
         let! pid := pget p p_pid in
         let! c := gets csr in
         printf ("usertrap(): unexpected scause %p pid=%d" ++ nl) [APtr (scause c); AInt pid] ;;;
         printf ("            sepc=%p stval=%p" ++ nl) [APtr (sepc c); APtr (stval c)] ;;;
         pset p (set_p_killed 1) ;;;
         ret 0) in
  let! killed := pget p p_killed in
  when (negb (killed =? 0)) (exit (-1)) ;;;
  when (which_dev =? 2) yield ;;;
  usertrapret.

Definition kerneltrap : K unit :=
  let! c := gets csr in
  if negb (spp c) then panic "kerneltrap: not from supervisor mode" else
  let! on := intr_get in
  if (on : bool) then panic "kerneltrap: interrupts enabled" else
  let! which_dev := devintr in
  if which_dev =? 0 then
    printf ("scause %p" ++ nl) [APtr (scause c)] ;;;
    let! c := gets csr in
    printf ("sepc=%p stval=%p" ++ nl) [APtr (sepc c); APtr (stval c)] ;;;
    panic "kerneltrap"
  else
  when (which_dev =? 2)
    (let! p := myproc in
     match p with
     | None => ret tt
     | Some p =>
         let! st := pget p p_state in
         when (bool_decide (st = RUNNING)) yield
     end) ;;;
  modify (upd_csr (set_sepc (sepc c))) ;;;
  modify (upd_csr (λ c', set_spie (spie c) (set_spp (spp c) c'))).

(** ** kernel/main.c *)

(** [main] on hart 0, up to the call of [scheduler]. *)
Definition main_boot : K unit :=
  consoleinit ;;;
  printfinit ;;;
  printf nl [] ;;;
  printf ("xv6 kernel is booting" ++ nl) [] ;;;
  printf nl [] ;;;
  kinit ;;;
  kvminit ;;;
  kvminithart ;;;
  procinit ;;;
  trapinit ;;;
  trapinithart ;;;
  plicinit ;;;
  plicinithart ;;;
  binit ;;;
  iinit ;;;
  fileinit ;;;
  virtio_disk_init ;;;
  userinit.

(** [main] on another hart, once [started] is set. *)
Definition main_other : K unit :=
  let! id := cpuid in
  printf ("hart %d starting" ++ nl) [AInt (Z.of_nat id)] ;;;
  kvminithart ;;;
  trapinithart ;;;
  plicinithart.
End trap.
