(* ===== verification/User.v ===== *)
(** * User programs

    A user program computes with its own variables and calls the operating
    system.  [call] is a system call of user/user.h with the memory it passes
    (strings without their NUL, buffers as lists of bytes), [reply] the value
    it returns and the bytes it stores in the caller's buffer.  What the system
    does is a parameter of the programs: a type of worlds and the effect of a
    call on it, [None] when the call does not return ([exec] that succeeds). *)

From S2P Require Import Prelude.

Inductive call : Type :=
| Cfork | Cwait | Cpipe | Cgetpid | Cuptime
| Csysinfo (addr : option Z)          (** [None]: a buffer of the program *)
| Cwrite (fd : Z) (data : list Z)
| Cread (fd n : Z)
| Cclose (fd : Z)
| Ckill (pid : Z)
| Cexec (path : list Z) (argv : list (list Z))
| Copen (path : list Z) (omode : Z)
| Cmknod (path : list Z) (major minor : Z)
| Cunlink (path : list Z)
| Cfstat (fd : Z)
| Clink (old new : list Z)
| Cmkdir (path : list Z)
| Cchdir (path : list Z)
| Cdup (fd : Z)
| Csbrk (n : Z)
| Csleep (n : Z)
| Ctrace (mask : Z).

Record reply : Type := mk_reply { r_val : Z; r_bytes : list Z }.

Class UserOS (W : Type) : Type := os : call → W → option (reply * W).

(** How a program that runs in a world ends: with a value, by [exit], by
    [exec], never, or with an access outside its memory. *)
Inductive uout (W A : Type) : Type :=
| URet (a : A) (w : W)
| UExit (status : Z) (w : W)
| UGone (w : W)
| UHang
| UFault.
Arguments URet {W A} a w.
Arguments UExit {W A} status w.
Arguments UGone {W A} w.
Arguments UHang {W A}.
Arguments UFault {W A}.

Definition U (W A : Type) : Type := W → uout W A.

Definition ubind {W A B : Type} (c : U W A) (f : A → U W B) : U W B := λ w,
  match c w with
  | URet a w' => f a w'
  | UExit st w' => UExit st w'
  | UGone w' => UGone w'
  | UHang => UHang
  | UFault => UFault
  end.
Definition uret {W A : Type} (a : A) : U W A := λ w, URet a w.
Definition u_exit {W A : Type} (status : Z) : U W A := λ w, UExit status w.
Definition uhang {W A : Type} : U W A := λ _, UHang.

Declare Scope user_scope.
Delimit Scope user_scope with user.
Notation "'let?' x ':=' c 'in' k" := (ubind c (λ x, k))
  (at level 10, x binder, c at level 100, k at level 200,
   format "'[v' 'let?'  x  ':='  c  'in' '/' k ']'") : user_scope.
Notation "c '???' k" := (ubind c (λ _, k))
  (at level 100, k at level 200, right associativity,
   format "'[v' c '???' '/' k ']'") : user_scope.
Open Scope user_scope.

(** A system call, with its reply or only the value it returns. *)
Definition sys {W} `{UserOS W} (c : call) : U W reply := λ w,
  match os c w with
  | Some (r, w') => URet r w'
  | None => UGone w
  end.
Definition sysv {W} `{UserOS W} (c : call) : U W Z := let? r := sys c in uret (r_val r).

Definition u_write {W} `{UserOS W} (fd : Z) (data : list Z) : U W Z := sysv (Cwrite fd data).

(** [for(i = ...; ...; i++) body] over a list. *)
Fixpoint ufor {W A : Type} (l : list A) (body : A → U W unit) : U W unit :=
  match l with
  | [] => uret tt
  | x :: l' => body x ??? ufor l' body
  end.

(** Loops, as in the kernel: up to [2^64] turns. *)
Fixpoint uiter2 {W A B : Type} (n : nat) (step : A → U W (A + B)) (a : A) : U W (A + B) :=
  match n with
  | O => step a
  | S n' =>
      let? r := uiter2 n' step a in
      match r with
      | inl a' => uiter2 n' step a'
      | inr b => uret (inr b)
      end
  end.

Definition uloop {W A B : Type} (step : A → U W (A + B)) (a : A) : U W B :=
  let? r := uiter2 64 step a in
  match r with
  | inl _ => uhang
  | inr b => uret b
  end.

(** The unary unrolling. *)
Fixpoint urun_n {W A B : Type} (n : nat) (step : A → U W (A + B)) (a : A) : U W (A + B) :=
  match n with
  | O => uret (inl a)
  | S n' =>
      let? r := step a in
      match r with
      | inl a' => urun_n n' step a'
      | inr b => uret (inr b)
      end
  end.

(** ** Laws *)

Section laws.
Context {W : Type}.

Lemma ubind_URet {A B} (c : U W A) (f : A → U W B) w a w' : c w = URet a w' → ubind c f w = f a w'.
Proof. intros E. unfold ubind. by rewrite E. Qed.

Lemma ubind_assoc {A B C} (c : U W A) (f : A → U W B) (g : B → U W C) w :
  ubind (ubind c f) g w = ubind c (λ a, ubind (f a) g) w.
Proof. unfold ubind. by destruct (c w). Qed.

Section loops.
Context {A B : Type} (step : A → U W (A + B)).

Definition ucontinue (n : nat) (r : A + B) : U W (A + B) :=
  match r with
  | inl a' => urun_n n step a'
  | inr b => uret (inr b)
  end.

Lemma urun_n_next n a w a' w' : step a w = URet (inl a') w' → urun_n (S n) step a w = urun_n n step a' w'.
Proof. intros E. cbn [urun_n]. by rewrite (ubind_URet _ _ _ _ _ E). Qed.

Lemma urun_n_stop n a w b w' : step a w = URet (inr b) w' → urun_n (S n) step a w = URet (inr b) w'.
Proof. intros E. cbn [urun_n]. by rewrite (ubind_URet _ _ _ _ _ E). Qed.

Lemma urun_n_add n m a w : urun_n (n + m) step a w = ubind (urun_n n step a) (ucontinue m) w.
Proof.
  revert a w. induction n as [|n IH]; intros a w; cbn [Nat.add urun_n]; [done|].
  rewrite ubind_assoc. unfold ubind at 1 2. destruct (step a w) as [[a'|b] w'|?|?| |]; try (done || apply IH).
Qed.

Lemma urun_n_trans n m a w a' w' :
  urun_n n step a w = URet (inl a') w' → urun_n (n + m) step a w = urun_n m step a' w'.
Proof. intros E. rewrite urun_n_add. by rewrite (ubind_URet _ _ _ _ _ E). Qed.

Lemma uiter2_urun_n n a w : uiter2 n step a w = urun_n (2 ^ n) step a w.
Proof.
  revert a w. induction n as [|n IH]; intros a w.
  - cbn. unfold ubind. by destruct (step a w) as [[]| | | |].
  - replace (2 ^ S n)%nat with (2 ^ n + 2 ^ n)%nat by (cbn; lia).
    rewrite urun_n_add. cbn [uiter2]. unfold ubind. rewrite IH.
    destruct (urun_n (2 ^ n) step a w) as [[]| | | |]; try (done || apply IH).
Qed.

Lemma uloop_URet k a w b w' :
  Z.of_nat k ≤ 2 ^ 64 → urun_n k step a w = URet (inr b) w' → uloop step a w = URet b w'.
Proof.
  intros Hk%pow_nat_64 E. unfold uloop, ubind. rewrite uiter2_urun_n.
  apply Nat.le_exists_sub in Hk as (j & -> & _). rewrite Nat.add_comm, urun_n_add.
  by rewrite (ubind_URet _ _ _ _ _ E).
Qed.

(** A loop with an invariant and a measure. *)
Lemma uloop_inv (I : A → W → Prop) (m : A → W → nat) (Q : B → W → Prop) a w :
  Z.of_nat (m a w) < 2 ^ 64 → I a w →
  (∀ a w, I a w → ∃ r w', step a w = URet r w' ∧
     match r with inl a' => I a' w' ∧ (m a' w' < m a w)%nat | inr b => Q b w' end) →
  ∃ b w', uloop step a w = URet b w' ∧ Q b w'.
Proof.
  intros Hm HI Hstep.
  assert (∀ n a w, (m a w < n)%nat → I a w →
    ∃ b w', urun_n n step a w = URet (inr b) w' ∧ Q b w') as Hrun.
  { induction n as [|n IH]; intros a' w1 Hn H1; [lia|].
    destruct (Hstep a' w1 H1) as ([a2|b] & w2 & E & Hr).
    - destruct Hr as [H2 Hlt]. destruct (IH a2 w2) as (b & w3 & E3 & HQ); [lia|done|].
      exists b, w3. by rewrite (urun_n_next _ _ _ _ _ E).
    - exists b, w2. by rewrite (urun_n_stop _ _ _ _ _ E). }
  destruct (Hrun (S (m a w)) a w) as (b & w' & E & HQ); [lia|done|].
  exists b, w'. split; [|done]. apply (uloop_URet (S (m a w))); [lia|done].
Qed.

End loops.
End laws.

(** ** Files

    What programs that read and write files rely on: [read] delivers at least
    one of the bytes that are left, and nothing only at the end; [write] takes
    all it is given. *)
Class FileIO (W : Type) `{UserOS W} : Type := {
  inp : Z → W → list Z;
  out : Z → W → list Z;
  io_read : ∀ fd n w, 0 < n →
    ∃ bs w', os (Cread fd n) w = Some (mk_reply (Z.of_nat (length bs)) bs, w') ∧
      inp fd w = bs ++ inp fd w' ∧ Z.of_nat (length bs) ≤ n ∧ (bs = [] → inp fd w = []) ∧
      (∀ fd', fd' ≠ fd → inp fd' w' = inp fd' w) ∧ (∀ fd', out fd' w' = out fd' w);
  io_write : ∀ fd data w,
    ∃ w', os (Cwrite fd data) w = Some (mk_reply (Z.of_nat (length data)) [], w') ∧
      out fd w' = out fd w ++ data ∧ (∀ fd', fd' ≠ fd → out fd' w' = out fd' w) ∧
      (∀ fd', inp fd' w' = inp fd' w)
}.

(** From [w] to [w'] the program wrote [data] to [fd] and read [bs] from [fin]. *)
Record did {W} `{FileIO W} (fin fd : Z) (bs data : list Z) (w w' : W) : Prop := {
  did_in : inp fin w = bs ++ inp fin w';
  did_in_ne : ∀ fd', fd' ≠ fin → inp fd' w' = inp fd' w;
  did_out : out fd w' = out fd w ++ data;
  did_out_ne : ∀ fd', fd' ≠ fd → out fd' w' = out fd' w
}.

Section files.
Context {W : Type} `{FileIO W}.

Lemma did_refl fin fd w : did fin fd [] [] w w.
Proof. split; [done|done|by rewrite app_nil_r|done]. Qed.

Lemma did_trans fin fd bs1 data1 bs2 data2 w1 w2 w3 :
  did fin fd bs1 data1 w1 w2 → did fin fd bs2 data2 w2 w3 →
  did fin fd (bs1 ++ bs2) (data1 ++ data2) w1 w3.
Proof.
  intros [I1 J1 O1 P1] [I2 J2 O2 P2]. split.
  - by rewrite I1, I2, app_assoc.
  - intros fd' Hne. by rewrite J2, J1.
  - by rewrite O2, O1, app_assoc.
  - intros fd' Hne. by rewrite P2, P1.
Qed.

Lemma sys_read fin fd n w :
  0 < n → ∃ bs w', sys (Cread fin n) w = URet (mk_reply (Z.of_nat (length bs)) bs) w' ∧
    did fin fd bs [] w w' ∧ Z.of_nat (length bs) ≤ n ∧ (bs = [] → inp fin w' = []).
Proof.
  intros Hn. destruct (io_read fin n w Hn) as (bs & w' & E & Hi & Hl & He & Hi' & Ho).
  exists bs, w'. unfold sys. rewrite E. split; [done|]. split; [|split; [done|]].
  - split; [done|done|by rewrite Ho, app_nil_r|by intros fd' _].
  - intros ->. by rewrite <- He.
Qed.

Lemma u_write_did fin fd data w :
  ∃ w', u_write fd data w = URet (Z.of_nat (length data)) w' ∧ did fin fd [] data w w'.
Proof.
  destruct (io_write fd data w) as (w' & E & Ho & Ho' & Hi). exists w'.
  unfold u_write, sysv, ubind, sys. rewrite E. split; [done|]. split; [by rewrite Hi|by intros fd' _|done|done].
Qed.
End files.

Arguments ubind_URet {W A B} c f w a w'.
