(* ===== verification/Umalloc.v ===== *)
(** * user/umalloc.c

    The allocator of the user programs: a circular list of free blocks, each
    with a header of 16 bytes.  The memory the allocator works on is its
    headers, by address; a [Header *] is the address and [p + n] is [n]
    headers further. *)

From S2P Require Import Prelude User.

Record header : Type := mk_header { h_ptr : Z; h_size : Z }.

#[export] Instance header_inhabited : Inhabited header := populate (mk_header 0 0).

Definition HDR : Z := 16.

(** The headers in memory and the variable [freep]. *)
Record uheap : Type := mk_uheap { headers : gmap Z header; freep : Z }.

(** The address of the variable [base]. *)
Class UmallocLayout : Type := { base : Z }.

Definition hdr (p : Z) (h : uheap) : header := headers h !!! p.
Arguments hdr : simpl never.
Definition set_hdr (p : Z) (f : header → header) (h : uheap) : uheap :=
  mk_uheap (<[p := f (hdr p h)]> (headers h)) (freep h).
Definition set_freep (p : Z) (h : uheap) : uheap := mk_uheap (headers h) p.
Definition set_ptr (q : Z) (x : header) : header := mk_header q (h_size x).
Definition set_size (n : Z) (x : header) : header := mk_header (h_ptr x) n.

Section umalloc.
Context {W : Type} `{UserOS W} `{UmallocLayout}.

(** Programs with a heap. *)
Definition HU (A : Type) : Type := U (W * uheap) A.
Definition hget {A} (f : uheap → A) : HU A := λ '(w, h), URet (f h) (w, h).
Definition hmod (f : uheap → uheap) : HU unit := λ '(w, h), URet tt (w, f h).
Definition hsys (c : call) : HU Z := λ '(w, h),
  match os c w with
  | Some (r, w') => URet (r_val r) (w', h)
  | None => UGone (w, h)
  end.

(** [for(p = freep; !(bp > p && bp < p->s.ptr); p = p->s.ptr) if(...) break;] *)
Definition free_find (bp p : Z) : HU (Z + Z) :=
  let? nx := hget (λ h, h_ptr (hdr p h)) in
  if (bp >? p) && (bp <? nx) then uret (inr p)
  else if (p >=? nx) && ((bp >? p) || (bp <? nx)) then uret (inr p)
  else uret (inl nx).

(** The rest of [free]: the block joins its neighbours. *)
Definition free_link (bp p : Z) (h : uheap) : uheap :=
  let nx := h_ptr (hdr p h) in
  let h :=
    if bp + HDR * h_size (hdr bp h) =? nx then
      let h := set_hdr bp (set_size (u32 (h_size (hdr bp h) + h_size (hdr nx h)))) h in
      set_hdr bp (set_ptr (h_ptr (hdr nx h))) h
    else set_hdr bp (set_ptr nx) h in
  let h :=
    if p + HDR * h_size (hdr p h) =? bp then
      let h := set_hdr p (set_size (u32 (h_size (hdr p h) + h_size (hdr bp h)))) h in
      set_hdr p (set_ptr (h_ptr (hdr bp h))) h
    else set_hdr p (set_ptr bp) h in
  set_freep p h.

Definition free (ap : Z) : HU unit :=
  let bp := ap - HDR in
  let? start := hget freep in
  let? p := uloop (free_find bp) start in
  hmod (free_link bp p).

(** [sbrk] takes an [int].  The answer is 0 when there is no memory. *)
Definition morecore (nu : Z) : HU Z :=
  let nu := if nu <? 4096 then 4096 else nu in
  let? p := hsys (Csbrk (s32 (nu * HDR))) in
  if p =? -1 then uret 0 else
  hmod (set_hdr p (set_size nu)) ???
  free (p + HDR) ???
  hget freep.

(** [prevp = p, p = p->s.ptr] *)
Definition malloc_next (p : Z) : HU (Z * Z + Z) :=
  let? nx := hget (λ h, h_ptr (hdr p h)) in uret (inl (p, nx)).

(** One turn of the loop of [malloc]; the variables are [prevp] and [p]. *)
Definition malloc_step (nunits : Z) (v : Z * Z) : HU (Z * Z + Z) :=
  let '(prevp, p) := v in
  let? size := hget (λ h, h_size (hdr p h)) in
  if size >=? nunits then
    let? p :=
      if size =? nunits then
        hmod (λ h, set_hdr prevp (set_ptr (h_ptr (hdr p h))) h) ??? uret p
      else
        hmod (set_hdr p (set_size (size - nunits))) ???
        let p := p + HDR * (size - nunits) in
        hmod (set_hdr p (set_size nunits)) ??? uret p in
    hmod (set_freep prevp) ???
    uret (inr (p + HDR))
  else
    let? fp := hget freep in
    if p =? fp then
      let? p := morecore nunits in
      if p =? 0 then uret (inr 0) else malloc_next p
    else malloc_next p.

Definition malloc (nbytes : Z) : HU Z :=
  let nunits := u32 ((nbytes + HDR - 1) / HDR + 1) in
  let? fp := hget freep in
  (if fp =? 0 then
     hmod (set_hdr base (set_ptr base)) ??? hmod (set_freep base) ??? hmod (set_hdr base (set_size 0))
   else uret tt) ???
  let? prevp := hget freep in
  let? p := hget (λ h, h_ptr (hdr prevp h)) in
  uloop (malloc_step nunits) (prevp, p).

End umalloc.
