(* ===== verification/UmallocSpec.v ===== *)
(** * What malloc and free promise

    The free list is circular, sorted by address and without adjacent blocks;
    free and allocated blocks never overlap. *)

From S2P Require Import Prelude User Umalloc.

(** ** Blocks *)

(** The address of a block's header and its size in headers. *)
Abbreviation block := (Z * Z)%type.
Definition bend (b : block) : Z := b.1 + HDR * b.2.

(** Arithmetic on the bounds of blocks. *)
Ltac hlia := unfold bend, HDR in *; cbn [fst snd] in *; lia.

(** How many blocks of a list cover an address. *)
Definition cov (b : block) (x : Z) : Z := if decide (b.1 ≤ x < bend b) then 1 else 0.
Fixpoint cnt (l : list block) (x : Z) : Z :=
  match l with
  | [] => 0
  | b :: l' => cov b x + cnt l' x
  end.

Lemma cov_range b x : 0 ≤ cov b x ≤ 1.
Proof. unfold cov. case_decide; lia. Qed.

Lemma cnt_nonneg l x : 0 ≤ cnt l x.
Proof. induction l as [|b l IH]; cbn; [lia|]. pose proof (cov_range b x). lia. Qed.

Lemma cnt_app l1 l2 x : cnt (l1 ++ l2) x = cnt l1 x + cnt l2 x.
Proof. induction l1 as [|b l1 IH]; cbn; lia. Qed.

Lemma cnt_elem l b x : b ∈ l → cov b x ≤ cnt l x.
Proof.
  induction 1 as [b l|b b' l Hb IH]; cbn.
  - pose proof (cnt_nonneg l x). lia.
  - pose proof (cov_range b' x). lia.
Qed.

Definition apart (b c : block) : Prop := bend b ≤ c.1 ∨ bend c ≤ b.1.

(** Two blocks that share no byte. *)
Lemma cov_apart b c : 1 ≤ b.2 → 1 ≤ c.2 → (∀ x, cov b x + cov c x ≤ 1) → apart b c.
Proof.
  intros Hb Hc Hx. unfold apart. specialize (Hx (Z.max b.1 c.1)). unfold cov, bend, HDR in *.
  destruct (decide (b.1 + 16 * b.2 ≤ c.1)); [by left|].
  destruct (decide (c.1 + 16 * c.2 ≤ b.1)); [by right|].
  rewrite !decide_True in Hx by lia. lia.
Qed.

(** ** The free list *)

Section umalloc_spec.
Context `{UmallocLayout}.

(** The headers link the blocks, the last one to [e]. *)
Fixpoint linked (h : uheap) (l : list block) (e : Z) : Prop :=
  match l with
  | [] => True
  | (a, n) :: l' => hdr a h = mk_header (hd e l'.*1) n ∧ linked h l' e
  end.

(** Each block ends before the next one starts. *)
Fixpoint ordered (l : list block) : Prop :=
  match l with
  | [] => True
  | b :: l' => match l' with c :: _ => bend b < c.1 | [] => True end ∧ ordered l'
  end.

(** [fl] is the free list from [base] on, [al] the allocated blocks; all of
    them lie between [base] and the end [hi] of the heap. *)
Record heap_ok (hi : Z) (h : uheap) (fl al : list block) : Prop := {
  ok_base : ∃ rest, fl = (base, 0) :: rest;
  ok_linked : linked h fl base;
  ok_ordered : ordered fl;
  ok_freep : freep h ∈ fl.*1;
  ok_range : ∀ b, b ∈ tail fl ++ al → base + HDR ≤ b.1 ∧ 1 ≤ b.2 ∧ bend b ≤ hi;
  ok_apart : ∀ x, cnt fl x + cnt al x ≤ 1;
  ok_sizes : ∀ b, b ∈ al → h_size (hdr b.1 h) = b.2;
  ok_low : 0 < base;
  ok_top : base + HDR ≤ hi;
  ok_hi : hi < 2 ^ 34
}.

Lemma linked_app h l1 b l2 e :
  linked h (l1 ++ b :: l2) e ↔ linked h l1 b.1 ∧ linked h (b :: l2) e.
Proof.
  induction l1 as [|[a n] l1 IH]; [destruct b; cbn; tauto|]. cbn [app linked]. rewrite IH.
  destruct l1 as [|[a' n'] l1]; cbn; tauto.
Qed.

Lemma linked_ext h h' l e : (∀ b, b ∈ l → hdr b.1 h' = hdr b.1 h) → linked h l e → linked h' l e.
Proof.
  induction l as [|[a n] l IH]; intros Hx; cbn; [done|]. intros [E L].
  rewrite (Hx (a, n) ltac:(by left) : hdr a h' = hdr a h). split; [done|]. apply IH; [|done]. intros b Hb. apply Hx. by right.
Qed.

Lemma linked_elem h l e b : b ∈ l → linked h l e → h_size (hdr b.1 h) = b.2.
Proof.
  induction l as [|[a n] l IH]; intros Hb; [by apply elem_of_nil in Hb|].
  apply elem_of_cons in Hb as [->|Hb]; intros [E L]; [cbn; by rewrite E|by apply IH].
Qed.

Lemma ordered_app l1 b l2 :
  ordered (l1 ++ b :: l2) ↔ ordered (l1 ++ [b]) ∧ ordered (b :: l2).
Proof.
  induction l1 as [|c l1 IH]; [cbn; tauto|]. cbn [app ordered]. rewrite IH.
  destruct l1 as [|d l1]; cbn; tauto.
Qed.

Lemma ordered_lt b l c : (∀ d, d ∈ b :: l → 0 ≤ d.2) → ordered (b :: l) → c ∈ l → bend b < c.1.
Proof.
  revert b. induction l as [|d l IH]; intros b Hn [Hb Ho] Hc; [by apply elem_of_nil in Hc|].
  apply elem_of_cons in Hc as [->|Hc]; [done|].
  assert (bend d < c.1) by (apply IH; [|done|done]; intros; apply Hn; by right).
  assert (d.1 ≤ bend d); [|lia]. unfold bend, HDR. specialize (Hn d ltac:(by right; left)). lia.
Qed.

(** Changing the size of the last block. *)
Lemma ordered_last l a n m : ordered (l ++ [(a, n)]) ↔ ordered (l ++ [(a, m)]).
Proof.
  induction l as [|c l IH]; [done|]. cbn [app ordered]. rewrite IH. destruct l; done.
Qed.

(** ** Finding the place of a block *)

Lemma place_split b0 l bp n :
  bend b0 ≤ bp → ordered (b0 :: l) → (∀ b, b ∈ l → apart b (bp, n)) →
  ∃ l1 c l2, b0 :: l = l1 ++ c :: l2 ∧ bend c ≤ bp ∧
    match l2 with d :: _ => bend (bp, n) ≤ d.1 | [] => True end.
Proof.
  revert b0. induction l as [|d l IH]; intros b0 Hb [Ho Hs] Ha.
  { by exists [], b0, []. }
  destruct (Ha d ltac:(by left)) as [Hd|Hd].
  - destruct (IH d Hd Hs) as (l1 & c & l2 & E & Hc & Hn); [intros; apply Ha; by right|].
    exists (b0 :: l1), c, l2. by rewrite E.
  - by exists [], b0, (d :: l).
Qed.

Section blocks.
Context {hi : Z} {h : uheap} {fl al : list block} (K : heap_ok hi h fl al).

Lemma ok_size b : b ∈ fl → 0 ≤ b.2.
Proof using K.
  destruct (ok_base _ _ _ _ K) as [rest E]. rewrite E. intros [->|Hb]%elem_of_cons; [done|].
  destruct (ok_range _ _ _ _ K b) as (_ & ? & _); [rewrite E; cbn; set_solver|lia].
Qed.

Lemma ok_addr b : b ∈ fl → base ≤ b.1.
Proof using K.
  destruct (ok_base _ _ _ _ K) as [rest E]. rewrite E. intros [->|Hb]%elem_of_cons; [done|].
  destruct (ok_range _ _ _ _ K b) as (? & _ & _); [rewrite E; cbn; set_solver|]. hlia.
Qed.

(** An allocated block is apart from the free ones. *)
Lemma ok_alloc_free b c : b ∈ tail fl → c ∈ al → apart b c.
Proof using K.
  intros Hb Hc. destruct (ok_range _ _ _ _ K b) as (_ & Nb & _); [set_solver|].
  destruct (ok_range _ _ _ _ K c) as (_ & Nc & _); [set_solver|]. apply cov_apart; [done|done|].
  intros x. pose proof (ok_apart _ _ _ _ K x) as Hx. pose proof (cnt_elem _ _ x Hc).
  assert (b ∈ fl) as Hb' by (destruct fl; [done|by right]). pose proof (cnt_elem _ _ x Hb'). lia.
Qed.
End blocks.

Lemma ok_place hi h fl bp n al :
  heap_ok hi h fl ((bp, n) :: al) →
  ∃ l1 c l2, fl = l1 ++ c :: l2 ∧ bend c ≤ bp ∧
    match l2 with d :: _ => bend (bp, n) ≤ d.1 | [] => True end.
Proof.
  intros K. pose proof K as [[rest E] _ Ho _ Hr _ _ _ _ _]. rewrite E in Ho. rewrite E.
  destruct (Hr (bp, n)) as (Hb & _ & _); [set_solver|]. apply place_split; [|done|].
  - hlia.
  - intros b Hin. apply (ok_alloc_free K); [by rewrite E|by left].
Qed.

(** A block and the one after it in the list. *)
Lemma linked_at {h fl} (HL : linked h fl base) m a n m' :
  fl = m ++ (a, n) :: m' → h_ptr (hdr a h) = hd base m'.*1.
Proof. intros Ef. rewrite Ef in HL. by apply linked_app in HL as [_ [-> _]]. Qed.

Lemma ordered_at {fl} (HO : ordered fl) (HN : ∀ b, b ∈ fl → 0 ≤ b.2) m b m' c :
  fl = m ++ b :: m' → c ∈ m' → b.1 ≤ bend b < c.1.
Proof.
  intros Ef Hc. rewrite Ef in HO. apply ordered_app in HO as [_ Ho].
  split; [unfold bend, HDR; specialize (HN b ltac:(rewrite Ef; set_solver)); lia|].
  eapply ordered_lt; [|done|done]. intros d Hd. apply HN. rewrite Ef. set_solver.
Qed.

Section walk.
Context {W : Type} `{UserOS W}.
Context {h : uheap} {fl l1 l2 : list block} {p np bp : Z} (w : W).
Hypothesis (E : fl = l1 ++ (p, np) :: l2) (Hbase : ∃ rest, fl = (base, 0) :: rest).
Hypothesis (HL : linked h fl base) (HO : ordered fl) (HN : ∀ b, b ∈ fl → 0 ≤ b.2).
Hypothesis (HA : ∀ b, b ∈ fl → base ≤ b.1) (Hbp : base < bp).
Hypothesis (Hp : bend (p, np) ≤ bp) (Hne : p ≠ bp) (Hl2 : match l2 with d :: _ => bp < d.1 | [] => True end).

Lemma free_find_at : free_find bp p (w, h) = URet (inr p) (w, h).
Proof using All.
  unfold free_find, ubind, hget. rewrite (linked_at HL l1 p np l2 E).
  assert (p < bp) as Hlt.
  { unfold bend, HDR in Hp. cbn in Hp. specialize (HN (p, np) ltac:(rewrite E; set_solver)). cbn in HN. lia. }
  destruct (Z.gtb_spec bp p); [|lia]. cbn [andb orb]. destruct l2 as [|d l]; cbn.
  - destruct (Z.ltb_spec bp base); [done|]. destruct (Z.geb_spec p base); [done|].
    specialize (HA (p, np) ltac:(rewrite E; set_solver)). cbn in HA. lia.
  - by destruct (Z.ltb_spec bp d.1); [|lia].
Qed.

(** From a block before the place, to the place. *)
Lemma walk_before m seg :
  l1 = m ++ seg → urun_n (S (length seg)) (free_find bp) (hd p seg.*1) (w, h) = URet (inr p) (w, h).
Proof using All.
  revert m. induction seg as [|[a n] seg IH]; intros m Em.
  - apply urun_n_stop, free_find_at.
  - assert (fl = m ++ (a, n) :: seg ++ (p, np) :: l2) as Ef by (by rewrite E, Em, <- app_assoc).
    cbn [length hd fmap list_fmap fst].
    rewrite (urun_n_next _ _ _ _ (hd p seg.*1) (w, h)); [by apply (IH (m ++ [(a, n)])); rewrite <- app_assoc|].
    unfold free_find, ubind, hget. rewrite (linked_at HL m a n _ Ef).
    assert (hd base (seg ++ (p, np) :: l2).*1 = hd p seg.*1) as -> by by destruct seg.
    assert (a < hd p seg.*1 ≤ p) as Hx.
    { destruct seg as [|c seg]; cbn.
      - destruct (ordered_at HO HN m (a, n) _ (p, np) Ef ltac:(set_solver)). cbn in *. lia.
      - destruct (ordered_at HO HN m (a, n) _ c Ef ltac:(set_solver)). cbn in *.
        destruct (ordered_at HO HN (m ++ [(a, n)]) c (seg ++ (p, np) :: l2) (p, np)); [by rewrite Ef, <- app_assoc|set_solver|].
        cbn in *. lia. }
    assert (p < bp).
    { unfold bend, HDR in Hp. cbn in Hp. specialize (HN (p, np) ltac:(rewrite E; set_solver)). cbn in HN. lia. }
    destruct (Z.ltb_spec bp (hd p seg.*1)); [lia|]. rewrite andb_false_r.
    by destruct (Z.geb_spec a (hd p seg.*1)); [lia|].
Qed.

(** From a block after it, over [base]. *)
Lemma walk_after m seg :
  l2 = m ++ seg → seg ≠ [] →
  urun_n (length seg + S (length l1)) (free_find bp) (hd base seg.*1) (w, h) = URet (inr p) (w, h).
Proof using All.
  revert m. induction seg as [|[a n] seg IH]; intros m Em Hseg; [done|].
  assert (fl = (l1 ++ (p, np) :: m) ++ (a, n) :: seg) as Ef by (by rewrite E, Em, <- app_assoc).
  assert (bp < a) as Hlt.
  { destruct m as [|d m]; rewrite Em in Hl2; cbn in Hl2; [done|].
    destruct (ordered_at HO HN (l1 ++ [(p, np)]) d (m ++ (a, n) :: seg) (a, n)); [by rewrite Ef, <- !app_assoc|set_solver|].
    cbn in *. lia. }
  cbn [length Nat.add hd fmap list_fmap fst].
  rewrite (urun_n_next _ _ _ _ (hd base seg.*1) (w, h)).
  - destruct seg as [|c seg]; [|by apply (IH (m ++ [(a, n)])); [rewrite <- app_assoc|done]].
    cbn [length Nat.add hd fmap list_fmap]. replace base with (hd p l1.*1); [by apply (walk_before [] l1)|].
    destruct Hbase as [rest Er]. rewrite E in Er. by destruct l1 as [|c l]; injection Er as -> _.
  - unfold free_find, ubind, hget. rewrite (linked_at HL _ a n _ Ef).
    destruct (Z.gtb_spec bp a); [lia|]. cbn [andb orb]. destruct seg as [|c seg]; cbn.
    + destruct (Z.ltb_spec bp base); [lia|]. by rewrite andb_false_r.
    + destruct (ordered_at HO HN _ (a, n) _ c Ef ltac:(set_solver)). cbn in *.
      by destruct (Z.geb_spec a c.1); [lia|].
Qed.

Lemma free_find_loop start :
  start ∈ fl.*1 → Z.of_nat (length fl) < 2 ^ 63 → uloop (free_find bp) start (w, h) = URet p (w, h).
Proof using All.
  intros Hs Hlen. rewrite E, fmap_app in Hs. rewrite E, length_app in Hlen. cbn [length] in Hlen.
  apply elem_of_app in Hs as [Hs|Hs].
  - apply list_elem_of_fmap in Hs as ((a & n) & -> & Hin). apply list_elem_of_split in Hin as (m & seg & Em).
    apply (uloop_URet _ (S (length ((a, n) :: seg)))); [rewrite Em, length_app in Hlen; cbn in *; lia|].
    by apply (walk_before m ((a, n) :: seg)).
  - cbn in Hs. apply elem_of_cons in Hs as [->|Hs].
    + apply (uloop_URet _ 1); [lia|]. apply urun_n_stop, free_find_at.
    + apply list_elem_of_fmap in Hs as ((a & n) & -> & Hin). apply list_elem_of_split in Hin as (m & seg & Em).
      apply (uloop_URet _ (length ((a, n) :: seg) + S (length l1)));
        [rewrite Em, length_app in Hlen; cbn in *; lia|].
      by apply (walk_after m ((a, n) :: seg)).
Qed.

End walk.

Lemma ordered_length l lo hi :
  ordered l → (∀ b, b ∈ l → 0 ≤ b.2 ∧ lo ≤ b.1 ∧ bend b ≤ hi) → Z.of_nat (length l) ≤ Z.max 0 (hi - lo + 1).
Proof.
  revert lo. induction l as [|b l IH]; intros lo Ho Hb; cbn; [lia|].
  destruct (Hb b ltac:(by left)) as (Hn & Hl & Hh).
  assert (∀ c, c ∈ l → 0 ≤ c.2 ∧ lo + 1 ≤ c.1 ∧ bend c ≤ hi) as Hc.
  { intros c Hc. destruct (Hb c ltac:(by right)) as (Hcn & _ & Hch). split; [done|]. split; [|done].
    assert (bend b < c.1); [|hlia].
    eapply ordered_lt; [|done|done]. intros d Hd. by apply Hb. }
  destruct Ho as [_ Ho]. specialize (IH (lo + 1) Ho Hc). hlia.
Qed.

Lemma ok_length hi h fl al : heap_ok hi h fl al → Z.of_nat (length fl) < 2 ^ 35.
Proof.
  intros K. destruct (ok_base _ _ _ _ K) as [rest E]. rewrite E. cbn [length].
  pose proof (ok_ordered _ _ _ _ K) as Ho. rewrite E in Ho. destruct Ho as [_ Ho].
  pose proof (ordered_length rest 0 hi Ho) as Hl. pose proof (ok_hi _ _ _ _ K).
  assert (Z.of_nat (length rest) ≤ Z.max 0 (hi - 0 + 1)); [apply Hl|lia].
  intros b Hb. pose proof (ok_low _ _ _ _ K).
  destruct (ok_range _ _ _ _ K b) as (? & ? & ?); [rewrite E; cbn; set_solver|]. hlia.
Qed.

(** ** Joining a block with its neighbours *)

Lemma hdr_set p f h x : hdr x (set_hdr p f h) = if decide (p = x) then f (hdr p h) else hdr x h.
Proof. unfold hdr, set_hdr. cbn. rewrite lookup_total_insert. by case_decide. Qed.

(** What [bp] and [p] become. *)
Definition join_up (bp p : Z) (h : uheap) : header :=
  let nx := h_ptr (hdr p h) in
  let b := hdr bp h in
  if bp + HDR * h_size b =? nx then mk_header (h_ptr (hdr nx h)) (u32 (h_size b + h_size (hdr nx h)))
  else mk_header nx (h_size b).

Definition join_down (bp p : Z) (h : uheap) : header :=
  let b := join_up bp p h in
  if p + HDR * h_size (hdr p h) =? bp then mk_header (h_ptr b) (u32 (h_size (hdr p h) + h_size b))
  else mk_header bp (h_size (hdr p h)).

Lemma free_link_hdr bp p h x :
  bp ≠ p → h_ptr (hdr p h) ≠ bp →
  hdr x (free_link bp p h) =
    if decide (x = p) then join_down bp p h else if decide (x = bp) then join_up bp p h else hdr x h.
Proof.
  intros Hne Hnx. unfold free_link, join_down, join_up. cbv zeta. set (nx := h_ptr (hdr p h)) in *.
  change (hdr x (set_freep p ?y)) with (hdr x y).
  destruct (bp + HDR * h_size (hdr bp h) =? nx);
    rewrite !hdr_set; repeat (rewrite ?(decide_False (P := bp = nx)), ?(decide_False (P := bp = p)),
      ?(decide_True (P := bp = bp)) by done).
  - destruct (p + HDR * h_size (hdr p h) =? bp); rewrite !hdr_set; repeat case_decide; subst; try done.
  - destruct (p + HDR * h_size (hdr p h) =? bp); rewrite !hdr_set; repeat case_decide; subst; try done.
Qed.

(** The block [bp] between [p] and [l2], in the heap [h]. *)
Record placed (hi : Z) (h : uheap) (l1 : list block) (p np : Z) (l2 : list block) (bp n : Z) (al : list block) : Prop := {
  pl_ok : heap_ok hi h (l1 ++ (p, np) :: l2) ((bp, n) :: al);
  pl_before : bend (p, np) ≤ bp;
  pl_lt : p < bp;
  pl_after : match l2 with d :: _ => bend (bp, n) ≤ d.1 | [] => True end
}.

Lemma ok_placed hi h fl bp n al :
  heap_ok hi h fl ((bp, n) :: al) →
  ∃ l1 p np l2, fl = l1 ++ (p, np) :: l2 ∧ placed hi h l1 p np l2 bp n al.
Proof.
  intros K. destruct (ok_place _ _ _ _ _ _ K) as (l1 & [p np] & l2 & E & Hp & Hl2).
  exists l1, p, np, l2. split; [done|]. rewrite E in K. split; [done|done| |done].
  destruct (ok_base _ _ _ _ K) as [rest Er].
  destruct (ok_range _ _ _ _ K (bp, n)) as (Hb & _); [set_solver|]. cbn in Hb.
  destruct l1 as [|c l1]; cbn in Er.
  - injection Er as -> -> _. hlia.
  - injection Er as -> _. destruct (ok_range _ _ _ _ K (p, np)) as (_ & Hn & _); [cbn; set_solver|].
    hlia.
Qed.

Section placed.
Context {hi : Z} {h : uheap} {l1 l2 al : list block} {p np bp n : Z} (P : placed hi h l1 p np l2 bp n al).

Lemma placed_hdr_p : hdr p h = mk_header (hd base l2.*1) np.
Proof using P. pose proof (ok_linked _ _ _ _ (pl_ok _ _ _ _ _ _ _ _ _ P)) as L. by apply linked_app in L as [_ [L _]]. Qed.

Lemma placed_size : h_size (hdr bp h) = n ∧ 1 ≤ n ∧ bend (bp, n) ≤ hi ∧ base < bp.
Proof using P.
  pose proof (pl_ok _ _ _ _ _ _ _ _ _ P) as K. split; [apply (ok_sizes _ _ _ _ K (bp, n)); by left|].
  destruct (ok_range _ _ _ _ K (bp, n)) as (Hb & Hn & Hh); [set_solver|]. cbn in *. hlia.
Qed.

(** The addresses in the free list. *)
Lemma placed_l1 c : c ∈ l1 → c.1 < p.
Proof using P.
  intros Hc. pose proof (pl_ok _ _ _ _ _ _ _ _ _ P) as K. apply list_elem_of_split in Hc as (m & m' & ->).
  destruct (ordered_at (ok_ordered _ _ _ _ K) (λ b, ok_size K b) m c (m' ++ (p, np) :: l2) (p, np));
    [by rewrite <- app_assoc|set_solver|]. cbn in *. lia.
Qed.

Lemma placed_l2 c : c ∈ l2 → bend (bp, n) ≤ c.1.
Proof using P.
  intros Hc. pose proof (pl_ok _ _ _ _ _ _ _ _ _ P) as K. pose proof (pl_after _ _ _ _ _ _ _ _ _ P) as Ha.
  destruct l2 as [|d l]; [by apply elem_of_nil in Hc|]. apply elem_of_cons in Hc as [->|Hc]; [done|].
  destruct (ordered_at (ok_ordered _ _ _ _ K) (λ b, ok_size K b) (l1 ++ [(p, np)]) d l c);
    [by rewrite <- app_assoc|done|]. lia.
Qed.

Lemma placed_al c : c ∈ al → c.1 ≠ bp ∧ c.1 ≠ p.
Proof using P.
  intros Hc. pose proof (pl_ok _ _ _ _ _ _ _ _ _ P) as K. pose proof (pl_lt _ _ _ _ _ _ _ _ _ P) as Hlt.
  destruct (ok_range _ _ _ _ K c) as (Hb & Hn & _); [set_solver|]. destruct placed_size as (_ & Hn' & _ & Hbp). split.
  - intros E. pose proof (ok_apart _ _ _ _ K bp) as Hx. pose proof (cnt_elem _ _ bp Hc) as Hcc.
    pose proof (cnt_nonneg (l1 ++ (p, np) :: l2) bp). cbn [cnt] in Hx.
    assert (cov c bp = 1 ∧ cov (bp, n) bp = 1) as [? ?]; [|lia].
    unfold cov, bend, HDR. cbn [fst snd]. rewrite !decide_True by lia. done.
  - intros E. destruct (ok_base _ _ _ _ K) as [rest Er]. destruct l1 as [|d l].
    + injection Er as -> _. hlia.
    + destruct (ok_alloc_free K (p, np) c) as [Ha|Ha]; [cbn; set_solver|by right| |].
      * destruct (ok_range _ _ _ _ K (p, np)) as (_ & ? & _); [cbn; set_solver|]. hlia.
      * hlia.
Qed.

(** Joining with the block above. *)
Lemma join_up_ok :
  ∃ n' l2', join_up bp p h = mk_header (hd base l2'.*1) n' ∧ n ≤ n' ∧ bend (bp, n') ≤ hi ∧
    linked h l2' base ∧ ordered ((bp, n') :: l2') ∧ (∀ b, b ∈ l2' → b ∈ l2) ∧
    ∀ x, cnt l2' x + cov (bp, n') x = cnt l2 x + cov (bp, n) x.
Proof using P.
  pose proof (pl_ok _ _ _ _ _ _ _ _ _ P) as K. destruct placed_size as (Hs & Hn & Hh & Hb).
  pose proof (ok_linked _ _ _ _ K) as L. apply linked_app in L as [_ [_ L2]].
  pose proof (ok_ordered _ _ _ _ K) as O. apply ordered_app in O as [_ [_ O2]].
  pose proof (pl_after _ _ _ _ _ _ _ _ _ P) as Ha. pose proof (ok_hi _ _ _ _ K). pose proof (ok_low _ _ _ _ K).
  unfold join_up. cbv zeta. rewrite placed_hdr_p, Hs. cbn [h_ptr].
  destruct (Z.eqb_spec (bp + HDR * n) (hd base l2.*1)) as [E|E].
  - destruct l2 as [|[b m] l3]; cbn in E; [hlia|]. destruct L2 as [Lb L3]. destruct O2 as [Ob O3].
    exists (n + m), l3. cbn [hd fmap list_fmap fst]. rewrite Lb. cbn [h_ptr h_size].
    destruct (ok_range _ _ _ _ K (b, m)) as (_ & Hm & Hbm).
    { apply elem_of_app. left. destruct (ok_base _ _ _ _ K) as [rest Er]. destruct l1; cbn; set_solver. }
    unfold bend, HDR in *. cbn [fst snd] in *. rewrite u32_small by lia.
    split; [done|]. split; [lia|]. split; [lia|]. split; [done|]. split; [|split; [set_solver|]].
    + split; [|done]. destruct l3; [done|]. hlia.
    + intros x. unfold cov, bend, HDR. cbn [cnt fst snd]. unfold cov, bend, HDR. cbn [fst snd]. repeat case_decide; lia.
  - exists n, l2. split; [done|]. split; [lia|]. split; [done|]. split; [done|]. split; [|done]. split; [|done].
    destruct l2 as [|d l]; [done|]. unfold bend in *. cbn [fst snd hd fmap list_fmap] in *. lia.
Qed.

(** Headers away from [p] and [bp] are kept. *)
Lemma free_link_kept (c : block) : c.1 ≠ p → c.1 ≠ bp → hdr c.1 (free_link bp p h) = hdr c.1 h.
Proof using P.
  intros Hp Hb. pose proof (pl_lt _ _ _ _ _ _ _ _ _ P). destruct placed_size as (_ & Hn & _ & Hbase).
  rewrite free_link_hdr; [by rewrite !decide_False by done|lia|].
  rewrite placed_hdr_p. cbn [h_ptr]. pose proof (pl_after _ _ _ _ _ _ _ _ _ P) as Ha.
  destruct l2 as [|d l]; cbn [hd fmap list_fmap]; hlia.
Qed.

Lemma free_link_p_bp :
  hdr p (free_link bp p h) = join_down bp p h ∧ hdr bp (free_link bp p h) = join_up bp p h.
Proof using P.
  pose proof (pl_lt _ _ _ _ _ _ _ _ _ P). destruct placed_size as (_ & Hn & _ & Hbase).
  assert (h_ptr (hdr p h) ≠ bp) as Hnx.
  { rewrite placed_hdr_p. cbn [h_ptr]. pose proof (pl_after _ _ _ _ _ _ _ _ _ P) as Ha.
    destruct l2 as [|d l]; cbn [hd fmap list_fmap]; hlia. }
  rewrite !free_link_hdr by lia. rewrite decide_True by done. split; [done|].
  rewrite decide_False by lia. by rewrite decide_True.
Qed.

(** The pieces of the new free list: the blocks before [p], the block at [bp]
    with its new size, and the blocks after it. *)
Record pieces_ok (n' : Z) (l2' : list block) : Prop := {
  pc_size : n ≤ n';
  pc_hi : bend (bp, n') ≤ hi;
  pc_up : join_up bp p h = mk_header (hd base l2'.*1) n';
  pc_l1 : linked (free_link bp p h) l1 p;
  pc_l2 : linked (free_link bp p h) l2' base;
  pc_o1 : ordered (l1 ++ [(p, np)]);
  pc_o2 : ordered ((bp, n') :: l2');
  pc_al : ∀ b, b ∈ al → base + HDR ≤ b.1 ∧ 1 ≤ b.2 ∧ bend b ≤ hi;
  pc_r2 : ∀ b, b ∈ l2' → base + HDR ≤ b.1 ∧ 1 ≤ b.2 ∧ bend b ≤ hi;
  pc_apart : ∀ x, cnt l1 x + cov (p, np) x + cnt l2' x + cov (bp, n') x + cnt al x ≤ 1;
  pc_cnt : ∀ x, cnt l2' x + cov (bp, n') x = cnt l2 x + cov (bp, n) x;
  pc_sizes : ∀ b, b ∈ al → h_size (hdr b.1 (free_link bp p h)) = b.2
}.

Lemma free_pieces : ∃ n' l2', pieces_ok n' l2'.
Proof using P.
  pose proof (pl_ok _ _ _ _ _ _ _ _ _ P) as K. pose proof (pl_lt _ _ _ _ _ _ _ _ _ P) as Hlt.
  destruct join_up_ok as (n' & l2' & Hup & Hnn & Hhi & L2 & O2 & Hsub & Hcnt).
  pose proof (ok_linked _ _ _ _ K) as L. apply linked_app in L as [L1 _].
  pose proof (ok_ordered _ _ _ _ K) as O. apply ordered_app in O as [O1 _].
  pose proof (ok_range _ _ _ _ K) as Hr. destruct placed_size as (_ & Hn & _ & _).
  exists n', l2'. split; try done.
  - eapply linked_ext; [|exact L1]. intros b Hb. apply placed_l1 in Hb. apply free_link_kept; lia.
  - eapply linked_ext; [|exact L2]. intros b Hb. apply Hsub, placed_l2 in Hb. apply free_link_kept; hlia.
  - intros b Hb. apply Hr. set_solver.
  - intros b Hb%Hsub. apply Hr, elem_of_app. left. destruct l1; cbn; set_solver.
  - intros x. pose proof (ok_apart _ _ _ _ K x) as Hx. rewrite cnt_app in Hx. cbn [cnt] in Hx.
    specialize (Hcnt x). lia.
  - intros b Hb. destruct (placed_al b Hb). rewrite free_link_kept by done. apply (ok_sizes _ _ _ _ K). by right.
Qed.

(** The free list after [free]. *)
Definition freed_list (fl' : list block) : Prop :=
  heap_ok hi (free_link bp p h) fl' al ∧ (∃ b, b ∈ fl' ∧ n ≤ b.2) ∧
  ∀ x, cnt fl' x = cnt (l1 ++ (p, np) :: l2) x + cov (bp, n) x.

(** The block joins [p] ... *)
Lemma free_joined n' l2' : pieces_ok n' l2' → p + HDR * np = bp → freed_list (l1 ++ (p, np + n') :: l2').
Proof using P.
  intros F E.
  destruct F as [Hnn Hhi Hup L1' L2' O1 O2 Hral Hrl2 Hap Hcnt Hsz].
  pose proof (pl_ok _ _ _ _ _ _ _ _ _ P) as K. pose proof (pl_lt _ _ _ _ _ _ _ _ _ P) as Hlt.
  pose proof (pl_before _ _ _ _ _ _ _ _ _ P) as Hbe. destruct placed_size as (Hs & Hn & Hh & Hbase).
  pose proof (ok_range _ _ _ _ K) as Hr. pose proof (ok_base _ _ _ _ K) as [rest Er].
  pose proof (ok_low _ _ _ _ K) as Hlow. pose proof (ok_hi _ _ _ _ K) as Hhigh. pose proof (ok_top _ _ _ _ K) as Htop.
  destruct free_link_p_bp as [Ep Eb]. unfold join_down in Ep. rewrite Hup in Ep, Eb.
  rewrite placed_hdr_p in Ep. cbn [h_size h_ptr] in Ep.
  rewrite (proj2 (Z.eqb_eq _ _) E) in Ep.
  assert (l1 ≠ []) as Hl1 by (intros ->; injection Er as -> -> _; hlia).
  assert (1 ≤ np ∧ base + HDR ≤ p) as [Hnp Hpb].
  { destruct (Hr (p, np)) as (? & ? & _); [|done]. destruct l1; [done|]. cbn. set_solver. }
  rewrite u32_small in Ep by hlia. split; [split|split].
  - destruct l1 as [|c l]; [done|]. injection Er as -> _. by eexists.
  - apply linked_app. split; [done|]. by split.
  - apply ordered_app. split; [by apply (ordered_last l1 p np)|]. destruct O2 as [O2 O2']. split; [|done].
    destruct l2'; [done|]. hlia.
  - rewrite fmap_app. cbn. set_solver.
  - intros b Hb. destruct l1 as [|c l]; [done|]. cbn [tail app] in *.
    rewrite !elem_of_app, elem_of_cons in Hb. destruct Hb as [[Hb|[->|Hb]]|Hb].
    + apply Hr. set_solver.
    + split; [done|]. hlia.
    + by apply Hrl2.
    + by apply Hral.
  - intros x. specialize (Hap x). rewrite cnt_app. cbn [cnt]. unfold cov, bend, HDR in *. cbn [fst snd] in *.
    repeat case_decide; lia.
  - done.
  - done.
  - done.
  - done.
  - exists (p, np + n'). split; [set_solver|]. cbn. lia.
  - intros x. specialize (Hcnt x). rewrite !cnt_app. cbn [cnt]. unfold cov, bend, HDR in *. cbn [fst snd] in *.
    repeat case_decide; lia.
Qed.

(** ... or follows it. *)
Lemma free_linked n' l2' : pieces_ok n' l2' → p + HDR * np ≠ bp → freed_list (l1 ++ (p, np) :: (bp, n') :: l2').
Proof using P.
  intros F E.
  destruct F as [Hnn Hhi Hup L1' L2' O1 O2 Hral Hrl2 Hap Hcnt Hsz].
  pose proof (pl_ok _ _ _ _ _ _ _ _ _ P) as K. pose proof (pl_lt _ _ _ _ _ _ _ _ _ P) as Hlt.
  pose proof (pl_before _ _ _ _ _ _ _ _ _ P) as Hbe. destruct placed_size as (Hs & Hn & Hh & Hbase).
  pose proof (ok_range _ _ _ _ K) as Hr. pose proof (ok_base _ _ _ _ K) as [rest Er].
  pose proof (ok_low _ _ _ _ K) as Hlow. pose proof (ok_hi _ _ _ _ K) as Hhigh. pose proof (ok_top _ _ _ _ K) as Htop.
  destruct free_link_p_bp as [Ep Eb]. unfold join_down in Ep. rewrite Hup in Ep, Eb.
  rewrite placed_hdr_p in Ep. cbn [h_size h_ptr] in Ep.
  rewrite (proj2 (Z.eqb_neq _ _) E) in Ep.
  split; [split|split].
  - destruct l1 as [|c l]; cbn in *; [injection Er as -> -> _; by eexists|]. injection Er as -> _. by eexists.
  - apply linked_app. split; [done|]. split; [done|]. by split.
  - apply ordered_app. split; [done|]. split; [hlia|done].
  - rewrite fmap_app. cbn. set_solver.
  - intros b Hb. assert (b ∈ tail (l1 ++ (p, np) :: l2) ∨ b = (bp, n') ∨ b ∈ l2' ∨ b ∈ al) as [Hb'|[->|[Hb'|Hb']]].
    { destruct l1 as [|c l]; cbn in *; set_solver. }
    + apply Hr. set_solver.
    + destruct (Hr (bp, n)) as (? & ? & ?); [set_solver|]. hlia.
    + by apply Hrl2.
    + by apply Hral.
  - intros x. specialize (Hap x). rewrite cnt_app. cbn [cnt]. lia.
  - done.
  - done.
  - done.
  - done.
  - exists (bp, n'). split; [set_solver|]. cbn. lia.
  - intros x. specialize (Hcnt x). rewrite !cnt_app. cbn [cnt]. lia.
Qed.

Lemma free_link_ok : ∃ fl', freed_list fl'.
Proof using P.
  destruct free_pieces as (n' & l2' & F). destruct (decide (p + HDR * np = bp)) as [E|E].
  - eexists. by apply free_joined.
  - eexists. by apply free_linked.
Qed.

End placed.

Lemma free_runs {W} `{UserOS W} hi (w : W) h fl bp n al :
  heap_ok hi h fl ((bp, n) :: al) →
  ∃ h' fl', free (bp + HDR) (w, h) = URet tt (w, h') ∧ heap_ok hi h' fl' al ∧
    (∃ b, b ∈ fl' ∧ n ≤ b.2) ∧ ∀ x, cnt fl' x = cnt fl x + cov (bp, n) x.
Proof.
  intros K. destruct (ok_placed _ _ _ _ _ _ K) as (l1 & p & np & l2 & E & P).
  destruct (free_link_ok P) as (fl' & K' & Hb & Hc). rewrite <- E in Hc.
  exists (free_link bp p h), fl'. split; [|done]. unfold free. replace (bp + HDR - HDR) with bp by lia.
  rewrite (ubind_URet _ _ _ (freep h) (w, h)) by done.
  rewrite (ubind_URet _ _ _ p (w, h)); [done|]. destruct (placed_size P) as (_ & Hn & _ & Hbase).
  apply (free_find_loop w E).
  - apply K.
  - apply K.
  - apply K.
  - apply (ok_size K).
  - apply (ok_addr K).
  - done.
  - apply P.
  - pose proof (pl_lt _ _ _ _ _ _ _ _ _ P). lia.
  - pose proof (pl_after _ _ _ _ _ _ _ _ _ P) as Ha. destruct l2; [done|]. hlia.
  - apply K.
  - pose proof (ok_length _ _ _ _ K). lia.
Qed.

(** ** Taking a block *)

Section take.
Context {hi : Z} {h : uheap} {fl al m1 m2 : list block} {q nq p np : Z} (K : heap_ok hi h fl al).
Hypothesis (E : fl = m1 ++ (q, nq) :: (p, np) :: m2).

Lemma take_before c : c ∈ m1 → c.1 < q.
Proof using K E.
  intros Hc. apply list_elem_of_split in Hc as (a & b & Em).
  destruct (ordered_at (ok_ordered _ _ _ _ K) (λ b, ok_size K b) a c (b ++ (q, nq) :: (p, np) :: m2) (q, nq));
    [by rewrite E, Em, <- app_assoc|set_solver|]. hlia.
Qed.

Lemma take_next : q ≤ bend (q, nq) < p.
Proof using K E.
  apply (ordered_at (ok_ordered _ _ _ _ K) (λ b, ok_size K b) m1 (q, nq) _ (p, np) E). set_solver.
Qed.

Lemma take_after c : c ∈ m2 → p ≤ bend (p, np) < c.1.
Proof using K E.
  intros Hc. apply (ordered_at (ok_ordered _ _ _ _ K) (λ b, ok_size K b) (m1 ++ [(q, nq)]) (p, np) m2 c); [|done].
  by rewrite E, <- app_assoc.
Qed.

Lemma take_range b : b ∈ (p, np) :: m2 ++ al → base + HDR ≤ b.1 ∧ 1 ≤ b.2 ∧ bend b ≤ hi.
Proof using K E.
  intros Hb. apply (ok_range _ _ _ _ K). rewrite E. destruct m1; cbn; set_solver.
Qed.

(** No allocated block starts at a header of the list or inside [p]. *)
Lemma take_al c : c ∈ al → c.1 ≠ q ∧ ¬ (p ≤ c.1 < bend (p, np)).
Proof using K E.
  intros Hc. destruct (take_range c) as (Hb & Hn & _); [set_solver|].
  assert ((p, np) ∈ tail fl) as Hp by (rewrite E; destruct m1; cbn; set_solver).
  split.
  - intros Eq. destruct (ok_base _ _ _ _ K) as [rest Er]. rewrite E in Er. destruct m1 as [|d l].
    + injection Er as -> _. hlia.
    + destruct (ok_alloc_free K (q, nq) c) as [Ha|Ha]; [rewrite E; cbn; set_solver|done| |].
      * destruct (ok_range _ _ _ _ K (q, nq)) as (_ & ? & _); [rewrite E; cbn; set_solver|]. hlia.
      * hlia.
  - destruct (ok_alloc_free K (p, np) c Hp Hc) as [Ha|Ha]; hlia.
Qed.

Lemma take_linked :
  linked h m1 q ∧ hdr q h = mk_header p nq ∧ hdr p h = mk_header (hd base m2.*1) np ∧ linked h m2 base.
Proof using K E.
  pose proof (ok_linked _ _ _ _ K) as L. rewrite E in L. apply linked_app in L as [L1 (Lq & Lp & L2)]. done.
Qed.

Lemma take_ordered : ordered (m1 ++ [(q, nq)]) ∧ ordered ((p, np) :: m2).
Proof using K E.
  pose proof (ok_ordered _ _ _ _ K) as O. rewrite E in O. apply ordered_app in O as [O1 [_ O2]]. done.
Qed.

(** The whole block. *)
Lemma take_all :
  let h' := set_freep q (set_hdr q (set_ptr (hd base m2.*1)) h) in
  heap_ok hi h' (m1 ++ (q, nq) :: m2) ((p, np) :: al).
Proof using K E.
  intros h'. destruct take_linked as (L1 & Lq & Lp & L2). destruct take_ordered as [O1 [Op O2]].
  pose proof take_next as Hqp. pose proof take_after as Ta.
  assert (∀ x, x ≠ q → hdr x h' = hdr x h) as Hh.
  { intros x Hx. change (hdr x h') with (hdr x (set_hdr q (set_ptr (hd base m2.*1)) h)). rewrite hdr_set.
    by rewrite decide_False by done. }
  split.
  - destruct (ok_base _ _ _ _ K) as [rest Er]. rewrite E in Er. destruct m1; cbn in Er; simplify_eq; by eexists.
  - apply linked_app. split; [|split].
    + eapply linked_ext; [|exact L1]. intros b Hb%take_before. apply Hh. lia.
    + change (hdr q h') with (hdr q (set_hdr q (set_ptr (hd base m2.*1)) h)). rewrite hdr_set.
      rewrite decide_True by done. rewrite Lq. done.
    + eapply linked_ext; [|exact L2]. intros b Hb%take_after. apply Hh. hlia.
  - apply ordered_app. split; [done|]. split; [|done]. destruct m2 as [|c m]; [done|].
    destruct (Ta c ltac:(by left)). hlia.
  - rewrite fmap_app. cbn. set_solver.
  - intros b Hb. apply (ok_range _ _ _ _ K). rewrite E. destruct m1; cbn in *; set_solver.
  - intros x. pose proof (ok_apart _ _ _ _ K x) as Hx. rewrite E in Hx. rewrite cnt_app in *. cbn [cnt] in *. lia.
  - intros b [->|Hb]%elem_of_cons; cbn [fst snd].
    + rewrite Hh by lia. by rewrite Lp.
    + rewrite Hh by (by apply take_al). by apply (ok_sizes _ _ _ _ K).
  - apply K.
  - apply K.
  - apply K.
Qed.

(** The end of it. *)
Lemma take_part n :
  1 ≤ n < np →
  let a := p + HDR * (np - n) in
  let h' := set_freep q (set_hdr a (set_size n) (set_hdr p (set_size (np - n)) h)) in
  heap_ok hi h' (m1 ++ (q, nq) :: (p, np - n) :: m2) ((a, n) :: al).
Proof using K E.
  intros Hn a h'. destruct take_linked as (L1 & Lq & Lp & L2). destruct take_ordered as [O1 [Op O2]].
  pose proof take_next as Hqp. pose proof take_after as Ta. assert (p < a < bend (p, np)) as Ha by (unfold a; hlia).
  assert (∀ x, hdr x h' = if decide (a = x) then set_size n (hdr a h) else
            if decide (p = x) then mk_header (hd base m2.*1) (np - n) else hdr x h) as Hh.
  { intros x. change (hdr x h') with (hdr x (set_hdr a (set_size n) (set_hdr p (set_size (np - n)) h))).
    rewrite !hdr_set. rewrite (decide_False (P := p = a)) by lia. by rewrite Lp. }
  assert (∀ x, x < p ∨ bend (p, np) ≤ x → hdr x h' = hdr x h) as Hk.
  { intros x Hx. rewrite Hh, !decide_False by lia. done. }
  destruct (take_range (p, np)) as (Hpb & _ & Hph); [by left|]. split.
  - destruct (ok_base _ _ _ _ K) as [rest Er]. rewrite E in Er. destruct m1; cbn in Er; simplify_eq; by eexists.
  - apply linked_app. split; [|split; [|split]].
    + eapply linked_ext; [|exact L1]. intros b Hb%take_before. apply Hk. lia.
    + cbn [hd fmap list_fmap fst]. rewrite Hk by lia. done.
    + rewrite Hh. rewrite decide_False by lia. by rewrite decide_True.
    + eapply linked_ext; [|exact L2]. intros b Hb%take_after. apply Hk. lia.
  - apply ordered_app. split; [done|]. split; [hlia|]. split; [|done]. destruct m2 as [|c m]; [done|].
    destruct (Ta c ltac:(by left)). hlia.
  - rewrite fmap_app. cbn. set_solver.
  - intros b Hb. assert (b = (p, np - n) ∨ b = (a, n) ∨ b ∈ tail fl ++ al) as [->|[->|Hb']].
    { rewrite E. destruct m1; cbn in *; set_solver. }
    + hlia.
    + unfold a in *. hlia.
    + by apply (ok_range _ _ _ _ K).
  - intros x. pose proof (ok_apart _ _ _ _ K x) as Hx. rewrite E in Hx. rewrite cnt_app in *. cbn [cnt] in *.
    assert (cov (p, np - n) x + cov (a, n) x = cov (p, np) x) as Hc; [|lia].
    unfold cov, bend, a, HDR. cbn [fst snd]. repeat case_decide; lia.
  - intros b [->|Hb]%elem_of_cons; cbn [fst snd].
    + rewrite Hh. by rewrite decide_True.
    + destruct (take_al b Hb) as [_ Hb2]. rewrite Hk by lia. by apply (ok_sizes _ _ _ _ K).
  - apply K.
  - apply K.
  - apply K.
Qed.

End take.

(** ** The walk of malloc *)

Section malloc.
Context {W : Type} `{UserOS W}.
Context {hi : Z} {h : uheap} {fl al : list block} (K : heap_ok hi h fl al) (w : W) (n : Z) (Hn : 1 ≤ n).

Lemma malloc_hit m1 q nq p np m2 :
  fl = m1 ++ (q, nq) :: (p, np) :: m2 → n ≤ np →
  ∃ a h' fl', malloc_step n (q, p) (w, h) = URet (inr (a + HDR)) (w, h') ∧ heap_ok hi h' fl' ((a, n) :: al).
Proof using K Hn.
  intros E Hnp. destruct (take_linked K E) as (_ & _ & Lp & _). unfold malloc_step.
  rewrite (ubind_URet _ _ _ np (w, h)) by (unfold hget; by rewrite Lp).
  destruct (Z.geb_spec np n); [|lia]. destruct (Z.eqb_spec np n) as [->|Hne].
  - exists p. eexists _, _. split; [|exact (take_all K E)]. unfold ubind, hmod, uret. by rewrite Lp.
  - exists (p + HDR * (np - n)). eexists _, _. split; [|exact (take_part K E n ltac:(lia))]. done.
Qed.

Lemma malloc_skip q p np m m' :
  fl = m ++ (p, np) :: m' → np < n → p ≠ freep h →
  malloc_step n (q, p) (w, h) = URet (inl (p, hd base m'.*1)) (w, h).
Proof using K.
  intros E Hnp Hp. pose proof (ok_linked _ _ _ _ K) as L. rewrite E in L. apply linked_app in L as [_ [Lp _]].
  unfold malloc_step. rewrite (ubind_URet _ _ _ np (w, h)) by (unfold hget; by rewrite Lp).
  destruct (Z.geb_spec np n); [lia|]. rewrite (ubind_URet _ _ _ (freep h) (w, h)) by done.
  rewrite (proj2 (Z.eqb_neq _ _) Hp). unfold malloc_next, ubind, hget. by rewrite Lp.
Qed.

(** The turns lead to a block that is taken. *)
Definition found (k : nat) (st : Z * Z) : Prop :=
  ∃ a h' fl', urun_n k (malloc_step n) st (w, h) = URet (inr (a + HDR)) (w, h') ∧
    heap_ok hi h' fl' ((a, n) :: al).

Lemma found_next k st st' : malloc_step n st (w, h) = URet (inl st') (w, h) → found k st' → found (S k) st.
Proof. intros E (a & h' & fl' & Er & K'). exists a, h', fl'. by rewrite (urun_n_next _ _ _ _ _ _ E). Qed.

Lemma malloc_walk m1 q nq seg m2 :
  fl = m1 ++ (q, nq) :: seg ++ m2 → freep h ∉ seg.*1 →
  (∃ k, (k ≤ length seg)%nat ∧ found k (q, hd base (seg ++ m2).*1)) ∨
  ((∀ b, b ∈ seg → b.2 < n) ∧ ∃ m q' nq', (q, nq) :: seg = m ++ [(q', nq')] ∧
    urun_n (length seg) (malloc_step n) (q, hd base (seg ++ m2).*1) (w, h) = URet (inl (q', hd base m2.*1)) (w, h)).
Proof using K Hn.
  revert m1 q nq. induction seg as [|[p np] seg IH]; intros m1 q nq E Hf.
  - right. split; [intros b Hb; by apply elem_of_nil in Hb|]. by exists [], q, nq.
  - cbn in Hf. apply not_elem_of_cons in Hf as [Hp Hf]. destruct (decide (n ≤ np)) as [Hle|Hgt].
    + left. exists 1%nat. split; [cbn; lia|]. destruct (malloc_hit m1 q nq p np (seg ++ m2) E Hle) as (a & h' & fl' & Es & K').
      exists a, h', fl'. split; [|done]. by apply urun_n_stop.
    + assert (fl = (m1 ++ [(q, nq)]) ++ (p, np) :: seg ++ m2) as E' by (by rewrite E, <- app_assoc).
      pose proof (malloc_skip q p np _ _ E' ltac:(lia) ltac:(done)) as Es.
      destruct (IH _ p np E' Hf) as [(k & Hk & Hfo)|(Hs & m & q' & nq' & Em & Er)].
      * left. exists (S k). split; [cbn; lia|]. by eapply found_next.
      * right. split; [intros b [->|Hb]%elem_of_cons; [cbn; lia|by apply Hs]|].
        exists ((q, nq) :: m), q', nq'. split; [by rewrite Em|]. cbn [length].
        by rewrite (urun_n_next _ _ _ _ _ _ Es).
Qed.

Lemma found_after k1 k2 st st' :
  urun_n k1 (malloc_step n) st (w, h) = URet (inl st') (w, h) → found k2 st' → found (k1 + k2) st.
Proof. intros E (a & h' & fl' & Er & K'). exists a, h', fl'. by rewrite (urun_n_trans _ _ _ _ _ _ _ E). Qed.

(** Once around the list, from the block after [freep] to [freep]. *)
Lemma malloc_round :
  ∃ k, (k ≤ S (S (length fl)))%nat ∧ let st := (freep h, h_ptr (hdr (freep h) h)) in
    (found k st ∨ (∀ b, b ∈ fl → b.2 < n) ∧
       ∃ q, urun_n k (malloc_step n) st (w, h) = URet (inl (q, freep h)) (w, h)).
Proof using K Hn.
  pose proof (ok_freep _ _ _ _ K) as Hf. apply list_elem_of_fmap in Hf as ([f nf] & Ef & Hin). cbn in Ef.
  apply list_elem_of_split in Hin as (l1 & l2 & E). rewrite Ef.
  rewrite (linked_at (ok_linked _ _ _ _ K) l1 f nf l2 E).
  assert (∀ c, c ∈ l1 → c.1 < f) as H1.
  { intros c Hc. apply list_elem_of_split in Hc as (m & m' & ->).
    destruct (ordered_at (ok_ordered _ _ _ _ K) (λ b, ok_size K b) m c (m' ++ (f, nf) :: l2) (f, nf));
      [by rewrite E, <- app_assoc|set_solver|]. cbn in *. lia. }
  assert (∀ c, c ∈ l2 → f < c.1) as H2.
  { intros c Hc. destruct (ordered_at (ok_ordered _ _ _ _ K) (λ b, ok_size K b) l1 (f, nf) l2 c E Hc). cbn in *. lia. }
  assert (length fl = length l1 + S (length l2))%nat as El by (rewrite E, length_app; done).
  destruct (malloc_walk l1 f nf l2 []) as [(k & Hk & Hfo)|(Hs & m & q' & nq' & Em & Er)].
  { by rewrite app_nil_r. }
  { rewrite Ef. intros (c & -> & Hc)%list_elem_of_fmap. specialize (H2 c Hc). lia. }
  { rewrite app_nil_r in Hfo. exists k. split; [lia|]. by left. }
  rewrite app_nil_r in Er. cbn [hd fmap list_fmap] in Er.
  destruct (ok_base _ _ _ _ K) as [rest Eb]. destruct l1 as [|b0 l1].
  { rewrite E in Eb. cbn in Eb. injection Eb as -> -> _. exists (length l2). split; [lia|]. right. split.
    - rewrite E. intros b [->|Hb]%elem_of_cons; [cbn; lia|by apply Hs].
    - by exists q'. }
  assert (b0 = (base, 0)) as -> by (rewrite E in Eb; cbn in Eb; by injection Eb).
  assert (base ≠ freep h) as Hbf by (rewrite Ef; specialize (H1 (base, 0) ltac:(by left)); cbn in H1; lia).
  pose proof (malloc_skip q' base 0 [] (l1 ++ (f, nf) :: l2) E ltac:(lia) Hbf) as Es.
  pose proof (urun_n_trans _ _ 1 _ _ _ _ Er) as Er1. rewrite (urun_n_next _ 0 _ _ _ _ Es) in Er1.
  destruct (malloc_walk [] base 0 l1 ((f, nf) :: l2) E) as [(k & Hk & Hfo)|(Hs' & m' & q2 & nq2 & Em' & Er')].
  { rewrite Ef. intros (c & -> & Hc)%list_elem_of_fmap. specialize (H1 c ltac:(by right)). lia. }
  { exists (length l2 + 1 + k)%nat. split; [cbn in El; lia|]. left. by eapply found_after. }
  pose proof (urun_n_trans _ _ (length l1) _ _ _ _ Er1) as Er2. rewrite Er' in Er2. cbn [hd fmap list_fmap fst] in Er2.
  destruct (decide (n ≤ nf)) as [Hle|Hgt].
  - destruct (malloc_hit m' q2 nq2 f nf l2) as (a & h' & fl' & Eh & K'); [|done|].
    { rewrite E. change (((base, 0) :: l1) ++ (f, nf) :: l2 = m' ++ (q2, nq2) :: (f, nf) :: l2).
      rewrite Em'. by rewrite <- app_assoc. }
    exists (length l2 + 1 + length l1 + 1)%nat. split; [cbn in El; lia|]. left.
    eapply found_after; [exact Er2|]. exists a, h', fl'. split; [|done]. by apply urun_n_stop.
  - exists (length l2 + 1 + length l1)%nat. split; [cbn in El; lia|]. right. split; [|by exists q2].
    rewrite E. intros b Hb. rewrite elem_of_app, !elem_of_cons in Hb.
    destruct Hb as [[->|Hb]|[->|Hb]]; [cbn; lia|by apply Hs'|cbn; lia|by apply Hs].
Qed.

End malloc.

(** ** More memory *)

(** What the allocator asks of [sbrk]: for [n > 0] bytes it moves the end of
    the process's memory up and returns the old one, or fails. *)
Class Sbrk (W : Type) `{UserOS W} : Type := {
  brk : W → Z;
  brk_range : ∀ w, 0 ≤ brk w < 2 ^ 32;
  os_sbrk : ∀ n w, 0 < n → ∃ r bs w', os (Csbrk n) w = Some (mk_reply r bs, w') ∧
    (r = -1 ∧ brk w' = brk w ∨ r = brk w ∧ brk w' = brk w + n)
}.

Lemma cnt_above l hi x : (∀ b, b ∈ l → bend b ≤ hi) → hi ≤ x → cnt l x = 0.
Proof.
  intros Hl Hx. induction l as [|b l IH]; cbn [cnt]; [done|].
  rewrite IH by (intros; apply Hl; by right). specialize (Hl b ltac:(by left)).
  unfold cov. rewrite decide_False; [done|]. lia.
Qed.

(** A new block above the heap. *)
Lemma ok_extend hi h fl al a n :
  heap_ok hi h fl al → hi ≤ a → 1 ≤ n → a + HDR * n < 2 ^ 34 →
  heap_ok (a + HDR * n) (set_hdr a (set_size n) h) fl ((a, n) :: al).
Proof.
  intros K Ha Hn Hlt. pose proof (ok_top _ _ _ _ K) as Ht. pose proof (ok_range _ _ _ _ K) as Hr.
  destruct (ok_base _ _ _ _ K) as [rest E].
  assert (∀ b, b ∈ fl ++ al → b.1 < a ∧ bend b ≤ hi) as Hb.
  { intros b Hb. rewrite E in Hb. cbn in Hb. apply elem_of_cons in Hb as [->|Hb]; [hlia|].
    destruct (Hr b) as (_ & ? & ?); [by rewrite E|]. hlia. }
  assert (∀ b, b ∈ fl ++ al → hdr b.1 (set_hdr a (set_size n) h) = hdr b.1 h) as Hh.
  { intros b Hin. rewrite hdr_set, decide_False; [done|]. destruct (Hb b Hin). lia. }
  split.
  - by exists rest.
  - eapply linked_ext; [|apply K]. intros b Hin. apply Hh. set_solver.
  - apply K.
  - apply K.
  - intros b Hin. assert (b = (a, n) ∨ b ∈ tail fl ++ al) as [->|Hin'] by set_solver.
    + hlia.
    + destruct (Hr b Hin') as (? & ? & ?). hlia.
  - intros x. pose proof (ok_apart _ _ _ _ K x) as Hx. cbn [cnt]. unfold cov. case_decide as Hc; [|lia].
    rewrite (cnt_above fl hi), (cnt_above al hi); [lia|..]; try hlia; intros b Hin; apply Hb; set_solver.
  - intros b [->|Hin]%elem_of_cons.
    + cbn [fst snd]. rewrite hdr_set. by rewrite decide_True.
    + rewrite Hh by set_solver. by apply (ok_sizes _ _ _ _ K).
  - apply K.
  - hlia.
  - done.
Qed.

Section top.
Context {W : Type} `{Sbrk W}.

(** The heap of a program, below the end of its memory. *)
Definition good (w : W) (h : uheap) (fl al : list block) : Prop := ∃ hi, heap_ok hi h fl al ∧ hi ≤ brk w.

(** The units [morecore] asks for. *)
Definition chunk (n : Z) : Z := if n <? 4096 then 4096 else n.

(** [morecore] takes it that the system has given what it was asked for, as a
    number of type [int]: the heap is then in order up to there. *)
Lemma morecore_runs w h fl al hi n :
  heap_ok hi h fl al → hi ≤ brk w → 1 ≤ n → n * HDR < 2 ^ 33 → 0 < s32 (chunk n * HDR) →
  ∃ r0 w', os (Csbrk (s32 (chunk n * HDR))) w = Some (r0, w') ∧
    ((r_val r0 = -1 ∧ brk w' = brk w ∧ morecore n (w, h) = URet 0 (w', h)) ∨
     (r_val r0 = brk w ∧ brk w' = brk w + s32 (chunk n * HDR) ∧
      ∃ h' fl', morecore n (w, h) = URet (freep h') (w', h') ∧ heap_ok (brk w + HDR * chunk n) h' fl' al ∧
        ∃ b, b ∈ fl' ∧ n ≤ b.2)).
Proof.
  intros K Hhi Hn Hlt Hpos. unfold morecore. fold (chunk n). set (nu := chunk n) in *.
  assert (n ≤ nu ∧ 0 < nu ∧ nu * HDR < 2 ^ 33) as (Hnu & Hnp & Hb).
  { unfold nu, chunk, HDR in *. destruct (Z.ltb_spec n 4096); lia. }
  destruct (os_sbrk (s32 (nu * HDR)) w Hpos) as (r & bs & w' & E & Hr). exists (mk_reply r bs), w'. split; [done|]. cbn [r_val].
  assert (hsys (Csbrk (s32 (nu * HDR))) (w, h) = URet r (w', h)) as Es by (unfold hsys; by rewrite E).
  rewrite (ubind_URet _ _ _ _ _ Es). pose proof (brk_range w) as Hw.
  destruct Hr as [[-> Hbrk]|[-> Hbrk]]; [by left|]. right. split; [done|]. split; [done|].
  rewrite (proj2 (Z.eqb_neq (brk w) (-1))) by lia.
  pose proof (ok_extend _ _ _ _ (brk w) nu K Hhi ltac:(lia) ltac:(unfold HDR in *; lia)) as K1.
  destruct (free_runs _ w' _ _ _ _ _ K1) as (h' & fl' & Ef & K' & (b & Hin & Hbn) & _).
  exists h', fl'. split; [|split; [done|by exists b; split; [|lia]]].
  rewrite (ubind_URet _ _ _ tt (w', set_hdr (brk w) (set_size nu) h)) by done.
  by rewrite (ubind_URet _ _ _ _ _ Ef).
Qed.

(** [malloc] has found a block of [n] units in a heap that ends at [hi]. *)
Definition taken (hi : Z) (h' : uheap) (al : list block) (n r : Z) : Prop :=
  ∃ a fl', r = a + HDR ∧ heap_ok hi h' fl' ((a, n) :: al).

(** The loop finds a block in the heap, or asks for more memory. *)
Lemma malloc_loop_runs w h fl al hi n :
  heap_ok hi h fl al → hi ≤ brk w → 1 ≤ n → n * HDR < 2 ^ 33 → 0 < s32 (chunk n * HDR) →
  let outcome r w' h' := uloop (malloc_step n) (freep h, h_ptr (hdr (freep h) h)) (w, h) = URet r (w', h') in
  (∃ r h', outcome r w h' ∧ taken hi h' al n r) ∨
  (∃ r0 w' r h', os (Csbrk (s32 (chunk n * HDR))) w = Some (r0, w') ∧ outcome r w' h' ∧
     ((r_val r0 = -1 ∧ brk w' = brk w ∧ r = 0 ∧ h' = h) ∨
      (r_val r0 = brk w ∧ brk w' = brk w + s32 (chunk n * HDR) ∧ taken (brk w + HDR * chunk n) h' al n r))).
Proof.
  intros K Hhi Hn Hlt Hpos outcome. pose proof (ok_length _ _ _ _ K) as Hl.
  destruct (malloc_round K w n Hn) as (k & Hk & [(a & h' & fl' & Er & K')|(Hall & q & Er)]).
  { left. exists (a + HDR), h'. split; [apply (uloop_URet _ k); [lia|done]|]. by exists a, fl'. }
  assert (h_size (hdr (freep h) h) < n) as Hsz.
  { pose proof (ok_freep _ _ _ _ K) as Hf. apply list_elem_of_fmap in Hf as (b & -> & Hb).
    rewrite (linked_elem _ _ _ _ Hb (ok_linked _ _ _ _ K)). by apply Hall. }
  assert (malloc_step n (q, freep h) (w, h) =
    (let? p := morecore n in if p =? 0 then uret (inr 0) else malloc_next p) (w, h)) as Es.
  { unfold malloc_step. rewrite (ubind_URet _ _ _ (h_size (hdr (freep h) h)) (w, h)) by done.
    destruct (Z.geb_spec (h_size (hdr (freep h) h)) n); [lia|].
    rewrite (ubind_URet _ _ _ (freep h) (w, h)) by done. by rewrite Z.eqb_refl. }
  right. destruct (morecore_runs _ _ _ _ _ _ K Hhi Hn Hlt Hpos)
    as (r0 & w' & Eo & [(Hr & Hb & Em)|(Hr & Hb & h1 & fl1 & Em & K1 & b & Hbin & Hbn)]).
  - rewrite (ubind_URet _ _ _ _ _ Em) in Es. cbn in Es. exists r0, w', 0, h. split; [done|]. split; [|by left].
    apply (uloop_URet _ (k + 1)); [lia|]. rewrite (urun_n_trans _ _ _ _ _ _ _ Er). by apply urun_n_stop.
  - pose proof (ok_length _ _ _ _ K1) as Hl1. pose proof (ok_low _ _ _ _ K1) as Hlow.
    assert (freep h1 ≠ 0) as Hf0.
    { pose proof (ok_freep _ _ _ _ K1) as Hf. apply list_elem_of_fmap in Hf as (c & -> & Hc).
      pose proof (ok_addr K1 c Hc). lia. }
    rewrite (ubind_URet _ _ _ _ _ Em), (proj2 (Z.eqb_neq _ _) Hf0) in Es.
    destruct (malloc_round K1 w' n Hn) as (k1 & Hk1 & [(a & h' & fl' & Er1 & K')|(Hall1 & _)]).
    + exists r0, w', (a + HDR), h'. split; [done|]. split; [|right; split; [done|]; split; [done|]; by exists a, fl'].
      apply (uloop_URet _ (k + S k1)); [lia|]. rewrite (urun_n_trans _ _ _ _ _ _ _ Er).
      by rewrite (urun_n_next _ _ _ _ _ _ Es).
    + specialize (Hall1 b Hbin). lia.
Qed.

Lemma good_apart w h fl al a n b : good w h fl ((a, n) :: al) → b ∈ al → apart (a, n) b.
Proof.
  intros (hi & K & _) Hb. destruct (ok_range _ _ _ _ K (a, n)) as (_ & Hn & _); [set_solver|].
  destruct (ok_range _ _ _ _ K b) as (_ & Hn' & _); [set_solver|]. apply cov_apart; [done|done|].
  intros x. pose proof (ok_apart _ _ _ _ K x) as Hx. cbn [cnt] in Hx. pose proof (cnt_elem _ _ x Hb).
  pose proof (cnt_nonneg fl x). lia.
Qed.

(** The heap before the first call of [malloc]. *)
Definition unused (w : W) (h : uheap) : Prop := freep h = 0 ∧ 0 < base ∧ base + HDR ≤ brk w.

Lemma unused_good w h :
  unused w h →
  let h1 := set_hdr base (set_size 0) (set_freep base (set_hdr base (set_ptr base) h)) in
  good w h1 [(base, 0)] [].
Proof.
  intros (Hf & Hb & Hw) h1. exists (brk w). split; [|done].
  assert (hdr base h1 = mk_header base 0) as Eh.
  { unfold h1. rewrite hdr_set, decide_True by done.
    change (hdr base (set_freep ?x ?y)) with (hdr base y). rewrite hdr_set. by rewrite decide_True. }
  split; try done.
  - by exists [].
  - cbn. by left.
  - intros b Hin. by apply elem_of_nil in Hin.
  - intros x. cbn [cnt]. unfold cov, bend, HDR. cbn [fst snd]. rewrite decide_False by lia. lia.
  - intros b Hin. by apply elem_of_nil in Hin.
  - pose proof (brk_range w). lia.
Qed.

(** The first part of [malloc]: a heap that has not been used is set up. *)
Lemma malloc_start w h fl al :
  unused w h ∧ al = [] ∨ good w h fl al →
  ∃ h1 fl1 hi, heap_ok hi h1 fl1 al ∧ hi ≤ brk w ∧ ∀ nbytes,
    malloc nbytes (w, h) =
      uloop (malloc_step (u32 ((nbytes + HDR - 1) / HDR + 1))) (freep h1, h_ptr (hdr (freep h1) h1)) (w, h1).
Proof.
  intros [[Hu ->]|(hi & K & Hhi)].
  - destruct (unused_good w h Hu) as (hi & K & Hhi). eexists _, _, hi. split; [exact K|]. split; [done|].
    intros nbytes. unfold malloc. rewrite (ubind_URet _ _ _ 0 (w, h)); [done|].
    destruct Hu as (Hf & _). unfold hget. by rewrite Hf.
  - exists h, fl, hi. split; [done|]. split; [done|]. intros nbytes. unfold malloc.
    rewrite (ubind_URet _ _ _ (freep h) (w, h)) by done. pose proof (ok_freep _ _ _ _ K) as Hf.
    apply list_elem_of_fmap in Hf as (c & Ec & Hc). pose proof (ok_addr K c Hc). pose proof (ok_low _ _ _ _ K).
    by rewrite (proj2 (Z.eqb_neq (freep h) 0)) by lia.
Qed.

(** C20: on a heap that has not been used yet, or that [malloc] and
    [free] have left, [malloc] of fewer than 2^31 - 48 bytes returns a block
    with room for them that overlaps no block in use and no free block, or 0
    when [sbrk] fails; the heap is in order again in either case. *)
Theorem malloc_spec w h fl al nbytes :
  unused w h ∧ al = [] ∨ good w h fl al → 0 ≤ nbytes < 2 ^ 31 - 48 →
  ∃ r w' h' fl', malloc nbytes (w, h) = URet r (w', h') ∧
    ((r = 0 ∧ brk w' = brk w ∧ good w' h' fl' al) ∨
     (∃ a n, r = a + HDR ∧ nbytes ≤ HDR * (n - 1) ∧ good w' h' fl' ((a, n) :: al) ∧
        ∀ b, b ∈ al → apart (a, n) b)).
Proof.
  intros Hh Hn. destruct (malloc_start w h fl al Hh) as (h1 & fl1 & hi & K & Hhi & ->).
  set (n := u32 ((nbytes + HDR - 1) / HDR + 1)).
  assert (1 ≤ n ∧ n * HDR < 2 ^ 31 ∧ nbytes ≤ HDR * (n - 1)) as (Hn1 & Hn2 & Hn3).
  { assert (n = (nbytes + HDR - 1) / HDR + 1) as ->
      by (unfold n; apply u32_small; unfold HDR; Z.to_euclidean_division_equations; lia).
    unfold HDR. Z.to_euclidean_division_equations; lia. }
  assert (s32 (chunk n * HDR) = chunk n * HDR ∧ 0 < chunk n * HDR) as [Es Hpos].
  { unfold chunk, HDR in *. destruct (Z.ltb_spec n 4096); (split; [apply s32_small|]); lia. }
  assert (∀ hi' w' h' r, taken hi' h' al n r → hi' ≤ brk w' → ∃ fl' a m, r = a + HDR ∧ nbytes ≤ HDR * (m - 1) ∧
    good w' h' fl' ((a, m) :: al) ∧ ∀ b, b ∈ al → apart (a, m) b) as Ht.
  { intros hi' w' h' r (a & fl' & -> & K') Hhi'. exists fl', a, n. split; [done|]. split; [done|].
    assert (good w' h' fl' ((a, n) :: al)) as G by by exists hi'. split; [done|]. intros b. by apply (good_apart w' h' fl' al). }
  destruct (malloc_loop_runs w h1 fl1 al hi n K Hhi Hn1 ltac:(lia) ltac:(lia))
    as [(r & h' & E & T)|(r0 & w' & r & h' & _ & E & [(_ & Hb & -> & ->)|(_ & Hb & T)])].
  - destruct (Ht hi w h' r T Hhi) as (fl' & a & m & Hr). exists r, w, h', fl'. split; [exact E|]. right. by exists a, m.
  - exists 0, w', h1, fl1. split; [exact E|]. left. split; [done|]. split; [done|]. exists hi. by rewrite Hb.
  - destruct (Ht _ w' h' r T) as (fl' & a & m & Hr); [lia|]. exists r, w', h', fl'. split; [exact E|]. right. by exists a, m.
Qed.

(** C33: for the 15 largest sizes, on any heap, [malloc] asks the
    system for 16 bytes only, because the number of bytes it computes does not
    fit the [int] that [sbrk] takes.  When the system refuses them it returns
    0; when it gives them, [malloc] returns a block whose header lies in the
    memory of the process and which ends past its end. *)
Theorem malloc_huge w h fl al nbytes :
  unused w h ∧ al = [] ∨ good w h fl al → 2 ^ 32 - 16 < nbytes < 2 ^ 32 →
  ∃ r0 w' r h', os (Csbrk 16) w = Some (r0, w') ∧ malloc nbytes (w, h) = URet r (w', h') ∧
    if r_val r0 =? -1 then r = 0 ∧ brk w' = brk w
    else brk w' = brk w + 16 ∧ 0 < r ≤ brk w' ∧ brk w' < r + nbytes.
Proof.
  intros Hh Hn. destruct (malloc_start w h fl al Hh) as (h1 & fl1 & hi & K & Hhi & ->). pose proof (brk_range w) as Hw.
  assert (u32 ((nbytes + HDR - 1) / HDR + 1) = 268435457) as ->.
  { assert ((nbytes + HDR - 1) / HDR + 1 = 268435457) as -> by (unfold HDR; Z.to_euclidean_division_equations; lia). reflexivity. }
  destruct (malloc_loop_runs w h1 fl1 al hi 268435457 K Hhi ltac:(lia) ltac:(unfold HDR; lia) ltac:(reflexivity))
    as [(r & h' & _ & a & fl' & _ & K')|(r0 & w' & r & h' & Eo & E & Hr)].
  { exfalso. destruct (ok_range _ _ _ _ K' (a, 268435457)) as (H1' & _ & H2'); [set_solver|]. pose proof (ok_low _ _ _ _ K').
    unfold bend, HDR in *. cbn [fst snd] in *. lia. }
  exists r0, w', r, h'. split; [exact Eo|]. split; [exact E|]. change (s32 (chunk 268435457 * HDR)) with 16 in Hr.
  change (HDR * chunk 268435457) with 4294967312 in Hr.
  destruct Hr as [(-> & Hb & -> & _)|(-> & Hb & a & fl' & -> & K')]; [done|]. rewrite (proj2 (Z.eqb_neq (brk w) (-1))) by lia.
  destruct (ok_range _ _ _ _ K' (a, 268435457)) as (H1' & _ & H2'); [set_solver|]. pose proof (ok_low _ _ _ _ K').
  unfold bend, HDR in *. cbn [fst snd] in *. lia.
Qed.

(** C21: [free] of a block in use gives back exactly its bytes: the
    free list covers what it covered before and the block, it is again sorted
    and joined, and the other blocks in use are as they were. *)
Theorem free_spec w h fl al a n :
  good w h fl ((a, n) :: al) →
  ∃ h' fl', free (a + HDR) (w, h) = URet tt (w, h') ∧ good w h' fl' al ∧
    ∀ x, cnt fl' x = cnt fl x + cov (a, n) x.
Proof.
  intros (hi & K & Hhi). destruct (free_runs hi w h fl a n al K) as (h' & fl' & E & K' & _ & Hc).
  exists h', fl'. split; [done|]. split; [by exists hi|done].
Qed.

End top.

End umalloc_spec.

(** ** A process with its memory *)

#[local] Instance sample_umalloc : UmallocLayout := {| base := 4096 |}.

(** A world that is the end of the process's memory. *)
#[local] Instance brk_os : UserOS Z := λ c w,
  match c with
  | Csbrk n =>
      if (0 <=? u32 w + n) && (u32 w + n <? 2 ^ 32) then Some (mk_reply (u32 w) [], u32 w + n)
      else Some (mk_reply (-1) [], w)
  | _ => Some (mk_reply (-1) [], w)
  end.

#[local] Instance brk_sbrk : Sbrk Z.
Proof.
  refine {| brk := u32 |}; [apply u32_range|]. intros n w Hn. cbn.
  destruct (Z.leb_spec 0 (u32 w + n)), (Z.ltb_spec (u32 w + n) (2 ^ 32)); cbn [andb].
  2-4: eexists _, _, _; split; [done|by left].
  eexists _, _, _. split; [done|]. right. split; [done|]. apply u32_small. lia.
Defined.

Definition fresh_heap : uheap := mk_uheap ∅ 0.

Lemma sample_unused : unused (W := Z) 16384 fresh_heap.
Proof. by split_and!. Qed.

Lemma malloc_huge_witness :
  ∃ r w' h', malloc 4294967295 (16384, fresh_heap) = URet r (w', h') ∧ w' = 16400 ∧ 0 < r ≤ w' ∧ w' < r + 4294967295.
Proof.
  destruct (malloc_huge (W := Z) 16384 fresh_heap [] [] 4294967295) as (r0 & w' & r & h' & Eo & E & Hr).
  - left. split; [exact sample_unused|done].
  - lia.
  - exists r, w', h'. split; [exact E|]. change (Some (mk_reply 16384 [], 16400) = Some (r0, w')) in Eo. injection Eo as <- <-.
    split; [reflexivity|]. exact (proj2 Hr).
Defined.

Lemma malloc_spec_witness :
  ∃ r w' h', malloc 100 (16384, fresh_heap) = URet r (w', h').
Proof.
  destruct (malloc_spec (W := Z) 16384 fresh_heap [] [] 100) as (r & w' & h' & fl' & E & _).
  - left. split; [exact sample_unused|done].
  - lia.
  - by exists r, w', h'.
Defined.

Lemma free_spec_witness :
  ∃ (h : uheap) fl a n h', good (W := Z) 16384 h fl [(a, n)] ∧ free (a + HDR) (16384, h) = URet tt (16384, h').
Proof.
  pose proof (unused_good (W := Z) 8192 fresh_heap ltac:(by split_and!)) as (hi & K & Hhi).
  pose proof (ok_extend _ _ _ _ 8192 100 K Hhi ltac:(lia) ltac:(done)) as K1.
  assert (good (W := Z) 16384 (set_hdr 8192 (set_size 100) (set_hdr base (set_size 0)
    (set_freep base (set_hdr base (set_ptr base) fresh_heap)))) [(base, 0)] [(8192, 100)]) as G
    by (exists (8192 + HDR * 100); split; [exact K1|done]).
  destruct (free_spec _ _ _ _ _ _ G) as (h' & fl' & E & _). eexists _, _, 8192, 100, h'. split; [exact G|exact E].
Defined.
