(* ===== verification/Ulib.v ===== *)
(** * user/ulib.c

    The library of the user programs.  The routines on memory are written on
    byte memory, as the kernel's are; programs that only pass strings around
    use them through the functions on lists below, which give the same
    answers. *)

From S2P Require Import Prelude Machine Memory Kstring User.

(** The open modes of kernel/fcntl.h, as the programs use them. *)
Definition O_RDONLY_u : Z := 0.
Definition O_WRONLY_u : Z := 1.
Definition O_RDWR_u : Z := 2.
Definition O_CREATE_u : Z := 0x200.
Definition O_TRUNC_u : Z := 0x400.

(** ** The routines on memory *)

Section memory.
Context {S : Type}.

(** [while(( *s++ = *t++ ) != 0);] *)
Definition strcpy (m : mem) (s t : Z) : M S mem :=
  loop (λ '(m, i), let c := ld m (t + i) in
                   let m' := st m (s + i) c in
                   ret (if c =? 0 then inr m' else inl (m', i + 1))) (m, 0).

(** [while( *p && *p == *q) p++, q++;] *)
Definition strcmp (m : mem) (p q : Z) : M S Z :=
  loop (λ i, ret (if negb (ld m (p + i) =? 0) && (ld m (p + i) =? ld m (q + i)) then inl (i + 1)
                  else inr (ld m (p + i) - ld m (q + i)))) 0.

Definition strlen (m : mem) (s : Z) : M S Z :=
  let! n := loop (λ n, ret (if ld m (s + n) =? 0 then inr n else inl (s32 (n + 1)))) 0 in ret (u32 n).

(** The address of the character, or 0. *)
Definition strchr (m : mem) (s c : Z) : M S Z :=
  loop (λ s, ret (if ld m s =? 0 then inr 0 else if ld m s =? c then inr s else inl (s + 1))) s.

(** [while('0' <= *s && *s <= '9') n = n*10 + *s++ - '0';] *)
Definition atoi_at (m : mem) (s : Z) : M S Z :=
  loop (λ '(n, s), let c := ld m s in
                   ret (if (48 <=? c) && (c <=? 57) then inl (s32 (n * 10 + c - 48), s + 1) else inr n)) (0, s).
End memory.

(** [for(i = 0; i < n; i++) cdst[i] = c;]: the comparison is of [uint]s. *)
Fixpoint memset_loop (k : nat) (m : mem) (cdst c i : Z) : mem :=
  match k with
  | O => m
  | S k' => memset_loop k' (st m (cdst + i) c) cdst c (i + 1)
  end.

Definition memset (m : mem) (dst c n : Z) : mem := memset_loop (Z.to_nat n) m dst c 0.

(** [while(n-- > 0) *dst++ = *src++;] *)
Fixpoint move_up (n : nat) (m : mem) (dst src : Z) : mem :=
  match n with
  | O => m
  | S n' => move_up n' (st m dst (ld m src)) (dst + 1) (src + 1)
  end.

(** [while(n-- > 0) *--dst = *--src;] *)
Fixpoint move_down (n : nat) (m : mem) (dst src : Z) : mem :=
  match n with
  | O => m
  | S n' => move_down n' (st m (dst - 1) (ld m (src - 1))) (dst - 1) (src - 1)
  end.

(** [n] is an [int]: nothing is copied when it is negative. *)
Definition memmove (m : mem) (dst src n : Z) : mem :=
  if src >? dst then move_up (Z.to_nat n) m dst src
  else move_down (Z.to_nat n) m (dst + n) (src + n).

Fixpoint memcmp_loop (n : nat) (m : mem) (p1 p2 : Z) : Z :=
  match n with
  | O => 0
  | S n' =>
      if negb (ld m p1 =? ld m p2) then ld m p1 - ld m p2
      else memcmp_loop n' m (p1 + 1) (p2 + 1)
  end.

Definition memcmp (m : mem) (s1 s2 n : Z) : Z := memcmp_loop (Z.to_nat n) m s1 s2.

(** [memmove] takes an [int]. *)
Definition memcpy (m : mem) (dst src n : Z) : mem := memmove m dst src (s32 n).

(** ** The same on strings as lists *)

Definition str_len (s : list Z) : Z := Z.of_nat (length s).

(** The offset of the character in the string. *)
Fixpoint str_chr (s : list Z) (c : Z) : option nat :=
  match s with
  | [] => None
  | x :: s' => if x =? c then Some O else S <$> str_chr s' c
  end.

Definition is_digit (c : Z) : bool := (48 <=? c) && (c <=? 57).

Fixpoint atoi_loop (n : Z) (s : list Z) : Z :=
  match s with
  | [] => n
  | c :: s' => if is_digit c then atoi_loop (s32 (n * 10 + c - 48)) s' else n
  end.

Definition atoi (s : list Z) : Z := atoi_loop 0 s.

(** ** Input and files *)

Section os.
Context {W : Type} `{UserOS W}.

(** One turn of the loop of [gets]; the variable is [buf], [i] its length. *)
Definition gets_step (max : Z) (buf : list Z) : U W (list Z + list Z) :=
  if Z.of_nat (length buf) + 1 <? max then
    let? r := sys (Cread 0 1) in
    if r_val r <? 1 then uret (inr buf) else
    let c := hd 0 (r_bytes r) in
    let buf := buf ++ [c] in
    if (c =? 10) || (c =? 13) then uret (inr buf) else uret (inl buf)
  else uret (inr buf).

(** The characters stored before the NUL. *)
Definition gets_ (max : Z) : U W (list Z) := uloop (gets_step max) [].

(** The result and the bytes of the [struct stat]. *)
Definition stat_ (n : list Z) : U W (Z * list Z) :=
  let? fd := sysv (Copen n 0) in
  if fd <? 0 then uret (-1, []) else
  let? r := sys (Cfstat fd) in
  sysv (Cclose fd) ???
  uret (r_val r, r_bytes r).

End os.

(** ** The two views agree *)

Section agree.
Context {S : Type}.

Lemma cstr_cons m a c l : cstr m a (c :: l) → ld m a = c ∧ c ≠ 0 ∧ cstr m (a + 1) l.
Proof.
  intros [H1 H2]. destruct (H1 0%nat c eq_refl) as [Hc Hn]. rewrite Z.add_0_r in Hc.
  split; [done|]. split; [done|]. split.
  - intros i d Hi. destruct (H1 (Datatypes.S i) d Hi) as [<- Hd]. split; [f_equal; lia|].
    replace (a + 1 + Z.of_nat i) with (a + Z.of_nat (Datatypes.S i)) by lia. done.
  - rewrite <- H2. f_equal. cbn. lia.
Qed.

Lemma cstr_nil m a : cstr m a [] → ld m a = 0.
Proof. intros [_ H2]. by rewrite Z.add_0_r in H2. Qed.

Lemma strlen_list m a l (s : S) :
  cstr m a l → str_len l < 2 ^ 31 → strlen m a s = Ret (str_len l) s.
Proof.
  intros [H1 H2] Hl. unfold str_len in *. unfold strlen.
  assert (∀ k i, (length l = i + k)%nat →
    run_n (Datatypes.S k) (λ n, ret (if ld m (a + n) =? 0 then inr n else inl (s32 (n + 1))))
      (Z.of_nat i) s = Ret (inr (Z.of_nat (length l))) s) as Hrun.
  { induction k as [|k IH]; intros i Hi.
    - apply run_n_stop. unfold ret. replace i with (length l) by lia. by rewrite H2.
    - destruct (lookup_lt_is_Some_2 l i ltac:(lia)) as [c Hc]. destruct (H1 i c Hc) as [Hld Hne].
      rewrite (run_n_next _ _ _ _ (Z.of_nat (Datatypes.S i)) s); [apply IH; lia|]. unfold ret.
      rewrite Hld, (proj2 (Z.eqb_neq c 0) Hne). rewrite s32_small by lia. do 2 f_equal. lia. }
  rewrite (bind_Ret _ _ s (Z.of_nat (length l)) s).
  - unfold ret. by rewrite u32_small by lia.
  - apply (loop_Ret _ (Datatypes.S (length l))); [lia|]. by apply (Hrun (length l) 0%nat).
Qed.

Lemma strchr_list m a l c (s : S) :
  cstr m a l → str_len l < 2 ^ 31 →
  strchr m a c s = Ret (match str_chr l c with Some i => a + Z.of_nat i | None => 0 end) s.
Proof.
  intros Hc Hl. unfold str_len in Hl. apply (loop_Ret _ (Datatypes.S (length l))); [lia|]. clear Hl.
  revert a Hc. induction l as [|x l IH]; intros a Hc.
  - apply run_n_stop. unfold ret. by rewrite (cstr_nil _ _ Hc).
  - apply cstr_cons in Hc as (Hx & Hn & Hc). cbn [str_chr]. destruct (Z.eqb_spec x c) as [E|E].
    + apply run_n_stop. unfold ret. rewrite Hx, (proj2 (Z.eqb_neq x 0) Hn), E, Z.eqb_refl. by rewrite Z.add_0_r.
    + cbn [length]. rewrite (run_n_next _ _ _ _ (a + 1) s).
      * rewrite (IH (a + 1) Hc). destruct (str_chr l c) as [i|]; cbn; [|done]. do 2 f_equal. lia.
      * unfold ret. by rewrite Hx, (proj2 (Z.eqb_neq x 0) Hn), (proj2 (Z.eqb_neq x c) E).
Qed.

Lemma atoi_list m a l (s : S) : cstr m a l → str_len l < 2 ^ 31 → atoi_at m a s = Ret (atoi l) s.
Proof.
  intros Hc Hl. unfold str_len in Hl. apply (loop_Ret _ (Datatypes.S (length l))); [lia|]. clear Hl.
  unfold atoi. generalize 0. revert a Hc. induction l as [|x l IH]; intros a Hc n.
  - apply run_n_stop. unfold ret. by rewrite (cstr_nil _ _ Hc).
  - apply cstr_cons in Hc as (Hx & Hn & Hc). cbn [atoi_loop length]. fold (is_digit x). destruct (is_digit x) eqn:E.
    + rewrite (run_n_next _ _ _ _ (s32 (n * 10 + x - 48), a + 1) s); [by apply IH|].
      unfold ret. rewrite Hx. unfold is_digit in E. by rewrite E.
    + apply run_n_stop. unfold ret. rewrite Hx. unfold is_digit in E. by rewrite E.
Qed.

End agree.

Lemma ld_move_up n m d s x :
  ¬ (s < d < s + Z.of_nat n) →
  ld (move_up n m d s) x = if decide (d ≤ x < d + Z.of_nat n) then ld m (s + (x - d)) else ld m x.
Proof. exact (ld_copy_forward n m d s x). Qed.

Lemma ld_move_down n m d s x :
  ¬ (d < s < d + Z.of_nat n) →
  ld (move_down n m (d + Z.of_nat n) (s + Z.of_nat n)) x =
    if decide (d ≤ x < d + Z.of_nat n) then ld m (s + (x - d)) else ld m x.
Proof. exact (ld_copy_backward n m d s x). Qed.

(** The user's [memmove] and the kernel's do the same. *)
Lemma ld_memmove_user m dst src n x :
  0 ≤ n → ld (memmove m dst src n) x = ld (Kstring.memmove m dst src n) x.
Proof.
  intros Hn. rewrite ld_memmove. unfold memmove. destruct (Z.gtb_spec src dst).
  - rewrite ld_move_up by lia. by rewrite Z2Nat.id.
  - rewrite <- (Z2Nat.id n) at 2 3 by done. rewrite ld_move_down by lia. by rewrite Z2Nat.id.
Qed.
