(* ===== verification/Uprintf.v ===== *)
(** * user/printf.c

    The user's [printf], which writes its output one character at a time, and
    the characters it writes as a function of the format and the arguments. *)

From S2P Require Import Prelude Machine Memory User.

Definition digits : list Z := Eval compute in bytes_of "0123456789ABCDEF".

(** The newline in a format. *)
Definition nl : string := String (Ascii.ascii_of_nat 10) EmptyString.

(** The variable arguments. *)
Inductive uarg : Type :=
| UInt (x : Z)                    (** int or uint *)
| ULong (x : Z)                   (** uint64 *)
| UStr (s : option (list Z)).     (** char *, [None] when null *)

Definition uarg_int (a : option uarg) : Z :=
  match a with Some (UInt x) => x | _ => 0 end.
Definition uarg_long (a : option uarg) : Z :=
  match a with Some (ULong x) => x | _ => 0 end.
Definition uarg_str (a : option uarg) : option (list Z) :=
  match a with Some (UStr x) => x | _ => None end.

(** [do{ buf[i++] = digits[x % base]; }while((x /= base) != 0);] *)
Fixpoint printint_loop (fuel : nat) (x base : Z) : list Z :=
  match fuel with
  | O => []
  | S fuel' =>
      let c := digits !!! Z.to_nat (x `mod` base) in
      let x := x / base in
      if negb (x =? 0) then c :: printint_loop fuel' x base else [c]
  end.

(** The contents of [buf]; [x] has 32 bits, so 32 turns are enough. *)
Definition printint_buf (xx base : Z) (sgn : bool) : list Z :=
  let neg := sgn && (xx <? 0) in
  let x := if neg then u32 (- xx) else u32 xx in
  printint_loop 32 x base ++ (if neg then [45] else []).

Section printf.
Context {W : Type} `{UserOS W}.

Definition putc (fd c : Z) : U W unit := u_write fd [u8 c] ??? uret tt.

Definition printint (fd xx base : Z) (sgn : bool) : U W unit :=
  ufor (reverse (printint_buf xx base sgn)) (putc fd).

Fixpoint printptr_loop (fd : Z) (n : nat) (x : Z) : U W unit :=
  match n with
  | O => uret tt
  | S n' =>
      putc fd (digits !!! Z.to_nat (Z.shiftr x (8 * 8 - 4))) ???
      printptr_loop fd n' (u64 (Z.shiftl x 4))
  end.

Definition printptr (fd x : Z) : U W unit :=
  putc fd 48 ??? putc fd 120 ??? printptr_loop fd 16 x.

(** The body of the loop in state '%'; the answer is the arguments left. *)
Definition vprintf_conv (fd c : Z) (ap : list uarg) : U W (list uarg) :=
  if c =? 100 then printint fd (uarg_int (head ap)) 10 true ??? uret (tail ap)
  else if c =? 108 then printint fd (s32 (uarg_long (head ap))) 10 false ??? uret (tail ap)
  else if c =? 120 then printint fd (uarg_int (head ap)) 16 false ??? uret (tail ap)
  else if c =? 112 then printptr fd (uarg_long (head ap)) ??? uret (tail ap)
  else if c =? 115 then
    ufor (default (bytes_of "(null)") (uarg_str (head ap))) (putc fd) ??? uret (tail ap)
  else if c =? 99 then putc fd (uarg_int (head ap)) ??? uret (tail ap)
  else if c =? 37 then putc fd c ??? uret ap
  else putc fd 37 ??? putc fd c ??? uret ap.

(** [for(i = 0; fmt[i]; i++)]; [state] is whether the last character was a %. *)
Fixpoint vprintf_loop (fd : Z) (fmt : list Z) (state : bool) (ap : list uarg) : U W unit :=
  match fmt with
  | [] => uret tt
  | c :: fmt' =>
      if state then
        let? ap := vprintf_conv fd c ap in vprintf_loop fd fmt' false ap
      else if c =? 37 then vprintf_loop fd fmt' true ap
      else putc fd c ??? vprintf_loop fd fmt' false ap
  end.

Definition vprintf (fd : Z) (fmt : list Z) (ap : list uarg) : U W unit := vprintf_loop fd fmt false ap.
Definition fprintf (fd : Z) (fmt : string) (ap : list uarg) : U W unit := vprintf fd (bytes_of fmt) ap.
Definition printf (fmt : string) (ap : list uarg) : U W unit := vprintf 1 (bytes_of fmt) ap.
End printf.

(** ** What is written *)

Fixpoint ptr_digits (n : nat) (x : Z) : list Z :=
  match n with
  | O => []
  | S n' => digits !!! Z.to_nat (Z.shiftr x (8 * 8 - 4)) :: ptr_digits n' (u64 (Z.shiftl x 4))
  end.

Definition conv_chars (c : Z) (ap : list uarg) : list Z * list uarg :=
  if c =? 100 then (reverse (printint_buf (uarg_int (head ap)) 10 true), tail ap)
  else if c =? 108 then (reverse (printint_buf (s32 (uarg_long (head ap))) 10 false), tail ap)
  else if c =? 120 then (reverse (printint_buf (uarg_int (head ap)) 16 false), tail ap)
  else if c =? 112 then ([48; 120] ++ ptr_digits 16 (uarg_long (head ap)), tail ap)
  else if c =? 115 then (default (bytes_of "(null)") (uarg_str (head ap)), tail ap)
  else if c =? 99 then ([uarg_int (head ap)], tail ap)
  else if c =? 37 then ([37], ap)
  else ([37; c], ap).

Fixpoint format_loop (fmt : list Z) (state : bool) (ap : list uarg) : list Z :=
  match fmt with
  | [] => []
  | c :: fmt' =>
      if state then let '(cs, ap) := conv_chars c ap in cs ++ format_loop fmt' false ap
      else if c =? 37 then format_loop fmt' true ap
      else c :: format_loop fmt' false ap
  end.

Definition format (fmt : string) (ap : list uarg) : list Z := format_loop (bytes_of fmt) false ap.

Section emit.
Context {W : Type} `{UserOS W}.

Definition emit (fd : Z) (cs : list Z) : U W unit := ufor cs (putc fd).

Lemma emit_app fd cs1 cs2 w : emit fd (cs1 ++ cs2) w = (emit fd cs1 ??? emit fd cs2) w.
Proof.
  revert w. induction cs1 as [|c cs1 IH]; intros w; [done|]. cbn. rewrite ubind_assoc.
  unfold ubind. destruct (putc fd c w); try (done || apply IH).
Qed.

Lemma conv_emit fd c ap w :
  vprintf_conv fd c ap w = (emit fd (conv_chars c ap).1 ??? uret (conv_chars c ap).2) w.
Proof.
  unfold vprintf_conv, conv_chars.
  repeat (case_match; [try done|]); unfold emit; cbn; unfold ubind.
  - by destruct (putc fd _ w) as [[]| | | |].
  - assert (c = 37) as -> by lia. by destruct (putc fd 37 w) as [[]| | | |].
  - destruct (putc fd 37 w) as [[] w1| | | |]; try done. by destruct (putc fd c w1) as [[]| | | |].
Qed.

(** [vprintf] writes exactly the formatted characters, one at a time. *)
Lemma vprintf_emit fd fmt ap w : vprintf fd (bytes_of fmt) ap w = emit fd (format fmt ap) w.
Proof.
  unfold vprintf, format. generalize (bytes_of fmt) as l, false as st. intros l. revert ap w.
  induction l as [|c l IH]; intros ap w st; [done|]. cbn [vprintf_loop format_loop]. destruct st.
  - pose proof (conv_emit fd c ap) as E. destruct (conv_chars c ap) as [cs ap']. cbn [fst snd] in E.
    rewrite emit_app. unfold ubind. rewrite E. unfold ubind. destruct (emit fd cs w); try (done || apply IH).
  - destruct (c =? 37); [apply IH|]. cbn. unfold ubind. destruct (putc fd c w); try (done || apply IH).
Qed.

End emit.

Lemma emit_did {W} `{FileIO W} fin fd cs w :
  ∃ w', emit fd cs w = URet tt w' ∧ did fin fd [] (u8 <$> cs) w w'.
Proof.
  revert w. induction cs as [|c cs IH]; intros w.
  - exists w. split; [done|apply did_refl].
  - destruct (u_write_did fin fd [u8 c] w) as (w1 & E1 & D1). destruct (IH w1) as (w2 & E2 & D2).
    exists w2. split; [|by apply (did_trans _ _ _ _ _ _ _ _ _ D1 D2)].
    cbn. unfold putc, ubind. by rewrite E1.
Qed.
