(* ===== verification/Grep.v ===== *)
(** * user/grep.c

    The regular-expression matcher: [match], [matchhere] and [matchstar] on C
    strings, given as their characters without the terminating NUL, and the
    language of a pattern they decide. *)

From S2P Require Import Prelude.

(** The characters with a meaning in a pattern. *)
Definition c_star : Z := 42.
Definition c_dot : Z := 46.
Definition c_dollar : Z := 36.
Definition c_caret : Z := 94.

(** [s[0]] and [*text]: 0 at the end of the string. *)
Definition char0 (s : list Z) : Z := hd 0 s.

Section matchstar.
Context (matchhere : list Z → bool).

(** [matchstar(c, re, text)], where [matchhere] is [matchhere(re, .)]. *)
Fixpoint matchstar (c : Z) (text : list Z) : bool :=
  if matchhere text then true else
  match text with
  | [] => false
  | t :: text' => if (t =? c) || (c =? c_dot) then matchstar c text' else false
  end.
End matchstar.

Fixpoint matchhere (re text : list Z) : bool :=
  match re with
  | [] => true
  | c :: re1 =>
      match re1 with
      | d :: re2 =>
          if d =? c_star then matchstar (matchhere re2) c text else
          match text with
          | t :: text' => if (c =? c_dot) || (c =? t) then matchhere re1 text' else false
          | [] => false
          end
      | [] =>
          if c =? c_dollar then bool_decide (text = []) else
          match text with
          | t :: text' => if (c =? c_dot) || (c =? t) then matchhere re1 text' else false
          | [] => false
          end
      end
  end.

(** The loop of [match] over the suffixes of the text. *)
Fixpoint match_anywhere (re text : list Z) : bool :=
  if matchhere re text then true else
  match text with
  | [] => false
  | _ :: text' => match_anywhere re text'
  end.

Definition match_ (re text : list Z) : bool :=
  if char0 re =? c_caret then matchhere (tail re) text else match_anywhere re text.

(** ** The language of a pattern *)

(** [c] in a pattern stands for the character [t]. *)
Definition stands (c t : Z) : Prop := c = c_dot ∨ c = t.

(** [denotes re t e]: the pattern [re], without its [^], matches exactly the
    text [t]; [e] tells whether the end of the line may follow only. *)
Inductive denotes : list Z → list Z → bool → Prop :=
| den_nil : denotes [] [] false
| den_end : denotes [c_dollar] [] true
| den_char c re t ts e :
    (∀ re', re ≠ c_star :: re') → ¬ (c = c_dollar ∧ re = []) → stands c t →
    denotes re ts e → denotes (c :: re) (t :: ts) e
| den_star c re reps ts e :
    Forall (stands c) reps → denotes re ts e → denotes (c :: c_star :: re) (reps ++ ts) e.

(** The pattern matches a prefix of the text, all of it if it ends in [$]. *)
Definition matches_here (re text : list Z) : Prop :=
  ∃ t rest e, text = t ++ rest ∧ denotes re t e ∧ (e = true → rest = []).

Lemma matches_star c re text :
  matches_here (c :: c_star :: re) text ↔
  ∃ reps text', text = reps ++ text' ∧ Forall (stands c) reps ∧ matches_here re text'.
Proof.
  split.
  - intros (t & rest & e & -> & D & He). inversion D as [| |? ? ? ? ? Hns|? ? reps ts ? Hr Dr]; subst.
    + by destruct (Hns re).
    + exists reps, (ts ++ rest). rewrite app_assoc. split; [done|]. split; [done|]. by exists ts, rest, e.
  - intros (reps & ? & -> & Hr & t & rest & e & -> & D & He).
    exists (reps ++ t), rest, e. rewrite app_assoc. split; [done|]. split; [by apply den_star|done].
Qed.

Lemma matches_char c re text :
  (∀ re', re ≠ c_star :: re') → ¬ (c = c_dollar ∧ re = []) →
  matches_here (c :: re) text ↔ ∃ t text', text = t :: text' ∧ stands c t ∧ matches_here re text'.
Proof.
  intros Hns Hd. split.
  - intros (t & rest & e & -> & D & He). inversion D as [| |? ? t0 ts ? ? ? Hs Dr|? re2 ? ? ? ? ?]; subst.
    + by destruct Hd.
    + exists t0, (ts ++ rest). split; [done|]. split; [done|]. by exists ts, rest, e.
    + by destruct (Hns re2).
  - intros (t & ? & -> & Hs & ts & rest & e & -> & D & He).
    exists (t :: ts), rest, e. split; [done|]. split; [by apply den_char|done].
Qed.

Lemma matches_nil text : matches_here [] text.
Proof. exists [], text, false. split; [done|]. split; [constructor|done]. Qed.

Lemma matches_end text : matches_here [c_dollar] text ↔ text = [].
Proof.
  split.
  - intros (t & rest & e & -> & D & He). inversion D as [| |? ? ? ? ? ? Hd|]; subst; [by rewrite He|].
    by destruct Hd.
  - intros ->. exists [], [], true. split; [done|]. split; [constructor|done].
Qed.

(** ** The matcher decides it *)

Lemma stands_eqb c t : (t =? c) || (c =? c_dot) = true ↔ stands c t.
Proof. unfold stands. rewrite orb_true_iff, !Z.eqb_eq. naive_solver. Qed.

Lemma matchstar_iff f c text :
  matchstar f c text = true ↔
  ∃ reps text', text = reps ++ text' ∧ Forall (stands c) reps ∧ f text' = true.
Proof.
  induction text as [|t text IH]; cbn [matchstar].
  - split.
    + intros Hf. destruct (f []) eqn:E; [|done]. by exists [], [].
    + intros (reps & text' & [-> ->]%eq_sym%app_nil & _ & ->). done.
  - destruct (f (t :: text)) eqn:E.
    + split; [|done]. intros _. by exists [], (t :: text).
    + destruct ((t =? c) || (c =? c_dot)) eqn:Es.
      * rewrite IH. apply stands_eqb in Es. split.
        -- intros (reps & text' & -> & Hr & Hf). exists (t :: reps), text'. auto.
        -- intros ([|r reps] & text' & Et & Hr & Hf); [cbn in Et; congruence|].
           injection Et as -> ->. exists reps, text'. inversion Hr. auto.
      * split; [done|]. intros ([|r reps] & text' & Et & Hr & Hf); [cbn in Et; congruence|].
        injection Et as -> ->. inversion Hr as [|? ? Hs]. apply stands_eqb in Hs. congruence.
Qed.

(** The last part of [matchhere]: one character of the pattern. *)
Lemma match_one c re (f : list Z → bool) text :
  (∀ re', re ≠ c_star :: re') → ¬ (c = c_dollar ∧ re = []) →
  (∀ text, f text = true ↔ matches_here re text) →
  match text with
  | t :: text' => if (c =? c_dot) || (c =? t) then f text' else false
  | [] => false
  end = true ↔ matches_here (c :: re) text.
Proof.
  intros Hns Hd Hf. rewrite matches_char by done. destruct text as [|t text].
  { split; [done|]. by intros (? & ? & ? & _). }
  assert ((c =? c_dot) || (c =? t) = true ↔ stands c t) as Hs.
  { unfold stands. by rewrite orb_true_iff, !Z.eqb_eq. }
  destruct ((c =? c_dot) || (c =? t)).
  - rewrite Hf. split; [intros Hm; exists t, text; naive_solver|]. by intros (? & ? & [= <- <-] & _ & Hm).
  - split; [done|]. intros (? & ? & [= <- <-] & Hc & _). naive_solver.
Qed.

Lemma matchhere_iff re : ∀ text, matchhere re text = true ↔ matches_here re text.
Proof.
  induction (Nat.lt_wf_0_projected (length (A := Z)) re) as [re _ IH]. intros text.
  destruct re as [|c [|d re]].
  - split; [intros _; apply matches_nil|done].
  - cbn [matchhere]. destruct (Z.eqb_spec c c_dollar) as [->|Hc].
    + rewrite matches_end. apply bool_decide_eq_true.
    + apply (match_one c [] (λ _, true)); [done|by intros [? _]|]. intros. split; [intros _; apply matches_nil|done].
  - cbn [matchhere]. destruct (Z.eqb_spec d c_star) as [->|Hd].
    + rewrite matchstar_iff, matches_star.
      assert (∀ t, matchhere re t = true ↔ matches_here re t) as Hre by (apply IH; cbn; lia).
      by setoid_rewrite Hre.
    + apply (match_one c (d :: re) (matchhere (d :: re))); [intros ? [= ->]; done|by intros [_ ?]|].
      apply IH. cbn. lia.
Qed.

Lemma match_anywhere_iff re text :
  match_anywhere re text = true ↔ ∃ pre post, text = pre ++ post ∧ matches_here re post.
Proof.
  induction text as [|t text IH]; cbn [match_anywhere].
  - destruct (matchhere re []) eqn:E.
    + split; [|done]. intros _. exists [], []. by rewrite <- matchhere_iff.
    + split; [done|]. intros (pre & post & [-> ->]%eq_sym%app_nil & Hm).
      apply matchhere_iff in Hm. congruence.
  - destruct (matchhere re (t :: text)) eqn:E.
    + split; [|done]. intros _. exists [], (t :: text). by rewrite <- matchhere_iff.
    + rewrite IH. split.
      * intros (pre & post & -> & Hm). by exists (t :: pre), post.
      * intros ([|c pre] & post & Et & Hm).
        -- cbn in Et. subst post. apply matchhere_iff in Hm. congruence.
        -- injection Et as -> ->. by exists pre, post.
Qed.

(** C29: [match] decides the language of the pattern.  A pattern
    that starts with a caret has to match at the start of the text, any other
    one somewhere in it, where a dot stands for any character, a star for
    repetitions of the character before it, and a dollar at the end for the
    end of the text. *)
Theorem match_spec re text :
  match_ re text = true ↔
  if decide (char0 re = c_caret) then matches_here (tail re) text
  else ∃ pre post, text = pre ++ post ∧ matches_here re post.
Proof.
  unfold match_. destruct (Z.eqb_spec (char0 re) c_caret).
  - rewrite decide_True by done. apply matchhere_iff.
  - rewrite decide_False by done. apply match_anywhere_iff.
Qed.
