(* ===== verification/Sh.v ===== *)
(** * user/sh.c

    The shell.  The parser works on the line it has read, [line], which is
    followed by a NUL; a [char *] into it is an offset, and [*ps] is the state
    of the parsing functions.  Commands are trees, as the parser builds them
    with [malloc], which is taken to find memory for them; their words are
    offsets into the line. *)

From S2P Require Import Prelude Machine Memory Kstring State Block User Ulib Uprintf.

Definition MAXARGS : nat := 10.

(** A word: the offsets of its first character and of what follows it
    ([argv] and [eargv], [file] and [efile]). *)
Abbreviation word := (nat * nat)%type.

Inductive cmd : Type :=
| EXEC (argv : list word)
| REDIR (c : cmd) (file : word) (mode fd : Z)
| PIPE (left right : cmd)
| LIST (left right : cmd)
| BACK (c : cmd).

Definition whitespace : list Z := [32; 9; 13; 10; 11].
Definition symbols : list Z := Eval compute in bytes_of "<|>&;()".

(** [strchr(s, c) != 0] *)
Definition in_str (s : list Z) (c : Z) : bool := if str_chr s c is Some _ then true else false.

Section parser.
Context (line : list Z).

(** [*s]; the line ends with a NUL. *)
Definition at_ (s : nat) : Z := default 0 (line !! s).
Definition es : nat := length line.

(** [while(s < es && p( *s)) s++;] where [k] is [es - s]. *)
Fixpoint skip_while (p : Z → bool) (k s : nat) : nat :=
  match k with
  | O => s
  | S k' => if p (at_ s) then skip_while p k' (S s) else s
  end.

Definition skip_white (s : nat) : nat := skip_while (in_str whitespace) (es - s) s.
Definition skip_word (s : nat) : nat :=
  skip_while (λ c, negb (in_str whitespace c) && negb (in_str symbols c)) (es - s) s.

(** The token, and the offsets stored in [*q] and [*eq]. *)
Definition gettoken : M nat (Z * word) := λ ps,
  let s := skip_white ps in
  let q := s in
  let c := at_ s in
  let '(ret, s) :=
    if c =? 0 then (c, s)
    else if in_str (bytes_of "|();&<") c then (c, S s)
    else if c =? 62 then if at_ (S s) =? 62 then (43, S (S s)) else (c, S s)
    else (97, skip_word s) in
  Ret (ret, (q, s)) (skip_white s).

Definition peek (toks : list Z) : M nat bool := λ ps,
  let s := skip_white ps in
  Ret (negb (at_ s =? 0) && in_str toks (at_ s)) s.

(** The constructors; a redirection is its word, mode and descriptor. *)
Definition redir : Type := word * Z * Z.
Definition pipecmd (l r : cmd) : cmd := PIPE l r.
Definition listcmd (l r : cmd) : cmd := LIST l r.
Definition backcmd (c : cmd) : cmd := BACK c.
Definition redircmd (c : cmd) (r : redir) : cmd := let '(w, mode, fd) := r in REDIR c w mode fd.

(** One turn of the loop of [parseredirs]; the variable is what has been
    wrapped around the command so far, innermost first. *)
Definition redir_step (rs : list redir) : M nat (list redir + list redir) :=
  let! b := peek (bytes_of "<>") in
  if b then
    let! '(tok, _) := gettoken in
    let! '(t, w) := gettoken in
    if negb (t =? 97) then panic "missing file for redirection" else
    ret (inl (if tok =? 60 then rs ++ [(w, O_RDONLY_u, 0)]
              else if tok =? 62 then rs ++ [(w, Z.lor (Z.lor O_WRONLY_u O_CREATE_u) O_TRUNC_u, 1)]
              else if tok =? 43 then rs ++ [(w, Z.lor O_WRONLY_u O_CREATE_u, 1)]
              else rs))
  else ret (inr rs).

Definition parseredirs_list (rs : list redir) : M nat (list redir) := loop redir_step rs.

Definition parseredirs (c : cmd) : M nat cmd :=
  let! rs := parseredirs_list [] in ret (foldl redircmd c rs).

(** One turn of the loop of [parseexec].  [ret] is the command with [argv],
    which is filled in while it is already inside the redirections [rs]. *)
Definition exec_step (v : list word * list redir) : M nat (list word * list redir + list word * list redir) :=
  let '(argv, rs) := v in
  let! b := peek (bytes_of "|)&;") in
  if b then ret (inr (argv, rs)) else
  let! '(tok, w) := gettoken in
  if tok =? 0 then ret (inr (argv, rs)) else
  if negb (tok =? 97) then panic "syntax" else
  let argv := argv ++ [w] in
  if (MAXARGS <=? length argv)%nat then panic "too many args" else
  let! rs := parseredirs_list rs in
  ret (inl (argv, rs)).

Definition parse_simple : M nat cmd :=
  let! rs := parseredirs_list [] in
  let! '(argv, rs) := loop exec_step ([], rs) in
  ret (foldl redircmd (EXEC argv) rs).

(** The loop of [parseline] over the ampersands. *)
Definition back_step (c : cmd) : M nat (cmd + cmd) :=
  let! b := peek (bytes_of "&") in
  if b then gettoken ;;; ret (inl (backcmd c)) else ret (inr c).

(** The recursion of the parser is as deep as the nesting of the line, which
    [fuel] bounds. *)
Fixpoint parseline (fuel : nat) : M nat cmd :=
  match fuel with
  | O => hang
  | S fuel' =>
      let! c := parsepipe fuel' in
      let! c := loop back_step c in
      let! b := peek (bytes_of ";") in
      if b then
        gettoken ;;;
        let! r := parseline fuel' in
        ret (listcmd c r)
      else ret c
  end
with parsepipe (fuel : nat) : M nat cmd :=
  match fuel with
  | O => hang
  | S fuel' =>
      let! c := parseexec fuel' in
      let! b := peek (bytes_of "|") in
      if b then
        gettoken ;;;
        let! r := parsepipe fuel' in
        ret (pipecmd c r)
      else ret c
  end
with parseexec (fuel : nat) : M nat cmd :=
  match fuel with
  | O => hang
  | S fuel' =>
      let! b := peek (bytes_of "(") in
      if b then parseblock fuel' else parse_simple
  end
with parseblock (fuel : nat) : M nat cmd :=
  match fuel with
  | O => hang
  | S fuel' =>
      let! b := peek (bytes_of "(") in
      if negb b then panic "parseblock" else
      gettoken ;;;
      let! c := parseline fuel' in
      let! b := peek (bytes_of ")") in
      if negb b then panic "syntax - missing )" else
      gettoken ;;;
      parseredirs c
  end.

End parser.

(** Writing the NULs; [buf] is the line with its NUL. *)
Fixpoint nulterminate (c : cmd) (buf : list Z) : list Z :=
  match c with
  | EXEC argv => foldl (λ buf (w : word), <[w.2 := 0]> buf) buf argv
  | REDIR c w _ _ => <[w.2 := 0]> (nulterminate c buf)
  | PIPE l r => nulterminate r (nulterminate l buf)
  | LIST l r => nulterminate r (nulterminate l buf)
  | BACK c => nulterminate c buf
  end.

Definition parse_fuel (line : list Z) : nat := 16 * S (length line).

(** The command and the buffer with its words terminated, or the place of the
    first character that does not belong to the command. *)
Definition parsecmd (line : list Z) : outcome nat (nat + cmd * list Z) :=
  (let! c := parseline line (parse_fuel line) in
   let! _ := peek line [] in
   let! s := gets id in
   if negb (s =? es line)%nat then ret (inl s) else
   ret (inr (c, nulterminate c (line ++ [0])))) O.

(** The string at an offset of the buffer. *)
Definition word_at (buf : list Z) (w : word) : list Z := until_nul (drop w.1 buf).

(** ** Running commands *)

Section shell.
Context {W : Type} `{UserOS W}.

Definition sh_panic {A} (s : string) : U W A :=
  fprintf 2 ("%s" +:+ nl) [UStr (Some (bytes_of s))] ??? u_exit 1.

Definition fork1 : U W Z :=
  let? pid := sysv Cfork in
  if pid =? -1 then sh_panic "fork" else uret pid.

(** [runcmd] never returns: it ends in [exit] or [exec]. *)
Fixpoint runcmd (buf : list Z) (c : cmd) : U W unit :=
  match c with
  | EXEC argv =>
      match word_at buf <$> argv with
      | [] => u_exit 1
      | a :: args =>
          sysv (Cexec a (a :: args)) ???
          fprintf 2 ("exec %s failed" +:+ nl) [UStr (Some a)] ???
          u_exit 0
      end
  | REDIR c w mode fd =>
      sysv (Cclose fd) ???
      let? r := sysv (Copen (word_at buf w) mode) in
      if r <? 0 then
        fprintf 2 ("open %s failed" +:+ nl) [UStr (Some (word_at buf w))] ??? u_exit 1
      else runcmd buf c ??? u_exit 0
  | LIST l r =>
      let? pid := fork1 in
      (if pid =? 0 then runcmd buf l else uret tt) ???
      sysv Cwait ???
      runcmd buf r ???
      u_exit 0
  | PIPE l r =>
      let? p := sys Cpipe in
      if r_val p <? 0 then sh_panic "pipe" else
      let p0 := get32 (r_bytes p) 0 in
      let p1 := get32 (r_bytes p) 4 in
      let? pid := fork1 in
      (if pid =? 0 then
         sysv (Cclose 1) ??? sysv (Cdup p1) ??? sysv (Cclose p0) ??? sysv (Cclose p1) ??? runcmd buf l
       else uret tt) ???
      let? pid := fork1 in
      (if pid =? 0 then
         sysv (Cclose 0) ??? sysv (Cdup p0) ??? sysv (Cclose p0) ??? sysv (Cclose p1) ??? runcmd buf r
       else uret tt) ???
      sysv (Cclose p0) ???
      sysv (Cclose p1) ???
      sysv Cwait ???
      sysv Cwait ???
      u_exit 0
  | BACK c =>
      let? pid := fork1 in
      (if pid =? 0 then runcmd buf c else uret tt) ???
      u_exit 0
  end.

(** The line, [None] at the end of the input. *)
Definition getcmd (nbuf : Z) : U W (option (list Z)) :=
  fprintf 2 "$ " [] ???
  let? buf := gets_ nbuf in
  uret (if until_nul buf is [] then None else Some (until_nul buf)).

(** [runcmd(parsecmd(buf))] *)
Definition run_line (line : list Z) : U W unit :=
  match parsecmd line with
  | Ret (inr (c, buf)) _ => runcmd buf c
  | Ret (inl s) _ =>
      fprintf 2 ("leftovers: %s" +:+ nl) [UStr (Some (drop s line))] ??? sh_panic "syntax"
  | Panic msg => sh_panic msg
  | Hang | Switch _ _ => uhang
  end.

Definition sh_step (_ : unit) : U W (unit + unit) :=
  let? buf := getcmd 100 in
  match buf with
  | None => uret (inr tt)
  | Some buf =>
      if (at_ buf 0 =? 99) && (at_ buf 1 =? 100) && (at_ buf 2 =? 32) then
        let dir := drop 3 (take (length buf - 1) buf) in
        let? r := sysv (Cchdir dir) in
        (if r <? 0 then fprintf 2 ("cannot cd %s" +:+ nl) [UStr (Some dir)] else uret tt) ???
        uret (inl tt)
      else
        let? pid := fork1 in
        (if pid =? 0 then run_line buf else uret tt) ???
        sysv Cwait ???
        uret (inl tt)
  end.

(** [while((fd = open("console", O_RDWR)) >= 0)] *)
Definition open_console (_ : unit) : U W (unit + unit) :=
  let? fd := sysv (Copen (bytes_of "console") O_RDWR_u) in
  if fd >=? 0 then if fd >=? 3 then sysv (Cclose fd) ??? uret (inr tt) else uret (inl tt)
  else uret (inr tt).

Definition sh_main : U W unit :=
  uloop open_console tt ???
  uloop sh_step tt ???
  u_exit 0.

End shell.
