(* ===== verification/ShSpec.v ===== *)
(** * What the shell's parser promises

    It comes to an end on every line, in a result or a syntax error; what it
    returns is the subject of ShGrammar. *)

From S2P Require Import Prelude Machine Memory Kstring State Block User Ulib Uprintf Sh.

(** ** Termination *)

(** The parsing function [c] ends at [i], in a result that satisfies [Q], or in
    a syntax error where [E] allows one. *)
Definition ends {A} (E : Prop) (c : M nat A) (i : nat) (Q : A → nat → Prop) : Prop :=
  match c i with
  | Ret a j => Q a j
  | Panic _ => E
  | Hang | Switch _ _ => False
  end.

Lemma ends_bind {A B} E (c : M nat A) (f : A → M nat B) i Q R :
  ends E c i R → (∀ a j, R a j → ends E (f a) j Q) → ends E (bind c f) i Q.
Proof. unfold ends, bind. intros Hc Hf. destruct (c i); cbn in *; auto; by apply Hf. Qed.

Lemma ends_mono {A} E (c : M nat A) i (Q R : A → nat → Prop) :
  ends E c i R → (∀ a j, R a j → Q a j) → ends E c i Q.
Proof. unfold ends. destruct (c i); auto. Qed.

(** A loop whose turns make progress. *)
Lemma ends_loop {A B} E (step : A → M nat (A + B)) (I : A → nat → Prop) (m : nat → nat) (Q : B → nat → Prop) a i :
  Z.of_nat (m i) < 2 ^ 64 → I a i →
  (∀ a i, I a i → ends E (step a) i (λ r j, match r with
                                          | inl a' => I a' j ∧ (m j < m i)%nat
                                          | inr b => Q b j
                                          end)) →
  ends E (loop step a) i Q.
Proof.
  intros Hm HI Hstep.
  assert (∀ n a i, (m i < n)%nat → I a i →
    (∃ b j, run_n n step a i = Ret (inr b) j ∧ Q b j) ∨ E ∧ ∃ msg, run_n n step a i = Panic msg) as Hrun.
  { induction n as [|n IH]; intros a' i' Hn H1; [lia|]. specialize (Hstep a' i' H1). unfold ends in Hstep.
    cbn [run_n]. unfold bind. destruct (step a' i') as [[a2|b] j|msg| |]; [..|done|done]; cbn [obind].
    - destruct Hstep as [H2 Hlt]. apply IH; [lia|done].
    - left. by exists b, j.
    - right. split; [done|]. by exists msg. }
  unfold ends. destruct (Hrun (S (m i)) a i) as [(b & j & Er & HQ)|(HE & msg & Er)]; [lia|done|..].
  - by rewrite (loop_Ret _ (S (m i)) _ _ _ _ ltac:(lia) Er).
  - by rewrite (loop_Panic _ (S (m i)) _ _ _ ltac:(lia) Er).
Qed.

(** The characters of a string. *)
Lemma in_str_spec s c : in_str s c = bool_decide (c ∈ s).
Proof.
  induction s as [|x s IH]; [done|]. unfold in_str in *. cbn [str_chr].
  destruct (Z.eqb_spec x c) as [->|E].
  - symmetry. apply bool_decide_eq_true. left.
  - transitivity (bool_decide (c ∈ s)); [by rewrite <- IH; destruct (str_chr s c)|].
    apply bool_decide_ext. rewrite elem_of_cons. naive_solver.
Qed.

Lemma symbols_split c : in_str symbols c = in_str (bytes_of "|();&<") c || (c =? 62).
Proof.
  rewrite !in_str_spec. apply eq_true_iff_eq. rewrite orb_true_iff, !bool_decide_eq_true, Z.eqb_eq.
  unfold symbols. change (bytes_of "|();&<") with [124; 40; 41; 59; 38; 60]. set_solver.
Qed.

Section parser.
Context (line : list Z).
Abbreviation at_ := (at_ line).
Abbreviation es := (es line).

Lemma at_lt i : at_ i ≠ 0 → (i < es)%nat.
Proof.
  intros Hi. destruct (decide (i < es)%nat) as [|Hge]; [done|]. exfalso. apply Hi. unfold Sh.at_, Sh.es in *.
  by rewrite lookup_ge_None_2 by lia.
Qed.

Lemma skip_while_range p k i : (i ≤ skip_while line p k i ≤ i + k)%nat.
Proof.
  revert i. induction k as [|k IH]; intros i; cbn; [lia|]. destruct (p (at_ i)); [specialize (IH (S i)); lia|lia].
Qed.

Lemma skip_while_stop p k i :
  (skip_while line p k i < i + k)%nat → p (at_ (skip_while line p k i)) = false.
Proof.
  revert i. induction k as [|k IH]; intros i; cbn; [lia|]. destruct (p (at_ i)) eqn:E; [|done].
  intros Hl. apply IH. lia.
Qed.

Lemma skip_white_range i : (i ≤ es → i ≤ skip_white line i ≤ es)%nat.
Proof. intros Hi. pose proof (skip_while_range (in_str whitespace) (es - i) i). unfold skip_white. lia. Qed.

(** Where it stops there is the end or a character that is not white space. *)
Lemma skip_white_stop i :
  (i ≤ es)%nat → at_ (skip_white line i) ≠ 0 → in_str whitespace (at_ (skip_white line i)) = false.
Proof.
  intros Hi Hz. apply at_lt in Hz. apply (skip_while_stop (in_str whitespace)). unfold skip_white in Hz. lia.
Qed.

Lemma skip_white_idem i : (i ≤ es)%nat → skip_white line (skip_white line i) = skip_white line i.
Proof.
  intros Hi. destruct (decide (at_ (skip_white line i) = 0)) as [Hz|Hz].
  - set (j := skip_white line i) in *. unfold skip_white. destruct (es - j)%nat; cbn; [done|].
    rewrite Hz. done.
  - pose proof (skip_white_stop i Hi Hz) as Hs. set (j := skip_white line i) in *. unfold skip_white at 1.
    destruct (es - j)%nat; cbn; [done|]. by rewrite Hs.
Qed.

(** A token of the line is read past at least one character. *)
Lemma gettoken_ends i :
  (i ≤ es)%nat →
  ends True (gettoken line) i (λ r j, (i ≤ j ≤ es)%nat ∧ (r.1 ≠ 0 → (i < j)%nat) ∧ (at_ (skip_white line i) ≠ 0 → r.1 ≠ 0)).
Proof.
  intros Hi. unfold ends, gettoken. pose proof (skip_white_range i Hi) as Hs.
  pose proof (skip_white_stop i Hi) as Hw. set (s := skip_white line i) in *. cbv zeta.
  destruct (Z.eqb_spec (at_ s) 0) as [Hz|Hz].
  { pose proof (skip_white_range s ltac:(lia)). cbn. split; [lia|]. split; [lia|]. done. }
  pose proof (at_lt s Hz) as Hlt. specialize (Hw Hz).
  assert (∀ t s', t ≠ 0 → (s < s' ≤ es)%nat →
    (i ≤ skip_white line s' ≤ es)%nat ∧ ((t, (s, s')).1 ≠ 0 → (i < skip_white line s')%nat) ∧
    (at_ s ≠ 0 → (t, (s, s')).1 ≠ 0)) as Hfin.
  { intros t s' Ht Hs'. pose proof (skip_white_range s' ltac:(lia)). cbn. split; [lia|]. split; [lia|done]. }
  destruct (in_str (bytes_of "|();&<") (at_ s)) eqn:E1; [apply Hfin; [done|lia]|].
  destruct (Z.eqb_spec (at_ s) 62) as [E2|E2].
  - destruct (Z.eqb_spec (at_ (S s)) 62) as [E3|E3]; [|apply Hfin; [done|lia]].
    apply Hfin; [done|]. assert (S s < es)%nat by (apply at_lt; rewrite E3; done). lia.
  - apply Hfin; [done|]. unfold skip_word. destruct (es - s)%nat as [|k] eqn:Ek; [lia|]. cbn [skip_while].
    rewrite Hw, symbols_split, E1, (proj2 (Z.eqb_neq _ _) E2). cbn [negb andb orb].
    pose proof (skip_while_range (λ c, negb (in_str whitespace c) && negb (in_str symbols c)) k (S s)). cbn. lia.
Qed.

Lemma peek_ends toks i :
  (i ≤ es)%nat →
  ends True (peek line toks) i (λ b j, (i ≤ j ≤ es)%nat ∧ skip_white line j = j ∧ (b = true → at_ j ≠ 0)).
Proof.
  intros Hi. unfold ends, peek. split; [by apply skip_white_range|]. split; [by apply skip_white_idem|].
  intros [Hz _]%andb_true_iff E. by rewrite E in Hz.
Qed.

(** After a successful [peek] a token is read past at least one character. *)
Lemma gettoken_after j :
  (j ≤ es)%nat → skip_white line j = j → at_ j ≠ 0 →
  ends True (gettoken line) j (λ r k, (j < k ≤ es)%nat).
Proof.
  intros Hj Hs Hz. eapply ends_mono; [by apply gettoken_ends|]. intros [t w] k (Hk & H1 & H2).
  rewrite Hs in H2. specialize (H1 (H2 Hz)). lia.
Qed.

Context (Hline : Z.of_nat es < 2 ^ 64).

(** The position moves on, within the line. *)
Definition onward {A} (i : nat) (_ : A) (j : nat) : Prop := (i ≤ j ≤ es)%nat.

Lemma parseredirs_list_ends rs i : (i ≤ es)%nat → ends True (parseredirs_list line rs) i (onward i).
Proof using Hline.
  intros Hi. apply (ends_loop _ _ (λ _ j, (i ≤ j ≤ es)%nat) (λ j, es - j)%nat); [lia|lia|]. clear rs.
  intros rs k Hk. eapply ends_bind; [apply peek_ends; lia|]. intros b j (H1 & H2 & H3).
  destruct b; [|unfold ends, ret, onward; lia].
  eapply ends_bind; [by apply gettoken_after; [lia|..|apply H3]|]. intros [tok w] j1 H4.
  eapply ends_bind; [apply gettoken_ends; lia|]. intros [t w'] j2 (H5 & _).
  destruct (negb (t =? 97)); [done|]. unfold ends, ret. lia.
Qed.

Lemma exec_loop_ends v i : (i ≤ es)%nat → ends True (loop (exec_step line) v) i (onward i).
Proof using Hline.
  intros Hi. apply (ends_loop _ _ (λ _ j, (i ≤ j ≤ es)%nat) (λ j, es - j)%nat); [lia|lia|]. clear v.
  intros [argv rs] k Hk. eapply ends_bind; [apply peek_ends; lia|]. intros b j (H1 & H2 & H3).
  destruct b; [unfold ends, ret, onward; lia|].
  eapply ends_bind; [apply gettoken_ends; lia|]. intros [tok w] j1 (H4 & H5 & _).
  destruct (Z.eqb_spec tok 0) as [E|E]; [unfold ends, ret, onward; lia|]. specialize (H5 E).
  destruct (negb (tok =? 97)); [done|]. cbv zeta. destruct (MAXARGS <=? length _)%nat; [done|].
  eapply ends_bind; [apply parseredirs_list_ends; lia|]. intros rs' j2 H6.
  unfold ends, ret. unfold onward in H6. lia.
Qed.

Lemma parse_simple_ends i : (i ≤ es)%nat → ends True (parse_simple line) i (onward i).
Proof using Hline.
  intros Hi. eapply ends_bind; [by apply parseredirs_list_ends|]. intros rs j Hj. unfold onward in Hj.
  eapply ends_bind; [apply exec_loop_ends; lia|]. intros [argv rs'] k Hk. unfold onward in Hk.
  unfold ends, ret, onward. lia.
Qed.

Lemma parseredirs_ends c i : (i ≤ es)%nat → ends True (parseredirs line c) i (onward i).
Proof using Hline. intros Hi. eapply ends_bind; [by apply parseredirs_list_ends|]. by intros rs j Hj. Qed.

Lemma back_loop_ends c i : (i ≤ es)%nat → ends True (loop (back_step line) c) i (onward i).
Proof using Hline.
  intros Hi. apply (ends_loop _ _ (λ _ j, (i ≤ j ≤ es)%nat) (λ j, es - j)%nat); [lia|lia|]. clear c.
  intros c k Hk. eapply ends_bind; [apply peek_ends; lia|]. intros b j (H1 & H2 & H3).
  destruct b; [|unfold ends, ret, onward; lia].
  eapply ends_bind; [by apply gettoken_after; [lia|..|apply H3]|]. intros [tok w] j1 H4. unfold ends, ret. lia.
Qed.

(** Each level of the recursion that reads nothing is followed by one that
    does within four. *)
Lemma parse_ends f :
  (∀ i, (i ≤ es)%nat → (4 * (es - i) + 3 < f)%nat → ends True (parseline line f) i (onward i)) ∧
  (∀ i, (i ≤ es)%nat → (4 * (es - i) + 2 < f)%nat → ends True (parsepipe line f) i (onward i)) ∧
  (∀ i, (i ≤ es)%nat → (4 * (es - i) + 1 < f)%nat → ends True (parseexec line f) i (onward i)) ∧
  (∀ i, (i ≤ es)%nat → (4 * (es - i) < f)%nat → ends True (parseblock line f) i (onward i)).
Proof using Hline.
  induction f as [|f (IHl & IHp & IHe & IHb)]; [split_and!; lia|].
  split; [|split; [|split]]; intros i Hi Hf.
  - eapply ends_bind; [apply IHp; lia|]. intros c j1 H1. unfold onward in H1.
    eapply ends_bind; [apply back_loop_ends; lia|]. intros c' j2 H2. unfold onward in H2.
    eapply ends_bind; [apply peek_ends; lia|]. intros b j3 (H3 & H4 & H5).
    destruct b; [|unfold ends, ret, onward; lia].
    eapply ends_bind; [by apply gettoken_after; [lia|..|apply H5]|]. intros ? j4 H6. cbn beta in H6.
    eapply ends_bind; [apply IHl; lia|]. intros r j5 H7. unfold onward in H7. unfold ends, ret, onward. lia.
  - eapply ends_bind; [apply IHe; lia|]. intros c j1 H1. unfold onward in H1.
    eapply ends_bind; [apply peek_ends; lia|]. intros b j3 (H3 & H4 & H5).
    destruct b; [|unfold ends, ret, onward; lia].
    eapply ends_bind; [by apply gettoken_after; [lia|..|apply H5]|]. intros ? j4 H6. cbn beta in H6.
    eapply ends_bind; [apply IHp; lia|]. intros r j5 H7. unfold onward in H7. unfold ends, ret, onward. lia.
  - eapply ends_bind; [by apply peek_ends|]. intros b j (H1 & H2 & H3).
    destruct b; (eapply ends_mono; [first [apply IHb; lia|apply parse_simple_ends; lia]|]);
      intros c k Hk; unfold onward in *; lia.
  - eapply ends_bind; [by apply peek_ends|]. intros b j (H1 & H2 & H3).
    destruct b; [|done]. cbn [negb].
    eapply ends_bind; [by apply gettoken_after; [lia|..|apply H3]|]. intros ? j1 H4. cbn beta in H4.
    eapply ends_bind; [apply IHl; lia|]. intros c j2 H5. unfold onward in H5.
    eapply ends_bind; [apply peek_ends; lia|]. intros b j3 (H6 & H7 & H8).
    destruct b; [|done]. cbn [negb].
    eapply ends_bind; [by apply gettoken_after; [lia|..|apply H8]|]. intros ? j4 H9. cbn beta in H9.
    eapply ends_mono; [apply parseredirs_ends; lia|]. intros c' k Hk. unfold onward in *; lia.
Qed.

End parser.

(** C30: The shell's parser comes to an end on every line that fits
    in memory: in a command tree, in the place of the first character it could
    not use, or in one of its syntax errors; its recursion, which nothing in
    the grammar bounds but the line, is never deeper than 4 * length + 4. *)
Theorem parsecmd_total line :
  Z.of_nat (length line) < 2 ^ 64 →
  (∃ r j, parsecmd line = Ret r j) ∨ (∃ msg, parsecmd line = Panic msg).
Proof.
  intros Hl. assert (ends True (λ _, parsecmd line) 0%nat (λ _ _, True)) as He.
  { unfold parsecmd, ends.
    match goal with |- match ?c 0%nat with _ => _ end => change (ends True c 0%nat (λ _ _, True)) end.
    eapply ends_bind; [apply (parse_ends line Hl); unfold es, parse_fuel; lia|].
    intros c j Hj. unfold onward in Hj. eapply ends_bind; [apply peek_ends; lia|]. intros b k Hk.
    unfold ends, bind, gets, ret. cbn. by destruct (negb _). }
  unfold ends in He. destruct (parsecmd line) as [r j|msg| |]; [by left; exists r, j|by right; exists msg|done..].
Qed.

Lemma parsecmd_total_witness :
  (∃ r j, parsecmd (bytes_of "(ls | wc ; cat") = Ret r j) ∨ (∃ msg, parsecmd (bytes_of "(ls | wc ; cat") = Panic msg).
Proof. apply (parsecmd_total (bytes_of "(ls | wc ; cat")). vm_compute. done. Defined.
