(* ===== verification/ShGrammar.v ===== *)
(** * The language of the shell

    The grammar of command lines over tokens, how lines spell tokens, and that
    the parser of user/sh.c accepts exactly the lines of the grammar and builds
    the command the grammar gives them, with its words where the shell will
    look for them.  The trees it returns are well-formed, and the text of a
    tree parses to the tree. *)

From S2P Require Import Prelude Machine Memory Kstring State Block User Ulib Uprintf Sh ShSpec.

(** ** Tokens and their spelling *)

Abbreviation text := (list Z).

Inductive token : Type :=
| Sym (c : Z)
| App
| Word (w : text).

(** Characters that end a word, and the others. *)
Definition delim (c : Z) : bool := in_str whitespace c || in_str symbols c.
Definition word_char (c : Z) : bool := negb (c =? 0) && negb (delim c).

Definition spelling (t : token) : text :=
  match t with Sym c => [c] | App => [62; 62] | Word w => w end.

Definition token_ok (t : token) : Prop :=
  match t with
  | Sym c => in_str symbols c = true
  | App => True
  | Word w => w ≠ [] ∧ Forall (λ c, word_char c = true) w
  end.

(** What may follow a token without a gap. *)
Definition apart (t : token) (l : text) : Prop :=
  match t, l with
  | Word _, c :: _ => delim c = true
  | Sym c, c' :: _ => c = 62 → c' ≠ 62
  | _, _ => True
  end.

Definition blank (g : text) : Prop := Forall (λ c, in_str whitespace c = true) g.

(** The line spells the tokens, with any white space between them. *)
Inductive spells : list token → text → Prop :=
| spells_end g : blank g → spells [] g
| spells_token g t ts l :
    blank g → token_ok t → apart t l → spells ts l → spells (t :: ts) (g ++ spelling t ++ l).

(** ** Commands and the grammar *)

(** Commands as the user means them: with the words themselves. *)
Inductive tcmd : Type :=
| TEXEC (argv : list text)
| TREDIR (c : tcmd) (file : text) (mode fd : Z)
| TPIPE (left right : tcmd)
| TLIST (left right : tcmd)
| TBACK (c : tcmd).

(** [<], [>] and [>>], with the mode and the descriptor they open. *)
Inductive rkind := RIn | ROut | RApp.

Definition rtoken (k : rkind) : token :=
  match k with RIn => Sym 60 | ROut => Sym 62 | RApp => App end.

Definition rmode (k : rkind) : Z :=
  match k with RIn => 0 | ROut => 0x601 | RApp => 0x201 end.

Definition rfd (k : rkind) : Z := match k with RIn => 0 | _ => 1 end.

Definition redirect (c : tcmd) (rs : list (rkind * text)) : tcmd :=
  foldl (λ c '(k, f), TREDIR c f (rmode k) (rfd k)) c rs.

Abbreviation amp := (Sym 38) (only parsing).
Abbreviation semi := (Sym 59) (only parsing).
Abbreviation bar := (Sym 124) (only parsing).
Abbreviation lpar := (Sym 40) (only parsing).
Abbreviation rpar := (Sym 41) (only parsing).

Inductive Redirs : list token → list (rkind * text) → Prop :=
| Redirs_nil : Redirs [] []
| Redirs_cons k f ts rs : Redirs ts rs → Redirs (rtoken k :: Word f :: ts) ((k, f) :: rs).

(** Words and redirections in any order. *)
Inductive Items : list token → list text → list (rkind * text) → Prop :=
| Items_nil : Items [] [] []
| Items_word w ts argv rs : Items ts argv rs → Items (Word w :: ts) (w :: argv) rs
| Items_redir k f ts argv rs : Items ts argv rs → Items (rtoken k :: Word f :: ts) argv ((k, f) :: rs).

Inductive Line : list token → tcmd → Prop :=
| Line_pipe ts c n :
    Pipe ts c → Line (ts ++ replicate n amp) (Nat.iter n TBACK c)
| Line_list ts c n ts' c' :
    Pipe ts c → Line ts' c' → Line (ts ++ replicate n amp ++ semi :: ts') (TLIST (Nat.iter n TBACK c) c')
with Pipe : list token → tcmd → Prop :=
| Pipe_exec ts c : Exec ts c → Pipe ts c
| Pipe_pipe ts c ts' c' : Exec ts c → Pipe ts' c' → Pipe (ts ++ bar :: ts') (TPIPE c c')
with Exec : list token → tcmd → Prop :=
| Exec_items ts argv rs : Items ts argv rs → (length argv < MAXARGS)%nat → Exec ts (redirect (TEXEC argv) rs)
| Exec_block ts c ts' rs : Line ts c → Redirs ts' rs → Exec (lpar :: ts ++ rpar :: ts') (redirect c rs).

(** ** The words of a parsed command *)

Fixpoint words_of (c : cmd) : list word :=
  match c with
  | EXEC argv => argv
  | REDIR c w _ _ => words_of c ++ [w]
  | PIPE l r | LIST l r => words_of l ++ words_of r
  | BACK c => words_of c
  end.

(** The command with the texts [f] of its words. *)
Fixpoint texts (f : word → text) (c : cmd) : tcmd :=
  match c with
  | EXEC argv => TEXEC (f <$> argv)
  | REDIR c w mode fd => TREDIR (texts f c) (f w) mode fd
  | PIPE l r => TPIPE (texts f l) (texts f r)
  | LIST l r => TLIST (texts f l) (texts f r)
  | BACK c => TBACK (texts f c)
  end.

Lemma texts_ext f f' c : (∀ w, w ∈ words_of c → f w = f' w) → texts f c = texts f' c.
Proof.
  induction c as [argv|c IH w mode fd|l IHl r IHr|l IHl r IHr|c IH]; cbn; intros Hw.
  - f_equal. apply list_fmap_ext. intros i w Hi. apply Hw. by eapply list_elem_of_lookup_2.
  - rewrite IH; [|by intros w' Hw'; apply Hw; set_solver]. rewrite Hw by set_solver. done.
  - rewrite IHl, IHr; [done|..]; intros w Hw'; apply Hw; set_solver.
  - rewrite IHl, IHr; [done|..]; intros w Hw'; apply Hw; set_solver.
  - by rewrite IH.
Qed.

(** [nulterminate] writes a NUL after each word and nothing else. *)
Lemma nulterminate_words c buf :
  nulterminate c buf = foldl (λ buf (w : word), <[w.2 := 0]> buf) buf (words_of c).
Proof.
  revert buf. induction c as [argv|c IH w mode fd|l IHl r IHr|l IHl r IHr|c IH]; cbn; intros buf.
  - done.
  - by rewrite foldl_app, IH.
  - by rewrite foldl_app, IHl, IHr.
  - by rewrite foldl_app, IHl, IHr.
  - done.
Qed.

Lemma zeros_lookup (ws : list word) (buf : list Z) k :
  foldl (λ buf (w : word), <[w.2 := 0]> buf) buf ws !! k =
  if bool_decide (k ∈ ws.*2) then (λ _, 0) <$> (buf !! k) else buf !! k.
Proof.
  revert buf. induction ws as [|w ws IH]; intros buf; [done|]. cbn [foldl fmap list_fmap]. rewrite IH.
  destruct (decide (k = w.2)) as [->|E].
  - rewrite (bool_decide_true (w.2 ∈ w.2 :: _)) by set_solver.
    assert (<[w.2 := 0]> buf !! w.2 = (λ _, 0) <$> (buf !! w.2)) as ->.
    { destruct (buf !! w.2) as [x|] eqn:Ex; cbn.
      - apply list_lookup_insert_eq. by eapply lookup_lt_Some.
      - apply lookup_ge_None_2. rewrite length_insert. by apply lookup_ge_None_1. }
    destruct (bool_decide _), (buf !! w.2); done.
  - rewrite list_lookup_insert_ne by done.
    rewrite (bool_decide_ext (k ∈ w.2 :: ws.*2) (k ∈ ws.*2)) by set_solver. done.
Qed.

Lemma until_nul_eq l t :
  Forall (λ c, c ≠ 0) t → (∀ k, (k < length t)%nat → l !! k = t !! k) → l !! length t = Some 0 →
  until_nul l = t.
Proof.
  revert l. induction t as [|x t IH]; intros [|c l] Hn Hk Hl; try done.
  - cbn in Hl. by inversion Hl.
  - pose proof (Hk 0%nat ltac:(cbn; lia)) as E. inversion E; subst c. inversion Hn; subst. cbn.
    rewrite (proj2 (Z.eqb_neq x 0)) by done. f_equal. apply IH; [done| |done].
    intros k Hk'. apply (Hk (S k)). cbn. lia.
Qed.

(** ** Reading tokens *)

Section lexer.
Context (line : list Z).
Abbreviation at_ := (at_ line).
Abbreviation es := (es line).

Lemma drop_cons i c l :
  drop i line = c :: l → (i < es)%nat ∧ at_ i = c ∧ drop (S i) line = l.
Proof.
  intros E. unfold Sh.at_, Sh.es. assert (line !! i = Some c) as Hi.
  { rewrite <- (Nat.add_0_r i), <- lookup_drop, E. done. }
  split; [by eapply lookup_lt_Some|]. rewrite Hi. split; [done|].
  rewrite (drop_S _ _ _ Hi) in E. by inversion E.
Qed.

Lemma drop_nil_es i : (i ≤ es)%nat → drop i line = [] → i = es.
Proof. intros Hi E. apply (f_equal length) in E. rewrite length_drop in E. unfold Sh.es in *. cbn in E. lia. Qed.

Lemma drop_split i g l : drop i line = g ++ l → drop (i + length g) line = l.
Proof. intros E. rewrite <- drop_drop, E. apply drop_app_length. Qed.

(** The loops over white space and over a word. *)
Lemma skip_while_drop (p : Z → bool) g l i :
  (i ≤ es)%nat → drop i line = g ++ l → Forall (λ c, p c = true) g →
  match l with [] => True | c :: _ => p c = false end →
  skip_while line p (es - i) i = (i + length g)%nat.
Proof.
  revert i. induction g as [|c g IH]; intros i Hi E Hg Hl; cbn [app length] in *.
  - destruct l as [|c l].
    + apply drop_nil_es in E as ->; [|done]. rewrite Nat.sub_diag. cbn. lia.
    + apply drop_cons in E as (Hlt & Ec & _). destruct (es - i)%nat as [|k] eqn:Ek; [lia|]. cbn.
      rewrite Ec, Hl. lia.
  - apply drop_cons in E as (Hlt & Ec & E). inversion Hg as [|c' g' Hc Hg']; subst.
    destruct (es - i)%nat as [|k] eqn:Ek; [lia|]. cbn [skip_while]. rewrite Hc.
    replace k with (es - S i)%nat by lia. rewrite IH by (done || lia). lia.
Qed.

(** The text of a word of the line, and what makes it readable after
    [nulterminate]. *)
Definition sub (w : word) : text := take (w.2 - w.1) (drop w.1 line).

Definition readable (w : word) : Prop :=
  (w.1 ≤ w.2 ≤ es)%nat ∧ Forall (λ c, word_char c = true) (sub w) ∧ word_char (at_ w.2) = false.

Lemma sub_lookup w k :
  (w.1 ≤ w.2 ≤ es)%nat → (w.1 + k < w.2)%nat → sub w !! k = Some (at_ (w.1 + k)) ∧ line !! (w.1 + k)%nat = Some (at_ (w.1 + k)).
Proof.
  intros Hw Hk. unfold sub, Sh.at_. rewrite lookup_take_lt, lookup_drop by lia.
  destruct (lookup_lt_is_Some_2 line (w.1 + k)) as [c Hc]; [unfold Sh.es in Hw; lia|]. by rewrite Hc.
Qed.

Lemma length_sub w : (w.1 ≤ w.2 ≤ es)%nat → length (sub w) = (w.2 - w.1)%nat.
Proof. intros Hw. unfold sub. rewrite length_take, length_drop. unfold Sh.es in Hw. lia. Qed.

(** After [nulterminate] the words are C strings. *)
Lemma word_at_sub c w :
  Forall readable (words_of c) → w ∈ words_of c → word_at (nulterminate c (line ++ [0])) w = sub w.
Proof.
  intros Hall Hw. pose proof Hall as Hr. rewrite Forall_forall in Hr. destruct (Hr w Hw) as (Hle & Hch & _).
  unfold word_at. rewrite nulterminate_words. apply until_nul_eq.
  - eapply Forall_impl; [exact Hch|]. cbn. intros x [Hx _]%andb_true_iff ->. done.
  - intros k Hk. rewrite length_sub in Hk by done. destruct (sub_lookup w k Hle ltac:(lia)) as [E1 E2].
    rewrite lookup_drop, zeros_lookup, bool_decide_false.
    + rewrite lookup_app_l by (unfold Sh.es in Hle; lia). by rewrite E1, E2.
    + intros (w' & Ek & Hw')%list_elem_of_fmap. destruct (Hr w' Hw') as (_ & _ & Hnot). rewrite <- Ek in Hnot.
      rewrite Forall_forall in Hch. rewrite (Hch (at_ (w.1 + k))) in Hnot; [done|]. by eapply list_elem_of_lookup_2.
  - rewrite length_sub, lookup_drop, zeros_lookup by done. replace (w.1 + (w.2 - w.1))%nat with w.2 by lia.
    rewrite bool_decide_true by (apply list_elem_of_fmap; by exists w).
    destruct (lookup_lt_is_Some_2 (line ++ [0]) w.2) as [x ->]; [|done].
    rewrite length_app. unfold Sh.es in Hle. cbn. lia.
Qed.

Lemma texts_word_at c :
  Forall readable (words_of c) → texts (word_at (nulterminate c (line ++ [0]))) c = texts sub c.
Proof. intros Hr. apply texts_ext. intros w Hw. by apply word_at_sub. Qed.

Lemma token_first t :
  token_ok t → ∃ c l, spelling t = c :: l ∧ in_str whitespace c = false ∧ c ≠ 0.
Proof.
  destruct t as [c| |w]; cbn; intros Ht.
  - exists c, []. split; [done|]. rewrite in_str_spec in *. apply bool_decide_eq_true in Ht.
    unfold symbols in Ht. rewrite bool_decide_eq_false. unfold whitespace.
    split; [|intros ->]; set_solver by lia.
  - exists 62, [62]. done.
  - destruct Ht as [Hne Hw]. destruct w as [|c w]; [done|]. exists c, w. split; [done|].
    inversion Hw as [|c' w' Hc Hw']; subst. unfold word_char, delim in Hc.
    destruct (Z.eqb_spec c 0), (in_str whitespace c); done.
Qed.

(** What [skip_white] finds. *)
Lemma spells_skip ts i :
  (i ≤ es)%nat → spells ts (drop i line) →
  (i ≤ skip_white line i ≤ es)%nat ∧
  match ts with
  | [] => skip_white line i = es
  | t :: ts' => ∃ l, drop (skip_white line i) line = spelling t ++ l ∧ token_ok t ∧ apart t l ∧ spells ts' l
  end.
Proof.
  intros Hi Hs. split; [by apply skip_white_range|]. unfold skip_white. inversion Hs as [g Hg E|g t ts' l Hg Ht Ha Hs' E E']; subst.
  - rewrite (skip_while_drop _ (drop i line) []); [|done|by rewrite app_nil_r|done|done].
    rewrite length_drop. unfold Sh.es in *. lia.
  - destruct (token_first t Ht) as (c & l' & Et & Hc & _).
    rewrite (skip_while_drop _ g (spelling t ++ l)); [|done|done|done|by rewrite Et].
    exists l. split; [|done]. by apply drop_split.
Qed.

Lemma spells_here ts i :
  (i ≤ es)%nat → spells ts (drop i line) → spells ts (drop (skip_white line i) line).
Proof.
  intros Hi Hs. destruct (spells_skip ts i Hi Hs) as [_ Hm]. destruct ts as [|t ts].
  - rewrite Hm. unfold Sh.es. rewrite drop_all. constructor. constructor.
  - destruct Hm as (l & -> & Ht & Ha & Hl). apply (spells_token []); [constructor|done..].
Qed.

Definition code (t : token) : Z := match t with Sym c => c | App => 43 | Word _ => 97 end.

Lemma gettoken_none i :
  (i ≤ es)%nat → spells [] (drop i line) → gettoken line i = Ret (0, (es, es)) es.
Proof.
  intros Hi Hs. destruct (spells_skip [] i Hi Hs) as [_ E]. unfold gettoken. rewrite E.
  assert (at_ es = 0) as ->. { unfold Sh.at_, Sh.es. by rewrite lookup_ge_None_2. }
  cbn. f_equal. unfold skip_white. by rewrite Nat.sub_diag.
Qed.

(** The end of the token that begins at [s]. *)
Lemma token_end t s l :
  (s ≤ es)%nat → drop s line = spelling t ++ l → token_ok t → apart t l →
  (if at_ s =? 0 then (at_ s, s)
   else if in_str (bytes_of "|();&<") (at_ s) then (at_ s, S s)
   else if at_ s =? 62 then if at_ (S s) =? 62 then (43, S (S s)) else (at_ s, S s)
   else (97, skip_word line s)) = (code t, (s + length (spelling t))%nat).
Proof.
  intros Hs E Ht Ha. destruct (token_first t Ht) as (c & l' & Et & Hw & Hz).
  pose proof E as E0. rewrite Et in E0. apply drop_cons in E0 as (Hlt & Ec & E1). rewrite Ec.
  rewrite (proj2 (Z.eqb_neq c 0) Hz). destruct t as [c'| |w]; cbn in Et.
  - inversion Et; subst c' l'. cbn in Ht. rewrite symbols_split in Ht. cbn [code spelling length].
    destruct (in_str (bytes_of "|();&<") c); [f_equal; lia|]. cbn in Ht. rewrite Ht. apply Z.eqb_eq in Ht as ->.
    destruct (Z.eqb_spec (at_ (S s)) 62) as [E2|]; [|f_equal; lia]. exfalso.
    destruct l as [|c2 l]; cbn in E1; [|apply drop_cons in E1 as (_ & E3 & _); apply Ha; congruence].
    apply drop_nil_es in E1; [|lia]. unfold Sh.at_ in E2. rewrite E1, lookup_ge_None_2 in E2 by (unfold Sh.es; lia). done.
  - inversion Et; subst c l'. cbn in E1. apply drop_cons in E1 as (_ & E2 & _). rewrite E2. cbn. f_equal. lia.
  - cbn in Ht. destruct Ht as [_ Hch]. assert (word_char c = true) as Hc by (subst w; by inversion Hch).
    unfold word_char, delim in Hc. rewrite symbols_split, (proj2 (Z.eqb_neq c 0) Hz), Hw in Hc. cbn [negb andb orb] in Hc.
    destruct (in_str (bytes_of "|();&<") c); [done|]. destruct (c =? 62); [done|]. cbn [code spelling]. f_equal.
    apply (skip_while_drop _ w l); [done..| |].
    + eapply Forall_impl; [exact Hch|]. cbn. unfold word_char, delim. intros x [_ Hx]%andb_true_iff.
      by rewrite negb_orb in Hx.
    + destruct l as [|x l]; [done|]. cbn in Ha. unfold delim in Ha. by rewrite <- negb_orb, Ha.
Qed.

Lemma gettoken_token i t ts :
  (i ≤ es)%nat → spells (t :: ts) (drop i line) →
  ∃ w j, gettoken line i = Ret (code t, w) j ∧ (i < j ≤ es)%nat ∧ spells ts (drop j line) ∧
    ∀ x, t = Word x → readable w ∧ sub w = x.
Proof.
  intros Hi Hs. destruct (spells_skip _ i Hi Hs) as (Hr & l & E & Ht & Ha & Hl).
  set (s := skip_white line i) in *. pose proof (token_end t s l (proj2 Hr) E Ht Ha) as Ee.
  assert (s + length (spelling t) ≤ es)%nat as He.
  { apply (f_equal length) in E. rewrite length_drop, length_app in E. unfold Sh.es in *. lia. }
  pose proof (drop_split _ _ _ E) as El. rewrite <- El in Hl.
  pose proof (skip_white_range line _ He) as Hj.
  assert (0 < length (spelling t))%nat as Hlen by (destruct (token_first t Ht) as (c & l' & -> & _); cbn; lia).
  eexists (s, s + length (spelling t))%nat, _. split; [unfold gettoken; fold s; cbv zeta; by rewrite Ee|].
  split; [lia|]. split; [by apply spells_here|]. intros x ->. cbn [spelling] in *.
  assert (sub (s, s + length x)%nat = x) as Ex.
  { unfold sub. cbn [fst snd]. rewrite E. replace (s + length x - s)%nat with (length x) by lia. apply take_app_length. }
  split; [|done]. split; [cbn; lia|]. rewrite Ex. split; [by destruct Ht|]. cbn [snd].
  destruct l as [|c l].
  - apply drop_nil_es in El; [|done]. unfold Sh.at_. by rewrite El, lookup_ge_None_2.
  - apply drop_cons in El as (_ & -> & _). unfold word_char. rewrite Ha. by destruct (c =? 0).
Qed.

(** The tokens begin with one of the symbols [s]. *)
Definition starts (s : list Z) (ts : list token) : bool :=
  match ts with Sym c :: _ => in_str s c | App :: _ => in_str s 62 | _ => false end.

Lemma peek_token s i ts :
  (i ≤ es)%nat → spells ts (drop i line) → Forall (λ c, in_str symbols c = true) s →
  ∃ j, peek line s i = Ret (starts s ts) j ∧ (i ≤ j ≤ es)%nat ∧ spells ts (drop j line).
Proof.
  intros Hi Hs Hsym. destruct (spells_skip _ i Hi Hs) as [Hr Hm]. exists (skip_white line i).
  split; [|split; [done|by apply spells_here]]. unfold peek. cbv zeta. f_equal. destruct ts as [|t ts].
  - rewrite Hm. unfold Sh.at_, Sh.es. by rewrite lookup_ge_None_2.
  - destruct Hm as (l & E & Ht & _). destruct (token_first t Ht) as (c & l' & Et & _ & Hz).
    rewrite Et in E. apply drop_cons in E as (_ & -> & _). rewrite (proj2 (Z.eqb_neq c 0) Hz). cbn [negb andb].
    destruct t as [c'| |w]; cbn in Et; [by inversion Et|by inversion Et|]. cbn in Ht. destruct Ht as [_ Hch].
    subst w. inversion Hch as [|c' l2 Hc _]; subst. rewrite in_str_spec. apply bool_decide_eq_false. intros Hin.
    rewrite Forall_forall in Hsym. apply Hsym in Hin. unfold word_char, delim in Hc. rewrite Hin in Hc.
    by destruct (c =? 0), (in_str whitespace c).
Qed.

End lexer.

(** ** The parser against the grammar *)

Section parser.
Context (line : list Z) (Hline : Z.of_nat (es line) < 2 ^ 64).
Abbreviation es := (es line).

(** The parser is at [i], before the tokens [ts]. *)
Definition before (ts : list token) (i : nat) : Prop := (i ≤ es)%nat ∧ spells ts (drop i line).

Lemma ends_peek {A} E s i ts (k : bool → M nat A) Q :
  before ts i → Forall (λ c, in_str symbols c = true) s →
  (∀ j, before ts j → (i ≤ j)%nat → ends E (k (starts s ts)) j Q) → ends E (bind (peek line s) k) i Q.
Proof.
  intros [Hi Hs] Hsym Hk. destruct (peek_token line s i ts Hi Hs Hsym) as (j & E1 & H1 & H2).
  unfold ends, bind. rewrite E1. cbn [obind]. apply Hk; [split|]; lia || done.
Qed.

Lemma ends_token {A} E i t ts (k : Z * word → M nat A) Q :
  before (t :: ts) i →
  (∀ w j, before ts j → (i < j)%nat → (∀ x, t = Word x → readable line w ∧ sub line w = x) →
     ends E (k (code t, w)) j Q) →
  ends E (bind (gettoken line) k) i Q.
Proof.
  intros [Hi Hs] Hk. destruct (gettoken_token line i t ts Hi Hs) as (w & j & E1 & H1 & H2 & H3).
  unfold ends, bind. rewrite E1. cbn [obind]. apply Hk; [split|..]; lia || done.
Qed.

Lemma ends_no_token {A} E i (k : Z * word → M nat A) Q :
  before [] i → ends E (k (0, (es, es))) es Q → ends E (bind (gettoken line) k) i Q.
Proof. intros [Hi Hs] Hk. unfold ends, bind. by rewrite (gettoken_none line i Hi Hs). Qed.

Lemma before_end i : before [] i → before [] es.
Proof. intros _. split; [done|]. unfold Sh.es. rewrite drop_all. repeat constructor. Qed.

Lemma before_ok t ts i : before (t :: ts) i → token_ok t.
Proof. intros [_ Hs]. by inversion Hs. Qed.

Lemma code_spec t : token_ok t → code t ≠ 0 ∧ (code t = 97 → ∃ x, t = Word x).
Proof.
  destruct t as [c| |x]; cbn; [|done|by eauto]. rewrite in_str_spec, bool_decide_eq_true. unfold symbols.
  intros Hc. split; [intros ->|intros ->]; set_solver by lia.
Qed.

(** A redirection and what it means. *)
Definition means (r : redir) (a : rkind * text) : Prop :=
  readable line r.1.1 ∧ sub line r.1.1 = a.2 ∧ r.1.2 = rmode a.1 ∧ r.2 = rfd a.1.

(** A command and what it means. *)
Definition parsed (c : cmd) (a : tcmd) : Prop :=
  Forall (readable line) (words_of c) ∧ texts (sub line) c = a.

Lemma parsed_redirs c a rs rs' :
  parsed c a → Forall2 means rs rs' → parsed (foldl redircmd c rs) (redirect a rs').
Proof.
  intros Hc Hrs. revert c a Hc. induction Hrs as [|[[w mode] fd] [k f] rs rs' (H1 & H2 & H3 & H4) _ IH]; intros c a Hc; [done|].
  cbn [foldl]. unfold redirect. cbn [foldl]. apply IH. destruct Hc as [Hr <-]. cbn in *. split.
  - cbn. apply Forall_app_2; [done|]. by constructor.
  - cbn. by rewrite H2, H3, H4.
Qed.

Lemma redir_first ts : starts (bytes_of "<>") ts = true → ∃ k ts', ts = rtoken k :: ts'.
Proof.
  destruct ts as [|[c| |w] ts]; cbn -[bytes_of]; try done.
  - rewrite in_str_spec, bool_decide_eq_true. change (bytes_of "<>") with [60; 62]. intros Hc.
    apply elem_of_cons in Hc as [->|Hc]; [by exists RIn, ts|].
    apply list_elem_of_singleton in Hc as ->. by exists ROut, ts.
  - intros _. by exists RApp, ts.
Qed.

(** One redirection. *)
Lemma redir_step_token E k ts rs rs0 i (Q : list redir + list redir → nat → Prop) :
  before (rtoken k :: ts) i → Forall2 means rs rs0 →
  match ts with
  | Word f :: ts' => ∀ rs' j, before ts' j → (i < j)%nat → Forall2 means rs' (rs0 ++ [(k, f)]) → Q (inl rs') j
  | _ => E
  end →
  ends E (redir_step line rs) i Q.
Proof.
  intros Hb Hrs HQ. eapply ends_peek; [exact Hb|by repeat constructor|]. intros j1 Hb1 Hj1.
  assert (starts (bytes_of "<>") (rtoken k :: ts) = true) as -> by by destruct k.
  eapply ends_token; [exact Hb1|]. intros w0 j2 Hb2 Hj2 _. destruct ts as [|t ts].
  { eapply ends_no_token; [exact Hb2|]. exact HQ. }
  eapply ends_token; [exact Hb2|]. intros w j3 Hb3 Hj3 Hw.
  destruct (code_spec t (before_ok _ _ _ Hb2)) as [_ Hcode]. destruct (Z.eqb_spec (code t) 97) as [Ec|Ec].
  - destruct (Hcode Ec) as [x ->]. destruct (Hw x eq_refl) as [Hr Hx]. apply (HQ _ j3 Hb3); [lia|].
    destruct k; (apply Forall2_app; [done|]; constructor; [|constructor]); by split_and!.
  - destruct t as [c| |x]; [exact HQ..|done].
Qed.

(** The end of the redirections. *)
Lemma redir_step_end E ts rs i (Q : list redir + list redir → nat → Prop) :
  before ts i → starts (bytes_of "<>") ts = false →
  (∀ j, before ts j → (i ≤ j)%nat → Q (inr rs) j) → ends E (redir_step line rs) i Q.
Proof.
  intros Hb Hno HQ. eapply ends_peek; [exact Hb|by repeat constructor|]. intros j Hb' Hj.
  rewrite Hno. by apply HQ.
Qed.

Lemma Redirs_app ts1 r1 ts2 r2 : Redirs ts1 r1 → Redirs ts2 r2 → Redirs (ts1 ++ ts2) (r1 ++ r2).
Proof. intros H1 H2. induction H1; cbn; [done|by constructor]. Qed.

Lemma redirs_sound ts rs rs0 i :
  before ts i → Forall2 means rs rs0 →
  ends True (parseredirs_list line rs) i (λ rs' j, (i ≤ j)%nat ∧ ∃ ts1 rest r1, ts = ts1 ++ rest ∧ Redirs ts1 r1 ∧
    Forall2 means rs' (rs0 ++ r1) ∧ before rest j ∧ starts (bytes_of "<>") rest = false).
Proof using Hline.
  intros Hb Hrs.
  apply (ends_loop _ _ (λ rs' j, (i ≤ j)%nat ∧ ∃ ts1 rest r1, ts = ts1 ++ rest ∧ Redirs ts1 r1 ∧
    Forall2 means rs' (rs0 ++ r1) ∧ before rest j) (λ j, es - j)%nat); [lia|..].
  { split; [lia|]. exists [], ts, []. rewrite app_nil_r. by split_and!; [|constructor|..]. }
  clear rs Hrs Hb. intros rs j (Hij & ts1 & rest & r1 & -> & H1 & H2 & Hb).
  destruct (starts (bytes_of "<>") rest) eqn:Es.
  - destruct (redir_first _ Es) as (k & ts2 & ->). eapply redir_step_token; [done..|].
    destruct ts2 as [|[c| |f] ts2]; [done..|]. intros rs' j' Hb' Hj Hrs'. destruct Hb' as [Hle Hb']. split; [|lia].
    split; [lia|]. exists (ts1 ++ [rtoken k; Word f]), ts2, (r1 ++ [(k, f)]). rewrite <- !(assoc_L (++)).
    split; [done|]. split; [apply Redirs_app; [done|repeat constructor]|].
    rewrite (assoc_L (++)). by split.
  - eapply redir_step_end; [done..|]. intros j' Hb' Hj. split; [lia|]. by exists ts1, rest, r1.
Qed.

Lemma redirs_complete ts1 rest r1 rs rs0 i :
  before (ts1 ++ rest) i → Redirs ts1 r1 → starts (bytes_of "<>") rest = false → Forall2 means rs rs0 →
  ends False (parseredirs_list line rs) i (λ rs' j, (i ≤ j)%nat ∧ Forall2 means rs' (rs0 ++ r1) ∧ before rest j).
Proof using Hline.
  intros Hb Hr Hno Hrs.
  apply (ends_loop _ _ (λ rs' j, (i ≤ j)%nat ∧ ∃ ts2 r2 rs2, before (ts2 ++ rest) j ∧ Redirs ts2 r2 ∧
    Forall2 means rs' rs2 ∧ rs2 ++ r2 = rs0 ++ r1) (λ j, es - j)%nat); [lia|..].
  { split; [lia|]. by exists ts1, r1, rs0. }
  clear rs Hrs Hb. intros rs j (Hij & ts2 & r2 & rs2 & Hb & H1 & H2 & E).
  destruct H1 as [|k f ts2 r2 H1].
  - eapply redir_step_end; [done..|]. intros j' Hb' Hj. split; [lia|]. rewrite <- E, app_nil_r. done.
  - eapply redir_step_token; [done..|]. intros rs' j' Hb' Hj Hrs'. destruct Hb' as [Hle Hb']. split; [|lia].
    split; [lia|]. exists ts2, r2, (rs2 ++ [(k, f)]). rewrite <- (assoc_L (++)). by split_and!.
Qed.

(** A turn of the loop of [parseexec]. *)
Lemma exec_step_end E ts argv rs i (Q : list word * list redir + list word * list redir → nat → Prop) :
  before ts i → ts = [] ∨ starts (bytes_of "|)&;") ts = true →
  (∀ j, before ts j → (i ≤ j)%nat → Q (inr (argv, rs)) j) → ends E (exec_step line (argv, rs)) i Q.
Proof.
  intros Hb Hts HQ. eapply ends_peek; [exact Hb|by repeat constructor|]. intros j Hb' Hj.
  destruct Hts as [->| ->]; [|by apply HQ]. cbn [starts]. eapply ends_no_token; [exact Hb'|].
  apply HQ; [by eapply before_end|]. destruct Hb' as [? _]. lia.
Qed.

Lemma exec_step_word E x ts argv rs i (Q : list word * list redir + list word * list redir → nat → Prop) :
  before (Word x :: ts) i → ((length argv < MAXARGS - 1)%nat ∨ E) →
  (∀ w j, before ts j → (i < j)%nat → readable line w → sub line w = x → (length argv < MAXARGS - 1)%nat →
     ends E (bind (parseredirs_list line rs) (λ rs, ret (inl (argv ++ [w], rs)))) j Q) →
  ends E (exec_step line (argv, rs)) i Q.
Proof.
  intros Hb HE HQ. eapply ends_peek; [exact Hb|by repeat constructor|]. intros j Hb' Hj. cbn [starts].
  eapply ends_token; [exact Hb'|]. intros w j2 Hb2 Hj2 Hw. destruct (Hw x eq_refl) as [Hr Hx]. cbn [code].
  cbv zeta. destruct (Nat.leb_spec MAXARGS (length (argv ++ [w]))) as [Hl|Hl]; rewrite length_app in Hl; cbn [length] in Hl.
  - destruct HE as [HE|HE]; [lia|exact HE].
  - apply HQ; [done|lia|done|done|lia].
Qed.

Lemma Items_app ts1 a1 r1 ts2 a2 r2 :
  Items ts1 a1 r1 → Items ts2 a2 r2 → Items (ts1 ++ ts2) (a1 ++ a2) (r1 ++ r2).
Proof. intros H1 H2. induction H1; cbn; [done|by constructor..]. Qed.

Lemma Redirs_Items ts rs : Redirs ts rs → Items ts [] rs.
Proof. induction 1; by constructor. Qed.

(** A simple command begins with redirections, up to its next word. *)
Lemma Items_lead ts a r :
  Items ts a r →
  ∃ ts1 r1 ts2 r2, ts = ts1 ++ ts2 ∧ r = r1 ++ r2 ∧ Redirs ts1 r1 ∧ Items ts2 a r2 ∧
    (ts2 = [] ∨ ∃ w ts3, ts2 = Word w :: ts3).
Proof.
  induction 1 as [|w ts a r H _|k f ts a r _ (ts1 & r1 & ts2 & r2 & -> & -> & H1 & H2 & H3)].
  - exists [], [], [], []. split_and!; [done|done|constructor|constructor|by left].
  - exists [], [], (Word w :: ts), r. split_and!; [done|done|constructor|by constructor|right; by eauto].
  - exists (rtoken k :: Word f :: ts1), ((k, f) :: r1), ts2, r2. split_and!; [done|done|by constructor|done|done].
Qed.

(** The words so far. *)
Definition words_mean (argv : list word) (a : list text) : Prop :=
  Forall (readable line) argv ∧ sub line <$> argv = a.

Lemma words_mean_snoc argv a w : words_mean argv a → readable line w → words_mean (argv ++ [w]) (a ++ [sub line w]).
Proof. intros [H1 <-] Hw. split; [by apply Forall_app_2, Forall_singleton|]. by rewrite fmap_app. Qed.

Definition simple_sound ts (v : list word * list redir) (rest : list token) : Prop :=
  ∃ ts1 a r, ts = ts1 ++ rest ∧ Items ts1 a r ∧ words_mean v.1 a ∧ Forall2 means v.2 r ∧ (length v.1 < MAXARGS)%nat.

Lemma exec_loop_sound ts v i rest :
  before rest i → simple_sound ts v rest → starts (bytes_of "<>") rest = false →
  ends True (loop (exec_step line) v) i (λ v' j, (i ≤ j)%nat ∧ ∃ rest', simple_sound ts v' rest' ∧ before rest' j).
Proof using Hline.
  intros Hb Hv Hno.
  apply (ends_loop _ _ (λ v' j, (i ≤ j)%nat ∧ ∃ rest', simple_sound ts v' rest' ∧ before rest' j)
    (λ j, es - j)%nat); [lia|by split; [lia|exists rest]|].
  clear v Hv Hb Hno rest. intros [argv rs] j (Hij & rest & Hv & Hb).
  destruct (decide (rest = [] ∨ starts (bytes_of "|)&;") rest = true)) as [Hend|Hend].
  { eapply exec_step_end; [done..|]. intros j' Hb' Hj. split; [lia|by exists rest]. }
  destruct rest as [|[c| |x] rest].
  - exfalso. by apply Hend; left.
  - eapply ends_peek; [exact Hb|by repeat constructor|]. intros j1 Hb1 Hj1.
    destruct (starts _ _) eqn:Es; [by exfalso; apply Hend; right|]. eapply ends_token; [exact Hb1|]. intros w j2 _ _ _.
    destruct (code_spec (Sym c) (before_ok _ _ _ Hb)) as [Hc0 Hc]. cbn [code] in *.
    rewrite (proj2 (Z.eqb_neq c 0) Hc0). destruct (Z.eqb_spec c 97) as [E|E]; [|done]. by destruct (Hc E).
  - eapply ends_peek; [exact Hb|by repeat constructor|]. intros j1 Hb1 Hj1. change (starts _ _) with false.
    cbv iota. eapply ends_token; [exact Hb1|]. done.
  - eapply exec_step_word; [exact Hb|by right|]. intros w j1 Hb1 Hj1 Hr <- Hlen.
    destruct Hv as (ts1 & a & r & -> & H1 & H2 & H3 & H4). cbn [fst snd] in *.
    eapply ends_bind; [by eapply redirs_sound|].
    intros rs' j2 (Hj2 & ts2 & rest2 & r2 & -> & H5 & H6 & Hb2 & _). unfold ends, ret. pose proof Hb2 as [Hle _].
    split; [|lia]. split; [lia|]. exists rest2. split; [|done].
    exists (ts1 ++ Word (sub line w) :: ts2), (a ++ [sub line w]), (r ++ r2). cbn [fst snd].
    split; [by rewrite <- (assoc_L (++))|]. split; [|split; [by apply words_mean_snoc|split; [done|]]].
    + apply Items_app; [done|]. constructor. by apply Redirs_Items.
    + rewrite length_app. cbn. lia.
Qed.

Lemma simple_parsed argv a rs r :
  words_mean argv a → Forall2 means rs r → parsed (foldl redircmd (EXEC argv) rs) (redirect (TEXEC a) r).
Proof. intros [Hr <-] Hrs. by apply parsed_redirs. Qed.

Lemma parse_simple_sound ts i :
  before ts i →
  ends True (parse_simple line) i (λ c j, (i ≤ j)%nat ∧ ∃ ts1 rest a, ts = ts1 ++ rest ∧ Exec ts1 a ∧ parsed c a ∧ before rest j).
Proof using Hline.
  intros Hb. eapply ends_bind; [by eapply redirs_sound; [|constructor]|].
  intros rs j (Hij & ts1 & rest & r1 & -> & H1 & H2 & Hb1 & Hno).
  eapply ends_bind; [eapply (exec_loop_sound (ts1 ++ rest)); [done| |done]|].
  { exists ts1, [], r1. split_and!; [done|by apply Redirs_Items|by split; [constructor|]|done|cbn; unfold MAXARGS; lia]. }
  intros [argv rs'] j' (Hj & rest' & (ts2 & a & r & E & H3 & H4 & H5 & H6) & Hb2). unfold ends, ret.
  split; [lia|]. exists ts2, rest', (redirect (TEXEC a) r). cbn [fst snd] in *.
  split; [done|]. split; [|split; [by apply simple_parsed|done]]. constructor; [done|].
  destruct H4 as [_ <-]. by rewrite length_fmap.
Qed.

(** What follows a command, by the symbols that may. *)
Definition follow (cs : list Z) (rest : list token) : Prop :=
  match rest with [] => True | Sym c :: _ => c ∈ cs | _ => False end.

Lemma follow_starts cs s rest : follow cs rest → Forall (λ c, in_str s c = false) cs → starts s rest = false.
Proof.
  destruct rest as [|[c| |w] rest]; cbn; try done. intros Hc Hs. rewrite Forall_forall in Hs. by apply Hs.
Qed.

Lemma follow_mono cs cs' rest : follow cs rest → cs ⊆ cs' → follow cs' rest.
Proof. destruct rest as [|[c| |w] rest]; cbn; set_solver. Qed.

Lemma exec_loop_complete ts a r v a0 r0 i rest :
  before (ts ++ rest) i → Items ts a r → starts (bytes_of "<>") (ts ++ rest) = false →
  words_mean v.1 a0 → Forall2 means v.2 r0 → follow [124; 41; 38; 59] rest → (length (a0 ++ a) < MAXARGS)%nat →
  ends False (loop (exec_step line) v) i
    (λ v' j, (i ≤ j)%nat ∧ words_mean v'.1 (a0 ++ a) ∧ Forall2 means v'.2 (r0 ++ r) ∧ before rest j).
Proof using Hline.
  intros Hb Hts Hno Hv1 Hv2 Hf Hlen.
  apply (ends_loop _ _ (λ v' j, (i ≤ j)%nat ∧ ∃ ts' a' r' a1 r1, before (ts' ++ rest) j ∧ Items ts' a' r' ∧
    starts (bytes_of "<>") (ts' ++ rest) = false ∧ words_mean v'.1 a1 ∧ Forall2 means v'.2 r1 ∧
    a1 ++ a' = a0 ++ a ∧ r1 ++ r' = r0 ++ r) (λ j, es - j)%nat); [lia|..].
  { split; [lia|]. by exists ts, a, r, a0, r0. }
  clear v Hv1 Hv2 Hb Hts Hno. intros [argv rs] j (Hij & ts' & a' & r' & a1 & r1 & Hb & Hts & Hno & Hw & Hr & Ea & Er).
  cbn [fst snd] in *. destruct Hts as [|x ts' a' r' Hts|k f ts' a' r' Hts].
  - rewrite app_nil_r in Ea, Er. subst a1 r1. eapply exec_step_end; [done| |].
    + destruct rest as [|[c| |w] rest]; [by left| |done..]. right. cbn in Hf |- *.
      rewrite in_str_spec. by apply bool_decide_eq_true.
    + intros j' Hb' Hj. split; [lia|]. done.
  - assert (length argv = length a1) as El by (destruct Hw as [_ <-]; by rewrite length_fmap).
    rewrite <- Ea, length_app in Hlen. cbn [length] in Hlen. change (before (Word x :: (ts' ++ rest)) j) in Hb.
    eapply exec_step_word; [exact Hb|left; lia|]. intros w j1 Hb1 Hj1 Hrd <- _.
    destruct (Items_lead _ _ _ Hts) as (ts1 & q1 & ts2 & q2 & -> & -> & H1 & H2 & H3).
    rewrite <- (assoc_L (++)) in Hb1.
    assert (starts (bytes_of "<>") (ts2 ++ rest) = false) as Hno2.
    { destruct H3 as [->|(w' & ts3 & ->)]; [|done]. eapply follow_starts; [exact Hf|by repeat constructor]. }
    eapply ends_bind; [by eapply redirs_complete|]. intros rs' j2 (Hj2 & H4 & Hb2). unfold ends, ret.
    pose proof Hb2 as [Hle _]. split; [|lia]. split; [lia|]. exists ts2, a', q2, (a1 ++ [sub line w]), (r1 ++ q1).
    cbn [fst snd]. rewrite <- !(assoc_L (++)). by split_and!; try (apply words_mean_snoc).
  - by destruct k.
Qed.

Lemma parse_simple_complete ts a r i rest :
  before (ts ++ rest) i → Items ts a r → (length a < MAXARGS)%nat → follow [124; 41; 38; 59] rest →
  ends False (parse_simple line) i (λ c j, (i ≤ j)%nat ∧ parsed c (redirect (TEXEC a) r) ∧ before rest j).
Proof using Hline.
  intros Hb Hts Hlen Hf. destruct (Items_lead _ _ _ Hts) as (ts1 & r1 & ts2 & r2 & -> & -> & H1 & H2 & H3).
  rewrite <- (assoc_L (++)) in Hb.
  assert (starts (bytes_of "<>") (ts2 ++ rest) = false) as Hno2.
  { destruct H3 as [->|(w' & ts3 & ->)]; [|done]. eapply follow_starts; [exact Hf|by repeat constructor]. }
  eapply ends_bind; [by eapply redirs_complete; [..|constructor]|]. intros rs j (Hij & H4 & Hb1).
  eapply ends_bind; [eapply (exec_loop_complete ts2 a r2 _ []); [done..| |done|done|done]; by split; [constructor|]|].
  intros [argv rs'] j' (Hj & H5 & H6 & Hb2). unfold ends, ret. split; [lia|]. split; [by apply simple_parsed|done].
Qed.

(** The ampersands. *)
Lemma back_sound ts c i :
  before ts i →
  ends True (loop (back_step line) c) i (λ c' j, (i ≤ j)%nat ∧ ∃ n rest, ts = replicate n amp ++ rest ∧
    c' = Nat.iter n BACK c ∧ before rest j).
Proof using Hline.
  intros Hb.
  apply (ends_loop _ _ (λ c' j, (i ≤ j)%nat ∧ ∃ n rest, ts = replicate n amp ++ rest ∧
    c' = Nat.iter n BACK c ∧ before rest j) (λ j, es - j)%nat); [lia|split; [lia|by exists 0%nat, ts]|].
  clear Hb. intros c' j (Hij & n & rest & -> & -> & Hb).
  eapply ends_peek; [exact Hb|by repeat constructor|]. intros j1 Hb1 Hj1. destruct (starts (bytes_of "&") rest) eqn:Es.
  - destruct rest as [|[ch| |w] rest]; [done| |done..]. cbn -[bytes_of] in Es. rewrite in_str_spec in Es.
    apply bool_decide_eq_true, list_elem_of_singleton in Es as ->.
    eapply ends_token; [exact Hb1|]. intros w j2 Hb2 Hj2 _. unfold ends, ret. pose proof Hb2 as [Hle _].
    split; [|lia]. split; [lia|]. exists (S n), rest. split; [|done].
    rewrite replicate_S_end, <- (assoc_L (++)). done.
  - unfold ends, ret. split; [lia|]. by exists n, rest.
Qed.

Lemma back_complete n rest c i :
  before (replicate n amp ++ rest) i → starts (bytes_of "&") rest = false →
  ends False (loop (back_step line) c) i (λ c' j, (i ≤ j)%nat ∧ c' = Nat.iter n BACK c ∧ before rest j).
Proof using Hline.
  intros Hb Hno.
  apply (ends_loop _ _ (λ c' j, (i ≤ j)%nat ∧ ∃ m, Nat.iter m BACK c' = Nat.iter n BACK c ∧
    before (replicate m amp ++ rest) j) (λ j, es - j)%nat); [lia|split; [lia|by exists n]|].
  clear Hb. intros c' j (Hij & m & E & Hb).
  eapply ends_peek; [exact Hb|by repeat constructor|]. intros j1 Hb1 Hj1. destruct m as [|m].
  - cbn [replicate app]. rewrite Hno. unfold ends, ret. split; [lia|]. done.
  - change (starts _ _) with true. cbv iota.
    eapply ends_token; [exact Hb1|]. intros w j2 Hb2 Hj2 _. unfold ends, ret. pose proof Hb2 as [Hle _].
    split; [|lia]. split; [lia|]. exists m. split; [|done]. by rewrite <- Nat.iter_succ_r.
Qed.

Lemma parsed_iter n c a : parsed c a → parsed (Nat.iter n BACK c) (Nat.iter n TBACK a).
Proof. intros Hp. induction n as [|n [H1 H2]]; [done|]. split; [exact H1|exact (f_equal TBACK H2)]. Qed.

Lemma parsed_pair c a c' a' : parsed c a → parsed c' a' → parsed (PIPE c c') (TPIPE a a') ∧ parsed (LIST c c') (TLIST a a').
Proof. intros [H1 <-] [H2 <-]. by split; (split; [by apply Forall_app_2|]). Qed.

(** Every result of the parser is one of the grammar. *)
Definition sound (G : list token → tcmd → Prop) (p : M nat cmd) (i : nat) : Prop :=
  ∀ ts, before ts i →
  ends True p i (λ c j, (i ≤ j)%nat ∧ ∃ ts1 rest a, ts = ts1 ++ rest ∧ G ts1 a ∧ parsed c a ∧ before rest j).

Lemma first_sym s c rest : starts [s] rest = true → s ≠ 62 → c = s → ∃ rest', rest = Sym c :: rest'.
Proof.
  intros Hs Hne ->. destruct rest as [|[c'| |w] rest]; cbn in Hs; try done.
  - rewrite in_str_spec in Hs. apply bool_decide_eq_true, list_elem_of_singleton in Hs as ->. by exists rest.
  - rewrite in_str_spec in Hs. apply bool_decide_eq_true, list_elem_of_singleton in Hs. by subst.
Qed.

Lemma parse_sound f :
  (∀ i, (4 * (es - i) + 3 < f)%nat → sound Line (parseline line f) i) ∧
  (∀ i, (4 * (es - i) + 2 < f)%nat → sound Pipe (parsepipe line f) i) ∧
  (∀ i, (4 * (es - i) + 1 < f)%nat → sound Exec (parseexec line f) i) ∧
  (∀ i, (4 * (es - i) < f)%nat → sound Exec (parseblock line f) i).
Proof using Hline.
  induction f as [|f (IHl & IHp & IHe & IHb)]; [split_and!; lia|].
  split; [|split; [|split]]; intros i Hf ts Hb.
  - eapply ends_bind; [apply IHp; [lia|exact Hb]|]. intros c j1 (Hj1 & ts1 & rest1 & a & -> & H1 & H2 & Hb1).
    eapply ends_bind; [by eapply back_sound|]. intros c' j2 (Hj2 & n & rest2 & -> & -> & Hb2).
    eapply ends_peek; [exact Hb2|by repeat constructor|]. intros j3 Hb3 Hj3.
    pose proof (parsed_iter n _ _ H2) as H3. destruct (starts (bytes_of ";") rest2) eqn:Es.
    + destruct (first_sym _ _ _ Es ltac:(done) eq_refl) as [rest3 ->].
      eapply ends_token; [exact Hb3|]. intros w j4 Hb4 Hj4 _. pose proof Hb4 as [Hle _].
      eapply ends_bind; [apply IHl; [lia|exact Hb4]|]. intros c2 j5 (Hj5 & ts2 & rest4 & a2 & -> & H4 & H5 & Hb5).
      unfold ends, ret. split; [lia|]. exists (ts1 ++ replicate n amp ++ semi :: ts2), rest4, (TLIST (Nat.iter n TBACK a) a2).
      split; [by rewrite <- !(assoc_L (++))|]. split; [by constructor|]. split; [by apply parsed_pair|done].
    + unfold ends, ret. split; [lia|]. exists (ts1 ++ replicate n amp), rest2, (Nat.iter n TBACK a).
      split; [by rewrite <- (assoc_L (++))|]. split; [by constructor|done].
  - eapply ends_bind; [apply IHe; [lia|exact Hb]|]. intros c j1 (Hj1 & ts1 & rest1 & a & -> & H1 & H2 & Hb1).
    eapply ends_peek; [exact Hb1|by repeat constructor|]. intros j3 Hb3 Hj3.
    destruct (starts (bytes_of "|") rest1) eqn:Es.
    + destruct (first_sym _ _ _ Es ltac:(done) eq_refl) as [rest3 ->].
      eapply ends_token; [exact Hb3|]. intros w j4 Hb4 Hj4 _. pose proof Hb4 as [Hle _].
      eapply ends_bind; [apply IHp; [lia|exact Hb4]|]. intros c2 j5 (Hj5 & ts2 & rest4 & a2 & -> & H4 & H5 & Hb5).
      unfold ends, ret. split; [lia|]. exists (ts1 ++ bar :: ts2), rest4, (TPIPE a a2).
      split; [by rewrite <- (assoc_L (++))|]. split; [by constructor|]. split; [by apply parsed_pair|done].
    + unfold ends, ret. split; [lia|]. exists ts1, rest1, a. split; [done|]. by split; [constructor|].
  - eapply ends_peek; [exact Hb|by repeat constructor|]. intros j1 Hb1 Hj1.
    destruct (starts (bytes_of "(") ts); (eapply ends_mono; [first [by apply IHb; [lia|]|by apply parse_simple_sound]|]).
    all: intros c j (Hj & Hex); (split; [lia|exact Hex]).
  - eapply ends_peek; [exact Hb|by repeat constructor|]. intros j1 Hb1 Hj1.
    destruct (starts (bytes_of "(") ts) eqn:Es; [|done]. cbn [negb].
    destruct (first_sym _ _ _ Es ltac:(done) eq_refl) as [rest3 ->].
    eapply ends_token; [exact Hb1|]. intros w j4 Hb4 Hj4 _. pose proof Hb4 as [Hle _].
    eapply ends_bind; [apply IHl; [lia|exact Hb4]|]. intros c2 j5 (Hj5 & ts2 & rest4 & a2 & -> & H4 & H5 & Hb5).
    eapply ends_peek; [exact Hb5|by repeat constructor|]. intros j6 Hb6 Hj6.
    destruct (starts (bytes_of ")") rest4) eqn:Es'; [|done]. cbn [negb].
    destruct (first_sym _ _ _ Es' ltac:(done) eq_refl) as [rest5 ->].
    eapply ends_token; [exact Hb6|]. intros w' j7 Hb7 Hj7 _.
    eapply ends_bind; [by eapply redirs_sound; [|constructor]|].
    intros rs j8 (Hj8 & ts3 & rest6 & r & -> & H6 & H7 & Hb8 & _). unfold ends, ret. split; [lia|].
    exists (lpar :: ts2 ++ rpar :: ts3), rest6, (redirect a2 r). split; [by cbn; rewrite <- (assoc_L (++))|].
    split; [by constructor|]. split; [by apply parsed_redirs|done].
Qed.

(** The parser accepts the grammar. *)
Definition complete (G : list token → tcmd → Prop) (cs : list Z) (p : M nat cmd) (i : nat) : Prop :=
  ∀ ts rest a, G ts a → before (ts ++ rest) i → follow cs rest →
  ends False p i (λ c j, (i ≤ j)%nat ∧ parsed c a ∧ before rest j).

(** The commands of [parseblock]. *)
Inductive Block : list token → tcmd → Prop :=
| Block_intro ts c ts' rs : Line ts c → Redirs ts' rs → Block (lpar :: ts ++ rpar :: ts') (redirect c rs).

Lemma Items_no_paren ts a r rest :
  Items ts a r → follow [124; 41; 38; 59] rest → starts (bytes_of "(") (ts ++ rest) = false.
Proof.
  intros Hts Hf. destruct Hts as [|x ts a r _|k f ts a r _]; [|done|by destruct k].
  eapply follow_starts; [exact Hf|by repeat constructor].
Qed.

Lemma block_complete f i :
  (∀ i, (4 * (es - i) + 3 < f)%nat → complete Line [41] (parseline line f) i) →
  (4 * (es - i) < S f)%nat → complete Block [124; 41; 38; 59] (parseblock line (S f)) i.
Proof using Hline.
  intros IHl Hf ts0 rest a0 [ts c ts' rs HG Hr] Hb Hrest.
  replace ((lpar :: ts ++ rpar :: ts') ++ rest) with (lpar :: ts ++ rpar :: ts' ++ rest) in Hb
    by (cbn; by rewrite <- (assoc_L (++))).
  eapply ends_peek; [exact Hb|by repeat constructor|]. intros j1 Hb1 Hj1. change (starts _ _) with true. cbn [negb].
  eapply ends_token; [exact Hb1|]. intros w j2 Hb2 Hj2 _. pose proof Hb2 as [Hle _].
  eapply ends_bind; [apply (IHl j2 ltac:(lia) ts (rpar :: ts' ++ rest) c); [exact HG|exact Hb2|by left]|]. intros c2 j3 (Hj3 & H1 & Hb3).
  eapply ends_peek; [exact Hb3|by repeat constructor|]. intros j4 Hb4 Hj4. change (starts _ _) with true. cbn [negb].
  eapply ends_token; [exact Hb4|]. intros w' j5 Hb5 Hj5 _.
  eapply ends_bind; [eapply redirs_complete; [exact Hb5|exact Hr| |constructor]|].
  { eapply follow_starts; [exact Hrest|by repeat constructor]. }
  intros rs' j6 (Hj6 & H2 & Hb6). unfold ends, ret. split; [lia|]. split; [by apply parsed_redirs|done].
Qed.

Lemma exec_complete f i :
  (∀ i, (4 * (es - i) < f)%nat → complete Block [124; 41; 38; 59] (parseblock line f) i) →
  (4 * (es - i) + 1 < S f)%nat → complete Exec [124; 41; 38; 59] (parseexec line (S f)) i.
Proof using Hline.
  intros IHb Hf ts rest a HG Hb Hrest. eapply ends_peek; [exact Hb|by repeat constructor|]. intros j1 Hb1 Hj1.
  destruct HG as [ts a r Hts Hlen|ts c ts' rs HG Hr].
  - rewrite (Items_no_paren _ _ _ _ Hts Hrest). eapply ends_mono; [by eapply parse_simple_complete|].
    intros c j (Hj & Hex). split; [lia|exact Hex].
  - change (starts _ _) with true. cbv iota. eapply ends_mono.
    { apply (IHb j1 ltac:(lia) (lpar :: ts ++ rpar :: ts') rest (redirect c rs)); [|exact Hb1|exact Hrest]. by constructor. }
    intros c' j (Hj & Hex). split; [lia|exact Hex].
Qed.

Lemma pipe_complete f i :
  (∀ i, (4 * (es - i) + 2 < f)%nat → complete Pipe [41; 38; 59] (parsepipe line f) i) →
  (∀ i, (4 * (es - i) + 1 < f)%nat → complete Exec [124; 41; 38; 59] (parseexec line f) i) →
  (4 * (es - i) + 2 < S f)%nat → complete Pipe [41; 38; 59] (parsepipe line (S f)) i.
Proof.
  intros IHp IHe Hf ts rest a HG Hb Hrest. destruct HG as [ts c HG|ts c ts' c' HG HG'].
  - eapply ends_bind; [apply (IHe i ltac:(lia) ts rest c); [exact HG|exact Hb|eapply follow_mono; [exact Hrest|set_solver]]|].
    intros c1 j1 (Hj1 & H1 & Hb1). eapply ends_peek; [exact Hb1|by repeat constructor|]. intros j2 Hb2 Hj2.
    rewrite (follow_starts _ _ _ Hrest) by (by repeat constructor). unfold ends, ret. by split; [lia|].
  - rewrite <- (assoc_L (++)) in Hb. cbn [app] in Hb.
    eapply ends_bind; [apply (IHe i ltac:(lia) ts (bar :: ts' ++ rest) c); [exact HG|exact Hb|by left]|].
    intros c1 j1 (Hj1 & H1 & Hb1). eapply ends_peek; [exact Hb1|by repeat constructor|]. intros j2 Hb2 Hj2.
    change (starts _ _) with true. cbv iota. eapply ends_token; [exact Hb2|]. intros w j3 Hb3 Hj3 _.
    pose proof Hb3 as [Hle _]. eapply ends_bind; [apply (IHp j3 ltac:(lia) ts' rest c'); [exact HG'|exact Hb3|exact Hrest]|].
    intros c2 j4 (Hj4 & H2 & Hb4). unfold ends, ret. split; [lia|]. split; [by apply parsed_pair|done].
Qed.

Lemma follow_amps n rest cs : follow cs rest → 38 ∈ cs → follow cs (replicate n amp ++ rest).
Proof. by destruct n. Qed.

Lemma line_complete f i :
  (∀ i, (4 * (es - i) + 3 < f)%nat → complete Line [41] (parseline line f) i) →
  (∀ i, (4 * (es - i) + 2 < f)%nat → complete Pipe [41; 38; 59] (parsepipe line f) i) →
  (4 * (es - i) + 3 < S f)%nat → complete Line [41] (parseline line (S f)) i.
Proof using Hline.
  intros IHl IHp Hf ts rest a HG Hb Hrest. destruct HG as [ts c n HG|ts c n ts' c' HG HG'].
  - rewrite <- (assoc_L (++)) in Hb.
    eapply ends_bind; [apply (IHp i ltac:(lia) ts (replicate n amp ++ rest) c); [exact HG|exact Hb|]|].
    { apply follow_amps; [eapply follow_mono; [exact Hrest|]|]; set_solver. }
    intros c1 j1 (Hj1 & H1 & Hb1). eapply ends_bind.
    { eapply back_complete; [exact Hb1|]. eapply follow_starts; [exact Hrest|by repeat constructor]. }
    intros c2 j2 (Hj2 & -> & Hb2). eapply ends_peek; [exact Hb2|by repeat constructor|]. intros j3 Hb3 Hj3.
    rewrite (follow_starts _ _ _ Hrest) by (by repeat constructor). unfold ends, ret.
    split; [lia|]. split; [by apply parsed_iter|done].
  - rewrite <- !(assoc_L (++)) in Hb. cbn [app] in Hb.
    eapply ends_bind; [apply (IHp i ltac:(lia) ts (replicate n amp ++ semi :: ts' ++ rest) c); [exact HG|exact Hb|]|].
    { apply follow_amps; [|set_solver]. cbn. set_solver. }
    intros c1 j1 (Hj1 & H1 & Hb1). eapply ends_bind; [by eapply back_complete|].
    intros c2 j2 (Hj2 & -> & Hb2). eapply ends_peek; [exact Hb2|by repeat constructor|]. intros j3 Hb3 Hj3.
    change (starts _ _) with true. cbv iota. eapply ends_token; [exact Hb3|]. intros w j4 Hb4 Hj4 _.
    pose proof Hb4 as [Hle _]. eapply ends_bind; [apply (IHl j4 ltac:(lia) ts' rest c'); [exact HG'|exact Hb4|exact Hrest]|].
    intros c3 j5 (Hj5 & H2 & Hb5). unfold ends, ret. split; [lia|]. split; [|done].
    apply parsed_pair; [by apply parsed_iter|done].
Qed.

Lemma parse_complete f :
  (∀ i, (4 * (es - i) + 3 < f)%nat → complete Line [41] (parseline line f) i) ∧
  (∀ i, (4 * (es - i) + 2 < f)%nat → complete Pipe [41; 38; 59] (parsepipe line f) i) ∧
  (∀ i, (4 * (es - i) + 1 < f)%nat → complete Exec [124; 41; 38; 59] (parseexec line f) i) ∧
  (∀ i, (4 * (es - i) < f)%nat → complete Block [124; 41; 38; 59] (parseblock line f) i).
Proof using Hline.
  induction f as [|f (IHl & IHp & IHe & IHb)]; [split_and!; lia|].
  split; [|split; [|split]]; intros i Hf.
  - by apply line_complete.
  - by apply pipe_complete.
  - by apply exec_complete.
  - by apply block_complete.
Qed.

End parser.

(** ** The parser as a whole *)

Lemma parsecmd_accepts line ts a :
  Z.of_nat (length line) < 2 ^ 64 → spells ts line → Line ts a →
  ∃ c j, parsecmd line = Ret (inr (c, nulterminate c (line ++ [0]))) j ∧ parsed line c a.
Proof.
  intros Hl Hs Ha. assert (before line (ts ++ []) 0) as Hb by (rewrite app_nil_r; split; [lia|done]).
  pose proof (proj1 (parse_complete line Hl (parse_fuel line)) 0%nat ltac:(unfold es, parse_fuel; lia)
    ts [] a Ha Hb I) as He.
  unfold ends in He. unfold parsecmd, bind. destruct (parseline line _ _) as [c j| | |]; [|done..].
  destruct He as (_ & Hp & Hj). cbn [obind]. destruct (spells_skip line [] j (proj1 Hj) (proj2 Hj)) as [_ E].
  unfold peek. rewrite E. cbn [obind]. unfold gets. cbn [obind id]. rewrite Nat.eqb_refl. cbn [negb].
  by exists c, (es line).
Qed.

Lemma parsecmd_builds line ts c buf j :
  Z.of_nat (length line) < 2 ^ 64 → spells ts line → parsecmd line = Ret (inr (c, buf)) j →
  buf = nulterminate c (line ++ [0]) ∧ ∃ a, Line ts a ∧ parsed line c a.
Proof.
  intros Hl Hs. assert (before line ts 0) as Hb by (split; [lia|done]).
  pose proof (proj1 (parse_sound line Hl (parse_fuel line)) 0%nat ltac:(unfold es, parse_fuel; lia) ts Hb) as He.
  unfold ends in He. unfold parsecmd, bind. destruct (parseline line _ _) as [c1 j1| | |]; [|done..].
  destruct He as (_ & ts1 & rest & a & -> & Ha & Hp & Hj). cbn [obind].
  destruct (spells_skip line rest j1 (proj1 Hj) (proj2 Hj)) as [Hr Hm].
  unfold peek, gets. cbn [obind id]. destruct (Nat.eqb_spec (skip_white line j1) (es line)) as [E|E]; [|done].
  cbn [negb]. intros Eq. inversion Eq; subst. split; [done|]. exists a. destruct rest as [|t rest]; [by rewrite app_nil_r|].
  exfalso. destruct Hm as (l & E2 & Ht & _). destruct (token_first t Ht) as (c2 & l2 & E3 & _).
  rewrite E, E3 in E2. unfold es in E2. by rewrite drop_all in E2.
Qed.

(** C18: The parser of the shell implements the grammar: on a
    line that spells the tokens [ts] it returns a command tree exactly when the
    grammar derives a command from [ts], and the tree, with the words read from
    the buffer it has put the NULs into, is that command; on every other line
    it reports an error.  In particular [&], [;], [|], redirections and
    parentheses bind as the grammar says, and no more than 9 words. *)
Theorem parsecmd_grammar line ts a :
  Z.of_nat (length line) < 2 ^ 64 → spells ts line →
  Line ts a ↔ ∃ c buf j, parsecmd line = Ret (inr (c, buf)) j ∧ texts (word_at buf) c = a.
Proof.
  intros Hl Hs. split.
  - intros Ha. destruct (parsecmd_accepts line ts a Hl Hs Ha) as (c & j & E & Hr & Ht).
    exists c, (nulterminate c (line ++ [0])), j. split; [done|]. by rewrite texts_word_at.
  - intros (c & buf & j & E & <-). destruct (parsecmd_builds line ts c buf j Hl Hs E) as (-> & a & Ha & Hr & Ht).
    by rewrite texts_word_at, Ht.
Qed.

(** Every line without a NUL spells tokens. *)
Lemma spells_blank ts c l : in_str whitespace c = true → spells ts l → spells ts (c :: l).
Proof.
  intros Hc Hs. destruct Hs as [g Hg|g t ts l Hg Ht Ha Hs]; [apply spells_end; by constructor|].
  apply (spells_token (c :: g)); [by constructor|done..].
Qed.

Lemma word_split (l : text) :
  0 ∉ l → ∃ w l', l = w ++ l' ∧ Forall (λ c, word_char c = true) w ∧ apart (Word w) l'.
Proof.
  induction l as [|c l IH]; intros H0; [by exists [], []|]. destruct (delim c) eqn:Ed.
  - exists [], (c :: l). by split_and!.
  - destruct IH as (w & l' & -> & Hw & Ha); [set_solver|]. exists (c :: w), l'. split; [done|]. split; [|by destruct l'].
    constructor; [|done]. unfold word_char. rewrite Ed. destruct (Z.eqb_spec c 0); [|done]. set_solver.
Qed.

Lemma spells_total l : 0 ∉ l → ∃ ts, spells ts l.
Proof.
  remember (length l) as n eqn:En. revert l En. induction (lt_wf n) as [n _ IH]. intros l -> H0.
  destruct l as [|c l]; [exists []; by repeat constructor|].
  assert (∀ l', (length l' < length (c :: l))%nat → 0 ∉ l' → ∃ ts, spells ts l') as IH' by (intros; by eapply IH).
  destruct (delim c) eqn:Ed.
  - destruct (IH' l ltac:(cbn; lia)) as [ts Hts]; [set_solver|]. unfold delim in Ed.
    destruct (in_str whitespace c) eqn:Ew; [exists ts; by apply spells_blank|].
    destruct (decide (c = 62 ∧ head l = Some 62)) as [[-> Eh]|Hno].
    + destruct l as [|c2 l]; [done|]. inversion Eh; subst c2. destruct (IH' l ltac:(cbn; lia)) as [ts' Hts']; [set_solver|].
      exists (App :: ts'). by apply (spells_token [] App ts' l); [constructor|..].
    + exists (Sym c :: ts). apply (spells_token [] (Sym c) ts l); [constructor|done| |done].
      destruct l as [|c2 l]; [done|]. cbn. intros -> ->. by apply Hno.
  - destruct (word_split (c :: l) H0) as (w & l' & E & Hw & Ha). destruct w as [|c2 w].
    + cbn in E. subst l'. cbn in Ha. by rewrite Ha in Ed.
    + destruct (IH' l') as [ts Hts]; [rewrite E; cbn; rewrite length_app; lia|rewrite E in H0; set_solver|].
      exists (Word (c2 :: w) :: ts). rewrite E. by apply (spells_token [] (Word (c2 :: w)) ts l'); [constructor|..].
Qed.

(** The line [a| b&]. *)
Lemma parsecmd_grammar_witness :
  (Line [Word [97]; bar; Word [98]; amp] (TBACK (TPIPE (TEXEC [[97]]) (TEXEC [[98]]))) ↔
     ∃ c buf j, parsecmd [97; 124; 32; 98; 38] = Ret (inr (c, buf)) j ∧
       texts (word_at buf) c = TBACK (TPIPE (TEXEC [[97]]) (TEXEC [[98]]))) ∧
  texts (word_at [97; 0; 32; 98; 0; 0]) (BACK (PIPE (EXEC [(0, 1)%nat]) (EXEC [(3, 4)%nat]))) =
    TBACK (TPIPE (TEXEC [[97]]) (TEXEC [[98]])).
Proof.
  split; [|reflexivity]. apply parsecmd_grammar; [reflexivity|].
  apply (spells_token [] (Word [97]) _ [124; 32; 98; 38]); [constructor|by repeat constructor|done|].
  apply (spells_token [] bar _ [32; 98; 38]); [constructor|done|done|].
  apply (spells_token [32] (Word [98]) _ [38]); [by repeat constructor|by repeat constructor|done|].
  apply (spells_token [] amp _ []); [constructor|done|done|]. constructor. constructor.
Defined.

(** ** Printing commands *)

Definition kind_of (mode : Z) : rkind := if mode =? 0 then RIn else if mode =? 0x601 then ROut else RApp.

Definition paren (b : bool) (ts : list token) : list token := if b then lpar :: ts ++ [rpar] else ts.

(** The tokens of a command, where a command of the level [lvl] is expected:
    0 for [parseexec], 1 for [parsepipe], 3 for [parseline], 2 for what may
    stand before an ampersand. *)
Fixpoint print (lvl : nat) (c : tcmd) : list token :=
  match c with
  | TEXEC argv => Word <$> argv
  | TREDIR c f mode _ => print 0 c ++ [rtoken (kind_of mode); Word f]
  | TPIPE l r => paren (lvl <? 1)%nat (print 0 l ++ bar :: print 1 r)
  | TBACK c => paren (lvl <? 2)%nat (print 2 c ++ [amp])
  | TLIST l r => paren (lvl <? 3)%nat (print 2 l ++ semi :: print 3 r)
  end.

(** One space after each token. *)
Definition render (ts : list token) : text := concat ((λ t, spelling t ++ [32]) <$> ts).

Definition word_ok (w : text) : Prop := w ≠ [] ∧ Forall (λ c, word_char c = true) w.

(** The commands that can be written. *)
Fixpoint writable (c : tcmd) : Prop :=
  match c with
  | TEXEC argv => Forall word_ok argv ∧ (length argv < MAXARGS)%nat
  | TREDIR c f mode fd => writable c ∧ word_ok f ∧ mode = rmode (kind_of mode) ∧ fd = rfd (kind_of mode)
  | TPIPE l r | TLIST l r => writable l ∧ writable r
  | TBACK c => writable c
  end.

Lemma Exec_redir ts c k f : Exec ts c → Exec (ts ++ [rtoken k; Word f]) (TREDIR c f (rmode k) (rfd k)).
Proof.
  assert (∀ c rs, TREDIR (redirect c rs) f (rmode k) (rfd k) = redirect c (rs ++ [(k, f)])) as Er
    by (intros; unfold redirect; by rewrite foldl_app).
  destruct 1 as [ts argv rs Hi Hl|ts c ts' rs Hl Hr]; rewrite Er.
  - constructor; [|done]. rewrite <- (app_nil_r argv). apply Items_app; [done|by repeat constructor].
  - rewrite <- app_comm_cons, <- (assoc_L (++)). cbn [app]. apply (Exec_block ts c (ts' ++ [rtoken k; Word f])); [done|].
    apply Redirs_app; [done|by repeat constructor].
Qed.

Definition Back (ts : list token) (c : tcmd) : Prop :=
  ∃ ts' c' n, Pipe ts' c' ∧ ts = ts' ++ replicate n amp ∧ c = Nat.iter n TBACK c'.

Lemma Back_pipe ts c : Pipe ts c → Back ts c.
Proof. intros Hp. exists ts, c, 0%nat. by rewrite app_nil_r. Qed.

Lemma Back_line ts c : Back ts c → Line ts c.
Proof. intros (ts' & c' & n & Hp & -> & ->). by constructor. Qed.

Lemma Back_amp ts c : Back ts c → Back (ts ++ [amp]) (TBACK c).
Proof.
  intros (ts' & c' & n & Hp & -> & ->). exists ts', c', (S n). split; [done|]. split; [|done].
  by rewrite replicate_S_end, (assoc_L (++)).
Qed.

Lemma Back_list ts c ts' c' : Back ts c → Line ts' c' → Line (ts ++ semi :: ts') (TLIST c c').
Proof. intros (ts1 & c1 & n & Hp & -> & ->) Hl. rewrite <- (assoc_L (++)). by constructor. Qed.

Lemma Line_paren ts c : Line ts c → Exec (lpar :: ts ++ [rpar]) c.
Proof. intros Hl. apply (Exec_block ts c [] []); [done|constructor]. Qed.

Lemma Exec_up ts c : Exec ts c → Exec ts c ∧ Pipe ts c ∧ Back ts c ∧ Line ts c.
Proof. intros He. pose proof (Back_pipe _ _ (Pipe_exec _ _ He)). by auto using Pipe_exec, Back_line. Qed.

(** The printed command is in the language, at every level. *)
Lemma print_derives c :
  writable c → Exec (print 0 c) c ∧ Pipe (print 1 c) c ∧ Back (print 2 c) c ∧ Line (print 3 c) c.
Proof.
  induction c as [argv|c IH f mode fd|l IHl r IHr|l IHl r IHr|c IH]; cbn [writable].
  - intros [_ Hlen]. apply Exec_up, (Exec_items _ argv []); [|done]. clear Hlen. cbn [print].
    induction argv; by constructor.
  - intros (Hc & _ & Hm & Hfd). apply Exec_up. rewrite Hm, Hfd at 2. apply Exec_redir. by apply IH.
  - intros [Hl Hr]. destruct (IHl Hl) as (El & _), (IHr Hr) as (_ & Pr & _).
    pose proof (Pipe_pipe _ _ _ _ El Pr) as Hp. pose proof (Back_pipe _ _ Hp) as Hb.
    cbn. by auto using Line_paren, Back_line.
  - intros [Hl Hr]. destruct (IHl Hl) as (_ & _ & Bl & _), (IHr Hr) as (_ & _ & _ & Lr).
    pose proof (Back_list _ _ _ _ Bl Lr) as Hl2. pose proof (Line_paren _ _ Hl2) as He.
    destruct (Exec_up _ _ He) as (_ & Hp & Hb & _). done.
  - intros Hc. destruct (IH Hc) as (_ & _ & Bc & _). pose proof (Back_amp _ _ Bc) as Hb.
    pose proof (Line_paren _ _ (Back_line _ _ Hb)) as He. destruct (Exec_up _ _ He) as (_ & Hp & _).
    by auto using Back_line.
Qed.

Lemma print_tokens lvl c : writable c → Forall token_ok (print lvl c).
Proof.
  assert (∀ b ts, Forall token_ok ts → Forall token_ok (paren b ts)) as Hpar.
  { intros [] ts Hts; [|done]. constructor; [done|]. apply Forall_app_2; [done|]. by repeat constructor. }
  assert (∀ c ts ts', token_ok (Sym c) → Forall token_ok ts → Forall token_ok ts' → Forall token_ok (ts ++ Sym c :: ts')) as Hsep
    by (intros; apply Forall_app_2; [done|by constructor]).
  revert lvl. induction c as [argv|c IH f mode fd|l IHl r IHr|l IHl r IHr|c IH]; intros lvl; cbn [writable print].
  - intros [Hw _]. by apply Forall_fmap.
  - intros (Hc & Hf & _). apply Forall_app_2; [by apply IH|]. repeat constructor; [by destruct (kind_of mode)|apply Hf..].
  - intros [Hl Hr]. by apply Hpar, Hsep; auto.
  - intros [Hl Hr]. by apply Hpar, Hsep; auto.
  - intros Hc. by apply Hpar, Hsep; auto.
Qed.

Lemma render_spells ts : Forall token_ok ts → spells ts (render ts).
Proof.
  induction 1 as [|t ts Ht Hts IH]; [by repeat constructor|]. unfold render. cbn. rewrite <- (assoc_L (++)). cbn [app].
  apply (spells_token [] t ts (32 :: render ts)); [constructor|done|by destruct t|by apply spells_blank].
Qed.

(** C31: Printing and parsing are inverse: the text of a command
    tree, with parentheses only where the levels of the grammar ask for them, is
    parsed to that tree, whatever its words (of characters that may stand in
    words), redirections, pipes, lists and background marks, nested to any
    depth. *)
Theorem parse_print c :
  writable c → Z.of_nat (length (render (print 3 c))) < 2 ^ 64 →
  ∃ p buf j, parsecmd (render (print 3 c)) = Ret (inr (p, buf)) j ∧ texts (word_at buf) p = c.
Proof.
  intros Hw Hl. destruct (parsecmd_accepts _ (print 3 c) c Hl) as (p & j & E & Hr & Ht).
  - by apply render_spells, print_tokens.
  - by apply print_derives.
  - exists p, (nulterminate p (render (print 3 c) ++ [0])), j. split; [done|]. by rewrite texts_word_at.
Qed.

(** [( ls > f & ) | wc ; cat < f] *)
Definition sample_cmd : tcmd :=
  TLIST (TPIPE (TBACK (TREDIR (TEXEC [bytes_of "ls"]) (bytes_of "f") 0x601 1)) (TEXEC [bytes_of "wc"]))
        (TREDIR (TEXEC [bytes_of "cat"]) (bytes_of "f") 0 0).

Lemma parse_print_witness :
  ∃ p buf j, parsecmd (render (print 3 sample_cmd)) = Ret (inr (p, buf)) j ∧ texts (word_at buf) p = sample_cmd.
Proof. apply (parse_print sample_cmd); [|vm_compute; done]. vm_compute. repeat (constructor || lia || discriminate). Defined.

(** ** The trees the parser builds *)

Scheme Line_mut := Minimality for Line Sort Prop
with Pipe_mut := Minimality for Pipe Sort Prop
with Exec_mut := Minimality for Exec Sort Prop.
Combined Scheme grammar_mut from Line_mut, Pipe_mut, Exec_mut.

Lemma spells_tokens ts l : spells ts l → Forall token_ok ts.
Proof. induction 1; by constructor. Qed.

Lemma writable_redirect c rs : writable c → Forall (λ r, word_ok r.2) rs → writable (redirect c rs).
Proof.
  intros Hc Hrs. unfold redirect. revert c Hc. induction Hrs as [|[k f] rs Hf Hrs IH]; intros c Hc; cbn [foldl]; [done|].
  apply IH. cbn [writable]. by destruct k.
Qed.

Lemma Redirs_ok ts rs : Redirs ts rs → Forall token_ok ts → Forall (λ r, word_ok r.2) rs.
Proof.
  induction 1 as [|k f ts rs H IH]; intros Ht; [constructor|]. apply Forall_cons in Ht as [_ [Hf Ht]%Forall_cons]. constructor; [done|by apply IH].
Qed.

Lemma Items_ok ts argv rs : Items ts argv rs → Forall token_ok ts → Forall word_ok argv ∧ Forall (λ r, word_ok r.2) rs.
Proof.
  induction 1 as [|w ts argv rs H IH|k f ts argv rs H IH]; intros Ht; [done|apply Forall_cons in Ht as [Hw Ht]|
    apply Forall_cons in Ht as [_ [Hf Ht]%Forall_cons]]; destruct (IH Ht); split; try done; by constructor.
Qed.

Lemma writable_back n c : writable c → writable (Nat.iter n TBACK c).
Proof. intros Hc. induction n as [|n IH]; [done|]. exact IH. Qed.

Lemma grammar_writable :
  (∀ ts a, Line ts a → Forall token_ok ts → writable a) ∧ (∀ ts a, Pipe ts a → Forall token_ok ts → writable a) ∧
  (∀ ts a, Exec ts a → Forall token_ok ts → writable a).
Proof.
  apply grammar_mut.
  - intros ts c n _ IH [Ht _]%Forall_app. by apply writable_back, IH.
  - intros ts c n ts' c' _ IH _ IH' [Ht [_ [_ Ht']%Forall_cons]%Forall_app]%Forall_app. split; [by apply writable_back, IH|by apply IH'].
  - intros ts c _ IH Ht. by apply IH.
  - intros ts c ts' c' _ IH _ IH' [Ht [_ Ht']%Forall_cons]%Forall_app. split; [by apply IH|by apply IH'].
  - intros ts argv rs Hi Hl Ht. destruct (Items_ok ts argv rs Hi Ht). by apply writable_redirect.
  - intros ts c ts' rs _ IH Hr [_ [Ht [_ Ht']%Forall_cons]%Forall_app]%Forall_cons. apply writable_redirect; [by apply IH|by eapply Redirs_ok].
Qed.

(** C19: Every tree the shell's parser returns is well-formed,
    whatever the line: a command has fewer than MAXARGS words, each a non-empty
    text without white space and symbols, and a redirection has a file name and
    one of the three pairs of mode and descriptor, so that the tree can be
    printed and is parsed to itself again. *)
Theorem parsecmd_typed line c buf j :
  Z.of_nat (length line) < 2 ^ 64 → 0 ∉ line → parsecmd line = Ret (inr (c, buf)) j → writable (texts (word_at buf) c).
Proof.
  intros Hl H0 E. destruct (spells_total line H0) as [ts Hs]. destruct (parsecmd_builds line ts c buf j Hl Hs E) as (-> & a & Ha & Hr & Ht).
  rewrite texts_word_at by done. rewrite Ht. apply (proj1 grammar_writable ts a Ha). by eapply spells_tokens.
Qed.

Lemma parsecmd_typed_witness :
  ∃ c buf j, parsecmd [97; 124; 32; 98; 62; 99] = Ret (inr (c, buf)) j ∧ writable (texts (word_at buf) c).
Proof.
  destruct (parsecmd [97; 124; 32; 98; 62; 99]) as [[e|[c buf]] j| | |] eqn:E; try (vm_compute in E; discriminate).
  exists c, buf, j. split; [reflexivity|]. apply (parsecmd_typed [97; 124; 32; 98; 62; 99] c buf j); [reflexivity|by apply (bool_decide_unpack _)|exact E].
Defined.
