(* ===== verification/Programs.v ===== *)
(** * The small user programs

    user/echo.c, cat.c, wc.c, kill.c, ln.c, mkdir.c, rm.c, init.c, trace.c,
    zombie.c, ls.c and the [grep] of grep.c.  [argv] is the list of arguments,
    each without its NUL, so [argc] is its length. *)

From S2P Require Import Prelude Machine Memory Kstring State Block User Ulib Uprintf Grep.

(** A buffer after a call has stored [bs] at its start. *)
Definition fill (buf bs : list Z) : list Z := bs ++ drop (length bs) buf.

Definition CONSOLE : Z := 1.
Definition DIRSIZ_u : nat := 14.
Definition MAXARG_u : nat := 32.

Section programs.
Context {W : Type} `{UserOS W}.

(** ** echo *)

Fixpoint echo_args (args : list (list Z)) : U W unit :=
  match args with
  | [] => uret tt
  | a :: args' =>
      u_write 1 a ???
      u_write 1 (if args' is [] then [10] else [32]) ???
      echo_args args'
  end.

Definition echo_main (argv : list (list Z)) : U W unit :=
  echo_args (tail argv) ??? u_exit 0.

(** ** cat *)

(** The loop variable is [buf]; the answer is the last result of [read]. *)
Definition cat_step (fd : Z) (buf : list Z) : U W (list Z + Z) :=
  let? r := sys (Cread fd 512) in
  let n := r_val r in
  if n >? 0 then
    let buf := fill buf (r_bytes r) in
    let? k := u_write 1 (take (Z.to_nat n) buf) in
    if negb (k =? n) then fprintf 2 ("cat: write error" +:+ nl) [] ??? u_exit 1
    else uret (inl buf)
  else uret (inr n).

Definition cat (fd : Z) : U W unit :=
  let? n := uloop (cat_step fd) (replicate 512 0) in
  if n <? 0 then fprintf 2 ("cat: read error" +:+ nl) [] ??? u_exit 1
  else uret tt.

(** [for(i = 1; i < argc; i++)] of cat, wc and grep. *)
Definition each_file (files : list (list Z)) (fail : list Z → U W unit) (run : Z → list Z → U W unit)
    : U W unit :=
  ufor files (λ a,
    let? fd := sysv (Copen a 0) in
    if fd <? 0 then fail a ??? u_exit 1 else
    run fd a ???
    sysv (Cclose fd) ???
    uret tt).

Definition cat_main (argv : list (list Z)) : U W unit :=
  if (length argv <=? 1)%nat then cat 0 ??? u_exit 0 else
  each_file (tail argv) (λ a, fprintf 2 ("cat: cannot open %s" +:+ nl) [UStr (Some a)]) (λ fd _, cat fd) ???
  u_exit 0.

(** ** wc *)

Definition wc_blank : list Z := Eval compute in [32; 13; 9; 10; 11].

Record counts : Type := mk_counts { wc_l : Z; wc_w : Z; wc_c : Z; wc_inword : bool }.

(** The body of the loop over the buffer. *)
Definition wc_char (k : counts) (b : Z) : counts :=
  let c := s32 (wc_c k + 1) in
  let l := if b =? 10 then s32 (wc_l k + 1) else wc_l k in
  if str_chr wc_blank b is Some _ then mk_counts l (wc_w k) c false
  else if negb (wc_inword k) then mk_counts l (s32 (wc_w k + 1)) c true
  else mk_counts l (wc_w k) c (wc_inword k).

Definition wc_step (fd : Z) (st : list Z * counts) : U W (list Z * counts + counts * Z) :=
  let '(buf, k) := st in
  let? r := sys (Cread fd 512) in
  let n := r_val r in
  if n >? 0 then
    let buf := fill buf (r_bytes r) in
    uret (inl (buf, foldl wc_char k (take (Z.to_nat n) buf)))
  else uret (inr (k, n)).

Definition wc (fd : Z) (name : list Z) : U W unit :=
  let? '(k, n) := uloop (wc_step fd) (replicate 512 0, mk_counts 0 0 0 false) in
  if n <? 0 then printf ("wc: read error" +:+ nl) [] ??? u_exit 1
  else printf ("%d %d %d %s" +:+ nl) [UInt (wc_l k); UInt (wc_w k); UInt (wc_c k); UStr (Some name)].

Definition wc_main (argv : list (list Z)) : U W unit :=
  if (length argv <=? 1)%nat then wc 0 [] ??? u_exit 0 else
  each_file (tail argv) (λ a, printf ("wc: cannot open %s" +:+ nl) [UStr (Some a)]) wc ???
  u_exit 0.

(** ** kill, ln, mkdir, rm *)

Definition kill_main (argv : list (list Z)) : U W unit :=
  if (length argv <? 2)%nat then fprintf 2 ("usage: kill pid..." +:+ nl) [] ??? u_exit 1 else
  ufor (tail argv) (λ a, sysv (Ckill (atoi a)) ??? uret tt) ???
  u_exit 0.

Definition ln_main (argv : list (list Z)) : U W unit :=
  match argv with
  | [_; a1; a2] =>
      let? r := sysv (Clink a1 a2) in
      (if r <? 0 then fprintf 2 ("link %s %s: failed" +:+ nl) [UStr (Some a1); UStr (Some a2)] else uret tt) ???
      u_exit 0
  | _ => fprintf 2 ("Usage: ln old new" +:+ nl) [] ??? u_exit 1
  end.

(** The loops of mkdir and rm stop at the first failure. *)
Fixpoint until_fails (op : list Z → call) (msg : string) (args : list (list Z)) : U W unit :=
  match args with
  | [] => uret tt
  | a :: args' =>
      let? r := sysv (op a) in
      if r <? 0 then fprintf 2 msg [UStr (Some a)] else until_fails op msg args'
  end.

Definition mkdir_main (argv : list (list Z)) : U W unit :=
  if (length argv <? 2)%nat then fprintf 2 ("Usage: mkdir files..." +:+ nl) [] ??? u_exit 1 else
  until_fails Cmkdir ("mkdir: %s failed to create" +:+ nl) (tail argv) ???
  u_exit 0.

Definition rm_main (argv : list (list Z)) : U W unit :=
  if (length argv <? 2)%nat then fprintf 2 ("Usage: rm files..." +:+ nl) [] ??? u_exit 1 else
  until_fails Cunlink ("rm: %s failed to delete" +:+ nl) (tail argv) ???
  u_exit 0.

(** ** grep *)

(** The loop over the complete lines in the buffer: the variable is what is
    left of it from [p] on.  [strchr] stops at a NUL byte of the input. *)
Definition grep_line (pattern rest : list Z) : U W (list Z + list Z) :=
  match str_chr (until_nul rest) 10 with
  | Some i =>
      (if match_ pattern (take i rest) then u_write 1 (take (S i) rest) ??? uret tt else uret tt) ???
      uret (inl (drop (S i) rest))
  | None => uret (inr rest)
  end.

(** The variable is the [m] bytes in [buf]. *)
Definition grep_step (pattern : list Z) (fd : Z) (buf : list Z) : U W (list Z + unit) :=
  let? r := sys (Cread fd (1024 - Z.of_nat (length buf) - 1)) in
  let n := r_val r in
  if n >? 0 then
    let? rest := uloop (grep_line pattern) (buf ++ take (Z.to_nat n) (r_bytes r)) in
    uret (inl rest)
  else uret (inr tt).

Definition grep (pattern : list Z) (fd : Z) : U W unit := uloop (grep_step pattern fd) [].

Definition grep_main (argv : list (list Z)) : U W unit :=
  match argv with
  | _ :: pattern :: files =>
      match files with
      | [] => grep pattern 0 ??? u_exit 0
      | _ =>
          each_file files (λ a, printf ("grep: cannot open %s" +:+ nl) [UStr (Some a)])
            (λ fd _, grep pattern fd) ???
          u_exit 0
      end
  | _ => fprintf 2 ("usage: grep pattern [file ...]" +:+ nl) [] ??? u_exit 1
  end.

(** ** zombie, trace, init *)

Definition zombie_main : U W unit :=
  let? pid := sysv Cfork in
  (if pid >? 0 then sysv (Csleep 5) ??? uret tt else uret tt) ???
  u_exit 0.

(** The strings [exec] finds in an array of pointers: up to a null pointer.
    Without one in the array it reads past its end. *)
Fixpoint exec_argv (argv : list (option (list Z))) : option (list (list Z)) :=
  match argv with
  | [] => None
  | None :: _ => Some []
  | Some a :: argv' => (a ::.) <$> exec_argv argv'
  end.

(** [junk] is what the stack holds where [nargv] is: the program fills its
    first entries and does not initialise the others. *)
Definition trace_main (junk : list (option (list Z))) (argv : list (list Z)) : U W unit :=
  let a0 := argv !!! 0%nat in
  let a1 := argv !!! 1%nat in
  if (length argv <? 3)%nat || (hd 0 a1 <? 48) || (hd 0 a1 >? 57) then
    fprintf 2 ("Usage: %s mask command" +:+ nl) [UStr (Some a0)] ??? u_exit 1
  else
  let? r := sysv (Ctrace (atoi a1)) in
  if r <? 0 then fprintf 2 ("%s: trace failed" +:+ nl) [UStr (Some a0)] ??? u_exit 1 else
  let args := Some <$> drop 2 (take MAXARG_u argv) in
  let nargv := args ++ drop (length args) junk in
  match exec_argv nargv with
  | None => λ _, UFault
  | Some args => sysv (Cexec (hd [] args) args) ??? u_exit 0
  end.

(** [for(;;)] around [wait]. *)
Definition init_wait (pid : Z) (_ : unit) : U W (unit + unit) :=
  let? wpid := sysv Cwait in
  if wpid =? pid then uret (inr tt)
  else if wpid <? 0 then printf ("init: wait returned an error" +:+ nl) [] ??? u_exit 1
  else uret (inl tt).

Definition init_turn (_ : unit) : U W (unit + unit) :=
  printf ("init: starting sh" +:+ nl) [] ???
  let? pid := sysv Cfork in
  if pid <? 0 then printf ("init: fork failed" +:+ nl) [] ??? u_exit 1
  else if pid =? 0 then
    sysv (Cexec (bytes_of "sh") [bytes_of "sh"]) ???
    printf ("init: exec sh failed" +:+ nl) [] ???
    u_exit 1
  else uloop (init_wait pid) tt ??? uret (inl tt).

Definition init_main : U W unit :=
  let? fd := sysv (Copen (bytes_of "console") O_RDWR_u) in
  (if fd <? 0 then
     sysv (Cmknod (bytes_of "console") CONSOLE 0) ???
     sysv (Copen (bytes_of "console") O_RDWR_u) ??? uret tt
   else uret tt) ???
  sysv (Cdup 0) ???
  sysv (Cdup 0) ???
  uloop init_turn tt.

(** ** ls *)

(** The part of a path after its last slash. *)
Fixpoint last_slash (p acc : list Z) : list Z :=
  match p with
  | [] => acc
  | c :: p' => last_slash p' (if c =? 47 then p' else acc)
  end.

Definition fmtname (path : list Z) : list Z :=
  let p := last_slash path path in
  if (DIRSIZ_u <=? length p)%nat then p
  else p ++ replicate (DIRSIZ_u - length p) 32.

(** The fields of a [struct stat], from its bytes. *)
Definition st_type_of (st : list Z) : Z := s16 (get16 st 8).
Definition st_ino_of (st : list Z) : Z := get32 st 4.
Definition st_size_of (st : list Z) : Z := le_get 8 st 16.

(** One turn of the loop over a directory; [dir] is the path with a slash. *)
Definition ls_entry (fd : Z) (dir : list Z) (_ : unit) : U W (unit + unit) :=
  let? r := sys (Cread fd 16) in
  if negb (r_val r =? 16) then uret (inr tt) else
  let de := r_bytes r in
  if get16 de 0 =? 0 then uret (inl tt) else
  let buf := dir ++ until_nul (take DIRSIZ_u (drop 2 de)) in
  let? '(rc, st) := stat_ buf in
  if rc <? 0 then printf ("ls: cannot stat %s" +:+ nl) [UStr (Some buf)] ??? uret (inl tt) else
  printf ("%s %d %d %d" +:+ nl) [UStr (Some (fmtname buf)); UInt (st_type_of st); UInt (s32 (st_ino_of st));
    UInt (s32 (st_size_of st))] ???
  uret (inl tt).

Definition ls (path : list Z) : U W unit :=
  let? fd := sysv (Copen path 0) in
  if fd <? 0 then fprintf 2 ("ls: cannot open %s" +:+ nl) [UStr (Some path)] else
  let? r := sys (Cfstat fd) in
  if r_val r <? 0 then
    fprintf 2 ("ls: cannot stat %s" +:+ nl) [UStr (Some path)] ???
    sysv (Cclose fd) ??? uret tt
  else
  let st := r_bytes r in
  (if st_type_of st =? 2 then
     printf ("%s %d %d %l" +:+ nl) [UStr (Some (fmtname path)); UInt (st_type_of st); UInt (s32 (st_ino_of st));
       ULong (st_size_of st)]
   else if st_type_of st =? 1 then
     if (512 <? length path + 1 + DIRSIZ_u + 1)%nat then printf ("ls: path too long" +:+ nl) []
     else uloop (ls_entry fd (path ++ [47])) tt
   else uret tt) ???
  sysv (Cclose fd) ??? uret tt.

Definition ls_main (argv : list (list Z)) : U W unit :=
  if (length argv <? 2)%nat then ls (bytes_of ".") ??? u_exit 0 else
  ufor (tail argv) ls ???
  u_exit 0.

End programs.
