(* ===== verification/ProgSpec.v ===== *)
(** * What cat, wc and grep do

    On input that [read] may deliver in pieces of any size: cat copies it, wc
    counts its lines, words and bytes, and grep prints its matching lines. *)

From S2P Require Import Prelude Machine Memory Kstring User Ulib Uprintf Grep Programs.

Section prog_spec.
Context {W : Type} `{FileIO W}.

Lemma take_fill buf bs : take (length bs) (fill buf bs) = bs.
Proof. unfold fill. by rewrite take_app_length. Qed.

(** ** cat *)

Lemma cat_loop fd buf w :
  str_len (inp fd w) < 2 ^ 64 →
  ∃ n w', uloop (cat_step fd) buf w = URet n w' ∧ n = 0 ∧
    did fd 1 (inp fd w) (inp fd w) w w' ∧ inp fd w' = [].
Proof.
  intros Hl. apply (uloop_inv _ (λ _ w1, ∃ bs, did fd 1 bs bs w w1) (λ _ w1, length (inp fd w1))).
  - exact Hl.
  - exists []. apply did_refl.
  - clear buf Hl. intros buf w1 [bs D]. unfold cat_step.
    destruct (sys_read fd 1 512 w1 ltac:(lia)) as (bs' & w2 & E2 & D2 & Hn & He).
    rewrite (ubind_URet _ _ _ _ _ E2). cbn [r_val r_bytes]. destruct bs' as [|b bs'].
    + exists (inr 0), w2. split; [done|]. specialize (He eq_refl).
      assert (inp fd w = bs) as Hw.
      { rewrite (did_in _ _ _ _ _ _ D), (did_in _ _ _ _ _ _ D2), He. cbn. by rewrite app_nil_r. }
      rewrite Hw. split; [done|]. split; [|done]. rewrite <- (app_nil_r bs). by eapply did_trans.
    + rewrite Nat2Z.id, take_fill. destruct (Z.gtb_spec (Z.of_nat (length (b :: bs'))) 0); [|cbn in *; lia].
      destruct (u_write_did fd 1 (b :: bs') w2) as (w3 & E3 & D3).
      rewrite (ubind_URet _ _ _ _ _ E3), Z.eqb_refl. eexists (inl _), w3. split; [done|]. split.
      * exists (bs ++ b :: bs'). pose proof (did_trans _ _ _ _ _ _ _ _ _ D2 D3) as D23.
        rewrite app_nil_r in D23. by eapply did_trans.
      * pose proof (did_in _ _ _ _ _ _ D3) as E. cbn in E. rewrite <- E.
        rewrite (did_in _ _ _ _ _ _ D2), length_app. cbn. lia.
Qed.

Lemma cat_copies fd w :
  str_len (inp fd w) < 2 ^ 64 →
  ∃ w', cat fd w = URet tt w' ∧ did fd 1 (inp fd w) (inp fd w) w w' ∧ inp fd w' = [].
Proof.
  intros Hl. destruct (cat_loop fd (replicate 512 0) w Hl) as (n & w' & E & -> & D & Hi).
  exists w'. unfold cat. by rewrite (ubind_URet _ _ _ _ _ E).
Qed.

(** ** wc *)

Definition blank (c : Z) : bool := bool_decide (c ∈ wc_blank).

(** The fields between blank characters; the words are those with a character. *)
Fixpoint fields (l : list Z) : list (list Z) :=
  match l with
  | [] => [[]]
  | c :: l' =>
      if blank c then [] :: fields l' else
      match fields l' with
      | f :: fs => (c :: f) :: fs
      | [] => [[c]]
      end
  end.

Definition words (l : list Z) : list (list Z) := filter (λ f, f ≠ []) (fields l).
Definition nlines (l : list Z) : Z := Z.of_nat (length (filter (λ c, c = 10) l)).
Definition nwords (l : list Z) : Z := Z.of_nat (length (words l)).

Lemma str_chr_blank c : str_chr wc_blank c = None ↔ blank c = false.
Proof.
  unfold blank, wc_blank. rewrite bool_decide_eq_false. cbn [str_chr].
  repeat match goal with |- context [?x =? c] =>
    destruct (Z.eqb_spec x c) as [<-|?]; [split; [done|intros Hc; destruct Hc; set_solver]|]
  end.
  split; [set_solver|intros _; reflexivity].
Qed.

(** A word goes on at the start of [l]. *)
Definition goes_on (l : list Z) : bool := match l with c :: _ => negb (blank c) | [] => false end.

Lemma fields_goes_on l : ∃ f fs, fields l = f :: fs ∧ (goes_on l = true ↔ f ≠ []).
Proof.
  destruct l as [|c l]; cbn; [by eexists _, _|]. destruct (blank c); [by eexists _, _|].
  destruct (fields l); by eexists _, _.
Qed.

Lemma nwords_cons c l :
  nwords (c :: l) = if blank c then nwords l else if goes_on l then nwords l else nwords l + 1.
Proof.
  unfold nwords, words. cbn [fields]. destruct (blank c); [done|].
  destruct (fields_goes_on l) as (f & fs & -> & Hg). rewrite !filter_cons.
  rewrite (decide_True (P := c :: f ≠ [])) by done. destruct (goes_on l).
  - rewrite decide_True by (by apply Hg). done.
  - rewrite decide_False; [cbn; lia|]. intros Hf. by apply Hg in Hf.
Qed.

Lemma wc_fold l k :
  0 ≤ wc_l k → 0 ≤ wc_w k → 0 ≤ wc_c k → wc_l k + wc_w k + wc_c k + 3 * str_len l < 2 ^ 31 →
  let k' := foldl wc_char k l in
  wc_l k' = wc_l k + nlines l ∧ wc_c k' = wc_c k + str_len l ∧
  wc_w k' = wc_w k + nwords l - (if wc_inword k && goes_on l then 1 else 0).
Proof.
  unfold str_len. revert k. induction l as [|c l IH]; intros k Hl Hw Hc Hb; cbn zeta.
  - rewrite andb_false_r. change (nwords []) with 0. change (nlines []) with 0. cbn. lia.
  - cbn [foldl length] in *. assert (wc_c (wc_char k c) = wc_c k + 1 ∧
      wc_l (wc_char k c) = wc_l k + nlines [c] ∧
      wc_w (wc_char k c) = wc_w k + (if blank c || wc_inword k then 0 else 1) ∧
      wc_inword (wc_char k c) = negb (blank c)) as (E1 & E2 & E3 & E4).
    { unfold wc_char. rewrite !s32_small by lia. assert ((if c =? 10 then wc_l k + 1 else wc_l k) = wc_l k + nlines [c]) as ->.
      { unfold nlines. rewrite filter_cons. destruct (Z.eqb_spec c 10); [rewrite decide_True by done|rewrite decide_False by done]; cbn; lia. }
      destruct (str_chr wc_blank c) as [i|] eqn:Es.
      - assert (blank c = true) as -> by (destruct (blank c) eqn:Eb; [done|]; apply str_chr_blank in Eb; congruence).
        cbn. lia.
      - apply str_chr_blank in Es as ->. destruct (wc_inword k) eqn:Ei; cbn; rewrite ?Ei; split_and!; (done || lia). }
    assert (0 ≤ nlines [c] ≤ 1) by (unfold nlines; rewrite filter_cons; case_decide; cbn; lia).
    destruct (IH (wc_char k c)) as (I1 & I2 & I3).
    1-4: destruct (blank c || wc_inword k); lia.
    split_and!.
    + rewrite I1, E2. unfold nlines. change (c :: l) with ([c] ++ l). rewrite filter_app, length_app. lia.
    + rewrite I2, E1. lia.
    + rewrite I3, E3, E4, nwords_cons. cbn [goes_on]. destruct (blank c), (wc_inword k), (goes_on l); cbn; lia.
Qed.

Lemma wc_loop fd buf k0 w :
  str_len (inp fd w) < 2 ^ 64 →
  ∃ r w', uloop (wc_step fd) (buf, k0) w = URet r w' ∧ r = (foldl wc_char k0 (inp fd w), 0) ∧
    did fd 1 (inp fd w) [] w w'.
Proof.
  intros Hl. apply (uloop_inv _ (λ st w1, ∃ bs, did fd 1 bs [] w w1 ∧ st.2 = foldl wc_char k0 bs)
                      (λ _ w1, length (inp fd w1))).
  - exact Hl.
  - exists []. split; [apply did_refl|done].
  - clear buf Hl. intros [buf k] w1 (bs & D & Hk). cbn in Hk. subst k. unfold wc_step.
    destruct (sys_read fd 1 512 w1 ltac:(lia)) as (bs' & w2 & E2 & D2 & Hn & He).
    pose proof (did_trans _ _ _ _ _ _ _ _ _ D D2) as D'.
    rewrite (ubind_URet _ _ _ _ _ E2). cbn [r_val r_bytes]. destruct bs' as [|b bs'].
    + eexists (inr _), w2. split; [done|]. specialize (He eq_refl).
      assert (inp fd w = bs) as Hw.
      { rewrite (did_in _ _ _ _ _ _ D'), He. by rewrite !app_nil_r. }
      rewrite Hw. split; [done|]. by rewrite app_nil_r in D'.
    + rewrite Nat2Z.id, take_fill. destruct (Z.gtb_spec (Z.of_nat (length (b :: bs'))) 0); [|cbn in *; lia].
      eexists (inl _), w2. split; [done|]. split.
      * exists (bs ++ b :: bs'). split; [done|]. cbn [snd]. by rewrite foldl_app.
      * rewrite (did_in _ _ _ _ _ _ D2), length_app. cbn. lia.
Qed.

(** whatever pieces [read] delivers the input in, wc reads all of
    it and prints the number of its newlines, of its maximal runs of non-blank
    characters and of its bytes, followed by the name. *)
Theorem wc_spec fd name w :
  3 * str_len (inp fd w) < 2 ^ 31 →
  let l := inp fd w in
  ∃ w', wc fd name w = URet tt w' ∧
    did fd 1 l (u8 <$> format ("%d %d %d %s" +:+ nl)
      [UInt (nlines l); UInt (nwords l); UInt (str_len l); UStr (Some name)]) w w'.
Proof.
  intros Hl l. destruct (wc_loop fd (replicate 512 0) (mk_counts 0 0 0 false) w) as (r & w1 & E & -> & D); [lia|].
  destruct (wc_fold l (mk_counts 0 0 0 false)) as (K1 & K2 & K3); [done|done|done|cbn [wc_l wc_w wc_c]; unfold l; lia|].
  cbn [wc_l wc_w wc_c wc_inword andb] in K1, K2, K3. set (k := foldl wc_char _ l) in *.
  destruct (emit_did fd 1 (format ("%d %d %d %s" +:+ nl)
    [UInt (wc_l k); UInt (wc_w k); UInt (wc_c k); UStr (Some name)]) w1) as (w2 & E2 & D2).
  exists w2. split.
  - unfold wc. rewrite (ubind_URet _ _ _ _ _ E). cbn [Z.ltb Z.compare]. unfold printf. by rewrite vprintf_emit.
  - pose proof (did_trans _ _ _ _ _ _ _ _ _ D D2) as D'. rewrite app_nil_r in D'.
    rewrite K1, K2, K3, Z.sub_0_r in D'. exact D'.
Qed.

(** ** grep *)

(** The complete lines of a text, and what follows the last newline. *)
Fixpoint split_lines (l : list Z) : list (list Z) * list Z :=
  match l with
  | [] => ([], [])
  | c :: l' =>
      let '(ls, r) := split_lines l' in
      if c =? 10 then ([] :: ls, r) else
      match ls with
      | f :: fs => ((c :: f) :: fs, r)
      | [] => ([], c :: r)
      end
  end.

(** The text up to the first newline, or all of it. *)
Definition first_piece (l : list Z) : list Z :=
  match split_lines l with (f :: _, _) => f | ([], r) => r end.

Definition grep_out (pattern : list Z) (ls : list (list Z)) : list Z :=
  concat ((λ f, f ++ [10]) <$> filter (λ f, match_ pattern f = true) ls).

Lemma split_line l1 l2 :
  10 ∉ l1 → split_lines (l1 ++ 10 :: l2) = (l1 :: (split_lines l2).1, (split_lines l2).2).
Proof.
  induction l1 as [|c l1 IH]; intros Hn; cbn.
  - by destruct (split_lines l2).
  - apply not_elem_of_cons in Hn as [Hc Hn]. rewrite IH by done. by destruct (Z.eqb_spec c 10).
Qed.

Lemma split_rest l : 10 ∉ l → split_lines l = ([], l).
Proof.
  induction l as [|c l IH]; intros Hn; cbn; [done|]. apply not_elem_of_cons in Hn as [Hc Hn].
  rewrite IH by done. by destruct (Z.eqb_spec c 10).
Qed.

Lemma split_cases l :
  (10 ∉ l ∧ split_lines l = ([], l)) ∨
  (∃ l1 l2, l = l1 ++ 10 :: l2 ∧ 10 ∉ l1 ∧ split_lines l = (l1 :: (split_lines l2).1, (split_lines l2).2)).
Proof.
  destruct (decide (10 ∈ l)) as [Hin|Hn]; [|left; by rewrite split_rest].
  right. apply list_elem_of_split_l in Hin as (l1 & l2 & -> & Hn). exists l1, l2.
  split; [done|]. split; [done|]. by apply split_line.
Qed.

Lemma str_chr_line l :
  match str_chr l 10 with
  | Some i => 10 ∉ take i l ∧ l !! i = Some 10
  | None => 10 ∉ l
  end.
Proof.
  induction l as [|c l IH]; cbn; [apply not_elem_of_nil|]. destruct (Z.eqb_spec c 10) as [->|Hc].
  - split; [apply not_elem_of_nil|done].
  - destruct (str_chr l 10) as [i|]; cbn.
    + destruct IH as [I1 I2]. split; [by apply not_elem_of_cons|done].
    + by apply not_elem_of_cons.
Qed.

Lemma grep_lines_run fd pattern rest w :
  Forall (λ c, c ≠ 0) rest → str_len rest < 2 ^ 64 →
  ∃ r w', uloop (grep_line pattern) rest w = URet r w' ∧ r = (split_lines rest).2 ∧
    did fd 1 [] (grep_out pattern (split_lines rest).1) w w'.
Proof.
  intros Hz Hl.
  apply (uloop_inv _ (λ rest' w1, Forall (λ c, c ≠ 0) rest' ∧ (split_lines rest').2 = (split_lines rest).2 ∧
    ∃ ls, (split_lines rest).1 = ls ++ (split_lines rest').1 ∧ did fd 1 [] (grep_out pattern ls) w w1)
    (λ rest' _, length rest')).
  - exact Hl.
  - split; [done|]. split; [done|]. exists []. split; [done|apply did_refl].
  - clear Hz Hl. intros rest' w1 (Hz & Hr & ls & Hls & D). unfold grep_line. rewrite until_nul_id by (rewrite Forall_forall in Hz; intros Hin; by apply (Hz 0 Hin)).
    pose proof (str_chr_line rest') as Hc. destruct (str_chr rest' 10) as [i|].
    + destruct Hc as [Hn Hs]. pose proof (split_line _ (drop (S i) rest') Hn) as Hsp.
      rewrite (take_drop_middle _ _ _ Hs) in Hsp. pose proof (take_S_r _ _ _ Hs) as Ht.
      assert (∃ w2, (if match_ pattern (take i rest') then u_write 1 (take (S i) rest') ??? uret tt
                     else uret tt) w1 = URet tt w2 ∧
              did fd 1 [] (grep_out pattern [take i rest']) w1 w2) as (w2 & E2 & D2).
      { unfold grep_out. rewrite filter_cons. destruct (match_ pattern (take i rest')) eqn:Em.
        - destruct (u_write_did fd 1 (take (S i) rest') w1) as (w2 & E2 & D2). exists w2.
          rewrite (ubind_URet _ _ _ _ _ E2). rewrite decide_True by done. split; [done|].
          cbn. by rewrite app_nil_r, <- Ht.
        - exists w1. rewrite decide_False by done. split; [done|apply did_refl]. }
      exists (inl (drop (S i) rest')), w2. rewrite (ubind_URet _ _ _ _ _ E2). split; [done|].
      rewrite Hsp in Hr, Hls. cbn [fst snd] in Hr, Hls. split; [split; [|split]|].
      * by apply Forall_drop.
      * done.
      * exists (ls ++ [take i rest']). split; [by rewrite <- app_assoc|]. unfold grep_out.
        rewrite filter_app, fmap_app, concat_app. by apply (did_trans _ _ [] _ [] _ _ _ _ D D2).
      * rewrite length_drop. apply lookup_lt_Some in Hs. lia.
    + exists (inr rest'), w1. rewrite (split_rest _ Hc) in Hr, Hls. split; [done|]. split; [done|].
      rewrite Hls. cbn. by rewrite app_nil_r.
Qed.

Definition pieces (l : list Z) : list (list Z) := (split_lines l).1 ++ [(split_lines l).2].

Lemma split_app l1 l2 :
  let r1 := (split_lines l1).2 in
  10 ∉ r1 ∧ split_lines (l1 ++ l2) =
    ((split_lines l1).1 ++ (split_lines (r1 ++ l2)).1, (split_lines (r1 ++ l2)).2).
Proof.
  induction (Nat.lt_wf_0_projected (length (A := Z)) l1) as [l1 _ IH]. cbn zeta.
  destruct (split_cases l1) as [[Hn ->]|(la & lb & -> & Hn & ->)]; cbn [fst snd app].
  - split; [done|]. by destruct (split_lines (l1 ++ l2)).
  - destruct (IH lb) as [Hr E]; [rewrite length_app; cbn; lia|]. cbn zeta in E. split; [done|].
    rewrite <- app_assoc. cbn [app]. rewrite split_line by done. by rewrite E.
Qed.

Lemma rest_bounded l1 l2 k :
  (∀ f, f ∈ pieces (l1 ++ l2) → (length f ≤ k)%nat) → (length (split_lines l1).2 ≤ k)%nat.
Proof.
  intros Hk. destruct (split_app l1 l2) as [Hn E]. unfold pieces in Hk. rewrite E in Hk. cbn [fst snd] in Hk.
  set (r1 := (split_lines l1).2) in *.
  destruct (split_cases (r1 ++ l2)) as [[_ Es]|(la & lb & Es & Hla & Es')].
  - rewrite Es in Hk. cbn in Hk. specialize (Hk (r1 ++ l2) ltac:(set_solver)). rewrite length_app in Hk. lia.
  - rewrite Es' in Hk. cbn in Hk. specialize (Hk la ltac:(set_solver)).
    apply app_eq_inv in Es as [(k1 & E1 & E2)|(k1 & -> & _)]; [|rewrite length_app in Hk; lia].
    destruct k1 as [|c k1]; [rewrite app_nil_r in E1; rewrite E1; lia|].
    cbn in E2. injection E2 as <- _. exfalso. apply Hn. rewrite E1. set_solver.
Qed.

Lemma split_rest_Forall (P : Z → Prop) l : Forall P l → Forall P (split_lines l).2.
Proof.
  induction (Nat.lt_wf_0_projected (length (A := Z)) l) as [l _ IH]. intros Hl.
  destruct (split_cases l) as [[Hn ->]|(la & lb & -> & Hn & ->)]; [done|]. cbn [snd].
  apply Forall_app in Hl as [_ Hl]. apply Forall_cons in Hl as [_ Hl]. apply IH; [|done].
  rewrite length_app. cbn. lia.
Qed.

Lemma grep_runs pattern fd w :
  Forall (λ c, c ≠ 0) (inp fd w) → (∀ f, f ∈ pieces (inp fd w) → (length f ≤ 1022)%nat) →
  str_len (inp fd w) < 2 ^ 63 →
  ∃ r w', grep pattern fd w = URet r w' ∧ r = tt ∧
    did fd 1 (inp fd w) (grep_out pattern (split_lines (inp fd w)).1) w w'.
Proof.
  intros Hz Hp Hl. unfold str_len in Hl.
  apply (uloop_inv _ (λ buf w1, ∃ bs, did fd 1 bs (grep_out pattern (split_lines bs).1) w w1 ∧
    buf = (split_lines bs).2) (λ _ w1, length (inp fd w1))).
  - lia.
  - exists []. split; [apply did_refl|done].
  - intros buf w1 (bs & D & ->). pose proof (did_in _ _ _ _ _ _ D) as Ei.
    rewrite Ei in Hp, Hz. pose proof (rest_bounded _ _ _ Hp) as Hb. unfold grep_step.
    set (buf := (split_lines bs).2) in *.
    destruct (sys_read fd 1 (1024 - Z.of_nat (length buf) - 1) w1 ltac:(lia)) as (bs' & w2 & E2 & D2 & Hn & He).
    rewrite (ubind_URet _ _ _ _ _ E2). cbn [r_val r_bytes]. pose proof (did_in _ _ _ _ _ _ D2) as Ei2.
    destruct bs' as [|b bs'].
    + exists (inr tt), w2. split; [done|]. specialize (He eq_refl).
      rewrite He in Ei2. cbn in Ei2. rewrite Ei, Ei2, app_nil_r. split; [done|].
      pose proof (did_trans _ _ _ _ _ _ _ _ _ D D2) as D'. by rewrite !app_nil_r in D'.
    + rewrite Nat2Z.id, take_ge by done. set (new := b :: bs') in *.
      destruct (Z.gtb_spec (Z.of_nat (length new)) 0); [|cbn in *; lia].
      destruct (split_app bs new) as [_ Es]. cbn zeta in Es. fold buf in Es.
      destruct (grep_lines_run fd pattern (buf ++ new) w2) as (r & w3 & E3 & -> & D3).
      { rewrite Ei2 in Hz. destruct (split_app bs []) as [_ Es0]. apply Forall_app in Hz as [Hz1 Hz2].
        apply Forall_app in Hz2 as [Hz2 _]. apply Forall_app. split; [|done]. by apply split_rest_Forall. }
      { unfold str_len. rewrite length_app. lia. }
      exists (inl (split_lines (buf ++ new)).2), w3. rewrite (ubind_URet _ _ _ _ _ E3). split; [done|]. split.
      * exists (bs ++ new). rewrite Es. cbn [fst snd]. split; [|done]. unfold grep_out.
        rewrite filter_app, fmap_app, concat_app.
        pose proof (did_trans _ _ _ _ _ _ _ _ _ D2 D3) as D23. rewrite app_nil_r in D23. cbn [app] in D23.
        by apply (did_trans _ _ _ _ _ _ _ _ _ D D23).
      * pose proof (did_in _ _ _ _ _ _ D3) as Ei3. cbn in Ei3. rewrite <- Ei3, Ei2, length_app. cbn. lia.
Qed.

(** C32: on a text without NUL bytes whose lines have at most 1022
    characters, grep prints, in order and each with its newline, exactly the
    complete lines that match the pattern, whatever pieces [read] delivers the
    text in; what follows the last newline is not printed. *)
Theorem grep_spec pattern fd w :
  Forall (λ c, c ≠ 0) (inp fd w) → (∀ f, f ∈ pieces (inp fd w) → (length f ≤ 1022)%nat) →
  str_len (inp fd w) < 2 ^ 63 →
  ∃ w', grep pattern fd w = URet tt w' ∧
    did fd 1 (inp fd w) (grep_out pattern (split_lines (inp fd w)).1) w w'.
Proof.
  intros Hz Hp Hl. destruct (grep_runs pattern fd w Hz Hp Hl) as ([] & w' & E & _ & D). by exists w'.
Qed.

End prog_spec.

(** ** A world of files *)

(** The input and the output of each descriptor; [read] delivers at most three
    bytes at a time. *)
Definition files_world : Type := (Z → list Z) * (Z → list Z).

Definition put_at (fd : Z) (l : list Z) (f : Z → list Z) : Z → list Z :=
  λ fd', if fd' =? fd then l else f fd'.

#[local] Instance files_os : UserOS files_world := λ c w,
  match c with
  | Cread fd n =>
      let bs := take (Z.to_nat (Z.min n 3)) (w.1 fd) in
      Some (mk_reply (Z.of_nat (length bs)) bs, (put_at fd (drop (length bs) (w.1 fd)) w.1, w.2))
  | Cwrite fd data => Some (mk_reply (Z.of_nat (length data)) [], (w.1, put_at fd (w.2 fd ++ data) w.2))
  | _ => Some (mk_reply (-1) [], w)
  end.

#[local] Instance files_io : FileIO files_world.
Proof.
  refine {| inp := λ fd (w : files_world), w.1 fd; out := λ fd (w : files_world), w.2 fd |}.
  - intros fd n [i o] Hn. eexists _, _. split; [reflexivity|]. cbn. split_and!.
    + unfold put_at. rewrite Z.eqb_refl, length_take. rewrite <- (take_drop (Z.to_nat (Z.min n 3)) (i fd)) at 1.
      f_equal. destruct (decide (Z.to_nat (Z.min n 3) ≤ length (i fd))%nat); [f_equal; lia|].
      rewrite !drop_ge by lia. done.
    + rewrite length_take. lia.
    + intros E. apply (f_equal length) in E. rewrite length_take in E. cbn in E.
      apply length_zero_iff_nil. lia.
    + intros fd' Hne. unfold put_at. by rewrite (proj2 (Z.eqb_neq fd' fd) Hne).
    + done.
  - intros fd data [i o]. eexists _. split; [reflexivity|]. cbn. unfold put_at. split_and!.
    + by rewrite Z.eqb_refl.
    + intros fd' Hne. by rewrite (proj2 (Z.eqb_neq fd' fd) Hne).
    + done.
Defined.

Definition sample_files (text : string) : files_world := (λ _, bytes_of text, λ _, []).

(** Two lines, three words, eleven bytes. *)
Lemma wc_spec_witness :
  ∃ w', wc 0 (bytes_of "x") (sample_files ("ab  cd" +:+ nl +:+ "efg" +:+ nl)) = URet tt w' ∧
    out 1 w' = bytes_of ("2 3 11 x" +:+ nl).
Proof.
  destruct (wc_spec 0 (bytes_of "x") (sample_files ("ab  cd" +:+ nl +:+ "efg" +:+ nl))) as (w' & E & D).
  - done.
  - exists w'. split; [exact E|]. rewrite (did_out _ _ _ _ _ _ D). reflexivity.
Defined.

(** Of the three complete lines, two start with a b. *)
Lemma grep_spec_witness :
  ∃ w', grep (bytes_of "^b") 0 (sample_files ("bc" +:+ nl +:+ "ab" +:+ nl +:+ "b" +:+ nl +:+ "bd")) = URet tt w' ∧
    out 1 w' = bytes_of ("bc" +:+ nl +:+ "b" +:+ nl).
Proof.
  destruct (grep_spec (bytes_of "^b") 0 (sample_files ("bc" +:+ nl +:+ "ab" +:+ nl +:+ "b" +:+ nl +:+ "bd"))) as (w' & E & D).
  - repeat constructor; done.
  - intros f Hf. vm_compute in Hf. repeat (inversion Hf as [|? ? ? Hf']; subst; [cbn; lia|]; clear Hf; rename Hf' into Hf). inversion Hf.
  - done.
  - exists w'. split; [exact E|]. rewrite (did_out _ _ _ _ _ _ D). reflexivity.
Defined.
