(* ===== verification/Tests.v ===== *)
(** * The smaller test programs

    user/sysinfotest.c, forktest.c and stressfs.c as sequences of system
    calls.  Of [wait] with a pointer the reply holds the status. *)

From S2P Require Import Prelude Machine Memory Kstring State Block User Ulib Uprintf Programs.

Section tests.
Context {W : Type} `{UserOS W}.

(** ** sysinfotest *)

(** The two fields of [struct sysinfo]. *)
Definition info_freemem (bs : list Z) : Z := le_get 8 bs 0.
Definition info_nproc (bs : list Z) : Z := le_get 8 bs 8.

Definition sinfo : U W (list Z) :=
  let? r := sys (Csysinfo None) in
  if r_val r <? 0 then printf "FAIL: sysinfo failed" [] ??? u_exit 1
  else uret (r_bytes r).

(** The address -1. *)
Definition sbrk_failed (r : Z) : bool := u64 r =? 0xffffffffffffffff.

(** [while(1)] of [countfree]. *)
Definition countfree_step (n : Z) : U W (Z + Z) :=
  let? r := sysv (Csbrk PGSIZE) in
  if sbrk_failed r then uret (inr n) else uret (inl (s32 (n + PGSIZE))).

Definition countfree : U W Z :=
  let? sz0 := sysv (Csbrk 0) in
  let? n := uloop countfree_step 0 in
  let? info := sinfo in
  if negb (info_freemem info =? 0) then
    printf ("FAIL: there is no free mem, but sysinfo.freemem=%d" +:+ nl) [UInt (s32 (info_freemem info))] ??? u_exit 1
  else
  let? sz := sysv (Csbrk 0) in
  sysv (Csbrk (s32 (- (sz - sz0)))) ???
  uret n.

Definition testmem : U W unit :=
  let? n := countfree in
  let n := u64 n in
  let? info := sinfo in
  if negb (info_freemem info =? n) then
    printf ("FAIL: free mem %d (bytes) instead of %d" +:+ nl) [UInt (s32 (info_freemem info)); UInt (s32 n)] ??? u_exit 1
  else
  let? r := sysv (Csbrk PGSIZE) in
  if sbrk_failed r then printf "sbrk failed" [] ??? u_exit 1 else
  let? info := sinfo in
  if negb (info_freemem info =? u64 (n - PGSIZE)) then
    printf ("FAIL: free mem %d (bytes) instead of %d" +:+ nl)
      [UInt (s32 (n - PGSIZE)); UInt (s32 (info_freemem info))] ??? u_exit 1
  else
  let? r := sysv (Csbrk (- PGSIZE)) in
  if sbrk_failed r then printf "sbrk failed" [] ??? u_exit 1 else
  let? info := sinfo in
  if negb (info_freemem info =? n) then
    printf ("FAIL: free mem %d (bytes) instead of %d" +:+ nl) [UInt (s32 n); UInt (s32 (info_freemem info))] ??? u_exit 1
  else uret tt.

Definition testcall : U W unit :=
  let? r := sysv (Csysinfo None) in
  if r <? 0 then printf ("FAIL: sysinfo failed" +:+ nl) [] ??? u_exit 1 else
  let? r := sysv (Csysinfo (Some 0xeaeb0b5b00002f5e)) in
  if negb (u64 r =? 0xffffffffffffffff) then
    printf ("FAIL: sysinfo succeeded with bad argument" +:+ nl) [] ??? u_exit 1
  else uret tt.

Definition testproc : U W unit :=
  let? info := sinfo in
  let nproc := info_nproc info in
  let? pid := sysv Cfork in
  if pid <? 0 then printf ("sysinfotest: fork failed" +:+ nl) [] ??? u_exit 1 else
  if pid =? 0 then
    let? info := sinfo in
    if negb (info_nproc info =? u64 (nproc + 1)) then
      printf ("sysinfotest: FAIL nproc is %d instead of %d" +:+ nl)
        [UInt (s32 (info_nproc info)); UInt (s32 (nproc + 1))] ??? u_exit 1
    else u_exit 0
  else
  sysv Cwait ???
  let? info := sinfo in
  if negb (info_nproc info =? nproc) then
    printf ("sysinfotest: FAIL nproc is %d instead of %d" +:+ nl) [UInt (s32 (info_nproc info)); UInt (s32 nproc)] ??? u_exit 1
  else uret tt.

Definition sysinfotest_main : U W unit :=
  printf ("sysinfotest: start" +:+ nl) [] ???
  testcall ???
  testmem ???
  testproc ???
  printf ("sysinfotest: OK" +:+ nl) [] ???
  u_exit 0.

(** ** forktest *)

Definition N : Z := 1000.

Definition print (s : list Z) : U W unit := u_write 1 s ??? uret tt.

(** [for(n=0; n<N; n++)]: the answer is [n] at the end. *)
Definition fork_step (n : Z) : U W (Z + Z) :=
  if n <? N then
    let? pid := sysv Cfork in
    if pid <? 0 then uret (inr n) else
    if pid =? 0 then u_exit 0 else uret (inl (n + 1))
  else uret (inr n).

(** [for(; n > 0; n--)] *)
Definition reap_step (n : Z) : U W (Z + unit) :=
  if n >? 0 then
    let? r := sysv Cwait in
    if r <? 0 then print (bytes_of ("wait stopped early" +:+ nl)) ??? u_exit 1
    else uret (inl (n - 1))
  else uret (inr tt).

Definition forktest : U W unit :=
  print (bytes_of ("fork test" +:+ nl)) ???
  let? n := uloop fork_step 0 in
  if n =? N then print (bytes_of ("fork claimed to work N times!" +:+ nl)) ??? u_exit 1 else
  uloop reap_step n ???
  let? r := sysv Cwait in
  if negb (r =? -1) then print (bytes_of ("wait got too many" +:+ nl)) ??? u_exit 1 else
  print (bytes_of ("fork test OK" +:+ nl)).

Definition forktest_main : U W unit := forktest ??? u_exit 0.

(** ** stressfs *)

(** [for(i = 0; i < 4; i++) if(fork() > 0) break;] *)
Definition stress_fork (i : Z) : U W (Z + Z) :=
  if i <? 4 then
    let? pid := sysv Cfork in
    if pid >? 0 then uret (inr i) else uret (inl (i + 1))
  else uret (inr i).

Definition stressfs_main : U W unit :=
  let path := bytes_of "stressfs0" in
  printf ("stressfs starting" +:+ nl) [] ???
  let data := replicate 512 97 in
  let? i := uloop stress_fork 0 in
  printf ("write %d" +:+ nl) [UInt i] ???
  let path := <[8%nat := u8 (path !!! 8%nat + i)]> path in
  let? fd := sysv (Copen path (Z.lor O_CREATE_u O_RDWR_u)) in
  ufor (seq 0 20) (λ _, u_write fd data ??? uret tt) ???
  sysv (Cclose fd) ???
  printf ("read" +:+ nl) [] ???
  let? fd := sysv (Copen path O_RDONLY_u) in
  ufor (seq 0 20) (λ _, sysv (Cread fd 512) ??? uret tt) ???
  sysv (Cclose fd) ???
  sysv Cwait ???
  u_exit 0.
End tests.
