(* ===== verification/Grind.v ===== *)
(** * user/grind.c: random system calls

    The random numbers, and the loop that makes one of 23 groups of system
    calls in each turn.  The random state is the global [rand_next]. *)

From S2P Require Import Prelude Machine Memory Kstring State Block User Ulib Uprintf Programs.

(** ** Random numbers *)

(** The new value of [*ctx], which is also the result. *)
Definition do_rand (ctx : Z) : Z :=
  let x := ctx `mod` 0x7ffffffe + 1 in
  let hi := Z.quot x 127773 in
  let lo := Z.rem x 127773 in
  let x := 16807 * lo - 2836 * hi in
  let x := if x <? 0 then x + 0x7fffffff else x in
  x - 1.

(** [do_rand] is the generator of Park and Miller on [1, 2^31 - 2], moved down
    by one, and no intermediate value leaves a [long]. *)
Lemma do_rand_spec ctx :
  0 ≤ ctx < 2 ^ 64 →
  do_rand ctx = (7 ^ 5 * (ctx `mod` 0x7ffffffe + 1)) `mod` (2 ^ 31 - 1) - 1 ∧ 0 ≤ do_rand ctx < 0x7ffffffe.
Proof.
  intros Hc. unfold do_rand. cbv zeta. set (x := ctx `mod` 0x7ffffffe + 1).
  assert (1 ≤ x ≤ 2147483646) as Hx by (unfold x; pose proof (Z.mod_pos_bound ctx 2147483646 ltac:(lia)); lia).
  rewrite Z.quot_div_nonneg, Z.rem_mod_nonneg by lia. change (7 ^ 5) with 16807. change (2 ^ 31 - 1) with 2147483647.
  pose proof (Z.div_mod x 127773 ltac:(lia)) as E. pose proof (Z.mod_pos_bound x 127773 ltac:(lia)) as Hm.
  set (q := x / 127773) in *. set (r := x `mod` 127773) in *. assert (0 ≤ q ≤ 16807) as Hq by lia.
  assert (16807 * x = q * 2147483647 + (16807 * r - 2836 * q)) as Ex by lia.
  assert (16807 * r - 2836 * q ≠ 0) as Hnz.
  { intros H0. assert (2147483647 | 16807 * x) as Hd by (exists q; lia). apply Z.gauss in Hd; [|reflexivity].
    apply Z.divide_pos_le in Hd; lia. }
  replace (16807 * x) with (16807 * r - 2836 * q + q * 2147483647) by lia. rewrite Z.mod_add by lia. destruct (Z.ltb_spec (16807 * r - 2836 * q) 0) as [Hneg|Hpos].
  - rewrite <- (Z.mod_add _ 1), Z.mod_small by lia. lia.
  - rewrite Z.mod_small by lia. lia.
Qed.

(** ** The loop *)

(** The variables of [go]: [fd], [buf], [iters] and [rand_next]. *)
Record gvars : Type := mk_gvars { g_fd : Z; g_buf : list Z; g_iters : Z; g_rand : Z }.

Definition set_g_fd (fd : Z) (v : gvars) : gvars := mk_gvars fd (g_buf v) (g_iters v) (g_rand v).
Definition set_g_buf (b : list Z) (v : gvars) : gvars := mk_gvars (g_fd v) b (g_iters v) (g_rand v).

Definition b (s : string) : list Z := bytes_of s.

Section grind.
Context {W : Type} `{UserOS W}.

Definition fail (msg : string) (status : Z) : U W unit := printf (msg +:+ nl) [] ??? u_exit status.
Definition fail2 (msg : string) (status : Z) : U W unit := fprintf 2 (msg +:+ nl) [] ??? u_exit status.

Definition O_CR : Z := Z.lor O_CREATE_u O_RDWR_u.

(** [close(open(path, O_CREATE|O_RDWR))] *)
Definition touch (path : list Z) : U W Z :=
  let? fd := sysv (Copen path O_CR) in
  sysv (Cclose fd).

(** [fork], what the child does before it exits, and the [wait] of the parent,
    which does [parent] with the pid first. *)
Definition fork_wait (child : U W unit) (parent : Z → U W unit) : U W unit :=
  let? pid := sysv Cfork in
  if pid =? 0 then child ??? u_exit 0 else
  if pid <? 0 then fail "grind: fork failed" 1 else
  parent pid ???
  sysv Cwait ???
  uret tt.

Definition go_chdir : U W unit :=
  let? r := sysv (Cchdir (b "grindir")) in
  if negb (r =? 0) then fail "grind: chdir grindir failed" 1 else
  sysv (Cunlink (b "../b")) ???
  sysv (Cchdir (b "/")) ???
  uret tt.

Definition go_reopen (path : string) (v : gvars) : U W gvars :=
  sysv (Cclose (g_fd v)) ???
  let? fd := sysv (Copen (b path) O_CR) in
  uret (set_g_fd fd v).

Definition go_shrink (break0 : Z) : U W unit :=
  let? p := sysv (Csbrk 0) in
  if p >? break0 then
    let? p := sysv (Csbrk 0) in
    sysv (Csbrk (s32 (- (p - break0)))) ??? uret tt
  else uret tt.

Definition go_kill (pid : Z) : U W unit :=
  let? r := sysv (Cchdir (b "../grindir/..")) in
  if negb (r =? 0) then fail "grind: chdir failed" 1 else
  sysv (Ckill pid) ??? uret tt.

Definition go_pipe : U W unit :=
  let? p := sys Cpipe in
  if r_val p <? 0 then fail "grind: pipe failed" 1 else
  let fds0 := get32 (r_bytes p) 0 in
  let fds1 := get32 (r_bytes p) 4 in
  fork_wait
    (sysv Cfork ???
     sysv Cfork ???
     let? r := u_write fds1 (b "x") in
     (if negb (r =? 1) then printf ("grind: pipe write failed" +:+ nl) [] else uret tt) ???
     let? r := sysv (Cread fds0 1) in
     (if negb (r =? 1) then printf ("grind: pipe read failed" +:+ nl) [] else uret tt))
    (λ _, sysv (Cclose fds0) ??? sysv (Cclose fds1) ??? uret tt).

Definition go_subdir : U W unit :=
  fork_wait
    (sysv (Cunlink (b "a")) ???
     sysv (Cmkdir (b "a")) ???
     sysv (Cchdir (b "a")) ???
     sysv (Cunlink (b "../a")) ???
     sysv (Copen (b "x") O_CR) ???
     sysv (Cunlink (b "x")) ???
     uret tt)
    (λ _, uret tt).

Definition go_create : U W unit :=
  sysv (Cunlink (b "c")) ???
  let? fd1 := sysv (Copen (b "c") O_CR) in
  if fd1 <? 0 then fail "grind: create c failed" 1 else
  let? r := u_write fd1 (b "x") in
  if negb (r =? 1) then fail "grind: write c failed" 1 else
  let? r := sys (Cfstat fd1) in
  if negb (r_val r =? 0) then fail "grind: fstat failed" 1 else
  let st := r_bytes r in
  if negb (st_size_of st =? 1) then
    printf ("grind: fstat reports wrong size %d" +:+ nl) [UInt (s32 (st_size_of st))] ??? u_exit 1 else
  if st_ino_of st >? 200 then
    printf ("grind: fstat reports crazy i-number %d" +:+ nl) [UInt (s32 (st_ino_of st))] ??? u_exit 1 else
  sysv (Cclose fd1) ???
  sysv (Cunlink (b "c")) ???
  uret tt.

(** The children of the pipeline echo hi | cat. *)
Definition go_echo (aa0 aa1 bb0 bb1 : Z) : U W unit :=
  sysv (Cclose bb0) ???
  sysv (Cclose bb1) ???
  sysv (Cclose aa0) ???
  sysv (Cclose 1) ???
  let? r := sysv (Cdup aa1) in
  if negb (r =? 1) then fail2 "grind: dup failed" 1 else
  sysv (Cclose aa1) ???
  sysv (Cexec (b "grindir/../echo") [b "echo"; b "hi"]) ???
  fail2 "grind: echo: not found" 2.

Definition go_cat (aa0 aa1 bb0 bb1 : Z) : U W unit :=
  sysv (Cclose aa1) ???
  sysv (Cclose bb0) ???
  sysv (Cclose 0) ???
  let? r := sysv (Cdup aa0) in
  if negb (r =? 0) then fail2 "grind: dup failed" 4 else
  sysv (Cclose aa0) ???
  sysv (Cclose 1) ???
  let? r := sysv (Cdup bb1) in
  if negb (r =? 1) then fail2 "grind: dup failed" 5 else
  sysv (Cclose bb1) ???
  sysv (Cexec (b "/cat") [b "cat"]) ???
  fail2 "grind: cat: not found" 6.

(** [wait(&st)]: the status, which stays [st] when there is none. *)
Definition wait_status (st : Z) : U W Z :=
  let? r := sys Cwait in
  uret (if r_bytes r is [] then st else s32 (get32 (r_bytes r) 0)).

(** [junk] is what [st1] and [st2] hold before they are set. *)
Definition go_pipeline (junk : Z) : U W unit :=
  let? aa := sys Cpipe in
  if r_val aa <? 0 then fail2 "grind: pipe failed" 1 else
  let? bb := sys Cpipe in
  if r_val bb <? 0 then fail2 "grind: pipe failed" 1 else
  let aa0 := get32 (r_bytes aa) 0 in
  let aa1 := get32 (r_bytes aa) 4 in
  let bb0 := get32 (r_bytes bb) 0 in
  let bb1 := get32 (r_bytes bb) 4 in
  let? pid1 := sysv Cfork in
  if pid1 =? 0 then go_echo aa0 aa1 bb0 bb1 else
  if pid1 <? 0 then fail2 "grind: fork failed" 3 else
  let? pid2 := sysv Cfork in
  if pid2 =? 0 then go_cat aa0 aa1 bb0 bb1 else
  if pid2 <? 0 then fail2 "grind: fork failed" 7 else
  sysv (Cclose aa0) ???
  sysv (Cclose aa1) ???
  sysv (Cclose bb1) ???
  let? r0 := sys (Cread bb0 1) in
  let? r1 := sys (Cread bb0 1) in
  let? r2 := sys (Cread bb0 1) in
  let buf := fill [0] (r_bytes r0) ++ fill [0] (r_bytes r1) ++ fill [0] (r_bytes r2) ++ [0] in
  sysv (Cclose bb0) ???
  let? st1 := wait_status junk in
  let? st2 := wait_status junk in
  if negb (st1 =? 0) || negb (st2 =? 0) || negb (bool_decide (until_nul buf = b "hi" ++ [10])) then
    printf ("grind: exec pipeline failed %d %d " +:+ String (Ascii.ascii_of_nat 34) "%s" +:+ String (Ascii.ascii_of_nat 34) nl)
      [UInt st1; UInt st2; UStr (Some (until_nul buf))] ??? u_exit 1
  else uret tt.

(** One of the 23 groups. *)
Definition go_what (junk break0 what : Z) (v : gvars) : U W gvars :=
  let same (c : U W unit) : U W gvars := c ??? uret v in
  if what =? 1 then same (touch (b "grindir/../a") ??? uret tt)
  else if what =? 2 then same (touch (b "grindir/../grindir/../b") ??? uret tt)
  else if what =? 3 then same (sysv (Cunlink (b "grindir/../a")) ??? uret tt)
  else if what =? 4 then same go_chdir
  else if what =? 5 then go_reopen "/grindir/../a" v
  else if what =? 6 then go_reopen "/./grindir/./../b" v
  else if what =? 7 then same (u_write (g_fd v) (g_buf v) ??? uret tt)
  else if what =? 8 then
    let? r := sys (Cread (g_fd v) 999) in
    uret (set_g_buf (fill (g_buf v) (r_bytes r)) v)
  else if what =? 9 then
    same (sysv (Cmkdir (b "grindir/../a")) ??? touch (b "a/../a/./a") ??? sysv (Cunlink (b "a/a")) ??? uret tt)
  else if what =? 10 then
    same (sysv (Cmkdir (b "/../b")) ??? touch (b "grindir/../b/b") ??? sysv (Cunlink (b "b/b")) ??? uret tt)
  else if what =? 11 then
    same (sysv (Cunlink (b "b")) ??? sysv (Clink (b "../grindir/./../a") (b "../b")) ??? uret tt)
  else if what =? 12 then
    same (sysv (Cunlink (b "../grindir/../a")) ??? sysv (Clink (b ".././b") (b "/grindir/../a")) ??? uret tt)
  else if what =? 13 then same (fork_wait (uret tt) (λ _, uret tt))
  else if what =? 14 then same (fork_wait (sysv Cfork ??? sysv Cfork ??? uret tt) (λ _, uret tt))
  else if what =? 15 then same (sysv (Csbrk 6011) ??? uret tt)
  else if what =? 16 then same (go_shrink break0)
  else if what =? 17 then same (fork_wait (touch (b "a") ??? uret tt) go_kill)
  else if what =? 18 then
    same (fork_wait (let? pid := sysv Cgetpid in sysv (Ckill pid) ??? uret tt) (λ _, uret tt))
  else if what =? 19 then same go_pipe
  else if what =? 20 then same go_subdir
  else if what =? 21 then same go_create
  else if what =? 22 then same (go_pipeline junk)
  else uret v.

Definition go_step (which_child : bool) (junk break0 : Z) (v : gvars) : U W (gvars + unit) :=
  let iters := u64 (g_iters v + 1) in
  (if iters `mod` 500 =? 0 then u_write 1 (b (if which_child then "B" else "A")) ??? uret tt else uret tt) ???
  let rand := do_rand (g_rand v) in
  let? v := go_what junk break0 (rand `mod` 23) (mk_gvars (g_fd v) (g_buf v) iters rand) in
  uret (inl v).

Definition go (which_child : bool) (junk rand_next : Z) : U W unit :=
  let? break0 := sysv (Csbrk 0) in
  sysv (Cmkdir (b "grindir")) ???
  let? r := sysv (Cchdir (b "grindir")) in
  if negb (r =? 0) then fail "grind: chdir grindir failed" 1 else
  sysv (Cchdir (b "/")) ???
  uloop (go_step which_child junk break0) (mk_gvars (-1) (replicate 999 0) 0 rand_next).

Definition iter (junk : Z) : U W unit :=
  sysv (Cunlink (b "a")) ???
  sysv (Cunlink (b "b")) ???
  let? pid1 := sysv Cfork in
  if pid1 <? 0 then fail "grind: fork failed" 1 else
  if pid1 =? 0 then go false junk 31 ??? u_exit 0 else
  let? pid2 := sysv Cfork in
  if pid2 <? 0 then fail "grind: fork failed" 1 else
  if pid2 =? 0 then go true junk 7177 ??? u_exit 0 else
  let? st1 := wait_status (-1) in
  (if negb (st1 =? 0) then sysv (Ckill pid1) ??? sysv (Ckill pid2) ??? uret tt else uret tt) ???
  wait_status (-1) ???
  u_exit 0.

Definition grind_turn (junk : Z) (_ : unit) : U W (unit + unit) :=
  let? pid := sysv Cfork in
  if pid =? 0 then iter junk ??? u_exit 0 else
  (if pid >? 0 then sysv Cwait ??? uret tt else uret tt) ???
  sysv (Csleep 20) ???
  uret (inl tt).

Definition grind_main (junk : Z) : U W unit := uloop (grind_turn junk) tt.
End grind.
